(* ===== verification/_CoqProject ===== *)
-Q . S2P
Prelude.v
Float64.v
GoBytes.v
Errors.v
Platform.v
Hex.v
Sha256.v
Tx.v
TxProofs.v
TxSigProofs.v
BatchProofs.v
KV.v
Denom.v
Ledger.v
Staking.v
StakingProofs.v
Gas.v
Mint.v
Node.v
Tree.v
Inclusion.v
NodeProofs.v
TreeProofs.v
InclusionProofs.v
UpdateProofs.v
Contract.v
RootProofs.v
ContractProofs.v
BlockStore.v
Telemetry.v
StateMachine.v
StateMachineProofs.v
BlockProofs.v
FrameProofs.v
Vote.v
VoteProofs.v
QuorumProofs.v
BlockLoop.v
Round.v
RoundProofs.v
Engine.v
EngineProofs.v
EngineDepth.v
EngineSafety.v
EngineLiveness.v
EngineAlone.v
Fork.v
Genesis.v
BlockSync.v
CatchUp.v
Gossip.v
Rpc.v
Stream.v
TelemetryProofs.v
RpcProofs.v
Client.v
Backup.v
Wallet.v
Faucet.v
NetAddr.v
FilePath.v
Config.v
ConfigProofs.v
NodeInit.v
NodeRun.v
Validator.v
Frontend.v
Mcp.v
Framing.v
WalletApi.v
Cli.v
Explorer.v
MerkleBench.v
SparseTree.v
Devnet.v
Analysis.v
Witnesses.v
EngineWitnesses.v
NodeWitnesses.v
ToolWitnesses.v
