(* ===== verification/Prelude.v ===== *)
(** * FRG: a verification of a renormalisation-group ledger

    FRG (src/) is a proof-of-stake ledger written in Go.  Clients submit signed
    transactions over gRPC; nodes gossip them into pools; validators vote on
    proposals round by round; every node applies a committed block to a bbolt
    database in one transaction and commits the block to a 4-ary tree whose
    nodes carry sums and variances of transaction values.  Around the node
    are a client library, a wallet, and commands for operators and agents.

    ** The parts and where they are modelled

    Foundations
    - src/core/errors, hash, keys: [Errors], [Platform].  SHA-256, Ed25519 and
      Unicode normalisation are fields of the class [Platform], with the laws
      the code relies on in [PlatformLaws]; [Sha256] implements them (an
      executable SHA-256 and a toy signature scheme), which shows that the
      laws can hold and lets the witnesses compute.
    - bbolt: the class [KV] with its documented behaviour in [KVLaws], the
      node's buckets as the record [DB] and [db.Update] as [Update], all in
      [KV].  Operations take and return a [DB]; everything above is proved
      against the interface, and [gmap_kv] implements it.
    - encoding/hex: [Hex]; net's addresses: [NetAddr]; path/filepath:
      [FilePath]; strings and math/big: [Denom] and [GoBytes]; float64
      arithmetic: [Float64]; net/textproto: [Framing].

    The ledger
    - src/core/tx: [Tx]; proofs in [TxProofs], [TxSigProofs], [BatchProofs].
    - src/core/denom, ledger, staking, gas, mint, leader: [Denom], [Ledger],
      [Staking], [Gas], [Mint] (modules [mint] and [leader]); more
      proofs about [Staking] in [StakingProofs].
    - src/core/node, tree: [Node], [Tree], [Inclusion] (inclusion proofs and
      queries); proofs in [NodeProofs], [TreeProofs], [InclusionProofs],
      [UpdateProofs], [RootProofs] (which needs [Contract] for the leaves of
      contracts).
    - src/core/contract: [Contract], [ContractProofs].  The engine (wasmtime)
      and the curve arithmetic of the pairing check (gnark-crypto) are the
      class [contract.Wasmtime]: a run of guest code is a finite tree of host
      calls, and every host function is defined from the source.
    - src/core/statemachine: [BlockStore], [Telemetry] (JSON is a parameter),
      [StateMachine]; proofs in [StateMachineProofs], [BlockProofs],
      [FrameProofs], [TelemetryProofs].  Backups, and src/cmd/frg-backup:
      [Backup], over a file system in which every
      call can fail and the process can crash at any point.
    - src/core/genesis: [Genesis], with the theorems about chains that start
      from a genesis file.

    Consensus and the network
    - src/core/consensus: [Vote] (votes, proposals, attestations, quorums),
      [Round] (the round state and its snapshots), [Engine] (every handler,
      timer and the restart); proofs in [VoteProofs], [QuorumProofs],
      [RoundProofs], [EngineProofs], [EngineDepth], [EngineSafety],
      [EngineLiveness], [EngineAlone], and a concrete forking run in [Fork].
    - src/core/blockloop: [BlockLoop].
    - src/core/p2p: [Gossip] (what the readers let into the channels),
      [BlockSync] (the block-sync protocol) and [Stream] (who takes block
      messages out of the channel, and how the network is set up and closed).
    - src/validator: [Validator].

    The node and its clients
    - src/cmd/frg-node: [CatchUp] (catching up from peers), [Rpc]
      (authorization, rate limit, submission, queries), [Config]
      (configuration, the RPC server with its two services and the calls it
      answers), [NodeInit] (the
      init commands and the start), [NodeRun] (main up to the running engine,
      metrics and readiness, one start after another); proofs also in
      [RpcProofs] and [ConfigProofs].
    - src/client: [Client] (AES-GCM is a parameter) and [Stream] (Subscribe).
    - src/wallet, src/cmd/frg-faucet: [Wallet], [Faucet].
    - src/cmd/frg-mcp, frg-wallet, frg-cli, frg-web: [Frontend] (what they
      share), [Mcp] and [Framing] (its pipe), [WalletApi], [Cli], [Explorer]
      (its event stream is in [Stream]).
    - src/cmd/frg-devnet, frg-stress: [Devnet].
    - src/benchmarks/merkle, smt: [MerkleBench], [SparseTree].
    - src/cmd/frg-analysis: [Analysis].

    A file without a Proofs file beside it has its definitions first and then
    its lemmas and theorems.

    [Witnesses], [EngineWitnesses], [NodeWitnesses] and [ToolWitnesses] apply
    each property that has hypotheses to a concrete input.

    This file has what all share: outcomes of Go calls (a value, an error, or a
    panic), their bind notation [let*], loops [foldM] and [mapM], tactics and
    list lemmas.  [GoBytes] has Go's fixed-width integers, byte slices,
    arrays, big integers and a small engine for reading encodings.

    ** How the code is rendered

    A Go function is a function of the same name in a module named after its
    package; a method takes its receiver first; a mutating method returns the
    new state.  A w-bit integer is a [Z] whose wrap-around is written out
    ([wrap64] etc.); a pointer that may be nil is an [option]; a slice
    expression out of range is [Panic].  A database transaction that fails
    leaves the database as it was.  Where the language leaves a choice open it
    is an argument: the number of workers of the parallel checks, and the
    order in which a Go map is visited.  Messages, timers, restarts, answers
    of peers and failures of the operating system come as explicit sequences
    or functions, over which the theorems quantify.

    ** What is shown

    - Blocks and money: applying a block is all-or-nothing and keeps height,
      root, base fee and stored block in step, but a block of the full 65536
      transactions cannot be read again (C1); from genesis on the
      recorded supply is the sum of all balances, however often the node is
      stopped and started again (C2); every branch of a transfer (C24); which
      genesis files start a chain (C34); what telemetry answers about a block
      (C40).
    - Staking: from genesis on and through any blocks escrow covers every bond
      (C7), so withdrawal after the lockup pays (C25).  Both take a list of
      the keys that bond or send, none of which may be able to spend from an
      escrow account of another: no such account is one of these keys, a fee
      account of one or the address of a contract that is deployed.
    - Consensus: one block per round (C3), no equivocation across restarts
      (C4), conflicting attestations convict more than a third of the stake
      (C5), evidence convicts only equivocators (C12), the state is well typed
      (C14) and survives a restart, a held proposal of 65536 transactions
      excepted (C15), the handler's recursion ends (C22);
      across rounds agreement fails, by a run of four honest validators (C6).
    - Trees, with the nodes of contracts a block touched: incremental update
      equals rebuilding (C10), inclusion proofs are complete and sound (C9,
      C8), roots commit to the signed content of a block and to the state of
      its contracts (C11).
    - Pool, sync, gossip: the pool is a bounded queue (C13); catching up applies
      only proposed blocks (C16) and ends (C23); block sync delivers (C17);
      every block message goes to one reader, so subscribers take proposals
      away from the engine (C31).
    - Submission: an accepted message reaches the pools (C19), what becomes of
      a wallet's transfer in every case (C20), the client's queue is a list (C18)
      that loses nothing between its goroutines (C32), the rate limit holds
      (C30), remote calls of the node's service need a configured certificate
      and those of the health service one of the CA (C29), backups are atomic
      (C21).
    - Contracts: guest code is confined by the host interface (C26).
    - Encodings round-trip (C27) and signatures bind what they cover (C28).
    - Tools: an agent stays within its policy (C33), the explorer dials loopback
      only (C39), a node starts on the directory that was prepared for it
      (C35), and a first network comes up and makes blocks (C36); an agent's
      session over a pipe is the session of its messages (C38).  Where a tool
      does not do what it means to, the theorem says what it does: generated
      devnet configurations (C37).

    The files have more theorems than these, among them the transfer to oneself
    that mints, the backups' panic, the blindness of roots to receivers, the
    block one validator can forge for a node that catches up, the stuck queue,
    the race of the faucet, relative data directories, prepared transfers, the
    sparse tree's reference, the limits of the encodings, and what the
    analysis of patterns measures.  Theorems that depend on collision
    resistance have a second case that exhibits two different messages with
    one digest among those the code hashed ([hash.collision]); nothing is
    assumed about the hash.

    ** Fuel and bounds

    Loops over slices are structural.  Fuel appears in [node.NullNode_rec] (nine
    calls, the number of scales), [tree.coarsenAll], [tree.coarsenLoop] and
    [inclusion.stepLoop] (the length of the layer, which shrinks), where
    running out is [Panic], and C9 and C10 show that it does not happen; in
    [engine.handleVote], where C22 gives the depth; in
    [catchup.catchUpCommittedBlocks], where running out is [None] and C23 gives
    a bound; in [netaddr.groups] (eight groups of an address), in the layer
    loops of the benchmark tree (the length of the layer), in the header lines
    of [textproto] (the length of the input) and in [noderun.main], which hands
    it to the catch-up and the engine.

    ** Parameters

    Platform, KV and their laws; [contract.Wasmtime]; JSON of telemetry (what
    is written is read back), of agent requests, of HTTP bodies and of genesis
    files; the bbolt file format
    ([Bolt]); AES-GCM; libp2p's identifiers; which certificates a client CA has
    signed; the TOML decoder, of which C35 and C36 assume that it sets the
    field of every key it reads in documents of printable strings.  The
    witnesses give an instance of each.

    ** What is not modelled

    - Libraries the code calls: libp2p, gRPC and its generated protobuf code, HTTP
      servers, bbolt below its documented behaviour, wasmtime, gnark-crypto, the
      JSON and TOML codecs, dialling and TLS.  They are parameters where the
      code depends on their answers; they are not in the repository.
    - Flag parsing by the flag package (frg-cli parses its own flags, which is
      modelled) and what is only printed: logs, usage texts, tables, the
      progress of frg-stress.
    - The page of the explorer, a constant of HTML and script, and the
      descriptions in the schemas of the agent's tools.
    - Durations: timers and deadlines are events that come in any order.
    - Timing harnesses of the benchmarks, the protocol definition in src/proto
      and the Python agents. *)

From stdpp Require Export base list gmap strings countable sorting.
From Stdlib Require Export ZArith Lia Strings.Byte.

Declare Scope frg_scope.
Delimit Scope frg_scope with frg.
#[global] Open Scope Z_scope.

(** ** Outcomes of Go calls

    A Go call returns a value, returns an error, or panics.  The last case is
    kept apart from errors: a caller can handle an [Err], nothing in the
    modelled code recovers from a [Panic]. *)
Inductive outcome (E A : Type) : Type :=
| Ok (a : A)
| Err (e : E)
| Panic.
Arguments Ok {E A} a.
Arguments Err {E A} e.
Arguments Panic {E A}.

#[export] Instance outcome_eq_dec {E A} `{EqDecision E, EqDecision A} : EqDecision (outcome E A).
Proof. solve_decision. Defined.

Definition obind {E A B} (m : outcome E A) (k : A -> outcome E B) : outcome E B :=
  match m with
  | Ok a => k a
  | Err e => Err e
  | Panic => Panic
  end.

Notation "'let*' x ':=' m 'in' k" := (obind m (fun x => k))
  (at level 10, x name, m at level 100, k at level 200) : frg_scope.
Notation "'let*' ' p ':=' m 'in' k" := (obind m (fun x => let 'p := x in k))
  (at level 10, p pattern, m at level 100, k at level 200) : frg_scope.
#[global] Open Scope frg_scope.

(** [foldM] is a Go loop over a slice that threads state and returns on the
    first error; [mapM] builds a slice element by element. *)
Fixpoint foldM {E S A} (f : S -> A -> outcome E S) (s : S) (l : list A) : outcome E S :=
  match l with
  | [] => Ok s
  | a :: l' => let* s' := f s a in foldM f s' l'
  end.

Fixpoint mapM {E A B} (f : A -> outcome E B) (l : list A) : outcome E (list B) :=
  match l with
  | [] => Ok []
  | a :: l' => let* b := f a in let* bs := mapM f l' in Ok (b :: bs)
  end.

Definition is_Ok {E A} (m : outcome E A) : bool :=
  match m with Ok _ => true | _ => false end.

Definition sumZ (l : list Z) : Z := foldr Z.add 0 l.

Definition zlen {A} (l : list A) : Z := Z.of_nat (length l).

(** ** Tactics and hint databases *)
Create HintDb frg.
Create Rewrite HintDb len.

(** Split a hypothesis [obind m k = Ok r] (or a chain of them) into the steps
    that succeeded, naming the equations. *)
Ltac ostep_in H :=
  lazymatch type of H with
  | obind ?m _ = _ =>
      let E := fresh "E" in
      destruct m eqn:E; cbn [obind] in H; try discriminate H
  | (let '(_, _) := ?p in _) = _ => destruct p; cbn [obind] in H
  | (if ?b then _ else _) = _ =>
      let E := fresh "E" in
      destruct b eqn:E; cbn [obind] in H; try discriminate H
  | match ?x with _ => _ end = _ =>
      let E := fresh "E" in
      destruct x eqn:E; cbn [obind] in H; try discriminate H
  end.
Ltac osteps H := repeat ostep_in H.

(** Boolean comparisons of the code become propositions [lia] reads. *)
Ltac bsimp :=
  repeat match goal with
  | H : (_ =? _)%Z = true |- _ => apply Z.eqb_eq in H
  | H : (_ =? _)%Z = false |- _ => apply Z.eqb_neq in H
  | H : (_ <? _)%Z = true |- _ => apply Z.ltb_lt in H
  | H : (_ <? _)%Z = false |- _ => apply Z.ltb_ge in H
  | H : (_ <=? _)%Z = true |- _ => apply Z.leb_le in H
  | H : (_ <=? _)%Z = false |- _ => apply Z.leb_gt in H
  | H : (_ >? _)%Z = true |- _ => apply Z.gtb_gt in H
  | H : (_ >? _)%Z = false |- _ => rewrite Z.gtb_ltb in H; apply Z.ltb_ge in H
  | H : (_ >=? _)%Z = true |- _ => rewrite Z.geb_leb in H; apply Z.leb_le in H
  | H : (_ >=? _)%Z = false |- _ => rewrite Z.geb_leb in H; apply Z.leb_gt in H
  | H : (_ && _)%bool = true |- _ => apply andb_true_iff in H; destruct H
  | H : (_ || _)%bool = false |- _ => apply orb_false_iff in H; destruct H
  | H : negb _ = true |- _ => apply negb_true_iff in H
  | H : negb _ = false |- _ => apply negb_false_iff in H
  | H : bool_decide _ = true |- _ => apply bool_decide_eq_true in H
  | H : bool_decide _ = false |- _ => apply bool_decide_eq_false in H
  | H : ~ (?a <> ?b) |- _ => apply dec_stable in H
  end.

(** Evaluate one test of the goal from an arithmetic fact. *)
Ltac ztest :=
  match goal with
  | |- context [ (?a =? ?b)%Z ] =>
      first [ replace (a =? b)%Z with true by (symmetry; apply Z.eqb_eq; lia)
            | replace (a =? b)%Z with false by (symmetry; apply Z.eqb_neq; lia) ]
  | |- context [ (?a <? ?b)%Z ] =>
      first [ replace (a <? b)%Z with true by (symmetry; apply Z.ltb_lt; lia)
            | replace (a <? b)%Z with false by (symmetry; apply Z.ltb_ge; lia) ]
  | |- context [ (?a <=? ?b)%Z ] =>
      first [ replace (a <=? b)%Z with true by (symmetry; apply Z.leb_le; lia)
            | replace (a <=? b)%Z with false by (symmetry; apply Z.leb_gt; lia) ]
  | |- context [ (?a >? ?b)%Z ] => rewrite (Z.gtb_ltb a b)
  | |- context [ (?a >=? ?b)%Z ] => rewrite (Z.geb_leb a b)
  end.

(** ** Outcomes *)
Lemma Ok_inj {E A} (a b : A) : Ok (E := E) a = Ok b -> a = b.
Proof. congruence. Qed.

Lemma obind_ok_inv {E A B} (m : outcome E A) (k : A -> outcome E B) b :
  obind m k = Ok b -> exists a, m = Ok a /\ k a = Ok b.
Proof. destruct m; simpl; naive_solver. Qed.

Lemma obind_assoc {E A B C} (m : outcome E A) (k : A -> outcome E B) (h : B -> outcome E C) :
  obind (obind m k) h = obind m (fun a => obind (k a) h).
Proof. by destruct m. Qed.

Lemma obind_ext {E A B} (m : outcome E A) (k1 k2 : A -> outcome E B) :
  (forall a, m = Ok a -> k1 a = k2 a) -> obind m k1 = obind m k2.
Proof. destruct m; simpl; auto. Qed.

Lemma foldM_app {E S A} (f : S -> A -> outcome E S) l1 l2 s :
  foldM f s (l1 ++ l2) = let* s' := foldM f s l1 in foldM f s' l2.
Proof. revert s; induction l1; intros; simpl; auto. destruct (f s a); simpl; auto. Qed.

(** Loop rule: an invariant kept by every iteration that succeeds holds at the end. *)
Lemma foldM_inv {E S A} (f : S -> A -> outcome E S) (I : S -> Prop) l s s' :
  (forall t t' a, a ∈ l -> I t -> f t a = Ok t' -> I t') ->
  I s -> foldM f s l = Ok s' -> I s'.
Proof.
  revert s; induction l as [|a l IH]; simpl; intros s Hf Hs H; [by simplify_eq|].
  apply obind_ok_inv in H as (t & Ht & H).
  eapply (IH t); eauto.
  - intros; eapply Hf; eauto. set_solver.
  - eapply Hf; eauto. set_solver.
Qed.

Lemma foldM_const {E S A} (f : S -> A -> outcome E S) s l :
  (forall a, a ∈ l -> f s a = Ok s) -> foldM f s l = Ok s.
Proof.
  induction l as [|a l IH]; intros Hf; cbn [foldM]; [done|].
  rewrite Hf by set_solver. apply IH. set_solver.
Qed.

Lemma foldM_unit {E A} (f : A -> outcome E unit) l :
  (forall a, a ∈ l -> f a = Ok tt) -> foldM (fun _ a => f a) tt l = Ok tt.
Proof. exact (foldM_const (fun _ a => f a) tt l). Qed.

Lemma mapM_length {E A B} (f : A -> outcome E B) l l' :
  mapM f l = Ok l' -> length l' = length l.
Proof.
  revert l'; induction l; simpl; intros l' H; [by simplify_eq|].
  osteps H; simplify_eq; simpl; auto.
Qed.

Lemma mapM_Forall2 {E A B} (f : A -> outcome E B) l l' :
  mapM f l = Ok l' <-> Forall2 (fun a b => f a = Ok b) l l'.
Proof.
  split.
  - revert l'; induction l; simpl; intros l' H; [simplify_eq; constructor|].
    osteps H; simplify_eq; constructor; auto.
  - induction 1 as [|a b l l' Hab _ IH]; simpl; [done|]. by rewrite Hab; simpl; rewrite IH.
Qed.

(** ** Sums *)
Lemma sumZ_cons z l : sumZ (z :: l) = z + sumZ l.
Proof. done. Qed.

Lemma sumZ_app l1 l2 : sumZ (l1 ++ l2) = sumZ l1 + sumZ l2.
Proof. induction l1; simpl; lia. Qed.

#[export] Instance sumZ_proper : Proper (Permutation ==> eq) sumZ.
Proof. intros l1 l2; induction 1; simpl in *; lia. Qed.

Lemma sumZ_nonneg l : Forall (fun z => 0 <= z) l -> 0 <= sumZ l.
Proof. induction 1; simpl; lia. Qed.

Lemma sumZ_replicate n z : sumZ (replicate n z) = Z.of_nat n * z.
Proof. induction n; simpl; lia. Qed.

(** ** Lists *)
Lemma zlen_app {A} (l1 l2 : list A) : zlen (l1 ++ l2) = zlen l1 + zlen l2.
Proof. unfold zlen. rewrite length_app. lia. Qed.

Lemma zlen_cons {A} (a : A) l : zlen (a :: l) = 1 + zlen l.
Proof. unfold zlen. simpl length. lia. Qed.

Lemma zlen_nil {A} : zlen (@nil A) = 0.
Proof. done. Qed.

Lemma zlen_one {A} (a : A) : zlen [a] = 1.
Proof. done. Qed.

Lemma zlen_nonneg {A} (l : list A) : 0 <= zlen l.
Proof. unfold zlen. lia. Qed.

#[export] Hint Rewrite @zlen_app @zlen_cons @zlen_nil : len.
#[export] Hint Resolve zlen_nonneg : frg.

(** Two concatenations with equal first lengths split. *)
Lemma app_inj_len {A} (a b c d : list A) :
  length a = length c -> a ++ b = c ++ d -> a = c /\ b = d.
Proof. intros; by apply app_inj_1. Qed.
