(* ===== verification/Float64.v ===== *)
(** * Go's float64

    Binary64 arithmetic with rounding to nearest, ties to even, by the
    executable specification of the standard library (no axioms).  Go permits
    an implementation to fuse a multiplication with the addition that uses
    it; the model rounds both, as the amd64 compiler does. *)

From Stdlib Require Import Floats.SpecFloat.
From S2P Require Import Prelude.

Module float64.

Abbreviation t := spec_float.

Definition zero : t := S754_zero false.

(** [float64(z)] of an integer. *)
Definition of_int (z : Z) : t := binary_normalize 53 1024 z 0 false.

Definition add (x y : t) : t := SFadd 53 1024 x y.
Definition sub (x y : t) : t := SFsub 53 1024 x y.
Definition mul (x y : t) : t := SFmul 53 1024 x y.
Definition div (x y : t) : t := SFdiv 53 1024 x y.
Definition ltb (x y : t) : bool := SFltb x y.

(** [int64(x)]: towards zero; an argument out of range or not a number is left
    to the implementation, which is [None] here. *)
Definition to_int64 (x : t) : option Z :=
  match x with
  | S754_zero _ => Some 0
  | S754_finite s m e =>
    let z := if 0 <=? e then Zpos m * 2 ^ e else Zpos m / 2 ^ (- e) in
    let z := if s then - z else z in
    if (- 2 ^ 63 <=? z) && (z <? 2 ^ 63) then Some z else None
  | _ => None
  end.

(** Neither negative nor a negative zero. *)
Definition nonneg (x : t) : Prop :=
  match x with
  | S754_zero s | S754_infinity s | S754_finite s _ _ => s = false
  | S754_nan => True
  end.

Definition finite (x : t) : Prop :=
  match x with
  | S754_zero _ | S754_finite _ _ _ => True
  | _ => False
  end.

#[export] Instance t_eq_dec : EqDecision t.
Proof. intros x y. unfold Decision. decide equality; apply Bool.bool_dec || apply Pos.eq_dec || apply Z.eq_dec. Defined.

Lemma round_nonneg m e l : nonneg (binary_round_aux 53 1024 false m e l).
Proof.
  unfold binary_round_aux. destruct (shr_fexp 53 1024 m e l) as [mrs' e'].
  destruct (shr_fexp _ _ _ _ _) as [mrs'' e'']. destruct (shr_m mrs''); [done| |done]. by case_match.
Qed.

(** A square is not negative. *)
Lemma square_nonneg x : nonneg (mul x x).
Proof.
  destruct x as [s|s| |s m e]; cbn; try (by destruct s); [done|].
  rewrite xorb_nilpotent. apply round_nonneg.
Qed.

Lemma normalize_nonneg m e : 0 <= m -> nonneg (binary_normalize 53 1024 m e false).
Proof.
  intros Hm. destruct m as [|p|p]; [done| |lia]. cbn. unfold binary_round.
  destruct (shl_align _ _ _) as [mz ez]. apply round_nonneg.
Qed.

Lemma add_nonneg x y : nonneg x -> nonneg y -> nonneg (add x y).
Proof.
  intros Hx Hy. destruct x as [s|s| |s m e], y as [s'|s'| |s' m' e']; cbn in Hx, Hy; subst; try done.
  apply (normalize_nonneg (_ + _)). cbn. lia.
Qed.

(** Nothing that is not negative is below zero. *)
Lemma ltb_zero x : nonneg x -> ltb x zero = false.
Proof. destruct x as [s|s| |s m e]; cbn; intros Hx; subst; done. Qed.

Lemma sub_self x : finite x -> sub x x = zero.
Proof.
  destruct x as [s|s| |s m e]; cbn; [by destruct s|done|done|]. intros _. by rewrite Z.sub_diag.
Qed.

Lemma add_zero_zero : add zero (mul zero zero) = zero.
Proof. done. Qed.
End float64.
