(* ===== verification/GoBytes.v ===== *)
(** * Bytes, machine integers and big integers of Go

    What the program uses of the language and its standard library: byte
    slices with their bounds checks, fixed-size arrays, the big-endian codecs
    of encoding/binary, [math/big]'s [Bytes]/[SetBytes], [bytes.Compare] and
    [utf8.ValidString]. *)

From S2P Require Import Prelude.

Abbreviation bytes := (list byte).

(** ** Bytes *)
Definition byte_to_Z (b : byte) : Z := Z.of_N (Byte.to_N b).

(** Conversion [byte(z)] keeps the low eight bits. *)
Definition byte_of_Z (z : Z) : byte :=
  match Byte.of_N (Z.to_N (z mod 256)) with
  | Some b => b
  | None => x00
  end.

#[export] Instance byte_eq_dec : EqDecision byte.
Proof. intros a b. destruct (Byte.byte_eq_dec a b); [by left|by right]. Defined.

#[export] Instance byte_countable : Countable byte :=
  inj_countable Byte.to_N Byte.of_N Byte.of_to_N.

(** A Go string constant as its bytes. *)
Definition str (s : string) : bytes := String.list_byte_of_string s.

(** ** Machine integers *)
Definition two8 : Z := 2 ^ 8.
Definition two16 : Z := 2 ^ 16.
Definition two32 : Z := 2 ^ 32.
Definition two63 : Z := 2 ^ 63.
Definition two64 : Z := 2 ^ 64.
Definition two256 : Z := 2 ^ 256.

Definition wrap8 (z : Z) : Z := z mod two8.
Definition wrap16 (z : Z) : Z := z mod two16.
Definition wrap32 (z : Z) : Z := z mod two32.
Definition wrap64 (z : Z) : Z := z mod two64.

(** [int32(z)] of an unsigned 32-bit value. *)
Definition int32_of (z : Z) : Z := (z + 2 ^ 31) mod two32 - 2 ^ 31.

Definition is_u8 (z : Z) : Prop := 0 <= z < two8.
Definition is_u16 (z : Z) : Prop := 0 <= z < two16.
Definition is_u32 (z : Z) : Prop := 0 <= z < two32.
Definition is_u64 (z : Z) : Prop := 0 <= z < two64.
Definition is_u256 (z : Z) : Prop := 0 <= z < two256.

(** ** Big-endian codecs *)
Fixpoint be_enc (n : nat) (z : Z) : bytes :=
  match n with
  | O => []
  | S n' => be_enc n' (z / 256) ++ [byte_of_Z z]
  end.

Definition be_dec (l : bytes) : Z :=
  foldl (fun acc b => acc * 256 + byte_to_Z b) 0 l.

(** [PutUint16], [PutUint32], [PutUint64] of encoding/binary. *)
Definition put16 (z : Z) : bytes := be_enc 2 z.
Definition put32 (z : Z) : bytes := be_enc 4 z.
Definition put64 (z : Z) : bytes := be_enc 8 z.

(** ** Slices *)

Section Slices.
Context {E : Type}.

(** [l[i:j]]; panics unless 0 <= i <= j <= len(l). *)
Definition slice {A} (l : list A) (i j : Z) : outcome E (list A) :=
  if ((0 <=? i) && (i <=? j) && (j <=? zlen l))%bool
  then Ok (take (Z.to_nat (j - i)) (drop (Z.to_nat i) l))
  else Panic.

(** [l[i]]; panics out of range. *)
Definition index {A} (l : list A) (i : Z) : outcome E A :=
  if (0 <=? i)%Z then
    match l !! Z.to_nat i with
    | Some a => Ok a
    | None => Panic
    end
  else Panic.

(** [binary.BigEndian.Uint16(l[pos:])] and its siblings: the slice expression
    panics when pos > len(l), the read when fewer bytes remain. *)
Definition be_at (n : nat) (l : bytes) (pos : Z) : outcome E Z :=
  let* s := slice l pos (pos + Z.of_nat n) in Ok (be_dec s).
Definition u16_at : bytes -> Z -> outcome E Z := be_at 2.
Definition u32_at : bytes -> Z -> outcome E Z := be_at 4.
Definition u64_at : bytes -> Z -> outcome E Z := be_at 8.
End Slices.

(** ** Fixed-size arrays [[n]byte] *)
Record arr (n : nat) : Type := Arr
  { arr_bytes :> bytes; arr_len : Is_true (Nat.eqb (length arr_bytes) n) }.
Arguments Arr {n} arr_bytes arr_len.
Arguments arr_bytes {n} a.

(** A proof that reduces to [I] on concrete data, so arrays stay comparable by
    computation. *)
Definition Is_true_of (b : bool) : b = true -> Is_true b :=
  match b with
  | true => fun _ => I
  | false => fun H => match Bool.diff_false_true H with end
  end.

(** [copy(dst, src)] into an array that starts as zeros. *)
Definition copy_to (n : nat) (src : bytes) : bytes :=
  take n src ++ replicate (n - length src) x00.

Lemma copy_to_length n src : Nat.eqb (length (copy_to n src)) n = true.
Proof.
  apply Nat.eqb_eq. unfold copy_to.
  rewrite length_app, length_take, length_replicate. lia.
Qed.

Definition mk_arr (n : nat) (src : bytes) : arr n :=
  Arr (copy_to n src) (Is_true_of _ (copy_to_length n src)).

Definition zero_arr (n : nat) : arr n := mk_arr n [].

Lemma arr_eq n (a b : arr n) : arr_bytes a = arr_bytes b -> a = b.
Proof.
  destruct a as [a Ha], b as [b Hb]; simpl; intros ->.
  f_equal. apply proof_irrel.
Qed.

#[export] Instance arr_eq_dec n : EqDecision (arr n).
Proof.
  intros a b. destruct (decide (arr_bytes a = arr_bytes b)) as [H|H].
  - left. by apply arr_eq.
  - right. by intros ->.
Defined.

Lemma arr_length n (a : arr n) : length (arr_bytes a) = n.
Proof. destruct a as [l Hl]; simpl. by apply Is_true_eq_true, Nat.eqb_eq in Hl. Qed.

Lemma zlen_arr n (a : arr n) : zlen (arr_bytes a) = Z.of_nat n.
Proof. unfold zlen. by rewrite arr_length. Qed.
#[export] Hint Rewrite zlen_arr : len.

Lemma mk_arr_exact n l : length l = n -> arr_bytes (mk_arr n l) = l.
Proof.
  intros <-. simpl. unfold copy_to. rewrite take_ge, Nat.sub_diag by lia. apply app_nil_r.
Qed.

Lemma mk_arr_bytes n (a : arr n) : mk_arr n (arr_bytes a) = a.
Proof. apply arr_eq, mk_arr_exact, arr_length. Qed.

#[export] Instance arr_countable n : Countable (arr n) :=
  inj_countable' arr_bytes (mk_arr n) (mk_arr_bytes n).

(** ** [math/big] *)

(** The least number of bytes that hold |z|. *)
Definition nbytes (z : Z) : nat :=
  if z =? 0 then 0%nat else Z.to_nat (Z.log2 (Z.abs z) / 8 + 1).

(** [z.Bytes()]: the absolute value, big-endian, no leading zero. *)
Definition big_Bytes (z : Z) : bytes := be_enc (nbytes z) (Z.abs z).

(** [new(big.Int).SetBytes(l)]. *)
Definition big_SetBytes (l : bytes) : Z := be_dec l.

(** Write a big integer right-aligned into [n] zero bytes, the idiom
    [copy(buf[n-len(b):], b)]; the slice expression panics when it is longer. *)
Definition put_big {E} (n : nat) (z : Z) : outcome E bytes :=
  let b := big_Bytes z in
  if Nat.leb (length b) n then Ok (replicate (n - length b) x00 ++ b) else Panic.

(** ** [bytes.Compare] *)
Fixpoint bytes_compare (a b : bytes) : comparison :=
  match a, b with
  | [], [] => Eq
  | [], _ => Lt
  | _, [] => Gt
  | x :: a', y :: b' =>
      match (byte_to_Z x ?= byte_to_Z y)%Z with
      | Eq => bytes_compare a' b'
      | c => c
      end
  end.
Definition bytes_ltb (a b : bytes) : bool :=
  match bytes_compare a b with Lt => true | _ => false end.
Definition bytes_leb (a b : bytes) : bool :=
  match bytes_compare a b with Gt => false | _ => true end.

(** ** [utf8.ValidString] *)
Definition utf8_cont (b : byte) : bool := (128 <=? byte_to_Z b) && (byte_to_Z b <=? 191).

(** The accepted range of the second byte depends on the first (no overlong
    forms, no surrogates, nothing above U+10FFFF). *)
Definition utf8_second (b0 b1 : byte) : bool :=
  let z := byte_to_Z b0 in
  let w := byte_to_Z b1 in
  let lo := if z =? 224 then 160 else if z =? 240 then 144 else 128 in
  let hi := if z =? 237 then 159 else if z =? 244 then 143 else 191 in
  (lo <=? w) && (w <=? hi).

Fixpoint utf8_valid (l : bytes) : bool :=
  match l with
  | [] => true
  | b0 :: r =>
      let z := byte_to_Z b0 in
      if z <? 128 then utf8_valid r
      else if (194 <=? z) && (z <=? 223) then
        match r with
        | b1 :: r1 => utf8_cont b1 && utf8_valid r1
        | _ => false
        end
      else if (224 <=? z) && (z <=? 239) then
        match r with
        | b1 :: b2 :: r2 => utf8_second b0 b1 && utf8_cont b2 && utf8_valid r2
        | _ => false
        end
      else if (240 <=? z) && (z <=? 244) then
        match r with
        | b1 :: b2 :: b3 :: r3 =>
            utf8_second b0 b1 && utf8_cont b2 && utf8_cont b3 && utf8_valid r3
        | _ => false
        end
      else false
  end.

(** ** Lemmas *)
Lemma byte_to_Z_range b : 0 <= byte_to_Z b < 256.
Proof. unfold byte_to_Z. pose proof (Byte.to_N_bounded b). lia. Qed.

Lemma byte_to_of_Z z : byte_to_Z (byte_of_Z z) = z mod 256.
Proof.
  unfold byte_of_Z, byte_to_Z.
  pose proof (Z.mod_pos_bound z 256 ltac:(lia)) as Hb.
  destruct (Byte.of_N (Z.to_N (z mod 256))) as [b|] eqn:E.
  - apply Byte.to_of_N in E. rewrite E. lia.
  - apply Byte.of_N_None_iff in E. lia.
Qed.

Lemma byte_to_Z_inj a b : byte_to_Z a = byte_to_Z b -> a = b.
Proof.
  unfold byte_to_Z. intros H. apply N2Z.inj in H.
  pose proof (Byte.of_to_N a). pose proof (Byte.of_to_N b). congruence.
Qed.

Lemma byte_of_to_Z b : byte_of_Z (byte_to_Z b) = b.
Proof.
  apply byte_to_Z_inj. rewrite byte_to_of_Z. apply Z.mod_small, byte_to_Z_range.
Qed.

Lemma byte_of_Z_mod z : byte_of_Z (z mod 256) = byte_of_Z z.
Proof. apply byte_to_Z_inj. by rewrite !byte_to_of_Z, Z.mod_mod by lia. Qed.

Lemma be_enc_length n z : length (be_enc n z) = n.
Proof. revert z; induction n; intros; simpl; [done|]. rewrite length_app, IHn. simpl. lia. Qed.

Lemma zlen_be_enc n z : zlen (be_enc n z) = Z.of_nat n.
Proof. unfold zlen. by rewrite be_enc_length. Qed.

Lemma zlen_put16 z : zlen (put16 z) = 2.
Proof. apply zlen_be_enc. Qed.
Lemma zlen_put32 z : zlen (put32 z) = 4.
Proof. apply zlen_be_enc. Qed.
Lemma zlen_put64 z : zlen (put64 z) = 8.
Proof. apply zlen_be_enc. Qed.
#[export] Hint Rewrite zlen_be_enc zlen_put16 zlen_put32 zlen_put64 : len.

Lemma be_dec_app l1 l2 : be_dec (l1 ++ l2) = be_dec l1 * 256 ^ zlen l2 + be_dec l2.
Proof.
  induction l2 as [|b l2 IH] using rev_ind.
  - rewrite app_nil_r. unfold be_dec at 3; simpl. rewrite zlen_nil. lia.
  - rewrite app_assoc. unfold be_dec at 1. rewrite foldl_app. simpl.
    fold (be_dec (l1 ++ l2)). rewrite IH. rewrite zlen_app, zlen_one.
    rewrite Z.pow_add_r by (pose proof (zlen_nonneg l2); lia).
    unfold be_dec at 4. rewrite foldl_app. simpl. fold (be_dec l2). lia.
Qed.

Lemma be_dec_nil : be_dec [] = 0.
Proof. done. Qed.

Lemma be_dec_one b : be_dec [b] = byte_to_Z b.
Proof. unfold be_dec; simpl. lia. Qed.

Lemma be_dec_range l : 0 <= be_dec l < 256 ^ zlen l.
Proof.
  induction l as [|b l IH] using rev_ind; [unfold be_dec, zlen; simpl; lia|].
  rewrite be_dec_app. rewrite be_dec_one. rewrite zlen_app, zlen_one.
  pose proof (byte_to_Z_range b). rewrite Z.pow_add_r by (pose proof (zlen_nonneg l); lia).
  change (256 ^ 1) with 256. nia.
Qed.

Lemma be_dec_enc n z : be_dec (be_enc n z) = z mod 256 ^ Z.of_nat n.
Proof.
  revert z; induction n; intros z.
  - simpl. by rewrite be_dec_nil, Z.mod_1_r.
  - cbn [be_enc]. rewrite be_dec_app, be_dec_one, IHn, byte_to_of_Z, zlen_one.
    change (256 ^ 1) with 256.
    rewrite Nat2Z.inj_succ, <- Z.add_1_l, Z.pow_add_r by lia.
    change (256 ^ 1) with 256.
    rewrite Z.rem_mul_r by lia. lia.
Qed.

Lemma be_dec_enc_small n z : 0 <= z < 256 ^ Z.of_nat n -> be_dec (be_enc n z) = z.
Proof. intros. by rewrite be_dec_enc, Z.mod_small. Qed.

Lemma be_enc_dec l : be_enc (length l) (be_dec l) = l.
Proof.
  induction l as [|b l IH] using rev_ind; [done|].
  rewrite length_app, Nat.add_comm. cbn [length Nat.add be_enc].
  rewrite be_dec_app, be_dec_one, zlen_one. change (256 ^ 1) with 256.
  pose proof (byte_to_Z_range b) as Hb.
  rewrite Z.div_add_l, (Z.div_small (byte_to_Z b)), Z.add_0_r, IH by lia.
  f_equal. f_equal.
  rewrite <- (byte_of_Z_mod (_ * _ + _)).
  rewrite Z.add_comm, Z_mod_plus_full, Z.mod_small by lia. apply byte_of_to_Z.
Qed.

Lemma be_enc_dec_len n l : length l = n -> be_enc n (be_dec l) = l.
Proof. intros <-. apply be_enc_dec. Qed.

Lemma be_enc_inj n a b :
  0 <= a < 256 ^ Z.of_nat n -> 0 <= b < 256 ^ Z.of_nat n -> be_enc n a = be_enc n b -> a = b.
Proof. intros Ha Hb H. apply (f_equal be_dec) in H. by rewrite !be_dec_enc_small in H. Qed.

Lemma be_dec_zeros n l : be_dec (replicate n x00 ++ l) = be_dec l.
Proof.
  rewrite be_dec_app.
  assert (be_dec (replicate n x00) = 0) as ->; [|lia].
  induction n; [done|]. rewrite replicate_S_end, be_dec_app, IHn, be_dec_one. done.
Qed.

Lemma nbytes_bound z : Z.abs z < 256 ^ Z.of_nat (nbytes z).
Proof.
  unfold nbytes. destruct (Z.eqb_spec z 0) as [->|Hz]; [simpl; lia|].
  pose proof (Z.log2_nonneg (Z.abs z)) as Hl.
  pose proof (Z.div_pos (Z.log2 (Z.abs z)) 8 Hl ltac:(lia)) as Hq.
  rewrite Z2Nat.id by lia.
  change 256 with (2 ^ 8). rewrite <- Z.pow_mul_r by lia.
  eapply Z.lt_le_trans; [apply Z.log2_spec; lia|].
  apply Z.pow_le_mono_r; [lia|].
  pose proof (Z.div_mod (Z.log2 (Z.abs z)) 8 ltac:(lia)).
  pose proof (Z.mod_pos_bound (Z.log2 (Z.abs z)) 8 ltac:(lia)). lia.
Qed.

Lemma nbytes_le n z : 0 <= z < 256 ^ Z.of_nat n -> (nbytes z <= n)%nat.
Proof.
  intros Hz. unfold nbytes. destruct (Z.eqb_spec z 0) as [->|Hne]; [lia|].
  rewrite Z.abs_eq by lia.
  assert (Z.log2 z < 8 * Z.of_nat n).
  { apply Z.log2_lt_pow2; [lia|]. rewrite Z.pow_mul_r by lia. apply Hz. }
  assert (Z.log2 z / 8 < Z.of_nat n) by (apply Z.div_lt_upper_bound; lia).
  pose proof (Z.log2_nonneg z). pose proof (Z.div_pos (Z.log2 z) 8). lia.
Qed.

Lemma nbytes_ge n z : 256 ^ Z.of_nat n <= z -> (n < nbytes z)%nat.
Proof.
  intros Hz. pose proof (nbytes_bound z) as H.
  assert (0 < 256 ^ Z.of_nat n) by (apply Z.pow_pos_nonneg; lia).
  rewrite Z.abs_eq in H by lia.
  destruct (decide (n < nbytes z)%nat); [done|].
  assert (256 ^ Z.of_nat (nbytes z) <= 256 ^ Z.of_nat n) by (apply Z.pow_le_mono_r; lia). lia.
Qed.

Lemma big_SetBytes_Bytes z : big_SetBytes (big_Bytes z) = Z.abs z.
Proof.
  unfold big_SetBytes, big_Bytes. rewrite be_dec_enc, Z.mod_small; [done|].
  split; [lia|]. apply nbytes_bound.
Qed.

Lemma be_enc_pad n m z :
  0 <= z < 256 ^ Z.of_nat m -> be_enc (n + m) z = replicate n x00 ++ be_enc m z.
Proof.
  intros Hz. pose proof (be_enc_dec (replicate n x00 ++ be_enc m z)) as H.
  rewrite length_app, length_replicate, be_enc_length, be_dec_zeros in H.
  by rewrite be_dec_enc_small in H.
Qed.

(** On values that fit, the right-aligned write is the plain big-endian codec. *)
Lemma put_big_ok {E} n z : 0 <= z < 256 ^ Z.of_nat n -> put_big (E := E) n z = Ok (be_enc n z).
Proof.
  intros Hz. unfold put_big, big_Bytes. rewrite be_enc_length.
  pose proof (nbytes_le n z Hz) as Hle. rewrite (proj2 (Nat.leb_le _ _) Hle).
  f_equal. rewrite Z.abs_eq by lia.
  replace n with ((n - nbytes z) + nbytes z)%nat at 2 by lia.
  rewrite be_enc_pad; [done|]. pose proof (nbytes_bound z). lia.
Qed.

Lemma put_big_panic {E} n z : 256 ^ Z.of_nat n <= z -> put_big (E := E) n z = Panic.
Proof.
  intros Hz. unfold put_big, big_Bytes. rewrite be_enc_length.
  pose proof (nbytes_ge n z Hz). by rewrite (proj2 (Nat.leb_gt _ _)).
Qed.

(** *** Slices of concatenations *)
Section SliceLemmas.
Context {E : Type}.

Lemma slice_ok {A} (l : list A) i j :
  0 <= i -> i <= j -> j <= zlen l ->
  slice (E := E) l i j = Ok (take (Z.to_nat (j - i)) (drop (Z.to_nat i) l)).
Proof.
  intros. unfold slice.
  rewrite (proj2 (Z.leb_le 0 i)), (proj2 (Z.leb_le i j)), (proj2 (Z.leb_le j _)) by lia.
  done.
Qed.

Lemma slice_panic {A} (l : list A) i j :
  zlen l < j -> slice (E := E) l i j = Panic.
Proof. intros. unfold slice. rewrite (proj2 (Z.leb_gt j (zlen l))) by lia. by rewrite andb_false_r. Qed.

Lemma slice_app {A} (pre x post : list A) i j :
  i = zlen pre -> j = i + zlen x -> slice (E := E) (pre ++ x ++ post) i j = Ok x.
Proof.
  intros -> ->.
  pose proof (zlen_nonneg pre). pose proof (zlen_nonneg x). pose proof (zlen_nonneg post).
  rewrite slice_ok by (rewrite ?zlen_app; lia).
  unfold zlen. rewrite Z.add_simpl_l, !Nat2Z.id, drop_app_length, take_app_length. done.
Qed.

Lemma slice_suffix {A} (pre x : list A) i j :
  i = zlen pre -> j = zlen pre + zlen x -> slice (E := E) (pre ++ x) i j = Ok x.
Proof.
  intros -> ->. pose proof (slice_app pre x [] (zlen pre) (zlen pre + zlen x) eq_refl eq_refl) as H.
  by rewrite app_nil_r in H.
Qed.

Lemma slice_ok_inv {A} (l : list A) i j s :
  slice (E := E) l i j = Ok s ->
  0 <= i <= j /\ j <= zlen l /\ zlen s = j - i /\ s = take (Z.to_nat (j - i)) (drop (Z.to_nat i) l).
Proof.
  unfold slice. intros H. osteps H. bsimp. simplify_eq. unfold zlen in *.
  rewrite length_take, length_drop. split_and!; [lia..|done].
Qed.

Lemma be_at_full n (v : bytes) : length v = n -> be_at (E := E) n v 0 = Ok (be_dec v).
Proof.
  intros Hl. unfold be_at.
  pose proof (slice_suffix [] v 0 (0 + Z.of_nat n) eq_refl) as Hs. cbn [app] in Hs.
  rewrite Hs; [done|]. unfold zlen. simpl. lia.
Qed.

Lemma be_at_app n (pre post : bytes) z i :
  i = zlen pre -> 0 <= z < 256 ^ Z.of_nat n ->
  be_at (E := E) n (pre ++ be_enc n z ++ post) i = Ok z.
Proof.
  intros -> Hz. unfold be_at.
  rewrite (slice_app pre (be_enc n z) post) by (rewrite ?zlen_be_enc; lia).
  simpl. by rewrite be_dec_enc_small.
Qed.

Lemma be_at_panic n l i : zlen l < i + Z.of_nat n -> be_at (E := E) n l i = Panic.
Proof. intros. unfold be_at. by rewrite slice_panic by lia. Qed.

Lemma be_at_ok n l i :
  0 <= i -> i + Z.of_nat n <= zlen l ->
  exists z, be_at (E := E) n l i = Ok z /\ 0 <= z < 256 ^ Z.of_nat n.
Proof.
  intros Hi Hl. unfold be_at. rewrite slice_ok by lia. simpl. eexists. split; [done|].
  pose proof (be_dec_range (take (Z.to_nat (i + Z.of_nat n - i)) (drop (Z.to_nat i) l))) as H.
  unfold zlen in *. rewrite length_take, length_drop in H.
  replace (Nat.min _ _) with n in H by lia. done.
Qed.

Lemma be_at_range n l i z : be_at (E := E) n l i = Ok z -> 0 <= z < 256 ^ Z.of_nat n.
Proof.
  unfold be_at. intros H. apply obind_ok_inv in H as (s & Hs & [= <-]).
  apply slice_ok_inv in Hs as (_ & _ & Hl & _). pose proof (be_dec_range s) as Hr.
  rewrite Hl in Hr. by replace (i + Z.of_nat n - i) with (Z.of_nat n) in Hr by lia.
Qed.

Lemma index_app {A} (pre post : list A) x i :
  i = zlen pre -> index (E := E) (pre ++ x :: post) i = Ok x.
Proof.
  intros ->. unfold index. rewrite (proj2 (Z.leb_le 0 _)) by apply zlen_nonneg.
  unfold zlen. rewrite Nat2Z.id, lookup_app_r, Nat.sub_diag by lia. done.
Qed.
End SliceLemmas.

(** *** [bytes.Compare] is a total order *)
Definition bytes_le (a b : bytes) : Prop := bytes_leb a b = true.
#[export] Instance bytes_le_dec : RelDecision bytes_le.
Proof. intros a b. unfold bytes_le. apply _. Defined.

Lemma bytes_compare_refl a : bytes_compare a a = Eq.
Proof. induction a; simpl; [done|]. by rewrite Z.compare_refl. Qed.

Lemma bytes_compare_eq a b : bytes_compare a b = Eq -> a = b.
Proof.
  revert b; induction a as [|x a IH]; destruct b as [|y b]; simpl; try done.
  destruct (Z.compare_spec (byte_to_Z x) (byte_to_Z y)) as [Heq| |]; try done.
  intros H. f_equal; [by apply byte_to_Z_inj|auto].
Qed.

Lemma bytes_compare_antisym a b : bytes_compare b a = CompOpp (bytes_compare a b).
Proof.
  revert b; induction a as [|x a IH]; destruct b as [|y b]; simpl; try done.
  rewrite (Z.compare_antisym (byte_to_Z x) (byte_to_Z y)).
  destruct (byte_to_Z x ?= byte_to_Z y); simpl; auto.
Qed.

Lemma bytes_compare_trans a b c :
  bytes_compare a b <> Gt -> bytes_compare b c <> Gt -> bytes_compare a c <> Gt.
Proof.
  revert b c; induction a as [|x a IH]; destruct b as [|y b], c as [|z c]; simpl; try done.
  intros H1 H2.
  destruct (Z.compare_spec (byte_to_Z x) (byte_to_Z y)), (Z.compare_spec (byte_to_Z y) (byte_to_Z z)),
    (Z.compare_spec (byte_to_Z x) (byte_to_Z z)); try done; try lia; eauto.
Qed.

Lemma bytes_le_compare a b : bytes_le a b <-> bytes_compare a b <> Gt.
Proof. unfold bytes_le, bytes_leb. by destruct (bytes_compare a b). Qed.

#[export] Instance bytes_le_total : Total bytes_le.
Proof.
  intros a b. rewrite !bytes_le_compare, (bytes_compare_antisym a b).
  destruct (bytes_compare a b); simpl; auto.
Qed.

#[export] Instance bytes_le_trans : Transitive bytes_le.
Proof. intros a b c. rewrite !bytes_le_compare. apply bytes_compare_trans. Qed.

#[export] Instance bytes_le_antisymm : AntiSymm (=) bytes_le.
Proof.
  intros a b. rewrite !bytes_le_compare, (bytes_compare_antisym a b).
  intros H1 H2. apply bytes_compare_eq. by destruct (bytes_compare a b).
Qed.

Lemma bytes_ltb_irrefl a : bytes_ltb a a = false.
Proof. unfold bytes_ltb. by rewrite bytes_compare_refl. Qed.

(** *** Reading a message that is a concatenation of fields

    [rd_step] evaluates the next read of the goal when the buffer is
    [concat [f1; ...; fn]] and the read hits one of the fields exactly. *)
Definition zsum (l : list Z) : Z := foldr Z.add 0 l.

Section Chunks.
Context {E : Type}.

Lemma zlen_concat (cs : list bytes) : zlen (concat cs) = zsum (map zlen cs).
Proof. induction cs; simpl; [done|]. by rewrite zlen_app, IHcs. Qed.

Lemma slice_chunk (pre : list bytes) (x : bytes) (post : list bytes) i j :
  i = zsum (map zlen pre) -> j = i + zlen x ->
  slice (E := E) (concat (pre ++ x :: post)) i j = Ok x.
Proof.
  intros Hi Hj. rewrite concat_app. simpl. apply slice_app; [|done]. by rewrite zlen_concat.
Qed.

Lemma be_at_chunk (pre : list bytes) n z (post : list bytes) i :
  i = zsum (map zlen pre) -> 0 <= z < 256 ^ Z.of_nat n ->
  be_at (E := E) n (concat (pre ++ be_enc n z :: post)) i = Ok z.
Proof.
  intros Hi Hz. rewrite concat_app. simpl. apply be_at_app; [|done]. by rewrite zlen_concat.
Qed.

Lemma index_chunk (pre : list bytes) b (post : list bytes) i :
  i = zsum (map zlen pre) ->
  index (E := E) (concat (pre ++ [b] :: post)) i = Ok b.
Proof.
  intros Hi. rewrite concat_app. simpl. apply index_app. by rewrite zlen_concat.
Qed.
End Chunks.

Ltac len_solve :=
  cbn [app map zsum foldr length]; autorewrite with len; unfold put16, put32, put64, two8, two16, two32, two64 in *;
  autorewrite with len; try lia.

(** Search the field list for the read's position. *)
Ltac rd_slice E pre rest i j :=
  lazymatch rest with
  | ?x :: ?post =>
      first
        [ let Hr := fresh "Hr" in
          assert (slice (E := E) (concat (pre ++ x :: post)) i j = Ok x) as Hr
            by (apply slice_chunk; len_solve);
          cbn [app] in Hr; rewrite Hr; clear Hr; cbn [obind]
        | let pre' := eval cbn [app] in (pre ++ [x]) in rd_slice E pre' post i j ]
  end.
Ltac rd_be E n pre rest i :=
  lazymatch rest with
  | be_enc n ?z :: ?post =>
      first
        [ let Hr := fresh "Hr" in
          assert (be_at (E := E) n (concat (pre ++ be_enc n z :: post)) i = Ok z) as Hr
            by (apply be_at_chunk; [len_solve | len_solve]);
          cbn [app] in Hr; rewrite Hr; clear Hr; cbn [obind]
        | let pre' := eval cbn [app] in (pre ++ [be_enc n z]) in rd_be E n pre' post i ]
  | ?x :: ?post => let pre' := eval cbn [app] in (pre ++ [x]) in rd_be E n pre' post i
  end.
Ltac rd_index E pre rest i :=
  lazymatch rest with
  | [?b] :: ?post =>
      first
        [ let Hr := fresh "Hr" in
          assert (index (E := E) (concat (pre ++ [b] :: post)) i = Ok b) as Hr
            by (apply index_chunk; len_solve);
          cbn [app] in Hr; rewrite Hr; clear Hr; cbn [obind]
        | let pre' := eval cbn [app] in (pre ++ [[b]]) in rd_index E pre' post i ]
  | ?x :: ?post => let pre' := eval cbn [app] in (pre ++ [x]) in rd_index E pre' post i
  end.
Ltac rd_step :=
  lazymatch goal with
  | |- obind (@slice ?E _ (concat ?cs) ?i ?j) _ = _ => rd_slice E (@nil bytes) cs i j
  | |- obind (@be_at ?E ?n (concat ?cs) ?i) _ = _ => rd_be E n (@nil bytes) cs i
  | |- obind (@index ?E _ (concat ?cs) ?i) _ = _ => rd_index E (@nil bytes) cs i
  end.

(** Decide the test at the head of the goal by arithmetic. *)
Ltac if_step :=
  lazymatch goal with
  | |- (if (?a >? ?b)%Z then _ else _) = _ =>
      first [ replace (a >? b)%Z with false by (symmetry; rewrite Z.gtb_ltb; apply Z.ltb_ge; len_solve)
            | replace (a >? b)%Z with true by (symmetry; rewrite Z.gtb_ltb; apply Z.ltb_lt; len_solve) ]
  | |- (if (?a <? ?b)%Z then _ else _) = _ =>
      first [ replace (a <? b)%Z with false by (symmetry; apply Z.ltb_ge; len_solve)
            | replace (a <? b)%Z with true by (symmetry; apply Z.ltb_lt; len_solve) ]
  | |- (if negb (?a =? ?b)%Z then _ else _) = _ =>
      first [ replace (a =? b)%Z with true by (symmetry; apply Z.eqb_eq; len_solve)
            | replace (a =? b)%Z with false by (symmetry; apply Z.eqb_neq; len_solve) ]
  | |- (if (?a =? ?b)%Z then _ else _) = _ =>
      first [ replace (a =? b)%Z with true by (symmetry; apply Z.eqb_eq; len_solve)
            | replace (a =? b)%Z with false by (symmetry; apply Z.eqb_neq; len_solve) ]
  end; cbn [negb]; cbv iota.

#[global] Arguments be_enc _ _ : simpl never.
#[global] Arguments be_dec _ : simpl never.
#[global] Arguments put16 _ : simpl never.
#[global] Arguments put32 _ : simpl never.
#[global] Arguments put64 _ : simpl never.
