(* ===== verification/Errors.v ===== *)
(** * core/errors: protocol error codes

    An error is a protocol error with its code, or a plain Go error that is
    identified by its text.  The free-text part of a protocol error is not
    modelled: no code of the repository branches on it. *)

From S2P Require Import Prelude.

Module errors.

Inductive ErrorCode : Type :=
| ErrArithmeticOverflow
| ErrInvalidChildArity
| ErrScaleDomainFault
| ErrHashBoundaryMismatch
| ErrMaskOutOfBounds
| ErrPaddingSubstitutionFraud
| ErrSignatureMisrepresentation
| ErrNamespaceEscapeFault
| ErrCanonicalEncodingDistortion
| ErrDosSizeExceeded
| ErrRootMismatch
| ErrInvalidSignature
| ErrInsufficientFunds
| ErrAlreadyBonded
| ErrNotBonded
| ErrUnbondingPending
| ErrBondBelowMinimum
| ErrSequenceFault
| ErrInvalidTxType
| ErrEmptyValidatorSet
| ErrBlockHeightSequenceFault
| ErrContractBytecodeTooLarge
| ErrContractOutOfGas
| ErrContractTrap
| ErrContractNonDeterministic
| ErrContractNotFound
| ErrContractStateInvalid.

#[export] Instance ErrorCode_eq_dec : EqDecision ErrorCode.
Proof. solve_decision. Defined.

Inductive error : Type :=
| RGError (code : ErrorCode)
| GoError (msg : string).

#[export] Instance error_eq_dec : EqDecision error.
Proof. solve_decision. Defined.

(** The wire text of a code. *)
Definition code_string (c : ErrorCode) : string :=
  match c with
  | ErrArithmeticOverflow => "ERR_001"
  | ErrInvalidChildArity => "ERR_002"
  | ErrScaleDomainFault => "ERR_003"
  | ErrHashBoundaryMismatch => "ERR_004"
  | ErrMaskOutOfBounds => "ERR_005"
  | ErrPaddingSubstitutionFraud => "ERR_006"
  | ErrSignatureMisrepresentation => "ERR_007"
  | ErrNamespaceEscapeFault => "ERR_008"
  | ErrCanonicalEncodingDistortion => "ERR_009"
  | ErrDosSizeExceeded => "ERR_010"
  | ErrRootMismatch => "ERR_011"
  | ErrInvalidSignature => "ERR_012"
  | ErrInsufficientFunds => "ERR_013"
  | ErrAlreadyBonded => "ERR_014"
  | ErrNotBonded => "ERR_015"
  | ErrUnbondingPending => "ERR_016"
  | ErrBondBelowMinimum => "ERR_017"
  | ErrSequenceFault => "ERR_018"
  | ErrInvalidTxType => "ERR_019"
  | ErrEmptyValidatorSet => "ERR_020"
  | ErrBlockHeightSequenceFault => "ERR_021"
  | ErrContractBytecodeTooLarge => "ERR_022"
  | ErrContractOutOfGas => "ERR_023"
  | ErrContractTrap => "ERR_024"
  | ErrContractNonDeterministic => "ERR_025"
  | ErrContractNotFound => "ERR_026"
  | ErrContractStateInvalid => "ERR_027"
  end%string.

Lemma code_string_inj c1 c2 : code_string c1 = code_string c2 -> c1 = c2.
Proof. destruct c1, c2; intros H; first [reflexivity | discriminate H]. Qed.

End errors.

Export errors.

(** The result of a fallible Go function of the repository. *)
Abbreviation res := (outcome error).
Definition fail {A} (c : ErrorCode) : res A := Err (RGError c).
Definition failf {A} (msg : string) : res A := Err (GoError msg).
