(* ===== verification/Platform.v ===== *)
(** * core/hash and core/keys over an abstract platform

    The cryptographic primitives and Unicode normalisation the program calls
    are the fields of [Platform]; what the code relies on is [PlatformLaws].
    No law speaks of collisions: theorems that depend on collision resistance
    produce two colliding messages among those the code hashed instead of
    assuming there are none. *)

From S2P Require Import Prelude GoBytes Errors.

Class Platform : Type :=
  { sha256_Sum256 : bytes -> arr 32;                 (* crypto/sha256 *)
    ed25519_NewKeyFromSeed : arr 32 -> arr 64;       (* crypto/ed25519 *)
    ed25519_Sign : arr 64 -> bytes -> arr 64;
    ed25519_Verify : arr 32 -> bytes -> arr 64 -> bool;
    norm_NFC : bytes -> bytes }.                      (* golang.org/x/text/unicode/norm *)

(** A private key holds its public key in its last 32 bytes ([PrivateKey.Public]). *)
Definition ed25519_Public (priv : arr 64) : arr 32 := mk_arr 32 (drop 32 priv).

Class PlatformLaws `{Platform} : Prop :=
  { ed25519_sign_verify : forall seed msg,
      ed25519_Verify (ed25519_Public (ed25519_NewKeyFromSeed seed)) msg
        (ed25519_Sign (ed25519_NewKeyFromSeed seed) msg) = true;
    norm_NFC_idemp : forall s, norm_NFC (norm_NFC s) = norm_NFC s;
    norm_NFC_valid : forall s, utf8_valid s = true -> utf8_valid (norm_NFC s) = true }.

Module hash.

Definition DomainTx : bytes := str "TX_V1" ++ [x00].
Definition DomainTxBatch : bytes := str "TX_BATCH_V1" ++ [x00].
Definition DomainRGNode : bytes := str "RG_NODE_V1" ++ [x00].
Definition DomainNullPad : bytes := str "NULL_PAD_V1" ++ [x00].
Definition DomainEmptyBlock : bytes := str "EMPTY_BLOCK_V1" ++ [x00].
Definition DomainContractDeploy : bytes := str "CONTRACT_DEPLOY_V1" ++ [x00].
Definition DomainContractCall : bytes := str "CONTRACT_CALL_V1" ++ [x00].
Definition DomainContractState : bytes := str "CONTRACT_STATE_V1" ++ [x00].

Definition UINT256_MAX : Z := 2 ^ 256 - 1.
Definition Scale : Z := 10 ^ 18.

Definition validScales : list Z := [1; 4; 16; 64; 256; 1024; 4096; 16384; 65536].

Definition ValidScale (lambda : Z) : bool := existsb (Z.eqb lambda) validScales.

Definition Hash `{Platform} (data : bytes) : arr 32 := sha256_Sum256 data.

(** Two different messages with one digest, both among the messages [M].  Some
    such pair exists among all byte strings; theorems that mention it name the
    messages that were hashed. *)
Definition collision `{Platform} (M : bytes -> Prop) : Prop :=
  exists a b : bytes, M a /\ M b /\ a <> b /\ Hash a = Hash b.

Lemma Hash_inj_or_collision `{Platform} (M : bytes -> Prop) (a b : bytes) :
  M a -> M b -> Hash a = Hash b -> a = b \/ collision M.
Proof. intros. destruct (decide (a = b)); [by left|right; by exists a, b]. Qed.

Lemma collision_mono `{Platform} (M N : bytes -> Prop) : (forall m, M m -> N m) -> collision M -> collision N.
Proof. intros HMN (a & b & ? & ? & ? & ?). exists a, b. auto. Qed.

Lemma ValidScale_spec l : ValidScale l = true <-> l ∈ validScales.
Proof.
  unfold ValidScale. rewrite existsb_exists. split.
  - intros (x & Hx & ->%Z.eqb_eq). by apply list_elem_of_In.
  - intros Hx%list_elem_of_In. exists l. split; [done|]. apply Z.eqb_refl.
Qed.

End hash.

Module keys.

Record Keypair : Type := mkKeypair { PublicKey : arr 32; PrivateKey : arr 64 }.

Section Keys.
Context `{Platform}.

Definition Sign (k : Keypair) (msg : bytes) : arr 64 := ed25519_Sign (PrivateKey k) msg.

Definition NewKeypairFromSeed (seed : arr 32) : Keypair :=
  let priv := ed25519_NewKeyFromSeed seed in
  mkKeypair (ed25519_Public priv) priv.

Definition NewKeypairFromPrivateKey (privKey : arr 64) : Keypair :=
  mkKeypair (ed25519_Public privKey) privKey.

Definition Verify (pubKey : arr 32) (msg : bytes) (sig : arr 64) : bool :=
  ed25519_Verify pubKey msg sig.

(** Key pairs the package creates. *)
Definition generated (k : Keypair) : Prop := exists seed, k = NewKeypairFromSeed seed.

Lemma Verify_Sign `{!PlatformLaws} k msg :
  generated k -> Verify (PublicKey k) msg (Sign k msg) = true.
Proof. intros [seed ->]. apply ed25519_sign_verify. Qed.
End Keys.

End keys.
