(* ===== verification/Hex.v ===== *)
(** * encoding/hex *)

From S2P Require Import Prelude GoBytes.

(** The value of a hexadecimal digit, of either case. *)
Definition fromHexChar (c : byte) : option Z :=
  let z := byte_to_Z c in
  if (48 <=? z) && (z <=? 57) then Some (z - 48) else
  if (97 <=? z) && (z <=? 102) then Some (z - 87) else
  if (65 <=? z) && (z <=? 70) then Some (z - 55) else None.

(** [hex.DecodeString]; every error is [None]. *)
Fixpoint hex_DecodeString (s : bytes) : option bytes :=
  match s with
  | [] => Some []
  | [_] => None
  | a :: b :: rest =>
    match fromHexChar a, fromHexChar b, hex_DecodeString rest with
    | Some x, Some y, Some t => Some (byte_of_Z (x * 16 + y) :: t)
    | _, _, _ => None
    end
  end.

Definition hexDigit (z : Z) : byte := byte_of_Z (if z <? 10 then 48 + z else 87 + z).

Definition hexByte (c : byte) : bytes := [hexDigit (byte_to_Z c / 16); hexDigit (byte_to_Z c mod 16)].

Definition hex_EncodeToString (s : bytes) : bytes := concat (map hexByte s).

Lemma hexByte_decode c rest t :
  hex_DecodeString rest = Some t -> hex_DecodeString (hexByte c ++ rest) = Some (c :: t).
Proof.
  intros Hr. unfold hexByte. cbn [app hex_DecodeString]. rewrite Hr.
  by destruct c.
Qed.

Lemma hex_roundtrip s : hex_DecodeString (hex_EncodeToString s) = Some s.
Proof. induction s as [|c s IH]; [done|]. by apply hexByte_decode. Qed.

Lemma zlen_hex s : zlen (hex_EncodeToString s) = 2 * zlen s.
Proof.
  unfold hex_EncodeToString. induction s as [|c s IH]; [done|]. cbn [map concat].
  rewrite zlen_app, IH, zlen_cons. change (zlen (hexByte c)) with 2. lia.
Qed.

Lemma hex_length s t : hex_DecodeString s = Some t -> zlen s = 2 * zlen t.
Proof.
  revert t. induction s as [s IH] using (induction_ltof1 _ (@length byte)). unfold ltof in IH.
  intros t Hs. destruct s as [|a [|b rest]]; cbn [hex_DecodeString] in Hs.
  - by injection Hs as <-.
  - done.
  - destruct (fromHexChar a), (fromHexChar b), (hex_DecodeString rest) as [t'|] eqn:Er; try done.
    injection Hs as <-. rewrite !zlen_cons, (IH rest ltac:(cbn; lia) t' Er). lia.
Qed.
