(* ===== verification/Sha256.v ===== *)
(** * A concrete platform

    SHA-256 (FIPS 180-4) as an executable function, and an instance of
    [Platform] built on it.  The signature scheme of the instance is a keyed
    digest: it has the one property the code relies on (a signature verifies
    under the key that made it) and shows that [PlatformLaws] can hold.
    Normalisation is the identity, which it is on ASCII. *)

From S2P Require Import Prelude GoBytes Errors Platform.

Module sha.

Definition mask32 (z : Z) : Z := Z.land z 4294967295.
Definition rotr (n x : Z) : Z := Z.lor (Z.shiftr x n) (mask32 (Z.shiftl x (32 - n))).
Definition add32 (a b : Z) : Z := mask32 (a + b).

(** The constants, from their definition: the first 32 bits of the fractional
    parts of the cube roots (for the rounds) and of the square roots (for the
    initial state) of the first primes. *)
Definition isPrime (n : nat) : bool :=
  forallb (fun d => negb (Nat.eqb (Nat.modulo n d) 0)) (seq 2 (n - 2)).

Definition primes : list Z :=
  Eval vm_compute in take 64 (map Z.of_nat (filter (fun n => isPrime n = true) (seq 2 310))).

(** The largest r of at most [bits] bits with r^3 <= n. *)
Fixpoint cubeRoot (bits : nat) (r n : Z) : Z :=
  match bits with
  | O => r
  | S b =>
      let r' := r + 2 ^ Z.of_nat b in
      cubeRoot b (if r' * r' * r' <=? n then r' else r) n
  end.

Definition K : list Z := Eval vm_compute in map (fun p => mask32 (cubeRoot 36 0 (p * 2 ^ 96))) primes.

Definition H0 : list Z := Eval vm_compute in map (fun p => mask32 (Z.sqrt (p * 2 ^ 64))) (take 8 primes).

Definition pad (m : bytes) : bytes :=
  let z := (119 - (zlen m) mod 64) mod 64 in
  m ++ [x80] ++ replicate (Z.to_nat z) x00 ++ put64 (8 * zlen m).

Fixpoint words (n : nat) (l : bytes) : list Z :=
  match n with
  | O => []
  | S n' => be_dec (take 4 l) :: words n' (drop 4 l)
  end.

(** The schedule, most recent word first. *)
Fixpoint extend (n : nat) (w : list Z) : list Z :=
  match n with
  | O => w
  | S n' =>
      let at_ i := nth i w 0 in
      let w15 := at_ 14%nat in
      let w2 := at_ 1%nat in
      let s0 := Z.lxor (Z.lxor (rotr 7 w15) (rotr 18 w15)) (Z.shiftr w15 3) in
      let s1 := Z.lxor (Z.lxor (rotr 17 w2) (rotr 19 w2)) (Z.shiftr w2 10) in
      extend n' (mask32 (at_ 15%nat + s0 + at_ 6%nat + s1) :: w)
  end.

Definition round (st : list Z) (kw : Z * Z) : list Z :=
  match st with
  | [a; b; c; d; e; f; g; h] =>
      let s1 := Z.lxor (Z.lxor (rotr 6 e) (rotr 11 e)) (rotr 25 e) in
      let ch := Z.lxor (Z.land e f) (Z.land (Z.lxor e 4294967295) g) in
      let t1 := h + s1 + ch + fst kw + snd kw in
      let s0 := Z.lxor (Z.lxor (rotr 2 a) (rotr 13 a)) (rotr 22 a) in
      let maj := Z.lxor (Z.lxor (Z.land a b) (Z.land a c)) (Z.land b c) in
      [mask32 (t1 + s0 + maj); a; b; c; add32 d t1; e; f; g]
  | _ => st
  end.

Definition block (st : list Z) (l : bytes) : list Z :=
  let w := rev (extend 48 (rev (words 16 l))) in
  zip_with add32 st (foldl round st (zip K w)).

Fixpoint blocks (n : nat) (st : list Z) (l : bytes) : list Z :=
  match n with
  | O => st
  | S n' => blocks n' (block st (take 64 l)) (drop 64 l)
  end.

Definition sum256 (m : bytes) : arr 32 :=
  let p := pad m in
  mk_arr 32 (concat (map put32 (blocks (length p / 64) H0 p))).

(** Test vectors of the standard. *)
Example sum256_abc :
  be_dec (sum256 (str "abc")) = 0xba7816bf8f01cfea414140de5dae2223b00361a396177a9cb410ff61f20015ad.
Proof. vm_compute. reflexivity. Qed.

Example sum256_empty :
  be_dec (sum256 []) = 0xe3b0c44298fc1c149afbf4c8996fb92427ae41e4649b934ca495991b7852b855.
Proof. vm_compute. reflexivity. Qed.

Example sum256_two_blocks :
  be_dec (sum256 (str "abcdbcdecdefdefgefghfghighijhijkijkljklmklmnlmnomnopnopq")) =
  0x248d6a61d20638b8e5c026930c3e6039a33ce45964ff2167f6ecedd419db06c1.
Proof. vm_compute. reflexivity. Qed.

End sha.

(** The keyed-digest signatures of the witness platform. *)
Definition keyed_sig (pub : arr 32) (msg : bytes) : arr 64 :=
  let d := sha.sum256 (arr_bytes pub ++ msg) in mk_arr 64 (d ++ d).

Definition witness_platform : Platform :=
  {| sha256_Sum256 := sha.sum256;
     ed25519_NewKeyFromSeed seed := mk_arr 64 (seed ++ sha.sum256 seed);
     ed25519_Sign priv msg := keyed_sig (ed25519_Public priv) msg;
     ed25519_Verify pub msg sig := bool_decide (sig = keyed_sig pub msg);
     norm_NFC s := s |}.

Lemma witness_platform_laws : @PlatformLaws witness_platform.
Proof.
  constructor; intros; simpl.
  - by apply bool_decide_eq_true.
  - done.
  - done.
Qed.
