(* ===== verification/Tx.v ===== *)
(** * core/tx: transactions, their canonical encoding and their signatures *)

From S2P Require Import Prelude GoBytes Errors Platform.

Module tx.

Definition maxTxBytes : Z := 70000.
Definition DefaultChainID : bytes := str "frg-mainnet-1".
Definition MaxSerializedBytes : Z := maxTxBytes.
Definition maxBatchTxs : Z := 65536.
Definition maxBatchBytes : Z := Z.shiftl 32 20.
Definition MaxBatchBytes : Z := maxBatchBytes.
Definition maxWasmBytes : Z := Z.shiftl 1 20.

(** Type TxType is a uint8; the named values: *)
Definition TxTypeTransfer : Z := 1.
Definition TxTypeMissEvidence : Z := 2.
Definition TxTypeContractDeploy : Z := 3.
Definition TxTypeContractCall : Z := 4.
Definition TxTypeBond : Z := 5.
Definition TxTypeUnbond : Z := 6.
Definition TxTypeFinalizeUnbond : Z := 7.
Definition TxTypeClaimRewards : Z := 8.
Definition TxTypeEquivEvidence : Z := 9.

(** [Value] is a pointer to a big integer, [None] when nil.  A nil and an empty
    byte slice are the same value here: the code only looks at lengths. *)
Record Tx : Type := mkTx
  { Type_ : Z;
    Sender : bytes;
    Receiver : bytes;
    Value : option Z;
    Nonce : Z;
    SenderPubKey : arr 32;
    ReceiverPubKey : arr 32;
    SenderSig : arr 64;
    ReceiverSig : arr 64;
    MissedHeight : Z;
    MissedProposer : arr 32;
    SkipIndex : Z;
    WasmBytes : bytes;
    InitArgs : bytes;
    CallData : bytes;
    EvidenceA : bytes;
    EvidenceB : bytes }.

(** The widths of the Go fields. *)
Record wf (t : Tx) : Prop := mkWf
  { wf_type : is_u8 (Type_ t);
    wf_nonce : is_u64 (Nonce t);
    wf_missed : is_u64 (MissedHeight t);
    wf_skip : is_u32 (SkipIndex t) }.

Section Codec.
Context `{Platform}.

(** The per-type extension appended by [serializeUnsigned]. *)
Definition serializeExt (t : Tx) : res bytes :=
  if Type_ t =? TxTypeContractDeploy then
    if zlen (WasmBytes t) >? maxWasmBytes then fail ErrContractBytecodeTooLarge
    else Ok (put32 (wrap32 (zlen (WasmBytes t))) ++ WasmBytes t)
  else if Type_ t =? TxTypeContractCall then
    if zlen (CallData t) >? 0xFFFF then fail ErrDosSizeExceeded
    else Ok (put16 (wrap16 (zlen (CallData t))) ++ CallData t)
  else if Type_ t =? TxTypeEquivEvidence then
    if (zlen (EvidenceA t) >? 0xFFFF) || (zlen (EvidenceB t) >? 0xFFFF)
    then fail ErrDosSizeExceeded
    else Ok (put16 (wrap16 (zlen (EvidenceA t))) ++ EvidenceA t ++
             put16 (wrap16 (zlen (EvidenceB t))) ++ EvidenceB t)
  else Ok [].

Definition serializeUnsigned (t : Tx) : res bytes :=
  if negb (utf8_valid (Sender t)) || negb (utf8_valid (Receiver t))
  then fail ErrCanonicalEncodingDistortion else
  let sender := norm_NFC (Sender t) in
  let receiver := norm_NFC (Receiver t) in
  match Value t with
  | None => fail ErrArithmeticOverflow
  | Some value =>
    if (value <? 0) || (value >? hash.UINT256_MAX) then fail ErrArithmeticOverflow else
    if (zlen sender >? 0xFFFF) || (zlen receiver >? 0xFFFF)
    then fail ErrCanonicalEncodingDistortion else
    let valueBytes := big_Bytes value in
    if zlen valueBytes >? 32 then fail ErrArithmeticOverflow else
    let* ext := serializeExt t in
    Ok (hash.DomainTx ++
        [byte_of_Z (Type_ t)] ++
        put16 (wrap16 (zlen sender)) ++ sender ++
        put16 (wrap16 (zlen receiver)) ++ receiver ++
        (replicate (32 - length valueBytes) x00 ++ valueBytes) ++
        put64 (Nonce t) ++
        put64 (MissedHeight t) ++
        MissedProposer t ++
        put32 (SkipIndex t) ++
        ext)
  end.

Definition chainDomainBytes (chainID payload : bytes) : bytes :=
  let chainID := if bool_decide (chainID = []) then DefaultChainID else chainID in
  (str "FRG_CHAIN_V1" ++ [x00]) ++ put16 (wrap16 (zlen chainID)) ++ chainID ++ payload.

Definition UnsignedHashForChain (t : Tx) (chainID : bytes) : res (arr 32) :=
  let* serialized := serializeUnsigned t in
  Ok (hash.Hash (chainDomainBytes chainID serialized)).

Definition UnsignedHash (t : Tx) : res (arr 32) := UnsignedHashForChain t DefaultChainID.

Definition Serialize (t : Tx) : res bytes :=
  let* unsigned := serializeUnsigned t in
  if zlen unsigned + 192 >? maxTxBytes then fail ErrDosSizeExceeded else
  Ok (unsigned ++ SenderPubKey t ++ ReceiverPubKey t ++ SenderSig t ++ ReceiverSig t).

Definition ID (t : Tx) : res (arr 32) :=
  let* serialized := serializeUnsigned t in
  Ok (hash.Hash serialized).

(** The contract-specific extensions of [Deserialize]: the payload fields and
    the position after them. *)
Record Ext : Type := mkExt
  { xWasm : bytes; xCall : bytes; xEvA : bytes; xEvB : bytes; xPos : Z }.

Definition deserializeExt (txType : Z) (data : bytes) (pos : Z) : res Ext :=
  if txType =? TxTypeContractDeploy then
    if pos + 4 >? zlen data - 192 then fail ErrCanonicalEncodingDistortion else
    let* wasmLen := u32_at data pos in
    let pos := pos + 4 in
    if wasmLen >? maxWasmBytes then fail ErrContractBytecodeTooLarge else
    if pos + wasmLen >? zlen data - 192 then fail ErrCanonicalEncodingDistortion else
    let* wasm := slice data pos (pos + wasmLen) in
    Ok (mkExt wasm [] [] [] (pos + wasmLen))
  else if txType =? TxTypeContractCall then
    if pos + 2 >? zlen data - 192 then fail ErrCanonicalEncodingDistortion else
    let* callDataLen := u16_at data pos in
    let pos := pos + 2 in
    if pos + callDataLen >? zlen data - 192 then fail ErrCanonicalEncodingDistortion else
    let* call := slice data pos (pos + callDataLen) in
    Ok (mkExt [] call [] [] (pos + callDataLen))
  else if txType =? TxTypeEquivEvidence then
    if pos + 2 >? zlen data - 192 then fail ErrCanonicalEncodingDistortion else
    let* evidenceALen := u16_at data pos in
    let pos := pos + 2 in
    if pos + evidenceALen >? zlen data - 192 then fail ErrCanonicalEncodingDistortion else
    let* evidenceA := slice data pos (pos + evidenceALen) in
    let pos := pos + evidenceALen in
    if pos + 2 >? zlen data - 192 then fail ErrCanonicalEncodingDistortion else
    let* evidenceBLen := u16_at data pos in
    let pos := pos + 2 in
    if pos + evidenceBLen >? zlen data - 192 then fail ErrCanonicalEncodingDistortion else
    let* evidenceB := slice data pos (pos + evidenceBLen) in
    Ok (mkExt [] [] evidenceA evidenceB (pos + evidenceBLen))
  else Ok (mkExt [] [] [] [] pos).

Definition Deserialize (data : bytes) : res Tx :=
  if zlen data >? maxTxBytes then fail ErrDosSizeExceeded else
  if zlen data <? 6 + 1 + 2 + 2 + 32 + 8 + 8 + 32 + 4 + 192
  then fail ErrCanonicalEncodingDistortion else
  let pos := 0 in
  let* domain := slice data pos (pos + 6) in
  if bool_decide (domain <> hash.DomainTx) then fail ErrCanonicalEncodingDistortion else
  let pos := pos + 6 in
  let* txTypeByte := index data pos in
  let txType := byte_to_Z txTypeByte in
  let pos := pos + 1 in
  let* senderLen := u16_at data pos in
  let pos := pos + 2 in
  if pos + senderLen >? zlen data then fail ErrCanonicalEncodingDistortion else
  let* sender := slice data pos (pos + senderLen) in
  let pos := pos + senderLen in
  let* receiverLen := u16_at data pos in
  let pos := pos + 2 in
  if pos + receiverLen >? zlen data then fail ErrCanonicalEncodingDistortion else
  let* receiver := slice data pos (pos + receiverLen) in
  let pos := pos + receiverLen in
  if pos + 32 >? zlen data then fail ErrCanonicalEncodingDistortion else
  let* valueBytes := slice data pos (pos + 32) in
  let value := big_SetBytes valueBytes in
  let pos := pos + 32 in
  if pos + 8 >? zlen data then fail ErrCanonicalEncodingDistortion else
  let* nonce := u64_at data pos in
  let pos := pos + 8 in
  if pos + 8 >? zlen data then fail ErrCanonicalEncodingDistortion else
  let* missedHeight := u64_at data pos in
  let pos := pos + 8 in
  if pos + 32 >? zlen data then fail ErrCanonicalEncodingDistortion else
  let* missedProposer := slice data pos (pos + 32) in
  let pos := pos + 32 in
  if pos + 4 >? zlen data then fail ErrCanonicalEncodingDistortion else
  let* skipIndex := u32_at data pos in
  let pos := pos + 4 in
  let* x := deserializeExt txType data pos in
  if negb (xPos x =? zlen data - 192) then fail ErrCanonicalEncodingDistortion else
  let pos := zlen data - 192 in
  let* senderPubKey := slice data pos (pos + 32) in
  let pos := pos + 32 in
  let* receiverPubKey := slice data pos (pos + 32) in
  let pos := pos + 32 in
  let* senderSig := slice data pos (pos + 64) in
  let pos := pos + 64 in
  let* receiverSig := slice data pos (pos + 64) in
  let parsed :=
    {| Type_ := txType; Sender := sender; Receiver := receiver; Value := Some value;
       Nonce := nonce;
       SenderPubKey := mk_arr 32 senderPubKey; ReceiverPubKey := mk_arr 32 receiverPubKey;
       SenderSig := mk_arr 64 senderSig; ReceiverSig := mk_arr 64 receiverSig;
       MissedHeight := missedHeight; MissedProposer := mk_arr 32 missedProposer;
       SkipIndex := skipIndex;
       WasmBytes := xWasm x; InitArgs := []; CallData := xCall x;
       EvidenceA := xEvA x; EvidenceB := xEvB x |} in
  let* canonical := Serialize parsed in
  if bool_decide (canonical <> data) then fail ErrCanonicalEncodingDistortion else
  Ok parsed.

(** ** Signatures *)
Definition knownType (ty : Z) : bool := (1 <=? ty) && (ty <=? 9).

Definition VerifySigsForChain (t : Tx) (chainID : bytes) : res unit :=
  let* msg := UnsignedHashForChain t chainID in
  if knownType (Type_ t) then
    if keys.Verify (SenderPubKey t) msg (SenderSig t) then Ok tt
    else fail ErrInvalidSignature
  else fail ErrInvalidTxType.

Definition VerifySigs (t : Tx) : res unit := VerifySigsForChain t DefaultChainID.

Definition SignSenderForChain (t : Tx) (kp : keys.Keypair) (chainID : bytes) : res (arr 64) :=
  let* msg := UnsignedHashForChain t chainID in Ok (keys.Sign kp msg).

Definition SignReceiverForChain (t : Tx) (kp : keys.Keypair) (chainID : bytes) : res (arr 64) :=
  let* msg := UnsignedHashForChain t chainID in Ok (keys.Sign kp msg).

(** ** Batches *)
Definition appendTx (buf : bytes) (t : Tx) : res bytes :=
  let* b := Serialize t in
  if zlen b >? 0xFFFF then fail ErrDosSizeExceeded else
  let buf := buf ++ put16 (wrap16 (zlen b)) ++ b in
  if zlen buf >? maxBatchBytes then fail ErrDosSizeExceeded else Ok buf.

Definition SerializeBatch (txs : list Tx) : res bytes :=
  if zlen txs =? 0 then fail ErrCanonicalEncodingDistortion else
  if zlen txs >? maxBatchTxs then fail ErrDosSizeExceeded else
  foldM appendTx (hash.DomainTxBatch ++ put16 (wrap16 (zlen txs))) txs.

(** One iteration per announced transaction; returns the transactions and the
    position after the last. *)
Fixpoint batchLoop (count : nat) (data : bytes) (pos : Z) : res (list Tx * Z) :=
  match count with
  | O => Ok ([], pos)
  | S count' =>
      if pos + 2 >? zlen data then fail ErrCanonicalEncodingDistortion else
      let* txLen := u16_at data pos in
      let pos := pos + 2 in
      if pos + txLen >? zlen data then fail ErrCanonicalEncodingDistortion else
      let* raw := slice data pos (pos + txLen) in
      let* t := Deserialize raw in
      let* '(ts, pos') := batchLoop count' data (pos + txLen) in
      Ok (t :: ts, pos')
  end.

Definition DeserializeBatch (data : bytes) : res (list Tx) :=
  if zlen data >? maxBatchBytes then fail ErrDosSizeExceeded else
  if zlen data <? 12 + 2 then fail ErrCanonicalEncodingDistortion else
  let* domain := slice data 0 12 in
  if bool_decide (domain <> hash.DomainTxBatch) then fail ErrCanonicalEncodingDistortion else
  let* count := u16_at data 12 in
  if count >? maxBatchTxs then fail ErrDosSizeExceeded else
  let* '(txs, pos) := batchLoop (Z.to_nat count) data 14 in
  if negb (pos =? zlen data) then fail ErrCanonicalEncodingDistortion else Ok txs.

End Codec.
End tx.
