(* ===== verification/TxProofs.v ===== *)
(** * core/tx: properties of the codec and of the signatures *)

From S2P Require Import Prelude GoBytes Errors Platform Sha256 Tx.
Import tx.

(** What a transaction keeps of itself on the wire: normalised names and the
    payload fields of its own type. *)
Definition canon `{Platform} (t : Tx) : Tx :=
  {| Type_ := Type_ t; Sender := norm_NFC (Sender t); Receiver := norm_NFC (Receiver t);
     Value := Value t; Nonce := Nonce t;
     SenderPubKey := SenderPubKey t; ReceiverPubKey := ReceiverPubKey t;
     SenderSig := SenderSig t; ReceiverSig := ReceiverSig t;
     MissedHeight := MissedHeight t; MissedProposer := MissedProposer t;
     SkipIndex := SkipIndex t;
     WasmBytes := if Type_ t =? TxTypeContractDeploy then WasmBytes t else [];
     InitArgs := [];
     CallData := if Type_ t =? TxTypeContractCall then CallData t else [];
     EvidenceA := if Type_ t =? TxTypeEquivEvidence then EvidenceA t else [];
     EvidenceB := if Type_ t =? TxTypeEquivEvidence then EvidenceB t else [] |}.

Section Codec.
Context `{Platform}.

(** ** The layout of the encoding *)

(** The fields of the extension, as chunks. *)
Definition extChunks (t : Tx) : list bytes :=
  if Type_ t =? TxTypeContractDeploy then [be_enc 4 (zlen (WasmBytes t)); WasmBytes t]
  else if Type_ t =? TxTypeContractCall then [be_enc 2 (zlen (CallData t)); CallData t]
  else if Type_ t =? TxTypeEquivEvidence then
    [be_enc 2 (zlen (EvidenceA t)); EvidenceA t; be_enc 2 (zlen (EvidenceB t)); EvidenceB t]
  else [].

Definition chunks (t : Tx) (v : Z) (ext : list bytes) : list bytes :=
  [hash.DomainTx; [byte_of_Z (Type_ t)];
   be_enc 2 (zlen (norm_NFC (Sender t))); norm_NFC (Sender t);
   be_enc 2 (zlen (norm_NFC (Receiver t))); norm_NFC (Receiver t);
   be_enc 32 v; be_enc 8 (Nonce t); be_enc 8 (MissedHeight t);
   arr_bytes (MissedProposer t); be_enc 4 (SkipIndex t)] ++ ext.

(** What [serializeExt] accepts. *)
Record ext_fits (t : Tx) : Prop := mkExtFits
  { fits_wasm : Type_ t = TxTypeContractDeploy -> zlen (WasmBytes t) <= maxWasmBytes;
    fits_call : Type_ t = TxTypeContractCall -> zlen (CallData t) <= 0xFFFF;
    fits_eva : Type_ t = TxTypeEquivEvidence -> zlen (EvidenceA t) <= 0xFFFF;
    fits_evb : Type_ t = TxTypeEquivEvidence -> zlen (EvidenceB t) <= 0xFFFF }.

(** What [serializeUnsigned] accepts. *)
Record encodable (t : Tx) (v : Z) : Prop := mkEncodable
  { enc_sender : utf8_valid (Sender t) = true;
    enc_receiver : utf8_valid (Receiver t) = true;
    enc_value : Value t = Some v;
    enc_range : is_u256 v;
    enc_slen : zlen (norm_NFC (Sender t)) <= 0xFFFF;
    enc_rlen : zlen (norm_NFC (Receiver t)) <= 0xFFFF;
    enc_ext : ext_fits t }.

Lemma wrap16_small z : 0 <= z <= 0xFFFF -> wrap16 z = z.
Proof. intros. apply Z.mod_small. unfold two16. lia. Qed.
Lemma wrap32_small z : 0 <= z < two32 -> wrap32 z = z.
Proof. intros. by apply Z.mod_small. Qed.

Lemma serializeExt_spec t u :
  serializeExt t = Ok u <-> ext_fits t /\ u = concat (extChunks t).
Proof.
  unfold serializeExt, extChunks.
  pose proof (zlen_nonneg (WasmBytes t)). pose proof (zlen_nonneg (CallData t)).
  pose proof (zlen_nonneg (EvidenceA t)). pose proof (zlen_nonneg (EvidenceB t)).
  assert (maxWasmBytes < two32) by done.
  split.
  - intros Hs. osteps Hs; bsimp; simplify_eq;
      (split; [constructor; intros; unfold TxTypeContractDeploy, TxTypeContractCall, TxTypeEquivEvidence in *; lia|]);
      simpl; rewrite ?app_nil_r, ?wrap16_small, ?wrap32_small by lia; done.
  - intros [[] ->].
    destruct (Z.eqb_spec (Type_ t) TxTypeContractDeploy) as [E|_];
      [|destruct (Z.eqb_spec (Type_ t) TxTypeContractCall) as [E|_];
        [|destruct (Z.eqb_spec (Type_ t) TxTypeEquivEvidence) as [E|_]; [|done]]];
      simpl; rewrite ?app_nil_r.
    + specialize (fits_wasm0 E). ztest. ztest. by rewrite wrap32_small by lia.
    + specialize (fits_call0 E). ztest. ztest. by rewrite wrap16_small by lia.
    + specialize (fits_eva0 E). specialize (fits_evb0 E). do 4 ztest. simpl.
      by rewrite !wrap16_small by lia.
Qed.

Lemma value_field v :
  is_u256 v ->
  zlen (big_Bytes v) <= 32 /\
  replicate (32 - length (big_Bytes v)) x00 ++ big_Bytes v = be_enc 32 v.
Proof.
  intros Hv. assert (0 <= v < 256 ^ Z.of_nat 32) as Hv' by done.
  pose proof (put_big_ok (E := error) 32 v Hv') as Hp. unfold put_big in Hp.
  destruct (Nat.leb_spec (length (big_Bytes v)) 32); [|done]. simplify_eq.
  split; [unfold zlen; lia|done].
Qed.

Lemma serializeUnsigned_spec t u :
  serializeUnsigned t = Ok u <->
  exists v, encodable t v /\ u = concat (chunks t v (extChunks t)).
Proof.
  unfold serializeUnsigned.
  pose proof (zlen_nonneg (norm_NFC (Sender t))). pose proof (zlen_nonneg (norm_NFC (Receiver t))).
  split.
  - intros Hs. osteps Hs; bsimp. simplify_eq. unfold hash.UINT256_MAX in *.
    assert (is_u256 z) as Hz by (unfold is_u256, two256; lia).
    apply serializeExt_spec in E4 as [Hx ->].
    exists z. split; [by constructor|]. unfold chunks, put16, put32, put64.
    rewrite !wrap16_small, (proj2 (value_field z Hz)) by lia. simpl. by rewrite <- ?app_assoc.
  - intros (v & [Hs Hr Hv Hz Hsl Hrl Hx] & ->). rewrite Hs, Hr, Hv. simpl.
    destruct (value_field v Hz) as [Hl Hf]. unfold is_u256, two256, hash.UINT256_MAX in *.
    do 2 ztest. simpl. repeat ztest. simpl.
    rewrite (proj2 (serializeExt_spec t _) (conj Hx eq_refl)). simpl.
    rewrite Hf, !wrap16_small by lia. unfold chunks, put16, put32, put64. simpl.
    by rewrite <- ?app_assoc.
Qed.

Lemma extChunks_canon t : extChunks (canon t) = extChunks t.
Proof. unfold extChunks; simpl. by repeat case_match. Qed.

Lemma encodable_canon `{!PlatformLaws} t v : encodable t v -> encodable (canon t) v.
Proof.
  intros []. constructor; simpl; rewrite ?norm_NFC_idemp; auto using norm_NFC_valid.
  destruct enc_ext0. constructor; simpl; intros E; rewrite E in *; simpl; auto.
Qed.

Lemma serializeUnsigned_canon `{!PlatformLaws} t u : serializeUnsigned t = Ok u -> serializeUnsigned (canon t) = Ok u.
Proof.
  intros (v & Hv & ->)%serializeUnsigned_spec.
  rewrite (proj2 (serializeUnsigned_spec (canon t) _)
    (ex_intro _ v (conj (encodable_canon t v Hv) eq_refl))).
  unfold chunks. rewrite extChunks_canon. simpl. by rewrite norm_NFC_idemp, norm_NFC_idemp.
Qed.

Lemma VerifySigs_canon `{!PlatformLaws} t chainID :
  VerifySigsForChain t chainID = Ok tt -> VerifySigsForChain (canon t) chainID = Ok tt.
Proof.
  unfold VerifySigsForChain, UnsignedHashForChain. intros (msg & (u & Hu & Hm)%obind_ok_inv & Hv)%obind_ok_inv.
  rewrite (serializeUnsigned_canon _ _ Hu). cbn [obind]. apply Ok_inj in Hm as ->. exact Hv.
Qed.

Lemma Serialize_canon `{!PlatformLaws} t b : Serialize t = Ok b -> Serialize (canon t) = Ok b.
Proof. unfold Serialize. intros (u & Hu & Hs)%obind_ok_inv. by rewrite (serializeUnsigned_canon t u Hu). Qed.

(** ** Reading back what was written *)
Lemma deserializeExt_read t (P T : bytes) :
  ext_fits t -> zlen T = 192 ->
  deserializeExt (Type_ t) (concat (P :: extChunks t ++ [T])) (zlen P) =
  Ok (mkExt (WasmBytes (canon t)) (CallData (canon t)) (EvidenceA (canon t)) (EvidenceB (canon t))
        (zlen P + zlen (concat (extChunks t)))).
Proof.
  intros [Hw Hc Ha Hb] HT. unfold deserializeExt, extChunks, canon, u32_at, u16_at. rewrite zlen_concat.
  cbn [WasmBytes CallData EvidenceA EvidenceB].
  pose proof (zlen_nonneg (WasmBytes t)). pose proof (zlen_nonneg (CallData t)).
  pose proof (zlen_nonneg (EvidenceA t)). pose proof (zlen_nonneg (EvidenceB t)).
  pose proof (zlen_nonneg P).
  assert (maxWasmBytes < 2 ^ 32) by done.
  destruct (Z.eqb_spec (Type_ t) TxTypeContractDeploy) as [E|_];
    [|destruct (Z.eqb_spec (Type_ t) TxTypeContractCall) as [E|_];
      [|destruct (Z.eqb_spec (Type_ t) TxTypeEquivEvidence) as [E|_]]];
    rewrite ?E in *; cbn [app map zsum foldr]; autorewrite with len;
    repeat match goal with |- context [ Z.eqb ?a ?b ] => is_ground a; is_ground b;
      let r := eval vm_compute in (Z.eqb a b) in change (Z.eqb a b) with r end;
    cbn match.
  - specialize (Hw eq_refl). repeat first [rd_step | if_step].
    do 2 f_equal. rewrite zlen_concat. len_solve.
  - specialize (Hc eq_refl). repeat first [rd_step | if_step].
    do 2 f_equal. rewrite zlen_concat. len_solve.
  - specialize (Ha eq_refl). specialize (Hb eq_refl).
    repeat first [rd_step | if_step].
    do 2 f_equal. rewrite zlen_concat. len_solve.
  - do 2 f_equal. change (zlen (concat [])) with 0. lia.
Qed.

Lemma chunks_concat t v e : concat (chunks t v e) = concat (chunks t v []) ++ concat e.
Proof. unfold chunks. rewrite !concat_app. simpl. by rewrite <- !app_assoc. Qed.

(** The four trailing fields. *)
Definition trailer (t : Tx) : list bytes :=
  [arr_bytes (SenderPubKey t); arr_bytes (ReceiverPubKey t);
   arr_bytes (SenderSig t); arr_bytes (ReceiverSig t)].

Lemma trailer_len t : zlen (concat (trailer t)) = 192.
Proof. rewrite zlen_concat. unfold trailer. cbn [map zsum foldr]. autorewrite with len. done. Qed.

Lemma Serialize_spec t b :
  Serialize t = Ok b <->
  exists v, encodable t v /\
    b = concat (chunks t v (concat (extChunks t) :: trailer t)) /\
    zlen b <= maxTxBytes.
Proof.
  pose proof (trailer_len t) as HT. unfold Serialize.
  assert (forall u : bytes, u ++ SenderPubKey t ++ ReceiverPubKey t ++ SenderSig t ++ ReceiverSig t
            = u ++ concat (trailer t)) as Ht by (intros; simpl; by rewrite app_nil_r).
  split.
  - intros Hs. osteps Hs. simplify_eq. bsimp. rewrite Ht.
    apply serializeUnsigned_spec in E as (v & Hv & ->). exists v. split; [done|].
    rewrite (chunks_concat _ _ (extChunks t)) in *. rewrite (chunks_concat _ _ (_ :: _)).
    cbn [concat]. rewrite !zlen_app in *. split; [by rewrite app_assoc|lia].
  - intros (v & Hv & -> & Hl).
    rewrite (proj2 (serializeUnsigned_spec t _) (ex_intro _ v (conj Hv eq_refl))). cbn [obind].
    rewrite Ht. rewrite chunks_concat in Hl. cbn [concat] in Hl. rewrite !zlen_app in Hl.
    rewrite (chunks_concat _ _ (extChunks t)), zlen_app. do 2 ztest.
    f_equal. rewrite (chunks_concat _ _ (_ :: _)). cbn [concat]. by rewrite app_assoc.
Qed.

(** The extension of a written transaction, read at its place. *)
Lemma deserializeExt_written t v :
  ext_fits t ->
  let b := concat (chunks t v (concat (extChunks t) :: trailer t)) in
  deserializeExt (Type_ t) b (95 + zlen (norm_NFC (Sender t)) + zlen (norm_NFC (Receiver t)))
  = Ok (mkExt (WasmBytes (canon t)) (CallData (canon t)) (EvidenceA (canon t)) (EvidenceB (canon t))
          (95 + zlen (norm_NFC (Sender t)) + zlen (norm_NFC (Receiver t)) + zlen (concat (extChunks t)))).
Proof.
  intros Hf b.
  pose proof (deserializeExt_read t (concat (chunks t v [])) (concat (trailer t)) Hf (trailer_len t)) as Hr.
  assert (zlen (concat (chunks t v [])) = 95 + zlen (norm_NFC (Sender t)) + zlen (norm_NFC (Receiver t))) as HP.
  { rewrite zlen_concat. unfold chunks. len_solve. change (zlen hash.DomainTx) with 6. lia. }
  rewrite HP in Hr. rewrite <- Hr. f_equal. unfold b.
  rewrite chunks_concat. cbn [concat]. by rewrite concat_app, concat_cons, app_nil_r.
Qed.

Lemma tx_roundtrip `{!PlatformLaws} t b :
  wf t -> Serialize t = Ok b -> Deserialize b = Ok (canon t).
Proof.
  intros [Hty Hn Hm Hk] Hs. pose proof (Serialize_canon t b Hs) as Hc.
  apply Serialize_spec in Hs as (v & [] & -> & Hl).
  pose proof (deserializeExt_written t v enc_ext0) as Hx. cbn zeta in Hx.
  unfold chunks, trailer in *. cbn [app] in *.
  match goal with |- Deserialize ?x = _ => set (b := x) in * end.
  pose proof (zlen_nonneg (norm_NFC (Sender t))). pose proof (zlen_nonneg (norm_NFC (Receiver t))).
  pose proof (zlen_nonneg (concat (extChunks t))).
  assert (zlen hash.DomainTx = 6) as HD by done.
  assert (zlen b = 287 + zlen (norm_NFC (Sender t)) + zlen (norm_NFC (Receiver t))
                   + zlen (concat (extChunks t))) as HL.
  { subst b. rewrite zlen_concat. len_solve. }
  unfold is_u8, is_u64, is_u32, is_u256, two256 in *.
  unfold Deserialize, maxTxBytes, u16_at, u32_at, u64_at in *. rewrite HL. subst b.
  repeat if_step. rd_step. rewrite bool_decide_eq_false_2 by tauto.
  rd_step. rewrite byte_to_of_Z, Z.mod_small by done.
  repeat first [rd_step | if_step].
  match goal with |- context [deserializeExt _ _ ?p] =>
    replace p with (95 + zlen (norm_NFC (Sender t)) + zlen (norm_NFC (Receiver t))) by lia end.
  rewrite Hx. cbn [obind xPos xWasm xCall xEvA xEvB].
  repeat first [rd_step | if_step].
  rewrite !mk_arr_bytes. unfold big_SetBytes. rewrite be_dec_enc_small by done.
  rewrite <- enc_value0.
  match goal with |- context [Serialize ?p] => change p with (canon t) end.
  rewrite Hc. cbn [obind].
  by rewrite bool_decide_eq_false_2 by tauto.
Qed.

(** C27.  Round trip: whatever [Serialize] accepts, [Deserialize] reads back as
    the same transaction in canonical form (names in NFC, and only the payload
    fields its type carries). *)
Theorem Deserialize_Serialize `{!PlatformLaws} t b :
  wf t -> Serialize t = Ok b -> Deserialize b = Ok (canon t).
Proof. apply tx_roundtrip. Qed.

Lemma tx_canonical d t : Deserialize d = Ok t -> Serialize t = Ok d.
Proof. unfold Deserialize. intros Hd. osteps Hd; bsimp; by simplify_eq. Qed.

(** Canonicity: a byte string is accepted only if it is the encoding of
    the transaction it parses to, so one transaction has one accepted form. *)
Theorem Deserialize_canonical d t : Deserialize d = Ok t -> Serialize t = Ok d.
Proof. apply tx_canonical. Qed.

(** ** Panics *)
Lemma serializeUnsigned_no_panic t : serializeUnsigned t <> Panic.
Proof.
  unfold serializeUnsigned, serializeExt, fail. repeat (case_match; simpl; try done).
Qed.

Lemma Serialize_no_panic t : Serialize t <> Panic.
Proof.
  unfold Serialize, fail. pose proof (serializeUnsigned_no_panic t).
  destruct (serializeUnsigned t); simpl; try done. by case_match.
Qed.

Lemma deserializeExt_no_panic ty d pos :
  0 <= pos -> pos <= zlen d -> 192 <= zlen d -> deserializeExt ty d pos <> Panic.
Proof.
  intros Hp Hd Hl. unfold deserializeExt, u32_at, u16_at, fail.
  repeat first
    [ done
    | progress cbn [obind]
    | match goal with
      | |- context [if ?b then _ else _] => destruct b eqn:?; bsimp
      | |- context [be_at ?n d ?p] =>
          let z := fresh "z" in let Hz := fresh "Hz" in let Hr := fresh "Hr" in
          destruct (be_at_ok (E := error) n d p) as (z & Hz & Hr); [lia | lia | rewrite Hz; clear Hz]
      | |- context [slice d ?i ?j] => rewrite (slice_ok d i j) by lia
      end ].
Qed.

(** A well-formed prefix whose sender name runs to within one byte of the end,
    so that the receiver's length field is cut off. *)
Definition truncated_receiver (d : bytes) : Prop :=
  287 <= zlen d <= maxTxBytes /\ take 6 d = hash.DomainTx /\
  exists senderLen, u16_at (E := error) d 7 = Ok senderLen /\
    9 + senderLen <= zlen d < 11 + senderLen.

(** [Deserialize] panics on exactly the inputs of [truncated_receiver]: the
    receiver length is read without the bounds check that guards every other
    field.  On all other inputs it returns a transaction or an error. *)
Theorem Deserialize_panics_iff d : Deserialize d = Panic <-> truncated_receiver d.
Proof.
  unfold truncated_receiver, Deserialize, u16_at, u32_at, u64_at, fail.
  destruct (zlen d >? maxTxBytes) eqn:E1; bsimp; [split; [done|lia]|].
  destruct (zlen d <? _) eqn:E2; bsimp; [split; [done|lia]|].
  cbn zeta. rewrite slice_ok by lia. cbn [obind]. change (take _ (drop _ d)) with (take 6 d).
  case_bool_decide as E3; [split; [done|tauto]|].
  unfold index. change (0 <=? 0 + 6) with true. cbv iota.
  destruct (d !! Z.to_nat (0 + 6)) eqn:Ei;
    [|apply lookup_ge_None in Ei; unfold zlen in *; lia]. cbn [obind].
  destruct (be_at_ok (E := error) 2 d (0 + 6 + 1)) as (sl & Hsl & Hslr); [lia..|].
  change (0 + 6 + 1) with 7 in *. rewrite Hsl. cbn [obind].
  destruct (7 + 2 + sl >? zlen d) eqn:E4; bsimp.
  { split; [done|]. intros (_ & _ & s' & ? & ?). simplify_eq. lia. }
  rewrite slice_ok by lia. cbn [obind].
  destruct (decide (zlen d < 11 + sl)) as [Hlt|Hge].
  { rewrite be_at_panic by lia. split; [|done]. intros _. split; [lia|]. split; [done|].
    exists sl. split; [done|lia]. }
  split; [|intros (_ & _ & s' & ? & ?); simplify_eq; lia].
  destruct (be_at_ok (E := error) 2 d (7 + 2 + sl)) as (rl & Hrl & Hrlr); [lia..|].
  rewrite Hrl. cbn [obind].
  repeat first
    [ done
    | progress cbn [obind]
    | match goal with
      | |- (if ?b then _ else _) = _ -> _ => destruct b eqn:?; bsimp
      | |- obind (be_at ?n d ?p) _ = _ -> _ =>
          let z := fresh "z" in let Hz := fresh "Hz" in let Hr := fresh "Hr" in
          destruct (be_at_ok (E := error) n d p) as (z & Hz & Hr); [lia | lia | rewrite Hz; clear Hz]
      | |- obind (slice d ?i ?j) _ = _ -> _ => rewrite (slice_ok d i j) by lia
      | |- obind (deserializeExt ?ty d ?p) _ = _ -> _ =>
          let Hn := fresh "Hn" in
          pose proof (deserializeExt_no_panic ty d p ltac:(lia) ltac:(lia) ltac:(lia)) as Hn;
          destruct (deserializeExt ty d p)
      | |- obind (Serialize ?t) _ = _ -> _ =>
          let Hn := fresh "Hn" in
          pose proof (Serialize_no_panic t) as Hn; destruct (Serialize t)
      end ].
Qed.
End Codec.
