(* ===== verification/TxSigProofs.v ===== *)
(** * core/tx: what a transaction signature covers *)

From S2P Require Import Prelude GoBytes Errors Platform Sha256 Tx TxProofs.
Import tx.

Section Sign.
Context `{Platform}.

(** The part of a transaction that is hashed for signing.  Neither public key
    is in it. *)
Record SignedView : Type := mkView
  { vType : Z; vSender : bytes; vReceiver : bytes; vValue : option Z; vNonce : Z;
    vMissedHeight : Z; vMissedProposer : arr 32; vSkipIndex : Z;
    vWasm : bytes; vCall : bytes; vEvA : bytes; vEvB : bytes }.

Definition signedView (t : Tx) : SignedView :=
  let c := canon t in
  mkView (Type_ c) (Sender c) (Receiver c) (Value c) (Nonce c) (MissedHeight c)
    (MissedProposer c) (SkipIndex c) (WasmBytes c) (CallData c) (EvidenceA c) (EvidenceB c).

(** The chain identity a signature is bound to (the empty name is mainnet). *)
Definition chainName (chainID : bytes) : bytes :=
  if bool_decide (chainID = []) then DefaultChainID else chainID.

Ltac split_app H :=
  let H1 := fresh "Hp" in
  apply app_inj_len in H as [H1 H]; [|by rewrite ?be_enc_length, ?arr_length].

Lemma be_enc_app_inj n z1 z2 (l1 l2 : bytes) :
  0 <= z1 < 256 ^ Z.of_nat n -> 0 <= z2 < 256 ^ Z.of_nat n ->
  be_enc n z1 ++ l1 = be_enc n z2 ++ l2 -> z1 = z2 /\ l1 = l2.
Proof.
  intros H1 H2 He. apply app_inj_len in He as [He ->]; [|by rewrite !be_enc_length].
  split; [|done]. by eapply be_enc_inj.
Qed.

(** A length-prefixed field determines the field and what follows it. *)
Lemma prefixed_inj n (s1 s2 l1 l2 : bytes) :
  zlen s1 < 256 ^ Z.of_nat n -> zlen s2 < 256 ^ Z.of_nat n ->
  be_enc n (zlen s1) ++ s1 ++ l1 = be_enc n (zlen s2) ++ s2 ++ l2 -> s1 = s2 /\ l1 = l2.
Proof.
  intros H1 H2 He. pose proof (zlen_nonneg s1). pose proof (zlen_nonneg s2).
  apply be_enc_app_inj in He as [Hz He]; [|lia..].
  apply app_inj_len in He; [done|]. unfold zlen in Hz. lia.
Qed.

Lemma extChunks_inj t1 t2 :
  Type_ t1 = Type_ t2 -> ext_fits t1 -> ext_fits t2 ->
  concat (extChunks t1) = concat (extChunks t2) ->
  WasmBytes (canon t1) = WasmBytes (canon t2) /\ CallData (canon t1) = CallData (canon t2) /\
  EvidenceA (canon t1) = EvidenceA (canon t2) /\ EvidenceB (canon t1) = EvidenceB (canon t2).
Proof.
  intros HT [W1 C1 A1 B1] [W2 C2 A2 B2]. rewrite HT in *. unfold extChunks, canon. rewrite !HT.
  cbn [WasmBytes CallData EvidenceA EvidenceB].
  assert (maxWasmBytes < 256 ^ Z.of_nat 4) by done.
  assert (65535 < 256 ^ Z.of_nat 2) by done.
  destruct (Z.eqb_spec (Type_ t2) TxTypeContractDeploy) as [E|_];
    [|destruct (Z.eqb_spec (Type_ t2) TxTypeContractCall) as [E|_];
      [|destruct (Z.eqb_spec (Type_ t2) TxTypeEquivEvidence) as [E|_]]];
    rewrite ?E in *; cbn [concat]; intros He.
  - specialize (W1 eq_refl). specialize (W2 eq_refl). apply prefixed_inj in He as [-> _]; [done|lia..].
  - specialize (C1 eq_refl). specialize (C2 eq_refl). apply prefixed_inj in He as [-> _]; [done|lia..].
  - specialize (A1 eq_refl). specialize (A2 eq_refl). specialize (B1 eq_refl). specialize (B2 eq_refl).
    apply prefixed_inj in He as [-> He]; [|lia..]. apply prefixed_inj in He as [-> _]; [done|lia..].
  - done.
Qed.

Lemma serializeUnsigned_inj t1 t2 u :
  wf t1 -> wf t2 -> serializeUnsigned t1 = Ok u -> serializeUnsigned t2 = Ok u ->
  signedView t1 = signedView t2.
Proof.
  intros [Ty1 N1 M1 K1] [Ty2 N2 M2 K2] S1 S2.
  apply serializeUnsigned_spec in S1 as (v1 & [] & ->).
  apply serializeUnsigned_spec in S2 as (v2 & [] & He).
  unfold is_u8, is_u64, is_u32, is_u256, two8, two64, two32, two256 in *.
  unfold chunks in He. rewrite !concat_app in He. cbn [concat] in He.
  rewrite <- !app_assoc, !app_nil_l in He.
  apply app_inv_head in He. apply app_inj_len in He as [HT He]; [|done].
  apply (f_equal be_dec) in HT. rewrite !be_dec_one in HT.
  rewrite !byte_to_of_Z, !Z.mod_small in HT by lia.
  apply prefixed_inj in He as [Hs He]; [|lia..].
  apply prefixed_inj in He as [Hr He]; [|lia..].
  apply be_enc_app_inj in He as [Hv He]; [|lia..].
  apply be_enc_app_inj in He as [Hn He]; [|lia..].
  apply be_enc_app_inj in He as [Hm He]; [|lia..].
  apply app_inj_len in He as [Hp He]; [|by rewrite !arr_length]. apply arr_eq in Hp.
  apply be_enc_app_inj in He as [Hk He]; [|lia..].
  apply extChunks_inj in He as (Hw & Hc & Ha & Hb); [|done..].
  unfold signedView. rewrite Hw, Hc, Ha, Hb. unfold canon.
  cbn [Type_ Sender Receiver Value Nonce MissedHeight MissedProposer SkipIndex]. congruence.
Qed.

Lemma serializeUnsigned_view t1 t2 :
  signedView t1 = signedView t2 ->
  utf8_valid (Sender t1) = utf8_valid (Sender t2) ->
  utf8_valid (Receiver t1) = utf8_valid (Receiver t2) ->
  serializeUnsigned t1 = serializeUnsigned t2.
Proof.
  destruct t1, t2. unfold signedView, canon; cbn. intros Hv Hu1 Hu2.
  injection Hv as -> Hs Hr -> -> -> -> -> Hw Hc Ha Hb.
  unfold serializeUnsigned, serializeExt; cbn. rewrite Hu1, Hu2, Hs, Hr.
  revert Hw Hc Ha Hb.
  do 3 match goal with |- context [ (?a =? ?b)%Z ] => is_var a; destruct (Z.eqb a b) end;
    intros; by subst.
Qed.

Lemma chainDomainBytes_inj c1 c2 p1 p2 :
  zlen c1 <= 0xFFFF -> zlen c2 <= 0xFFFF ->
  chainDomainBytes c1 p1 = chainDomainBytes c2 p2 -> chainName c1 = chainName c2 /\ p1 = p2.
Proof.
  intros H1 H2 He. unfold chainDomainBytes in He. apply app_inv_head in He.
  fold (chainName c1) (chainName c2) in He.
  assert (forall c, zlen c <= 65535 -> zlen (chainName c) <= 65535) as Hc.
  { intros c Hc. unfold chainName. by case_bool_decide. }
  pose proof (Hc _ H1). pose proof (Hc _ H2).
  rewrite !wrap16_small in He by (pose proof (zlen_nonneg (chainName c1)); pose proof (zlen_nonneg (chainName c2)); lia).
  apply prefixed_inj in He; [done|lia..].
Qed.

(** The message whose digest is signed. *)
Definition signedMessage (t : Tx) (c m : bytes) : Prop := exists u, serializeUnsigned t = Ok u /\ m = chainDomainBytes c u.

(** C28.  What a signature covers: two transactions have the same signing hash on
    two chains exactly when their signed fields and the chain names agree, or
    the two signed messages are a SHA-256 collision. *)
Theorem signing_hash_binding t1 t2 c1 c2 h1 h2 :
  wf t1 -> wf t2 -> zlen c1 <= 0xFFFF -> zlen c2 <= 0xFFFF ->
  UnsignedHashForChain t1 c1 = Ok h1 -> UnsignedHashForChain t2 c2 = Ok h2 ->
  (h1 = h2 -> (signedView t1 = signedView t2 /\ chainName c1 = chainName c2) \/
     hash.collision (fun m => signedMessage t1 c1 m \/ signedMessage t2 c2 m)) /\
  (signedView t1 = signedView t2 /\ chainName c1 = chainName c2 -> h1 = h2).
Proof.
  intros W1 W2 L1 L2 E1 E2. unfold UnsignedHashForChain in *. osteps E1. osteps E2.
  injection E1 as <-. injection E2 as <-. split.
  - intros Hh. apply (hash.Hash_inj_or_collision (fun m => signedMessage t1 c1 m \/ signedMessage t2 c2 m)) in Hh
      as [He|]; [left|by right|left; by eexists|right; by eexists].
    apply chainDomainBytes_inj in He as [Hc ->]; [|done..]. split; [|done].
    by eapply serializeUnsigned_inj.
  - intros [Hv Hc].
    pose proof E as X1. pose proof E0 as X2.
    apply serializeUnsigned_spec in X1 as (? & [] & _). apply serializeUnsigned_spec in X2 as (? & [] & _).
    rewrite (serializeUnsigned_view t1 t2) in E by congruence.
    rewrite E in E0. injection E0 as ->.
    unfold chainDomainBytes. cbv zeta. fold (chainName c1) (chainName c2). by rewrite Hc.
Qed.

Definition set_ReceiverPubKey (k : arr 32) (t : Tx) : Tx :=
  {| Type_ := Type_ t; Sender := Sender t; Receiver := Receiver t; Value := Value t;
     Nonce := Nonce t; SenderPubKey := SenderPubKey t; ReceiverPubKey := k;
     SenderSig := SenderSig t; ReceiverSig := ReceiverSig t;
     MissedHeight := MissedHeight t; MissedProposer := MissedProposer t; SkipIndex := SkipIndex t;
     WasmBytes := WasmBytes t; InitArgs := InitArgs t; CallData := CallData t;
     EvidenceA := EvidenceA t; EvidenceB := EvidenceB t |}.

(** A transaction signed by the key it names verifies, on the chain it was signed for. *)
Definition set_SenderSig (s : arr 64) (t : Tx) : Tx :=
  {| Type_ := Type_ t; Sender := Sender t; Receiver := Receiver t; Value := Value t;
     Nonce := Nonce t; SenderPubKey := SenderPubKey t; ReceiverPubKey := ReceiverPubKey t;
     SenderSig := s; ReceiverSig := ReceiverSig t;
     MissedHeight := MissedHeight t; MissedProposer := MissedProposer t; SkipIndex := SkipIndex t;
     WasmBytes := WasmBytes t; InitArgs := InitArgs t; CallData := CallData t;
     EvidenceA := EvidenceA t; EvidenceB := EvidenceB t |}.

Lemma SignSender_verifies `{!PlatformLaws} t kp c s :
  keys.generated kp -> SenderPubKey t = keys.PublicKey kp -> knownType (Type_ t) = true ->
  SignSenderForChain t kp c = Ok s ->
  VerifySigsForChain (set_SenderSig s t) c = Ok tt.
Proof.
  intros Hg Hk Hty Hs. unfold SignSenderForChain in Hs. osteps Hs. simplify_eq.
  unfold VerifySigsForChain.
  change (UnsignedHashForChain (set_SenderSig _ t) c) with (UnsignedHashForChain t c).
  rewrite E. cbn. by rewrite Hty, Hk, keys.Verify_Sign.
Qed.
End Sign.
