(* ===== verification/BatchProofs.v ===== *)
(** * core/tx: transaction batches *)

From S2P Require Import Prelude GoBytes Errors Platform Sha256 Tx TxProofs.
Import tx.

Section Batch.
Context `{Platform}.

(** A transaction in a batch: its length, then its bytes. *)
Definition frame (b : bytes) : bytes := put16 (zlen b) ++ b.

Lemma appendTx_spec buf t out :
  appendTx buf t = Ok out <->
  exists b, Serialize t = Ok b /\ zlen b <= 0xFFFF /\ out = buf ++ frame b /\ zlen out <= maxBatchBytes.
Proof.
  unfold appendTx, frame. split.
  - intros Hs. osteps Hs. bsimp. simplify_eq. exists a.
    rewrite wrap16_small in * by (pose proof (zlen_nonneg a); lia). auto.
  - intros (b & -> & Hb & -> & Hl). cbn [obind]. do 2 ztest.
    rewrite wrap16_small by (pose proof (zlen_nonneg b); lia). cbv zeta. do 2 ztest. done.
Qed.

Lemma foldM_appendTx txs buf out :
  foldM appendTx buf txs = Ok out ->
  exists bs, Forall2 (fun t b => Serialize t = Ok b /\ zlen b <= 0xFFFF) txs bs /\
    out = buf ++ concat (map frame bs) /\ (txs <> [] -> zlen out <= maxBatchBytes).
Proof.
  revert buf; induction txs as [|t txs IH]; intros buf; cbn [foldM]; intros Hs.
  - simplify_eq. exists []. split; [constructor|]. by rewrite app_nil_r.
  - apply obind_ok_inv in Hs as (buf' & Ht & Hs). apply appendTx_spec in Ht as (b & Hb & Hl & -> & Hm).
    destruct (IH _ Hs) as (bs & HF & -> & Hz). exists (b :: bs).
    split; [by constructor|]. cbn [map concat]. rewrite app_assoc. split; [done|]. intros _.
    destruct txs; [|by apply Hz]. inversion HF; subst. simpl. by rewrite app_nil_r.
Qed.

Lemma foldM_appendTx_ok txs bs buf :
  Forall2 (fun t b => Serialize t = Ok b /\ zlen b <= 0xFFFF) txs bs ->
  zlen buf + zlen (concat (map frame bs)) <= maxBatchBytes ->
  foldM appendTx buf txs = Ok (buf ++ concat (map frame bs)).
Proof.
  intros HF. revert buf. induction HF as [|t b txs bs [Hb Hl] HF IH]; intros buf Hm; cbn [foldM map concat] in *.
  - by rewrite app_nil_r.
  - rewrite zlen_app in Hm. pose proof (zlen_nonneg (concat (map frame bs))).
    rewrite (proj2 (appendTx_spec buf t (buf ++ frame b))) by (exists b; rewrite zlen_app; auto with lia).
    cbn [obind]. rewrite IH by (rewrite zlen_app; lia). by rewrite app_assoc.
Qed.

Lemma batchLoop_frames `{!PlatformLaws} txs bs (pre post : bytes) :
  Forall wf txs -> Forall2 (fun t b => Serialize t = Ok b /\ zlen b <= 0xFFFF) txs bs ->
  batchLoop (length txs) (pre ++ concat (map frame bs) ++ post) (zlen pre) =
  Ok (map canon txs, zlen pre + zlen (concat (map frame bs))).
Proof.
  intros Hw HF. revert pre Hw.
  induction HF as [|t b txs bs [Hb Hl] HF IH]; intros pre Hw; cbn [length batchLoop map concat].
  - by rewrite zlen_nil, Z.add_0_r.
  - inversion Hw as [|? ? Ht Hw']; subst.
    pose proof (zlen_nonneg b). pose proof (zlen_nonneg post).
    pose proof (zlen_nonneg (concat (map frame bs))).
    set (rest := concat (map frame bs) ++ post).
    assert (pre ++ (frame b ++ concat (map frame bs)) ++ post =
            concat [pre; be_enc 2 (zlen b); b; rest]) as ->.
    { unfold frame, rest. cbn [concat]. by rewrite app_nil_r, <- !app_assoc. }
    assert (zlen (concat [pre; be_enc 2 (zlen b); b; rest]) = zlen pre + (2 + (zlen b + zlen rest))) as HL
      by (rewrite zlen_concat; len_solve).
    assert (0 <= zlen rest) by apply zlen_nonneg.
    unfold u16_at. rewrite !HL. repeat first [rd_step | if_step].
    rewrite (tx_roundtrip t b Ht Hb). cbn [obind].
    specialize (IH (pre ++ frame b) Hw').
    assert (zlen (pre ++ frame b) = zlen pre + 2 + zlen b) as Hz
      by (unfold frame; rewrite !zlen_app, zlen_put16; lia).
    rewrite Hz in IH. fold rest in IH.
    replace ((pre ++ frame b) ++ rest) with (concat [pre; be_enc 2 (zlen b); b; rest]) in IH
      by (unfold frame; cbn [concat]; by rewrite app_nil_r, <- !app_assoc).
    rewrite IH. cbn [obind]. do 2 f_equal. rewrite zlen_app.
    unfold frame at 2. rewrite zlen_app, zlen_put16. lia.
Qed.

Lemma batch_roundtrip `{!PlatformLaws} txs d :
  Forall wf txs -> zlen txs < maxBatchTxs -> SerializeBatch txs = Ok d ->
  DeserializeBatch d = Ok (map canon txs).
Proof.
  intros Hw Hn Hs. unfold SerializeBatch, maxBatchTxs in *. osteps Hs. bsimp.
  pose proof (zlen_nonneg txs).
  apply foldM_appendTx in Hs as (bs & HF & -> & Hm).
  assert (txs <> []) as Hne by (by intros ->). specialize (Hm Hne).
  rewrite wrap16_small in * by lia.
  assert (zlen hash.DomainTxBatch = 12) as HD by done.
  pose proof (zlen_nonneg (concat (map frame bs))).
  pose proof (batchLoop_frames txs bs (hash.DomainTxBatch ++ put16 (zlen txs)) [] Hw HF) as HB.
  rewrite app_nil_r, zlen_app, HD, zlen_put16 in HB. change (12 + 2) with 14 in HB.
  set (body := concat (map frame bs)) in *. clearbody body.
  replace ((hash.DomainTxBatch ++ put16 (zlen txs)) ++ body)
    with (concat [hash.DomainTxBatch; be_enc 2 (zlen txs); body]) in *
    by (cbn [concat]; by rewrite app_nil_r, <- !app_assoc).
  unfold DeserializeBatch, u16_at, maxBatchTxs. rewrite zlen_concat in *. cbn [map zsum foldr] in *.
  rewrite HD, zlen_be_enc in *.
  repeat first [rd_step | if_step].
  rewrite bool_decide_eq_false_2 by tauto.
  repeat first [rd_step | if_step].
  replace (Z.to_nat (zlen txs)) with (length txs) by (unfold zlen; lia).
  rewrite HB. cbn [obind]. by if_step.
Qed.

(** Batch round trip for every batch the format can count: a batch of fewer
    than 65536 transactions that [SerializeBatch] accepts is read back. *)
Theorem DeserializeBatch_SerializeBatch `{!PlatformLaws} txs d :
  Forall wf txs -> zlen txs < maxBatchTxs -> SerializeBatch txs = Ok d ->
  DeserializeBatch d = Ok (map canon txs).
Proof. apply batch_roundtrip. Qed.

Lemma full_batch_lost txs d :
  zlen txs = maxBatchTxs -> SerializeBatch txs = Ok d ->
  DeserializeBatch d = fail ErrCanonicalEncodingDistortion.
Proof.
  intros Hn Hs. unfold SerializeBatch in *. osteps Hs. clear E E0.
  apply foldM_appendTx in Hs as (bs & HF & -> & Hm).
  assert (txs <> []) as Hne by (by intros ->). specialize (Hm Hne).
  rewrite Hn in *. change (wrap16 maxBatchTxs) with 0 in *.
  assert (zlen hash.DomainTxBatch = 12) as HD by done.
  assert (0 < zlen (concat (map frame bs))) as Hpos.
  { destruct HF as [|t b ? ? ? ?]; [done|]. cbn [map concat]. unfold frame at 1.
    rewrite !zlen_app, zlen_put16. pose proof (zlen_nonneg b).
    pose proof (zlen_nonneg (concat (map frame l'))). lia. }
  set (body := concat (map frame bs)) in *. clearbody body.
  replace ((hash.DomainTxBatch ++ put16 0) ++ body)
    with (concat [hash.DomainTxBatch; be_enc 2 0; body]) in *
    by (cbn [concat]; by rewrite app_nil_r, <- !app_assoc).
  unfold DeserializeBatch, u16_at, maxBatchTxs. rewrite zlen_concat in *. cbn [map zsum foldr] in *.
  rewrite HD, zlen_be_enc in *. unfold maxBatchBytes in *.
  repeat first [rd_step | if_step].
  rewrite bool_decide_eq_false_2 by tauto.
  repeat first [rd_step | if_step].
  change (Z.to_nat 0) with 0%nat. cbn [batchLoop obind].
  by if_step.
Qed.
(** A full batch cannot be read back: the count field has 16 bits, so a
    batch of the documented maximum of 65536 transactions is written with a
    count of zero and then rejected for its trailing bytes. *)
Theorem full_batch_unreadable txs d :
  zlen txs = maxBatchTxs -> SerializeBatch txs = Ok d ->
  DeserializeBatch d = fail ErrCanonicalEncodingDistortion.
Proof. apply full_batch_lost. Qed.
End Batch.
