(* ===== verification/KV.v ===== *)
(** * The database interface

    The program keeps its state in go.etcd.io/bbolt buckets: ordered maps from
    byte strings to byte strings.  [KV] lists the bucket operations the
    program uses and [KVLaws] their documented behaviour; every component
    above is proved against this interface.  [gmap_kv] is an implementation,
    which shows that the laws can hold.

    [Put] returns an error for keys or values over bbolt's size limits; the
    program's keys are at most 45 bytes and its values far below the limit of
    2 GiB, so these errors are not modelled.  A stored key is found by [Get]
    whatever its value, the empty one included. *)

From S2P Require Import Prelude GoBytes Errors.

Class KV (B : Type) : Type :=
  { kv_empty : B;
    kv_Get : B -> bytes -> option bytes;
    kv_Put : B -> bytes -> bytes -> B;
    kv_Delete : B -> bytes -> B;
    kv_ForEach : B -> list (bytes * bytes) }.

Class KVLaws (B : Type) `{KV B} : Prop :=
  { kv_get_empty : forall k, kv_Get kv_empty k = None;
    kv_get_put : forall b k v k',
      kv_Get (kv_Put b k v) k' = if decide (k = k') then Some v else kv_Get b k';
    kv_get_delete : forall b k k',
      kv_Get (kv_Delete b k) k' = if decide (k = k') then None else kv_Get b k';
    kv_foreach_get : forall b k v, (k, v) ∈ kv_ForEach b <-> kv_Get b k = Some v;
    (* keys are visited in byte order, each once *)
    kv_foreach_sorted : forall b, StronglySorted bytes_le (map fst (kv_ForEach b));
    kv_foreach_nodup : forall b, NoDup (map fst (kv_ForEach b)) }.

(** The buckets of the node's database. *)
Record DB (B : Type) : Type := mkDB
  { balances : B;
    nonces : B;
    validators : B;
    meta : B;
    contract_bytecode : B;
    contract_state : B;
    blocks : B;
    block_telemetry : B }.
Arguments mkDB {B}.
Arguments balances {B}. Arguments nonces {B}. Arguments validators {B}. Arguments meta {B}.
Arguments contract_bytecode {B}. Arguments contract_state {B}. Arguments blocks {B}.
Arguments block_telemetry {B}.

Section DB.
Context {B : Type}.

Definition set_balances (db : DB B) (b : B) : DB B :=
  mkDB b (nonces db) (validators db) (meta db) (contract_bytecode db) (contract_state db) (blocks db) (block_telemetry db).
Definition set_nonces (db : DB B) (b : B) : DB B :=
  mkDB (balances db) b (validators db) (meta db) (contract_bytecode db) (contract_state db) (blocks db) (block_telemetry db).
Definition set_validators (db : DB B) (b : B) : DB B :=
  mkDB (balances db) (nonces db) b (meta db) (contract_bytecode db) (contract_state db) (blocks db) (block_telemetry db).
Definition set_meta (db : DB B) (b : B) : DB B :=
  mkDB (balances db) (nonces db) (validators db) b (contract_bytecode db) (contract_state db) (blocks db) (block_telemetry db).
Definition set_contract_bytecode (db : DB B) (b : B) : DB B :=
  mkDB (balances db) (nonces db) (validators db) (meta db) b (contract_state db) (blocks db) (block_telemetry db).
Definition set_contract_state (db : DB B) (b : B) : DB B :=
  mkDB (balances db) (nonces db) (validators db) (meta db) (contract_bytecode db) b (blocks db) (block_telemetry db).
Definition set_blocks (db : DB B) (b : B) : DB B :=
  mkDB (balances db) (nonces db) (validators db) (meta db) (contract_bytecode db) (contract_state db) b (block_telemetry db).
Definition set_block_telemetry (db : DB B) (b : B) : DB B :=
  mkDB (balances db) (nonces db) (validators db) (meta db) (contract_bytecode db) (contract_state db) (blocks db) b.

(** [db.Update(fn)]: fn runs on a private copy that is committed when it
    returns no error and dropped otherwise. *)
Definition Update {A} (db : DB B) (fn : DB B -> res (DB B * A)) : DB B * res A :=
  match fn db with
  | Ok (db', a) => (db', Ok a)
  | Err e => (db, Err e)
  | Panic => (db, Panic)
  end.

Lemma Update_ok {A} (db db' : DB B) fn (a : A) :
  Update db fn = (db', Ok a) <-> fn db = Ok (db', a).
Proof. unfold Update. destruct (fn db) as [[? ?]| |]; naive_solver. Qed.

Lemma Update_err {A} (db db' : DB B) fn (r : res A) :
  Update db fn = (db', r) -> is_Ok r = false -> db' = db.
Proof. unfold Update. destruct (fn db) as [[? ?]| |]; naive_solver. Qed.
End DB.

(** ** Buckets as finite maps *)
Section Map.
Context {B : Type} `{KVLaws B}.

Definition kv_map (b : B) : gmap bytes bytes := list_to_map (kv_ForEach b).

Lemma kv_map_lookup (b : B) k : kv_map b !! k = kv_Get b k.
Proof.
  unfold kv_map. destruct (kv_Get b k) eqn:E.
  - apply elem_of_list_to_map; [apply kv_foreach_nodup|]. by apply kv_foreach_get.
  - apply not_elem_of_list_to_map. intros ([k' v] & Hk & Hin)%list_elem_of_fmap.
    simpl in Hk. subst. apply kv_foreach_get in Hin. congruence.
Qed.

Lemma kv_map_put (b : B) k v : kv_map (kv_Put b k v) = <[k:=v]> (kv_map b).
Proof.
  apply map_eq. intros k'. rewrite kv_map_lookup, kv_get_put, lookup_insert, kv_map_lookup. done.
Qed.

Lemma kv_map_delete (b : B) k : kv_map (kv_Delete b k) = delete k (kv_map b).
Proof.
  apply map_eq. intros k'. rewrite kv_map_lookup, kv_get_delete, lookup_delete, kv_map_lookup. done.
Qed.

Lemma kv_map_empty : kv_map (kv_empty : B) = ∅.
Proof. apply map_eq. intros k. by rewrite kv_map_lookup, kv_get_empty, lookup_empty. Qed.

Lemma kv_foreach_perm (b : B) : kv_ForEach b ≡ₚ map_to_list (kv_map b).
Proof. unfold kv_map. by rewrite map_to_list_to_map by apply kv_foreach_nodup. Qed.

(** A bucket with one key. *)
Lemma kv_foreach_single (b : B) k v :
  (forall k', kv_Get b k' = if decide (k = k') then Some v else None) -> kv_ForEach b = [(k, v)].
Proof.
  intros Hg. apply Permutation_singleton_r. apply NoDup_Permutation.
  - eapply NoDup_fmap_1, kv_foreach_nodup.
  - apply NoDup_singleton.
  - intros [k' v']. rewrite kv_foreach_get, Hg, list_elem_of_singleton. case_decide; naive_solver.
Qed.

(** The sum of a measure over a bucket. *)
Definition kv_sum (f : bytes -> Z) (b : B) : Z := sumZ (map (fun kv => f (snd kv)) (kv_ForEach b)).

Lemma kv_sum_map f (b : B) : kv_sum f b = sumZ (map (fun kv => f (snd kv)) (map_to_list (kv_map b))).
Proof. unfold kv_sum. by rewrite kv_foreach_perm. Qed.

(** Replacing one value changes the sum by the difference. *)
Lemma kv_sum_put f (b : B) k v :
  f [] = 0 ->
  kv_sum f (kv_Put b k v) = kv_sum f b - f (default [] (kv_Get b k)) + f v.
Proof.
  intros Hf. rewrite !kv_sum_map, kv_map_put, <- kv_map_lookup.
  destruct (kv_map b !! k) as [w|] eqn:E.
  - rewrite <- (insert_delete_eq (kv_map b) k v), map_to_list_insert by apply lookup_delete_eq.
    rewrite <- (insert_delete_id (kv_map b) k w E) at 2.
    rewrite map_to_list_insert by apply lookup_delete_eq. simpl. lia.
  - rewrite map_to_list_insert by done. simpl. rewrite Hf. lia.
Qed.

(** A value with a nonnegative measure is at most the sum. *)
Lemma kv_sum_ge f (b : B) k v :
  (forall w, 0 <= f w) -> kv_Get b k = Some v -> f v <= kv_sum f b.
Proof.
  intros Hf Hk. rewrite kv_sum_map. rewrite <- kv_map_lookup in Hk.
  rewrite <- (insert_delete_id (kv_map b) k v Hk).
  rewrite map_to_list_insert by apply lookup_delete_eq. simpl.
  assert (0 <= sumZ (map (fun kv => f (snd kv)) (map_to_list (delete k (kv_map b))))); [|lia].
  apply sumZ_nonneg. apply Forall_forall. intros x (? & -> & ?)%list_elem_of_fmap. apply Hf.
Qed.

(** The same for a measure of the key and the value. *)
Definition kv_total (f : bytes * bytes -> Z) (b : B) : Z := sumZ (map f (kv_ForEach b)).
Definition kv_at (f : bytes * bytes -> Z) (b : B) (k : bytes) : Z :=
  match kv_Get b k with Some v => f (k, v) | None => 0 end.

Lemma kv_total_map f (b : B) : kv_total f b = sumZ (map f (map_to_list (kv_map b))).
Proof. unfold kv_total. by rewrite kv_foreach_perm. Qed.

Lemma kv_total_delete f (b : B) k : kv_total f (kv_Delete b k) = kv_total f b - kv_at f b k.
Proof.
  rewrite !kv_total_map, kv_map_delete. unfold kv_at. rewrite <- kv_map_lookup.
  destruct (kv_map b !! k) as [w|] eqn:E.
  - rewrite <- (insert_delete_id (kv_map b) k w E) at 2.
    rewrite map_to_list_insert by apply lookup_delete_eq. simpl. lia.
  - rewrite delete_id by done. lia.
Qed.

Lemma kv_total_put f (b : B) k v : kv_total f (kv_Put b k v) = kv_total f b - kv_at f b k + f (k, v).
Proof.
  pose proof (kv_total_delete f b k) as Hd. rewrite !kv_total_map, kv_map_delete in Hd.
  rewrite !kv_total_map, kv_map_put, <- insert_delete_eq, map_to_list_insert by apply lookup_delete_eq. simpl. lia.
Qed.

Lemma kv_total_bounds f (b : B) k :
  (forall k v, kv_Get b k = Some v -> 0 <= f (k, v)) -> 0 <= kv_at f b k <= kv_total f b.
Proof.
  intros Hf. assert (forall b', (forall k' v, kv_Get b' k' = Some v -> kv_Get b k' = Some v) -> 0 <= kv_total f b') as Hnn.
  { intros b' Hb. apply sumZ_nonneg, Forall_forall. intros x ([k' v] & -> & Hin)%list_elem_of_fmap.
    apply Hf, Hb. by apply kv_foreach_get. }
  pose proof (kv_total_delete f b k) as Hd. specialize (Hnn (kv_Delete b k)). rewrite Hd in Hnn. split.
  - unfold kv_at. destruct (kv_Get b k) eqn:E; [by apply Hf|done].
  - enough (0 <= kv_total f b - kv_at f b k) by lia. apply Hnn. intros k' v. rewrite kv_get_delete. by case_decide.
Qed.

Lemma kv_total_zero f (b : B) :
  (forall k v, kv_Get b k = Some v -> f (k, v) = 0) -> kv_total f b = 0.
Proof.
  intros Hf. unfold kv_total. assert (Forall (fun kv => f kv = 0) (kv_ForEach b)) as Hall.
  { apply Forall_forall. intros [k v] Hin. apply Hf. by apply kv_foreach_get. }
  induction Hall as [|kv l Hkv _ IH]; [done|]. simpl. lia.
Qed.
End Map.

(** ** An implementation *)
Definition kv_entry_le (x y : bytes * bytes) : Prop := bytes_le (fst x) (fst y).
#[export] Instance kv_entry_le_dec : RelDecision kv_entry_le.
Proof. intros x y. unfold kv_entry_le. apply _. Defined.
#[export] Instance kv_entry_le_total : Total kv_entry_le.
Proof. intros x y. apply (total bytes_le). Qed.
#[export] Instance kv_entry_le_trans : Transitive kv_entry_le.
Proof. intros x y z. unfold kv_entry_le. by etrans. Qed.

Definition gmap_kv : KV (gmap bytes bytes) :=
  {| kv_empty := ∅;
     kv_Get m k := m !! k;
     kv_Put m k v := <[k:=v]> m;
     kv_Delete m k := delete k m;
     kv_ForEach m := merge_sort kv_entry_le (map_to_list m) |}.

Lemma StronglySorted_map_fst (l : list (bytes * bytes)) :
  StronglySorted kv_entry_le l -> StronglySorted bytes_le (map fst l).
Proof.
  induction 1 as [|x l Hs IH Hx]; simpl; constructor; [done|].
  apply Forall_map. eapply Forall_impl; [exact Hx|]. done.
Qed.

Lemma gmap_kv_laws : @KVLaws _ gmap_kv.
Proof.
  constructor; simpl; intros.
  - apply lookup_empty.
  - apply lookup_insert.
  - apply lookup_delete.
  - by rewrite merge_sort_Permutation, elem_of_map_to_list.
  - apply StronglySorted_map_fst. apply StronglySorted_merge_sort; apply _.
  - rewrite merge_sort_Permutation. apply NoDup_fst_map_to_list.
Qed.
