(* ===== verification/Denom.v ===== *)
(** * core/denom: decimal FRG amounts

    Amounts in text are decimal FRG with at most 18 fractional digits; inside
    the program they are integers of quanta.  Go strings are byte strings.
    The second half proves that formatting and parsing agree. *)

From S2P Require Import Prelude GoBytes Errors.

Module denom.

Definition Decimals : nat := 18.

Definition QuantaPerFRG : Z := 10 ^ Z.of_nat Decimals.

(** ** The parts of strings and math/big that are used *)

(** UTF-8 encodings of the code points [unicode.IsSpace] accepts. *)
Definition space_runes : list bytes :=
  [[x09]; [x0a]; [x0b]; [x0c]; [x0d]; [x20]; [xc2; x85]; [xc2; xa0];
   [xe1; x9a; x80];
   [xe2; x80; x80]; [xe2; x80; x81]; [xe2; x80; x82]; [xe2; x80; x83]; [xe2; x80; x84]; [xe2; x80; x85];
   [xe2; x80; x86]; [xe2; x80; x87]; [xe2; x80; x88]; [xe2; x80; x89]; [xe2; x80; x8a];
   [xe2; x80; xa8]; [xe2; x80; xa9]; [xe2; x80; xaf]; [xe2; x81; x9f]; [xe3; x80; x80]].

Fixpoint strip_prefix (p l : bytes) : option bytes :=
  match p, l with
  | [], _ => Some l
  | x :: p', y :: l' => if decide (x = y) then strip_prefix p' l' else None
  | _ :: _, [] => None
  end.

Fixpoint first_some {A} (l : list (option A)) : option A :=
  match l with
  | [] => None
  | Some a :: _ => Some a
  | None :: r => first_some r
  end.

(** Drop every leading element of [runes]; each turn drops a byte at least. *)
Fixpoint trim_left (fuel : nat) (runes : list bytes) (l : bytes) : bytes :=
  match fuel with
  | O => l
  | S fuel =>
      match first_some (map (fun r => strip_prefix r l) runes) with
      | Some l' => trim_left fuel runes l'
      | None => l
      end
  end.

Definition TrimSpace (l : bytes) : bytes :=
  let l := trim_left (length l) space_runes l in
  reverse (trim_left (length l) (map reverse space_runes) (reverse l)).

Definition HasPrefix (l p : bytes) : bool :=
  match strip_prefix p l with Some _ => true | None => false end.

(** [strings.Split(l, sep)] for a one-byte separator. *)
Fixpoint Split (l : bytes) (sep : byte) : list bytes :=
  match l with
  | [] => [[]]
  | c :: r =>
      if decide (c = sep) then [] :: Split r sep else
      match Split r sep with
      | part :: parts => (c :: part) :: parts
      | [] => [[c]]
      end
  end.

Definition is_digit (c : byte) : bool := (48 <=? byte_to_Z c) && (byte_to_Z c <=? 57).

(** A rune outside ASCII, or an invalid byte, is above '9', so the loop over
    runes is a loop over bytes. *)
Definition digitsOnly (s : bytes) : bool := forallb is_digit s.

Definition digits_value (s : bytes) : Z :=
  fold_left (fun acc c => acc * 10 + (byte_to_Z c - 48)) s 0.

(** [new(big.Int).SetString(s, 10)]: an optional sign and at least one digit. *)
Definition SetString (s : bytes) : option Z :=
  let '(neg, ds) :=
    match s with
    | x2b :: r => (false, r)
    | x2d :: r => (true, r)
    | _ => (false, s)
    end in
  if negb (Nat.eqb (length ds) 0) && digitsOnly ds
  then Some (if neg then - digits_value ds else digits_value ds)
  else None.

(** [z.String()] of a nonnegative integer: digits from the last. *)
Fixpoint digits_of (fuel : nat) (z : Z) (acc : bytes) : bytes :=
  match fuel with
  | O => acc
  | S fuel =>
      let acc := byte_of_Z (48 + z mod 10) :: acc in
      if z / 10 =? 0 then acc else digits_of fuel (z / 10) acc
  end.
Definition big_String (z : Z) : bytes := digits_of (S (Z.to_nat (Z.log2 z))) z [].

Fixpoint drop_zeros (l : bytes) : bytes :=
  match l with
  | x30 :: r => drop_zeros r
  | _ => l
  end.
(** [strings.TrimRight(l, "0")]. *)
Definition TrimRight0 (l : bytes) : bytes := reverse (drop_zeros (reverse l)).

(** ** The package *)
Definition ParseFRG (raw : bytes) : res Z :=
  let raw := TrimSpace raw in
  if decide (raw = []) then failf "amount is required" else
  if HasPrefix raw (str "-") then failf "amount must be non-negative" else
  let raw := if HasPrefix raw (str "+") then drop 1 raw else raw in
  let parts := Split raw x2e in
  if Z.of_nat (length parts) >? 2 then failf "amount must be a decimal FRG value" else
  let whole := default [] (parts !! 0%nat) in
  let frac := default [] (parts !! 1%nat) in
  if bool_decide (whole = []) && bool_decide (frac = []) then failf "amount must be a decimal FRG value" else
  let whole := if decide (whole = []) then str "0" else whole in
  if negb (digitsOnly whole) || (bool_decide (frac <> []) && negb (digitsOnly frac))
  then failf "amount must be a decimal FRG value" else
  if Nat.ltb Decimals (length frac) then failf "amount has more than 18 decimal places" else
  match SetString whole with
  | None => failf "amount must be a decimal FRG value"
  | Some wholeInt =>
      let amount := wholeInt * QuantaPerFRG in
      if decide (frac = []) then Ok amount else
      match SetString (frac ++ replicate (Decimals - length frac) x30) with
      | None => failf "amount must be a decimal FRG value"
      | Some fracInt => Ok (amount + fracInt)
      end
  end.

Definition ParsePositiveFRG (raw : bytes) : res Z :=
  let* amount := ParseFRG raw in
  if amount <=? 0 then failf "amount must be positive" else Ok amount.

Definition ParseQuanta (raw : bytes) : res Z :=
  let raw := TrimSpace raw in
  if decide (raw = []) then failf "amount is required" else
  match SetString raw with
  | Some amount =>
      if amount <? 0 then failf "amount must be a non-negative base-10 quanta integer" else Ok amount
  | None => failf "amount must be a non-negative base-10 quanta integer"
  end.

Definition ParsePositiveQuanta (raw : bytes) : res Z :=
  let* amount := ParseQuanta raw in
  if amount <=? 0 then failf "amount must be positive" else Ok amount.

Definition FormatFRG (quanta : option Z) : bytes :=
  match quanta with
  | None => str "0"
  | Some q =>
      let sign := if q <? 0 then str "-" else [] in
      let value := Z.abs q in
      let whole := Z.quot value QuantaPerFRG in
      let frac := Z.rem value QuantaPerFRG in
      if frac =? 0 then sign ++ big_String whole else
      let fracStr := big_String frac in
      let fracStr :=
        if Nat.ltb (length fracStr) Decimals
        then replicate (Decimals - length fracStr) x30 ++ fracStr else fracStr in
      sign ++ big_String whole ++ str "." ++ TrimRight0 fracStr
  end.
End denom.

Import denom.

Example ParseFRG_trims : ParseFRG (str " +1.5" ++ [xc2; xa0]) = Ok 1500000000000000000.
Proof. vm_compute. reflexivity. Qed.
Example FormatFRG_trims : FormatFRG (Some 1050000000000000000) = str "1.05".
Proof. vm_compute. reflexivity. Qed.

(** * core/denom: properties *)

Import denom.

(** ** Digits *)
Lemma digit_byte d : 0 <= d < 10 -> is_digit (byte_of_Z (48 + d)) = true /\ byte_to_Z (byte_of_Z (48 + d)) = 48 + d.
Proof.
  intros Hd. assert (byte_to_Z (byte_of_Z (48 + d)) = 48 + d) as E.
  { rewrite byte_to_of_Z. apply Z.mod_small. lia. }
  split; [|done]. unfold is_digit. rewrite E. apply andb_true_iff. split; apply Z.leb_le; lia.
Qed.

Lemma digits_value_acc s a :
  fold_left (fun acc c => acc * 10 + (byte_to_Z c - 48)) s a = a * 10 ^ zlen s + digits_value s.
Proof.
  unfold digits_value. revert a. induction s as [|c s IH]; intros a; cbn [fold_left].
  - unfold zlen; simpl. lia.
  - rewrite IH, (IH (0 * 10 + _)), zlen_cons, Z.pow_add_r by (pose proof (zlen_nonneg s); lia). lia.
Qed.

Lemma digits_value_app a b : digits_value (a ++ b) = digits_value a * 10 ^ zlen b + digits_value b.
Proof. unfold digits_value at 1. by rewrite fold_left_app, digits_value_acc. Qed.

Lemma digits_value_zeros n : digits_value (replicate n x30) = 0.
Proof.
  induction n; [done|]. change (replicate (S n) x30) with ([x30] ++ replicate n x30).
  rewrite digits_value_app, IHn. done.
Qed.

Lemma digits_only_app a b : digitsOnly (a ++ b) = digitsOnly a && digitsOnly b.
Proof. apply forallb_app. Qed.

Lemma digits_only_zeros n : digitsOnly (replicate n x30) = true.
Proof. induction n; done. Qed.

(** [digits_of] prepends the decimal digits of its argument; with fuel [n] it
    needs [z < 10 ^ n], and produces at most [m] digits of a number below [10 ^ m]. *)
Lemma digits_of_spec n z acc :
  0 <= z < 10 ^ Z.of_nat n -> (0 < n)%nat ->
  exists ds, digits_of n z acc = ds ++ acc /\ ds <> [] /\ digitsOnly ds = true /\ digits_value ds = z /\
    forall m, (0 < m)%nat -> z < 10 ^ Z.of_nat m -> (length ds <= m)%nat.
Proof.
  revert z acc. induction n as [|n IH]; intros z acc Hz Hn; [lia|]. cbn [digits_of].
  destruct (digit_byte (z mod 10)) as [Hd Hv]; [apply Z.mod_pos_bound; lia|].
  pose proof (Z_div_mod_eq_full z 10) as Hdm. pose proof (Z.mod_pos_bound z 10 ltac:(lia)) as Hm.
  destruct (z / 10 =? 0) eqn:E; bsimp.
  - exists [byte_of_Z (48 + z mod 10)]. split_and!; [done..| | |].
    + cbn [digitsOnly forallb]. by rewrite Hd.
    + unfold digits_value; cbn [fold_left]. lia.
    + intros m ? _. simpl. lia.
  - assert (0 < z / 10) by (pose proof (Z.div_pos z 10); lia).
    assert (z < 10 * 10 ^ Z.of_nat n) as Hlt.
    { rewrite Nat2Z.inj_succ, Z.pow_succ_r in Hz by lia. lia. }
    assert (0 < n)%nat.
    { destruct n; [|lia]. change (10 * 10 ^ Z.of_nat 0) with 10 in Hlt. lia. }
    destruct (IH (z / 10) (byte_of_Z (48 + z mod 10) :: acc)) as (ds & Hds & Hne & Hok & Hval & Hlen);
      [lia|done|].
    exists (ds ++ [byte_of_Z (48 + z mod 10)]). rewrite <- app_assoc. split_and!; [done| |..].
    + by destruct ds.
    + rewrite digits_only_app, Hok. cbn [digitsOnly forallb andb]. by rewrite Hd.
    + rewrite digits_value_app, Hval. change (10 ^ zlen [_]) with 10.
      unfold digits_value; cbn [fold_left]. lia.
    + intros m Hm0 Hzm. rewrite length_app. simpl. destruct m as [|m]; [lia|].
      rewrite Nat2Z.inj_succ, Z.pow_succ_r in Hzm by lia.
      assert (0 < m)%nat.
      { destruct m; [|lia]. change (10 * 10 ^ Z.of_nat 0) with 10 in Hzm. lia. }
      specialize (Hlen m). lia.
Qed.

Lemma log2_fuel z : 0 <= z -> z < 10 ^ Z.of_nat (S (Z.to_nat (Z.log2 z))).
Proof.
  intros Hz. rewrite Nat2Z.inj_succ, Z2Nat.id by apply Z.log2_nonneg.
  destruct (Z.eq_dec z 0) as [->|]; [done|].
  pose proof (Z.log2_spec z ltac:(lia)) as [_ H].
  eapply Z.lt_le_trans; [exact H|]. apply Z.pow_le_mono_l. lia.
Qed.

Lemma big_String_spec z :
  0 <= z -> big_String z <> [] /\ digitsOnly (big_String z) = true /\ digits_value (big_String z) = z /\
    forall m, (0 < m)%nat -> z < 10 ^ Z.of_nat m -> (length (big_String z) <= m)%nat.
Proof.
  intros Hz. unfold big_String.
  destruct (digits_of_spec (S (Z.to_nat (Z.log2 z))) z []) as (ds & -> & ?); [|lia|by rewrite app_nil_r].
  split; [done|]. by apply log2_fuel.
Qed.

(** A nonempty digit string is a number. *)
Lemma digits_sign s :
  s <> [] -> digitsOnly s = true -> exists c r, s = c :: r /\ is_digit c = true.
Proof. destruct s as [|c r]; [done|]. cbn [digitsOnly forallb]. intros _ H. bsimp. eauto. Qed.

Lemma SetString_digits s : s <> [] -> digitsOnly s = true -> SetString s = Some (digits_value s).
Proof.
  intros Hne Hd. destruct (digits_sign s Hne Hd) as (c & r & -> & Hc).
  unfold SetString. destruct c; try discriminate Hc; cbn [length Nat.eqb negb andb]; by rewrite Hd.
Qed.

(** ** Trimming *)
Lemma trim_left_digit fuel c l :
  is_digit c = true -> trim_left fuel space_runes (c :: l) = c :: l /\
                       trim_left fuel (map reverse space_runes) (c :: l) = c :: l.
Proof. intros Hc. destruct fuel; [done|]. by destruct c; try discriminate Hc. Qed.

(** A string that starts and ends with a digit is not trimmed. *)
Lemma TrimSpace_digits c l d :
  is_digit c = true -> is_digit d = true -> reverse (c :: l) = d :: (drop 1 (reverse (c :: l))) ->
  TrimSpace (c :: l) = c :: l.
Proof.
  intros Hc Hd Hr. unfold TrimSpace. rewrite (proj1 (trim_left_digit _ c l Hc)), Hr.
  rewrite (proj2 (trim_left_digit _ d _ Hd)), <- Hr. apply reverse_involutive.
Qed.

(** ** Splitting *)
Lemma Split_digits s : digitsOnly s = true -> Split s x2e = [s].
Proof.
  induction s as [|c s IH]; [done|]. cbn [digitsOnly forallb]. intros H. bsimp. cbn [Split].
  rewrite decide_False by (intros ->; discriminate). by rewrite IH.
Qed.

Lemma Split_point a b : digitsOnly a = true -> digitsOnly b = true -> Split (a ++ x2e :: b) x2e = [a; b].
Proof.
  induction a as [|c a IH]; intros Ha Hb; cbn [app Split].
  - rewrite decide_True by done. by rewrite Split_digits.
  - cbn [digitsOnly forallb] in Ha. bsimp.
    rewrite decide_False by (intros ->; discriminate). by rewrite IH.
Qed.

Lemma TrimRight0_spec l : exists k, l = TrimRight0 l ++ replicate k x30.
Proof.
  unfold TrimRight0. assert (forall l, exists k, l = replicate k x30 ++ drop_zeros l) as Hz.
  { clear. induction l as [|c l [k IH]]; [by exists 0%nat|].
    destruct (decide (c = x30)) as [->|Hc]; [exists (S k); simpl; by rewrite <- IH|].
    exists 0%nat. by destruct c. }
  destruct (Hz (reverse l)) as [k Hk]. exists k.
  rewrite <- (reverse_involutive l) at 1. rewrite Hk at 1. by rewrite reverse_app, reverse_replicate.
Qed.

(** ** Parsing what was formatted *)
Lemma last_digit s : s <> [] -> digitsOnly s = true -> exists r d, s = r ++ [d] /\ is_digit d = true.
Proof.
  intros Hne Hd. destruct s as [|d r] using rev_ind; [done|].
  rewrite digits_only_app in Hd. bsimp. cbn [digitsOnly forallb] in *. bsimp. eauto.
Qed.

Lemma digits_point_trim s f :
  s <> [] -> digitsOnly s = true -> f <> [] -> digitsOnly f = true ->
  forall mid, TrimSpace (s ++ mid ++ f) = s ++ mid ++ f.
Proof.
  intros Hs Hsd Hf Hfd mid. destruct (digits_sign s Hs Hsd) as (c & r & -> & Hc).
  destruct (last_digit f Hf Hfd) as (f' & d & -> & Hd). cbn [app].
  apply (TrimSpace_digits c _ d); try done.
  rewrite !app_assoc, app_comm_cons, reverse_app. done.
Qed.

Lemma whole_trim s : s <> [] -> digitsOnly s = true -> TrimSpace s = s.
Proof.
  intros Hs Hsd. destruct (digits_sign s Hs Hsd) as (c & r & -> & Hc).
  destruct (last_digit _ Hs Hsd) as (f' & d & Heq & Hd).
  apply (TrimSpace_digits c _ d); try done. rewrite Heq, reverse_app. done.
Qed.

(** No sign in front of a digit. *)
Lemma digit_no_sign s rest :
  s <> [] -> digitsOnly s = true ->
  HasPrefix (s ++ rest) (str "-") = false /\ HasPrefix (s ++ rest) (str "+") = false /\ s ++ rest <> [].
Proof.
  intros Hne Hd. destruct (digits_sign s Hne Hd) as (c & r & -> & Hc). by destruct c.
Qed.

Lemma ParseFRG_whole s : s <> [] -> digitsOnly s = true -> ParseFRG s = Ok (digits_value s * QuantaPerFRG).
Proof.
  intros Hne Hd. unfold ParseFRG. rewrite whole_trim by done.
  destruct (digit_no_sign s [] Hne Hd) as (H1 & H2 & H3). rewrite app_nil_r in *.
  rewrite decide_False by done. rewrite H1, H2, Split_digits by done. cbn [length list_lookup lookup default from_option id].
  ztest. ztest. rewrite (bool_decide_eq_false_2 (s = [])) by done. cbn [andb].
  rewrite decide_False by done. rewrite Hd, SetString_digits by done. cbn [negb orb andb length].
  rewrite bool_decide_eq_false_2 by (intros C; by apply C). done.
Qed.

Lemma ParseFRG_frac s f :
  s <> [] -> digitsOnly s = true -> f <> [] -> digitsOnly f = true -> (length f <= Decimals)%nat ->
  ParseFRG (s ++ str "." ++ f) =
    Ok (digits_value s * QuantaPerFRG + digits_value (f ++ replicate (Decimals - length f) x30)).
Proof.
  intros Hs Hsd Hf Hfd Hl. unfold ParseFRG. rewrite digits_point_trim by done.
  destruct (digit_no_sign s (str "." ++ f) Hs Hsd) as (H1 & H2 & H3).
  rewrite decide_False by done. rewrite H1, H2.
  change (str "." ++ f) with (x2e :: f). rewrite Split_point by done.
  cbn [length list_lookup lookup default from_option id]. ztest. ztest.
  rewrite (bool_decide_eq_false_2 (s = [])) by done. cbn [andb].
  rewrite decide_False by done. rewrite Hsd, Hfd, SetString_digits by done.
  rewrite bool_decide_eq_true_2 by done. cbn [negb orb andb].
  rewrite (proj2 (Nat.ltb_ge _ _)) by done. rewrite decide_False by done.
  rewrite SetString_digits; [done|by destruct f|].
  by rewrite digits_only_app, Hfd, digits_only_zeros.
Qed.

(** The fractional digits as printed, padded back to eighteen, denote the fraction. *)
Lemma frac_digits frac :
  0 < frac < QuantaPerFRG ->
  let fs := big_String frac in
  let f := TrimRight0 (if Nat.ltb (length fs) Decimals
                       then replicate (Decimals - length fs) x30 ++ fs else fs) in
  f <> [] /\ digitsOnly f = true /\ (length f <= Decimals)%nat /\
  digits_value (f ++ replicate (Decimals - length f) x30) = frac.
Proof.
  intros Hf fs. destruct (big_String_spec frac ltac:(lia)) as (Hne & Hd & Hv & Hlen).
  fold fs in Hne, Hd, Hv, Hlen. specialize (Hlen Decimals ltac:(unfold Decimals; lia) (proj2 Hf)).
  set (p := if Nat.ltb _ _ then _ else _).
  assert (p = replicate (Decimals - length fs) x30 ++ fs) as Hp.
  { unfold p. destruct (Nat.ltb _ _) eqn:E; [done|]. apply Nat.ltb_ge in E.
    by replace (Decimals - length fs)%nat with 0%nat by lia. }
  assert (length p = Decimals) as Hpl by (rewrite Hp, length_app, length_replicate; lia).
  assert (digits_value p = frac) as Hpv.
  { rewrite Hp, digits_value_app, digits_value_zeros. lia. }
  assert (digitsOnly p = true) as Hpd by by rewrite Hp, digits_only_app, digits_only_zeros.
  clearbody p. intros f. destruct (TrimRight0_spec p) as [k Hk]. fold f in Hk.
  assert (length f + k = Decimals)%nat as Hlk.
  { rewrite <- Hpl, Hk, length_app, length_replicate. done. }
  rewrite Hk, digits_only_app in Hpd. bsimp. split_and!; [|done|lia|].
  - intros E. rewrite E in Hk. rewrite Hk in Hpv. simpl in Hpv. rewrite digits_value_zeros in Hpv. lia.
  - replace (Decimals - length f)%nat with k by lia. by rewrite <- Hk.
Qed.

Lemma FormatFRG_ParseFRG_nonneg q : 0 <= q -> ParseFRG (FormatFRG (Some q)) = Ok q.
Proof.
  intros Hq. unfold FormatFRG. ztest. rewrite Z.abs_eq by done. cbn [app].
  assert (0 < QuantaPerFRG) as HQ by done.
  pose proof (Z.quot_rem' q QuantaPerFRG) as Hqr. pose proof (Z.rem_bound_pos q QuantaPerFRG Hq HQ) as Hr.
  pose proof (Z.quot_pos q QuantaPerFRG Hq HQ) as Hqp.
  destruct (big_String_spec (Z.quot q QuantaPerFRG) Hqp) as (Hne & Hd & Hv & _).
  destruct (Z.rem q QuantaPerFRG =? 0) eqn:E; bsimp.
  - rewrite ParseFRG_whole by done. f_equal. lia.
  - destruct (frac_digits (Z.rem q QuantaPerFRG)) as (F1 & F2 & F3 & F4); [lia|].
    rewrite ParseFRG_frac by done. rewrite F4. f_equal. lia.
Qed.

(** Every amount [ParseFRG] accepts is nonnegative. *)
Lemma digits_value_nonneg s : digitsOnly s = true -> 0 <= digits_value s.
Proof.
  induction s as [|c s IH] using rev_ind; [done|]. rewrite digits_only_app, digits_value_app.
  intros H. bsimp. cbn [digitsOnly forallb] in *. bsimp. unfold is_digit in *. bsimp.
  unfold digits_value at 2. cbn [fold_left]. pose proof (IH ltac:(done)).
  change (10 ^ zlen [c]) with 10. lia.
Qed.

Lemma SetString_nonneg s z : digitsOnly s = true -> SetString s = Some z -> 0 <= z.
Proof.
  destruct s as [|c s]; [done|]. intros Hd. rewrite SetString_digits by done.
  intros [= <-]. by apply digits_value_nonneg.
Qed.

Lemma ParseFRG_nonneg raw q : ParseFRG raw = Ok q -> 0 <= q.
Proof.
  unfold ParseFRG. set (parts := Split _ _). intros H. osteps H; simplify_eq; bsimp.
  all: assert (0 <= QuantaPerFRG) by done.
  all: match goal with H : digitsOnly ?w = true, H' : SetString ?w = Some ?z |- _ =>
         pose proof (SetString_nonneg w z H H') end; try nia.
  match goal with H : SetString (?f ++ ?p) = Some ?z |- _ =>
    assert (0 <= z) by (eapply SetString_nonneg; [|exact H]; rewrite digits_only_app, digits_only_zeros;
      destruct (digitsOnly f); [done|]; rewrite bool_decide_eq_true_2 in * by done; done) end.
  nia.
Qed.

(** Text round trip: what [FormatFRG] prints for a nonnegative amount of quanta,
    [ParseFRG] reads back as exactly that amount, however large; a printed
    negative amount is refused. *)
Theorem ParseFRG_FormatFRG q :
  ParseFRG (FormatFRG (Some q)) = if q <? 0 then failf "amount must be non-negative" else Ok q.
Proof.
  destruct (q <? 0) eqn:E; bsimp; [|by apply FormatFRG_ParseFRG_nonneg].
  unfold FormatFRG. ztest. assert (0 < QuantaPerFRG) as HQ by done.
  pose proof (Z.quot_pos (Z.abs q) QuantaPerFRG ltac:(lia) HQ) as Hqp.
  destruct (big_String_spec (Z.quot (Z.abs q) QuantaPerFRG) Hqp) as (Hne & Hd & _ & _).
  assert (forall tl d r, tl = r ++ [d] -> is_digit d = true ->
            ParseFRG (str "-" ++ tl) = failf "amount must be non-negative") as Hneg.
  { intros tl d r -> Hdd. unfold ParseFRG. change (str "-") with [x2d].
    assert (TrimSpace ([x2d] ++ r ++ [d]) = [x2d] ++ r ++ [d]) as ->; [|done].
    unfold TrimSpace. replace (trim_left _ space_runes ([x2d] ++ r ++ [d])) with ([x2d] ++ r ++ [d]) by done.
    replace (reverse ([x2d] ++ r ++ [d])) with (d :: reverse ([x2d] ++ r)).
    - rewrite (proj2 (trim_left_digit _ d _ Hdd)). by rewrite reverse_cons, reverse_involutive, <- app_assoc.
    - by rewrite (app_assoc [x2d] r [d]), (reverse_app ([x2d] ++ r) [d]). }
  destruct (_ =? 0) eqn:E0; bsimp.
  - destruct (last_digit _ Hne Hd) as (r & d & Heq & Hdd). by rewrite (Hneg _ d r Heq Hdd).
  - destruct (frac_digits (Z.rem (Z.abs q) QuantaPerFRG)) as (F1 & F2 & _).
    { pose proof (Z.rem_bound_pos (Z.abs q) QuantaPerFRG ltac:(lia) HQ). lia. }
    destruct (last_digit _ F1 F2) as (r & d & Heq & Hdd). rewrite Heq.
    rewrite (app_assoc _ r), (app_assoc _ _ [d]). by eapply Hneg.
Qed.

Lemma ParsePositiveFRG_positive raw q : ParsePositiveFRG raw = Ok q -> 0 < q.
Proof. unfold ParsePositiveFRG. intros H. osteps H. bsimp. by simplify_eq. Qed.
