(* ===== verification/Ledger.v ===== *)
(** * core/ledger: balances and nonces

    Every operation works on the buckets of an open database transaction and
    returns the changed database; the exported wrappers run it in
    [Update]. *)

From S2P Require Import Prelude GoBytes Errors Platform Tx TxProofs KV.

Module ledger.

Definition maxUint256 : Z := 2 ^ 256 - 1.

Section Ops.
Context `{Platform} {B : Type} `{KV B}.

(** A nil pointer is [None]. *)
Definition validateUint256 (v : option Z) : res unit :=
  match v with
  | None => fail ErrArithmeticOverflow
  | Some z =>
      if z <? 0 then fail ErrArithmeticOverflow else
      if z >? maxUint256 then fail ErrArithmeticOverflow else Ok tt
  end.

Definition readBalance (b : B) (account : arr 32) : Z :=
  match kv_Get b account with
  | None => 0
  | Some v => big_SetBytes v
  end.

Definition writeBalance (b : B) (account : arr 32) (bal : Z) : res B :=
  let* _ := validateUint256 (Some bal) in
  let balBytes := big_Bytes bal in
  if zlen balBytes >? 32 then fail ErrArithmeticOverflow else
  Ok (kv_Put b account (replicate (32 - length balBytes) x00 ++ balBytes)).

Definition BalanceOfTx (db : DB B) (account : arr 32) : Z := readBalance (balances db) account.

Definition BalanceOf (db : DB B) (account : arr 32) : Z := BalanceOfTx db account.

(** A stored nonce is read as eight big-endian bytes. *)
Definition storedNonce (b : B) (account : arr 32) : res Z :=
  match kv_Get b account with
  | None => Ok 0
  | Some v => u64_at v 0
  end.

Definition NonceOf (db : DB B) (account : arr 32) : res Z := storedNonce (nonces db) account.

Definition AdvanceNonceTx (db : DB B) (account : arr 32) (nonce : Z) : res (DB B) :=
  let* stored := storedNonce (nonces db) account in
  if negb (nonce =? wrap64 (stored + 1)) then fail ErrSequenceFault else
  Ok (set_nonces db (kv_Put (nonces db) account (put64 nonce))).

(** Using a nil [Value] dereferences a nil pointer. *)
Definition TransferTx (db : DB B) (t : tx.Tx) : res (DB B) :=
  let* db := AdvanceNonceTx db (tx.SenderPubKey t) (tx.Nonce t) in
  match tx.Value t with
  | None => Panic
  | Some value =>
    let bb := balances db in
    let senderBal := readBalance bb (tx.SenderPubKey t) in
    if senderBal <? value then fail ErrInsufficientFunds else
    let senderBal := senderBal - value in
    let receiverBal := readBalance bb (tx.ReceiverPubKey t) in
    let receiverBal := receiverBal + value in
    let* bb := writeBalance bb (tx.SenderPubKey t) senderBal in
    let* bb := writeBalance bb (tx.ReceiverPubKey t) receiverBal in
    Ok (set_balances db bb)
  end.

Definition Transfer (db : DB B) (t : tx.Tx) : DB B * res unit :=
  match (let* _ := tx.VerifySigs t in validateUint256 (tx.Value t)) with
  | Ok _ => Update db (fun btx => let* btx := TransferTx btx t in Ok (btx, tt))
  | Err e => (db, Err e)
  | Panic => (db, Panic)
  end.

Definition BurnTx (db : DB B) (account : arr 32) (amount : Z) : res (DB B) :=
  let b := balances db in
  let bal := readBalance b account in
  if bal <? amount then fail ErrInsufficientFunds else
  let* b := writeBalance b account (bal - amount) in
  Ok (set_balances db b).

Definition Burn (db : DB B) (account : arr 32) (amount : Z) : DB B * res unit :=
  match validateUint256 (Some amount) with
  | Ok _ => Update db (fun btx => let* btx := BurnTx btx account amount in Ok (btx, tt))
  | Err e => (db, Err e)
  | Panic => (db, Panic)
  end.

Definition MoveTx (db : DB B) (from to : arr 32) (amount : option Z) : res (DB B) :=
  let* _ := validateUint256 amount in
  match amount with
  | None => Panic
  | Some amount =>
    let b := balances db in
    let fromBal := readBalance b from in
    if fromBal <? amount then fail ErrInsufficientFunds else
    let fromBal := fromBal - amount in
    let toBal := readBalance b to in
    let toBal := toBal + amount in
    let* b := writeBalance b from fromBal in
    let* b := writeBalance b to toBal in
    Ok (set_balances db b)
  end.

Definition Move (db : DB B) (from to : arr 32) (amount : option Z) : DB B * res unit :=
  match validateUint256 amount with
  | Ok _ => Update db (fun btx => let* btx := MoveTx btx from to amount in Ok (btx, tt))
  | Err e => (db, Err e)
  | Panic => (db, Panic)
  end.

Definition SeedTx (db : DB B) (account : arr 32) (amount : Z) : res (DB B) :=
  let* b := writeBalance (balances db) account amount in
  Ok (set_balances db b).

Definition Seed (db : DB B) (account : arr 32) (amount : Z) : DB B * res unit :=
  match validateUint256 (Some amount) with
  | Ok _ => Update db (fun btx => let* btx := SeedTx btx account amount in Ok (btx, tt))
  | Err e => (db, Err e)
  | Panic => (db, Panic)
  end.

Definition CreditTx (db : DB B) (account : arr 32) (amount : Z) : res (DB B) :=
  let b := balances db in
  let cur := readBalance b account in
  let next := cur + amount in
  let* b := writeBalance b account next in
  Ok (set_balances db b).

(** ** The ledger's well-formedness: balances are 32 bytes, nonces 8. *)
Record ledger_ok (db : DB B) : Prop := mkLedgerOk
  { ok_balances : forall k v, kv_Get (balances db) k = Some v -> length v = 32%nat;
    ok_nonces : forall k v, kv_Get (nonces db) k = Some v -> length v = 8%nat }.

(** All quanta in existence. *)
Definition totalBalance (db : DB B) : Z := kv_sum big_SetBytes (balances db).

Definition nonceOf (db : DB B) (account : arr 32) : Z :=
  match kv_Get (nonces db) account with
  | None => 0
  | Some v => be_dec v
  end.
End Ops.
End ledger.

(** * core/ledger: properties *)

Import ledger.

Section Proofs.
Context `{Platform} {B : Type} `{KVLaws B}.
Implicit Types (db : DB B) (b : B) (a : arr 32).

(** ** One balance *)
Lemma validateUint256_ok v : validateUint256 v = Ok tt <-> exists z, v = Some z /\ is_u256 z.
Proof.
  unfold validateUint256, maxUint256, is_u256, two256, fail.
  destruct v as [z|]; [|split; [done|intros (? & ? & _); done]].
  destruct (z <? 0) eqn:E1; [|destruct (z >? 2 ^ 256 - 1) eqn:E2]; bsimp; split; try done;
    try (intros (z' & [= <-] & ?); lia).
  intros _. exists z. split; [done|lia].
Qed.

Lemma writeBalance_ok b a z : is_u256 z -> writeBalance b a z = Ok (kv_Put b a (be_enc 32 z)).
Proof.
  intros Hz. unfold writeBalance. destruct (value_field z Hz) as [Hl Hf].
  rewrite (proj2 (validateUint256_ok (Some z))) by eauto. cbn [obind]. rewrite Hf.
  by do 2 ztest.
Qed.

Lemma writeBalance_err b a z : ~ is_u256 z -> writeBalance b a z = fail ErrArithmeticOverflow.
Proof.
  intros Hz. unfold writeBalance, validateUint256, maxUint256.
  destruct (z <? 0) eqn:E1; [done|]. destruct (z >? 2 ^ 256 - 1) eqn:E2; [done|].
  exfalso. bsimp. apply Hz. unfold is_u256, two256. lia.
Qed.

Lemma is_u256_dec z : {is_u256 z} + {~ is_u256 z}.
Proof. unfold is_u256. destruct (Z_le_dec 0 z), (Z_lt_dec z two256); (left + right); lia. Defined.

Lemma writeBalance_inv b a z b' :
  writeBalance b a z = Ok b' -> is_u256 z /\ b' = kv_Put b a (be_enc 32 z).
Proof.
  intros Hw. destruct (is_u256_dec z) as [Hz|Hz].
  - rewrite writeBalance_ok in Hw by done. by simplify_eq.
  - by rewrite writeBalance_err in Hw.
Qed.

Lemma readBalance_put b a z c :
  is_u256 z -> readBalance (kv_Put b a (be_enc 32 z)) c = if decide (a = c) then z else readBalance b c.
Proof.
  intros Hz. unfold readBalance. rewrite kv_get_put. destruct (decide (a = c)) as [->|Hne].
  - rewrite decide_True by done. by apply be_dec_enc_small.
  - rewrite decide_False; [done|]. intros He. by apply Hne, arr_eq.
Qed.

Lemma kv_sum_put_balance b a z :
  is_u256 z ->
  kv_sum big_SetBytes (kv_Put b a (be_enc 32 z)) = kv_sum big_SetBytes b - readBalance b a + z.
Proof.
  intros Hz. rewrite kv_sum_put by done. unfold readBalance, big_SetBytes.
  rewrite be_dec_enc_small by done. destruct (kv_Get b a); simpl; [done|]. by rewrite be_dec_nil.
Qed.

Lemma readBalance_nonneg b a : 0 <= readBalance b a.
Proof.
  unfold readBalance. destruct (kv_Get b a); [|done]. unfold big_SetBytes. pose proof (be_dec_range l). lia.
Qed.

Lemma readBalance_le_total b a : readBalance b a <= kv_sum big_SetBytes b.
Proof.
  unfold readBalance. destruct (kv_Get b a) eqn:E.
  - eapply kv_sum_ge; [|done]. intros w. unfold big_SetBytes. pose proof (be_dec_range w). lia.
  - unfold kv_sum. apply sumZ_nonneg, Forall_forall. intros x (? & -> & ?)%list_elem_of_fmap.
    unfold big_SetBytes. pose proof (be_dec_range (snd x0)). lia.
Qed.

Lemma readBalance_u256 db a : ledger_ok db -> is_u256 (readBalance (balances db) a).
Proof.
  intros [Hb _]. unfold readBalance. destruct (kv_Get _ _) eqn:E; [|done].
  apply Hb in E. unfold big_SetBytes. pose proof (be_dec_range l) as Hr.
  unfold zlen in Hr. by rewrite E in Hr.
Qed.

(** ** Nonces *)
Lemma storedNonce_ok db a :
  ledger_ok db -> storedNonce (nonces db) a = Ok (nonceOf db a) /\ is_u64 (nonceOf db a).
Proof.
  intros [_ Hn]. unfold storedNonce, nonceOf. destruct (kv_Get _ _) as [v|] eqn:E; [|done].
  apply Hn in E. split.
  - by apply be_at_full.
  - pose proof (be_dec_range v) as Hr. unfold zlen in Hr. by rewrite E in Hr.
Qed.

(** The next nonce an account must use. *)
Lemma AdvanceNonceTx_spec db a n :
  ledger_ok db ->
  AdvanceNonceTx db a n =
    if n =? wrap64 (nonceOf db a + 1)
    then Ok (set_nonces db (kv_Put (nonces db) a (put64 n)))
    else fail ErrSequenceFault.
Proof.
  intros Hok. unfold AdvanceNonceTx. rewrite (proj1 (storedNonce_ok db a Hok)). cbn [obind].
  by destruct (n =? _).
Qed.

Lemma nonceOf_put db a n c :
  is_u64 n ->
  nonceOf (set_nonces db (kv_Put (nonces db) a (put64 n))) c = if decide (a = c) then n else nonceOf db c.
Proof.
  intros Hn. unfold nonceOf; simpl. rewrite kv_get_put. destruct (decide (a = c)) as [->|Hne].
  - rewrite decide_True by done. by apply be_dec_enc_small.
  - rewrite decide_False; [done|]. intros He. by apply Hne, arr_eq.
Qed.

Lemma ledger_ok_put_nonce db a n :
  ledger_ok db -> ledger_ok (set_nonces db (kv_Put (nonces db) a (put64 n))).
Proof.
  intros [Hb Hn]. constructor; simpl; [done|]. intros k v. rewrite kv_get_put.
  case_decide; [|apply Hn]. intros; simplify_eq. apply be_enc_length.
Qed.

Lemma ledger_ok_put_balance db a z :
  ledger_ok db -> ledger_ok (set_balances db (kv_Put (balances db) a (be_enc 32 z))).
Proof.
  intros [Hb Hn]. constructor; simpl; [|done]. intros k v. rewrite kv_get_put.
  case_decide; [|apply Hb]. intros; simplify_eq. apply be_enc_length.
Qed.

(** ** Debit one account, credit another

    [MoveTx] and the balance part of [TransferTx] are the same code; [shift]
    is what it computes, [None] when it runs into an error. *)
Definition shift b (from to : arr 32) (v : Z) : res B :=
  if readBalance b from <? v then fail ErrInsufficientFunds else
  let* b1 := writeBalance b from (readBalance b from - v) in
  writeBalance b1 to (readBalance b to + v).

Lemma shift_inv b from to v b' :
  0 <= v -> shift b from to v = Ok b' ->
  v <= readBalance b from /\ is_u256 (readBalance b to + v) /\ is_u256 (readBalance b from - v) /\
  b' = kv_Put (kv_Put b from (be_enc 32 (readBalance b from - v))) to (be_enc 32 (readBalance b to + v)).
Proof.
  intros Hv Hs. unfold shift in Hs. osteps Hs. bsimp.
  apply writeBalance_inv in E0 as [H1' ->]. apply writeBalance_inv in Hs as [H2' ->]. auto.
Qed.

(** Between different accounts the sum of all balances is conserved; to the
    same account the amount is created. *)
Lemma shift_total b from to v b' :
  0 <= v -> shift b from to v = Ok b' ->
  kv_sum big_SetBytes b' = kv_sum big_SetBytes b + (if decide (from = to) then v else 0).
Proof.
  intros Hv Hs. apply shift_inv in Hs as (Hle & Ht & Hf & ->); [|done].
  rewrite !kv_sum_put_balance by done. rewrite readBalance_put by done.
  destruct (decide (from = to)) as [->|]; lia.
Qed.

Lemma shift_read b from to v b' a :
  0 <= v -> shift b from to v = Ok b' ->
  readBalance b' a =
    if decide (a = to) then readBalance b to + v
    else if decide (a = from) then readBalance b from - v
    else readBalance b a.
Proof.
  intros Hv Hs. apply shift_inv in Hs as (Hle & Ht & Hf & ->); [|done].
  rewrite !readBalance_put by done.
  destruct (decide (to = a)), (decide (a = to)), (decide (from = a)), (decide (a = from)); congruence.
Qed.

Lemma ledger_ok_shift db from to v b' :
  0 <= v -> ledger_ok db -> shift (balances db) from to v = Ok b' -> ledger_ok (set_balances db b').
Proof.
  intros Hv Hok Hs. apply shift_inv in Hs as (_ & _ & _ & ->); [|done].
  apply (ledger_ok_put_balance (set_balances db _)). by apply ledger_ok_put_balance.
Qed.

Lemma MoveTx_shift db from to v :
  is_u256 v ->
  MoveTx db from to (Some v) = (let* b := shift (balances db) from to v in Ok (set_balances db b)).
Proof.
  intros Hv. unfold MoveTx. rewrite (proj2 (validateUint256_ok (Some v))) by eauto. cbn [obind].
  unfold shift. destruct (_ <? v); [done|]. by rewrite obind_assoc.
Qed.

Lemma MoveTx_inv db from to v db' :
  MoveTx db from to v = Ok db' ->
  exists z b, v = Some z /\ is_u256 z /\ shift (balances db) from to z = Ok b /\ db' = set_balances db b.
Proof.
  intros Hm. destruct v as [z|]; [|by unfold MoveTx in Hm].
  destruct (is_u256_dec z) as [Hz|Hz].
  - rewrite MoveTx_shift in Hm by done. osteps Hm. simplify_eq. eauto 8.
  - exfalso. apply Hz. unfold MoveTx in Hm. osteps Hm. destruct a.
    apply validateUint256_ok in E as (? & [= ->] & ?). done.
Qed.

Definition used_nonce db (t : tx.Tx) : DB B :=
  set_nonces db (kv_Put (nonces db) (tx.SenderPubKey t) (put64 (tx.Nonce t))).

Lemma TransferTx_shift db (t : tx.Tx) v :
  ledger_ok db -> tx.Value t = Some v ->
  TransferTx db t =
    if tx.Nonce t =? wrap64 (nonceOf db (tx.SenderPubKey t) + 1)
    then let* b := shift (balances db) (tx.SenderPubKey t) (tx.ReceiverPubKey t) v in
         Ok (set_balances (used_nonce db t) b)
    else fail ErrSequenceFault.
Proof.
  intros Hok Hv. unfold TransferTx. rewrite AdvanceNonceTx_spec, Hv by done.
  destruct (_ =? _); [|done]. cbn [obind]. unfold shift. simpl.
  destruct (_ <? v); [done|]. by rewrite obind_assoc.
Qed.

Lemma shift_ok db from to v :
  ledger_ok db -> 0 <= v <= readBalance (balances db) from -> readBalance (balances db) to + v < two256 ->
  exists b', shift (balances db) from to v = Ok b'.
Proof.
  intros Hok Hv Hlt.
  pose proof (readBalance_u256 db from Hok). pose proof (readBalance_u256 db to Hok).
  unfold is_u256 in *. unfold shift. ztest.
  rewrite writeBalance_ok by (unfold is_u256; lia). cbn [obind].
  rewrite writeBalance_ok by (unfold is_u256; lia). eauto.
Qed.

Lemma shift_overflow db from to v :
  ledger_ok db -> 0 <= v <= readBalance (balances db) from -> two256 <= readBalance (balances db) to + v ->
  shift (balances db) from to v = fail ErrArithmeticOverflow.
Proof.
  intros Hok Hv Hlt.
  pose proof (readBalance_u256 db from Hok). unfold is_u256 in *. unfold shift. ztest.
  rewrite writeBalance_ok by (unfold is_u256; lia). cbn [obind].
  by rewrite writeBalance_err by (unfold is_u256; lia).
Qed.

Lemma TransferTx_inv db (t : tx.Tx) db' :
  ledger_ok db -> TransferTx db t = Ok db' ->
  exists v b, tx.Value t = Some v /\
    shift (balances db) (tx.SenderPubKey t) (tx.ReceiverPubKey t) v = Ok b /\
    tx.Nonce t = wrap64 (nonceOf db (tx.SenderPubKey t) + 1) /\
    db' = set_balances (used_nonce db t) b.
Proof.
  intros Hok Ht. destruct (tx.Value t) as [v|] eqn:Ev.
  - rewrite (TransferTx_shift db t v) in Ht by done. osteps Ht. bsimp. simplify_eq. eauto 8.
  - unfold TransferTx in Ht. rewrite Ev in Ht. osteps Ht.
Qed.

Lemma TransferTx_branches db (t : tx.Tx) v :
  ledger_ok db -> tx.wf t -> tx.Value t = Some v -> 0 <= v ->
  let s := tx.SenderPubKey t in
  let r := tx.ReceiverPubKey t in
  (tx.Nonce t <> wrap64 (nonceOf db s + 1) -> TransferTx db t = fail ErrSequenceFault) /\
  (tx.Nonce t = wrap64 (nonceOf db s + 1) -> BalanceOf db s < v ->
     TransferTx db t = fail ErrInsufficientFunds) /\
  (tx.Nonce t = wrap64 (nonceOf db s + 1) -> v <= BalanceOf db s -> two256 <= BalanceOf db r + v ->
     TransferTx db t = fail ErrArithmeticOverflow) /\
  (tx.Nonce t = wrap64 (nonceOf db s + 1) -> v <= BalanceOf db s -> BalanceOf db r + v < two256 ->
     exists db', TransferTx db t = Ok db' /\ ledger_ok db' /\
       nonceOf db' s = tx.Nonce t /\ (forall a, a <> s -> nonceOf db' a = nonceOf db a) /\
       BalanceOf db' r = BalanceOf db r + v /\
       (s <> r -> BalanceOf db' s = BalanceOf db s - v) /\
       (forall a, a <> s -> a <> r -> BalanceOf db' a = BalanceOf db a)).
Proof.
  intros Hok Hwf Hv Hv0 s r. rewrite (TransferTx_shift db t v) by done. fold s r.
  unfold BalanceOf, BalanceOfTx.
  split_and!; intros Hn; [by ztest| |..]; ztest.
  - intros. unfold shift. by ztest.
  - intros. by rewrite shift_overflow.
  - intros Hle Hlt. destruct (shift_ok db s r v) as [b' E]; [done..|]. rewrite E. cbn [obind].
    eexists. split; [done|].
    split; [by apply (ledger_ok_shift (used_nonce db t) s r v); [|apply ledger_ok_put_nonce|]|].
    assert (is_u64 (tx.Nonce t)) as Hu by apply Hwf.
    pose proof (fun a => nonceOf_put db s (tx.Nonce t) a Hu) as HN.
    pose proof (fun a => shift_read (balances db) s r v b' a Hv0 E) as HR.
    change (nonceOf (set_balances ?d ?b)) with (nonceOf d). unfold used_nonce. fold s. simpl.
    split_and!; intros; rewrite ?HN, ?HR; repeat case_decide; congruence.
Qed.

(** C24.  [TransferTx], every branch: a wrong nonce, then insufficient funds, then
    overflow of the receiver are reported in this order and change nothing;
    otherwise the sender's nonce is the transaction's, the sender pays, the
    receiver is paid and no other account changes. *)
Theorem TransferTx_spec db (t : tx.Tx) v :
  ledger_ok db -> tx.wf t -> tx.Value t = Some v -> 0 <= v ->
  let s := tx.SenderPubKey t in
  let r := tx.ReceiverPubKey t in
  (tx.Nonce t <> wrap64 (nonceOf db s + 1) -> TransferTx db t = fail ErrSequenceFault) /\
  (tx.Nonce t = wrap64 (nonceOf db s + 1) -> BalanceOf db s < v ->
     TransferTx db t = fail ErrInsufficientFunds) /\
  (tx.Nonce t = wrap64 (nonceOf db s + 1) -> v <= BalanceOf db s -> two256 <= BalanceOf db r + v ->
     TransferTx db t = fail ErrArithmeticOverflow) /\
  (tx.Nonce t = wrap64 (nonceOf db s + 1) -> v <= BalanceOf db s -> BalanceOf db r + v < two256 ->
     exists db', TransferTx db t = Ok db' /\ ledger_ok db' /\
       nonceOf db' s = tx.Nonce t /\ (forall a, a <> s -> nonceOf db' a = nonceOf db a) /\
       BalanceOf db' r = BalanceOf db r + v /\
       (s <> r -> BalanceOf db' s = BalanceOf db s - v) /\
       (forall a, a <> s -> a <> r -> BalanceOf db' a = BalanceOf db a)).
Proof. apply TransferTx_branches. Qed.

(** Conservation: a transfer between two different accounts neither creates
    nor destroys quanta, whatever the rest of the ledger. *)
Theorem TransferTx_conserves db (t : tx.Tx) db' :
  ledger_ok db -> (forall v, tx.Value t = Some v -> 0 <= v) ->
  tx.SenderPubKey t <> tx.ReceiverPubKey t ->
  TransferTx db t = Ok db' -> totalBalance db' = totalBalance db.
Proof.
  intros Hok Hv Hne Ht. apply TransferTx_inv in Ht as (v & b & Hval & Hs & _ & ->); [|done].
  unfold totalBalance. simpl. rewrite (shift_total _ _ _ v b) by eauto.
  rewrite decide_False by done. lia.
Qed.

(** A transfer to oneself mints: the receiver's balance is read before the
    debit is written, so the account ends with its balance plus the value and
    the total grows by the value. *)
Theorem TransferTx_self_mints db (t : tx.Tx) v :
  ledger_ok db -> tx.Value t = Some v -> 0 <= v ->
  tx.ReceiverPubKey t = tx.SenderPubKey t ->
  tx.Nonce t = wrap64 (nonceOf db (tx.SenderPubKey t) + 1) ->
  v <= BalanceOf db (tx.SenderPubKey t) -> BalanceOf db (tx.SenderPubKey t) + v < two256 ->
  exists db', TransferTx db t = Ok db' /\
    BalanceOf db' (tx.SenderPubKey t) = BalanceOf db (tx.SenderPubKey t) + v /\
    totalBalance db' = totalBalance db + v.
Proof.
  intros Hok Hv Hv0 Hr Hn Hle Hlt. rewrite (TransferTx_shift db t v), Hr by done. ztest.
  unfold BalanceOf, BalanceOfTx in *. set (s := tx.SenderPubKey t) in *.
  destruct (shift_ok db s s v) as [b' E]; [done..|]. rewrite E. cbn [obind].
  eexists. split; [done|]. split.
  - change (balances (set_balances ?d ?b)) with b. rewrite (shift_read _ _ _ _ _ s Hv0 E).
    by rewrite decide_True.
  - unfold totalBalance. simpl. rewrite (shift_total _ _ _ _ _ Hv0 E). by rewrite decide_True.
Qed.

(** ** The other operations *)
Lemma MoveTx_conserves db from to v db' :
  from <> to -> MoveTx db from to v = Ok db' -> totalBalance db' = totalBalance db.
Proof.
  intros Hne (z & b & -> & Hz & Hs & ->)%MoveTx_inv. unfold totalBalance. simpl.
  rewrite (shift_total _ _ _ z b) by (done || apply Hz). rewrite decide_False by done. lia.
Qed.

Lemma BurnTx_inv db a z db' :
  BurnTx db a z = Ok db' ->
  z <= BalanceOfTx db a /\ is_u256 (BalanceOfTx db a - z) /\
  db' = set_balances db (kv_Put (balances db) a (be_enc 32 (BalanceOfTx db a - z))).
Proof.
  unfold BurnTx. intros Hb. osteps Hb. bsimp. simplify_eq. apply writeBalance_inv in E0 as [? ->]. auto.
Qed.

Lemma CreditTx_inv db a z db' :
  CreditTx db a z = Ok db' ->
  is_u256 (BalanceOfTx db a + z) /\
  db' = set_balances db (kv_Put (balances db) a (be_enc 32 (BalanceOfTx db a + z))).
Proof.
  unfold CreditTx. intros Hb. osteps Hb. simplify_eq. apply writeBalance_inv in E as [? ->]. auto.
Qed.

Lemma SeedTx_inv db a z db' :
  SeedTx db a z = Ok db' ->
  is_u256 z /\ db' = set_balances db (kv_Put (balances db) a (be_enc 32 z)).
Proof.
  unfold SeedTx. intros Hb. osteps Hb. simplify_eq. apply writeBalance_inv in E as [? ->]. auto.
Qed.

Lemma totalBalance_put db a z :
  is_u256 z ->
  totalBalance (set_balances db (kv_Put (balances db) a (be_enc 32 z))) =
  totalBalance db - BalanceOfTx db a + z.
Proof. apply kv_sum_put_balance. Qed.

Lemma BalanceOfTx_put db a z c :
  is_u256 z ->
  BalanceOfTx (set_balances db (kv_Put (balances db) a (be_enc 32 z))) c =
  if decide (a = c) then z else BalanceOfTx db c.
Proof. apply readBalance_put. Qed.

(** What each operation does to the total of all balances. *)
Lemma BurnTx_total db a z db' :
  BurnTx db a z = Ok db' -> totalBalance db' = totalBalance db - z.
Proof. intros (? & ? & ->)%BurnTx_inv. rewrite totalBalance_put by done. lia. Qed.

Lemma CreditTx_total db a z db' :
  CreditTx db a z = Ok db' -> totalBalance db' = totalBalance db + z.
Proof. intros (? & ->)%CreditTx_inv. rewrite totalBalance_put by done. lia. Qed.

Lemma BurnTx_read db a z db' c :
  BurnTx db a z = Ok db' ->
  BalanceOfTx db' c = if decide (a = c) then BalanceOfTx db a - z else BalanceOfTx db c.
Proof. intros (? & ? & ->)%BurnTx_inv. by rewrite BalanceOfTx_put. Qed.

Lemma CreditTx_read db a z db' c :
  CreditTx db a z = Ok db' ->
  BalanceOfTx db' c = if decide (a = c) then BalanceOfTx db a + z else BalanceOfTx db c.
Proof. intros (? & ->)%CreditTx_inv. by rewrite BalanceOfTx_put. Qed.

(** Every operation keeps the stored formats. *)
Lemma BurnTx_wf db a z db' : ledger_ok db -> BurnTx db a z = Ok db' -> ledger_ok db'.
Proof. intros ? (? & ? & ->)%BurnTx_inv. by apply ledger_ok_put_balance. Qed.

Lemma CreditTx_wf db a z db' : ledger_ok db -> CreditTx db a z = Ok db' -> ledger_ok db'.
Proof. intros ? (? & ->)%CreditTx_inv. by apply ledger_ok_put_balance. Qed.

Lemma SeedTx_wf db a z db' : ledger_ok db -> SeedTx db a z = Ok db' -> ledger_ok db'.
Proof. intros ? (? & ->)%SeedTx_inv. by apply ledger_ok_put_balance. Qed.

Lemma MoveTx_wf db from to v db' : ledger_ok db -> MoveTx db from to v = Ok db' -> ledger_ok db'.
Proof. intros ? (z & b & -> & Hz & Hs & ->)%MoveTx_inv. eapply ledger_ok_shift; [apply Hz|done..]. Qed.

Lemma AdvanceNonceTx_wf db a n db' : ledger_ok db -> AdvanceNonceTx db a n = Ok db' -> ledger_ok db'.
Proof.
  intros Hok. rewrite AdvanceNonceTx_spec by done. destruct (_ =? _); [|done].
  intros [= <-]. by apply ledger_ok_put_nonce.
Qed.
End Proofs.

#[export] Hint Resolve BurnTx_wf CreditTx_wf SeedTx_wf MoveTx_wf AdvanceNonceTx_wf : frg.
