(* ===== verification/Staking.v ===== *)
(** * core/staking: validator bonds

    A bonded validator has a 57-byte record in the validators bucket and its
    bond in an escrow account of the ledger.  The exported functions that take
    no database transaction run as several transactions, one after the other;
    they are modelled as such, so an error in a later one leaves the earlier
    ones committed. *)

From S2P Require Import Prelude GoBytes Errors Platform KV Denom Ledger.

Module staking.

Definition MinBond : Z := 1000.
Definition UnbondingBlocks : Z := 1000.
Definition MissThreshold : Z := 5.
Definition SlashPercent : Z := 10.
Definition stateBonded : Z := 1.
Definition stateUnbonding : Z := 2.
Definition minBondAmount : Z := MinBond * denom.QuantaPerFRG.
Definition domainStakingEscrow : bytes := str "FRG_STAKING_ESCROW_V1" ++ [x00].

Record EquivocationProof : Type := mkEquivocationProof
  { ValidatorPubKey : arr 32;
    HeaderA : bytes;
    SigA : arr 64;
    HeaderB : bytes;
    SigB : arr 64 }.

Record record : Type := mkRecord
  { State : Z;
    BondedAmount : Z;
    BondedAtBlock : Z;
    UnbondingAtBlock : Z;
    MissCount : Z }.

(** The amount is copied to [buf[33-len:33]]: at 33 bytes it overwrites the
    state, above it the slice bounds panic. *)
Definition encodeRecord (r : record) : res bytes :=
  let amountBytes := big_Bytes (BondedAmount r) in
  if Nat.ltb 33 (length amountBytes) then Panic else
  Ok (take (33 - length amountBytes) (byte_of_Z (State r) :: replicate 32 x00) ++ amountBytes ++
      put64 (BondedAtBlock r) ++ put64 (UnbondingAtBlock r) ++ put64 (MissCount r)).

Definition decodeRecord (buf : bytes) : res record :=
  let* st := index buf 0 in
  let* amount := slice buf 1 33 in
  let* bondedAt := slice buf 33 41 in
  let* unbondingAt := slice buf 41 49 in
  let* miss := (if zlen buf >=? 57 then let* s := slice buf 49 57 in Ok (be_dec s) else Ok 0) in
  Ok (mkRecord (byte_to_Z st) (big_SetBytes amount) (be_dec bondedAt) (be_dec unbondingAt) miss).

Section Ops.
Context `{Platform} {B : Type} `{KV B}.

Definition getRecord (b : B) (validator : arr 32) : res (option record) :=
  match kv_Get b validator with
  | None => Ok None
  | Some v => let* r := decodeRecord v in Ok (Some r)
  end.

Definition putRecord (b : B) (validator : arr 32) (r : record) : res B :=
  let* enc := encodeRecord r in
  Ok (kv_Put b validator enc).

Definition escrowAccount (validator : arr 32) : arr 32 :=
  sha256_Sum256 (domainStakingEscrow ++ validator).

Definition EscrowAccount (validator : arr 32) : arr 32 := escrowAccount validator.

Definition readRecord (db : DB B) (validator : arr 32) : res (option record) :=
  getRecord (validators db) validator.

(** [putRecord] in a transaction of its own. *)
Definition updateRecord (db : DB B) (validator : arr 32) (r : record) : DB B * res unit :=
  Update db (fun btx => let* b := putRecord (validators btx) validator r in Ok (set_validators btx b, tt)).

Definition deleteRecord (db : DB B) (validator : arr 32) : DB B * res unit :=
  Update db (fun btx => Ok (set_validators btx (kv_Delete (validators btx) validator), tt)).

(** Continue with the next transaction when the last one succeeded. *)
Definition andThen (r : DB B * res unit) (k : DB B -> DB B * res unit) : DB B * res unit :=
  match r with
  | (db, Ok _) => k db
  | (db, Err e) => (db, Err e)
  | (db, Panic) => (db, Panic)
  end.

Definition Bond (db : DB B) (validator : arr 32) (amount : option Z) (currentBlock : Z) : DB B * res unit :=
  match amount with
  | None => (db, fail ErrBondBelowMinimum)
  | Some a =>
    if a <? minBondAmount then (db, fail ErrBondBelowMinimum) else
    match readRecord db validator with
    | Err e => (db, Err e)
    | Panic => (db, Panic)
    | Ok (Some _) => (db, fail ErrAlreadyBonded)
    | Ok None =>
        andThen (ledger.Move db validator (escrowAccount validator) (Some a)) (fun db =>
          updateRecord db validator (mkRecord stateBonded a currentBlock 0 0))
    end
  end.

Definition BondTx (db : DB B) (validator : arr 32) (amount : option Z) (currentBlock : Z) : res (DB B) :=
  match amount with
  | None => fail ErrBondBelowMinimum
  | Some a =>
    if a <? minBondAmount then fail ErrBondBelowMinimum else
    let* rec := getRecord (validators db) validator in
    match rec with
    | Some _ => fail ErrAlreadyBonded
    | None =>
      let escrow := escrowAccount validator in
      let* db := ledger.MoveTx db validator escrow (Some a) in
      let* b := putRecord (validators db) validator (mkRecord stateBonded a currentBlock 0 0) in
      Ok (set_validators db b)
    end
  end.

Definition startUnbonding (r : record) (currentBlock : Z) : record :=
  mkRecord stateUnbonding (BondedAmount r) (BondedAtBlock r) currentBlock (MissCount r).

Definition Unbond (db : DB B) (validator : arr 32) (currentBlock : Z) : DB B * res unit :=
  match readRecord db validator with
  | Err e => (db, Err e)
  | Panic => (db, Panic)
  | Ok None => (db, fail ErrNotBonded)
  | Ok (Some rec) =>
      if State rec =? 0 then (db, fail ErrNotBonded) else
      if State rec =? stateUnbonding then (db, fail ErrUnbondingPending) else
      updateRecord db validator (startUnbonding rec currentBlock)
  end.

Definition UnbondTx (db : DB B) (validator : arr 32) (currentBlock : Z) : res (DB B) :=
  let* rec := getRecord (validators db) validator in
  match rec with
  | None => fail ErrNotBonded
  | Some rec =>
      if State rec =? 0 then fail ErrNotBonded else
      if State rec =? stateUnbonding then fail ErrUnbondingPending else
      let* b := putRecord (validators db) validator (startUnbonding rec currentBlock) in
      Ok (set_validators db b)
  end.

Definition Finalize (db : DB B) (validator : arr 32) (currentBlock : Z) : DB B * res unit :=
  match readRecord db validator with
  | Err e => (db, Err e)
  | Panic => (db, Panic)
  | Ok None => (db, Ok tt)
  | Ok (Some rec) =>
      if negb (State rec =? stateUnbonding) then (db, Ok tt) else
      if currentBlock <? wrap64 (UnbondingAtBlock rec + UnbondingBlocks) then (db, Ok tt) else
      andThen (ledger.Move db (escrowAccount validator) validator (Some (BondedAmount rec))) (fun db =>
        deleteRecord db validator)
  end.

Definition FinalizeTx (db : DB B) (validator : arr 32) (currentBlock : Z) : res (DB B) :=
  let* rec := getRecord (validators db) validator in
  match rec with
  | None => Ok db
  | Some rec =>
      if negb (State rec =? stateUnbonding) then Ok db else
      if currentBlock <? wrap64 (UnbondingAtBlock rec + UnbondingBlocks) then Ok db else
      let escrow := escrowAccount validator in
      let* db := ledger.MoveTx db escrow validator (Some (BondedAmount rec)) in
      Ok (set_validators db (kv_Delete (validators db) validator))
  end.

Definition SlashTx (db : DB B) (validator : arr 32) : res (DB B * Z) :=
  let* rec := getRecord (validators db) validator in
  match rec with
  | None => fail ErrNotBonded
  | Some rec =>
      if State rec =? 0 then fail ErrNotBonded else
      let amount := BondedAmount rec in
      let escrow := escrowAccount validator in
      let* db := ledger.BurnTx db escrow amount in
      Ok (set_validators db (kv_Delete (validators db) validator), amount)
  end.

Definition Slash (db : DB B) (validator : arr 32) (proof : EquivocationProof) : DB B * res unit :=
  match readRecord db validator with
  | Err e => (db, Err e)
  | Panic => (db, Panic)
  | Ok None => (db, fail ErrNotBonded)
  | Ok (Some rec) =>
      if negb (State rec =? stateBonded) then (db, fail ErrNotBonded) else
      if bool_decide (ValidatorPubKey proof <> validator) then (db, fail ErrInvalidSignature) else
      if negb (keys.Verify validator (HeaderA proof) (SigA proof)) ||
         negb (keys.Verify validator (HeaderB proof) (SigB proof)) then (db, fail ErrInvalidSignature) else
      if bool_decide (HeaderA proof = HeaderB proof) then (db, fail ErrCanonicalEncodingDistortion) else
      andThen (ledger.Burn db (escrowAccount validator) (BondedAmount rec)) (fun db =>
        deleteRecord db validator)
  end.

(** The bucket is visited in key order. *)
Definition BondedAmounts (db : DB B) : res (list (arr 32) * list Z) :=
  foldM (fun acc kv =>
    let* rec := decodeRecord (snd kv) in
    if State rec =? stateBonded
    then Ok (fst acc ++ [mk_arr 32 (fst kv)], snd acc ++ [BondedAmount rec])
    else Ok acc) ([], []) (kv_ForEach (validators db)).

Definition ValidatorSet (db : DB B) : res (list (arr 32)) :=
  foldM (fun acc kv =>
    let* rec := decodeRecord (snd kv) in
    if State rec =? stateBonded then Ok (acc ++ [mk_arr 32 (fst kv)]) else Ok acc)
    [] (kv_ForEach (validators db)).

Definition RecordMissTx (db : DB B) (validatorPubKey : arr 32) : res (DB B * (Z * Z)) :=
  let* rec := getRecord (validators db) validatorPubKey in
  match rec with
  | None => fail ErrNotBonded
  | Some rec =>
      if State rec =? 0 then fail ErrNotBonded else
      let misses := wrap64 (MissCount rec + 1) in
      let '(misses, slashAmount, bonded) :=
        if misses >=? MissThreshold
        then let s := BondedAmount rec * SlashPercent / 100 in (0, s, BondedAmount rec - s)
        else (misses, 0, BondedAmount rec) in
      let* b := putRecord (validators db) validatorPubKey
                  (mkRecord (State rec) bonded (BondedAtBlock rec) (UnbondingAtBlock rec) misses) in
      Ok (set_validators db b, (misses, slashAmount))
  end.

Definition RecordMiss (db : DB B) (validatorPubKey : arr 32) : DB B * res Z :=
  match Update db (fun btx => RecordMissTx btx validatorPubKey) with
  | (db, Err e) => (db, Err e)
  | (db, Panic) => (db, Panic)
  | (db, Ok (count, slashAmt)) =>
      if slashAmt >? 0 then
        match ledger.Burn db (EscrowAccount validatorPubKey) slashAmt with
        | (db, Ok _) => (db, Ok count)
        | (db, Err e) => (db, Err e)
        | (db, Panic) => (db, Panic)
        end
      else (db, Ok count)
  end.

Definition MissCountOf (db : DB B) (validatorPubKey : arr 32) : res Z :=
  let* rec := readRecord db validatorPubKey in
  match rec with
  | None => Ok 0
  | Some rec => Ok (MissCount rec)
  end.
End Ops.
End staking.
