(* ===== verification/StakingProofs.v ===== *)
(** * core/staking: properties

    Records round-trip through their encoding; every operation keeps each
    validator's escrow account able to pay its recorded bond ([solvent]), so
    that an unbonded validator can always be paid out. *)

From S2P Require Import Prelude GoBytes Errors Platform Tx TxProofs KV Denom Ledger Staking.
Import staking.

(** ** Records *)
Record record_wf (r : record) : Prop := mkRecordWf
  { wf_state : State r = stateBonded \/ State r = stateUnbonding;
    wf_amount : is_u256 (BondedAmount r);
    wf_at : is_u64 (BondedAtBlock r);
    wf_unb : is_u64 (UnbondingAtBlock r);
    wf_miss : is_u64 (MissCount r) }.

Definition rec_bytes (r : record) : bytes :=
  concat [[byte_of_Z (State r)]; be_enc 32 (BondedAmount r); put64 (BondedAtBlock r);
          put64 (UnbondingAtBlock r); put64 (MissCount r)].

Lemma encodeRecord_ok r : is_u256 (BondedAmount r) -> encodeRecord r = Ok (rec_bytes r).
Proof.
  intros Ha. unfold encodeRecord. destruct (value_field _ Ha) as [Hl Hf].
  unfold zlen in Hl. rewrite (proj2 (Nat.ltb_ge _ _)) by lia.
  replace (33 - length (big_Bytes (BondedAmount r)))%nat
    with (S (32 - length (big_Bytes (BondedAmount r)))) by lia.
  cbn [take]. rewrite take_replicate, Nat.min_l by lia.
  unfold rec_bytes. cbn [concat app]. rewrite <- Hf, app_nil_r. by rewrite <- app_assoc.
Qed.

Lemma decode_rec_bytes r : record_wf r -> decodeRecord (rec_bytes r) = Ok r.
Proof.
  intros [Hs Ha Hb Hu Hm]. unfold decodeRecord, rec_bytes. repeat rd_step.
  match goal with |- context [zlen ?l >=? 57] => assert (zlen l = 57) as -> by (rewrite zlen_concat; len_solve) end.
  change (57 >=? 57) with true. cbv iota.
  match goal with |- obind (obind ?a ?b) ?c = _ => rewrite (obind_assoc a b c) end.
  rd_step. cbn [obind].
  unfold big_SetBytes, put64. rewrite byte_to_of_Z.
  rewrite (be_dec_enc_small 32 _ Ha), (be_dec_enc_small 8 _ Hb), (be_dec_enc_small 8 _ Hu), (be_dec_enc_small 8 _ Hm).
  rewrite Z.mod_small by (destruct Hs as [-> | ->]; done). by destruct r.
Qed.

Lemma rec_bytes_length r : length (rec_bytes r) = 57%nat.
Proof.
  apply Nat2Z.inj. change (zlen (rec_bytes r) = 57). unfold rec_bytes. rewrite zlen_concat. len_solve.
Qed.

Section Proofs.
Context `{Platform} {B : Type} `{KVLaws B}.
Implicit Types (db : DB B) (v w : arr 32) (r : record).

(** ** The validators bucket *)
Definition recordOf db v : option record :=
  match getRecord (validators db) v with Ok o => o | _ => None end.

Definition records_ok db : Prop :=
  forall k x, kv_Get (validators db) k = Some x -> exists r, record_wf r /\ x = rec_bytes r.

Lemma getRecord_ok db v :
  records_ok db ->
  getRecord (validators db) v = Ok (recordOf db v) /\ (forall r, recordOf db v = Some r -> record_wf r).
Proof.
  intros Hok. unfold recordOf, getRecord. destruct (kv_Get _ _) as [x|] eqn:E; [|done].
  apply Hok in E as (r & Hr & ->). rewrite decode_rec_bytes by done. split; [done|]. by intros ? [= <-].
Qed.

Lemma recordOf_put db v r w :
  record_wf r ->
  recordOf (set_validators db (kv_Put (validators db) v (rec_bytes r))) w =
    if decide (v = w) then Some r else recordOf db w.
Proof.
  intros Hr. unfold recordOf, getRecord; simpl. rewrite kv_get_put. destruct (decide (v = w)) as [->|Hne].
  - rewrite decide_True by done. by rewrite decode_rec_bytes.
  - rewrite decide_False; [done|]. intros He. by apply Hne, arr_eq.
Qed.

Lemma recordOf_delete db v w :
  recordOf (set_validators db (kv_Delete (validators db) v)) w =
    if decide (v = w) then None else recordOf db w.
Proof.
  unfold recordOf, getRecord; simpl. rewrite kv_get_delete. destruct (decide (v = w)) as [->|Hne].
  - by rewrite decide_True.
  - rewrite decide_False; [done|]. intros He. by apply Hne, arr_eq.
Qed.

Lemma records_ok_put db v r :
  record_wf r -> records_ok db -> records_ok (set_validators db (kv_Put (validators db) v (rec_bytes r))).
Proof.
  intros Hr Hok k x. simpl. rewrite kv_get_put. case_decide; [|apply Hok]. intros [= <-]. eauto.
Qed.

Lemma records_ok_delete db v :
  records_ok db -> records_ok (set_validators db (kv_Delete (validators db) v)).
Proof. intros Hok k x. simpl. rewrite kv_get_delete. case_decide; [done|apply Hok]. Qed.

Lemma putRecord_ok b v r : record_wf r -> putRecord (B := B) b v r = Ok (kv_Put b v (rec_bytes r)).
Proof. intros Hr. unfold putRecord. by rewrite encodeRecord_ok by apply Hr. Qed.

(** ** Solvency

    An escrow account owes the bonds of all validators whose bond is kept in
    it; two validators that shared one would both be covered. *)
Definition bondAt (a : arr 32) (kv : bytes * bytes) : Z :=
  if decide (escrowAccount (mk_arr 32 (fst kv)) = a)
  then match decodeRecord (snd kv) with Ok r => BondedAmount r | _ => 0 end else 0.

Definition bondsAt db (a : arr 32) : Z := kv_total (bondAt a) (validators db).

Definition solvent db : Prop := forall a, bondsAt db a <= ledger.BalanceOfTx db a.

(** The accounts in [K] are those that can bond.  Nobody holds the key of an
    escrow account: no escrow account of a key of [K] is itself in [K].  The
    invariant also says that no contract lives at such an account. *)
Definition escrows_apart (K : list (arr 32)) : Prop := forall v w, v ∈ K -> w ∈ K -> escrowAccount v <> w.

Record staking_inv (K : list (arr 32)) db : Prop := mkInv
  { inv_ledger : ledger.ledger_ok db;
    inv_records : records_ok db;
    inv_keys : forall k x, kv_Get (validators db) k = Some x -> exists v, v ∈ K /\ k = arr_bytes v;
    inv_code : forall v, v ∈ K -> kv_Get (contract_bytecode db) (escrowAccount v) = None;
    inv_solvent : solvent db }.

Lemma inv_recorded K db v : staking_inv K db -> is_Some (recordOf db v) -> v ∈ K.
Proof.
  intros Hi [r Hr]. unfold recordOf, getRecord in Hr. destruct (kv_Get (validators db) v) as [x|] eqn:E; [|done].
  destruct (inv_keys K db Hi _ _ E) as (w & Hw & Heq%arr_eq). by subst.
Qed.

(** The bond of one validator, as its escrow account owes it. *)
Definition owed (o : option record) (v a : arr 32) : Z :=
  match o with Some r => if decide (escrowAccount v = a) then BondedAmount r else 0 | None => 0 end.

Lemma bondAt_rec a v r : record_wf r -> bondAt a (arr_bytes v, rec_bytes r) = owed (Some r) v a.
Proof. intros Hr. unfold bondAt, owed. cbn [fst snd]. by rewrite mk_arr_bytes, decode_rec_bytes. Qed.

Lemma bondAt_owed db a v : records_ok db -> kv_at (bondAt a) (validators db) v = owed (recordOf db v) v a.
Proof.
  intros Hok. unfold kv_at, recordOf, getRecord. destruct (kv_Get _ _) as [x|] eqn:E; [|done].
  apply Hok in E as (r & Hr & ->). rewrite bondAt_rec, decode_rec_bytes by done. done.
Qed.

Lemma bondAt_nonneg db a k x : records_ok db -> kv_Get (validators db) k = Some x -> 0 <= bondAt a (k, x).
Proof.
  intros Hok (r & Hr & ->)%Hok. unfold bondAt. cbn [snd]. rewrite decode_rec_bytes by done.
  case_decide; [apply Hr|done].
Qed.

Lemma owed_le db v a : records_ok db -> 0 <= owed (recordOf db v) v a <= bondsAt db a.
Proof.
  intros Hok. rewrite <- bondAt_owed by done. apply kv_total_bounds. intros. by eapply bondAt_nonneg.
Qed.

Lemma bondsAt_put db b v r a :
  records_ok db -> record_wf r ->
  bondsAt (set_validators (set_balances db b) (kv_Put (validators db) v (rec_bytes r))) a =
    bondsAt db a - owed (recordOf db v) v a + owed (Some r) v a.
Proof. intros Hok Hr. unfold bondsAt; simpl. by rewrite kv_total_put, bondAt_owed, bondAt_rec. Qed.

Lemma bondsAt_delete db b v a :
  records_ok db ->
  bondsAt (set_validators (set_balances db b) (kv_Delete (validators db) v)) a =
    bondsAt db a - owed (recordOf db v) v a.
Proof. intros Hok. unfold bondsAt; simpl. by rewrite kv_total_delete, bondAt_owed. Qed.

(** An account that is no escrow account of [K] owes nothing. *)
Lemma bondsAt_zero K db a :
  staking_inv K db -> (forall v, v ∈ K -> escrowAccount v <> a) -> bondsAt db a = 0.
Proof.
  intros Hi Ha. apply kv_total_zero. intros k x (v & Hv & ->)%(inv_keys K db Hi). unfold bondAt. cbn [fst].
  rewrite mk_arr_bytes, decide_False; [done|by apply Ha].
Qed.

(** The database a successful operation leaves, operation by operation. *)
Lemma BondTx_inv db v a h db' :
  records_ok db -> is_u64 h -> BondTx db v a h = Ok db' ->
  exists z b, a = Some z /\ minBondAmount <= z /\ is_u256 z /\ recordOf db v = None /\
    shift (balances db) v (escrowAccount v) z = Ok b /\
    db' = set_validators (set_balances db b)
            (kv_Put (validators db) v (rec_bytes (mkRecord stateBonded z h 0 0))).
Proof.
  intros Hok Hh Hb. unfold BondTx in Hb. rewrite (proj1 (getRecord_ok db v Hok)) in Hb. osteps Hb.
  apply MoveTx_inv in E2 as (z' & b & [= <-] & Hz & Hs & ->). bsimp.
  rewrite putRecord_ok in E3 by (constructor; simpl; auto; done). simplify_eq. eauto 10.
Qed.

Lemma UnbondTx_inv db v h db' :
  records_ok db -> is_u64 h -> UnbondTx db v h = Ok db' ->
  exists r, recordOf db v = Some r /\ State r = stateBonded /\ record_wf (startUnbonding r h) /\
    db' = set_validators db (kv_Put (validators db) v (rec_bytes (startUnbonding r h))).
Proof.
  intros Hok Hh Hu. unfold UnbondTx in Hu. destruct (getRecord_ok db v Hok) as [Hg Hwf].
  rewrite Hg in Hu. osteps Hu. simplify_eq. bsimp. destruct (Hwf r E) as [Hs Ha Hb Hun Hm].
  assert (record_wf (startUnbonding r h)) as Hw by (constructor; simpl; auto).
  rewrite putRecord_ok in E3 by done. simplify_eq. destruct Hs; [|congruence]. eauto 10.
Qed.

Lemma FinalizeTx_inv db v h db' :
  records_ok db -> FinalizeTx db v h = Ok db' ->
  db' = db \/
  exists r b, recordOf db v = Some r /\ State r = stateUnbonding /\
    wrap64 (UnbondingAtBlock r + UnbondingBlocks) <= h /\
    shift (balances db) (escrowAccount v) v (BondedAmount r) = Ok b /\
    db' = set_validators (set_balances db b) (kv_Delete (validators db) v).
Proof.
  intros Hok Hf. unfold FinalizeTx in Hf. rewrite (proj1 (getRecord_ok db v Hok)) in Hf.
  osteps Hf; simplify_eq; auto. bsimp.
  match goal with H : ledger.MoveTx _ _ _ _ = _ |- _ =>
    apply MoveTx_inv in H as (z & b & [= <-] & Hz & Hs & ->) end. right. eauto 10.
Qed.

Lemma SlashTx_inv db v db' z :
  records_ok db -> SlashTx db v = Ok (db', z) ->
  exists r db1, recordOf db v = Some r /\ z = BondedAmount r /\
    ledger.BurnTx db (escrowAccount v) z = Ok db1 /\
    db' = set_validators db1 (kv_Delete (validators db) v).
Proof.
  intros Hok Hs. unfold SlashTx in Hs. rewrite (proj1 (getRecord_ok db v Hok)) in Hs.
  osteps Hs. simplify_eq.
  match goal with H : ledger.BurnTx _ _ _ = Ok ?d |- _ => exists r, d; split_and!; try done;
    by apply BurnTx_inv in H as (_ & _ & ->) end.
Qed.

(** The record after a missed slot, and the part of the bond it costs. *)
Definition missed r : record :=
  if wrap64 (MissCount r + 1) >=? MissThreshold
  then mkRecord (State r) (BondedAmount r - BondedAmount r * SlashPercent / 100)
         (BondedAtBlock r) (UnbondingAtBlock r) 0
  else mkRecord (State r) (BondedAmount r) (BondedAtBlock r) (UnbondingAtBlock r) (wrap64 (MissCount r + 1)).

Lemma missed_wf r : record_wf r -> record_wf (missed r).
Proof.
  intros [Hs Ha Hb Hu Hm]. unfold missed. assert (is_u64 (wrap64 (MissCount r + 1))).
  { apply Z.mod_pos_bound. done. }
  destruct (_ >=? _); constructor; simpl; auto; try done.
  unfold is_u256, SlashPercent in *.
  pose proof (Z.div_pos (BondedAmount r * 10) 100 ltac:(lia) ltac:(lia)).
  assert (BondedAmount r * 10 / 100 <= BondedAmount r) by (apply Z.div_le_upper_bound; lia). lia.
Qed.

Lemma missed_bond r : record_wf r -> 0 <= BondedAmount (missed r) <= BondedAmount r.
Proof.
  intros Hr. split; [apply (missed_wf r Hr)|]. unfold missed. destruct Hr as [_ [Ha _] _ _ _].
  destruct (_ >=? _); simpl; [|lia].
  pose proof (Z.div_pos (BondedAmount r * SlashPercent) 100 ltac:(unfold SlashPercent; lia) ltac:(lia)). lia.
Qed.

Lemma RecordMissTx_spec db v r :
  records_ok db -> recordOf db v = Some r ->
  RecordMissTx db v =
    Ok (set_validators db (kv_Put (validators db) v (rec_bytes (missed r))),
        (MissCount (missed r), BondedAmount r - BondedAmount (missed r))).
Proof.
  intros Hok Hr. destruct (getRecord_ok db v Hok) as [Hg Hwf]. unfold RecordMissTx.
  rewrite Hg, Hr. cbn [obind]. specialize (Hwf r Hr). pose proof (missed_wf r Hwf) as Hw.
  replace (State r =? 0) with false by (destruct (wf_state _ Hwf) as [-> | ->]; done).
  revert Hw. unfold missed. destruct (_ >=? _); intros Hw; rewrite putRecord_ok by done; simpl;
    do 3 f_equal; lia.
Qed.

Lemma RecordMissTx_inv db v db' n z :
  records_ok db -> RecordMissTx db v = Ok (db', (n, z)) ->
  exists r, recordOf db v = Some r /\ record_wf r /\ n = MissCount (missed r) /\
    z = BondedAmount r - BondedAmount (missed r) /\
    db' = set_validators db (kv_Put (validators db) v (rec_bytes (missed r))).
Proof.
  intros Hok Hm. destruct (getRecord_ok db v Hok) as [Hg Hwf]. destruct (recordOf db v) as [r|] eqn:Hr.
  - rewrite (RecordMissTx_spec db v r) in Hm by done. simplify_eq. eauto 10.
  - unfold RecordMissTx in Hm. by rewrite Hg in Hm.
Qed.

(** ** Every operation keeps the invariant *)
Lemma balance_validators db b a : ledger.BalanceOfTx (set_validators db b) a = ledger.BalanceOfTx db a.
Proof. done. Qed.

Lemma ledger_ok_validators db b : ledger.ledger_ok db -> ledger.ledger_ok (set_validators db b).
Proof. intros [??]. by constructor. Qed.

Lemma set_balances_same db : set_balances db (balances db) = db.
Proof. by destruct db. Qed.

(** What leaves the validators alone and takes from no escrow account. *)
Lemma frame_preserves K db db' :
  staking_inv K db -> ledger.ledger_ok db' -> validators db' = validators db ->
  (forall v, v ∈ K -> kv_Get (contract_bytecode db') (escrowAccount v) = kv_Get (contract_bytecode db) (escrowAccount v)) ->
  (forall v, v ∈ K -> ledger.BalanceOfTx db (escrowAccount v) <= ledger.BalanceOfTx db' (escrowAccount v)) ->
  staking_inv K db'.
Proof.
  intros Hi Hl Hv Hcode Hbal. pose proof Hi as [_ Hr Hk Hc Hs].
  constructor; [done|unfold records_ok; by rewrite Hv|by rewrite Hv|intros v Hin; rewrite Hcode by done; by apply Hc|].
  intros a. replace (bondsAt db' a) with (bondsAt db a) by (unfold bondsAt; by rewrite Hv).
  destruct (decide (Exists (fun v => escrowAccount v = a) K)) as [(v & Hin & <-)%Exists_exists|Hno].
  - etransitivity; [apply Hs|by apply Hbal].
  - rewrite (bondsAt_zero K) by (done || intros v Hin He; apply Hno, Exists_exists; eauto).
    apply readBalance_nonneg.
Qed.

(** Writing [v]'s record, with the balances that go with it. *)
Lemma put_preserves K db b v r :
  staking_inv K db -> v ∈ K -> record_wf r -> ledger.ledger_ok (set_balances db b) ->
  (forall a, bondsAt db a - owed (recordOf db v) v a + owed (Some r) v a <= ledger.readBalance b a) ->
  staking_inv K (set_validators (set_balances db b) (kv_Put (validators db) v (rec_bytes r))).
Proof.
  intros [_ Hr Hk Hc _] Hv Hw Hl Hb. constructor; [..|exact Hc|].
  - by apply ledger_ok_validators.
  - by apply (records_ok_put (set_balances db b)).
  - intros k x. simpl. rewrite kv_get_put. case_decide; [intros [= <-]; by exists v|apply Hk].
  - intros a. rewrite bondsAt_put by done. apply Hb.
Qed.

Lemma delete_preserves K db b v :
  staking_inv K db -> ledger.ledger_ok (set_balances db b) ->
  (forall a, bondsAt db a - owed (recordOf db v) v a <= ledger.readBalance b a) ->
  staking_inv K (set_validators (set_balances db b) (kv_Delete (validators db) v)).
Proof.
  intros [_ Hr Hk Hc _] Hl Hb. constructor; [..|exact Hc|].
  - by apply ledger_ok_validators.
  - by apply (records_ok_delete (set_balances db b)).
  - intros k x. simpl. rewrite kv_get_delete. case_decide; [done|apply Hk].
  - intros a. rewrite bondsAt_delete by done. apply Hb.
Qed.

Lemma BondTx_preserves K db v a h db' :
  staking_inv K db -> escrows_apart K -> v ∈ K -> is_u64 h -> BondTx db v a h = Ok db' -> staking_inv K db'.
Proof.
  intros Hi Hap Hv Hh (z & b & -> & Hmin & Hz & Hnone & Hsh & ->)%BondTx_inv; try done; [|apply Hi].
  assert (record_wf (mkRecord stateBonded z h 0 0)) as Hw by (constructor; simpl; auto; done).
  apply put_preserves; try done; [by apply (ledger_ok_shift _ _ _ z _ (proj1 Hz) (inv_ledger _ _ Hi) Hsh)|].
  intros c. rewrite (shift_read _ _ _ _ _ c (proj1 Hz) Hsh), Hnone. cbn [owed BondedAmount].
  pose proof (inv_solvent _ _ Hi c) as Hc. unfold ledger.BalanceOfTx in Hc.
  destruct (decide (escrowAccount v = c)) as [->|He]; [rewrite decide_True by done; lia|].
  rewrite decide_False by done. case_decide; [|lia]. subst c.
  rewrite (bondsAt_zero K) by (done || intros w Hw'; by apply Hap).
  apply shift_inv in Hsh as (? & _); [lia|apply Hz].
Qed.

Lemma UnbondTx_preserves K db v h db' :
  staking_inv K db -> is_u64 h -> UnbondTx db v h = Ok db' -> staking_inv K db'.
Proof.
  intros Hi Hh (r & Hrec & Hst & Hw & ->)%UnbondTx_inv; try done; [|apply Hi].
  rewrite <- (set_balances_same db) at 1. apply put_preserves; try done.
  - by apply (inv_recorded K db).
  - rewrite set_balances_same. apply Hi.
  - intros a. rewrite Hrec. pose proof (inv_solvent _ _ Hi a) as Ha. unfold ledger.BalanceOfTx in Ha. cbn. lia.
Qed.

Lemma FinalizeTx_preserves K db v h db' :
  staking_inv K db -> FinalizeTx db v h = Ok db' -> staking_inv K db'.
Proof.
  intros Hi [->|(r & b & Hrec & Hst & Hh & Hsh & ->)]%FinalizeTx_inv; try done; [|apply Hi].
  assert (0 <= BondedAmount r) as H0' by (eapply wf_amount, (getRecord_ok db v (inv_records _ _ Hi)); done).
  apply delete_preserves; [done|by apply (ledger_ok_shift _ _ _ _ _ H0' (inv_ledger _ _ Hi) Hsh)|].
  intros a. rewrite (shift_read _ _ _ _ _ a H0' Hsh), Hrec. pose proof (inv_solvent _ _ Hi a) as Ha.
  unfold ledger.BalanceOfTx, owed in *. repeat case_decide; subst; try done; try lia.
  match goal with He : escrowAccount v = v |- _ => rewrite He in * end. lia.
Qed.

Lemma SlashTx_preserves K db v db' z :
  staking_inv K db -> SlashTx db v = Ok (db', z) -> staking_inv K db'.
Proof.
  intros Hi (r & db1 & Hrec & -> & Hb & ->)%SlashTx_inv; [|apply Hi].
  pose proof (fun c => BurnTx_read _ _ _ _ c Hb) as Hread.
  pose proof (BurnTx_wf _ _ _ _ (inv_ledger _ _ Hi) Hb) as Hok.
  apply BurnTx_inv in Hb as (Hle & Hu & ->). apply delete_preserves; [done|done|].
  intros a. specialize (Hread a). unfold ledger.BalanceOfTx in Hread |- *. cbn [balances set_balances] in Hread.
  rewrite Hread, Hrec. pose proof (inv_solvent _ _ Hi a) as Ha. unfold ledger.BalanceOfTx, owed in *.
  repeat case_decide; subst; try done; lia.
Qed.

(** A missed slot as a block applies it: the miss is recorded and the slashed
    part of the bond is burned. *)
Lemma miss_preserves K db v db1 n z db' :
  staking_inv K db -> RecordMissTx db v = Ok (db1, (n, z)) ->
  (if z >? 0 then ledger.BurnTx db1 (EscrowAccount v) z else Ok db1) = Ok db' -> staking_inv K db'.
Proof.
  intros Hi Hm Hburn. pose proof Hi as [Hl Hr Hk _ Hs].
  apply RecordMissTx_inv in Hm as (r & Hrec & Hrw & -> & -> & ->); [|done].
  pose proof (missed_wf r Hrw) as Hw. pose proof (missed_bond r Hrw) as Hmb.
  assert (v ∈ K) as Hv by (by apply (inv_recorded K db)).
  destruct (_ >? 0) eqn:E; bsimp.
  - pose proof (fun c => BurnTx_read _ _ _ _ c Hburn) as Hread.
    pose proof (BurnTx_wf _ _ _ _ (ledger_ok_validators _ _ Hl) Hburn) as Hok.
    apply BurnTx_inv in Hburn as (Hle & Hu & ->).
    match goal with |- staking_inv K (set_balances (set_validators _ ?vs) ?b) =>
      change (staking_inv K (set_validators (set_balances db b) vs)) end.
    apply put_preserves; try done; [by apply (ledger_ok_validators _ (validators db)) in Hok; destruct db|].
    intros a. specialize (Hread a). unfold ledger.BalanceOfTx in Hread |- *. cbn [balances set_balances set_validators] in Hread |- *.
    rewrite Hread, Hrec. pose proof (Hs a) as Ha. unfold ledger.BalanceOfTx, owed, EscrowAccount in *.
    repeat case_decide; subst; try done; lia.
  - injection Hburn as <-. rewrite <- (set_balances_same db) at 1. apply put_preserves; try done.
    + by rewrite set_balances_same.
    + intros a. rewrite Hrec. pose proof (Hs a) as Ha. unfold ledger.BalanceOfTx, owed in *. case_decide; lia.
Qed.

(** Whoever sends: value taken from [from], which is no escrow account of [K]. *)
Lemma shift_preserves K db from to z b :
  staking_inv K db -> 0 <= z -> (forall v, v ∈ K -> escrowAccount v <> from) ->
  shift (balances db) from to z = Ok b -> staking_inv K (set_balances db b).
Proof.
  intros Hi Hz Hne Hs. eapply frame_preserves; [exact Hi|by eapply ledger_ok_shift, Hs; [|apply Hi]|done|done|].
  intros v Hv. unfold ledger.BalanceOfTx; simpl. rewrite (shift_read _ _ _ _ _ _ Hz Hs).
  specialize (Hne v Hv). repeat case_decide; subst; try done; lia.
Qed.

Lemma nonce_preserves K db t : staking_inv K db -> staking_inv K (used_nonce db t).
Proof. intros Hi. eapply frame_preserves; [exact Hi|apply ledger_ok_put_nonce, Hi|done..]. Qed.

Lemma TransferTx_preserves K db (t : tx.Tx) db' :
  staking_inv K db -> (forall z, tx.Value t = Some z -> 0 <= z) ->
  (forall v, v ∈ K -> escrowAccount v <> tx.SenderPubKey t) ->
  ledger.TransferTx db t = Ok db' -> staking_inv K db'.
Proof.
  intros Hi Hv Hne (z & b & Hval & Hsh & _ & ->)%TransferTx_inv; [|apply Hi].
  eapply (shift_preserves K (used_nonce db t)); [by apply nonce_preserves|by apply Hv|done|exact Hsh].
Qed.

Lemma MoveTx_preserves K db from to z db' :
  staking_inv K db -> (forall v, v ∈ K -> escrowAccount v <> from) ->
  ledger.MoveTx db from to z = Ok db' -> staking_inv K db'.
Proof.
  intros Hi Hne (a & b & -> & Ha & Hs & ->)%MoveTx_inv. eapply shift_preserves; [done|apply Ha|exact Hne|exact Hs].
Qed.

Lemma BurnTx_preserves K db a z db' :
  staking_inv K db -> (forall v, v ∈ K -> escrowAccount v <> a) -> ledger.BurnTx db a z = Ok db' -> staking_inv K db'.
Proof.
  intros Hi Hne Hb. pose proof (fun c => BurnTx_read _ _ _ _ c Hb) as Hread.
  eapply frame_preserves; [exact Hi|eapply BurnTx_wf; [apply Hi|exact Hb]|by apply BurnTx_inv in Hb as (_ & _ & ->)..|].
  intros v Hv. rewrite Hread, decide_False; [done|]. symmetry; by apply Hne.
Qed.

Lemma CreditTx_preserves K db a z db' :
  staking_inv K db -> 0 <= z -> ledger.CreditTx db a z = Ok db' -> staking_inv K db'.
Proof.
  intros Hi Hz Hb. pose proof (fun c => CreditTx_read _ _ _ _ c Hb) as Hread.
  eapply frame_preserves; [exact Hi|eapply CreditTx_wf; [apply Hi|exact Hb]|by apply CreditTx_inv in Hb as (_ & ->)..|].
  intros v Hv. rewrite Hread. case_decide; [subst|]; lia.
Qed.

Lemma AdvanceNonceTx_preserves K db a n db' :
  staking_inv K db -> ledger.AdvanceNonceTx db a n = Ok db' -> staking_inv K db'.
Proof.
  intros Hi Ha. eapply frame_preserves; [exact Hi|eapply AdvanceNonceTx_wf; [apply Hi|exact Ha]|..].
  all: rewrite AdvanceNonceTx_spec in Ha by apply Hi; destruct (_ =? _); [|done]; by injection Ha as <-.
Qed.

(** ** The properties *)

(** Validator records round-trip: a well-formed record encodes to 57 bytes that
    decode to the same record. *)
Theorem decodeRecord_encodeRecord r :
  record_wf r -> exists b, encodeRecord r = Ok b /\ length b = 57%nat /\ decodeRecord b = Ok r.
Proof.
  intros Hr. exists (rec_bytes r). split; [apply encodeRecord_ok, Hr|].
  split; [apply rec_bytes_length|by apply decode_rec_bytes].
Qed.

(** The bond of every validator is there. *)
Lemma inv_bond K db v r :
  staking_inv K db -> recordOf db v = Some r -> BondedAmount r <= ledger.BalanceOfTx db (escrowAccount v).
Proof.
  intros Hi Hr. pose proof (owed_le db v (escrowAccount v) (inv_records _ _ Hi)) as [_ Ho].
  rewrite Hr in Ho. cbn [owed] in Ho. rewrite decide_True in Ho by done.
  etransitivity; [exact Ho|apply (inv_solvent _ _ Hi)].
Qed.

(** What finalizing does to an unbonding validator whose lockup is over: it never
    lacks the escrowed funds. *)
Lemma FinalizeTx_due K db v r h :
  staking_inv K db -> escrows_apart K -> recordOf db v = Some r -> State r = stateUnbonding ->
  wrap64 (UnbondingAtBlock r + UnbondingBlocks) <= h ->
  if ledger.BalanceOf db v + BondedAmount r <? two256 then
    exists db', FinalizeTx db v h = Ok db' /\ recordOf db' v = None /\
      ledger.BalanceOf db' v = ledger.BalanceOf db v + BondedAmount r /\
      ledger.BalanceOf db' (escrowAccount v) = ledger.BalanceOf db (escrowAccount v) - BondedAmount r /\
      ledger.totalBalance db' = ledger.totalBalance db
  else FinalizeTx db v h = fail ErrArithmeticOverflow.
Proof.
  intros Hi Hap Hrec Hst Hh. pose proof (inv_bond K db v r Hi Hrec) as Hle.
  assert (v ∈ K) as Hv by (by apply (inv_recorded K db)). pose proof (Hap v v Hv Hv) as Hne.
  destruct (getRecord_ok db v (inv_records _ _ Hi)) as [Hg Hwf]. pose proof (wf_amount _ (Hwf r Hrec)) as Ha.
  assert (FinalizeTx db v h = let* b := shift (balances db) (escrowAccount v) v (BondedAmount r) in
            Ok (set_validators (set_balances db b) (kv_Delete (validators db) v))) as ->.
  { unfold FinalizeTx. rewrite Hg, Hrec. cbn [obind]. rewrite Hst, Z.eqb_refl. cbn [negb]. ztest.
    rewrite MoveTx_shift by done. by rewrite obind_assoc. }
  unfold ledger.BalanceOf, ledger.BalanceOfTx in *. destruct (_ <? two256) eqn:E; bsimp.
  2:{ rewrite shift_overflow; [done|apply Hi|by split; [apply Ha|]|lia]. }
  destruct (shift_ok db (escrowAccount v) v (BondedAmount r)) as [b Hb]; [apply Hi|by split; [apply Ha|]|done|].
  rewrite Hb. cbn [obind]. eexists. split_and!; [done|..]; simpl.
  - rewrite (recordOf_delete (set_balances db b)). by rewrite decide_True.
  - rewrite (shift_read _ _ _ _ _ _ (proj1 Ha) Hb). by rewrite decide_True.
  - rewrite (shift_read _ _ _ _ _ _ (proj1 Ha) Hb). by rewrite decide_False, decide_True.
  - unfold ledger.totalBalance; simpl. rewrite (shift_total _ _ _ _ _ (proj1 Ha) Hb).
    rewrite decide_False by done. lia.
Qed.

(** And to any other account it does nothing. *)
Lemma FinalizeTx_idle db v h :
  records_ok db ->
  (forall r, recordOf db v = Some r -> State r = stateUnbonding ->
     h < wrap64 (UnbondingAtBlock r + UnbondingBlocks)) ->
  FinalizeTx db v h = Ok db.
Proof.
  intros Hok Hidle. unfold FinalizeTx. rewrite (proj1 (getRecord_ok db v Hok)). cbn [obind].
  destruct (recordOf db v) as [r|]; [|done]. destruct (State r =? stateUnbonding) eqn:E; [|done].
  bsimp. cbn [negb]. specialize (Hidle r eq_refl E). by ztest.
Qed.

(** Lockup: after unbonding at height [h], finalizing at any height below
    [h + 1000] changes nothing. *)
Theorem UnbondTx_lockup db v h db1 h' :
  records_ok db -> is_u64 h -> h + UnbondingBlocks < two64 ->
  UnbondTx db v h = Ok db1 -> h' < h + UnbondingBlocks -> FinalizeTx db1 v h' = Ok db1.
Proof.
  intros Hr Hh Hw Hu Hlt. apply UnbondTx_inv in Hu as (r & Hrec & Hst & Hwf & ->); try done.
  unfold FinalizeTx. rewrite (proj1 (getRecord_ok _ v (records_ok_put db v _ Hwf Hr))).
  rewrite recordOf_put, decide_True by done. cbn [obind]. simpl. unfold is_u64, wrap64 in *.
  rewrite Z.mod_small by (unfold UnbondingBlocks in *; lia). by ztest.
Qed.

Lemma Update_pair {A} db (f : DB B -> res (DB B * A)) :
  match Update db f with
  | (db', Ok a) => f db = Ok (db', a)
  | (db', _) => db' = db
  end.
Proof. unfold Update. by destruct (f db) as [[]| |]. Qed.

(** Slashing needs evidence: [Slash] succeeds only when the proof carries two
    different headers validly signed by the slashed validator, which was
    bonded; it then removes the record and destroys exactly the bond.  In
    every other case the database is unchanged. *)
Theorem Slash_requires_equivocation db v (proof : EquivocationProof) db' e :
  records_ok db -> Slash db v proof = (db', e) ->
  match e with
  | Ok _ => ValidatorPubKey proof = v /\ HeaderA proof <> HeaderB proof /\
      keys.Verify v (HeaderA proof) (SigA proof) = true /\ keys.Verify v (HeaderB proof) (SigB proof) = true /\
      exists r, recordOf db v = Some r /\ State r = stateBonded /\ recordOf db' v = None /\
        ledger.totalBalance db' = ledger.totalBalance db - BondedAmount r
  | _ => db' = db
  end.
Proof.
  intros Hr. unfold Slash, readRecord. destruct (getRecord_ok db v Hr) as [Hg Hwf]. rewrite Hg.
  destruct (recordOf db v) as [r|] eqn:Hrec; [|by intros [= <- <-]].
  destruct (negb (State r =? stateBonded)) eqn:E1; [by intros [= <- <-]|].
  destruct (bool_decide (ValidatorPubKey proof <> v)) eqn:E2; [by intros [= <- <-]|].
  destruct (negb _ || negb _) eqn:E3; [by intros [= <- <-]|].
  destruct (bool_decide (HeaderA proof = _)) eqn:E4; [by intros [= <- <-]|]. bsimp.
  unfold ledger.Burn. rewrite (proj2 (validateUint256_ok (Some _))) by (eexists; split; [done|apply Hwf; done]).
  pose proof (Update_pair db (fun btx => let* btx := ledger.BurnTx btx (escrowAccount v) (BondedAmount r) in Ok (btx, ()))) as Hup.
  destruct (Update _ _) as [db1 [u|e'|]]; cbn [andThen]; [|by intros [= <- <-]..].
  osteps Hup. simplify_eq. unfold deleteRecord, Update. intros [= <- <-]. split_and!; try done.
  exists r. split_and!; try done.
  - rewrite recordOf_delete. by rewrite decide_True.
  - match goal with H : ledger.BurnTx _ _ _ = _ |- _ => by apply BurnTx_total in H end.
Qed.

(** Consecutive missed slots. *)
Fixpoint misses (n : nat) db v : res (DB B) :=
  match n with
  | O => Ok db
  | S n => let* '(db, _) := RecordMissTx db v in misses n db v
  end.

Lemma misses_spec n db v r :
  records_ok db -> recordOf db v = Some r ->
  exists db', misses n db v = Ok db' /\ records_ok db' /\ recordOf db' v = Some (Nat.iter n missed r).
Proof.
  revert db r. induction n as [|n IH]; intros db r Hr Hrec; [by exists db|].
  cbn [misses]. rewrite (RecordMissTx_spec db v r) by done. cbn [obind].
  assert (record_wf (missed r)) as Hw by (apply missed_wf; by apply (getRecord_ok db v Hr)).
  destruct (IH _ (missed r) (records_ok_put db v _ Hw Hr)) as (db' & ? & ? & Hdb').
  { rewrite recordOf_put by done. by rewrite decide_True. }
  exists db'. split_and!; try done. by rewrite Nat.iter_succ_r.
Qed.

(** Downtime: the first four misses of a validator with a clean counter leave its
    bond alone; the fifth takes a tenth of it (rounded down) and clears the counter. *)
Theorem misses_slash db v r :
  records_ok db -> recordOf db v = Some r -> MissCount r = 0 ->
  (forall n, (n < 5)%nat -> exists db', misses n db v = Ok db' /\
     exists r', recordOf db' v = Some r' /\ BondedAmount r' = BondedAmount r /\ MissCount r' = Z.of_nat n) /\
  exists db', misses 5 db v = Ok db' /\
    exists r', recordOf db' v = Some r' /\ BondedAmount r' = BondedAmount r - BondedAmount r / 10 /\
      MissCount r' = 0 /\ State r' = State r.
Proof.
  intros Hr Hrec H0'. destruct r as [st am ba ub mc]. simpl in *. subst mc. split.
  - intros n Hn. destruct (misses_spec n db v _ Hr Hrec) as (db' & Hm & _ & Hrec').
    exists db'. split; [done|]. eexists. split; [done|].
    destruct n as [|[|[|[|[|n]]]]]; [split; reflexivity..|lia].
  - destruct (misses_spec 5 db v _ Hr Hrec) as (db' & Hm & _ & Hrec').
    exists db'. split; [done|]. eexists. split; [done|].
    change (Nat.iter 5 missed _) with (mkRecord st (am - am * SlashPercent / 100) ba ub 0).
    simpl. split_and!; try done. unfold SlashPercent.
    replace (am * 10) with (10 * am) by lia. change 100 with (10 * 10). by rewrite Z.div_mul_cancel_l.
Qed.
End Proofs.
