(* ===== verification/Gas.v ===== *)
(** * core/gas: the base fee and fee accounts

    [Accrue] writes each fee account in a transaction of its own, so an error
    leaves the earlier credits in place; it returns the database with the
    result.  The nil checks on the ledger and transaction handles have no
    counterpart: a database value is always there. *)

From S2P Require Import Prelude GoBytes Errors Platform Tx TxProofs KV Ledger.

Module gas.

Definition TargetTxCount : Z := 32768.
Definition TargetGasPerBlock : Z := TargetTxCount.
Definition MaxAdjustmentNumerator : Z := 1.
Definition MaxAdjustmentDenominator : Z := 8.
Definition ValidatorSharePct : Z := 70.
Definition StakerSharePct : Z := 30.
Definition MinBaseFee : Z := 1.
Definition domainGasFee : bytes := str "FRG_GAS_FEE_V1" ++ [x00].

Definition FeeAccount `{Platform} (validator : arr 32) : arr 32 :=
  sha256_Sum256 (domainGasFee ++ validator).

(** [big.Int.Div] is Euclidean; with the positive divisors used here it is
    [Z.div]. *)
Definition BaseFee (prevBaseFee : option Z) (gasUsed : Z) : Z :=
  match prevBaseFee with
  | None => MinBaseFee
  | Some prev =>
    let next :=
      if gasUsed >? TargetGasPerBlock then
        let diff := gasUsed - TargetGasPerBlock in
        prev + prev * diff / TargetGasPerBlock / MaxAdjustmentDenominator
      else if gasUsed <? TargetGasPerBlock then
        let diff := TargetGasPerBlock - gasUsed in
        prev - prev * diff / TargetGasPerBlock / MaxAdjustmentDenominator
      else prev in
    if next <? MinBaseFee then MinBaseFee else next
  end.

Section Ops.
Context `{Platform} {B : Type} `{KV B}.

Fixpoint sumBonded (bonded : list (option Z)) (acc : Z) : res Z :=
  match bonded with
  | [] => Ok acc
  | None :: _ => failf "bonded amount is nil"
  | Some b :: r => sumBonded r (acc + b)
  end.

(** The share of the validator at index [i]. *)
Definition shareOf (equalShare remainderCount stakerPool totalBonded i : Z) (bonded : Z) : Z :=
  let share := equalShare in
  let share := if i <? remainderCount then share + 1 else share in
  if totalBonded >? 0 then share + stakerPool * bonded / totalBonded else share.

Fixpoint accrueLoop (equalShare remainderCount stakerPool totalBonded : Z)
    (db : DB B) (i : Z) (validatorSet : list (arr 32)) (bondedAmounts : list (option Z)) : DB B * res unit :=
  match validatorSet, bondedAmounts with
  | validator :: vs, Some bonded :: bs =>
      let share := shareOf equalShare remainderCount stakerPool totalBonded i bonded in
      let feeAcc := FeeAccount validator in
      let current := ledger.BalanceOf db feeAcc in
      match ledger.Seed db feeAcc (current + share) with
      | (db, Ok _) => accrueLoop equalShare remainderCount stakerPool totalBonded db (i + 1) vs bs
      | (db, Err e) => (db, Err e)
      | (db, Panic) => (db, Panic)
      end
  | _ :: _, _ => (db, Panic)
  | [], _ => (db, Ok tt)
  end.

Definition Accrue (db : DB B) (totalFees : option Z) (validatorSet : list (arr 32))
    (bondedAmounts : list (option Z)) : DB B * res unit :=
  match totalFees with
  | None => (db, failf "total fees is nil")
  | Some totalFees =>
    if totalFees <? 0 then (db, failf "total fees must be non-negative") else
    if negb (zlen validatorSet =? zlen bondedAmounts)
    then (db, failf "validator set and bonded amounts length mismatch") else
    if (zlen validatorSet =? 0) || (totalFees =? 0) then (db, Ok tt) else
    let validatorPool := totalFees * ValidatorSharePct / 100 in
    let stakerPool := totalFees - validatorPool in
    let equalShare := validatorPool / zlen validatorSet in
    let remainder := validatorPool - equalShare * zlen validatorSet in
    match sumBonded bondedAmounts 0 with
    | Err e => (db, Err e)
    | Panic => (db, Panic)
    | Ok totalBonded => accrueLoop equalShare remainder stakerPool totalBonded db 0 validatorSet bondedAmounts
    end
  end.

Definition Claim (db : DB B) (validator : arr 32) : DB B * res unit :=
  let feeAcc := FeeAccount validator in
  let bal := ledger.BalanceOf db feeAcc in
  if bal =? 0 then (db, Ok tt) else ledger.Move db feeAcc validator (Some bal).

Definition ClaimTx (db : DB B) (validator : arr 32) : res (DB B) :=
  let feeAcc := FeeAccount validator in
  let bal := ledger.BalanceOfTx db feeAcc in
  if bal =? 0 then Ok db else ledger.MoveTx db feeAcc validator (Some bal).

Definition Claimable (db : DB B) (validator : arr 32) : Z := ledger.BalanceOf db (FeeAccount validator).
End Ops.
End gas.

(** * core/gas: properties *)

Import gas.

(** ** The base fee *)

(** The adjustment, in one division. *)
Lemma fee_delta prev d :
  prev * d / TargetGasPerBlock / MaxAdjustmentDenominator = prev * d / 262144.
Proof. unfold TargetGasPerBlock, TargetTxCount, MaxAdjustmentDenominator. by rewrite Z.div_div by lia. Qed.

Lemma BaseFee_eq prev g :
  1 <= prev -> 0 <= g ->
  BaseFee (Some prev) g =
    if g <=? TargetGasPerBlock then prev - prev * (TargetGasPerBlock - g) / 262144
    else prev + prev * (g - TargetGasPerBlock) / 262144.
Proof.
  intros Hp Hg. unfold BaseFee. rewrite !fee_delta. unfold TargetGasPerBlock, TargetTxCount, MinBaseFee.
  destruct (g <=? 32768) eqn:E; bsimp.
  - assert (prev * (32768 - g) / 262144 < prev) by (apply Z.div_lt_upper_bound; nia).
    destruct (Z.eq_dec g 32768) as [->|].
    + change (32768 >? 32768) with false. change (32768 <? 32768) with false. cbv iota. ztest.
      rewrite Z.sub_diag, Z.mul_0_r. change (0 / 262144) with 0. lia.
    + repeat ztest; done.
  - assert (0 <= prev * (g - 32768) / 262144) by (apply Z.div_pos; nia). repeat ztest; done.
Qed.

(** The fee rule: the next base fee never falls below 1; it is unchanged at the
    target, falls by at most an eighth below it, rises by at most an eighth up
    to twice the target, and grows with the gas used. *)
Theorem BaseFee_bounds prev g g' :
  1 <= prev -> 0 <= g <= g' ->
  MinBaseFee <= BaseFee (Some prev) g <= BaseFee (Some prev) g' /\
  BaseFee (Some prev) TargetGasPerBlock = prev /\
  (g <= TargetGasPerBlock -> prev - prev / 8 <= BaseFee (Some prev) g <= prev) /\
  (TargetGasPerBlock <= g <= 2 * TargetGasPerBlock -> prev <= BaseFee (Some prev) g <= prev + prev / 8).
Proof.
  intros Hp Hg. rewrite !BaseFee_eq by (unfold TargetGasPerBlock, TargetTxCount; lia).
  unfold TargetGasPerBlock, TargetTxCount, MinBaseFee.
  assert (forall d d', 0 <= d <= d' -> 0 <= prev * d / 262144 <= prev * d' / 262144) as Hmono.
  { intros d d' Hd. split; [apply Z.div_pos; nia|]. apply Z.div_le_mono; nia. }
  assert (prev * 32768 / 262144 = prev / 8) as Heighth.
  { change 262144 with (32768 * 8). rewrite (Z.mul_comm prev), Z.div_mul_cancel_l; lia. }
  assert (prev / 8 < prev) by (apply Z.div_lt_upper_bound; lia).
  pose proof (Z.div_pos prev 8 ltac:(lia) ltac:(lia)).
  change (32768 <=? 32768) with true. cbv iota. rewrite Z.sub_diag, Z.mul_0_r. change (0 / 262144) with 0.
  destruct (g <=? 32768) eqn:E, (g' <=? 32768) eqn:E'; bsimp; try lia.
  - pose proof (Hmono (32768 - g') (32768 - g) ltac:(lia)). pose proof (Hmono (32768 - g) 32768 ltac:(lia)).
    split_and!; try lia. intros Heq. replace g with 32768 by lia. rewrite Z.sub_diag, Z.mul_0_r.
    change (0 / 262144) with 0. lia.
  - pose proof (Hmono (32768 - g) 32768 ltac:(lia)). pose proof (Hmono 0 (g' - 32768) ltac:(lia)) as [? ?].
    split_and!; try lia. intros Heq. replace g with 32768 by lia. rewrite Z.sub_diag, Z.mul_0_r.
    change (0 / 262144) with 0. lia.
  - pose proof (Hmono (g - 32768) (g' - 32768) ltac:(lia)).
    split_and!; try lia. intros Hle. pose proof (Hmono (g - 32768) 32768 ltac:(lia)). lia.
Qed.

(** The fee cannot leave its floor by transactions alone: while it is below 8, a
    block of up to twice the target (the 65536 transactions a block can hold,
    one gas each) leaves it unchanged, because the eighth rounds to zero. *)
Theorem BaseFee_sticky prev g :
  1 <= prev < 8 -> 0 <= g <= 2 * TargetGasPerBlock -> BaseFee (Some prev) g = prev.
Proof.
  intros Hp Hg. rewrite BaseFee_eq by lia. unfold TargetGasPerBlock, TargetTxCount in *.
  destruct (g <=? 32768) eqn:E; bsimp; rewrite Z.div_small by nia; lia.
Qed.

(** ** Fee accounts *)
Section Fees.
Context `{Platform} {B : Type} `{KVLaws B}.
Implicit Types (db : DB B).

Definition shares (es rc sp tb : Z) (i : Z) (bs : list Z) : list Z :=
  imap (fun j b => shareOf es rc sp tb (i + Z.of_nat j) b) bs.

Lemma shares_cons es rc sp tb i b bs :
  shares es rc sp tb i (b :: bs) = shareOf es rc sp tb i b :: shares es rc sp tb (i + 1) bs.
Proof.
  unfold shares. cbn [imap]. f_equal; [f_equal; lia|]. apply imap_ext. intros. simpl. f_equal. lia.
Qed.

Lemma sumBonded_ok bs acc : sumBonded (map Some bs) acc = Ok (acc + sumZ bs).
Proof.
  revert acc. induction bs as [|b bs IH]; intros acc; simpl; [f_equal; lia|].
  rewrite IH. f_equal. lia.
Qed.

Lemma Seed_pair db a z db' u :
  ledger.Seed db a z = (db', Ok u) -> ledger.SeedTx db a z = Ok db'.
Proof.
  unfold ledger.Seed, Update. destruct (ledger.validateUint256 _); try done.
  destruct (ledger.SeedTx db a z); simpl; by intros [= -> _].
Qed.

(** The loop credits every validator its share. *)
Lemma accrueLoop_total es rc sp tb db i vs bs db' u :
  length vs = length bs ->
  accrueLoop es rc sp tb db i vs (map Some bs) = (db', Ok u) ->
  ledger.totalBalance db' = ledger.totalBalance db + sumZ (shares es rc sp tb i bs).
Proof.
  revert db i bs. induction vs as [|v vs IH]; intros db i [|b bs] Hl; try discriminate.
  - intros [= <- _]. unfold shares. simpl. lia.
  - simpl in Hl. injection Hl as Hl. cbn [accrueLoop map]. rewrite shares_cons.
    destruct (ledger.Seed _ _ _) as [db1 [u1|e|]] eqn:E; try done. intros Hrun.
    rewrite (IH _ _ _ Hl Hrun). apply Seed_pair, SeedTx_inv in E as [Hu ->].
    rewrite totalBalance_put by done. simpl. unfold ledger.BalanceOf. lia.
Qed.

(** The first [rc] of [n] indices take one more. *)
Lemma sum_equal es rc i n :
  sumZ (map (fun j => if Z.of_nat j + i <? rc then es + 1 else es) (seq 0 n)) =
  es * Z.of_nat n + Z.max 0 (Z.min (Z.of_nat n) (rc - i)).
Proof.
  induction n as [|n IH]; [simpl; lia|].
  rewrite seq_S, map_app, sumZ_app, IH. simpl map. simpl sumZ.
  destruct (Z.of_nat n + i <? rc) eqn:E; bsimp; lia.
Qed.

Lemma sum_shares es rc sp tb bs i :
  0 <= sp -> Forall (fun b => 0 <= b) bs ->
  sumZ (shares es rc sp tb i bs) =
    sumZ (map (fun j => if Z.of_nat j + i <? rc then es + 1 else es) (seq 0 (length bs))) +
    (if tb >? 0 then sumZ (map (fun b => sp * b / tb) bs) else 0).
Proof.
  intros Hsp Hbs. revert i. induction Hbs as [|b bs Hb Hbs IH]; intros i.
  - unfold shares. simpl. by destruct (tb >? 0).
  - rewrite shares_cons. cbn [length seq map]. rewrite !sumZ_cons, IH, <- seq_shift, map_map.
    assert (map (fun j => if Z.of_nat (S j) + i <? rc then es + 1 else es) (seq 0 (length bs)) =
            map (fun j => if Z.of_nat j + (i + 1) <? rc then es + 1 else es) (seq 0 (length bs))) as ->.
    { apply map_ext. intros j. by replace (Z.of_nat (S j) + i) with (Z.of_nat j + (i + 1)) by lia. }
    unfold shareOf. rewrite Z.add_0_l. destruct (i <? rc), (tb >? 0); lia.
Qed.

(** Proportional shares rounded down lose less than one quantum each. *)
Lemma floors_bound sp tb bs :
  0 <= sp -> 0 < tb -> Forall (fun b => 0 <= b) bs ->
  0 <= sp * sumZ bs - tb * sumZ (map (fun b => sp * b / tb) bs) <= (tb - 1) * zlen bs.
Proof.
  intros Hsp Htb. induction 1 as [|b bs Hb Hbs IH]; [unfold sumZ, zlen; simpl; lia|].
  cbn [map]. rewrite !sumZ_cons, zlen_cons. pose proof (Z.mul_div_le (sp * b) tb Htb).
  pose proof (Z.mul_succ_div_gt (sp * b) tb Htb). lia.
Qed.

(** Fees are distributed, not created: a successful [Accrue] over validators with
    a positive total bond adds to the ledger at most the fees it was given and
    less than one quantum per validator below them (rounding). *)
Theorem Accrue_distributes db fees vs bs db' u :
  Forall (fun b => 0 <= b) bs -> 0 < sumZ bs ->
  Accrue db (Some fees) vs (map Some bs) = (db', Ok u) ->
  fees - zlen vs < ledger.totalBalance db' - ledger.totalBalance db <= fees.
Proof.
  intros Hbs Hpos. unfold Accrue. destruct (fees <? 0) eqn:E1; [done|].
  destruct (negb _) eqn:E2; [done|]. bsimp. unfold zlen in E2. rewrite length_map in E2.
  assert (length vs = length bs) as Hl by lia.
  assert (0 < zlen vs) as Hn.
  { unfold zlen. rewrite Hl. destruct bs; simpl in *; lia. }
  replace (zlen vs =? 0) with false by (symmetry; apply Z.eqb_neq; lia). cbn [orb].
  destruct (fees =? 0) eqn:E3; bsimp; [intros [= <- _]; lia|].
  rewrite sumBonded_ok, Z.add_0_l. intros Hrun. apply accrueLoop_total in Hrun; [|done]. rewrite Hrun. clear Hrun.
  unfold ValidatorSharePct. set (vp := fees * 70 / 100). set (sp := fees - vp).
  assert (0 <= vp <= fees) as Hvp.
  { unfold vp. split; [apply Z.div_pos; lia|]. apply Z.div_le_upper_bound; lia. }
  rewrite sum_shares, sum_equal by (unfold sp; lia || done). ztest. ztest.
  pose proof (floors_bound sp (sumZ bs) bs ltac:(unfold sp; lia) Hpos Hbs) as Hfl.
  pose proof (Z.mod_pos_bound vp (zlen vs) Hn) as Hm. pose proof (Z.div_mod vp (zlen vs) ltac:(lia)) as Hdm.
  set (q := vp / zlen vs) in *. rewrite <- Hl. unfold zlen in *. rewrite <- Hl in Hfl.
  set (n := Z.of_nat (length vs)) in *. set (F := sumZ (map _ bs)) in *. set (T := sumZ bs) in *.
  rewrite (Z.max_r 0), Z.min_r by lia. unfold sp in *. nia.
Qed.

(** Claiming moves everything: a successful claim empties the fee account into
    the validator's account and creates nothing (unless the two addresses
    coincide). *)
Theorem ClaimTx_spec db v db' :
  FeeAccount v <> v -> ClaimTx db v = Ok db' ->
  Claimable db' v = 0 /\ ledger.BalanceOf db' v = ledger.BalanceOf db v + Claimable db v /\
  ledger.totalBalance db' = ledger.totalBalance db.
Proof.
  intros Hne. unfold ClaimTx, Claimable, ledger.BalanceOf, ledger.BalanceOfTx.
  destruct (_ =? 0) eqn:E; bsimp; [intros [= <-]; rewrite E; split_and!; lia|].
  intros Hm. pose proof (MoveTx_conserves _ _ _ _ _ Hne Hm) as Hc.
  apply MoveTx_inv in Hm as (z & b & [= <-] & Hz & Hs & ->). simpl.
  rewrite !(shift_read _ _ _ _ _ _ (proj1 Hz) Hs). repeat case_decide; try done. split_and!; [lia|lia|done].
Qed.
End Fees.
