(* ===== verification/Mint.v ===== *)
(** * core/mint: block rewards, and core/leader: proposer election *)

From S2P Require Import Prelude GoBytes Errors Platform KV Ledger Gas.

Module mint.

Definition TargetStakingRatioPct : Z := 50.
Definition MaxAnnualRatePct : Z := 10.
Definition BlocksPerYear : Z := 5256000.

Definition MintPerBlock (totalSupply totalStaked : option Z) : Z :=
  match totalSupply, totalStaked with
  | Some totalSupply, Some totalStaked =>
    if totalSupply <=? 0 then 0 else
    let targetStaked := totalSupply * TargetStakingRatioPct / 100 in
    if (targetStaked =? 0) || (totalStaked >=? targetStaked) then 0 else
    let deficit := targetStaked - totalStaked in
    let maxPerBlock := totalSupply * MaxAnnualRatePct / 100 / BlocksPerYear in
    maxPerBlock * deficit / targetStaked
  | _, _ => 0
  end.

Definition SplitReward (blockReward : option Z) (validatorCount : Z) : list Z :=
  if validatorCount <=? 0 then [] else
  let n := Z.to_nat validatorCount in
  match blockReward with
  | None => replicate n 0
  | Some blockReward =>
    if blockReward <=? 0 then replicate n 0 else
    let share := blockReward / validatorCount in
    let remainder := blockReward - share * validatorCount in
    match replicate n share with
    | first :: rest => (first + remainder) :: rest
    | [] => []
    end
  end.

Definition Mint `{Platform} {B} `{KV B} (db : DB B) (validator : arr 32) (amount : option Z) : DB B * res unit :=
  match amount with
  | None => (db, Ok tt)
  | Some amount =>
    if amount <=? 0 then (db, Ok tt) else
    let feeAcc := gas.FeeAccount validator in
    let cur := ledger.BalanceOf db feeAcc in
    ledger.Seed db feeAcc (cur + amount)
  end.
End mint.

Module leader.
Section Leader.
Context `{Platform}.

Definition computeSeed (prevStateRoot : arr 32) (blockHeight : Z) : arr 32 :=
  hash.Hash (prevStateRoot ++ put64 blockHeight).

(** Keys in the order of [bytes.Compare]. *)
Definition key_le (a b : arr 32) : Prop := bytes_le a b.
#[local] Instance key_le_dec : RelDecision key_le.
Proof. intros a b. unfold key_le. apply _. Defined.

(** Equal keys are identical, so the sorted slice does not depend on the
    sorting algorithm. *)
Definition sortKeys (l : list (arr 32)) : list (arr 32) := merge_sort key_le l.

Definition SkipProposer (prevStateRoot : arr 32) (blockHeight : Z) (validators : list (arr 32))
    (skipCount : Z) : res (arr 32) :=
  if zlen validators =? 0 then fail ErrEmptyValidatorSet else
  let sorted := sortKeys validators in
  let seed := computeSeed prevStateRoot blockHeight in
  let* base := u64_at seed 0 in
  let n := wrap64 (zlen sorted) in
  let idx := wrap64 (base mod n + skipCount) mod n in
  index sorted idx.

Definition ElectedProposer (prevStateRoot : arr 32) (blockHeight : Z) (validators : list (arr 32)) : res (arr 32) :=
  SkipProposer prevStateRoot blockHeight validators 0.
End Leader.
End leader.

(** * core/mint and core/leader: properties *)

Section Mint.
Import mint.

(** Inflation is bounded: a year of block rewards at constant supply is at most a
    tenth of the supply; no reward is paid once half the supply is staked, and
    staking more never raises the reward. *)
Theorem MintPerBlock_bounds supply staked staked' :
  0 <= supply -> 0 <= staked <= staked' ->
  0 <= MintPerBlock (Some supply) (Some staked') <= MintPerBlock (Some supply) (Some staked) /\
  BlocksPerYear * MintPerBlock (Some supply) (Some staked) <= supply / 10 /\
  (supply <= 2 * staked -> MintPerBlock (Some supply) (Some staked) = 0).
Proof.
  intros Hs Hst. unfold MintPerBlock, TargetStakingRatioPct, MaxAnnualRatePct.
  destruct (supply <=? 0) eqn:E0; bsimp; [assert (0 <= supply / 10) by (apply Z.div_pos; lia); lia|].
  assert (supply * 50 / 100 = supply / 2) as ->.
  { change 100 with (2 * 50). by rewrite Z.div_mul_cancel_r. }
  assert (supply * 10 / 100 = supply / 10) as ->.
  { change 100 with (10 * 10). by rewrite Z.div_mul_cancel_r. }
  set (t := supply / 2). set (m := supply / 10 / BlocksPerYear).
  assert (0 <= t) by (apply Z.div_pos; lia).
  assert (0 <= supply / 10) by (apply Z.div_pos; lia).
  assert (0 <= m) by (apply Z.div_pos; done).
  assert (BlocksPerYear * m <= supply / 10) by (apply Z.mul_div_le; done).
  assert (forall s, 0 <= s < t -> 0 <= m * (t - s) / t <= m) as Hr.
  { intros s Hs'. split; [apply Z.div_pos; nia|]. apply Z.div_le_upper_bound; nia. }
  destruct (t =? 0) eqn:Et; bsimp; cbn [orb]; [unfold BlocksPerYear; lia|].
  destruct (staked >=? t) eqn:E1, (staked' >=? t) eqn:E2; bsimp; try (unfold BlocksPerYear in *; lia).
  - pose proof (Hr staked ltac:(lia)). split_and!; [lia..|unfold BlocksPerYear in *; lia|].
    intros Hle. assert (t <= staked) by (apply Z.div_le_upper_bound; lia). lia.
  - pose proof (Hr staked ltac:(lia)). pose proof (Hr staked' ltac:(lia)).
    assert (m * (t - staked') / t <= m * (t - staked) / t) by (apply Z.div_le_mono; nia).
    split_and!; [lia..|unfold BlocksPerYear in *; lia|].
    intros Hle. assert (t <= staked) by (apply Z.div_le_upper_bound; lia). lia.
Qed.

Lemma MintPerBlock_nonneg supply staked : 0 <= MintPerBlock supply staked.
Proof.
  destruct supply as [s|], staked as [z|]; try done. unfold MintPerBlock.
  destruct (s <=? 0) eqn:E; [done|]. bsimp.
  assert (0 <= s * TargetStakingRatioPct / 100) by (apply Z.div_pos; unfold TargetStakingRatioPct; lia).
  destruct (_ =? 0) eqn:E1; [done|]. destruct (z >=? _) eqn:E2; [done|]. bsimp. cbn [orb].
  assert (0 <= s * MaxAnnualRatePct / 100 / BlocksPerYear).
  { apply Z.div_pos; [apply Z.div_pos; unfold MaxAnnualRatePct; lia|done]. }
  apply Z.div_pos; nia.
Qed.

Lemma SplitReward_total reward n : sumZ (SplitReward (Some reward) n) = if n <=? 0 then 0 else Z.max 0 reward.
Proof.
  unfold SplitReward. destruct (n <=? 0) eqn:E; bsimp; [done|].
  destruct (reward <=? 0) eqn:E1; bsimp; [rewrite sumZ_replicate; lia|].
  destruct (Z.to_nat n) as [|k] eqn:Ek; [lia|]. cbn [replicate]. rewrite sumZ_cons, sumZ_replicate.
  pose proof (Z.div_mod reward n ltac:(lia)). nia.
Qed.

Lemma SplitReward_nonneg reward n : Forall (fun share => 0 <= share) (SplitReward reward n).
Proof.
  unfold SplitReward. destruct (n <=? 0) eqn:E; bsimp; [constructor|].
  destruct reward as [reward|]; [|by apply Forall_replicate]. destruct (reward <=? 0) eqn:E1; bsimp; [by apply Forall_replicate|].
  pose proof (Z.div_pos reward n ltac:(lia) ltac:(lia)). pose proof (Z.mul_div_le reward n ltac:(lia)).
  destruct (Z.to_nat n) as [|k]; [constructor|]. cbn [replicate]. constructor; [lia|by apply Forall_replicate].
Qed.

Lemma SplitReward_length reward n : 0 <= n -> zlen (SplitReward (Some reward) n) = n.
Proof.
  intros Hn. unfold SplitReward, zlen. destruct (n <=? 0) eqn:E; bsimp; [simpl; lia|].
  destruct (reward <=? 0); [rewrite length_replicate; lia|].
  destruct (Z.to_nat n) as [|k] eqn:Ek; [lia|]. cbn [replicate length]. rewrite length_replicate. lia.
Qed.

(** A block reward is split without loss: one share per validator, the shares sum
    to the reward, none is negative, and the first is at most the number of
    validators above the others. *)
Theorem SplitReward_sum reward n :
  0 < n ->
  let shares := SplitReward (Some reward) n in
  zlen shares = n /\ sumZ shares = Z.max 0 reward /\ Forall (fun s => 0 <= s) shares /\
  forall s0 rest, shares = s0 :: rest -> Forall (fun s => s <= s0 < s + n) rest.
Proof.
  intros Hn. cbv zeta. unfold SplitReward. ztest. destruct (reward <=? 0) eqn:E; bsimp.
  - unfold zlen. rewrite length_replicate, Z2Nat.id, sumZ_replicate by lia. split_and!; [lia..| |].
    + by apply Forall_replicate.
    + intros s0 rest Heq. destruct (Z.to_nat n); [done|]. injection Heq as <- <-.
      apply Forall_replicate. lia.
  - destruct (Z.to_nat n) as [|k] eqn:Ek; [lia|]. simpl. unfold zlen. cbn [length].
    rewrite length_replicate, sumZ_replicate. assert (Z.of_nat k = n - 1) as -> by lia.
    pose proof (Z.mod_pos_bound reward n Hn). pose proof (Z.div_mod reward n ltac:(lia)).
    assert (0 <= reward / n) by (apply Z.div_pos; lia). split_and!; [lia|nia| |].
    + constructor; [nia|]. by apply Forall_replicate.
    + intros s0 rest [= <- <-]. apply Forall_replicate. nia.
Qed.
End Mint.

Section LeaderProofs.
Import leader.
Context `{Platform}.

#[local] Instance key_le_total : Total key_le.
Proof. intros a b. apply (total bytes_le). Qed.
#[local] Instance key_le_trans : Transitive key_le.
Proof. intros a b c. unfold key_le. by etrans. Qed.
#[local] Instance key_le_antisymm : AntiSymm (=) key_le.
Proof. intros a b Hab Hba. by apply arr_eq, (anti_symm bytes_le). Qed.

Lemma sortKeys_perm l : sortKeys l ≡ₚ l.
Proof. apply merge_sort_Permutation. Qed.

(** The sorted slice depends only on the set of keys. *)
Lemma sortKeys_unique l l' : l ≡ₚ l' -> sortKeys l = sortKeys l'.
Proof.
  intros Hp. apply (StronglySorted_unique key_le); try apply StronglySorted_merge_sort; try apply _.
  by rewrite !sortKeys_perm.
Qed.

Definition seedBase (root : arr 32) (h : Z) : Z := be_dec (take 8 (computeSeed root h)).

Lemma seedBase_u64 root h : u64_at (E := error) (computeSeed root h) 0 = Ok (seedBase root h) /\ 0 <= seedBase root h.
Proof.
  unfold seedBase. split; [|apply be_dec_range]. unfold u64_at, be_at.
  assert (zlen (arr_bytes (computeSeed root h)) = 32) as Hl by apply zlen_arr.
  rewrite slice_ok by lia. done.
Qed.

(** The proposer is the entry of the sorted set at (base + skip) mod n. *)
Lemma SkipProposer_index root h vs k :
  vs <> [] -> zlen vs < two63 -> is_u32 k ->
  exists p, SkipProposer root h vs k = Ok p /\
    sortKeys vs !! Z.to_nat ((seedBase root h + k) mod zlen vs) = Some p.
Proof.
  intros Hne Hlen Hk. unfold SkipProposer.
  assert (0 < zlen vs) as Hn by (destruct vs; [done|]; rewrite zlen_cons; pose proof (zlen_nonneg vs); lia).
  ztest. destruct (seedBase_u64 root h) as [-> Hb]. cbn [obind].
  assert (zlen (sortKeys vs) = zlen vs) as Hsl by (unfold zlen; by rewrite sortKeys_perm).
  rewrite Hsl. unfold wrap64, two64, two63, is_u32, two32 in *. rewrite (Z.mod_small (zlen vs)) by lia.
  pose proof (Z.mod_pos_bound (seedBase root h) (zlen vs) Hn).
  rewrite (Z.mod_small (_ + k)) by lia. rewrite Zplus_mod_idemp_l.
  pose proof (Z.mod_pos_bound (seedBase root h + k) (zlen vs) Hn). unfold index. ztest.
  destruct (lookup_lt_is_Some_2 (sortKeys vs) (Z.to_nat ((seedBase root h + k) mod zlen vs))) as [p Hp].
  { unfold zlen in *. lia. }
  rewrite Hp. eauto.
Qed.

(** Election: with a nonempty validator set the proposer is always one of the
    validators, and every permutation of the set elects the same one; only an
    empty set is an error. *)
Theorem SkipProposer_elects root h vs k :
  zlen vs < two63 -> is_u32 k ->
  match SkipProposer root h vs k with
  | Ok p => p ∈ vs
  | Err e => e = RGError ErrEmptyValidatorSet /\ vs = []
  | Panic => False
  end /\
  forall vs', vs ≡ₚ vs' -> SkipProposer root h vs' k = SkipProposer root h vs k.
Proof.
  intros Hlen Hk. split.
  - destruct (decide (vs = [])) as [->|Hne]; [done|].
    destruct (SkipProposer_index root h vs k Hne Hlen Hk) as (p & -> & Hp).
    apply list_elem_of_lookup_2 in Hp. by rewrite sortKeys_perm in Hp.
  - intros vs' Hp. unfold SkipProposer.
    assert (zlen vs' = zlen vs) as -> by (unfold zlen; by rewrite Hp).
    by rewrite (sortKeys_unique vs vs').
Qed.

(** Fairness of skipping: over the n consecutive skip counts 0 .. n-1 every
    validator of an n-element set is the proposer exactly once. *)
Theorem SkipProposer_rotates root h vs :
  vs <> [] -> zlen vs < two32 ->
  exists ps, mapM (fun k => SkipProposer root h vs (Z.of_nat k)) (seq 0 (length vs)) = Ok ps /\ ps ≡ₚ vs.
Proof.
  intros Hne Hlen. set (b := Z.to_nat (seedBase root h)).
  exists (rotate b (sortKeys vs)). split.
  - apply mapM_Forall2, Forall2_same_length_lookup.
    rewrite length_rotate, length_seq, sortKeys_perm. split; [done|].
    intros i k p [-> Hk]%lookup_seq Hp. cbn [Nat.add].
    assert (zlen (sortKeys vs) = zlen vs) as Hsl by (unfold zlen; by rewrite sortKeys_perm).
    destruct (SkipProposer_index root h vs (Z.of_nat i)) as (p' & -> & Hp');
      [done|unfold two32, two63 in *; lia|unfold is_u32, zlen in *; lia|].
    rewrite lookup_rotate_r in Hp by (rewrite sortKeys_perm; done).
    unfold rotate_nat_add in Hp. unfold zlen in Hsl. rewrite Hsl in Hp. unfold b in Hp.
    rewrite Z2Nat.id in Hp by apply seedBase_u64. unfold zlen in Hp'. congruence.
  - unfold rotate. rewrite (Permutation_app_comm (drop _ _)), take_drop. apply sortKeys_perm.
Qed.
End LeaderProofs.
