(* ===== verification/Node.v ===== *)
(** * core/node: the nodes of the state tree

    Byte arrays are kept as the code has them; [Uint256ToBytes] panics on a
    value of more than 32 bytes, as the slice expression in it does. *)

From S2P Require Import Prelude GoBytes Errors Platform.

Module node.

Definition SigAtomic : Z := 1.
Definition SigNullPad : Z := 2.
Definition SigStagnantState : Z := 3.
Definition SigLaminarFlow : Z := 4.
Definition SigVolatileShock : Z := 5.
Definition SigContract : Z := 6.

Record RGNode : Type := mkRGNode
  { Scale : Z;
    Volume : arr 32;
    Variance : arr 32;
    Sig : Z;
    Children : list (arr 32);
    SumSquares : arr 32;
    Count : Z;
    ContractCount : Z }.

Definition Uint256ToBytes (v : option Z) : res (arr 32) :=
  match v with
  | None => Ok (zero_arr 32)
  | Some z => let* b := put_big 32 z in Ok (mk_arr 32 b)
  end.

Definition BytesToUint256 (b : arr 32) : Z := big_SetBytes b.

Section Node.
Context `{Platform}.

Definition nullPadChildRoot : arr 32 := hash.Hash hash.DomainNullPad.
Definition emptyBlockChildRoot : arr 32 := hash.Hash hash.DomainEmptyBlock.

Definition Serialize (n : RGNode) : res bytes :=
  if negb (hash.ValidScale (Scale n)) then fail ErrScaleDomainFault else
  let expectedChildren := if Scale n =? 1 then 1 else 4 in
  if negb (zlen (Children n) =? expectedChildren) then fail ErrInvalidChildArity else
  let v := BytesToUint256 (Volume n) in
  if (v <? 0) || (v >? hash.UINT256_MAX) then fail ErrArithmeticOverflow else
  let vr := BytesToUint256 (Variance n) in
  if (vr <? 0) || (vr >? hash.UINT256_MAX) then fail ErrArithmeticOverflow else
  Ok (hash.DomainRGNode ++ put32 (Scale n) ++ Volume n ++ Variance n ++ [byte_of_Z (Sig n)] ++
      put16 (zlen (Children n)) ++ concat (map arr_bytes (Children n))).

Definition Root (n : RGNode) : res (arr 32) :=
  let* serialized := Serialize n in
  Ok (hash.Hash serialized).

(** The recursion divides the scale by 4 down to 1; the largest valid scale is
    4^8, so nine calls are enough ([NullNode_fuel] below). *)
Fixpoint NullNode_rec (fuel : nat) (scale : Z) : res RGNode :=
  match fuel with
  | O => Panic
  | S fuel =>
    if negb (hash.ValidScale scale) then fail ErrScaleDomainFault else
    if scale =? 1 then
      Ok (mkRGNode 1 (zero_arr 32) (zero_arr 32) SigNullPad [nullPadChildRoot] (zero_arr 32) 0 0)
    else
      let* childNull := NullNode_rec fuel (scale / 4) in
      let* childRoot := Root childNull in
      Ok (mkRGNode scale (zero_arr 32) (zero_arr 32) SigNullPad (replicate 4 childRoot) (zero_arr 32) 0 0)
  end.

Definition NullNode (scale : Z) : res RGNode := NullNode_rec 9 scale.

Definition EmptyBlockRoot : res (arr 32) :=
  let n := mkRGNode 1 (zero_arr 32) (zero_arr 32) SigStagnantState [emptyBlockChildRoot] (zero_arr 32) 0 0 in
  match Root n with
  | Ok root => Ok root
  | Err _ => Ok (zero_arr 32)
  | Panic => Panic
  end.

Definition isNullPadNode (n : RGNode) : bool :=
  if zlen (Children n) =? 0 then false else
  if negb (BytesToUint256 (Volume n) =? 0) then false else
  if negb (BytesToUint256 (Variance n) =? 0) then false else
  if negb (Count n =? 0) then false else
  if Scale n =? 1 then bool_decide (Children n = [nullPadChildRoot]) else
  match (let* childNull := NullNode (Scale n / 4) in Root childNull) with
  | Ok childRoot => forallb (fun ch => bool_decide (ch = childRoot)) (Children n)
  | _ => false
  end.

Definition isEmptyBlockNode (n : RGNode) : bool :=
  match Children n with
  | [ch] => bool_decide (ch = emptyBlockChildRoot) && (BytesToUint256 (Volume n) =? 0) &&
            (BytesToUint256 (Variance n) =? 0)
  | _ => false
  end.

Definition deriveSignature (n : RGNode) : Z :=
  if isNullPadNode n then SigNullPad else
  if Scale n =? 1 then (if isEmptyBlockNode n then SigStagnantState else SigAtomic) else
  let volume := BytesToUint256 (Volume n) in
  let variance := BytesToUint256 (Variance n) in
  if (volume =? 0) && (variance =? 0) then SigStagnantState else
  if (ContractCount n =? Count n) && (Count n >? 0) && (volume >? 0) then SigContract else
  if variance =? 0 then SigLaminarFlow else
  if Count n >? 0 then
    let mean := volume / Count n in
    let threshold := mean * mean * 4 in
    if variance >? threshold then SigVolatileShock else SigLaminarFlow
  else SigLaminarFlow.

Definition DeriveSignature (n : RGNode) : Z := deriveSignature n.

Definition RecomputeSig (n : RGNode) : res Z :=
  let computed := deriveSignature n in
  if negb (computed =? Sig n) then fail ErrSignatureMisrepresentation else Ok computed.
End Node.
End node.
