(* ===== verification/Tree.v ===== *)
(** * core/tree: the 4-ary state tree, its incremental update and inclusion proofs *)

From S2P Require Import Prelude GoBytes Errors Platform Tx Node.

Module tree.
Import node.

Definition K : nat := 4.
Definition TMax : Z := 65536.

Record Block : Type := mkBlock { Height : Z; Txs : list tx.Tx }.

Record LeafUpdate : Type := mkLeafUpdate { Index : Z; Tx_ : tx.Tx }.

(** Every layer from the leaves up; the last one has one node. *)
Record Tree : Type := mkTree
  { layers : list (list RGNode);
    root : arr 32;
    dirty : bool }.

Record ProofStep : Type := mkProofStep
  { PScale : Z;
    PVolume : arr 32;
    PVariance : arr 32;
    PSig : Z;
    Siblings : list (arr 32);   (* a Go array of three *)
    ChildIdx : Z }.

(** A Go array of three digests. *)
Definition siblings3 (l : list (arr 32)) : Prop := length l = 3%nat.

Section Tree.
Context `{Platform}.

(** ** Building *)
Definition makeAtomicNode (t : tx.Tx) : res RGNode :=
  let* txID := tx.ID t in
  match tx.Value t with
  | None => Panic
  | Some value =>
    let sumSquares := value * value in
    if (sumSquares <? 0) || (sumSquares >? hash.UINT256_MAX) then fail ErrArithmeticOverflow else
    let* vol := Uint256ToBytes (Some value) in
    let* sq := Uint256ToBytes (Some sumSquares) in
    let contractCount :=
      if (tx.Type_ t =? tx.TxTypeContractDeploy) || (tx.Type_ t =? tx.TxTypeContractCall) then 1 else 0 in
    Ok (mkRGNode 1 vol (zero_arr 32) SigAtomic [txID] sq 1 contractCount)
  end.

Definition atomicLayer (txs : list tx.Tx) : res (list RGNode) := mapM makeAtomicNode txs.

Record sums : Type := mkSums
  { sumValues : Z; sumSq : Z; count : Z; contractCount : Z; children : list (arr 32) }.

(** One child of the coarse-graining loop. *)
Definition coarseStep (s : sums) (child : RGNode) : res sums :=
  let* childRoot := Root child in
  let sv := sumValues s + big_SetBytes (Volume child) in
  if (sv <? 0) || (sv >? hash.UINT256_MAX) then fail ErrArithmeticOverflow else
  let sq := sumSq s + big_SetBytes (SumSquares child) in
  if (sq <? 0) || (sq >? hash.UINT256_MAX) then fail ErrArithmeticOverflow else
  Ok (mkSums sv sq (wrap64 (count s + Count child)) (wrap64 (contractCount s + ContractCount child))
             (children s ++ [childRoot])).

Definition varianceOf (sumValues sumSquares count : Z) : Z :=
  if count >? 0 then
    let secondMoment := sumSquares / count in
    let mean := sumValues / count in
    let variance := secondMoment - mean * mean in
    if variance <? 0 then 0 else variance
  else 0.

Definition coarseGrain (chunk : list RGNode) (parentScale : Z) : res RGNode :=
  let* s := foldM coarseStep (mkSums 0 0 0 0 []) chunk in
  let variance := varianceOf (sumValues s) (sumSq s) (count s) in
  let* vol := Uint256ToBytes (Some (sumValues s)) in
  let* var := Uint256ToBytes (Some variance) in
  let* sq := Uint256ToBytes (Some (sumSq s)) in
  let parent := mkRGNode parentScale vol var 0 (children s) sq (count s) (contractCount s) in
  let parent := mkRGNode parentScale vol var (DeriveSignature parent) (children s) sq (count s) (contractCount s) in
  let* _ := RecomputeSig parent in
  Ok parent.

(** Fill a chunk with null nodes to [K]. *)
Fixpoint padChunk (n : nat) (chunk : list RGNode) (scale : Z) : res (list RGNode) :=
  match n with
  | O => Ok chunk
  | S n => let* nn := NullNode scale in padChunk n (chunk ++ [nn]) scale
  end.

(** Check the padded slots, which are those after the first [have]. *)
Definition checkSlot (chunk : list RGNode) (have : nat) (scale : Z) (slot : nat) : res unit :=
  if Nat.ltb slot have then Ok tt else
  let* expectedNull := NullNode scale in
  let* expectedRoot := Root expectedNull in
  let* child := index chunk (Z.of_nat slot) in
  let* actualRoot := Root child in
  if bool_decide (actualRoot <> expectedRoot) then fail ErrPaddingSubstitutionFraud else Ok tt.

Definition checkPadding (chunk : list RGNode) (have : nat) (scale : Z) : res unit :=
  foldM (fun _ slot => checkSlot chunk have scale slot) tt (seq 0 K).

(** The padding mask of a chunk of [have] nodes: bit j for each missing slot j. *)
Definition paddingMask (have : nat) : Z :=
  foldl (fun m p => Z.lor m (Z.shiftl 1 (Z.of_nat (have + p)))) 0 (seq 0 (K - have)).

Definition coarsenChunk (chunk : list RGNode) (scale parentScale : Z) : res RGNode :=
  if paddingMask (length chunk) >=? 2 ^ Z.of_nat K then fail ErrMaskOutOfBounds else
  let* padded := padChunk (K - length chunk) chunk scale in
  let* _ := checkPadding padded (length chunk) scale in
  coarseGrain padded parentScale.

(** The loop over the chunks of a layer: each turn takes [K] nodes, so the
    length of the layer is enough fuel. *)
Fixpoint coarsenLoop (fuel : nat) (layer : list RGNode) (scale parentScale : Z) : res (list RGNode) :=
  match layer with
  | [] => Ok []
  | _ =>
    match fuel with
    | O => Panic
    | S fuel =>
      let* parent := coarsenChunk (take K layer) scale parentScale in
      let* rest := coarsenLoop fuel (drop K layer) scale parentScale in
      Ok (parent :: rest)
    end
  end.

Definition coarsenLayer (layer : list RGNode) : res (list RGNode) :=
  let* first := index layer 0 in
  let parentScale := wrap32 (Scale first * Z.of_nat K) in
  if negb (hash.ValidScale parentScale) then fail ErrScaleDomainFault else
  coarsenLoop (length layer) layer (Scale first) parentScale.

(** The layers above [current].  A layer of more than one node shrinks, so its
    length is enough fuel. *)
Fixpoint coarsenAll (fuel : nat) (current : list RGNode) : res (list (list RGNode)) :=
  if zlen current >? 1 then
    match fuel with
    | O => Panic
    | S fuel =>
      let* next := coarsenLayer current in
      let* rest := coarsenAll fuel next in
      Ok (current :: rest)
    end
  else Ok [current].

Definition BuildTree (txs : list tx.Tx) (contractNodes : list RGNode) : res Tree :=
  if (zlen txs =? 0) && (zlen contractNodes =? 0) then
    let* r := EmptyBlockRoot in Ok (mkTree [[]] r false)
  else
  if zlen txs >? TMax then fail ErrDosSizeExceeded else
  let* txLayer := atomicLayer txs in
  let layer := txLayer ++ contractNodes in
  let* ls := coarsenAll (length layer) layer in
  let* top := index (default [] (last ls)) 0 in
  let* r := Root top in
  Ok (mkTree ls r false).

(** The second component is the tree after the cached root was refreshed. *)
Definition TreeRoot (t : Tree) : res (arr 32 * Tree) :=
  if dirty t then
    let* top := index (layers t) (zlen (layers t) - 1) in
    let* n := index top 0 in
    match Root n with
    | Ok r => Ok (r, mkTree (layers t) r false)
    | Err _ => Ok (root t, t)
    | Panic => Panic
    end
  else Ok (root t, t).

Definition BuildTreeRoot (txs : list tx.Tx) (contractNodes : list RGNode) : res (arr 32) :=
  let* t := BuildTree txs contractNodes in
  let* '(r, _) := TreeRoot t in
  Ok r.

Definition BuildRoot (b : Block) : res (arr 32) := BuildTreeRoot (Txs b) [].

Definition AtomicLayer (txs : list tx.Tx) : res (list RGNode) := atomicLayer txs.
Definition CoarsenLayer (layer : list RGNode) : res (list RGNode) := coarsenLayer layer.

(** ** Incremental update *)
Definition rebuildChunk (layer : list RGNode) (chunkStart : Z) : res RGNode :=
  let e := chunkStart + Z.of_nat K in
  let e := if e >? zlen layer then zlen layer else e in
  let* chunk := slice layer chunkStart e in
  let* chunk :=
    (if Nat.ltb (length chunk) K
     then let* first := index layer 0 in padChunk (K - length chunk) chunk (Scale first)
     else Ok chunk) in
  let* first := index layer 0 in
  let parentScale := wrap32 (Scale first * Z.of_nat K) in
  coarseGrain chunk parentScale.

(** The updates in index order, the last one of each index.  Go's [sort.Slice]
    is not stable: which of two updates of one index comes last is settled here
    in favour of the later one, and what is proved of updates asks for distinct
    indices, where there is nothing to settle. *)
Fixpoint insertUpdate (u : LeafUpdate) (l : list LeafUpdate) : list LeafUpdate :=
  match l with
  | [] => [u]
  | v :: r =>
      if Index u <? Index v then u :: l else
      if Index u =? Index v then u :: r else v :: insertUpdate u r
  end.
Definition dedupe (updates : list LeafUpdate) : list LeafUpdate :=
  foldl (fun l u => insertUpdate u l) [] updates.

(** Replace the leaves one after the other; on an error the leaves already
    replaced stay replaced. *)
Fixpoint replaceLeaves (leafLayer : list RGNode) (us : list LeafUpdate) : list RGNode * res unit :=
  match us with
  | [] => (leafLayer, Ok tt)
  | u :: us =>
    if (Index u <? 0) || (Index u >=? zlen leafLayer) then (leafLayer, fail ErrCanonicalEncodingDistortion) else
    match leafLayer !! Z.to_nat (Index u) with
    | None => (leafLayer, Panic)
    | Some leaf =>
      if negb (Sig leaf =? SigAtomic) then (leafLayer, fail ErrCanonicalEncodingDistortion) else
      match makeAtomicNode (Tx_ u) with
      | Ok newNode => replaceLeaves (<[Z.to_nat (Index u) := newNode]> leafLayer) us
      | Err e => (leafLayer, Err e)
      | Panic => (leafLayer, Panic)
      end
    end
  end.

(** Rebuild the dirty parents of a level into the layer above.  The positions
    are distinct and each rebuild reads only the level below, so the order in
    which Go's map iteration visits them does not matter for the result. *)
Fixpoint rebuildParents (below above : list RGNode) (parents : list Z) : list RGNode * res unit :=
  match parents with
  | [] => (above, Ok tt)
  | p :: ps =>
    match rebuildChunk below (p * Z.of_nat K) with
    | Err e => (above, Err e)
    | Panic => (above, Panic)
    | Ok newNode =>
      if (p <? 0) || (p >=? zlen above) then (above, Panic) else
      rebuildParents below (<[Z.to_nat p := newNode]> above) ps
    end
  end.

Definition parentsOf (positions : list Z) : list Z :=
  remove_dups (map (fun p => Z.quot p (Z.of_nat K)) positions).

Fixpoint rebuildLevels (below : list RGNode) (aboves : list (list RGNode)) (positions : list Z) :
    list (list RGNode) * res unit :=
  match aboves with
  | [] => ([below], Ok tt)
  | above :: rest =>
    let parents := parentsOf positions in
    match rebuildParents below above parents with
    | (above', Ok _) =>
        let '(ls, r) := rebuildLevels above' rest parents in (below :: ls, r)
    | (above', e) => (below :: above' :: rest, e)
    end
  end.

Definition UpdateLeaves (t : Tree) (updates : list LeafUpdate) : Tree * res unit :=
  match updates with
  | [] => (t, Ok tt)
  | _ =>
    let sorted := dedupe updates in
    match layers t with
    | [] => (t, Panic)
    | leafLayer :: aboves =>
      match replaceLeaves leafLayer sorted with
      | (leafLayer', Ok _) =>
          match rebuildLevels leafLayer' aboves (map Index sorted) with
          | (ls, Ok _) => (mkTree ls (root t) true, Ok tt)
          | (ls, e) => (mkTree ls (root t) (dirty t), e)
          end
      | (leafLayer', e) => (mkTree (leafLayer' :: aboves) (root t) (dirty t), e)
      end
    end
  end.

Definition UpdateLeaf (t : Tree) (i : Z) (newTx : tx.Tx) : Tree * res unit :=
  UpdateLeaves t [mkLeafUpdate i newTx].

Definition Layer (t : Tree) (level : Z) : res (list RGNode) := index (layers t) level.
Definition LayerCount (t : Tree) : Z := zlen (layers t).
End Tree.
End tree.
