(* ===== verification/Inclusion.v ===== *)
(** * core/tree: inclusion proofs and tree queries *)

From S2P Require Import Prelude GoBytes Errors Platform Tx Node Tree Float64.

Module inclusion.
Import node tree.

Section Inclusion.
Context `{Platform}.

(** The roots of the other nodes of the chunk of [idx], in order. *)
Definition collectSiblings (layer : list RGNode) (idx chunkStart : Z) : res (list (arr 32)) :=
  foldM (fun sibs j =>
    let j := chunkStart + Z.of_nat j in
    if negb (j <? zlen layer) then Ok sibs else
    if j =? idx then Ok sibs else
    let* n := index layer j in
    let* r := Root n in
    Ok (sibs ++ [r])) [] (seq 0 K).

(** Fill up to three with null roots. *)
Fixpoint fillSiblings (n : nat) (sibs : list (arr 32)) (layer : list RGNode) : res (list (arr 32)) :=
  match n with
  | O => Ok sibs
  | S n =>
    let* first := index layer 0 in
    let* nn := NullNode (Scale first) in
    let* r := Root nn in
    fillSiblings n (sibs ++ [r]) layer
  end.

(** The three siblings of [idx] in its chunk. *)
Definition stepSiblings (layer : list RGNode) (idx : Z) : res (list (arr 32)) :=
  let* sibs := collectSiblings layer idx (Z.quot idx (Z.of_nat K) * Z.of_nat K) in
  fillSiblings (3 - length sibs) sibs layer.

(** The step from the chunk of [idx] to its parent. *)
Definition makeStep (sibs : list (arr 32)) (nextLayer : list RGNode) (idx : Z) : res ProofStep :=
  let chunkIdx := Z.quot idx (Z.of_nat K) in
  let childPos := wrap8 (idx - chunkIdx * Z.of_nat K) in
  let* parent := index nextLayer chunkIdx in
  Ok (mkProofStep (Scale parent) (Volume parent) (Variance parent) (Sig parent) sibs childPos).

Definition leafStep (leaf : RGNode) : ProofStep :=
  mkProofStep (Scale leaf) (Volume leaf) (Variance leaf) (Sig leaf) (replicate 3 (zero_arr 32)) 0.

(** The package-level generator coarsens as it goes.  The siblings are
    collected before the layer is coarsened; a layer of more than one node
    shrinks, so its length is enough fuel. *)
Fixpoint stepLoop (fuel : nat) (layer : list RGNode) (idx : Z) : res (list ProofStep) :=
  if zlen layer >? 1 then
    match fuel with
    | O => Panic
    | S fuel =>
      let* sibs := stepSiblings layer idx in
      let* nextLayer := coarsenLayer layer in
      let* step := makeStep sibs nextLayer idx in
      let* rest := stepLoop fuel nextLayer (Z.quot idx (Z.of_nat K)) in
      Ok (step :: rest)
    end
  else Ok [].

Definition generateStepProof (txs : list tx.Tx) (idx : Z) : res (list ProofStep) :=
  if (idx <? 0) || (idx >=? zlen txs) then fail ErrCanonicalEncodingDistortion else
  let* layer := atomicLayer txs in
  let* leaf := index layer idx in
  let* steps := stepLoop (length layer) layer idx in
  Ok (leafStep leaf :: steps).

Definition GenerateProof (txs : list tx.Tx) (idx : Z) : res (list ProofStep) := generateStepProof txs idx.

(** The method of a retained tree reads its layers. *)
Fixpoint layerLoop (ls : list (list RGNode)) (idx : Z) : res (list ProofStep) :=
  match ls with
  | layer :: ((nextLayer :: _) as rest) =>
    let* sibs := stepSiblings layer idx in
    let* step := makeStep sibs nextLayer idx in
    let* steps := layerLoop rest (Z.quot idx (Z.of_nat K)) in
    Ok (step :: steps)
  | _ => Ok []
  end.

Definition TreeGenerateProof (t : Tree) (idx : Z) : res (list ProofStep) :=
  let* leafLayer := index (layers t) 0 in
  if (idx <? 0) || (idx >=? zlen leafLayer) then fail ErrCanonicalEncodingDistortion else
  let* leaf := index leafLayer idx in
  let* steps := layerLoop (layers t) idx in
  Ok (leafStep leaf :: steps).

(** ** Verification *)

(** The children of a step as the canonical verifier lays them out; a child
    index above 3 leaves the running digest out and the last slot zero. *)
Definition canonicalChildren (step : ProofStep) (current : arr 32) : list (arr 32) :=
  fst (foldl (fun '(cs, sibIdx) j =>
    if Z.of_nat j =? ChildIdx step then (cs ++ [current], sibIdx) else
    if Nat.ltb sibIdx 3 then (cs ++ [default (zero_arr 32) (Siblings step !! sibIdx)], S sibIdx)
    else (cs ++ [zero_arr 32], sibIdx)) ([], 0%nat) (seq 0 4)).

Definition stepNode (step : ProofStep) (cs : list (arr 32)) : RGNode :=
  mkRGNode (PScale step) (PVolume step) (PVariance step) (PSig step) cs (zero_arr 32) 0 0.

Definition canonicalStep (current : arr 32) (step : ProofStep) : res (arr 32) :=
  Root (stepNode step (canonicalChildren step current)).

(** An error of [Root] makes the proof invalid. *)
Definition falseOnError (r : res bool) : res bool :=
  match r with
  | Err _ => Ok false
  | _ => r
  end.

Definition verifyProofCanonical (p : option (list ProofStep)) (txID expectedRoot : arr 32) : res bool :=
  match p with
  | None => Ok false
  | Some [] => Ok false
  | Some (leaf :: steps) =>
    if negb (PScale leaf =? 1) then Ok false else
    falseOnError (
      let* current := Root (mkRGNode 1 (PVolume leaf) (PVariance leaf) (PSig leaf) [txID] (zero_arr 32) 0 0) in
      let* current := foldM canonicalStep current steps in
      Ok (bool_decide (current = expectedRoot)))
  end.

Definition VerifyProofCanonical (p : option (list ProofStep)) (txID expectedRoot : arr 32) : res bool :=
  verifyProofCanonical p txID expectedRoot.

(** The compact verifier writes the serialization into one buffer, every byte
    of which it overwrites before hashing. *)
Definition nodeBytes (scale : Z) (vol var : arr 32) (sig n : Z) (cs : list (arr 32)) : bytes :=
  hash.DomainRGNode ++ put32 scale ++ vol ++ var ++ [byte_of_Z sig] ++ put16 n ++ concat (map arr_bytes cs).

Definition compactChildren (step : ProofStep) (current : arr 32) : res (list (arr 32)) :=
  mapM (fun j : nat =>
    let j := Z.of_nat j in
    if j =? ChildIdx step then Ok current else
    let sibIdx := if j >? ChildIdx step then j - 1 else j in
    index (Siblings step) sibIdx) (seq 0 4).

Definition compactStep (current : arr 32) (step : ProofStep) : res (arr 32) :=
  let* cs := compactChildren step current in
  Ok (sha256_Sum256 (nodeBytes (PScale step) (PVolume step) (PVariance step) (PSig step) 4 cs)).

Definition VerifyProof (p : option (list ProofStep)) (txID expectedRoot : arr 32) : res bool :=
  match p with
  | None => Ok false
  | Some [] => Ok false
  | Some (leaf :: steps) =>
    if negb (PScale leaf =? 1) then Ok false else
    let current := sha256_Sum256 (nodeBytes 1 (PVolume leaf) (PVariance leaf) (PSig leaf) 1 [txID]) in
    let* current := foldM compactStep current steps in
    Ok (bool_decide (current = expectedRoot))
  end.
End Inclusion.

(** ** Queries *)
Definition ScaleAt (t : Tree) (level : Z) : res Z :=
  let* l := index (layers t) level in
  let* n := index l 0 in
  Ok (Scale n).

Definition NodeCount (t : Tree) (level : Z) : res Z :=
  let* l := index (layers t) level in Ok (zlen l).

Definition SignatureCount (t : Tree) (level sig : Z) : res Z :=
  let* l := index (layers t) level in
  Ok (foldl (fun count n => if Sig n =? sig then count + 1 else count) 0 l).

Definition SignatureHistogram (t : Tree) (level : Z) : res (gmap Z Z) :=
  let* l := index (layers t) level in
  Ok (foldl (fun (h : gmap Z Z) n => <[Sig n := default 0 (h !! Sig n) + 1]> h) ∅ l).

Definition FindNodes (t : Tree) (level : Z) (predicate : RGNode -> bool) : res (list Z) :=
  let* l := index (layers t) level in
  Ok (map fst (filter (fun p => predicate (snd p) = true) (imap (fun i n => (Z.of_nat i, n)) l))).

Definition ContractDensity (t : Tree) (level : Z) : res (Z * Z * float64.t) :=
  let* l := index (layers t) level in
  let '(nodes, contractNodes) := foldl (fun '(nodes, contractNodes) n =>
    if Count n >? 0 then (nodes + 1, contractNodes + ContractCount n) else (nodes, contractNodes)) (0, 0) l in
  let ratio := if nodes >? 0 then float64.div (float64.of_int contractNodes) (float64.of_int nodes) else float64.zero in
  Ok (nodes, contractNodes, ratio).

Record LevelDiff : Type := mkLevelDiff
  { Level : Z; DScale : Z; SigChanges : Z; TotalNodes : Z; AddedNodes : Z; RemovedNodes : Z }.

Definition levelDiff (level : Z) (la lb : list RGNode) : res LevelDiff :=
  let* first := index la 0 in
  let changes := foldl (fun c '(a, b) => if negb (Sig a =? Sig b) then c + 1 else c) 0 (zip la lb) in
  let removed := if zlen la >? zlen lb then zlen la - zlen lb else 0 in
  let added := if zlen la >? zlen lb then 0 else if zlen lb >? zlen la then zlen lb - zlen la else 0 in
  Ok (mkLevelDiff level (Scale first) changes (zlen la) added removed).

Definition CompareSignatures (a b : Tree) : res (list LevelDiff) :=
  mapM (fun '(level, (la, lb)) => levelDiff (Z.of_nat level) la lb)
    (imap (fun i p => (i, p)) (zip (layers a) (layers b))).

Definition VolatilityRegions (t : Tree) (level : Z) : res (list Z) :=
  FindNodes t level (fun n => Sig n =? SigVolatileShock).

Definition StagnantRegions (t : Tree) (level : Z) : res (list Z) :=
  FindNodes t level (fun n => Sig n =? SigStagnantState).

Definition NodeAt (t : Tree) (level i : Z) : res RGNode :=
  let* l := index (layers t) level in index l i.
End inclusion.
