(* ===== verification/NodeProofs.v ===== *)
(** * core/node: properties *)

From S2P Require Import Prelude GoBytes Errors Platform Node Tree Inclusion.
Import node.

(** ** Numbers in nodes *)
Lemma BytesToUint256_range (a : arr 32) : is_u256 (BytesToUint256 a).
Proof.
  unfold BytesToUint256, big_SetBytes. pose proof (be_dec_range a) as Hr. by rewrite zlen_arr in Hr.
Qed.

Lemma Uint256ToBytes_ok z : is_u256 z -> Uint256ToBytes (Some z) = Ok (mk_arr 32 (be_enc 32 z)).
Proof. intros Hz. unfold Uint256ToBytes. by rewrite put_big_ok. Qed.

Lemma BytesToUint256_enc z : is_u256 z -> BytesToUint256 (mk_arr 32 (be_enc 32 z)) = z.
Proof.
  intros Hz. unfold BytesToUint256, big_SetBytes. rewrite mk_arr_exact by apply be_enc_length.
  by apply be_dec_enc_small.
Qed.

Lemma Uint256ToBytes_inv z a : 0 <= z -> Uint256ToBytes (Some z) = Ok a -> is_u256 z /\ BytesToUint256 a = z.
Proof.
  intros Hz Ha. destruct (Z_lt_dec z two256) as [Hlt|Hge].
  - rewrite Uint256ToBytes_ok in Ha by done. simplify_eq. split; [done|]. by apply BytesToUint256_enc.
  - unfold Uint256ToBytes in Ha. rewrite put_big_panic in Ha; [done|]. change (256 ^ Z.of_nat 32) with two256. lia.
Qed.

Lemma BytesToUint256_zero : BytesToUint256 (zero_arr 32) = 0.
Proof. reflexivity. Qed.

(** ** Serialization *)
Section Node.
Context `{Platform}.

Definition arity (scale : Z) : Z := if scale =? 1 then 1 else 4.

Definition node_ok (n : RGNode) : Prop :=
  hash.ValidScale (Scale n) = true /\ zlen (Children n) = arity (Scale n).

Definition ser (n : RGNode) : bytes :=
  inclusion.nodeBytes (Scale n) (Volume n) (Variance n) (Sig n) (zlen (Children n)) (Children n).

Lemma node_Serialize_spec n : node_ok n -> Serialize n = Ok (ser n).
Proof.
  intros [Hs Ha]. unfold Serialize. rewrite Hs. cbn [negb]. fold (arity (Scale n)). rewrite Ha, Z.eqb_refl. cbn [negb].
  pose proof (BytesToUint256_range (Volume n)) as [? ?]. pose proof (BytesToUint256_range (Variance n)) as [? ?].
  unfold hash.UINT256_MAX, two256 in *.
  replace ((_ <? 0) || _) with false by (symmetry; apply orb_false_iff; split; [apply Z.ltb_ge|rewrite Z.gtb_ltb; apply Z.ltb_ge]; lia).
  replace ((_ <? 0) || _) with false by (symmetry; apply orb_false_iff; split; [apply Z.ltb_ge|rewrite Z.gtb_ltb; apply Z.ltb_ge]; lia).
  unfold ser. by rewrite Ha.
Qed.

Lemma Serialize_node_ok n b : Serialize n = Ok b -> node_ok n.
Proof. unfold Serialize, node_ok, arity. intros Hs. osteps Hs. bsimp. done. Qed.

Lemma Root_spec n : node_ok n -> Root n = Ok (hash.Hash (ser n)).
Proof. intros Hn. unfold Root. by rewrite node_Serialize_spec. Qed.

Lemma Root_inv n r : Root n = Ok r -> node_ok n /\ r = hash.Hash (ser n).
Proof.
  intros Hr. assert (node_ok n) as Hn.
  { unfold Root in Hr. osteps Hr. by eapply Serialize_node_ok. }
  rewrite Root_spec in Hr by done. by simplify_eq.
Qed.

(** The header of a serialized node is 82 bytes, its children 32 bytes each. *)
Lemma zlen_nodeBytes s v w g n cs : zlen (inclusion.nodeBytes s v w g n cs) = 82 + 32 * zlen cs.
Proof.
  unfold inclusion.nodeBytes. autorewrite with len.
  assert (zlen (concat (map arr_bytes cs)) = 32 * zlen cs) as ->.
  { induction cs as [|c cs IH]; [done|]. cbn [map concat]. autorewrite with len. rewrite IH. lia. }
  change (zlen hash.DomainRGNode) with 11. lia.
Qed.

Lemma concat_arr_inj (cs cs' : list (arr 32)) :
  length cs = length cs' -> concat (map arr_bytes cs) = concat (map arr_bytes cs') -> cs = cs'.
Proof.
  revert cs'. induction cs as [|c cs IH]; intros [|c' cs'] Hl He; try discriminate; [done|].
  cbn [map concat] in He. apply app_inj_len in He as [Hc Hcs]; [|by rewrite !arr_length].
  f_equal; [by apply arr_eq|]. apply IH; [by injection Hl|done].
Qed.

(** Node serializations determine the aggregates and the children. *)
Lemma nodeBytes_inj s v w g n cs s' v' w' g' n' cs' :
  inclusion.nodeBytes s v w g n cs = inclusion.nodeBytes s' v' w' g' n' cs' ->
  v = v' /\ w = w' /\ cs = cs'.
Proof.
  intros He.
  assert (length cs = length cs') as Hl.
  { apply (f_equal zlen) in He. rewrite !zlen_nodeBytes in He. unfold zlen in He. lia. }
  unfold inclusion.nodeBytes in He. apply app_inv_head in He.
  apply app_inj_len in He as [E1 He]; [|unfold put32; by rewrite !be_enc_length].
  apply app_inj_len in He as [E2 He]; [|by rewrite !arr_length].
  apply app_inj_len in He as [E3 He]; [|by rewrite !arr_length].
  apply app_inj_len in He as [_ He]; [|done].
  apply app_inj_len in He as [_ He]; [|unfold put16; by rewrite !be_enc_length].
  split_and!; [by apply arr_eq..|]. by apply concat_arr_inj.
Qed.

(** ** Null nodes *)
Definition nullNode (scale : Z) (cs : list (arr 32)) : RGNode :=
  mkRGNode scale (zero_arr 32) (zero_arr 32) SigNullPad cs (zero_arr 32) 0 0.

Lemma ValidScale_pow k : (k <= 8)%nat -> hash.ValidScale (4 ^ Z.of_nat k) = true.
Proof. intros Hk. do 9 (destruct k as [|k]; [reflexivity|]). lia. Qed.

Lemma ValidScale_pow_inv s : hash.ValidScale s = true -> exists k, (k <= 8)%nat /\ s = 4 ^ Z.of_nat k.
Proof.
  intros Hs%hash.ValidScale_spec. unfold hash.validScales in Hs.
  repeat (apply elem_of_cons in Hs as [->|Hs]; [|]); [| | | | | | | | |by apply elem_of_nil in Hs].
  all: match goal with |- exists k, _ /\ ?z = _ =>
         first [exists 0%nat; split; [lia|reflexivity] | exists 1%nat; split; [lia|reflexivity]
              | exists 2%nat; split; [lia|reflexivity] | exists 3%nat; split; [lia|reflexivity]
              | exists 4%nat; split; [lia|reflexivity] | exists 5%nat; split; [lia|reflexivity]
              | exists 6%nat; split; [lia|reflexivity] | exists 7%nat; split; [lia|reflexivity]
              | exists 8%nat; split; [lia|reflexivity]] end.
Qed.

Lemma pow4_ne1 k : (4 ^ Z.of_nat (S k) =? 1) = false.
Proof. apply Z.eqb_neq. rewrite Nat2Z.inj_succ, Z.pow_succ_r by lia. lia. Qed.

Lemma pow4_div k : 4 ^ Z.of_nat (S k) / 4 = 4 ^ Z.of_nat k.
Proof. rewrite Nat2Z.inj_succ, Z.pow_succ_r by lia. rewrite Z.mul_comm. by apply Z.div_mul. Qed.

(** [NullNode] succeeds at every valid scale; above 1 its children are four
    copies of the root of the null node below. *)
Lemma NullNode_rec_ok k fuel :
  (k <= 8)%nat -> (k < fuel)%nat ->
  exists cs, NullNode_rec fuel (4 ^ Z.of_nat k) = Ok (nullNode (4 ^ Z.of_nat k) cs) /\
    match k with
    | O => cs = [nullPadChildRoot]
    | S k' => forall f, (k' < f)%nat -> exists c r, NullNode_rec f (4 ^ Z.of_nat k') = Ok c /\
                Root c = Ok r /\ cs = replicate 4 r
    end.
Proof.
  revert fuel. induction k as [|k IH]; intros [|fuel] Hk Hf; try lia; cbn [NullNode_rec].
  - eexists. split; [|done]. done.
  - rewrite ValidScale_pow, pow4_ne1, pow4_div by lia. cbn [negb].
    destruct (IH fuel) as (cs & Hcs & Hk'); [lia..|]. rewrite Hcs. cbn [obind].
    assert (node_ok (nullNode (4 ^ Z.of_nat k) cs)) as Hok.
    { split; [apply ValidScale_pow; lia|]. cbn [nullNode Children Scale]. destruct k as [|k].
      - by rewrite Hk'.
      - unfold arity. rewrite pow4_ne1. destruct (Hk' fuel ltac:(lia)) as (? & ? & _ & _ & ->). done. }
    rewrite Root_spec by done. cbn [obind]. eexists. split; [done|].
    intros f Hf'. destruct (IH f) as (cs' & Hcs' & Hk''); [lia..|].
    assert (cs' = cs) as ->.
    { destruct k as [|k]; [by rewrite Hk', Hk''|].
      destruct (Hk' (S k)) as (? & ? & E1 & E2 & ->); [lia|].
      destruct (Hk'' (S k)) as (? & ? & E1' & E2' & ->); [lia|]. congruence. }
    do 2 eexists. split; [done|]. by rewrite Root_spec.
Qed.

Lemma NullNode_ok s :
  hash.ValidScale s = true ->
  exists cs r, NullNode s = Ok (nullNode s cs) /\ Root (nullNode s cs) = Ok r /\ node_ok (nullNode s cs) /\
    ((s = 1 /\ cs = [nullPadChildRoot]) \/
     (s <> 1 /\ hash.ValidScale (s / 4) = true /\
      exists c rc, NullNode (s / 4) = Ok c /\ Root c = Ok rc /\ cs = replicate 4 rc)).
Proof.
  intros (k & Hk & ->)%ValidScale_pow_inv. unfold NullNode.
  destruct (NullNode_rec_ok k 9 Hk) as (cs & Hn & Hcs); [lia|].
  assert (node_ok (nullNode (4 ^ Z.of_nat k) cs)) as Hok.
  { split; [by apply ValidScale_pow|]. cbn [nullNode Children Scale]. destruct k as [|k].
    - by rewrite Hcs.
    - unfold arity. rewrite pow4_ne1. destruct (Hcs 9%nat) as (? & ? & _ & _ & ->); [lia|]. done. }
  exists cs, (hash.Hash (ser (nullNode (4 ^ Z.of_nat k) cs))). split_and!; [done|by apply Root_spec|done|].
  destruct k as [|k]; [by left|right]. split; [by apply Z.eqb_neq, pow4_ne1|].
  rewrite pow4_div. split; [apply ValidScale_pow; lia|]. destruct (Hcs 9%nat) as (c & r & ?); [lia|eauto].
Qed.
End Node.
