(* ===== verification/TreeProofs.v ===== *)
(** * core/tree: what building a tree produces *)

From S2P Require Import Prelude GoBytes Errors Platform Tx TxProofs Node Tree Inclusion NodeProofs.
Import node tree.

Section Build.
Context `{Platform}.

(** ** One parent *)
Definition vol (n : RGNode) : Z := BytesToUint256 (Volume n).
Definition sq (n : RGNode) : Z := BytesToUint256 (SumSquares n).

Lemma vol_nonneg n : 0 <= vol n.
Proof. apply BytesToUint256_range. Qed.
Lemma sq_nonneg n : 0 <= sq n.
Proof. apply BytesToUint256_range. Qed.

Lemma wrap64_add a b : wrap64 (wrap64 a + b) = wrap64 (a + b).
Proof. apply Zplus_mod_idemp_l. Qed.

Lemma coarse_fold chunk s s' :
  foldM coarseStep s chunk = Ok s' ->
  sumValues s' = sumValues s + sumZ (map vol chunk) /\
  sumSq s' = sumSq s + sumZ (map sq chunk) /\
  wrap64 (count s') = wrap64 (count s + sumZ (map Count chunk)) /\
  wrap64 (contractCount s') = wrap64 (contractCount s + sumZ (map ContractCount chunk)) /\
  exists rs, children s' = children s ++ rs /\ mapM Root chunk = Ok rs.
Proof.
  revert s. induction chunk as [|c chunk IH]; intros s Hs; cbn [foldM] in Hs.
  - simplify_eq. unfold sumZ; simpl. rewrite !Z.add_0_r. split_and!; try done.
    exists []. by rewrite app_nil_r.
  - apply obind_ok_inv in Hs as (s1 & H1 & Hs). apply IH in Hs as (Hv & Hq & Hc & Hcc & rs & Hrs & Hm).
    unfold coarseStep in H1. osteps H1. simplify_eq. cbn [sumValues sumSq count contractCount children map mapM] in *. rewrite !sumZ_cons.
    rewrite Hv, Hq, Hc, Hcc, !wrap64_add. split_and!; try (f_equal; lia); unfold vol, sq, BytesToUint256; [lia..|].
    exists (a :: rs). rewrite E, Hm. split; [by rewrite Hrs, <- app_assoc|done].
Qed.

Lemma coarse_fold_u64 chunk s s' :
  foldM coarseStep s chunk = Ok s' -> is_u64 (count s) -> is_u64 (contractCount s) ->
  0 <= sumValues s -> 0 <= sumSq s ->
  is_u64 (count s') /\ is_u64 (contractCount s') /\ 0 <= sumValues s' /\ 0 <= sumSq s'.
Proof.
  intros Hf H1 H2 H3 H4.
  apply (foldM_inv _ (fun s => is_u64 (count s) /\ is_u64 (contractCount s) /\ 0 <= sumValues s /\ 0 <= sumSq s) _ _ _) in Hf;
    [done| |done].
  intros t t' a _ (? & ? & ? & ?) Ht. unfold coarseStep in Ht. osteps Ht. simplify_eq. simpl. bsimp.
  split_and!; try lia; apply Z.mod_pos_bound; done.
Qed.

(** The parent of a chunk: its aggregates are the sums over the chunk, its
    children the roots of the chunk. *)
Lemma coarseGrain_inv chunk ps p :
  coarseGrain chunk ps = Ok p ->
  Scale p = ps /\ mapM Root chunk = Ok (Children p) /\
  vol p = sumZ (map vol chunk) /\ sq p = sumZ (map sq chunk) /\
  Count p = wrap64 (sumZ (map Count chunk)) /\ ContractCount p = wrap64 (sumZ (map ContractCount chunk)) /\
  BytesToUint256 (Variance p) = varianceOf (vol p) (sq p) (Count p) /\ Sig p = deriveSignature p.
Proof.
  unfold coarseGrain. intros Hg. osteps Hg. simplify_eq. simpl.
  pose proof (coarse_fold_u64 _ _ _ E) as (Hc & Hcc & Hv & Hq); [done..|].
  apply coarse_fold in E as (Ev & Eq & Ec & Ecc & rs & Ers & Em). simpl in *.
  apply Uint256ToBytes_inv in E0 as [_ E0]; [|done].
  assert (0 <= varianceOf (sumValues a) (sumSq a) (count a)) as Hvar.
  { unfold varianceOf. destruct (_ >? 0); [|done]. destruct (_ <? 0) eqn:?; bsimp; lia. }
  apply Uint256ToBytes_inv in E1 as [_ E1]; [|done]. apply Uint256ToBytes_inv in E2 as [_ E2]; [|done].
  unfold wrap64, is_u64 in *. rewrite Z.mod_small in Ec, Ecc by done.
  unfold vol, sq; simpl. rewrite E0, E1, E2. split_and!; try done; congruence.
Qed.

(** ** One layer *)
Lemma padChunk_spec n chunk s r :
  padChunk n chunk s = Ok r ->
  exists nulls, r = chunk ++ nulls /\ length nulls = n /\ Forall (fun c => NullNode s = Ok c) nulls.
Proof.
  revert chunk. induction n as [|n IH]; intros chunk Hp; cbn [padChunk] in Hp.
  - simplify_eq. exists []. by rewrite app_nil_r.
  - apply obind_ok_inv in Hp as (nn & Hn & Hp). apply IH in Hp as (nulls & -> & Hl & Hf).
    exists (nn :: nulls). rewrite <- app_assoc. split_and!; [done|simpl; lia|by constructor].
Qed.

Lemma padChunk_ok n chunk s c :
  NullNode s = Ok c -> padChunk n chunk s = Ok (chunk ++ replicate n c).
Proof.
  intros Hc. revert chunk. induction n as [|n IH]; intros chunk; cbn [padChunk replicate].
  - by rewrite app_nil_r.
  - rewrite Hc. cbn [obind]. rewrite IH. by rewrite <- app_assoc.
Qed.

Lemma coarsenChunk_inv chunk s ps p :
  coarsenChunk chunk s ps = Ok p ->
  exists nulls, length nulls = (K - length chunk)%nat /\ Forall (fun c => NullNode s = Ok c) nulls /\
    coarseGrain (chunk ++ nulls) ps = Ok p.
Proof.
  unfold coarsenChunk. intros Hc. osteps Hc.
  match goal with H : padChunk _ _ _ = _ |- _ => apply padChunk_spec in H as (nulls & -> & Hl & Hf) end. eauto.
Qed.

(** Padding a chunk of at most four nodes passes the code's own checks. *)
Lemma checkPadding_ok chunk s c :
  (length chunk <= 4)%nat -> NullNode s = Ok c -> hash.ValidScale s = true ->
  checkPadding (chunk ++ replicate (K - length chunk) c) (length chunk) s = Ok tt.
Proof.
  intros Hl Hc Hs. unfold checkPadding. destruct (NullNode_ok s Hs) as (cs & r & Hn & Hr & _).
  rewrite Hn in Hc. injection Hc as <-.
  apply foldM_unit. intros slot Hslot%elem_of_seq. unfold checkSlot, K in *.
  destruct (Nat.ltb slot (length chunk)) eqn:E; [done|]. apply Nat.ltb_ge in E.
  rewrite Hn. cbn [obind]. rewrite Hr. cbn [obind]. unfold index. ztest.
  rewrite Nat2Z.id, lookup_app_r, lookup_replicate_2 by lia. cbn [obind]. rewrite Hr. cbn [obind].
  by rewrite bool_decide_eq_false_2 by (intros C; by apply C).
Qed.

Lemma paddingMask_ok n : (1 <= n <= 4)%nat -> (paddingMask n >=? 2 ^ Z.of_nat K) = false.
Proof. intros Hn. do 5 (destruct n as [|n]; [reflexivity || lia|]). lia. Qed.

Lemma coarsenChunk_eq chunk s ps c :
  (1 <= length chunk <= 4)%nat -> hash.ValidScale s = true -> NullNode s = Ok c ->
  coarsenChunk chunk s ps = coarseGrain (chunk ++ replicate (K - length chunk) c) ps.
Proof.
  intros Hl Hs Hc. unfold coarsenChunk. rewrite paddingMask_ok by lia.
  rewrite (padChunk_ok _ _ _ c Hc). cbn [obind]. by rewrite checkPadding_ok by (done || lia).
Qed.

(** The chunk of parent [i]. *)
Definition chunkOf (layer : list RGNode) (i : nat) : list RGNode := take K (drop (i * K) layer).

Definition parentCount (n : nat) : nat := ((n + 3) / 4)%nat.

Lemma parentCount_S n : (0 < n)%nat -> parentCount n = S (parentCount (n - 4)).
Proof.
  intros Hn. unfold parentCount. destruct (Nat.le_gt_cases n 4).
  - replace (n - 4)%nat with 0%nat by lia. replace (n + 3)%nat with (1 * 4 + (n - 1))%nat by lia.
    rewrite Nat.div_add_l by lia. rewrite Nat.div_small by lia. done.
  - replace (n + 3)%nat with (1 * 4 + (n - 4 + 3))%nat by lia. by rewrite Nat.div_add_l by lia.
Qed.

Lemma parentCount_spec n i : (i < parentCount n)%nat <-> (i * 4 < n)%nat.
Proof.
  unfold parentCount. pose proof (Nat.div_mod_eq (n + 3) 4). pose proof (Nat.mod_upper_bound (n + 3) 4). lia.
Qed.

Lemma coarsenLoop_spec fuel layer s ps parents :
  (length layer <= fuel)%nat ->
  coarsenLoop fuel layer s ps = Ok parents <->
  length parents = parentCount (length layer) /\
  forall i p, parents !! i = Some p -> coarsenChunk (chunkOf layer i) s ps = Ok p.
Proof.
  revert layer parents. induction fuel as [|fuel IH]; intros layer parents Hf.
  { destruct layer; [|simpl in Hf; lia]. cbn [coarsenLoop]. split.
    - intros [= <-]. split; [done|]. intros i p. by rewrite lookup_nil.
    - intros [Hl _]. by destruct parents. }
  destruct layer as [|c layer].
  { cbn [coarsenLoop]. split.
    - intros [= <-]. split; [done|]. intros i p. by rewrite lookup_nil.
    - intros [Hl _]. by destruct parents. }
  cbn [coarsenLoop]. set (l := c :: layer) in *.
  assert (length (drop K l) <= fuel)%nat as Hd by (rewrite length_drop; unfold K, l in *; simpl in *; lia).
  assert (parentCount (length l) = S (parentCount (length (drop K l)))) as Hpc.
  { rewrite parentCount_S by (unfold l; simpl; lia). by rewrite length_drop. }
  assert (forall i, chunkOf l (S i) = chunkOf (drop K l) i) as Hch.
  { intros i. unfold chunkOf. by rewrite drop_drop. }
  split.
  - intros Hc. apply obind_ok_inv in Hc as (p & Hp & Hc). apply obind_ok_inv in Hc as (rest & Hrest & Hc). simplify_eq.
    apply IH in Hrest as [Hlen Hall]; [|done]. split; [by rewrite Hpc, <- Hlen|].
    intros [|i] q; cbn [lookup list_lookup]; [by intros [= <-]|]. intros Hq. rewrite Hch. by apply Hall.
  - intros [Hlen Hall]. destruct parents as [|p rest]; [by rewrite Hpc in Hlen|].
    pose proof (Hall 0%nat p eq_refl) as H0. change (chunkOf l 0) with (take K l) in H0. rewrite H0. cbn [obind].
    assert (coarsenLoop fuel (drop K l) s ps = Ok rest) as ->; [|done].
    apply IH; [done|]. split; [by rewrite Hpc in Hlen; injection Hlen|]. intros i q Hq. rewrite <- Hch. by apply (Hall (S i)).
Qed.

Lemma coarsenLayer_spec c layer parents :
  coarsenLayer (c :: layer) = Ok parents <->
  hash.ValidScale (wrap32 (Scale c * Z.of_nat K)) = true /\
  length parents = parentCount (length (c :: layer)) /\
  forall i p, parents !! i = Some p ->
    coarsenChunk (chunkOf (c :: layer) i) (Scale c) (wrap32 (Scale c * Z.of_nat K)) = Ok p.
Proof.
  unfold coarsenLayer. change (index (c :: layer) 0) with (Ok (E := error) c). cbn [obind].
  destruct (hash.ValidScale _); cbn [negb].
  - rewrite coarsenLoop_spec by done. split; [by intros [? ?]|by intros (_ & ? & ?)].
  - split; [done|by intros (? & _)].
Qed.

(** ** All layers *)
Inductive linked : list (list RGNode) -> Prop :=
| linked_top n : linked [[n]]
| linked_cons l next rest :
    1 < zlen l -> coarsenLayer l = Ok next -> linked (next :: rest) -> linked (l :: next :: rest).

Definition uniform (k : nat) (l : list RGNode) : Prop :=
  (k <= 8)%nat /\ Forall (fun n => Scale n = 4 ^ Z.of_nat k /\ node_ok n) l.

Lemma parentCount_le n : (1 < n)%nat -> (0 < parentCount n < n)%nat.
Proof.
  intros Hn. unfold parentCount. pose proof (Nat.div_mod_eq (n + 3) 4). pose proof (Nat.mod_upper_bound (n + 3) 4). lia.
Qed.

Lemma coarsenLayer_length l next : coarsenLayer l = Ok next -> length next = parentCount (length l).
Proof. destruct l as [|c l]; [done|]. intros Hc%coarsenLayer_spec. tauto. Qed.

Lemma coarsenAll_linked fuel l ls :
  l <> [] -> coarsenAll fuel l = Ok ls -> linked ls /\ exists rest, ls = l :: rest.
Proof.
  revert l ls. induction fuel as [|fuel IH]; intros l ls Hne Hc; cbn [coarsenAll] in Hc.
  all: destruct (zlen l >? 1) eqn:E; bsimp; [|simplify_eq; destruct l as [|n [|m l]]; [done| |]].
  - done.
  - split; [constructor|eauto].
  - rewrite !zlen_cons in E. pose proof (zlen_nonneg l). lia.
  - osteps Hc. simplify_eq.
    match goal with H1 : coarsenLayer l = Ok ?nx, H2 : coarsenAll _ _ = _ |- _ =>
      apply IH in H2 as [Hl [rest ->]]; [split; [by constructor; [lia|..]|eauto]|];
      pose proof (coarsenLayer_length _ _ H1) as Hlen end.
    intros ->. unfold zlen in E. pose proof (parentCount_le (length l)). simpl in Hlen. lia.
  - split; [constructor|eauto].
  - rewrite !zlen_cons in E. pose proof (zlen_nonneg l). lia.
Qed.

Lemma coarsenAll_fuel ls l rest fuel :
  linked ls -> ls = l :: rest -> (length l <= fuel)%nat -> coarsenAll fuel l = Ok ls.
Proof.
  intros Hl. revert l rest fuel. induction Hl as [n|l' next rest' Hlen Hc Hl IH]; intros l rest fuel Heq Hf.
  - injection Heq as <- _. by destruct fuel.
  - injection Heq as <- _. unfold zlen in Hlen. destruct fuel as [|fuel]; [lia|]. cbn [coarsenAll]. unfold zlen. ztest. ztest.
    rewrite Hc. cbn [obind]. rewrite (IH next rest') ; [done..|].
    pose proof (coarsenLayer_length _ _ Hc) as Hn. pose proof (parentCount_le (length l')). lia.
Qed.

Lemma pow4_wrap k : (k <= 8)%nat -> wrap32 (4 ^ Z.of_nat k * Z.of_nat K) = 4 ^ Z.of_nat (S k).
Proof. intros Hk. do 9 (destruct k as [|k]; [reflexivity|]). lia. Qed.

Lemma mapM_Root_length cs rs : mapM Root cs = Ok rs -> length rs = length cs.
Proof. apply mapM_length. Qed.

Lemma chunkOf_length l i : (i < parentCount (length l))%nat -> (1 <= length (chunkOf l i) <= 4)%nat.
Proof.
  intros Hi%parentCount_spec. unfold chunkOf, K. rewrite length_take, length_drop. lia.
Qed.

(** Every node of the next layer is the parent of its padded chunk. *)
Lemma coarsenLayer_parent k l next i p :
  uniform k l -> coarsenLayer l = Ok next -> next !! i = Some p ->
  (S k <= 8)%nat /\ exists c, NullNode (4 ^ Z.of_nat k) = Ok c /\
    coarseGrain (chunkOf l i ++ replicate (K - length (chunkOf l i)) c) (4 ^ Z.of_nat (S k)) = Ok p.
Proof.
  intros [Hk Hu] Hc Hi. destruct l as [|n l]; [done|]. apply coarsenLayer_spec in Hc as (Hv & Hlen & Hall).
  apply Forall_cons in Hu as [[Hs _] _]. rewrite Hs, pow4_wrap in * by done.
  assert (S k <= 8)%nat as Hk'.
  { destruct (Nat.le_gt_cases (S k) 8); [done|]. replace k with 8%nat in Hv by lia. done. }
  split; [done|]. pose proof (lookup_lt_Some _ _ _ Hi) as Hlt. rewrite Hlen in Hlt. apply Hall in Hi.
  destruct (NullNode_ok (4 ^ Z.of_nat k)) as (cs & r & Hn & _); [by apply ValidScale_pow|].
  eexists. split; [done|]. rewrite <- (coarsenChunk_eq _ _ _ _ (chunkOf_length _ _ Hlt) (ValidScale_pow k Hk) Hn). done.
Qed.

Lemma coarsenLayer_uniform k l next : uniform k l -> l <> [] -> coarsenLayer l = Ok next -> uniform (S k) next.
Proof.
  intros Hu Hne Hc. assert (S k <= 8)%nat as Hk.
  { destruct (next !! 0%nat) as [p|] eqn:E; [by eapply coarsenLayer_parent in E as [? _]|].
    apply lookup_ge_None in E. rewrite (coarsenLayer_length _ _ Hc) in E.
    pose proof (proj2 (parentCount_spec (length l) 0)). destruct l; [done|]. simpl in *. lia. }
  split; [done|]. apply Forall_lookup. intros i p Hi. pose proof (lookup_lt_Some _ _ _ Hi) as Hlt.
  rewrite (coarsenLayer_length _ _ Hc) in Hlt. pose proof (chunkOf_length _ _ Hlt) as Hcl.
  eapply coarsenLayer_parent in Hi as (_ & c & _ & Hg); [|done..].
  apply coarseGrain_inv in Hg as (Hs & Hm & _). split; [done|]. split; [rewrite Hs; by apply ValidScale_pow|].
  apply mapM_length in Hm. unfold zlen. rewrite Hm, length_app, length_replicate, Hs. unfold arity. rewrite pow4_ne1.
  unfold K. lia.
Qed.

(** The leaves bound the size: a layer at scale 4^k has at most 4^(8-k) nodes. *)
Lemma linked_capacity ls l rest k :
  linked ls -> ls = l :: rest -> uniform k l -> zlen l <= 4 ^ (8 - Z.of_nat k).
Proof.
  intros Hl. revert l rest k. induction Hl as [n|l' next rest' Hlen Hc Hl IH]; intros l rest k Heq Hu.
  - injection Heq as <- _. destruct Hu as [Hk _]. change (zlen [n]) with 1. pose proof (Z.pow_pos_nonneg 4 (8 - Z.of_nat k)). lia.
  - injection Heq as <- _. pose proof (coarsenLayer_length _ _ Hc) as Hn.
    assert (l' <> []) as Hne by (intros ->; done).
    pose proof (coarsenLayer_uniform _ _ _ Hu Hne Hc) as Hu'. pose proof (IH next rest' (S k) eq_refl Hu') as Hcap.
    destruct Hu' as [Hk _]. replace (8 - Z.of_nat k) with (Z.succ (8 - Z.of_nat (S k))) by lia.
    rewrite Z.pow_succ_r by lia. unfold zlen in *. rewrite Hn in Hcap.
    unfold parentCount in Hcap. pose proof (Nat.div_mod_eq (length l' + 3) 4). pose proof (Nat.mod_upper_bound (length l' + 3) 4). lia.
Qed.

(** ** Aggregates *)
Lemma seq_S_map n : seq 0 (S n) = 0%nat :: map S (seq 0 n).
Proof. simpl. by rewrite seq_shift. Qed.

Lemma chunk_sum (f : RGNode -> Z) l :
  sumZ (map (fun i => sumZ (map f (chunkOf l i))) (seq 0 (parentCount (length l)))) = sumZ (map f l).
Proof.
  remember (length l) as n eqn:Hn. revert l Hn. induction n as [n IH] using lt_wf_ind. intros l Hn.
  destruct (Nat.eq_dec n 0) as [->|Hpos]; [by destruct l|].
  rewrite parentCount_S by lia. rewrite seq_S_map. cbn [map]. rewrite sumZ_cons, map_map.
  transitivity (sumZ (map f (take K l ++ drop K l))); [|by rewrite take_drop].
  rewrite map_app, sumZ_app. f_equal.
  rewrite <- (IH (n - 4)%nat ltac:(lia) (drop K l)) by (rewrite length_drop; unfold K; lia).
  f_equal. apply map_ext. intros i. unfold chunkOf. by rewrite drop_drop.
Qed.

Lemma wrap64_sum l : wrap64 (sumZ (map wrap64 l)) = wrap64 (sumZ l).
Proof.
  induction l as [|z l IH]; [done|]. cbn [map]. rewrite !sumZ_cons. unfold wrap64 in *.
  rewrite Zplus_mod, IH, Zmod_mod, <- Zplus_mod. done.
Qed.

Lemma null_fields s c : NullNode s = Ok c -> vol c = 0 /\ sq c = 0 /\ Count c = 0 /\ ContractCount c = 0.
Proof.
  intros Hc. assert (hash.ValidScale s = true) as Hs.
  { unfold NullNode in Hc. cbn [NullNode_rec] in Hc. by destruct (hash.ValidScale s). }
  destruct (NullNode_ok s Hs) as (cs & r & Hn & _). rewrite Hn in Hc. by simplify_eq.
Qed.

Lemma map_pad_sum (f : RGNode -> Z) l n c : f c = 0 -> sumZ (map f (l ++ replicate n c)) = sumZ (map f l).
Proof.
  intros Hf. rewrite map_app, sumZ_app. change (map f (replicate n c)) with (f <$> replicate n c).
  rewrite fmap_replicate, sumZ_replicate, Hf. lia.
Qed.

(** The next layer as a function of the chunks. *)
Lemma next_sum (g : RGNode -> Z) (f : list RGNode -> Z) l next :
  length next = parentCount (length l) ->
  (forall i p, next !! i = Some p -> g p = f (chunkOf l i)) ->
  map g next = map (fun i => f (chunkOf l i)) (seq 0 (parentCount (length l))).
Proof.
  intros Hlen Hall. apply list_eq. intros i. rewrite !list_lookup_fmap.
  destruct (next !! i) as [p|] eqn:E.
  - pose proof (lookup_lt_Some _ _ _ E). rewrite lookup_seq_lt by lia. cbn. f_equal. by apply Hall.
  - apply lookup_ge_None in E. rewrite lookup_seq_ge by lia. done.
Qed.

Lemma layer_sums k l next :
  uniform k l -> l <> [] -> coarsenLayer l = Ok next ->
  sumZ (map vol next) = sumZ (map vol l) /\ sumZ (map sq next) = sumZ (map sq l) /\
  wrap64 (sumZ (map Count next)) = wrap64 (sumZ (map Count l)) /\
  wrap64 (sumZ (map ContractCount next)) = wrap64 (sumZ (map ContractCount l)).
Proof.
  intros Hu Hne Hc. pose proof (coarsenLayer_length _ _ Hc) as Hlen.
  assert (forall i p, next !! i = Some p ->
    vol p = sumZ (map vol (chunkOf l i)) /\ sq p = sumZ (map sq (chunkOf l i)) /\
    Count p = wrap64 (sumZ (map Count (chunkOf l i))) /\
    ContractCount p = wrap64 (sumZ (map ContractCount (chunkOf l i)))) as Hp.
  { intros i p Hi. eapply coarsenLayer_parent in Hi as (_ & c & Hn & Hg); [|done..].
    destruct (null_fields _ _ Hn) as (N1 & N2 & N3 & N4).
    apply coarseGrain_inv in Hg as (_ & _ & G1 & G2 & G3 & G4 & _).
    rewrite !map_pad_sum in * by done. done. }
  split_and!.
  - rewrite (next_sum vol (fun ch => sumZ (map vol ch)) l) by (done || (intros; by apply Hp)). apply chunk_sum.
  - rewrite (next_sum sq (fun ch => sumZ (map sq ch)) l) by (done || (intros; by apply Hp)). apply chunk_sum.
  - rewrite (next_sum Count (fun ch => wrap64 (sumZ (map Count ch))) l) by (done || (intros; by apply Hp)).
    rewrite <- (map_map (fun i => sumZ (map Count (chunkOf l i))) wrap64), wrap64_sum. by rewrite chunk_sum.
  - rewrite (next_sum ContractCount (fun ch => wrap64 (sumZ (map ContractCount ch))) l) by (done || (intros; by apply Hp)).
    rewrite <- (map_map (fun i => sumZ (map ContractCount (chunkOf l i))) wrap64), wrap64_sum. by rewrite chunk_sum.
Qed.

(** The last layer is one node; its aggregates are those of the first layer. *)
Lemma linked_totals ls l rest k :
  linked ls -> ls = l :: rest -> uniform k l ->
  exists n, last ls = Some [n] /\ vol n = sumZ (map vol l) /\ sq n = sumZ (map sq l) /\
    wrap64 (Count n) = wrap64 (sumZ (map Count l)) /\
    wrap64 (ContractCount n) = wrap64 (sumZ (map ContractCount l)).
Proof.
  intros Hl. revert l rest k. induction Hl as [n|l' next rest' Hlen Hc Hl IH]; intros l rest k Heq Hu.
  - injection Heq as <- _. exists n. cbn [map]. rewrite !sumZ_cons. change (sumZ []) with 0. rewrite !Z.add_0_r. done.
  - injection Heq as <- _. assert (l' <> []) as Hne by (intros ->; done).
    destruct (IH next rest' (S k) eq_refl) as (n & Hlast & H1 & H2 & H3 & H4);
      [by eapply coarsenLayer_uniform|].
    destruct (layer_sums k l' next Hu Hne Hc) as (S1 & S2 & S3 & S4).
    exists n. rewrite last_cons_cons. split_and!; congruence.
Qed.

(** ** The leaves *)
Definition leaf_ok (n : RGNode) : Prop := Scale n = 1 /\ zlen (Children n) = 1.

Lemma leaf_ok_uniform l : Forall leaf_ok l -> uniform 0 l.
Proof.
  intros Hl. split; [lia|]. eapply Forall_impl; [exact Hl|]. intros n [Hs Hc]. split; [done|].
  split; [by rewrite Hs|]. by rewrite Hs.
Qed.

Lemma makeAtomicNode_inv t n :
  makeAtomicNode t = Ok n ->
  exists id v, tx.ID t = Ok id /\ tx.Value t = Some v /\ leaf_ok n /\ Children n = [id] /\ Sig n = SigAtomic /\
    (0 <= v -> vol n = v /\ sq n = v * v) /\ Count n = 1 /\ Variance n = zero_arr 32 /\
    ContractCount n = if (tx.Type_ t =? tx.TxTypeContractDeploy) || (tx.Type_ t =? tx.TxTypeContractCall) then 1 else 0.
Proof.
  unfold makeAtomicNode. intros Hm. osteps Hm. simplify_eq. simpl.
  match goal with H : tx.ID t = Ok ?i |- _ => exists i end. exists z. bsimp. split_and!; try done.
  intros Hz. unfold vol, sq; simpl.
  split; (eapply Uint256ToBytes_inv; [|done]); lia.
Qed.

Lemma atomicLayer_inv txs l :
  atomicLayer txs = Ok l -> Forall2 (fun t n => makeAtomicNode t = Ok n) txs l.
Proof. apply mapM_Forall2. Qed.

Lemma atomicLayer_leaf_ok txs l : atomicLayer txs = Ok l -> Forall leaf_ok l.
Proof.
  intros Hl%atomicLayer_inv. induction Hl as [|t n txs l Hn _ IH]; constructor; [|done].
  apply makeAtomicNode_inv in Hn as (? & ? & _ & _ & ? & _). done.
Qed.

(** A tree that was built: its layers are linked from the leaves up. *)
Lemma BuildTree_inv txs cn t :
  Forall leaf_ok cn -> (txs <> [] \/ cn <> []) -> BuildTree txs cn = Ok t ->
  exists leaves rest n r, atomicLayer txs = Ok leaves /\ layers t = (leaves ++ cn) :: rest /\
    linked (layers t) /\ uniform 0 (leaves ++ cn) /\ last (layers t) = Some [n] /\ Root n = Ok r /\
    root t = r /\ dirty t = false.
Proof.
  intros Hcn Hne Hb. unfold BuildTree in Hb.
  assert ((zlen txs =? 0) && (zlen cn =? 0) = false) as E.
  { apply andb_false_iff. destruct Hne; [left|right]; apply Z.eqb_neq; unfold zlen; destruct txs, cn; done. }
  rewrite E in Hb. osteps Hb. simplify_eq. simpl.
  match goal with H : atomicLayer txs = Ok ?l |- _ => rename H into Ha; rename l into leaves end.
  match goal with H : coarsenAll _ _ = Ok ?l |- _ => rename H into Hc; rename l into ls end.
  pose proof (atomicLayer_leaf_ok _ _ Ha) as Hlo.
  assert (uniform 0 (leaves ++ cn)) as Hu by by apply leaf_ok_uniform, Forall_app.
  apply coarsenAll_linked in Hc as [Hl [rest ->]].
  2:{ apply mapM_length in Ha. destruct Hne; destruct txs, cn, leaves; done. }
  destruct (linked_totals _ _ _ 0 Hl eq_refl Hu) as (n & Hlast & _).
  rewrite Hlast in *. cbn [default from_option id] in *.
  match goal with H : index _ 0 = Ok ?x |- _ => injection H as <- end. eauto 12.
Qed.

(** Aggregation: the root node of a built tree carries the exact sum of the
    transaction values and of their squares, and the number of transactions
    and of contract transactions (contract nodes add their own). *)
Theorem BuildTree_totals txs cn t :
  Forall leaf_ok cn -> (txs <> [] \/ cn <> []) -> BuildTree txs cn = Ok t ->
  exists leaves n, atomicLayer txs = Ok leaves /\ last (layers t) = Some [n] /\ Root n = Ok (root t) /\
    BytesToUint256 (Volume n) = sumZ (map vol (leaves ++ cn)) /\
    BytesToUint256 (SumSquares n) = sumZ (map sq (leaves ++ cn)) /\
    wrap64 (Count n) = wrap64 (zlen txs + sumZ (map Count cn)) /\
    wrap64 (ContractCount n) = wrap64 (sumZ (map ContractCount (leaves ++ cn))).
Proof.
  intros Hcn Hne Hb. destruct (BuildTree_inv _ _ _ Hcn Hne Hb)
    as (leaves & rest & n & r & Ha & Hls & Hl & Hu & Hlast & Hr & <- & _).
  destruct (linked_totals _ _ _ 0 Hl Hls Hu) as (n' & Hlast' & H1 & H2 & H3 & H4).
  rewrite Hlast in Hlast'. injection Hlast' as <-.
  exists leaves, n. split_and!; try done. rewrite H3, map_app, sumZ_app. do 2 f_equal.
  apply atomicLayer_inv in Ha. clear -Ha. induction Ha as [|t m txs l Hm _ IH]; [done|].
  cbn [map]. rewrite sumZ_cons, zlen_cons, IH.
  apply makeAtomicNode_inv in Hm as (? & ? & _ & _ & _ & _ & _ & _ & -> & _). done.
Qed.

(** Capacity: no tree holds more than 65536 leaves.  A block with the maximal
    65536 transactions therefore cannot also carry a contract node. *)
Theorem BuildTree_capacity txs cn :
  Forall leaf_ok cn -> TMax < zlen txs + zlen cn -> is_Ok (BuildTree txs cn) = false.
Proof.
  intros Hcn Hlt. destruct (BuildTree txs cn) as [t|e|] eqn:Hb; [|done..].
  assert (txs <> [] \/ cn <> []) as Hne.
  { destruct txs, cn; [done|by right|by left|by left]. }
  destruct (BuildTree_inv _ _ _ Hcn Hne Hb) as (leaves & rest & n & r & Ha & Hls & Hl & Hu & _).
  pose proof (linked_capacity _ _ _ 0 Hl Hls Hu) as Hcap. change (4 ^ (8 - Z.of_nat 0)) with TMax in Hcap.
  rewrite zlen_app in Hcap. apply mapM_length in Ha. unfold zlen in *. lia.
Qed.

(** ** Building succeeds *)
Lemma not_overflow z : 0 <= z < two256 -> ((z <? 0) || (z >? hash.UINT256_MAX)) = false.
Proof.
  intros Hz. unfold hash.UINT256_MAX, two256 in *. apply orb_false_iff. rewrite Z.gtb_ltb.
  split; apply Z.ltb_ge; lia.
Qed.

Lemma sum_map_nonneg (f : RGNode -> Z) l : (forall n, 0 <= f n) -> 0 <= sumZ (map f l).
Proof. intros Hf. apply sumZ_nonneg, Forall_map, Forall_forall. auto. Qed.

Lemma coarse_fold_ok chunk s :
  Forall node_ok chunk -> 0 <= sumValues s -> 0 <= sumSq s ->
  sumValues s + sumZ (map vol chunk) < two256 -> sumSq s + sumZ (map sq chunk) < two256 ->
  exists s', foldM coarseStep s chunk = Ok s'.
Proof.
  intros Hok. revert s. induction Hok as [|c chunk Hc _ IH]; intros s Hv Hq Hvs Hqs; cbn [foldM]; [by eexists|].
  cbn [map] in *. rewrite sumZ_cons in *.
  pose proof (vol_nonneg c). pose proof (sq_nonneg c).
  pose proof (sum_map_nonneg vol chunk vol_nonneg). pose proof (sum_map_nonneg sq chunk sq_nonneg).
  unfold coarseStep at 1. rewrite Root_spec by done. cbn [obind].
  fold (BytesToUint256 (Volume c)) (BytesToUint256 (SumSquares c)). fold (vol c) (sq c).
  rewrite !not_overflow by lia. cbn [obind]. apply IH; simpl; lia.
Qed.

Lemma variance_range v q n : 0 <= q < two256 -> is_u256 (varianceOf v q n).
Proof.
  intros Hq. unfold varianceOf, is_u256. destruct (n >? 0) eqn:E; [|done]. bsimp.
  pose proof (Z.div_pos q n ltac:(lia) ltac:(lia)). pose proof (Z.square_nonneg (v / n)).
  assert (q / n <= q) by (apply Z.div_le_upper_bound; nia).
  destruct (_ <? 0) eqn:?; bsimp; [done|]. lia.
Qed.

Lemma coarseGrain_ok chunk ps :
  Forall node_ok chunk -> sumZ (map vol chunk) < two256 -> sumZ (map sq chunk) < two256 ->
  exists p, coarseGrain chunk ps = Ok p.
Proof.
  intros Hok Hv Hq. destruct (coarse_fold_ok chunk (mkSums 0 0 0 0 []) Hok) as [s Hs]; [done..|].
  unfold coarseGrain. rewrite Hs. cbn [obind].
  pose proof (coarse_fold _ _ _ Hs) as (Ev & Eq & _). simpl in Ev, Eq.
  pose proof (sum_map_nonneg vol chunk vol_nonneg). pose proof (sum_map_nonneg sq chunk sq_nonneg).
  rewrite (Uint256ToBytes_ok (sumValues s)) by (unfold is_u256; lia). cbn [obind].
  rewrite (Uint256ToBytes_ok (varianceOf _ _ _)) by (apply variance_range; lia). cbn [obind].
  rewrite (Uint256ToBytes_ok (sumSq s)) by (unfold is_u256; lia). cbn [obind].
  unfold RecomputeSig at 1. cbn [Sig].
  match goal with |- context [negb (?a =? ?b)] => replace (a =? b) with true by (symmetry; by apply Z.eqb_eq) end.
  cbn [negb obind]. by eexists.
Qed.

Lemma list_choose {A} (P : nat -> A -> Prop) n :
  (forall i, (i < n)%nat -> exists a, P i a) ->
  exists l, length l = n /\ forall i a, l !! i = Some a -> P i a.
Proof.
  induction n as [|n IH]; intros Hall.
  - exists []. split; [done|]. intros i a. by rewrite lookup_nil.
  - destruct IH as (l & Hl & Hp); [intros; apply Hall; lia|]. destruct (Hall n) as [a Ha]; [lia|].
    exists (l ++ [a]). rewrite length_app. split; [simpl; lia|]. intros i b.
    rewrite lookup_app. destruct (l !! i) as [x|] eqn:E; [intros [= <-]; by apply Hp|].
    apply lookup_ge_None in E. intros Hb. apply list_lookup_singleton_Some in Hb as [Hi <-].
    by replace i with n by lia.
Qed.

Lemma chunk_sum_le (f : RGNode -> Z) l i : (forall n, 0 <= f n) -> sumZ (map f (chunkOf l i)) <= sumZ (map f l).
Proof.
  intros Hf. unfold chunkOf. rewrite <- (take_drop (i * K) l) at 2. rewrite map_app, sumZ_app.
  rewrite <- (take_drop K (drop (i * K) l)) at 2. rewrite map_app, sumZ_app.
  pose proof (sum_map_nonneg f (take (i * K) l) Hf). pose proof (sum_map_nonneg f (drop K (drop (i * K) l)) Hf). lia.
Qed.

Lemma chunkOf_Forall (P : RGNode -> Prop) l i : Forall P l -> Forall P (chunkOf l i).
Proof. intros Hl. unfold chunkOf. by apply Forall_take, Forall_drop. Qed.

Lemma coarsenLayer_ok k l :
  uniform k l -> l <> [] -> (S k <= 8)%nat -> sumZ (map vol l) < two256 -> sumZ (map sq l) < two256 ->
  exists next, coarsenLayer l = Ok next.
Proof.
  intros [Hk Hu] Hne Hk' Hv Hq. destruct l as [|c l]; [done|].
  pose proof (proj1 (proj1 (Forall_cons _ _ _) Hu)) as [Hs _].
  destruct (NullNode_ok (4 ^ Z.of_nat k)) as (cs & r & Hn & _ & Hnok & _); [by apply ValidScale_pow|].
  edestruct (list_choose (fun i p => coarsenChunk (chunkOf (c :: l) i) (Scale c) (wrap32 (Scale c * Z.of_nat K)) = Ok p)
               (parentCount (length (c :: l)))) as (next & Hlen & Hall).
  - intros i Hi. rewrite Hs. erewrite coarsenChunk_eq by (done || by apply chunkOf_length || by apply ValidScale_pow).
    destruct (null_fields _ _ Hn) as (N1 & N2 & _).
    apply coarseGrain_ok.
    + apply Forall_app. split; [|by apply Forall_replicate].
      apply chunkOf_Forall. eapply Forall_impl; [exact Hu|]. by intros n [_ ?].
    + rewrite map_pad_sum by done. pose proof (chunk_sum_le vol (c :: l) i vol_nonneg). lia.
    + rewrite map_pad_sum by done. pose proof (chunk_sum_le sq (c :: l) i sq_nonneg). lia.
  - exists next. apply coarsenLayer_spec. split; [|done]. rewrite Hs, pow4_wrap by done. by apply ValidScale_pow.
Qed.

Lemma linked_exists d k l :
  (k + d = 8)%nat -> uniform k l -> l <> [] -> zlen l <= 4 ^ Z.of_nat d ->
  sumZ (map vol l) < two256 -> sumZ (map sq l) < two256 -> exists rest, linked (l :: rest).
Proof.
  revert k l. induction d as [|d IH]; intros k l Hkd Hu Hne Hlen Hv Hq.
  all: destruct l as [|c [|c' l]]; [done|exists []; constructor|].
  { rewrite !zlen_cons in Hlen. pose proof (zlen_nonneg l). change (4 ^ Z.of_nat 0) with 1 in Hlen. lia. }
  set (ll := c :: c' :: l) in *. assert (1 < zlen ll) as H1.
  { unfold ll. rewrite !zlen_cons. pose proof (zlen_nonneg l). lia. }
  destruct (coarsenLayer_ok k ll Hu Hne ltac:(lia) Hv Hq) as [next Hn].
  destruct (layer_sums k ll next Hu Hne Hn) as (S1 & S2 & _).
  pose proof (coarsenLayer_length _ _ Hn) as Hnl.
  destruct (IH (S k) next) as [rest Hr]; try lia.
  - by eapply coarsenLayer_uniform.
  - intros ->. pose proof (parentCount_le (length ll)). unfold zlen in H1. change (0%nat = parentCount (length ll)) in Hnl. lia.
  - rewrite Nat2Z.inj_succ, Z.pow_succ_r in Hlen by lia. unfold zlen in *. rewrite Hnl.
    unfold parentCount. pose proof (Nat.div_mod_eq (length ll + 3) 4). pose proof (Nat.mod_upper_bound (length ll + 3) 4). lia.
  - exists (next :: rest). by constructor.
Qed.

Lemma linked_top_ok ls k l rest n :
  linked ls -> ls = l :: rest -> uniform k l -> last ls = Some [n] -> node_ok n.
Proof.
  intros Hl. revert k l rest. induction Hl as [m|l' next rest' Hlen Hc Hl IH]; intros k l rest Heq Hu Hlast.
  - injection Heq as <- _. injection Hlast as ->. destruct Hu as [_ Hu]. by apply Forall_cons in Hu as [[_ ?] _].
  - injection Heq as <- _. rewrite last_cons_cons in Hlast.
    eapply (IH (S k) next); [done| |done]. eapply coarsenLayer_uniform; [done| |done]. by intros ->.
Qed.

(** A transaction the tree accepts. *)
Definition tx_ok (t : tx.Tx) : Prop := is_Ok (tx.ID t) = true /\ exists v, tx.Value t = Some v /\ 0 <= v.

Definition valueOf (t : tx.Tx) : Z := default 0 (tx.Value t).

Lemma atomicLayer_ok txs :
  Forall tx_ok txs -> sumZ (map (fun t => valueOf t * valueOf t) txs) < two256 ->
  exists l, atomicLayer txs = Ok l /\ map vol l = map valueOf txs /\ map sq l = map (fun t => valueOf t * valueOf t) txs.
Proof.
  induction 1 as [|t txs [Hid (v & Hv & Hv0)] _ IH]; intros Hs; [by exists []|].
  cbn [map] in Hs. rewrite sumZ_cons in Hs. unfold valueOf at 1 2 in Hs. rewrite Hv in Hs. cbn in Hs.
  assert (0 <= sumZ (map (fun t => valueOf t * valueOf t) txs)).
  { apply sumZ_nonneg, Forall_map, Forall_forall. intros ? _. apply Z.square_nonneg. }
  pose proof (Z.square_nonneg v).
  destruct IH as (l & Hl & Hl1 & Hl2); [lia|].
  assert (exists n, makeAtomicNode t = Ok n) as [n Hn].
  { unfold makeAtomicNode. destruct (tx.ID t) as [id| |]; try done. cbn [obind]. rewrite Hv.
    assert (v <= v * v) by nia. rewrite not_overflow by lia.
    rewrite (Uint256ToBytes_ok v), (Uint256ToBytes_ok (v * v)) by (unfold is_u256; lia). by eexists. }
  exists (n :: l). unfold atomicLayer in *. cbn [mapM]. rewrite Hn. cbn [obind]. rewrite Hl. split; [done|].
  apply makeAtomicNode_inv in Hn as (? & v' & _ & Hv' & _ & _ & _ & Hvol & _). rewrite Hv in Hv'. injection Hv' as <-.
  destruct (Hvol Hv0) as [Ev Eq]. cbn [map]. rewrite Hl1, Hl2, Ev, Eq. unfold valueOf. by rewrite Hv.
Qed.

(** Liveness: every nonempty block of at most 65536 valid transactions whose
    squared values sum below 2^256 has a tree; building it neither errors,
    panics nor runs out of layers. *)
Theorem BuildTree_succeeds txs :
  txs <> [] -> zlen txs <= TMax -> Forall tx_ok txs ->
  sumZ (map (fun t => valueOf t * valueOf t) txs) < two256 ->
  exists t, BuildTree txs [] = Ok t.
Proof.
  intros Hne Hlen Hok Hs. destruct (atomicLayer_ok txs Hok Hs) as (l & Hl & Hv & Hq).
  pose proof (leaf_ok_uniform _ (atomicLayer_leaf_ok _ _ Hl)) as Hu.
  assert (length l = length txs) as Hll by (eapply mapM_length, Hl).
  destruct (linked_exists 8 0 l) as [rest Hlink]; try done.
  - by destruct l, txs.
  - unfold zlen in *. by rewrite Hll.
  - rewrite Hv. eapply Z.le_lt_trans; [|exact Hs]. clear -Hok.
    induction Hok as [|t txs [_ (v & Hv & Hv0)] _ IH]; [done|]. cbn [map]. rewrite !sumZ_cons.
    unfold valueOf at 1 3 4. rewrite Hv. cbn. nia.
  - by rewrite Hq.
  - unfold BuildTree. replace (zlen txs =? 0) with false by (symmetry; apply Z.eqb_neq; unfold zlen; destruct txs; done).
    cbn [andb]. ztest. ztest. rewrite Hl. cbn [obind]. rewrite app_nil_r.
    rewrite (coarsenAll_fuel _ l rest _ Hlink) by done. cbn [obind].
    destruct (linked_totals _ _ _ 0 Hlink eq_refl Hu) as (n & Hlast & _). rewrite Hlast.
    cbn [default from_option id]. change (index [n] 0) with (Ok (E := error) n). cbn [obind].
    assert (node_ok n) as Hn.
    { by eapply (linked_top_ok _ 0 l rest n). }
    rewrite Root_spec by done. by eexists.
Qed.
End Build.
