(* ===== verification/InclusionProofs.v ===== *)
(** * core/tree: inclusion proofs are complete and sound *)

From S2P Require Import Prelude GoBytes Errors Platform Tx TxProofs Node Tree Inclusion NodeProofs TreeProofs.
Import node tree inclusion.

Section Inclusion.
Context `{Platform}.

(** ** The children a step describes *)
Definition stepChildren (sibs : list (arr 32)) (pos : nat) (cur : arr 32) : list (arr 32) :=
  take pos sibs ++ cur :: drop pos sibs.

Lemma pos_cases pos : 0 <= pos < 4 -> pos = 0 \/ pos = 1 \/ pos = 2 \/ pos = 3.
Proof. lia. Qed.

Lemma compactChildren_spec step cur :
  length (Siblings step) = 3%nat -> 0 <= ChildIdx step < 4 ->
  compactChildren step cur = Ok (stepChildren (Siblings step) (Z.to_nat (ChildIdx step)) cur).
Proof.
  intros Hl Hi. destruct step as [? ? ? ? sibs ci]. simpl in *.
  destruct sibs as [|s0 [|s1 [|s2 [|]]]]; try discriminate.
  destruct (pos_cases ci Hi) as [->|[->|[->| ->]]]; reflexivity.
Qed.

Lemma compactChildren_panic step cur :
  length (Siblings step) = 3%nat -> 4 <= ChildIdx step -> compactChildren step cur = Panic.
Proof.
  intros Hl Hi. unfold compactChildren.
  destruct (Siblings step) as [|s0 [|s1 [|s2 [|]]]]; try discriminate.
  cbn [seq mapM]. repeat ztest. done.
Qed.

Lemma canonicalChildren_spec step cur :
  length (Siblings step) = 3%nat -> 0 <= ChildIdx step < 4 ->
  canonicalChildren step cur = stepChildren (Siblings step) (Z.to_nat (ChildIdx step)) cur.
Proof.
  intros Hl Hi. destruct step as [? ? ? ? sibs ci]. simpl in *.
  destruct sibs as [|s0 [|s1 [|s2 [|]]]]; try discriminate.
  destruct (pos_cases ci Hi) as [->|[->|[->| ->]]]; reflexivity.
Qed.

Lemma stepChildren_lookup sibs pos cur :
  (pos <= length sibs)%nat -> stepChildren sibs pos cur !! pos = Some cur.
Proof.
  intros Hp. unfold stepChildren. rewrite lookup_app_r by (rewrite length_take; lia).
  rewrite length_take. by replace (pos - pos `min` length sibs)%nat with 0%nat by lia.
Qed.

Lemma stepChildren_length sibs pos cur :
  (pos <= length sibs)%nat -> length (stepChildren sibs pos cur) = S (length sibs).
Proof. intros Hp. unfold stepChildren. rewrite length_app, length_take. simpl. rewrite length_drop. lia. Qed.

(** ** Soundness *)

(** The nodes below a root: leaves satisfying [L], inner nodes over four; their
    serializations are among the messages [M]. *)
Inductive in_tree (M : bytes -> Prop) (L : RGNode -> Prop) : RGNode -> Prop :=
| in_leaf n : M (ser n) -> L n -> leaf_ok n -> in_tree M L n
| in_inner n cs :
    M (ser n) -> length cs = 4%nat -> mapM Root cs = Ok (Children n) ->
    (forall i c, cs !! i = Some c -> in_tree M L c) -> in_tree M L n.

Lemma in_tree_message M L n : in_tree M L n -> M (ser n).
Proof. by intros [? ? ? ?|? ? ? ? ? ?]. Qed.

(** The messages the verifier hashes on its way up from a digest. *)
Fixpoint verifierMessages (cur : arr 32) (steps : list ProofStep) : list bytes :=
  match steps with
  | [] => []
  | s :: rest =>
    match compactChildren s cur with
    | Ok cs =>
      let m := nodeBytes (PScale s) (PVolume s) (PVariance s) (PSig s) 4 cs in
      m :: verifierMessages (hash.Hash m) rest
    | _ => []
    end
  end.

Definition leafMessage (leaf : ProofStep) (id : arr 32) : bytes :=
  nodeBytes 1 (PVolume leaf) (PVariance leaf) (PSig leaf) 1 [id].

Definition proofMessages (p : list ProofStep) (id : arr 32) : list bytes :=
  match p with
  | [] => []
  | leaf :: steps => leafMessage leaf id :: verifierMessages (hash.Hash (leafMessage leaf id)) steps
  end.

Lemma verifierMessages_app cur steps s mid cs :
  foldM compactStep cur steps = Ok mid -> compactChildren s mid = Ok cs ->
  verifierMessages cur (steps ++ [s]) =
    verifierMessages cur steps ++ [nodeBytes (PScale s) (PVolume s) (PVariance s) (PSig s) 4 cs].
Proof.
  revert cur. induction steps as [|s0 steps IH]; intros cur Hf Hcs; cbn [foldM app verifierMessages] in *.
  - injection Hf as ->. by rewrite Hcs.
  - unfold compactStep at 1 in Hf. destruct (compactChildren s0 cur) as [cs0| |]; cbn [obind] in Hf; [|done..].
    cbv zeta. unfold hash.Hash. rewrite (IH _ Hf Hcs). done.
Qed.

Definition step_ok (s : ProofStep) : Prop :=
  length (Siblings s) = 3%nat /\ 0 <= ChildIdx s.

Lemma Hash_Root (M : bytes -> Prop) n r a :
  M (ser n) -> M a -> Root n = Ok r -> r = hash.Hash a -> ser n = a \/ hash.collision M.
Proof. intros Hn Ha [_ ->]%Root_inv He. by apply hash.Hash_inj_or_collision. Qed.

(** Walking the steps from the top: the digest before the steps is the root of
    a node of the tree. *)
Lemma compact_down M L steps cur r n :
  Forall step_ok steps -> in_tree M L n -> Root n = Ok r -> foldM compactStep cur steps = Ok r ->
  Forall M (verifierMessages cur steps) ->
  (exists c, in_tree M L c /\ Root c = Ok cur) \/ hash.collision M.
Proof.
  revert n r. induction steps as [|s steps IH] using rev_ind; intros n r Hok Hn Hr Hf HM.
  - cbn [foldM] in Hf. simplify_eq. left. eauto.
  - rewrite foldM_app in Hf. apply obind_ok_inv in Hf as (mid & Hmid & Hf).
    apply Forall_app in Hok as [Hok [Hs _]%Forall_cons]. cbn [foldM] in Hf.
    apply obind_ok_inv in Hf as (r' & Hstep & [= ->]). unfold compactStep in Hstep.
    apply obind_ok_inv in Hstep as (cs & Hcs & [= Hh]). destruct Hs as (Hs3 & Hci).
    destruct (Z_lt_dec (ChildIdx s) 4) as [Hlt|Hge];
      [|by rewrite compactChildren_panic in Hcs by (done || lia)].
    rewrite (verifierMessages_app _ _ _ _ _ Hmid Hcs) in HM. apply Forall_app in HM as [HM [HMs _]%Forall_cons].
    rewrite compactChildren_spec in Hcs by done. simplify_eq.
    destruct (Hash_Root M n _ _ (in_tree_message _ _ _ Hn) HMs Hr eq_refl) as [Heq|]; [|by right].
    unfold ser in Heq. apply nodeBytes_inj in Heq as (_ & _ & Hch).
    assert (length (stepChildren (Siblings s) (Z.to_nat (ChildIdx s)) mid) = 4%nat) as Hz4.
    { rewrite stepChildren_length by lia. by rewrite Hs3. }
    inversion Hn as [n' _ HL [_ Hc1] | n' ccs _ Hl4 Hm Hall]; subst n'.
    { rewrite Hch in Hc1. unfold zlen in Hc1. lia. }
    assert (Children n !! Z.to_nat (ChildIdx s) = Some mid) as Hmidc.
    { rewrite Hch. apply stepChildren_lookup. lia. }
    apply mapM_Forall2 in Hm. destruct (Forall2_lookup_r _ _ _ _ _ Hm Hmidc) as (c & Hc & Hrc).
    apply (IH c mid); [done|by eapply Hall|done|done|done].
Qed.

(** What a verified proof shows of the leaf. *)
Lemma VerifyProof_leaf M L leaf steps id n r :
  Forall step_ok (leaf :: steps) -> in_tree M L n -> Root n = Ok r -> Forall M (proofMessages (leaf :: steps) id) ->
  VerifyProof (Some (leaf :: steps)) id r = Ok true ->
  (exists m, L m /\ Children m = [id] /\ Volume m = PVolume leaf /\ Variance m = PVariance leaf) \/ hash.collision M.
Proof.
  intros Hok Hn Hr [HMl HMs]%Forall_cons Hv. unfold VerifyProof in Hv. osteps Hv. bsimp. simplify_eq. apply Forall_cons in Hok as [Hleaf Hok].
  assert (a = r) as -> by (by apply (bool_decide_eq_true (a = r)); congruence).
  match goal with H : foldM compactStep _ _ = Ok r |- _ =>
    destruct (compact_down M L _ _ _ n Hok Hn Hr H HMs) as [(c & Hc & Hrc)|]; [|by right] end.
  destruct (Hash_Root M c _ _ (in_tree_message _ _ _ Hc) HMl Hrc eq_refl) as [Heq|]; [left|by right].
  unfold ser, leafMessage in Heq. apply nodeBytes_inj in Heq as (? & ? & Hch).
  inversion Hc as [m _ HL [Hs1 Hc1] | m ccs _ Hl4 Hm Hall]; subst m; [by exists c|].
  apply mapM_length in Hm. rewrite Hch in Hm. simpl in Hm. lia.
Qed.

(** ** Built trees *)
Definition leafOf (leaves : list RGNode) (n : RGNode) : Prop := n ∈ leaves \/ NullNode 1 = Ok n.

(** The serializations of the null nodes, and of the nodes of a tree. *)
Definition nullMessage (m : bytes) : Prop := exists k n, (k <= 8)%nat /\ NullNode (4 ^ Z.of_nat k) = Ok n /\ m = ser n.
Definition layersMessage (ls : list (list RGNode)) (m : bytes) : Prop :=
  nullMessage m \/ exists l n, l ∈ ls /\ n ∈ l /\ m = ser n.

Lemma layersMessage_sub ls ls' m : ls ⊆ ls' -> layersMessage ls m -> layersMessage ls' m.
Proof. intros Hs [?|(l & n & Hl & ?)]; [by left|right]. exists l, n. split; [by apply Hs|done]. Qed.

Lemma null_in_tree M leaves k c :
  (forall m, nullMessage m -> M m) -> (k <= 8)%nat -> NullNode (4 ^ Z.of_nat k) = Ok c -> in_tree M (leafOf leaves) c.
Proof.
  intros HM. revert c. induction k as [|k IH]; intros c Hk Hc; assert (M (ser c)) as Hmc by (apply HM; by eexists _, _).
  - destruct (NullNode_ok 1 eq_refl) as (cs & r & Hn & _ & [Hs Ha] & [[_ Hcs]|[? _]]); [|done].
    change (4 ^ Z.of_nat 0) with 1 in Hc. rewrite Hn in Hc. injection Hc as <-.
    apply in_leaf; [done|by right|]. by split; [|rewrite Hcs].
  - destruct (NullNode_ok (4 ^ Z.of_nat (S k))) as (cs & r & Hn & _ & _ & Hcs); [by apply ValidScale_pow|].
    rewrite Hn in Hc. injection Hc as <-.
    destruct Hcs as [[H1 _]|(_ & _ & cc & rc & Hcc & Hrc & ->)].
    { by apply Z.eqb_eq in H1; rewrite pow4_ne1 in H1. }
    rewrite pow4_div in Hcc. apply (in_inner _ _ _ (replicate 4 cc)); [done|done| |].
    + cbn [replicate mapM]. rewrite Hrc. done.
    + intros i x [-> _]%lookup_replicate. apply IH; [lia|done].
Qed.

Lemma lookup_chunkOf l i j : chunkOf l i !! j = if decide (j < 4)%nat then l !! (i * 4 + j)%nat else None.
Proof. unfold chunkOf, K. by rewrite lookup_take, lookup_drop. Qed.

Lemma parent_in_tree M leaves k l next i p :
  (forall m, nullMessage m -> M m) -> Forall (fun n => M (ser n)) next ->
  uniform k l -> coarsenLayer l = Ok next -> Forall (in_tree M (leafOf leaves)) l ->
  next !! i = Some p -> in_tree M (leafOf leaves) p.
Proof.
  intros HM HMn Hu Hc Hl Hi. assert (M (ser p)) as Hmp by (rewrite Forall_lookup in HMn; by eapply HMn). pose proof (lookup_lt_Some _ _ _ Hi) as Hlt. rewrite (coarsenLayer_length _ _ Hc) in Hlt.
  pose proof (chunkOf_length _ _ Hlt) as Hcl.
  eapply coarsenLayer_parent in Hi as (Hk & c & Hn & Hg); [|done..].
  apply coarseGrain_inv in Hg as (_ & Hm & _). eapply in_inner; [done| |exact Hm|].
  - rewrite length_app, length_replicate. unfold K. lia.
  - intros j x [Hx|(_ & [-> _]%lookup_replicate)]%lookup_app_Some.
    + rewrite Forall_forall in Hl. apply Hl. rewrite lookup_chunkOf in Hx. case_decide; [|done].
      by eapply list_elem_of_lookup_2.
    + apply (null_in_tree _ _ k); [done|lia|done].
Qed.

Lemma linked_in_tree M leaves ls l rest k n :
  (forall m, layersMessage ls m -> M m) ->
  linked ls -> ls = l :: rest -> uniform k l -> Forall (in_tree M (leafOf leaves)) l ->
  last ls = Some [n] -> in_tree M (leafOf leaves) n.
Proof.
  intros HM Hl. revert HM l rest k. induction Hl as [m|l' next rest' Hlen Hc Hl IH]; intros HM l rest k Heq Hu Hin Hlast.
  - injection Heq as <- _. injection Hlast as ->. by apply Forall_cons in Hin as [? _].
  - injection Heq as <- _. rewrite last_cons_cons in Hlast.
    assert (l' <> []) as Hne by (intros ->; done).
    assert (forall m, layersMessage (next :: rest') m -> M m) as HM'
      by (intros m Hm; apply HM; eapply layersMessage_sub; [|done]; set_solver).
    eapply (IH HM' next rest' (S k)); [done|by eapply coarsenLayer_uniform| |done].
    apply Forall_lookup. intros i p Hp. eapply (parent_in_tree M); [| |done..].
    + intros m Hm. apply HM. by left.
    + apply Forall_forall. intros x Hx. apply HM. right. exists next, x. split; [right; left|done].
Qed.


(** ** Completeness *)
Definition collectBody (chunk : list RGNode) (pos : nat) (sibs : list (arr 32)) (j : nat) : res (list (arr 32)) :=
  match chunk !! j with
  | None => Ok sibs
  | Some n => if Nat.eqb j pos then Ok sibs else let* r := Root n in Ok (sibs ++ [r])
  end.

Lemma foldM_ext {E S A} (f g : S -> A -> outcome E S) l s :
  (forall t a, a ∈ l -> f t a = g t a) -> foldM f s l = foldM g s l.
Proof.
  revert s. induction l as [|a l IH]; intros s Hfg; cbn [foldM]; [done|].
  rewrite Hfg by set_solver. apply obind_ext. intros t _. apply IH. intros; apply Hfg. set_solver.
Qed.

Lemma quot4 i pos : (pos < 4)%nat -> Z.quot (Z.of_nat (i * 4 + pos)) (Z.of_nat K) = Z.of_nat i.
Proof.
  intros Hp. rewrite Z.quot_div_nonneg by (unfold K; lia). unfold K.
  symmetry. apply (Z.div_unique _ _ _ (Z.of_nat pos)); lia.
Qed.

Lemma collectSiblings_chunk l i pos :
  (pos < 4)%nat ->
  collectSiblings l (Z.of_nat (i * 4 + pos)) (Z.of_nat i * Z.of_nat K) =
  foldM (collectBody (chunkOf l i) pos) [] (seq 0 K).
Proof.
  intros Hp. unfold collectSiblings. apply foldM_ext. intros sibs j Hj%elem_of_seq. unfold K in *.
  unfold collectBody. rewrite lookup_chunkOf, decide_True by lia.
  replace (Z.of_nat i * Z.of_nat 4 + Z.of_nat j) with (Z.of_nat (i * 4 + j)) by lia.
  destruct (l !! (i * 4 + j)%nat) as [n|] eqn:E.
  - apply lookup_lt_Some in E as Hlt. unfold zlen. ztest. cbn [negb].
    replace (Z.of_nat (i * 4 + j) =? Z.of_nat (i * 4 + pos)) with (Nat.eqb j pos).
    + destruct (Nat.eqb j pos); [done|]. unfold index. ztest. by rewrite Nat2Z.id, E.
    + destruct (Nat.eqb_spec j pos); symmetry; [apply Z.eqb_eq|apply Z.eqb_neq]; lia.
  - apply lookup_ge_None in E. unfold zlen. ztest. done.
Qed.

Lemma fillSiblings_ok n sibs c l nn r :
  NullNode (Scale c) = Ok nn -> Root nn = Ok r ->
  fillSiblings n sibs (c :: l) = Ok (sibs ++ replicate n r).
Proof.
  intros Hn Hr. revert sibs. induction n as [|n IH]; intros sibs; cbn [fillSiblings replicate].
  - by rewrite app_nil_r.
  - change (index (c :: l) 0) with (Ok (E := error) c). cbn [obind]. rewrite Hn. cbn [obind]. rewrite Hr. cbn [obind].
    rewrite IH, <- app_assoc. done.
Qed.

(** The siblings of a node in its padded chunk, with the node's own root put
    back, are the children of the parent. *)
Lemma collect_fill chunk pos n rs nr r :
  (1 <= length chunk <= 4)%nat -> chunk !! pos = Some n -> Root n = Ok r ->
  mapM Root chunk = Ok rs ->
  exists sibs, foldM (collectBody chunk pos) [] (seq 0 K) = Ok sibs /\
    length (sibs ++ replicate (3 - length sibs) nr) = 3%nat /\
    stepChildren (sibs ++ replicate (3 - length sibs) nr) pos r = rs ++ replicate (K - length chunk) nr.
Proof.
  intros Hl Hp Hr Hm. apply mapM_Forall2 in Hm.
  destruct chunk as [|a [|b [|c [|d [|]]]]]; simpl in Hl; try lia;
    repeat match goal with H : Forall2 _ (_ :: _) _ |- _ => inversion H; subst; clear H
                         | H : Forall2 _ [] _ |- _ => inversion H; subst; clear H end.
  all: destruct pos as [|[|[|[|pos]]]]; cbn in Hp; try discriminate Hp; injection Hp as <-.
  all: match goal with H1 : Root ?x = Ok ?u, H2 : Root ?x = Ok ?v |- _ =>
         tryif constr_eq u v then fail else (assert (v = u) by congruence; subst v) end.
  all: eexists; (split; [unfold K; cbn [seq foldM]; unfold collectBody; cbn [lookup list_lookup Nat.eqb];
         repeat match goal with H : Root ?x = Ok _ |- context [Root ?x] => rewrite H; cbn [obind] end; reflexivity
       | split; reflexivity]).
Qed.

Lemma node_ok_Roots l : Forall node_ok l -> exists rs, mapM Root l = Ok rs.
Proof.
  induction 1 as [|n l Hn _ [rs IH]]; [by exists []|]. cbn [mapM]. rewrite Root_spec by done. cbn [obind].
  rewrite IH. by eexists.
Qed.

Lemma mapM_app {E A B} (f : A -> outcome E B) l1 l2 bs :
  mapM f (l1 ++ l2) = Ok bs -> exists b1 b2, mapM f l1 = Ok b1 /\ mapM f l2 = Ok b2 /\ bs = b1 ++ b2.
Proof.
  revert bs. induction l1 as [|a l1 IH]; intros bs Hm; cbn [app mapM] in *; [by exists [], bs|].
  osteps Hm. simplify_eq. destruct (IH _ eq_refl) as (b1 & b2 & -> & -> & ->). by eexists (_ :: b1), b2.
Qed.

Lemma mapM_replicate {E A B} (f : A -> outcome E B) n a b : f a = Ok b -> mapM f (replicate n a) = Ok (replicate n b).
Proof. intros Hf. induction n; cbn [replicate mapM]; [done|]. rewrite Hf. cbn [obind]. by rewrite IHn. Qed.

(** One level: the step exists and takes the node's root to its parent's. *)
Lemma step_complete k l next idx n p :
  uniform k l -> coarsenLayer l = Ok next ->
  l !! idx = Some n -> next !! (idx / 4)%nat = Some p ->
  exists sibs step r rp, stepSiblings l (Z.of_nat idx) = Ok sibs /\ makeStep sibs next (Z.of_nat idx) = Ok step /\
    Root n = Ok r /\ Root p = Ok rp /\ compactStep r step = Ok rp /\ step_ok step.
Proof.
  intros Hu Hc Hn Hp. pose proof (Nat.div_mod_eq idx 4) as Hdm. pose proof (Nat.mod_upper_bound idx 4 ltac:(lia)) as Hpos.
  set (i := (idx / 4)%nat) in *. set (pos := (idx mod 4)%nat) in *.
  assert (idx = i * 4 + pos)%nat as Hidx by lia. clear Hdm. clearbody i pos. subst idx.
  pose proof (lookup_lt_Some _ _ _ Hp) as Hlt. rewrite (coarsenLayer_length _ _ Hc) in Hlt.
  pose proof (chunkOf_length _ _ Hlt) as Hcl.
  destruct l as [|c l]; [done|]. assert (uniform (S k) next) as Hun by by eapply coarsenLayer_uniform.
  destruct (coarsenLayer_parent _ _ _ _ _ Hu Hc Hp) as (Hk & nc & Hnull & Hg).
  apply coarseGrain_inv in Hg as (Hsc & Hm & _).
  apply mapM_app in Hm as (rs & ns & Hrs & Hns & Hch).
  destruct (NullNode_ok (4 ^ Z.of_nat k)) as (cs & nr & Hn' & Hnr & _); [apply ValidScale_pow; lia|].
  rewrite Hn' in Hnull. injection Hnull as <-.
  rewrite (mapM_replicate _ _ _ _ Hnr) in Hns. injection Hns as <-.
  assert (chunkOf (c :: l) i !! pos = Some n) as Hcn.
  { rewrite lookup_chunkOf, decide_True by lia. exact Hn. }
  assert (node_ok n) as Hnok. { destruct Hu as [_ Hu]. rewrite Forall_lookup in Hu. by apply (Hu _ _ Hn). }
  destruct (collect_fill _ _ _ _ nr _ Hcl Hcn (Root_spec n Hnok) Hrs) as (sibs & Hcol & Hl3 & Hsc').
  assert (node_ok p) as Hpok. { destruct Hun as [_ Hun]. rewrite Forall_lookup in Hun. by apply (Hun _ _ Hp). }
  assert (Scale c = 4 ^ Z.of_nat k) as Hscale. { destruct Hu as [_ Hu]. by apply Forall_cons in Hu as [[? _] _]. }
  exists (sibs ++ replicate (3 - length sibs) nr). eexists. exists (hash.Hash (ser n)), (hash.Hash (ser p)). split_and!.
  - unfold stepSiblings. rewrite quot4, collectSiblings_chunk, Hcol by done. cbn [obind].
    apply fillSiblings_ok with (nn := nullNode (4 ^ Z.of_nat k) cs); [by rewrite Hscale|done].
  - unfold makeStep. rewrite quot4 by done. unfold index. ztest. rewrite Nat2Z.id, Hp. cbn [obind]. reflexivity.
  - by apply Root_spec.
  - by apply Root_spec.
  - unfold compactStep. cbn [PScale PVolume PVariance PSig].
    assert (wrap8 (Z.of_nat (i * 4 + pos) - Z.of_nat i * Z.of_nat K) = Z.of_nat pos) as Hw.
    { unfold wrap8, K, two8. rewrite Z.mod_small; lia. }
    rewrite compactChildren_spec by (first [done | simpl; rewrite Hw; lia]). cbn [Siblings ChildIdx obind].
    rewrite Hw, Nat2Z.id, Hsc'. unfold hash.Hash, ser. rewrite <- Hch.
    replace (zlen (Children p)) with 4; [done|]. destruct Hpok as [_ ->]. rewrite Hsc. unfold arity. by rewrite pow4_ne1.
  - split; [done|]. simpl. apply Z.mod_pos_bound. done.
Qed.

Lemma layerLoop_cons l next rest idx :
  layerLoop (l :: next :: rest) idx =
    let* sibs := stepSiblings l idx in
    let* step := makeStep sibs next idx in
    let* steps := layerLoop (next :: rest) (Z.quot idx (Z.of_nat K)) in
    Ok (step :: steps).
Proof. done. Qed.

Lemma layerLoop_complete ls l rest k idx n top :
  linked ls -> ls = l :: rest -> uniform k l -> l !! idx = Some n -> last ls = Some [top] ->
  exists steps r rt, layerLoop ls (Z.of_nat idx) = Ok steps /\ Root n = Ok r /\ Root top = Ok rt /\
    foldM compactStep r steps = Ok rt /\ Forall step_ok steps.
Proof.
  intros Hl. revert l rest k idx n. induction Hl as [m|l' next rest' Hlen Hc Hl IH]; intros l rest k idx n Heq Hu Hn Hlast.
  - injection Heq as <- _. injection Hlast as <-. apply list_lookup_singleton_Some in Hn as [-> <-].
    destruct Hu as [_ [[_ Hok] _]%Forall_cons]. exists [], (hash.Hash (ser m)), (hash.Hash (ser m)).
    rewrite Root_spec by done. done.
  - injection Heq as <- _. rewrite last_cons_cons in Hlast. assert (l' <> []) as Hne by (intros ->; done).
    pose proof (coarsenLayer_uniform _ _ _ Hu Hne Hc) as Hu'.
    assert (is_Some (next !! (idx / 4)%nat)) as [p Hp].
    { apply lookup_lt_is_Some. rewrite (coarsenLayer_length _ _ Hc). apply parentCount_spec.
      pose proof (lookup_lt_Some _ _ _ Hn). pose proof (Nat.div_mod_eq idx 4). lia. }
    destruct (step_complete _ _ _ _ _ _ Hu Hc Hn Hp) as (sibs & step & r & rp & Hs & Hst & Hr & Hrp & Hstep & Hsok).
    destruct (IH next rest' (S k) (idx / 4)%nat p eq_refl Hu' Hp Hlast) as (steps & r' & rt & Hloop & Hr' & Hrt & Hf & Hfok).
    rewrite Hrp in Hr'. injection Hr' as <-.
    exists (step :: steps), r, rt. split_and!; [|done|done|by cbn [foldM]; rewrite Hstep|by constructor].
    rewrite layerLoop_cons, Hs. cbn [obind]. rewrite Hst. cbn [obind].
    assert (Z.quot (Z.of_nat idx) (Z.of_nat K) = Z.of_nat (idx / 4)) as ->; [|by rewrite Hloop].
    rewrite Z.quot_div_nonneg by (unfold K; lia). by rewrite Nat2Z.inj_div.
Qed.

(** The package-level generator computes the same steps. *)
Lemma stepLoop_layerLoop ls l rest fuel idx :
  linked ls -> ls = l :: rest -> (length l <= fuel)%nat -> stepLoop fuel l idx = layerLoop ls idx.
Proof.
  intros Hl. revert l rest fuel idx. induction Hl as [n|l' next rest' Hlen Hc Hl IH]; intros l rest fuel idx Heq Hf.
  - injection Heq as <- _. by destruct fuel.
  - injection Heq as <- _. unfold zlen in Hlen. destruct fuel as [|fuel]; [lia|]. rewrite layerLoop_cons. cbn [stepLoop].
    unfold zlen. ztest. ztest. apply obind_ext. intros sibs _. rewrite Hc. cbn [obind].
    apply obind_ext. intros step _. rewrite (IH next rest'); [done..|].
    pose proof (coarsenLayer_length _ _ Hc) as Hn. pose proof (parentCount_le (length l')). lia.
Qed.

(** The proof of a leaf of a built tree, and what the verifier makes of it. *)
Lemma leaf_proof txs cn t leaves i n id :
  Forall leaf_ok cn -> BuildTree txs cn = Ok t -> atomicLayer txs = Ok leaves ->
  (leaves ++ cn) !! i = Some n -> Children n = [id] ->
  exists steps, layers t <> [] /\ layerLoop (layers t) (Z.of_nat i) = Ok steps /\
    TreeGenerateProof t (Z.of_nat i) = Ok (leafStep n :: steps) /\
    VerifyProof (Some (leafStep n :: steps)) id (root t) = Ok true.
Proof.
  intros Hcn Hb Ha Hn Hch.
  assert (txs <> [] \/ cn <> []) as Hne.
  { destruct txs; [|by left]. right. intros ->. injection Ha as <-. done. }
  destruct (BuildTree_inv txs cn t Hcn Hne Hb) as (leaves' & rest & top & r & Ha' & Hls & Hl & Hu & Hlast & Hr & Hroot & _).
  rewrite Ha in Ha'. injection Ha' as <-.
  destruct (layerLoop_complete _ _ _ _ _ _ _ Hl Hls Hu Hn Hlast) as (steps & rn & rt & Hloop & Hrn & Hrt & Hf & _).
  rewrite Hr in Hrt. injection Hrt as <-. pose proof (lookup_lt_Some _ _ _ Hn) as Hlt.
  assert (Scale n = 1) as Hs1 by (destruct Hu as [_ Hu]; rewrite Forall_lookup in Hu; by apply (Hu _ _ Hn)).
  exists steps. split_and!; [by rewrite Hls|done| |].
  - unfold TreeGenerateProof. rewrite Hls at 1. change (index ((leaves ++ cn) :: rest) 0) with (Ok (E := error) (leaves ++ cn)).
    cbn [obind]. replace ((Z.of_nat i <? 0) || (Z.of_nat i >=? zlen (leaves ++ cn))) with false
      by (symmetry; apply orb_false_iff; rewrite Z.geb_leb; unfold zlen; split; [apply Z.ltb_ge|apply Z.leb_gt]; lia).
    assert (index (E := error) (leaves ++ cn) (Z.of_nat i) = Ok n) as -> by (unfold index; ztest; by rewrite Nat2Z.id, Hn).
    cbn [obind]. by rewrite Hloop.
  - unfold VerifyProof. cbn [PScale leafStep]. rewrite Hs1. cbn [Z.eqb negb].
    apply Root_inv in Hrn as [_ ->]. unfold hash.Hash, ser in Hf. rewrite Hs1, Hch in Hf.
    change (zlen [id]) with 1 in Hf. cbn [leafStep PVolume PVariance PSig]. change (1 =? 1) with true. cbn [negb].
    rewrite Hf. cbn [obind]. rewrite Hroot. by rewrite bool_decide_eq_true_2.
Qed.

(** C9.  Completeness of inclusion proofs: take any built tree, contract nodes
    included.  For every transaction of the block the tree generates a proof,
    which the compact verifier accepts for the transaction's ID and the tree's
    root without panicking; so it does for every contract node and its state
    root.  For a block that touches no contract, the package-level generator,
    which rebuilds the layers from the transactions alone, returns the same
    proof. *)
Theorem GenerateProof_complete txs cn t :
  Forall leaf_ok cn -> BuildTree txs cn = Ok t ->
  (forall i tr, txs !! i = Some tr ->
     exists p id, TreeGenerateProof t (Z.of_nat i) = Ok p /\ tx.ID tr = Ok id /\
       VerifyProof (Some p) id (root t) = Ok true /\ (cn = [] -> GenerateProof txs (Z.of_nat i) = Ok p)) /\
  (forall j c id, cn !! j = Some c -> Children c = [id] ->
     exists p, TreeGenerateProof t (zlen txs + Z.of_nat j) = Ok p /\ VerifyProof (Some p) id (root t) = Ok true).
Proof.
  intros Hcn Hb. assert (txs <> [] \/ cn <> [] -> exists leaves, atomicLayer txs = Ok leaves) as Hat.
  { intros Hne. destruct (BuildTree_inv txs cn t Hcn Hne Hb) as (leaves & _ & _ & _ & Ha & _). eauto. }
  split.
  - intros i tr Hi. assert (txs <> []) as Hne by (intros ->; done). destruct Hat as [leaves Ha]; [by left|].
    destruct (Forall2_lookup_l _ _ _ _ _ (atomicLayer_inv _ _ Ha) Hi) as (n & Hn & Hmk).
    apply makeAtomicNode_inv in Hmk as (id & v & Hid & _ & _ & Hch & _).
    destruct (leaf_proof txs cn t leaves i n id Hcn Hb Ha (lookup_app_l_Some _ _ _ _ Hn) Hch) as (steps & _ & Hloop & Hg & Hv).
    exists (leafStep n :: steps), id. split_and!; try done. intros ->.
    destruct (BuildTree_inv txs [] t Hcn (or_introl Hne) Hb) as (leaves' & rest & _ & _ & Ha' & Hls & Hl & _).
    rewrite Ha in Ha'. injection Ha' as <-. rewrite app_nil_r in Hls. pose proof (lookup_lt_Some _ _ _ Hi) as Hlt.
    unfold GenerateProof, generateStepProof. rewrite Ha.
    replace ((Z.of_nat i <? 0) || (Z.of_nat i >=? zlen txs)) with false
      by (symmetry; apply orb_false_iff; rewrite Z.geb_leb; unfold zlen; split; [apply Z.ltb_ge|apply Z.leb_gt]; lia).
    cbn [obind]. assert (index (E := error) leaves (Z.of_nat i) = Ok n) as -> by (unfold index; ztest; by rewrite Nat2Z.id, Hn).
    cbn [obind]. rewrite (stepLoop_layerLoop _ _ _ _ _ Hl Hls) by done. by rewrite Hloop.
  - intros j c id Hj Hch. destruct Hat as [leaves Ha]; [right; by intros ->|].
    pose proof (Forall2_length _ _ _ (atomicLayer_inv _ _ Ha)) as Hlen.
    destruct (leaf_proof txs cn t leaves (length leaves + j) c id Hcn Hb Ha) as (steps & _ & _ & Hg & Hv); [|done|].
    { rewrite lookup_app_r by lia. by replace (length leaves + j - length leaves)%nat with j by lia. }
    exists (leafStep c :: steps). split; [|done]. rewrite <- Hg. f_equal. unfold zlen. lia.
Qed.

(** A step the canonical verifier can serialize. *)
Definition step_canonical (s : ProofStep) : Prop :=
  length (Siblings s) = 3%nat /\ 0 <= ChildIdx s < 4 /\ hash.ValidScale (PScale s) = true /\ PScale s <> 1.

Lemma canonical_compact cur s : step_canonical s -> canonicalStep cur s = compactStep cur s.
Proof.
  intros (H3 & Hc & Hv & H1). unfold canonicalStep, compactStep.
  rewrite canonicalChildren_spec, compactChildren_spec by done. cbn [obind].
  assert (zlen (stepChildren (Siblings s) (Z.to_nat (ChildIdx s)) cur) = 4) as Hz.
  { unfold zlen. rewrite stepChildren_length by lia. by rewrite H3. }
  rewrite Root_spec.
  - unfold ser, stepNode, hash.Hash. cbn. by rewrite Hz.
  - split; [done|]. cbn. rewrite Hz. unfold arity. apply Z.eqb_neq in H1. by rewrite H1.
Qed.

(** The compact verifier is the canonical one on every proof whose steps have a
    valid inner scale and a child index below 4; on a child index of 4 or more
    the compact verifier panics, where the canonical one does not. *)
Theorem VerifyProof_canonical leaf steps id r :
  Forall step_canonical steps ->
  VerifyProof (Some (leaf :: steps)) id r = VerifyProofCanonical (Some (leaf :: steps)) id r /\
  (forall s, PScale leaf = 1 -> length (Siblings s) = 3%nat -> 4 <= ChildIdx s ->
     VerifyProof (Some (leaf :: steps ++ [s])) id r = Panic /\
     VerifyProofCanonical (Some (leaf :: steps ++ [s])) id r <> Panic).
Proof.
  intros Hs. assert (forall cur, foldM canonicalStep cur steps = foldM compactStep cur steps) as Hf.
  { intros cur. apply foldM_ext. intros t a Ha. apply canonical_compact. by rewrite Forall_forall in Hs; apply Hs. }
  assert (forall cur, exists d, foldM compactStep cur steps = Ok d) as Hd.
  { clear Hf. induction Hs as [|s l (H3 & Hc & _) _ IH]; intros cur; cbn [foldM]; [by eexists|].
    unfold compactStep at 1. rewrite compactChildren_spec by done. cbn [obind]. apply IH. }
  unfold VerifyProofCanonical, verifyProofCanonical, VerifyProof.
  assert (forall v w g, Root (mkRGNode 1 v w g [id] (zero_arr 32) 0 0) = Ok (sha256_Sum256 (nodeBytes 1 v w g 1 [id]))) as Hr1.
  { intros. by rewrite Root_spec. }
  split.
  - destruct (negb _); [done|]. rewrite Hr1. cbn [obind]. rewrite Hf.
    destruct (Hd (sha256_Sum256 (nodeBytes 1 (PVolume leaf) (PVariance leaf) (PSig leaf) 1 [id]))) as [d ->]. done.
  - intros s -> H3 H4. change (1 =? 1) with true. cbn [negb]. rewrite Hr1. cbn [obind]. rewrite !foldM_app, Hf.
    destruct (Hd (sha256_Sum256 (nodeBytes 1 (PVolume leaf) (PVariance leaf) (PSig leaf) 1 [id]))) as [d ->].
    cbn [obind foldM]. unfold compactStep at 1. rewrite compactChildren_panic by done. split; [done|].
    unfold canonicalStep, Root, Serialize.
    repeat match goal with |- context [if ?b then _ else _] => destruct b end; done.
Qed.
End Inclusion.
