(* ===== verification/UpdateProofs.v ===== *)
(** * core/tree: incremental update equals rebuilding *)

From S2P Require Import Prelude GoBytes Errors Platform Tx TxProofs Node Tree Inclusion NodeProofs TreeProofs.
Import node tree.

Section Update.
Context `{Platform}.

(** ** Deduplicated updates *)
Lemma insertUpdate_perm u l :
  Index u ∉ map Index l -> insertUpdate u l ≡ₚ u :: l.
Proof.
  induction l as [|v l IH]; intros Hn; cbn [insertUpdate]; [done|].
  cbn [map] in Hn. apply not_elem_of_cons in Hn as [Hne Hn].
  destruct (_ <? _); [done|]. destruct (_ =? _) eqn:E; bsimp; [done|].
  rewrite IH by done. constructor.
Qed.

Lemma dedupe_perm us : NoDup (map Index us) -> dedupe us ≡ₚ us.
Proof.
  intros Hnd. unfold dedupe.
  assert (forall acc, NoDup (map Index (acc ++ us)) ->
            foldl (fun l u => insertUpdate u l) acc us ≡ₚ acc ++ us) as Hgen; [|by apply (Hgen [])].
  clear Hnd. induction us as [|u us IH]; intros acc Hnd; cbn [foldl]; [by rewrite app_nil_r|].
  assert (insertUpdate u acc ≡ₚ u :: acc) as Hp.
  { apply insertUpdate_perm. rewrite map_app in Hnd. apply NoDup_app in Hnd as (_ & Hd & _).
    intros Hin. apply (Hd _ Hin). cbn [map]. apply elem_of_cons. by left. }
  rewrite IH.
  - rewrite <- Permutation_middle. by rewrite Hp.
  - rewrite map_app in *. eapply NoDup_Permutation_proper; [|exact Hnd].
    change (map Index (insertUpdate u acc)) with (Index <$> insertUpdate u acc). rewrite Hp. cbn.
    by rewrite <- Permutation_middle.
Qed.

(** ** Replacing leaves *)
Lemma replaceLeaves_spec us l (target : nat -> RGNode -> Prop) :
  NoDup (map Index us) ->
  Forall (fun u => 0 <= Index u < zlen l /\ (exists n, l !! Z.to_nat (Index u) = Some n /\ Sig n = SigAtomic) /\
                   exists n, makeAtomicNode (Tx_ u) = Ok n /\ target (Z.to_nat (Index u)) n) us ->
  exists l', replaceLeaves l us = (l', Ok tt) /\ length l' = length l /\
    (forall i, Z.of_nat i ∉ map Index us -> l' !! i = l !! i) /\
    (forall i n, Z.of_nat i ∈ map Index us -> l' !! i = Some n -> target i n).
Proof.
  intros Hnd. revert l. induction us as [|u us IH]; intros l Hall; cbn [replaceLeaves].
  { exists l. split_and!; try done. intros i n Hi. by apply elem_of_nil in Hi. }
  cbn [map] in Hnd. apply NoDup_cons in Hnd as [Hnin Hnd].
  apply Forall_cons in Hall as [(Hr & (n0 & Hn0 & Hs0) & (n & Hn & Ht)) Hall].
  replace ((Index u <? 0) || (Index u >=? zlen l)) with false
    by (symmetry; apply orb_false_iff; rewrite Z.geb_leb; split; [apply Z.ltb_ge|apply Z.leb_gt]; lia).
  rewrite Hn0, Hs0, Z.eqb_refl. cbn [negb]. rewrite Hn.
  destruct (IH Hnd (<[Z.to_nat (Index u):=n]> l)) as (l' & Hl' & Hlen & Hout & Hin).
  - apply Forall_forall. intros v Hv. rewrite Forall_forall in Hall.
    destruct (Hall v Hv) as (Hr' & (m & Hm & Hms) & Hmk).
    assert (Index v <> Index u) as Hne.
    { intros Heq. apply Hnin. rewrite <- Heq. by apply (list_elem_of_fmap_2 Index). }
    unfold zlen in *. rewrite length_insert. split; [lia|]. split; [|done].
    exists m. split; [|done]. rewrite list_lookup_insert_ne by lia. done.
  - exists l'. rewrite length_insert in Hlen. split_and!; [done|done| |].
    + cbn [map]. intros i [Hi1 Hi2]%not_elem_of_cons. rewrite Hout by done. rewrite list_lookup_insert_ne by lia. done.
    + cbn [map]. intros i m Hi Hm. destruct (decide (Z.of_nat i ∈ map Index us)) as [Hi'|Hi']; [by apply Hin|].
      apply elem_of_cons in Hi as [Hi|]; [|done]. rewrite Hout in Hm by done.
      replace (Z.to_nat (Index u)) with i in * by lia. rewrite list_lookup_insert_eq in Hm by (unfold zlen in Hr; lia).
      by injection Hm as <-.
Qed.

(** ** Rebuilding one level *)
Lemma rebuildChunk_eq k l next i p :
  uniform k l -> coarsenLayer l = Ok next -> next !! i = Some p ->
  rebuildChunk l (Z.of_nat i * Z.of_nat K) = Ok p.
Proof.
  intros Hu Hc Hi. pose proof (lookup_lt_Some _ _ _ Hi) as Hlt. rewrite (coarsenLayer_length _ _ Hc) in Hlt.
  pose proof (proj1 (parentCount_spec _ _) Hlt) as Hi4. pose proof (chunkOf_length _ _ Hlt) as Hcl.
  destruct (coarsenLayer_parent _ _ _ _ _ Hu Hc Hi) as (Hk & c & Hn & Hg).
  destruct l as [|a l]; [done|]. set (ll := a :: l) in *.
  assert (Scale a = 4 ^ Z.of_nat k) as Hs. { destruct Hu as [_ Hu]. by apply Forall_cons in Hu as [[? _] _]. }
  assert (index (E := error) ll 0 = Ok a) as Hix by done.
  unfold rebuildChunk. cbv zeta. unfold K in *.
  assert (slice (E := error) ll (Z.of_nat i * Z.of_nat 4)
            (if Z.of_nat i * Z.of_nat 4 + Z.of_nat 4 >? zlen ll then zlen ll else Z.of_nat i * Z.of_nat 4 + Z.of_nat 4)
          = Ok (chunkOf ll i)) as ->.
  { unfold zlen. destruct (_ >? _) eqn:E; bsimp; rewrite slice_ok by (unfold zlen; lia); f_equal; unfold chunkOf, K.
    - replace (Z.to_nat (Z.of_nat i * Z.of_nat 4)) with (i * 4)%nat by lia.
      rewrite (take_ge _ 4) by (rewrite length_drop; lia). apply take_ge. rewrite length_drop. lia.
    - replace (Z.to_nat (Z.of_nat i * Z.of_nat 4)) with (i * 4)%nat by lia. f_equal. lia. }
  cbn [obind]. rewrite Hix. cbn [obind]. rewrite Hs, pow4_wrap by lia.
  destruct (Nat.ltb (length (chunkOf ll i)) 4) eqn:E.
  - rewrite (padChunk_ok _ _ _ c Hn). cbn [obind]. done.
  - apply Nat.ltb_ge in E. cbn [obind]. replace (4 - length (chunkOf ll i))%nat with 0%nat in Hg by lia.
    cbn [replicate] in Hg. by rewrite app_nil_r in Hg.
Qed.

Lemma rebuildParents_spec below above target ps :
  length above = length target ->
  Forall (fun p => 0 <= p < zlen above /\
    exists n, target !! Z.to_nat p = Some n /\ rebuildChunk below (p * Z.of_nat K) = Ok n) ps ->
  exists above', rebuildParents below above ps = (above', Ok tt) /\ length above' = length above /\
    forall i, above' !! i = if decide (Z.of_nat i ∈ ps) then target !! i else above !! i.
Proof.
  revert above. induction ps as [|p ps IH]; intros above Hlen Hall; cbn [rebuildParents].
  { by exists above. }
  apply Forall_cons in Hall as [(Hr & n & Hn & Hreb) Hall]. rewrite Hreb.
  replace ((p <? 0) || (p >=? zlen above)) with false
    by (symmetry; apply orb_false_iff; rewrite Z.geb_leb; split; [apply Z.ltb_ge|apply Z.leb_gt]; lia).
  destruct (IH (<[Z.to_nat p:=n]> above)) as (above' & Ha & Hl & Hlook).
  { by rewrite length_insert. }
  { eapply Forall_impl; [exact Hall|]. intros q. unfold zlen. by rewrite length_insert. }
  rewrite length_insert in Hl. exists above'. split_and!; [done|done|]. intros i. rewrite Hlook.
  destruct (decide (Z.of_nat i ∈ ps)) as [Hi|Hi].
  - rewrite decide_True; [done|]. apply elem_of_cons. by right.
  - destruct (decide (Z.of_nat i = p)) as [<-|Hne].
    + rewrite decide_True by (apply elem_of_cons; by left). rewrite Nat2Z.id in *.
      rewrite list_lookup_insert_eq by (unfold zlen in Hr; lia). done.
    + rewrite decide_False by (rewrite elem_of_cons; tauto). rewrite list_lookup_insert_ne by lia. done.
Qed.

Lemma parentsOf_elem ps p : p ∈ parentsOf ps <-> exists q, q ∈ ps /\ p = Z.quot q (Z.of_nat K).
Proof.
  unfold parentsOf. rewrite elem_of_remove_dups, list_elem_of_fmap. split; intros (q & ? & ?); eauto.
Qed.

(** Two layers of one length that agree outside [ps]. *)
Definition agree (ps : list Z) (l l' : list RGNode) : Prop :=
  length l = length l' /\ forall i, Z.of_nat i ∉ ps -> l !! i = l' !! i.

Lemma agree_parents ps k l l' next next' :
  agree ps l l' -> uniform k l -> uniform k l' -> coarsenLayer l = Ok next -> coarsenLayer l' = Ok next' ->
  agree (parentsOf ps) next next'.
Proof.
  intros [Hlen Hag] Hu Hu' Hc Hc'.
  assert (length next = length next') as Hnl by by rewrite (coarsenLayer_length _ _ Hc), (coarsenLayer_length _ _ Hc'), Hlen.
  split; [done|]. intros i Hi. destruct (next !! i) as [p|] eqn:E.
  - pose proof (lookup_lt_Some _ _ _ E) as Hlt. rewrite Hnl in Hlt.
    destruct (lookup_lt_is_Some_2 _ _ Hlt) as [p' E']. rewrite E'. f_equal.
    destruct (coarsenLayer_parent _ _ _ _ _ Hu Hc E) as (_ & c & Hn & Hg).
    destruct (coarsenLayer_parent _ _ _ _ _ Hu' Hc' E') as (_ & c' & Hn' & Hg').
    rewrite Hn in Hn'. injection Hn' as <-.
    assert (chunkOf l i = chunkOf l' i) as Heq; [|rewrite Heq in Hg; congruence].
    apply list_eq. intros j. unfold chunkOf, K. rewrite !lookup_take, !lookup_drop. case_decide; [|done].
    apply Hag. intros Hin. apply Hi, parentsOf_elem. eexists. split; [exact Hin|].
    rewrite Z.quot_div_nonneg by (unfold K; lia). unfold K. apply (Z.div_unique _ _ _ (Z.of_nat j)); lia.
  - symmetry. apply lookup_ge_None. apply lookup_ge_None in E. lia.
Qed.

Lemma linked_inv l rest :
  linked (l :: rest) ->
  (exists n, l = [n] /\ rest = []) \/
  (exists next rest', rest = next :: rest' /\ 1 < zlen l /\ coarsenLayer l = Ok next /\ linked (next :: rest')).
Proof. inversion 1; subst; eauto 8. Qed.

(** Rebuilding the dirty paths upward gives the layers of the new leaves. *)
Lemma rebuildLevels_spec ls ls' l l' rest rest' k ps :
  linked ls -> linked ls' -> ls = l :: rest -> ls' = l' :: rest' ->
  uniform k l -> uniform k l' -> agree ps l l' -> Forall (fun p => 0 <= p < zlen l) ps ->
  rebuildLevels l' rest ps = (ls', Ok tt).
Proof.
  intros Hl. revert ls' l l' rest rest' k ps.
  induction Hl as [n|l0 next rest0 Hlen Hc Hl IH]; intros ls' l l' rest rest' k ps Hl' Heq Heq' Hu Hu' Hag Hps.
  - injection Heq as <- <-. destruct Hag as [Hln _]. subst ls'.
    destruct (linked_inv _ _ Hl') as [(n' & -> & ->)|(next1 & rest1 & -> & Hlen1 & _)]; [done|].
    unfold zlen in Hlen1. rewrite <- Hln in Hlen1. simpl in Hlen1. lia.
  - injection Heq as <- <-. subst ls'. rename l' into l1.
    destruct (linked_inv _ _ Hl') as [(n' & -> & ->)|(next1 & rest1 & -> & Hlen1 & Hc1 & Hl1)].
    { destruct Hag as [Hln _]. unfold zlen in Hlen. rewrite Hln in Hlen. simpl in Hlen. lia. }
    assert (l0 <> []) as Hne by (intros ->; done). assert (l1 <> []) as Hne1 by (intros ->; done).
    pose proof (agree_parents _ _ _ _ _ _ Hag Hu Hu' Hc Hc1) as Hagp.
    assert (Forall (fun p => 0 <= p < zlen next) (parentsOf ps)) as Hpps.
    { apply Forall_forall. intros p (q & Hq & ->)%parentsOf_elem. rewrite Forall_forall in Hps.
      specialize (Hps q Hq). rewrite Z.quot_div_nonneg by (unfold K; lia). unfold K in *. unfold zlen in *.
      rewrite (coarsenLayer_length _ _ Hc). split; [apply Z.div_pos; lia|].
      pose proof (proj2 (parentCount_spec (length l0) (Z.to_nat (q / 4)))) as Hpc.
      pose proof (Z.mul_div_le q 4 ltac:(lia)). pose proof (Z.div_pos q 4 ltac:(lia) ltac:(lia)).
      change (Z.of_nat 4) with 4. lia. }
    cbn [rebuildLevels].
    destruct (rebuildParents_spec l1 next next1 (parentsOf ps)) as (above & -> & Hal & Hlook).
    { by destruct Hagp. }
    { apply Forall_forall. intros p Hp. rewrite Forall_forall in Hpps. pose proof (Hpps p Hp) as Hr. split; [done|].
      destruct (lookup_lt_is_Some_2 next1 (Z.to_nat p)) as [x Hx].
      { destruct Hagp as [<- _]. unfold zlen in Hr. lia. }
      exists x. split; [done|]. pose proof (rebuildChunk_eq _ _ _ _ _ Hu' Hc1 Hx) as Hreb.
      rewrite Z2Nat.id in Hreb by lia. done. }
    assert (above = next1) as ->.
    { apply list_eq. intros i. rewrite Hlook. case_decide; [done|]. by apply Hagp. }
    pose proof (coarsenLayer_uniform _ _ _ Hu Hne Hc) as Hun.
    pose proof (coarsenLayer_uniform _ _ _ Hu' Hne1 Hc1) as Hun1.
    by rewrite (IH (next1 :: rest1) next next1 rest0 rest1 (S k) (parentsOf ps)).
Qed.

(** ** The whole operation *)
Definition updateTx (txs : list tx.Tx) (u : LeafUpdate) : list tx.Tx := <[Z.to_nat (Index u) := Tx_ u]> txs.

Lemma updateTx_length us txs : length (foldl updateTx txs us) = length txs.
Proof. revert txs. induction us as [|u us IH]; intros txs; cbn [foldl]; [done|]. rewrite IH. apply length_insert. Qed.

Lemma updateTx_lookup us txs i :
  NoDup (map Index us) -> Forall (fun u => 0 <= Index u < zlen txs) us ->
  (Z.of_nat i ∉ map Index us -> foldl updateTx txs us !! i = txs !! i) /\
  (forall u, u ∈ us -> Index u = Z.of_nat i -> foldl updateTx txs us !! i = Some (Tx_ u)).
Proof.
  revert txs. induction us as [|u us IH]; intros txs Hnd Hr; cbn [foldl].
  { split; [done|]. intros u Hu. by apply elem_of_nil in Hu. }
  cbn [map] in Hnd. apply NoDup_cons in Hnd as [Hnin Hnd]. apply Forall_cons in Hr as [Hru Hr].
  destruct (IH (updateTx txs u) Hnd) as [H1 H2].
  { eapply Forall_impl; [exact Hr|]. intros v. unfold zlen, updateTx. by rewrite length_insert. }
  split.
  - cbn [map]. intros [Hne Hi]%not_elem_of_cons. rewrite H1 by done. unfold updateTx.
    rewrite list_lookup_insert_ne by lia. done.
  - intros v [->|Hv]%elem_of_cons Hi; [|by apply H2]. rewrite H1 by by rewrite <- Hi.
    unfold updateTx. replace (Z.to_nat (Index u)) with i by lia. apply list_lookup_insert_eq. unfold zlen in Hru. lia.
Qed.

(** C10.  Incremental update is rebuilding: replacing leaf transactions (distinct
    indices) in a built tree recomputes only the paths to the root, and gives
    exactly the layers and the root of the tree built from the changed block. *)
Theorem UpdateLeaves_rebuilds txs cn t us t' :
  Forall leaf_ok cn -> txs <> [] -> BuildTree txs cn = Ok t ->
  us <> [] -> NoDup (map Index us) -> Forall (fun u => 0 <= Index u < zlen txs) us ->
  BuildTree (foldl updateTx txs us) cn = Ok t' ->
  exists t2 t3, UpdateLeaves t us = (t2, Ok tt) /\ layers t2 = layers t' /\ TreeRoot t2 = Ok (root t', t3).
Proof.
  intros Hcn Hne Hb Hus Hnd Hr Hb'.
  assert (foldl updateTx txs us <> []) as Hne'.
  { intros Heq. apply (f_equal length) in Heq. rewrite updateTx_length in Heq. by destruct txs. }
  destruct (BuildTree_inv _ _ _ Hcn (or_introl Hne) Hb) as (lv & rest & top & r & Ha & Hls & Hl & Hu & _).
  destruct (BuildTree_inv _ _ _ Hcn (or_introl Hne') Hb') as (lv' & rest' & top' & r' & Ha' & Hls' & Hl' & Hu' & Hlast' & Hr' & Hroot' & _).
  pose proof (mapM_length _ _ _ Ha) as HL. pose proof (mapM_length _ _ _ Ha') as HL'. rewrite updateTx_length in HL'.
  apply atomicLayer_inv in Ha, Ha'. pose proof (dedupe_perm us Hnd) as Hperm.
  assert (map Index (dedupe us) ≡ₚ map Index us) as Hmperm.
  { change (Index <$> dedupe us ≡ₚ Index <$> us). by rewrite Hperm. }
  assert (NoDup (map Index (dedupe us))) as Hnd' by by rewrite Hmperm.
  destruct (replaceLeaves_spec (dedupe us) (lv ++ cn) (fun i n => (lv' ++ cn) !! i = Some n) Hnd')
    as (l2 & Hrep & Hlen2 & Hout & Hin).
  { apply Forall_forall. intros u Hu0. rewrite Hperm in Hu0. rewrite Forall_forall in Hr. pose proof (Hr u Hu0) as Hru.
    unfold zlen in *. rewrite length_app. split; [lia|].
    destruct (lookup_lt_is_Some_2 lv (Z.to_nat (Index u))) as [n Hn]; [lia|].
    destruct (Forall2_lookup_r _ _ _ _ _ Ha Hn) as (tr & _ & Hmk).
    destruct (lookup_lt_is_Some_2 lv' (Z.to_nat (Index u))) as [n' Hn']; [lia|].
    destruct (Forall2_lookup_r _ _ _ _ _ Ha' Hn') as (tr' & Htr' & Hmk').
    split.
    - exists n. rewrite lookup_app_l by lia. split; [done|].
      by apply makeAtomicNode_inv in Hmk as (? & ? & _ & _ & _ & _ & ? & _).
    - exists n'. rewrite lookup_app_l by lia. split; [|done].
      destruct (updateTx_lookup us txs (Z.to_nat (Index u)) Hnd) as [_ Hlk]; [by apply Forall_forall|].
      rewrite (Hlk u Hu0) in Htr' by lia. by injection Htr' as <-. }
  assert (l2 = lv' ++ cn) as ->.
  { apply list_eq. intros i. destruct (decide (Z.of_nat i ∈ map Index (dedupe us))) as [Hi|Hi].
    - destruct (lookup_lt_is_Some_2 l2 i) as [n Hn].
      { rewrite Hmperm in Hi. apply list_elem_of_fmap in Hi as (u & Hiu & Hu0). rewrite Forall_forall in Hr.
        specialize (Hr u Hu0). rewrite Hlen2, length_app. unfold zlen in Hr. lia. }
      rewrite Hn. symmetry. by apply Hin.
    - rewrite Hout by done. rewrite Hmperm in Hi.
      destruct (Nat.lt_ge_cases i (length lv)).
      + rewrite !lookup_app_l by lia. destruct (updateTx_lookup us txs i Hnd Hr) as [Hsame _]. specialize (Hsame Hi).
        destruct (lookup_lt_is_Some_2 lv i) as [n Hn]; [done|]. destruct (lookup_lt_is_Some_2 lv' i) as [n' Hn']; [lia|].
        destruct (Forall2_lookup_r _ _ _ _ _ Ha Hn) as (tr & Htr & Hmk).
        destruct (Forall2_lookup_r _ _ _ _ _ Ha' Hn') as (tr' & Htr' & Hmk'). congruence.
      + rewrite !lookup_app_r by lia. f_equal. lia. }
  assert (rebuildLevels (lv' ++ cn) rest (map Index (dedupe us)) = (layers t', Ok tt)) as Hreb.
  { eapply (rebuildLevels_spec _ _ _ _ _ _ 0); [exact Hl|exact Hl'|done..| |].
    - split; [rewrite !length_app; lia|]. intros i Hi. symmetry. by apply Hout.
    - apply Forall_forall. intros p Hp. rewrite Hmperm in Hp. apply list_elem_of_fmap in Hp as (u & -> & Hu0).
      rewrite Forall_forall in Hr. specialize (Hr u Hu0). unfold zlen in *. rewrite length_app. lia. }
  exists (mkTree (layers t') (root t) true), (mkTree (layers t') (root t') false). split_and!; [|done|].
  - unfold UpdateLeaves. destruct us; [done|]. by rewrite Hls, Hrep, Hreb.
  - unfold TreeRoot. cbn [dirty layers]. destruct (last (layers t')) as [lst|] eqn:Elast; [|done]. simplify_eq.
    rewrite last_lookup in Elast. unfold index at 1. unfold zlen.
    assert (0 < length (layers t'))%nat by (rewrite Hls'; simpl; lia). ztest.
    replace (Z.to_nat (Z.of_nat (length (layers t')) - 1)) with (pred (length (layers t'))) by lia.
    rewrite Elast. cbn [obind]. change (index [top'] 0) with (Ok (E := error) top'). cbn [obind]. by rewrite Hr'.
Qed.
End Update.
