(* ===== verification/Contract.v ===== *)
(** * core/contract: contract state, and the host interface of the runtime

    The WebAssembly engine (wasmtime) is the class [Wasmtime]: running a
    function is a tree of host calls, each of which sees the instance's memory
    and the remaining fuel and answers with a result, the memory and the fuel
    after it.  Everything on the host side of that boundary is defined here
    from the source.  The curve arithmetic of gnark-crypto is in the same
    class: which points lie on the curves, and the product of pairings. *)

From S2P Require Import Prelude GoBytes Errors Platform Tx KV Ledger.

Module contract.

Definition maxStateKeyLen : Z := 32.
Definition maxStateValLen : Z := 64 * 1024.

(** ** The state store *)
Definition StateStore : Type := gmap bytes bytes.

Definition NewStateStore : StateStore := ∅.

(** Named with the store first: the package also has functions called [Get]. *)
Definition state_Get (s : StateStore) (key : bytes) : option bytes := s !! key.

Definition state_Set (s : StateStore) (key value : bytes) : res StateStore :=
  if (zlen key =? 0) || (zlen key >? maxStateKeyLen) then failf "contract state key length exceeds bounds" else
  if zlen value >? maxStateValLen then failf "contract state value length exceeds max" else
  if zlen value =? 0 then Ok (delete key s) else Ok (<[key := value]> s).

Definition state_Delete (s : StateStore) (key : bytes) : StateStore := delete key s.

(** Values are never written in place, so the copy of the map is the value itself. *)
Definition state_Clone (s : StateStore) : StateStore := s.

Definition state_Len (s : StateStore) : Z := Z.of_nat (size s).

Definition sortedKeys (s : StateStore) : list bytes := merge_sort bytes_le (map fst (map_to_list s)).

Definition valueAt (s : StateStore) (k : bytes) : bytes := default [] (s !! k).

(** Keys and values without their lengths. *)
Definition rootPreimage (s : StateStore) : bytes :=
  hash.DomainContractState ++ concat (map (fun k => k ++ valueAt s k) (sortedKeys s)).

Definition StateRoot `{Platform} (s : StateStore) : arr 32 := hash.Hash (rootPreimage s).

Definition entryBytes (s : StateStore) (k : bytes) : bytes :=
  [byte_of_Z (zlen k)] ++ k ++ put16 (wrap16 (zlen (valueAt s k))) ++ valueAt s k.

(** [None] is a nil slice. *)
Definition state_Serialize (s : StateStore) : option bytes :=
  let keys := sortedKeys s in
  if forallb (fun k => negb ((zlen k =? 0) || (zlen k >? maxStateKeyLen)) &&
                       negb (zlen (valueAt s k) >? maxStateValLen)) keys
  then Some (put16 (wrap16 (zlen keys)) ++ concat (map (entryBytes s) keys))
  else None.

(** One iteration per announced key; stops at the first malformed entry. *)
Fixpoint stateLoop (count : nat) (raw : bytes) (pos : Z) (s : StateStore) : res StateStore :=
  match count with
  | O => Ok s
  | S count =>
    if negb (pos <? zlen raw) then Ok s else
    if pos + 1 >? zlen raw then Ok s else
    let* kb := index raw pos in
    let keyLen := byte_to_Z kb in
    let pos := pos + 1 in
    if (keyLen =? 0) || (keyLen >? maxStateKeyLen) then Ok s else
    if pos + keyLen >? zlen raw then Ok s else
    let* key := slice raw pos (pos + keyLen) in
    let pos := pos + keyLen in
    if pos + 2 >? zlen raw then Ok s else
    let* valLen := u16_at raw pos in
    let pos := pos + 2 in
    if pos + valLen >? zlen raw then Ok s else
    let* val := slice raw pos (pos + valLen) in
    stateLoop count raw (pos + valLen) (<[key := val]> s)
  end.

Definition DeserializeState (raw : bytes) : res StateStore :=
  if zlen raw <? 2 then Ok NewStateStore else
  let* count := u16_at raw 0 in
  stateLoop (Z.to_nat count) raw 2 NewStateStore.

(** ** Gas constants *)
Definition GasDeployBase : Z := 100.
Definition GasDeployPerByte : Z := 1.
Definition GasCallBase : Z := 10.
Definition GasStorageRead : Z := 1.
Definition GasStorageWrite : Z := 50.
Definition GasTransferBase : Z := 50.
Definition GasBalanceRead : Z := 2.
Definition GasLogBase : Z := 1.
Definition FuelPerWasmOp : Z := 10.

Definition DeployGas (wasmLen baseFee : Z) : Z :=
  baseFee * GasDeployBase + baseFee * (wasmLen * GasDeployPerByte).
Definition CallGas (dataLen baseFee : Z) : Z := baseFee * GasCallBase.
Definition WasmFuelToGas (fuelConsumed baseFee : Z) : Z := fuelConsumed * baseFee.

Definition maxFuel : Z := 100000000000.
Definition FuelUnitsPerGas : Z := 1000.
Definition HostMemoryByteFuel : Z := FuelPerWasmOp.
Definition HostContextReadFuel : Z := FuelUnitsPerGas.
Definition HostStorageReadFuel : Z := GasStorageRead * FuelUnitsPerGas.
Definition HostStorageWriteFuel : Z := GasStorageWrite * FuelUnitsPerGas.
Definition HostBalanceReadFuel : Z := GasBalanceRead * FuelUnitsPerGas.
Definition HostLogFuel : Z := GasLogBase * FuelUnitsPerGas.
Definition HostTransferFuel : Z := GasTransferBase * FuelUnitsPerGas.
Definition HostBlockHeightFuel : Z := HostContextReadFuel.
Definition HostAddressReadFuel : Z := HostContextReadFuel.
Definition HostSelfBalanceFuel : Z := HostBalanceReadFuel.
Definition HostCalldataLengthFuel : Z := HostContextReadFuel.
Definition Bn254PairingInputBytes : Z := 192.
Definition Bn254PairingBaseFuel : Z := 100000.
Definition Bn254PairingPerPairFuel : Z := 12000000.

Definition Bn254PairingFuel (inputLen : Z) : res Z :=
  if (inputLen <? 0) || negb (Z.rem inputLen Bn254PairingInputBytes =? 0)
  then failf "bn254 pairing input length must be a multiple of 192 bytes" else
  let pairs := inputLen / Bn254PairingInputBytes in
  if pairs >? (two64 - 1 - Bn254PairingBaseFuel) / Bn254PairingPerPairFuel
  then failf "bn254 pairing input too large" else
  Ok (Bn254PairingBaseFuel + pairs * Bn254PairingPerPairFuel).

(** [hostFuel(base, lengths...)], saturating at the largest uint64. *)
Fixpoint hostFuel (total : Z) (lengths : list Z) : Z :=
  match lengths with
  | [] => total
  | length :: rest =>
    if length <=? 0 then hostFuel total rest else
    if length >? (two64 - 1 - total) / HostMemoryByteFuel then two64 - 1 else
    hostFuel (total + length * HostMemoryByteFuel) rest
  end.

(** ** The engine *)
Inductive host_call : Type :=
| HStateGet (keyPtr keyLen outPtr outLen : Z)
| HStateSet (keyPtr keyLen valPtr valLen : Z)
| HSelfBalance (outPtr : Z)
| HBalanceOf (addrPtr addrLen outPtr : Z)
| HBlockHeight
| HCaller (outPtr : Z)
| HSelfAddress (outPtr : Z)
| HCalldataLen
| HCalldataCopy (dstPtr offset maxLen : Z)
| HLog (ptr length : Z)
| HTransfer (recvPtr recvLen amtLo amtHi : Z)
| HPairingCheck (inputPtr inputLen : Z).

(** A run of the guest: it returns with the fuel left, traps (for lack of fuel
    or otherwise), or calls the host with its memory ([None] when it exports
    none) and its fuel, and goes on from the host's answer.  Fuel bounds every
    run, so the tree is well-founded. *)
Inductive wasm_run (A : Type) : Type :=
| WRet (a : A) (fuel : Z)
| WTrap (outOfFuel : bool)
| WHost (call : host_call) (mem : option bytes) (fuel : Z)
    (k : Z -> option bytes -> Z -> wasm_run A).
Arguments WRet {A}. Arguments WTrap {A}. Arguments WHost {A}.

(** ** Points as the pairing check reads them *)
Record G1Affine : Type := mkG1 { G1X : Z; G1Y : Z }.
Record G2Affine : Type := mkG2 { G2XA1 : Z; G2XA0 : Z; G2YA1 : Z; G2YA0 : Z }.

Class Wasmtime : Type :=
  { wasm_instance : Type;
    (* the imports (module, name) of a module that compiles *)
    wasm_module : bytes -> option (list (bytes * option bytes));
    wasm_instantiate : bytes -> Z -> wasm_run wasm_instance;
    wasm_getfunc : wasm_instance -> bytes -> bool;
    wasm_call : wasm_instance -> bytes -> Z -> wasm_run unit;
    (* IsOnCurve and IsInSubGroup of gnark-crypto's bn254, and its PairingCheck *)
    bn254_g1_valid : G1Affine -> bool;
    bn254_g2_valid : G2Affine -> bool;
    bn254_PairingCheck : list (G1Affine * G2Affine) -> res bool }.

(** The order of bn254's base field. *)
Definition bn254Modulus : Z := 21888242871839275222246405745257275088696311157297823662689037894645226208583.

(** [SetBytesCanonical]: 32 bytes, big-endian, of a number below the modulus. *)
Definition SetBytesCanonical (b : bytes) : res Z :=
  let v := be_dec b in if v <? bn254Modulus then Ok v else failf "invalid field element".

Definition field32 (chunk : bytes) (i : nat) : res Z := SetBytesCanonical (take 32 (drop (32 * i) chunk)).

(** The point (0, 0) stands for infinity and is not checked. *)
Definition decodeG1 `{Wasmtime} (chunk : bytes) : res G1Affine :=
  let* x := field32 chunk 0 in
  let* y := field32 chunk 1 in
  if negb ((x =? 0) && (y =? 0)) && negb (bn254_g1_valid (mkG1 x y)) then failf "invalid bn254 G1 point" else Ok (mkG1 x y).

Definition decodeG2 `{Wasmtime} (chunk : bytes) : res G2Affine :=
  let* xa1 := field32 chunk 2 in
  let* xa0 := field32 chunk 3 in
  let* ya1 := field32 chunk 4 in
  let* ya0 := field32 chunk 5 in
  let q := mkG2 xa1 xa0 ya1 ya0 in
  if negb ((xa1 =? 0) && (xa0 =? 0) && (ya1 =? 0) && (ya0 =? 0)) && negb (bn254_g2_valid q) then failf "invalid bn254 G2 point" else Ok q.

Fixpoint decodePairs `{Wasmtime} (pairs : nat) (input : bytes) : res (list (G1Affine * G2Affine)) :=
  match pairs with
  | O => Ok []
  | S pairs =>
    let chunk := take 192 input in
    let* p := decodeG1 chunk in
    let* q := decodeG2 chunk in
    let* rest := decodePairs pairs (drop 192 input) in
    Ok ((p, q) :: rest)
  end.

Definition Bn254PairingCheck `{Wasmtime} (input : bytes) : res bool :=
  if negb (Z.rem (zlen input) Bn254PairingInputBytes =? 0) then failf "bn254 pairing input length must be a multiple of 192 bytes" else
  if zlen input =? 0 then Ok true else
  let* pairs := decodePairs (Z.to_nat (zlen input / Bn254PairingInputBytes)) input in
  bn254_PairingCheck pairs.

(** ** Memory *)
Definition readMem (mem : option bytes) (ptr length : Z) : res (option bytes) :=
  match mem with
  | None => Ok None
  | Some data =>
    if (ptr <? 0) || (length <? 0) then Ok None else
    if ptr + length >? zlen data then Ok None else
    let* out := slice data ptr (int32_of (ptr + length)) in   (* the end is an int32 *)
    Ok (Some out)
  end.

Definition writeMem (mem : option bytes) (ptr maxLen : Z) (data : bytes) : option bytes * Z :=
  match mem with
  | None => (mem, 0)
  | Some raw =>
    if ptr <? 0 then (mem, 0) else
    let writeLen := if zlen data >? maxLen then maxLen else zlen data in
    if ptr + writeLen >? zlen raw then (mem, 0) else
    (Some (take (Z.to_nat ptr) raw ++ take (Z.to_nat writeLen) data ++
           drop (Z.to_nat ptr + Z.to_nat writeLen) raw), writeLen)
  end.

(** The low [width] bytes, little-endian. *)
Definition padBigToLE (n : Z) (width : nat) : bytes :=
  let raw := big_Bytes n in
  let raw := drop (length raw - width) raw in
  reverse (replicate (width - length raw) x00 ++ raw).

Section Host.
Context `{Platform} `{Wasmtime} {B : Type} `{KV B}.

Record RuntimeConfig : Type := mkRuntimeConfig
  { WasmBytes : bytes;
    Caller : arr 32;
    SelfAddr : arr 32;
    Value : option Z;
    BlockHeight : Z;
    CallData : bytes;
    GasLimit : Z }.

(** What the host functions share and change: the database, the contract's
    state, the first-class error and the fuel left. *)
Record World : Type := mkWorld
  { w_db : DB B;
    w_state : StateStore;
    w_hostErr : option error;
    w_fuel : Z }.

Definition set_hostErr (w : World) (e : error) : World := mkWorld (w_db w) (w_state w) (Some e) (w_fuel w).
Definition set_fuel (w : World) (f : Z) : World := mkWorld (w_db w) (w_state w) (w_hostErr w) f.

(** Too little fuel empties the tank and is an error. *)
Definition chargeFuelFor (w : World) (fuel : Z) : World * res unit :=
  if w_fuel w <? fuel then (set_fuel w 0, fail ErrContractOutOfGas)
  else (set_fuel w (w_fuel w - fuel), Ok tt).

Definition chargeFuel (w : World) (fuel : Z) : World * res unit := chargeFuelFor w fuel.

Definition answer : Type := World * option bytes * Z.

(** Charge, then go on; when the charge fails, record the error and return [bad]. *)
Definition charged (w : World) (mem : option bytes) (fuel bad : Z) (k : World -> res answer) : res answer :=
  match chargeFuelFor w fuel with
  | (w, Ok _) => k w
  | (w, Err e) => Ok (set_hostErr w e, mem, bad)
  | (w, Panic) => Panic
  end.

Definition host_state_get (w : World) (mem : option bytes) (keyPtr keyLen outPtr outLen : Z) : res answer :=
  if (keyLen <? 0) || (outLen <? 0) then Ok (w, mem, -1) else
  charged w mem (hostFuel HostStorageReadFuel [keyLen]) (-1) (fun w =>
  let* key := readMem mem keyPtr keyLen in
  match key with
  | None => Ok (w, mem, -1)
  | Some key =>
    match state_Get (w_state w) key with
    | None => Ok (w, mem, 0)
    | Some val =>
      let writeLen := if zlen val >? outLen then outLen else zlen val in
      charged w mem (hostFuel 0 [int32_of writeLen]) (-1) (fun w =>
        let '(mem, n) := writeMem mem outPtr outLen val in
        Ok (w, mem, n))
    end
  end).

Definition host_state_set (w : World) (mem : option bytes) (keyPtr keyLen valPtr valLen : Z) : res answer :=
  if (keyLen <? 0) || (valLen <? 0) then Ok (w, mem, 1) else
  charged w mem (hostFuel HostStorageWriteFuel [keyLen; valLen]) 1 (fun w =>
  let* key := readMem mem keyPtr keyLen in
  match key with
  | None => Ok (w, mem, 1)
  | Some key =>
    let* val := readMem mem valPtr valLen in
    match val with
    | None => Ok (w, mem, 1)
    | Some val =>
      match state_Set (w_state w) key val with
      | Ok s => Ok (mkWorld (w_db w) s (w_hostErr w) (w_fuel w), mem, 0)
      | Err e => Ok (set_hostErr w e, mem, 1)
      | Panic => Panic
      end
    end
  end).

(** A function without a result answers 0, which the guest does not see. *)
Definition host_self_balance (cfg : RuntimeConfig) (w : World) (mem : option bytes) (outPtr : Z) : res answer :=
  charged w mem HostSelfBalanceFuel 0 (fun w =>
    let bal := ledger.BalanceOfTx (w_db w) (SelfAddr cfg) in
    Ok (w, fst (writeMem mem outPtr 16 (padBigToLE bal 16)), 0)).

Definition host_balance_of (w : World) (mem : option bytes) (addrPtr addrLen outPtr : Z) : res answer :=
  if addrLen <? 0 then Ok (w, mem, 0) else
  charged w mem (hostFuel HostBalanceReadFuel [addrLen]) 0 (fun w =>
  let* addr := readMem mem addrPtr addrLen in
  match addr with
  | None => Ok (w, mem, 0)
  | Some addr =>
    if negb (zlen addr =? 32) then Ok (w, mem, 0) else
    let bal := ledger.BalanceOfTx (w_db w) (mk_arr 32 addr) in
    Ok (w, fst (writeMem mem outPtr 16 (padBigToLE bal 16)), 0)
  end).

(** The height as a signed 64-bit integer. *)
Definition host_block_height (cfg : RuntimeConfig) (w : World) (mem : option bytes) : res answer :=
  charged w mem HostBlockHeightFuel 0 (fun w => Ok (w, mem, (BlockHeight cfg + 2 ^ 63) mod two64 - 2 ^ 63)).

Definition host_caller (cfg : RuntimeConfig) (w : World) (mem : option bytes) (outPtr : Z) : res answer :=
  charged w mem HostAddressReadFuel 0 (fun w => Ok (w, fst (writeMem mem outPtr 32 (Caller cfg)), 0)).

Definition host_self_address (cfg : RuntimeConfig) (w : World) (mem : option bytes) (outPtr : Z) : res answer :=
  charged w mem HostAddressReadFuel 0 (fun w => Ok (w, fst (writeMem mem outPtr 32 (SelfAddr cfg)), 0)).

Definition host_calldata_len (cfg : RuntimeConfig) (w : World) (mem : option bytes) : res answer :=
  charged w mem HostCalldataLengthFuel 0 (fun w => Ok (w, mem, int32_of (zlen (CallData cfg)))).

Definition host_calldata_copy (cfg : RuntimeConfig) (w : World) (mem : option bytes) (dstPtr offset maxLen : Z) : res answer :=
  if (offset <? 0) || (maxLen <? 0) || (offset >? zlen (CallData cfg)) then Ok (w, mem, -1) else
  let e := offset + maxLen in
  let e := if e >? zlen (CallData cfg) then zlen (CallData cfg) else e in
  let copyLen := int32_of (e - offset) in
  charged w mem (hostFuel HostCalldataLengthFuel [copyLen]) (-1) (fun w =>
  match mem with
  | None => Ok (w, mem, -1)
  | Some data =>
    if (dstPtr <? 0) || (dstPtr + copyLen >? zlen data) then Ok (w, mem, -1) else
    if copyLen =? 0 then Ok (w, mem, 0) else
    let* payload := slice (CallData cfg) offset e in
    Ok (w, fst (writeMem mem dstPtr copyLen payload), copyLen)
  end).

Definition host_log (w : World) (mem : option bytes) (ptr length : Z) : res answer :=
  if length <? 0 then Ok (w, mem, 0) else
  charged w mem (hostFuel HostLogFuel [length]) 0 (fun w =>
    let* _ := readMem mem ptr length in Ok (w, mem, 0)).

(** The amount is [amtHi << 64 | amtLo] over signed 64-bit halves. *)
Definition host_transfer (cfg : RuntimeConfig) (w : World) (mem : option bytes) (recvPtr recvLen amtLo amtHi : Z) : res answer :=
  if recvLen <? 0 then Ok (w, mem, 1) else
  charged w mem (hostFuel HostTransferFuel [recvLen]) 1 (fun w =>
  let* addr := readMem mem recvPtr recvLen in
  match addr with
  | None => Ok (w, mem, 1)
  | Some addr =>
    if negb (zlen addr =? 32) then Ok (w, mem, 1) else
    let amount := Z.lor (Z.shiftl amtHi 64) amtLo in
    if amount <=? 0 then Ok (w, mem, 1) else
    match ledger.MoveTx (w_db w) (SelfAddr cfg) (mk_arr 32 addr) (Some amount) with
    | Ok db => Ok (mkWorld db (w_state w) (w_hostErr w) (w_fuel w), mem, 0)
    | Err _ => Ok (w, mem, 1)
    | Panic => Panic
    end
  end).

Definition host_pairing_check (w : World) (mem : option bytes) (inputPtr inputLen : Z) : res answer :=
  let* input := readMem mem inputPtr inputLen in
  match input with
  | None => Ok (w, mem, -1)
  | Some input =>
    match Bn254PairingFuel (zlen input) with
    | Err _ => Ok (w, mem, -1)
    | Panic => Panic
    | Ok cost =>
      charged w mem cost (-1) (fun w =>
        match Bn254PairingCheck input with
        | Ok valid => Ok (w, mem, if valid then 1 else 0)
        | Err _ => Ok (w, mem, -1)
        | Panic => Panic
        end)
    end
  end.

Definition hostFunction (cfg : RuntimeConfig) (w : World) (mem : option bytes) (call : host_call) : res answer :=
  match call with
  | HStateGet kp kl op ol => host_state_get w mem kp kl op ol
  | HStateSet kp kl vp vl => host_state_set w mem kp kl vp vl
  | HSelfBalance op => host_self_balance cfg w mem op
  | HBalanceOf ap al op => host_balance_of w mem ap al op
  | HBlockHeight => host_block_height cfg w mem
  | HCaller op => host_caller cfg w mem op
  | HSelfAddress op => host_self_address cfg w mem op
  | HCalldataLen => host_calldata_len cfg w mem
  | HCalldataCopy dp off ml => host_calldata_copy cfg w mem dp off ml
  | HLog p l => host_log w mem p l
  | HTransfer rp rl lo hi => host_transfer cfg w mem rp rl lo hi
  | HPairingCheck ip il => host_pairing_check w mem ip il
  end.

(** Run the guest against the host. [None] is a trap, with its cause. *)
Fixpoint drive {A} (cfg : RuntimeConfig) (r : wasm_run A) (w : World) : res (World * (A + bool)) :=
  match r with
  | WRet a fuel => Ok (set_fuel w fuel, inl a)
  | WTrap oof => Ok (w, inr oof)
  | WHost call mem fuel k =>
    let* '(w, mem, v) := hostFunction cfg (set_fuel w fuel) mem call in
    drive cfg (k v mem (w_fuel w)) w
  end.

(** ** The runtime *)
Definition validateModule (imports : list (bytes * option bytes)) : res unit :=
  foldM (fun _ '(md, name) =>
    if negb (bool_decide (md = str "frg")) && negb (bool_decide (md = str "env"))
    then fail ErrContractNonDeterministic else
    if bool_decide (md = str "env") &&
       match name with Some n => negb (bool_decide (n = str "memory")) | None => false end
    then fail ErrContractNonDeterministic else Ok tt) tt imports.

Record Runtime : Type := mkRuntime
  { instance : wasm_instance;
    initialFuel : Z }.

Definition fuelCap (gasLimit : Z) : Z :=
  let cap :=
    if negb (gasLimit =? 0) then
      if gasLimit >? (two64 - 1) / FuelUnitsPerGas then two64 - 1 else gasLimit * FuelUnitsPerGas
    else maxFuel in
  if cap =? 0 then maxFuel else cap.

(** Instantiation runs the module's start function against the host. *)
Definition NewRuntime (cfg : RuntimeConfig) (db : DB B) (state : StateStore) : res (World * Runtime) :=
  let cap := fuelCap (GasLimit cfg) in
  match wasm_module (WasmBytes cfg) with
  | None => fail ErrContractNonDeterministic
  | Some imports =>
    let* _ := validateModule imports in
    let* '(w, r) := drive cfg (wasm_instantiate (WasmBytes cfg) cap) (mkWorld db state None cap) in
    match r with
    | inr _ => fail ErrContractNonDeterministic
    | inl inst => Ok (w, mkRuntime inst (w_fuel w))
    end
  end.

Definition ErrFunctionNotFound : error := GoError "contract function not found".

Definition runtime_Call (cfg : RuntimeConfig) (rt : Runtime) (w : World) (functionName : bytes) : res World :=
  if negb (wasm_getfunc (instance rt) functionName) then Err ErrFunctionNotFound else
  let* '(w, r) := drive cfg (wasm_call (instance rt) functionName (w_fuel w)) w in
  match r with
  | inr true => fail ErrContractOutOfGas
  | inr false => fail ErrContractTrap
  | inl _ =>
    match w_hostErr w with
    | Some (RGError c) => fail c
    | Some (GoError _) => fail ErrContractStateInvalid
    | None => Ok w
    end
  end.

Definition FuelConsumed (rt : Runtime) (w : World) : Z :=
  if initialFuel rt >? w_fuel w then initialFuel rt - w_fuel w else 0.

(** ** Contracts in the database *)
Definition ContractAddr (deployerPubKey : arr 32) (nonce : Z) : arr 32 :=
  hash.Hash (hash.DomainContractDeploy ++ deployerPubKey ++ put64 nonce).

Definition storeBytecode (db : DB B) (addr : arr 32) (wasm : bytes) : DB B :=
  set_contract_bytecode db (kv_Put (contract_bytecode db) addr wasm).

Definition loadBytecode (db : DB B) (addr : arr 32) : res bytes :=
  match kv_Get (contract_bytecode db) addr with
  | None => failf "no bytecode"
  | Some data => Ok data
  end.

Definition saveState (db : DB B) (addr : arr 32) (s : StateStore) : DB B :=
  set_contract_state db (kv_Put (contract_state db) addr (default [] (state_Serialize s))).

Definition loadState (db : DB B) (addr : arr 32) : res StateStore :=
  match kv_Get (contract_state db) addr with
  | None => Ok NewStateStore
  | Some data => DeserializeState data
  end.

Definition LoadStateRoot (db : DB B) (addr : arr 32) : res (arr 32) :=
  let* s := loadState db addr in Ok (StateRoot s).

Definition IsContract (db : DB B) (addr : arr 32) : bool :=
  match kv_Get (contract_bytecode db) addr with Some _ => true | None => false end.

Definition contractExists (db : DB B) (addr : arr 32) : bool :=
  match kv_Get (contract_bytecode db) addr with Some _ => true | None => false end.

(** exists, found, value, state root *)
Definition LoadStateValue (db : DB B) (addr : arr 32) (key : bytes) : res (bool * bool * bytes * arr 32) :=
  if negb (IsContract db addr) then Ok (false, false, [], zero_arr 32) else
  let* state := loadState db addr in
  let stateRoot := StateRoot state in
  if zlen key =? 0 then Ok (true, false, [], stateRoot) else
  match state_Get state key with
  | Some v => Ok (true, true, v, stateRoot)
  | None => Ok (true, false, [], stateRoot)
  end.

(** Fund a contract when the transaction carries a positive value. *)
Definition fund (db : DB B) (t : tx.Tx) (addr : arr 32) : res (DB B) :=
  match tx.Value t with
  | Some v => if v >? 0 then ledger.MoveTx db (tx.SenderPubKey t) addr (tx.Value t) else Ok db
  | None => Ok db
  end.

Definition Deploy (db : DB B) (t : tx.Tx) (blockHeight gasLimit : Z) : res (DB B * (arr 32 * Z)) :=
  let contractAddr := ContractAddr (tx.SenderPubKey t) (tx.Nonce t) in
  if zlen (tx.WasmBytes t) =? 0 then failf "contract deploy requires wasm bytes" else
  if contractExists db contractAddr then failf "contract already deployed" else
  let* db := fund db t contractAddr in
  let* state := loadState db contractAddr in
  let cfg := mkRuntimeConfig (tx.WasmBytes t) (tx.SenderPubKey t) contractAddr (tx.Value t) blockHeight [] gasLimit in
  let* '(w, rt) := NewRuntime cfg db state in
  let* w := runtime_Call cfg rt w (str "init") in
  let db := storeBytecode (w_db w) contractAddr (tx.WasmBytes t) in
  let db := saveState db contractAddr (w_state w) in
  Ok (db, (StateRoot (w_state w), FuelConsumed rt w)).

(** The selector is the first four bytes of the call data, when there are four.
    An unknown selector returns with the database as the start function left it. *)
Definition Call (db : DB B) (t : tx.Tx) (blockHeight gasLimit : Z) : DB B * res (DB B * (arr 32 * Z)) :=
  let contractAddr := tx.ReceiverPubKey t in
  match loadBytecode db contractAddr with
  | Err _ => (db, failf "contract not found")
  | Panic => (db, Panic)
  | Ok wasmBytes =>
    match loadState db contractAddr with
    | Err e => (db, Err e)
    | Panic => (db, Panic)
    | Ok state =>
      let '(funcName, callData) :=
        if zlen (tx.CallData t) >=? 4 then (take 4 (tx.CallData t), drop 4 (tx.CallData t))
        else (str "call", tx.CallData t) in
      let cfg := mkRuntimeConfig wasmBytes (tx.SenderPubKey t) contractAddr (tx.Value t) blockHeight callData gasLimit in
      match NewRuntime cfg db state with
      | Err e => (db, Err e)
      | Panic => (db, Panic)
      | Ok (w, rt) =>
        if negb (wasm_getfunc (instance rt) funcName) then (w_db w, Err ErrFunctionNotFound) else
        (db,
         let* db := fund (w_db w) t contractAddr in
         let* w := runtime_Call cfg rt (mkWorld db (w_state w) (w_hostErr w) (w_fuel w)) funcName in
         let db := saveState (w_db w) contractAddr (w_state w) in
         Ok (db, (StateRoot (w_state w), FuelConsumed rt w)))
      end
    end
  end.
End Host.
Arguments World : clear implicits.
End contract.
