(* ===== verification/RootProofs.v ===== *)
(** * core/tree: what the state root commits to

    Leaves are transactions and the contracts a block touched; [contract_leaf]
    is what [statemachine.contractNode] makes ([contractNode_commits] of
    [TelemetryProofs]). *)

From S2P Require Import Prelude GoBytes Errors Platform Tx TxProofs TxSigProofs KV Ledger Node Tree Inclusion NodeProofs TreeProofs.
From S2P Require Import InclusionProofs Contract.
Import node tree.

Section Root.
Context `{Platform}.

(** Equal node serializations also agree on scale and signature. *)
Lemma ser_scale n m :
  ser n = ser m -> is_u32 (Scale n) -> is_u32 (Scale m) ->
  Scale n = Scale m /\ Sig n mod 256 = Sig m mod 256 /\ Children n = Children m.
Proof.
  intros He Hn Hm. unfold ser in He. pose proof (nodeBytes_inj _ _ _ _ _ _ _ _ _ _ _ _ He) as (_ & _ & Hc).
  unfold inclusion.nodeBytes in He. apply app_inv_head in He.
  apply app_inj_len in He as [E1 He]; [|unfold put32; by rewrite !be_enc_length].
  apply app_inj_len in He as [_ He]; [|by rewrite !arr_length].
  apply app_inj_len in He as [_ He]; [|by rewrite !arr_length].
  apply app_inj_len in He as [E2 _]; [|done].
  unfold put32 in E1. apply be_enc_inj in E1; [|done..]. injection E2 as E2.
  apply (f_equal byte_to_Z) in E2. by rewrite !byte_to_of_Z in E2.
Qed.

(** The node at a position of a layer of scale 4^k, continued with null nodes. *)
Definition at_layer (k : nat) (l : list RGNode) (i : nat) (n : RGNode) : Prop :=
  l !! i = Some n \/ ((length l <= i)%nat /\ NullNode (4 ^ Z.of_nat k) = Ok n).

Lemma at_layer_fun k l i n m : at_layer k l i n -> at_layer k l i m -> n = m.
Proof.
  intros [Hn|[Hl Hn]] [Hm|[Hl' Hm]]; [congruence| | |congruence].
  - apply lookup_lt_Some in Hn. lia.
  - apply lookup_lt_Some in Hm. lia.
Qed.

Lemma at_layer_ex k l i : (k <= 8)%nat -> exists n, at_layer k l i n.
Proof.
  intros Hk. destruct (l !! i) as [n|] eqn:E; [exists n; by left|].
  destruct (NullNode_ok (4 ^ Z.of_nat k)) as (cs & r & Hn & _); [by apply ValidScale_pow|].
  eexists. right. split; [by apply lookup_ge_None|done].
Qed.

(** The children of a node are the roots of the four positions below it. *)
Lemma at_layer_children k l next i p j :
  uniform k l -> (S k <= 8)%nat -> coarsenLayer l = Ok next -> at_layer (S k) next i p -> (j < 4)%nat ->
  exists c, at_layer k l (i * 4 + j) c /\ Children p !! j = Some (hash.Hash (ser c)).
Proof.
  intros Hu Hk Hc Hp Hj. destruct Hp as [Hp|[Hlen Hp]].
  - pose proof (lookup_lt_Some _ _ _ Hp) as Hlt. rewrite (coarsenLayer_length _ _ Hc) in Hlt.
    pose proof (chunkOf_length _ _ Hlt) as Hcl.
    eapply coarsenLayer_parent in Hp as (_ & c & Hn & Hg); [|done..].
    apply coarseGrain_inv in Hg as (_ & Hm & _). apply mapM_Forall2 in Hm.
    set (chunk := chunkOf l i ++ _) in *.
    destruct (chunk !! j) as [x|] eqn:Ex.
    2:{ apply lookup_ge_None in Ex. subst chunk. rewrite length_app, length_replicate in Ex. unfold K in Ex. lia. }
    destruct (Forall2_lookup_l _ _ _ _ _ Hm Ex) as (r & Hr & Hroot). apply Root_inv in Hroot as [_ ->].
    exists x. split; [|done]. apply lookup_app_Some in Ex as [Ex|[Hge [-> _]%lookup_replicate]].
    + left. rewrite lookup_chunkOf in Ex. by rewrite decide_True in Ex.
    + right. split; [|done]. unfold chunkOf, K in Hge. rewrite length_take, length_drop in Hge.
      apply parentCount_spec in Hlt. lia.
  - destruct (NullNode_ok (4 ^ Z.of_nat (S k))) as (cs & r & Hn & _ & _ & Hcs); [by apply ValidScale_pow|].
    rewrite Hn in Hp. injection Hp as <-.
    destruct Hcs as [[H1 _]|(_ & _ & c & rc & Hcc & Hrc & ->)].
    { by apply Z.eqb_eq in H1; rewrite pow4_ne1 in H1. }
    rewrite pow4_div in Hcc. apply Root_inv in Hrc as [_ ->]. exists c. split.
    + right. split; [|done]. rewrite (coarsenLayer_length _ _ Hc) in Hlen.
      destruct (Nat.le_gt_cases (length l) (i * 4 + j)); [done|].
      assert (i < parentCount (length l))%nat by (apply parentCount_spec; lia). lia.
    + cbn [nullNode Children]. by rewrite lookup_replicate_2.
Qed.

Definition same_at (M : bytes -> Prop) (k : nat) (l1 l2 : list RGNode) : Prop :=
  forall i n1 n2, at_layer k l1 i n1 -> at_layer k l2 i n2 -> ser n1 = ser n2 \/ hash.collision M.

Lemma at_layer_message ls k l i n : (k <= 8)%nat -> l ∈ ls -> at_layer k l i n -> layersMessage ls (ser n).
Proof.
  intros Hk Hl [Hn|[_ Hn]]; [right|left].
  - exists l, n. split_and!; [done|by eapply list_elem_of_lookup_2|done].
  - by exists k, n.
Qed.

Lemma same_below (M : bytes -> Prop) k l1 l2 next1 next2 :
  (forall m, layersMessage [l1] m -> M m) -> (forall m, layersMessage [l2] m -> M m) ->
  uniform k l1 -> uniform k l2 -> (S k <= 8)%nat -> coarsenLayer l1 = Ok next1 -> coarsenLayer l2 = Ok next2 ->
  same_at M (S k) next1 next2 -> same_at M k l1 l2.
Proof.
  intros HM1 HM2 Hu1 Hu2 Hk Hc1 Hc2 Hs i n1 n2 H1 H2.
  assert (i = i / 4 * 4 + i mod 4)%nat as Hi by (pose proof (Nat.div_mod_eq i 4); lia).
  assert (i mod 4 < 4)%nat as Hj by (apply Nat.mod_upper_bound; lia).
  destruct (at_layer_ex (S k) next1 (i / 4) Hk) as [p1 Hp1]. destruct (at_layer_ex (S k) next2 (i / 4) Hk) as [p2 Hp2].
  destruct (at_layer_children _ _ _ _ _ _ Hu1 Hk Hc1 Hp1 Hj) as (c1 & Ha1 & Hch1).
  destruct (at_layer_children _ _ _ _ _ _ Hu2 Hk Hc2 Hp2 Hj) as (c2 & Ha2 & Hch2).
  rewrite <- Hi in Ha1, Ha2. rewrite (at_layer_fun _ _ _ _ _ H1 Ha1), (at_layer_fun _ _ _ _ _ H2 Ha2).
  destruct (Hs _ _ _ Hp1 Hp2) as [He|]; [|by right].
  unfold ser in He. apply nodeBytes_inj in He as (_ & _ & Hcs). rewrite Hcs, Hch2 in Hch1.
  injection Hch1 as Hh. apply hash.Hash_inj_or_collision with (M := M) in Hh as [->|?]; [by left|by right| |].
  - apply HM2. eapply at_layer_message; [|by left|done]. lia.
  - apply HM1. eapply at_layer_message; [|by left|done]. lia.
Qed.

(** The scale of the top tells the number of layers. *)
Lemma linked_top_scale ls l rest k n :
  linked ls -> ls = l :: rest -> uniform k l -> last ls = Some [n] ->
  (k + length rest <= 8)%nat /\ Scale n = 4 ^ Z.of_nat (k + length rest).
Proof.
  intros Hl. revert l rest k. induction Hl as [m|l' next rest' Hlen Hc Hl IH]; intros l rest k Heq Hu Hlast.
  - injection Heq as <- <-. injection Hlast as ->. destruct Hu as [Hk Hu].
    rewrite Nat.add_0_r. split; [done|]. by apply Forall_cons in Hu as [[? _] _].
  - injection Heq as <- <-. rewrite last_cons_cons in Hlast.
    assert (l' <> []) as Hne by (intros ->; done).
    destruct (IH next rest' (S k) eq_refl) as [? Hs]; [by eapply coarsenLayer_uniform|done|].
    cbn [length]. rewrite Nat.add_succ_r. done.
Qed.

Lemma linked_same M ls1 l1 rest1 ls2 l2 rest2 k n1 n2 :
  (forall m, layersMessage ls1 m -> M m) -> (forall m, layersMessage ls2 m -> M m) -> linked ls1 -> linked ls2 -> ls1 = l1 :: rest1 -> ls2 = l2 :: rest2 -> length rest1 = length rest2 ->
  uniform k l1 -> uniform k l2 -> last ls1 = Some [n1] -> last ls2 = Some [n2] -> ser n1 = ser n2 ->
  same_at M k l1 l2.
Proof.
  intros HM1 HM2 Hl1. revert HM1 l1 rest1 ls2 l2 rest2 k HM2.
  induction Hl1 as [m|l next rest Hlen Hc Hl IH]; intros HM1 l1 rest1 ls2 l2 rest2 k HM2 Hl2 E1 E2 Hlr Hu1 Hu2 La1 La2 Hs.
  - injection E1 as <- <-. injection La1 as ->. subst ls2. destruct rest2; [|done]. inversion Hl2; subst.
    injection La2 as ->. intros i x1 x2 [Hx1|[Hg1 Hx1]] [Hx2|[Hg2 Hx2]].
    + apply list_lookup_singleton_Some in Hx1 as [-> <-]. apply list_lookup_singleton_Some in Hx2 as [_ <-]. by left.
    + apply lookup_lt_Some in Hx1. cbn [length] in *. lia.
    + apply lookup_lt_Some in Hx2. cbn [length] in *. lia.
    + left. congruence.
  - injection E1 as <- <-. subst ls2. destruct rest2 as [|next2 rest2]; [done|]. inversion Hl2; subst.
    rewrite last_cons_cons in La1, La2.
    assert (l <> []) by (intros ->; done). assert (l2 <> []) by (intros ->; done).
    assert (uniform (S k) next) as Hun by by eapply (coarsenLayer_uniform k l).
    assert (uniform (S k) next2) as Hun2 by by eapply (coarsenLayer_uniform k l2).
    assert (forall m, layersMessage (next :: rest) m -> M m) as HM'
      by (intros m Hm; apply HM1; eapply layersMessage_sub; [|done]; set_solver).
    apply (same_below M k l l2 next next2); try done.
    + intros m Hm. apply HM1. eapply layersMessage_sub; [|done]. set_solver.
    + intros m Hm. apply HM2. eapply layersMessage_sub; [|done]. set_solver.
    + apply Hun.
    + eapply (IH HM' next rest (next2 :: rest2) next2 rest2); try done; [|by injection Hlr].
      intros m Hm. apply HM2. eapply layersMessage_sub; [|done]. set_solver.
Qed.

Definition atomic_leaf (n : RGNode) : Prop := leaf_ok n /\ Sig n = SigAtomic.

Lemma forall_or_below (P : nat -> Prop) C n : (forall i, (i < n)%nat -> P i \/ C) -> (forall i, (i < n)%nat -> P i) \/ C.
Proof.
  induction n as [|n IH]; intros Hp; [left; lia|].
  destruct IH as [Hn|]; [intros; apply Hp; lia| |by right]. destruct (Hp n) as [Hpn|]; [lia| |by right].
  left. intros i Hi. destruct (decide (i = n)) as [->|]; [done|apply Hn; lia].
Qed.

(** Atomic leaves are told from padding, so a whole layer of them is determined. *)
Lemma leaves_same M l1 l2 :
  Forall atomic_leaf l1 -> Forall atomic_leaf l2 -> same_at M 0 l1 l2 ->
  map (fun n => (Volume n, Children n)) l1 = map (fun n => (Volume n, Children n)) l2 \/ hash.collision M.
Proof.
  set (f := fun n => (Volume n, Children n)). intros H1 H2 Hs.
  destruct (forall_or_below (fun i => f <$> l1 !! i = f <$> l2 !! i) (hash.collision M)
              (Nat.max (length l1) (length l2))) as [Hall|]; [| |by right].
  2:{ left. change (f <$> l1 = f <$> l2). apply list_eq. intros i. rewrite !list_lookup_fmap.
      destruct (Nat.le_gt_cases (Nat.max (length l1) (length l2)) i); [|by apply Hall].
      by rewrite !lookup_ge_None_2 by lia. }
  intros i Hi. destruct (at_layer_ex 0 l1 i) as [n1 Hn1]; [lia|]. destruct (at_layer_ex 0 l2 i) as [n2 Hn2]; [lia|].
  destruct (Hs i n1 n2 Hn1 Hn2) as [He|]; [left|by right].
  assert (forall l x, Forall atomic_leaf l -> at_layer 0 l i x -> Scale x = 1 /\
            ((Sig x = SigAtomic /\ l !! i = Some x) \/ (Sig x = SigNullPad /\ l !! i = None))) as Hcase.
  { intros l x Hl [Hx|[Hg Hx]].
    - rewrite Forall_forall in Hl. destruct (Hl x) as [[? _] ?]; [by eapply list_elem_of_lookup_2|]. split; [done|by left].
    - destruct (NullNode_ok 1 eq_refl) as (cs & r & Hn & _). change (4 ^ Z.of_nat 0) with 1 in Hx.
      rewrite Hn in Hx. injection Hx as <-. split; [done|right]. split; [done|by apply lookup_ge_None]. }
  destruct (Hcase _ _ H1 Hn1) as [S1 C1], (Hcase _ _ H2 Hn2) as [S2 C2].
  pose proof He as Hvol. unfold ser in Hvol. apply nodeBytes_inj in Hvol as (Hvol & _ & _).
  apply ser_scale in He as (_ & Hsig & Hch); [|by rewrite S1|by rewrite S2].
  destruct C1 as [[G1 ->]|[G1 ->]], C2 as [[G2 ->]|[G2 ->]]; cbn; [unfold f; by rewrite Hch, Hvol| | |done].
  all: rewrite G1, G2 in Hsig; done.
Qed.

Lemma pow4_u32 k : (k <= 8)%nat -> is_u32 (4 ^ Z.of_nat k).
Proof. intros Hk. do 9 (destruct k as [|k]; [done|]). lia. Qed.

Lemma pow4_inj j k : 4 ^ Z.of_nat j = 4 ^ Z.of_nat k -> j = k.
Proof. intros He. apply Z.pow_inj_r in He; lia. Qed.

(** ** What the leaves commit to *)

(** The leaf of a contract with state [s]. *)
Definition contract_leaf (c : RGNode) (s : contract.StateStore) : Prop :=
  leaf_ok c /\ Sig c = SigAtomic /\ Children c = [contract.StateRoot s].

(** What was hashed for a leaf: an unsigned transaction or a contract's state. *)
Definition committed (n : RGNode) (m : bytes) : Prop := Children n = [hash.Hash m].

Definition isTxMessage (m : bytes) : bool := bool_decide (take 6 m = hash.DomainTx).

Lemma tx_message t u : tx.serializeUnsigned t = Ok u -> isTxMessage u = true.
Proof. intros (v & _ & ->)%serializeUnsigned_spec. by apply bool_decide_eq_true. Qed.

Lemma state_message s : isTxMessage (contract.rootPreimage s) = false.
Proof. by apply bool_decide_eq_false. Qed.

(** Two lists in two parts, the parts told apart by a test. *)
Lemma parts_eq {A} (f : A -> bool) (l1 l2 r1 r2 : list A) :
  Forall (fun x => f x = true) l1 -> Forall (fun x => f x = true) l2 ->
  Forall (fun x => f x = false) r1 -> Forall (fun x => f x = false) r2 ->
  l1 ++ r1 = l2 ++ r2 -> l1 = l2 /\ r1 = r2.
Proof.
  intros H1. revert l2. induction H1 as [|x l1 Hx _ IH]; intros l2 H2 Hr1 Hr2 He.
  - destruct l2 as [|y l2]; [done|]. cbn in He. subst r1. apply Forall_cons in H2 as [Hy _], Hr1 as [Hy' _]. congruence.
  - destruct l2 as [|y l2]; cbn in He.
    + subst r2. apply Forall_cons in Hr2 as [Hx' _]. congruence.
    + injection He as -> He. apply Forall_cons in H2 as [_ H2]. destruct (IH l2) as [-> ->]; done.
Qed.

(** Equal digests, element by element. *)
Lemma hashes_bind (M : bytes -> Prop) l1 l2 :
  Forall M l1 -> Forall M l2 -> map hash.Hash l1 = map hash.Hash l2 -> l1 = l2 \/ hash.collision M.
Proof.
  intros H1. revert l2. induction H1 as [|a l1 Ha _ IH]; intros [|b l2] H2 He; try done; [by left|].
  apply Forall_cons in H2 as [Hb H2]. cbn in He. injection He as Hh He.
  destruct (IH l2 H2 He) as [->|]; [|by right].
  apply hash.Hash_inj_or_collision with (M := M) in Hh as [->|]; auto.
Qed.

Lemma committed_hashes l ms : Forall2 committed l ms -> map Children l = map (fun h => [h]) (map hash.Hash ms).
Proof. induction 1 as [|n m l ms Hc _ IH]; [done|]. cbn. by rewrite Hc, IH. Qed.

Lemma map_single_inj {A} (l1 l2 : list A) : map (fun h => [h]) l1 = map (fun h => [h]) l2 -> l1 = l2.
Proof.
  revert l2. induction l1 as [|a l1 IH]; intros [|b l2]; cbn; try done. intros [= -> He]. f_equal. by apply IH.
Qed.

(** The leaves of the transactions: one message each, in order. *)
Lemma atomicLayer_committed txs leaves :
  atomicLayer txs = Ok leaves ->
  exists us, mapM tx.serializeUnsigned txs = Ok us /\ Forall2 committed leaves us /\ Forall atomic_leaf leaves.
Proof.
  intros Ha%atomicLayer_inv. induction Ha as [|t n txs leaves Hn _ (us & Hus & Hc & Hat)]; [by exists []|].
  apply makeAtomicNode_inv in Hn as (id & v & Hid & _ & Hl & Hch & Hsig & _).
  unfold tx.ID in Hid. apply obind_ok_inv in Hid as (u & Hu & <-%Ok_inj).
  exists (u :: us). cbn [mapM]. rewrite Hu. cbn [obind]. rewrite Hus. split_and!; [done|by constructor|by constructor].
Qed.

Lemma contract_committed cn ss :
  Forall2 contract_leaf cn ss -> Forall2 committed cn (map contract.rootPreimage ss) /\ Forall atomic_leaf cn.
Proof.
  induction 1 as [|c s cn ss (Hl & Hsig & Hch) _ [IH1 IH2]]; [done|]. split; constructor; try done.
Qed.

(** ** Roots *)

(** The top node behind a root, and the layers below it. *)
Lemma BuildTreeRoot_inv txs cn ss r :
  Forall2 contract_leaf cn ss -> (txs <> [] \/ cn <> []) -> BuildTreeRoot txs cn = Ok r ->
  exists leaves us rest n t, mapM tx.serializeUnsigned txs = Ok us /\
    Forall2 committed (leaves ++ cn) (us ++ map contract.rootPreimage ss) /\ length leaves = length us /\
    Forall atomic_leaf (leaves ++ cn) /\ uniform 0 (leaves ++ cn) /\ linked ((leaves ++ cn) :: rest) /\
    last ((leaves ++ cn) :: rest) = Some [n] /\ BuildTree txs cn = Ok t /\ layers t = (leaves ++ cn) :: rest /\
    r = hash.Hash (ser n).
Proof.
  intros Hc Hne Hr. destruct (contract_committed cn ss Hc) as [Hcc Hca].
  unfold BuildTreeRoot in Hr. destruct (BuildTree txs cn) as [t| |] eqn:Hb; cbn [obind] in Hr; [|done..].
  destruct (BuildTree_inv txs cn t) as (leaves & rest & n & r' & Ha & Hls & Hl & Hu & Hlast & Hroot & Hrt & Hd);
    [eapply Forall_impl; [exact Hca|]; by intros c [? _]|done|done|].
  unfold TreeRoot in Hr. rewrite Hd in Hr. cbn [obind] in Hr. injection Hr as <-.
  rewrite Hls in *. apply Root_inv in Hroot as [_ Hroot].
  destruct (atomicLayer_committed txs leaves Ha) as (us & Hus & Huc & Hua).
  exists leaves, us, rest, n, t. split_and!; try done; [by apply Forall2_app|by eapply Forall2_length|by apply Forall_app|congruence].
Qed.

(** The messages hashed for a block: those of its tree, its transactions, the states of
    its contracts, and the node of the empty block. *)
Definition emptyNode : RGNode :=
  mkRGNode 1 (zero_arr 32) (zero_arr 32) SigStagnantState [emptyBlockChildRoot] (zero_arr 32) 0 0.

Definition blockMessage (txs : list tx.Tx) (cn : list RGNode) (ss : list contract.StateStore) (m : bytes) : Prop :=
  (exists t, BuildTree txs cn = Ok t /\ layersMessage (layers t) m) \/ m = ser emptyNode \/
  (exists t, t ∈ txs /\ tx.serializeUnsigned t = Ok m) \/ exists s, s ∈ ss /\ m = contract.rootPreimage s.

Lemma block_messages txs cn ss us :
  mapM tx.serializeUnsigned txs = Ok us -> Forall (blockMessage txs cn ss) (us ++ map contract.rootPreimage ss).
Proof.
  intros Hus%mapM_Forall2. apply Forall_app. split; apply Forall_forall; intros m Hm.
  - apply list_elem_of_lookup_1 in Hm as [i Hi]. destruct (Forall2_lookup_r _ _ _ _ _ Hus Hi) as (t & Ht & Hu).
    right; right; left. exists t. split; [by eapply list_elem_of_lookup_2|done].
  - apply list_elem_of_fmap in Hm as (s & -> & Hs). right; right; right. eauto.
Qed.

Lemma top_message ls n : last ls = Some [n] -> layersMessage ls (ser n).
Proof.
  intros Hl. rewrite last_lookup in Hl. apply list_elem_of_lookup_2 in Hl. right. exists [n], n.
  split; [done|]. split; [by left|done].
Qed.

(** The root of the empty block is no root of another block. *)
Lemma empty_root_differs txs cn ss r :
  Forall2 contract_leaf cn ss -> (txs <> [] \/ cn <> []) -> BuildTreeRoot [] [] = Ok r -> BuildTreeRoot txs cn = Ok r ->
  hash.collision (blockMessage txs cn ss).
Proof.
  intros Hcl Hne He Hr.
  apply (BuildTreeRoot_inv txs cn ss) in Hr as (leaves & us & rest & n & t & _ & _ & _ & Hat & Hu & Hl & Hlast & Hb & Hls & ->); [|done..].
  assert (node_ok emptyNode) as Hok by done.
  unfold BuildTreeRoot, BuildTree, EmptyBlockRoot in He. cbn -[Root] in He. fold emptyNode in He.
  rewrite Root_spec in He by done. cbn -[hash.Hash ser emptyNode] in He.
  injection He as He. apply hash.Hash_inj_or_collision with (M := blockMessage txs cn ss) in He as [He|]; [|done|right; by left|].
  2:{ left. exists t. split; [done|]. rewrite Hls. by apply top_message. }
  destruct (linked_top_scale _ _ _ _ _ Hl eq_refl Hu Hlast) as [Hk Hs]. cbn [Nat.add] in *.
  apply ser_scale in He as (Hsc & Hsig & _); [|done|by rewrite Hs; apply pow4_u32].
  rewrite Hs in Hsc. cbn [Scale Sig emptyNode] in *. destruct rest as [|l2 rest].
  - injection Hlast as El. rewrite El in Hat. apply Forall_cons in Hat as [[_ Hsa] _]. by rewrite Hsa in Hsig.
  - symmetry in Hsc. apply Z.eqb_eq in Hsc. cbn [length] in Hsc. by rewrite pow4_ne1 in Hsc.
Qed.

(** Unsigned serializations determine the signed fields. *)
Lemma unsigned_bind txs1 txs2 us :
  Forall tx.wf txs1 -> Forall tx.wf txs2 -> mapM tx.serializeUnsigned txs1 = Ok us -> mapM tx.serializeUnsigned txs2 = Ok us ->
  map signedView txs1 = map signedView txs2.
Proof.
  intros W1 W2 H1%mapM_Forall2 H2%mapM_Forall2. revert txs2 W2 H2.
  induction H1 as [|t1 u txs1 us Ht1 _ IH]; intros txs2 W2 H2; inversion H2 as [|t2 ? txs2' ? Ht2 H2']; subst; [done|].
  apply Forall_cons in W1 as [W1 W1s], W2 as [W2 W2s]. cbn [map]. f_equal; [by eapply serializeUnsigned_inj|by apply IH].
Qed.

(** Two layers of leaves that are equal at every position. *)
Lemma same_leaves_bind M txs1 txs2 cn1 cn2 ss1 ss2 leaves1 leaves2 us1 us2 :
  Forall tx.wf txs1 -> Forall tx.wf txs2 ->
  mapM tx.serializeUnsigned txs1 = Ok us1 -> mapM tx.serializeUnsigned txs2 = Ok us2 ->
  Forall2 committed (leaves1 ++ cn1) (us1 ++ map contract.rootPreimage ss1) ->
  Forall2 committed (leaves2 ++ cn2) (us2 ++ map contract.rootPreimage ss2) ->
  length leaves1 = length us1 -> length leaves2 = length us2 ->
  Forall M (us1 ++ map contract.rootPreimage ss1) -> Forall M (us2 ++ map contract.rootPreimage ss2) ->
  map (fun n => (Volume n, Children n)) (leaves1 ++ cn1) = map (fun n => (Volume n, Children n)) (leaves2 ++ cn2) ->
  (map signedView txs1 = map signedView txs2 /\ map contract.rootPreimage ss1 = map contract.rootPreimage ss2 /\
   map Volume cn1 = map Volume cn2) \/ hash.collision M.
Proof.
  intros W1 W2 U1 U2 C1 C2 L1 L2 M1 M2 He.
  pose proof (f_equal (map snd) He) as Hch. rewrite !map_map in Hch. cbn [snd] in Hch.
  change (map Children (leaves1 ++ cn1) = map Children (leaves2 ++ cn2)) in Hch.
  rewrite (committed_hashes _ _ C1), (committed_hashes _ _ C2) in Hch. apply map_single_inj in Hch.
  destruct (hashes_bind M _ _ M1 M2 Hch) as [Hms|]; [left|by right].
  assert (forall txs us, mapM tx.serializeUnsigned txs = Ok us -> Forall (fun m => isTxMessage m = true) us) as Htx.
  { intros txs us Hus%mapM_Forall2. clear -Hus. induction Hus as [|t u txs us Hu _ IH]; constructor; [by eapply tx_message|done]. }
  assert (forall ss, Forall (fun m => isTxMessage m = false) (map contract.rootPreimage ss)) as Hst.
  { intros ss. apply Forall_map, Forall_true. intros s. apply state_message. }
  destruct (parts_eq isTxMessage _ _ _ _ (Htx _ _ U1) (Htx _ _ U2) (Hst ss1) (Hst ss2) Hms) as [<- Hs].
  split_and!; [by eapply unsigned_bind|done|].
  apply (f_equal (map fst)) in He. rewrite !map_map in He. cbn [fst] in He.
  change (map Volume (leaves1 ++ cn1) = map Volume (leaves2 ++ cn2)) in He. rewrite !map_app in He.
  apply app_inj_1 in He as [_ He]; [done|]. rewrite !length_map. congruence.
Qed.

(** C11.  The root commits to the block: take two lists of transactions, each with the
    nodes of the contracts its block touched, whose trees have one state root.
    They have, in the same order, transactions that agree on every signed
    field and contracts with the same balance and the same hashed state, or
    two different messages hashed for the two blocks have one digest. *)
Theorem root_binds_transactions txs1 txs2 cn1 cn2 ss1 ss2 r :
  Forall tx.wf txs1 -> Forall tx.wf txs2 -> Forall2 contract_leaf cn1 ss1 -> Forall2 contract_leaf cn2 ss2 ->
  BuildTreeRoot txs1 cn1 = Ok r -> BuildTreeRoot txs2 cn2 = Ok r ->
  (map signedView txs1 = map signedView txs2 /\ map contract.rootPreimage ss1 = map contract.rootPreimage ss2 /\
   map Volume cn1 = map Volume cn2) \/
  hash.collision (fun m => blockMessage txs1 cn1 ss1 m \/ blockMessage txs2 cn2 ss2 m).
Proof.
  intros W1 W2 X1 X2 H1 H2. set (M := fun m => blockMessage txs1 cn1 ss1 m \/ blockMessage txs2 cn2 ss2 m).
  assert (forall (txs : list tx.Tx) (cn : list RGNode) (ss : list contract.StateStore), Forall2 contract_leaf cn ss -> (txs = [] /\ cn = [] /\ ss = []) \/ (txs <> [] \/ cn <> [])) as Hcase.
  { intros [|t txs] cn ss Hc; [|right; by left]. destruct Hc; [by left|right; by right]. }
  destruct (Hcase txs1 cn1 ss1 X1) as [(-> & -> & ->)|N1], (Hcase txs2 cn2 ss2 X2) as [(-> & -> & ->)|N2]; [by left| | |].
  { right. eapply hash.collision_mono, (empty_root_differs txs2 cn2 ss2 r); [by right|done..]. }
  { right. eapply hash.collision_mono, (empty_root_differs txs1 cn1 ss1 r); [by left|done..]. }
  apply (BuildTreeRoot_inv txs1 cn1 ss1) in H1 as (l1 & us1 & rest1 & n1 & t1 & I1 & C1 & Z1 & A1 & U1 & L1 & La1 & B1 & Ls1 & ->); [|done..].
  apply (BuildTreeRoot_inv txs2 cn2 ss2) in H2 as (l2 & us2 & rest2 & n2 & t2 & I2 & C2 & Z2 & A2 & U2 & L2 & La2 & B2 & Ls2 & Hh); [|done..].
  assert (forall m, layersMessage ((l1 ++ cn1) :: rest1) m -> M m) as HM1 by (intros m Hm; left; left; exists t1; by rewrite Ls1).
  assert (forall m, layersMessage ((l2 ++ cn2) :: rest2) m -> M m) as HM2 by (intros m Hm; right; left; exists t2; by rewrite Ls2).
  destruct (hash.Hash_inj_or_collision M _ _ ltac:(by apply HM1, top_message) ltac:(by apply HM2, top_message) Hh) as [Hser|]; [|by right].
  destruct (linked_top_scale _ _ _ _ _ L1 eq_refl U1 La1) as [K1 S1].
  destruct (linked_top_scale _ _ _ _ _ L2 eq_refl U2 La2) as [K2 S2]. cbn [Nat.add] in *.
  pose proof (ser_scale _ _ Hser ltac:(rewrite S1; by apply pow4_u32) ltac:(rewrite S2; by apply pow4_u32)) as (Hsc & _).
  rewrite S1, S2 in Hsc. apply pow4_inj in Hsc.
  pose proof (linked_same M _ _ _ _ _ _ 0 n1 n2 HM1 HM2 L1 L2 eq_refl eq_refl Hsc U1 U2 La1 La2 Hser) as Hsame.
  destruct (leaves_same M _ _ A1 A2 Hsame) as [Hch|]; [|by right].
  apply (same_leaves_bind M txs1 txs2 cn1 cn2 ss1 ss2 l1 l2 us1 us2); try done.
  - eapply Forall_impl; [by apply (block_messages txs1 cn1 ss1 us1)|]. by left.
  - eapply Forall_impl; [by apply (block_messages txs2 cn2 ss2 us2)|]. by right.
Qed.

(** What the root leaves open: the receivers' public keys are neither signed nor
    in the root.  Redirecting every transaction of a block to another key
    changes neither the root nor the outcome of any signature check, and a
    redirected transfer pays the new key. *)
Theorem root_blind_to_receiver {B} `{KVLaws B} (db db' : DB B) k t txs cn chainID :
  let redirect := set_ReceiverPubKey k in
  BuildTreeRoot (map redirect txs) cn = BuildTreeRoot txs cn /\
  Forall (fun t => tx.VerifySigsForChain (redirect t) chainID = tx.VerifySigsForChain t chainID) txs /\
  (ledger.ledger_ok db -> (forall v, tx.Value t = Some v -> 0 <= v) -> ledger.TransferTx db (redirect t) = Ok db' ->
   exists v, tx.Value t = Some v /\ ledger.BalanceOfTx db' k = ledger.BalanceOfTx db k + v).
Proof.
  cbv zeta. split_and!.
  - unfold BuildTreeRoot, BuildTree. replace (zlen (map (set_ReceiverPubKey k) txs)) with (zlen txs)
      by (unfold zlen; by rewrite length_map).
    replace (atomicLayer (map (set_ReceiverPubKey k) txs)) with (atomicLayer txs); [done|].
    unfold atomicLayer. induction txs as [|t0 txs IH]; cbn [map mapM]; [done|].
    change (makeAtomicNode (set_ReceiverPubKey k t0)) with (makeAtomicNode t0). by rewrite IH.
  - by apply Forall_true.
  - intros Hok Hv (v & b & Hval & Hs & _ & ->)%TransferTx_inv; [|done]. exists v. split; [done|].
    change (tx.Value (set_ReceiverPubKey k t)) with (tx.Value t) in Hval.
    unfold ledger.BalanceOfTx. cbn. rewrite (shift_read _ _ _ _ _ k (Hv v Hval) Hs). by rewrite decide_True.
Qed.
End Root.
