(* ===== verification/ContractProofs.v ===== *)
(** * core/contract: the stored state, and what a contract can do through the host *)

From S2P Require Import Prelude GoBytes Errors Platform Tx KV Ledger Contract.
Import contract.

(** ** The state store *)
Section State.

(** Keys of 1 to 32 bytes, values of 1 to 65536. *)
Definition state_wf (s : StateStore) : Prop :=
  map_Forall (fun k v => 0 < zlen k <= maxStateKeyLen /\ 0 < zlen v <= maxStateValLen) s.

Lemma state_Set_wf s k v s' : state_wf s -> state_Set s k v = Ok s' -> state_wf s'.
Proof.
  unfold state_Set. intros Hs H. pose proof (zlen_nonneg k). pose proof (zlen_nonneg v). osteps H; bsimp; simplify_eq.
  - by apply map_Forall_delete.
  - apply map_Forall_insert_2; [|done]. split; lia.
Qed.

Lemma sortedKeys_perm s : sortedKeys s ≡ₚ map fst (map_to_list s).
Proof. apply merge_sort_Permutation. Qed.

Lemma elem_of_sortedKeys s k : k ∈ sortedKeys s <-> is_Some (s !! k).
Proof.
  rewrite sortedKeys_perm. change (map fst (map_to_list s)) with ((map_to_list s).*1). rewrite list_elem_of_fmap. split.
  - intros ([k' v] & -> & Hin%elem_of_map_to_list). eauto.
  - intros [v Hv]. exists (k, v). split; [done|by apply elem_of_map_to_list].
Qed.

Lemma NoDup_sortedKeys s : NoDup (sortedKeys s).
Proof. rewrite sortedKeys_perm. apply NoDup_fst_map_to_list. Qed.

Lemma sortedKeys_length s : length (sortedKeys s) = size s.
Proof. rewrite sortedKeys_perm, length_map. exact (length_map_to_list (M := gmap bytes) s). Qed.

(** Reading the entries of a list of keys. *)
Definition readBack (s : StateStore) (acc : gmap bytes bytes) (ks : list bytes) : gmap bytes bytes :=
  foldl (fun m k => <[k := valueAt s k]> m) acc ks.

Lemma stateLoop_written s ks pre acc :
  Forall (fun k => 0 < zlen k <= maxStateKeyLen /\ zlen (valueAt s k) < two16) ks ->
  stateLoop (length ks) (pre ++ concat (map (entryBytes s) ks)) (zlen pre) acc = Ok (readBack s acc ks).
Proof.
  intros Hks. revert pre acc. induction Hks as [|k ks [Hk Hv] _ IH]; intros pre acc; [done|].
  unfold maxStateKeyLen in *. unfold two16 in *.
  pose proof (zlen_nonneg (valueAt s k)). pose proof (zlen_nonneg (concat (map (entryBytes s) ks))). pose proof (zlen_nonneg pre).
  specialize (IH (pre ++ entryBytes s k) (<[k := valueAt s k]> acc)). rewrite <- app_assoc in IH.
  cbn [length map concat]. cbn [map concat] in IH.
  assert (pre ++ entryBytes s k ++ concat (map (entryBytes s) ks) =
    concat [pre; [byte_of_Z (zlen k)]; k; be_enc 2 (zlen (valueAt s k)); valueAt s k; concat (map (entryBytes s) ks)]) as Hraw.
  { unfold entryBytes at 1. unfold wrap16. rewrite Z.mod_small by (unfold two16; lia).
    cbn [concat]. by rewrite app_nil_r, <- !app_assoc. }
  assert (zlen (entryBytes s k) = 3 + zlen k + zlen (valueAt s k)) as Hlen.
  { unfold entryBytes. autorewrite with len. lia. }
  rewrite zlen_app, Hlen in IH. rewrite Hraw in *. cbn [stateLoop]. unfold maxStateKeyLen, u16_at.
  match goal with |- context [zlen (concat ?cs)] => assert (zlen (concat cs) =
    3 + zlen pre + zlen k + zlen (valueAt s k) + zlen (concat (map (entryBytes s) ks))) as HL
    by (rewrite zlen_concat; len_solve) end.
  rewrite HL. rewrite (proj2 (Z.ltb_lt _ _)) by lia. cbn [negb]. if_step. rd_step.
  rewrite byte_to_of_Z, Z.mod_small by lia.
  rewrite (proj2 (Z.eqb_neq _ 0)) by lia. rewrite !Z.gtb_ltb, !(proj2 (Z.ltb_ge _ _)) by lia. cbn [orb].
  repeat first [rd_step | if_step | progress cbv iota]. etransitivity; [|exact IH]. f_equal. lia.
Qed.

Lemma readBack_lookup s acc ks k :
  readBack s acc ks !! k = if decide (k ∈ ks) then Some (valueAt s k) else acc !! k.
Proof.
  revert acc. induction ks as [|k' ks IH]; intros acc; [done|]. cbn [readBack foldl]. fold (readBack s (<[k' := valueAt s k']> acc) ks).
  rewrite IH. destruct (decide (k ∈ ks)) as [Hin|Hin].
  - by rewrite decide_True by (by right).
  - destruct (decide (k' = k)) as [->|Hne].
    + rewrite lookup_insert_eq, decide_True by (by left). done.
    + rewrite lookup_insert_ne by done. rewrite decide_False; [done|]. rewrite not_elem_of_cons. auto.
Qed.

Lemma readBack_all s : readBack s ∅ (sortedKeys s) = s.
Proof.
  apply map_eq. intros k. rewrite readBack_lookup. case_decide as Hin.
  - apply elem_of_sortedKeys in Hin as [v Hv]. unfold valueAt. by rewrite Hv.
  - rewrite elem_of_sortedKeys in Hin. apply eq_None_not_Some in Hin. symmetry. exact Hin.
Qed.

Lemma state_wf_keys s :
  state_wf s -> Forall (fun k => 0 < zlen k <= maxStateKeyLen /\ 0 < zlen (valueAt s k) <= maxStateValLen) (sortedKeys s).
Proof.
  intros Hs. apply Forall_forall. intros k [v Hv]%elem_of_sortedKeys. unfold valueAt. rewrite Hv. by apply (Hs k v).
Qed.

Lemma state_Serialize_ok s :
  state_wf s -> state_Serialize s = Some (put16 (wrap16 (zlen (sortedKeys s))) ++ concat (map (entryBytes s) (sortedKeys s))).
Proof.
  intros Hs%state_wf_keys. unfold state_Serialize.
  replace (forallb _ _) with true; [done|]. symmetry. apply forallb_forall. intros k Hk%list_elem_of_In.
  rewrite Forall_forall in Hs. destruct (Hs k Hk) as [? ?].
  rewrite (proj2 (Z.eqb_neq _ 0)), !Z.gtb_ltb, !(proj2 (Z.ltb_ge _ _)) by lia. done.
Qed.

(** Contract state survives storage.  A store of fewer than 65536 keys whose
    values are shorter than 65536 bytes is read back exactly; every state
    reachable by [Set] satisfies the length bounds the writer checks. *)
Theorem DeserializeState_Serialize s k v s' :
  state_wf s -> Z.of_nat (size s) < two16 -> map_Forall (fun _ v => zlen v < two16) s ->
  (exists raw, state_Serialize s = Some raw /\ DeserializeState raw = Ok s) /\
  (state_Set s k v = Ok s' -> state_wf s').
Proof.
  intros Hs Hn Hv. split; [|by apply state_Set_wf]. eexists. split; [by apply state_Serialize_ok|].
  assert (zlen (sortedKeys s) = Z.of_nat (size s)) as Hsz by (unfold zlen; by rewrite sortedKeys_length).
  unfold wrap16. rewrite Z.mod_small by (rewrite Hsz; lia).
  pose proof (zlen_nonneg (concat (map (entryBytes s) (sortedKeys s)))). unfold DeserializeState.
  rewrite (proj2 (Z.ltb_ge _ 2)) by (autorewrite with len; lia). unfold u16_at, put16.
  pose proof (be_at_app (E := error) 2 [] (concat (map (entryBytes s) (sortedKeys s))) (zlen (sortedKeys s)) 0) as Hr.
  rewrite app_nil_l in Hr. rewrite Hr by (done || (rewrite Hsz; unfold two16 in *; lia)). cbn [obind].
  pose proof (stateLoop_written s (sortedKeys s) (be_enc 2 (zlen (sortedKeys s))) ∅) as Hl.
  rewrite zlen_be_enc in Hl. replace (Z.to_nat (zlen (sortedKeys s))) with (length (sortedKeys s)) by (unfold zlen; lia).
  rewrite readBack_all in Hl. apply Hl.
  apply Forall_forall. intros k' [v' Hv']%elem_of_sortedKeys. unfold valueAt. rewrite Hv'. cbn.
  split; [apply (Hs k' v' Hv')|apply (Hv k' v' Hv')].
Qed.

(** Two limits of the encoding.  A value of the largest size [Set] admits, 65536
    bytes, is read back as an empty value; and the state root, which hashes
    keys and values without their lengths, is the same for different states. *)
Theorem state_encoding_limits `{Platform} k :
  0 < zlen k <= maxStateKeyLen ->
  (forall v, zlen v = maxStateValLen ->
     exists s raw, state_Set NewStateStore k v = Ok s /\ state_Serialize s = Some raw /\ DeserializeState raw = Ok {[k := []]}) /\
  exists s1 s2, state_wf s1 /\ state_wf s2 /\ s1 <> s2 /\ StateRoot s1 = StateRoot s2.
Proof.
  intros Hk. split.
  - intros v Hv. exists {[k := v]}. eexists. unfold maxStateKeyLen, maxStateValLen in *.
    assert (sortedKeys {[k := v]} = [k]) as Hks by (apply (f_equal (fun l => merge_sort bytes_le (map fst l)) (map_to_list_singleton (M := gmap bytes) k v))).
    assert (valueAt {[k := v]} k = v) as Hva by (exact (f_equal (default []) (lookup_singleton_eq (M := gmap bytes) k v))).
    assert (state_wf {[k := v]}) as Hw by (apply map_Forall_singleton; unfold maxStateKeyLen, maxStateValLen; lia).
    split_and!; [|by apply state_Serialize_ok|].
    + unfold state_Set, maxStateKeyLen, maxStateValLen.
      rewrite !(proj2 (Z.eqb_neq _ 0)), !Z.gtb_ltb, !(proj2 (Z.ltb_ge _ _)) by lia. done.
    + rewrite Hks. cbn [map concat]. unfold entryBytes. rewrite Hva, Hv, app_nil_r.
      change (wrap16 (64 * 1024)) with 0. change (wrap16 (zlen [k])) with 1.
      assert (put16 1 ++ [byte_of_Z (zlen k)] ++ k ++ put16 0 ++ v =
              concat [be_enc 2 1; [byte_of_Z (zlen k)]; k; be_enc 2 0; []; v]) as -> by (cbn [concat]; by rewrite app_nil_r).
      unfold DeserializeState, u16_at. set (raw := concat _).
      assert (zlen raw = 5 + zlen k + 65536) as HL by (subst raw; rewrite zlen_concat; len_solve).
      rewrite HL. subst raw. if_step. rd_step. change (Z.to_nat 1) with 1%nat. cbn [stateLoop]. unfold maxStateKeyLen, u16_at.
      rewrite HL. rewrite (proj2 (Z.ltb_lt 2 _)) by lia. cbn [negb]. if_step. rd_step.
      rewrite byte_to_of_Z, Z.mod_small by lia. rewrite (proj2 (Z.eqb_neq _ 0)) by lia.
      rewrite !Z.gtb_ltb, !(proj2 (Z.ltb_ge _ _)) by lia. cbn [orb].
      repeat first [rd_step | if_step | progress cbv iota]. done.
  - exists {[str "a" := str "bc"]}, {[str "ab" := str "c"]}.
    split_and!; [by apply map_Forall_singleton..| |].
    + intros He. apply (f_equal (fun s : gmap bytes bytes => s !! str "a")) in He. vm_compute in He. done.
    + unfold StateRoot. f_equal.
Qed.
End State.

(** ** What the guest can do *)
Section Confinement.
Context `{Platform} `{Wasmtime} {B : Type} `{KVLaws B}.
Implicit Types (w : World B) (cfg : RuntimeConfig).

(** From [w] to [w']: of the database only balances change, and only the
    contract's own account can lose; the state keeps its length bounds and the
    ledger its format. *)
Definition confined cfg w w' : Prop :=
  (exists b, w_db w' = set_balances (w_db w) b) /\
  (forall a, a <> SelfAddr cfg -> ledger.BalanceOfTx (w_db w) a <= ledger.BalanceOfTx (w_db w') a) /\
  (state_wf (w_state w) -> state_wf (w_state w')) /\
  (ledger.ledger_ok (w_db w) -> ledger.ledger_ok (w_db w')).

#[local] Instance confined_preorder cfg : PreOrder (confined cfg).
Proof.
  split.
  - intros w. split_and!; [|done..]. exists (balances (w_db w)). by destruct (w_db w).
  - intros w1 w2 w3 ([b1 E1] & Ha1 & Hs1 & Hl1) ([b2 E2] & Ha2 & Hs2 & Hl2). split_and!.
    + exists b2. by rewrite E2, E1.
    + intros a Hne. etransitivity; [by apply Ha1|by apply Ha2].
    + auto.
    + auto.
Qed.

Lemma confined_same cfg w e f : confined cfg w (mkWorld (w_db w) (w_state w) e f).
Proof. change (confined cfg (mkWorld (w_db w) (w_state w) (w_hostErr w) (w_fuel w)) (mkWorld (w_db w) (w_state w) e f)).
  split_and!; [|done..]. exists (balances (w_db w)). cbn. by destruct (w_db w).
Qed.

(** A host function's answer: confined, and no more fuel than before. *)
Definition safe cfg w (r : res (answer (B := B))) : Prop :=
  match r with
  | Ok (w', _, _) => confined cfg w w' /\ (0 <= w_fuel w -> 0 <= w_fuel w' <= w_fuel w)
  | _ => True
  end.

Lemma safe_stop cfg w mem v : safe cfg w (Ok (w, mem, v)).
Proof. split; [reflexivity|lia]. Qed.

Lemma charged_safe cfg w mem fuel bad k :
  0 <= fuel ->
  (forall w1, w_db w1 = w_db w -> w_state w1 = w_state w -> safe cfg w1 (k w1)) ->
  safe cfg w (charged w mem fuel bad k).
Proof.
  intros Hf Hk. unfold charged, chargeFuelFor. destruct (w_fuel w <? fuel) eqn:E; bsimp.
  - split; [apply (confined_same cfg w)|cbn; lia].
  - specialize (Hk (set_fuel w (w_fuel w - fuel)) eq_refl eq_refl).
    destruct (k _) as [[[w' m'] v]| |]; [|done..]. destruct Hk as [Hc Hle]. cbn in Hle. split; [|lia].
    etransitivity; [apply (confined_same cfg w)|exact Hc].
Qed.

Lemma hostFuel_nonneg ls total : 0 <= total -> 0 <= hostFuel total ls.
Proof.
  revert total. induction ls as [|n ls IH]; intros total Ht; cbn [hostFuel]; [done|].
  destruct (n <=? 0) eqn:E; bsimp; [by apply IH|]. destruct (_ >? _); [done|]. apply IH.
  unfold HostMemoryByteFuel, FuelPerWasmOp. lia.
Qed.

Lemma safe_eq cfg w w1 mem v :
  w_db w1 = w_db w -> w_state w1 = w_state w -> w_fuel w1 = w_fuel w -> safe cfg w (Ok (w1, mem, v)).
Proof.
  intros Ed Es Hf. split; [|rewrite Hf; lia]. destruct w1 as [d s e f]. cbn in *. subst. apply confined_same.
Qed.

Lemma Bn254PairingFuel_nonneg n c : Bn254PairingFuel n = Ok c -> 0 <= c.
Proof.
  unfold Bn254PairingFuel. intros Hb. osteps Hb. bsimp. simplify_eq.
  assert (0 <= n / Bn254PairingInputBytes) by (apply Z.div_pos; unfold Bn254PairingInputBytes; lia).
  unfold Bn254PairingBaseFuel, Bn254PairingPerPairFuel. lia.
Qed.

(** Close the branches that answer without touching the world. *)
Ltac host_step :=
  match goal with
  | |- safe _ ?w (Ok (?w, _, _)) => apply safe_stop
  | |- safe _ _ (Ok (_, _, _)) => apply safe_eq; cbn; done || lia
  | |- safe _ _ (charged _ _ _ _ _) =>
      apply charged_safe; [first [done | by apply hostFuel_nonneg | by eapply Bn254PairingFuel_nonneg | lia] | intros ? ? ?]
  | |- safe _ _ Panic => exact I
  | |- safe _ _ (Err _) => exact I
  | |- safe _ _ (if ?c then _ else _) => destruct c
  | |- safe _ _ (obind ?m _) => destruct m; cbn [obind]
  | |- safe _ _ (match ?x with _ => _ end) => destruct x eqn:?
  | |- safe _ _ (let '(_, _) := ?x in _) => destruct x
  end.

Lemma state_set_safe cfg w s key val mem v :
  state_Set (w_state w) key val = Ok s -> safe cfg w (Ok (mkWorld (w_db w) s (w_hostErr w) (w_fuel w), mem, v)).
Proof.
  intros Hs. split; [|cbn; lia]. split_and!; cbn; [|done| |done].
  - exists (balances (w_db w)). by destruct (w_db w).
  - intros Hw. by eapply state_Set_wf.
Qed.

Lemma transfer_safe cfg w db to z mem v :
  ledger.MoveTx (w_db w) (SelfAddr cfg) to (Some z) = Ok db ->
  safe cfg w (Ok (mkWorld db (w_state w) (w_hostErr w) (w_fuel w), mem, v)).
Proof.
  intros (z' & b & [= <-] & Hz & Hs & ->)%MoveTx_inv. split; [|cbn; lia]. split_and!; cbn; [by exists b| |done|intros; eapply ledger_ok_shift; [apply Hz|done..]].
  intros a Ha. unfold ledger.BalanceOfTx. cbn. rewrite (shift_read _ _ _ _ _ a (proj1 Hz) Hs). destruct Hz.
  case_decide; [subst; lia|]. by case_decide.
Qed.

Lemma hostFunction_safe cfg w mem call : safe cfg w (hostFunction cfg w mem call).
Proof.
  destruct call; cbn [hostFunction];
    unfold host_state_get, host_state_set, host_self_balance, host_balance_of, host_block_height, host_caller,
      host_self_address, host_calldata_len, host_calldata_copy, host_log, host_transfer, host_pairing_check.
  all: repeat host_step.
  all: try (by eapply state_set_safe); try (by eapply transfer_safe).
Qed.

Lemma drive_confined {A} cfg (r : wasm_run A) w w' out : drive cfg r w = Ok (w', out) -> confined cfg w w'.
Proof.
  revert w. induction r as [a f|oof|call mem f k IH]; intros w Hd; cbn [drive] in Hd.
  - injection Hd as <- _. apply confined_same.
  - by injection Hd as <- _.
  - pose proof (hostFunction_safe cfg (set_fuel w f) mem call) as Hs.
    destruct (hostFunction _ _ _ _) as [[[w1 m1] v]| |]; cbn [obind] in Hd; [|done..].
    apply IH in Hd. etransitivity; [apply (confined_same cfg w)|]. etransitivity; [apply Hs|done].
Qed.

(** C26.  A contract is confined.  Whatever code the engine runs and however it calls
    the host, its calls change nothing of the database but balances, take
    value from no account but the contract's own, and keep the state within
    the storable bounds; and no host call returns more fuel than it was given. *)
Theorem contract_confined {A} cfg (r : wasm_run A) w w' out :
  drive cfg r w = Ok (w', out) ->
  ((exists b, w_db w' = set_balances (w_db w) b) /\
   (forall a, a <> SelfAddr cfg -> ledger.BalanceOfTx (w_db w) a <= ledger.BalanceOfTx (w_db w') a) /\
   (state_wf (w_state w) -> state_wf (w_state w'))) /\
  forall w0 mem call w1 mem1 v, hostFunction cfg w0 mem call = Ok (w1, mem1, v) -> 0 <= w_fuel w0 ->
    0 <= w_fuel w1 <= w_fuel w0.
Proof.
  intros Hd. split; [apply drive_confined in Hd as (? & ? & ? & _); done|]. intros w0 mem call w1 mem1 v Hh.
  pose proof (hostFunction_safe cfg w0 mem call) as Hs. rewrite Hh in Hs. apply Hs.
Qed.
End Confinement.

(** ** The pairing check *)
Section Pairing.
Context `{Wasmtime}.

(** The bytes of a decoded pair. *)
Definition encodePair (pq : G1Affine * G2Affine) : bytes :=
  let '(p, q) := pq in
  concat (map (be_enc 32) [G1X p; G1Y p; G2XA1 q; G2XA0 q; G2YA1 q; G2YA0 q]).

Lemma field32_enc chunk i z : (32 * i + 32 <= length chunk)%nat -> field32 chunk i = Ok z -> take 32 (drop (32 * i) chunk) = be_enc 32 z.
Proof.
  intros Hl. unfold field32, SetBytesCanonical. destruct (_ <? _); [|done]. intros [= <-]. symmetry. apply be_enc_dec_len.
  rewrite length_take, length_drop. lia.
Qed.

Lemma six_fields (chunk : bytes) : length chunk = 192%nat ->
  chunk = concat (map (fun i => take 32 (drop (32 * i) chunk)) [0; 1; 2; 3; 4; 5]%nat).
Proof.
  intros Hl. cbn [map concat]. rewrite app_nil_r. rewrite <- (take_drop 32 chunk) at 1. f_equal.
  do 4 (etransitivity; [symmetry; apply (take_drop 32)|]; rewrite drop_drop; f_equal).
  rewrite take_ge by (rewrite length_drop; lia). done.
Qed.

Lemma decodePair_encode chunk p q :
  length chunk = 192%nat -> decodeG1 chunk = Ok p -> decodeG2 chunk = Ok q -> chunk = encodePair (p, q).
Proof.
  intros Hl Hp Hq. unfold decodeG1 in Hp. unfold decodeG2 in Hq. osteps Hp. osteps Hq. simplify_eq.
  rewrite (six_fields chunk Hl). cbn [map encodePair G1X G1Y G2XA1 G2XA0 G2YA1 G2YA0].
  repeat match goal with Hf : field32 chunk ?i = Ok _ |- _ => apply field32_enc in Hf; [|lia] end. congruence.
Qed.

(** What the pairing is computed from determines the input: no two inputs of a
    proof stand for the same points. *)
Lemma decodePairs_encode n input l :
  length input = (192 * n)%nat -> decodePairs n input = Ok l -> input = concat (map encodePair l) /\ length l = n.
Proof.
  revert input l. induction n as [|n IH]; intros input l Hl Hd; cbn [decodePairs] in Hd.
  - injection Hd as <-. split; [|done]. apply nil_length_inv. lia.
  - apply obind_ok_inv in Hd as (p & Hp & Hd). apply obind_ok_inv in Hd as (q & Hq & Hd). apply obind_ok_inv in Hd as (rest & Hr & <-%Ok_inj).
    apply IH in Hr as [Hr <-]; [|rewrite length_drop; lia]. split; [|done]. cbn [map concat]. rewrite <- Hr.
    rewrite <- (decodePair_encode (take 192 input) p q); [by rewrite take_drop|rewrite length_take; lia|done|done].
Qed.

(** The pairing check reads canonical encodings only.  It accepts an input only
    if the input is, byte for byte, the encoding of a list of pairs of points
    with coordinates below the field's modulus, and then it answers what the
    curve library says of these points; the empty input is accepted. *)
Theorem pairing_canonical input b :
  Bn254PairingCheck input = Ok b ->
  (input = [] /\ b = true) \/
  exists pairs, pairs <> [] /\ input = concat (map encodePair pairs) /\ bn254_PairingCheck pairs = Ok b.
Proof.
  unfold Bn254PairingCheck. intros Hb. destruct (_ =? 0) eqn:E; [|done]. cbn [negb] in Hb. destruct (zlen input =? 0) eqn:E0.
  - injection Hb as <-. left. split; [|done]. apply nil_length_inv. unfold zlen in E0. lia.
  - right. apply obind_ok_inv in Hb as (pairs & Hp & Hb). apply Z.eqb_eq in E. apply Z.eqb_neq in E0.
    assert (length input = (192 * Z.to_nat (zlen input / Bn254PairingInputBytes))%nat) as Hl.
    { unfold zlen, Bn254PairingInputBytes in *. rewrite Z.rem_mod_nonneg in E by lia. pose proof (Z.div_mod (Z.of_nat (length input)) 192). lia. }
    apply decodePairs_encode in Hp as [Hin Hn]; [|done]. exists pairs. split_and!; [|done|done].
    intros ->. cbn in Hin. subst input. by rewrite zlen_nil in E0.
Qed.
End Pairing.
