(* ===== verification/BlockStore.v ===== *)
(** * core/statemachine: stored blocks *)

From S2P Require Import Prelude GoBytes Errors Platform Tx TxProofs BatchProofs KV.

Module blockstore.

Record Block : Type := mkBlock
  { Height : Z;
    Txs : list tx.Tx;
    ProposerPubKey : arr 32;
    PrevStateRoot : arr 32;
    StateRoot : arr 32;
    ProposalBytes : bytes }.

Definition maxStoredBlockBytes : Z := Z.shiftl 64 20.
Definition maxBlockRange : Z := 1024.
Definition blockMagicV1 : bytes := str "FRG_BLOCK_V1" ++ [x00].
Definition blockMagicV2 : bytes := str "FRG_BLOCK_V2" ++ [x00].

Section Ops.
Context `{Platform} {B : Type} `{KV B}.

Definition blockKey (height : Z) : bytes := put64 height.

Definition serializeBlock (block : Block) : res bytes :=
  let* batch := (if zlen (Txs block) >? 0 then tx.SerializeBatch (Txs block) else Ok []) in
  if zlen (ProposalBytes block) >? maxStoredBlockBytes then failf "serialized proposal exceeds 67108864 bytes" else
  let data := blockMagicV2 ++ put64 (Height block) ++ ProposerPubKey block ++ PrevStateRoot block ++
    StateRoot block ++ put32 (wrap32 (zlen (Txs block))) ++ put32 (wrap32 (zlen (ProposalBytes block))) ++
    batch ++ ProposalBytes block in
  if zlen data >? maxStoredBlockBytes then failf "serialized block exceeds 67108864 bytes" else
  Ok data.

Definition SerializeBlock (block : Block) : res bytes := serializeBlock block.

Definition deserializeV1Block (data : bytes) : res Block :=
  let* height := u64_at data 13 in
  let* proposer := slice data 21 53 in
  let* count := u32_at data 53 in
  if count =? 0 then
    if negb (zlen data =? 57) then failf "stored empty block has trailing bytes" else
    Ok (mkBlock height [] (mk_arr 32 proposer) (zero_arr 32) (zero_arr 32) [])
  else
  let* body := slice data 57 (zlen data) in
  let* txs := tx.DeserializeBatch body in
  if negb (zlen txs =? count) then failf "stored block transaction count mismatch" else
  Ok (mkBlock height txs (mk_arr 32 proposer) (zero_arr 32) (zero_arr 32) []).

Definition deserializeBlock (data : bytes) : res Block :=
  if (zlen data <? 57) || (zlen data >? maxStoredBlockBytes) then failf "invalid stored block" else
  let* magic := slice data 0 13 in
  if bool_decide (magic = blockMagicV1) then deserializeV1Block data else
  if bool_decide (magic <> blockMagicV2) || (zlen data <? 125) then failf "invalid stored block" else
  let* height := u64_at data 13 in
  let* proposer := slice data 21 53 in
  let* prev := slice data 53 85 in
  let* sroot := slice data 85 117 in
  let* count := u32_at data 117 in
  let* proposalLen := u32_at data 121 in
  if (proposalLen <? 0) || (proposalLen >? zlen data - 125) then failf "invalid stored proposal length" else
  let batchEnd := zlen data - proposalLen in
  if batchEnd <? 125 then failf "invalid stored block payload" else
  let* proposal := slice data batchEnd (zlen data) in
  let block txs := mkBlock height txs (mk_arr 32 proposer) (mk_arr 32 prev) (mk_arr 32 sroot) proposal in
  if count =? 0 then
    if negb (batchEnd =? 125) then failf "stored empty block has trailing bytes" else Ok (block [])
  else
  let* body := slice data 125 batchEnd in
  let* txs := tx.DeserializeBatch body in
  if negb (zlen txs =? count) then failf "stored block transaction count mismatch" else Ok (block txs).

Definition DeserializeBlock (data : bytes) : res Block := deserializeBlock data.

Definition putBlockTx (db : DB B) (block : Block) : res (DB B) :=
  let* data := serializeBlock block in
  Ok (set_blocks db (kv_Put (blocks db) (blockKey (Height block)) data)).

Definition BlockAt (db : DB B) (height : Z) : res (option Block) :=
  match kv_Get (blocks db) (blockKey height) with
  | None => Ok None
  | Some data => let* b := deserializeBlock data in Ok (Some b)
  end.

(** The loop over heights, [n] of them from [height]; the last uint64 ends it. *)
Fixpoint blocksLoop (n : nat) (db : DB B) (height : Z) (acc : list Block) : res (list Block) :=
  match n with
  | O => Ok acc
  | S n =>
    let* b := BlockAt db height in
    match b with
    | None => Ok acc
    | Some b =>
      let acc := acc ++ [b] in
      if height =? two64 - 1 then Ok acc else blocksLoop n db (height + 1) acc
    end
  end.

Definition Blocks (db : DB B) (from to : Z) : res (list Block) :=
  if to <? from then failf "invalid block range" else
  if to - from >=? maxBlockRange then failf "block range exceeds 1024 blocks" else
  blocksLoop (Z.to_nat (to - from + 1)) db from [].
End Ops.
End blockstore.

(** * core/statemachine: stored blocks are read back *)

Import blockstore.

Section Store.
Context `{PlatformLaws}.

(** A block as it is read: transactions in canonical form. *)
Definition canonBlock (b : Block) : Block :=
  mkBlock (Height b) (map canon (Txs b)) (ProposerPubKey b) (PrevStateRoot b) (StateRoot b) (ProposalBytes b).

Definition block_wf (b : Block) : Prop := is_u64 (Height b) /\ Forall tx.wf (Txs b).

Lemma serializeBlock_inv b d :
  serializeBlock b = Ok d ->
  exists batch,
    (Txs b = [] /\ batch = [] \/ 0 < zlen (Txs b) /\ tx.SerializeBatch (Txs b) = Ok batch) /\
    zlen (ProposalBytes b) <= maxStoredBlockBytes /\ zlen d <= maxStoredBlockBytes /\
    d = concat [blockMagicV2; put64 (Height b); arr_bytes (ProposerPubKey b); arr_bytes (PrevStateRoot b);
                arr_bytes (StateRoot b); put32 (wrap32 (zlen (Txs b))); put32 (wrap32 (zlen (ProposalBytes b)));
                batch; ProposalBytes b].
Proof.
  unfold serializeBlock. intros Hs. pose proof (zlen_nonneg (Txs b)).
  destruct (if zlen (Txs b) >? 0 then _ else _) as [batch| |] eqn:E; cbn [obind] in Hs; [|done..].
  osteps Hs; bsimp; simplify_eq. exists batch. split_and!; try done.
  - destruct (zlen (Txs b) >? 0) eqn:Eb; bsimp; [right; split; [lia|done]|left].
    injection E as <-. split; [|done]. destruct (Txs b); [done|]. rewrite zlen_cons in Eb.
    pose proof (zlen_nonneg l). lia.
  - cbn [concat]. by rewrite app_nil_r.
Qed.

Lemma batch_count txs d : tx.SerializeBatch txs = Ok d -> zlen txs <= tx.maxBatchTxs.
Proof. unfold tx.SerializeBatch. intros Hs. osteps Hs. by bsimp. Qed.

(** Reading the fields of a written block leaves its batch to decode. *)
Lemma deserializeBlock_written b d batch :
  is_u64 (Height b) -> zlen (Txs b) <= tx.maxBatchTxs -> zlen (ProposalBytes b) <= maxStoredBlockBytes ->
  0 < zlen (Txs b) \/ batch = [] -> zlen d <= maxStoredBlockBytes ->
  d = concat [blockMagicV2; put64 (Height b); arr_bytes (ProposerPubKey b); arr_bytes (PrevStateRoot b);
              arr_bytes (StateRoot b); put32 (wrap32 (zlen (Txs b))); put32 (wrap32 (zlen (ProposalBytes b)));
              batch; ProposalBytes b] ->
  deserializeBlock d =
    let* txs := (if zlen (Txs b) =? 0 then Ok [] else tx.DeserializeBatch batch) in
    if negb (zlen txs =? zlen (Txs b)) then failf "stored block transaction count mismatch" else
    Ok (mkBlock (Height b) txs (ProposerPubKey b) (PrevStateRoot b) (StateRoot b) (ProposalBytes b)).
Proof.
  intros Hh Hlt Hp Hb Hd Ed.
  assert (zlen blockMagicV2 = 13) as HM by done.
  pose proof (zlen_nonneg batch). pose proof (zlen_nonneg (ProposalBytes b)). pose proof (zlen_nonneg (Txs b)).
  unfold tx.maxBatchTxs in *. change maxStoredBlockBytes with 67108864 in *.
  unfold wrap32 in *. rewrite !Z.mod_small in Ed by (unfold two32; lia).
  assert (zlen d = 125 + zlen batch + zlen (ProposalBytes b)) as HL.
  { rewrite Ed, zlen_concat. len_solve. }
  unfold deserializeBlock, u64_at, u32_at. change maxStoredBlockBytes with 67108864. rewrite HL in *.
  rewrite (proj2 (Z.ltb_ge _ 57)), Z.gtb_ltb, (proj2 (Z.ltb_ge 67108864 _)), (proj2 (Z.ltb_ge _ 125)) by lia. cbn [orb].
  subst d. unfold put64, put32, is_u64, two64 in *.
  rd_step. rewrite bool_decide_eq_false_2 by done. rewrite bool_decide_eq_false_2 by tauto. cbn [orb].
  do 6 rd_step.
  rewrite (proj2 (Z.ltb_ge _ 0)), Z.gtb_ltb, (proj2 (Z.ltb_ge _ (zlen (ProposalBytes b)))) by lia. cbn [orb].
  cbv zeta. if_step. rd_step. rewrite !mk_arr_bytes.
  destruct (zlen (Txs b) =? 0) eqn:E; bsimp.
  - destruct Hb as [?| ->]; [lia|]. change (zlen []) with 0 in *. if_step. cbn [obind]. change (zlen []) with 0. by rewrite E.
  - by rd_step.
Qed.

Lemma block_roundtrip b d :
  block_wf b -> zlen (Txs b) <> tx.maxBatchTxs -> serializeBlock b = Ok d ->
  deserializeBlock d = Ok (canonBlock b).
Proof.
  intros [Hh Hw] Hn (batch & Hb & Hp & Hd & Ed)%serializeBlock_inv.
  destruct Hb as [[Hnil ->]|[Hpos Hb]].
  - assert (zlen (Txs b) <= tx.maxBatchTxs) by (by rewrite Hnil).
    rewrite (deserializeBlock_written b d []) by auto. rewrite Hnil.
    unfold canonBlock. by rewrite Hnil.
  - pose proof (batch_count _ _ Hb). rewrite (deserializeBlock_written b d batch); auto.
    rewrite (proj2 (Z.eqb_neq _ 0)) by lia. rewrite (batch_roundtrip _ _ Hw ltac:(lia) Hb). cbn [obind].
    assert (zlen (map canon (Txs b)) = zlen (Txs b)) as -> by (unfold zlen; by rewrite length_map).
    by rewrite Z.eqb_refl.
Qed.

(** Storage round trip: whatever [putBlockTx] stores for a block of fewer than
    65536 transactions, [BlockAt] reads back, in canonical form; other heights
    are not disturbed. *)
Theorem BlockAt_putBlockTx {B} `{KVLaws B} (db db' : DB B) b :
  block_wf b -> zlen (Txs b) <> tx.maxBatchTxs -> putBlockTx db b = Ok db' ->
  BlockAt db' (Height b) = Ok (Some (canonBlock b)) /\
  forall h, is_u64 h -> h <> Height b -> BlockAt db' h = BlockAt db h.
Proof.
  intros Hw Hn Hp. unfold putBlockTx in Hp. osteps Hp. simplify_eq. unfold BlockAt. cbn [blocks set_blocks].
  split.
  - rewrite kv_get_put, decide_True by done. by rewrite (block_roundtrip _ _ Hw Hn E).
  - intros h Hh Hne. rewrite kv_get_put, decide_False; [done|]. intros He. apply Hne.
    unfold blockKey, put64 in He. symmetry. apply be_enc_inj in He; [done|apply Hw|done].
Qed.

Lemma stored_count b d : serializeBlock b = Ok d -> zlen (Txs b) <= tx.maxBatchTxs.
Proof.
  intros (batch & [[-> _]|[_ Hb]] & _)%serializeBlock_inv; [done|]. pose proof (batch_count _ _ Hb). lia.
Qed.

Lemma full_block_lost b d :
  is_u64 (Height b) -> zlen (Txs b) = tx.maxBatchTxs -> serializeBlock b = Ok d ->
  deserializeBlock d = fail ErrCanonicalEncodingDistortion.
Proof.
  intros Hh Hn (batch & [[Hnil _]|[Hpos Hb]] & Hp & Hd & Ed)%serializeBlock_inv; [by rewrite Hnil in Hn|].
  rewrite (deserializeBlock_written b d batch); auto; [|lia]. rewrite Hn, (full_batch_lost _ _ Hn Hb). done.
Qed.

(** A block of 65536 transactions, the most the tree allows, is stored but can
    never be read back: its batch count is written as zero. *)
Theorem full_block_unreadable {B} `{KVLaws B} (db db' : DB B) b :
  is_u64 (Height b) -> zlen (Txs b) = tx.maxBatchTxs -> putBlockTx db b = Ok db' ->
  BlockAt db' (Height b) = fail ErrCanonicalEncodingDistortion.
Proof.
  intros Hh Hn Hp. unfold putBlockTx in Hp. osteps Hp. simplify_eq. unfold BlockAt. cbn [blocks set_blocks].
  rewrite kv_get_put, decide_True by done. by rewrite (full_block_lost b a).
Qed.
End Store.
