(* ===== verification/Telemetry.v ===== *)
(** * core/statemachine: block telemetry

    The summary of a block that is stored beside it and read back.  Its JSON
    text is produced and read by [json_Marshal] and [json_Unmarshal], which
    are parameters (the text of a float is the shortest one that reads back
    as the same float); [JsonLaws] states that text is read back as what was
    written when all strings in it are ASCII.  *)

From S2P Require Import Prelude GoBytes Errors Platform Tx KV Denom Node Tree Inclusion BlockStore Float64.

Module telemetry.
Import node tree inclusion.

Record TxTypeTelemetry : Type := mkTxTypeTelemetry { TType : Z; TName : bytes; TCount : Z }.
Record SignatureTelemetry : Type := mkSignatureTelemetry { Signature : Z; SName : bytes; SCount : Z }.

Record RGLevelTelemetry : Type := mkRGLevelTelemetry
  { LLevel : Z;
    LScale : Z;
    LNodeCount : Z;
    SignatureCounts : list SignatureTelemetry;
    LContractDensity : float64.t;
    VolatileRegions_ : list Z;
    StagnantRegions_ : list Z;
    TotalVolume : bytes;
    LVariance : bytes;
    ContractTxCount : Z;
    ContractNodeCount : Z }.

Record BlockTelemetry : Type := mkBlockTelemetry
  { BHeight : Z;
    BStateRoot : arr 32;
    BProposer : arr 32;
    TxCount : Z;
    TotalValue : bytes;
    MeanValue : bytes;
    BVariance : bytes;
    TxTypes : list TxTypeTelemetry;
    Levels : list RGLevelTelemetry;
    ContractStateIncluded : bool;
    Warning : bytes }.

Class Json : Type :=
  { json_Marshal : BlockTelemetry -> res bytes;
    json_Unmarshal : bytes -> res BlockTelemetry }.

(** Every string of the telemetry is ASCII: others are altered by JSON. *)
Definition ascii (s : bytes) : Prop := Forall (fun b => byte_to_Z b < 128) s.

Record ascii_telemetry (t : BlockTelemetry) : Prop := mkAsciiTelemetry
  { at_values : Forall ascii [TotalValue t; MeanValue t; BVariance t; Warning t];
    at_types : Forall (fun x => ascii (TName x)) (TxTypes t);
    at_levels : Forall (fun l => ascii (TotalVolume l) /\ ascii (LVariance l) /\
                                 Forall (fun x => ascii (SName x)) (SignatureCounts l)) (Levels t) }.

Class JsonLaws `{Json} : Prop :=
  { json_reads_back : forall t data, ascii_telemetry t -> json_Marshal t = Ok data -> json_Unmarshal data = Ok t }.

Definition maxStoredBlockTelemetryBytes : Z := Z.shiftl 2 20.

(** [z.String()] with its sign. *)
Definition big_text (z : Z) : bytes :=
  if z <? 0 then str "-" ++ denom.big_String (- z) else denom.big_String z.

Definition txTypeName (t : Z) : bytes :=
  if t =? tx.TxTypeTransfer then str "transfer" else
  if t =? tx.TxTypeMissEvidence then str "miss_evidence" else
  if t =? tx.TxTypeContractDeploy then str "contract_deploy" else
  if t =? tx.TxTypeContractCall then str "contract_call" else
  if t =? tx.TxTypeBond then str "bond" else
  if t =? tx.TxTypeUnbond then str "unbond" else
  if t =? tx.TxTypeFinalizeUnbond then str "finalize_unbond" else
  if t =? tx.TxTypeClaimRewards then str "claim_rewards" else
  if t =? tx.TxTypeEquivEvidence then str "equivocation_evidence" else
  str "unknown_" ++ big_text t.

Definition signatureName (sig : Z) : bytes :=
  if sig =? SigAtomic then str "atomic" else
  if sig =? SigNullPad then str "null_pad" else
  if sig =? SigStagnantState then str "stagnant_state" else
  if sig =? SigLaminarFlow then str "laminar_flow" else
  if sig =? SigVolatileShock then str "volatile_shock" else
  if sig =? SigContract then str "contract" else
  str "unknown_" ++ big_text sig.

(** The keys of a count map in increasing order. *)
Definition sortedInts (m : gmap Z Z) : list Z := merge_sort Z.le (map fst (map_to_list m)).

Definition formatTxTypeTelemetry (counts : gmap Z Z) : list TxTypeTelemetry :=
  map (fun t => mkTxTypeTelemetry t (txTypeName t) (default 0 (counts !! t))) (sortedInts counts).

Definition formatSignatureTelemetry (counts : gmap Z Z) : list SignatureTelemetry :=
  map (fun s => mkSignatureTelemetry s (signatureName s) (default 0 (counts !! s))) (sortedInts counts).

Definition levelVolume (layer : list RGNode) : Z := sumZ (map (fun n => BytesToUint256 (Volume n)) layer).
Definition levelVariance (layer : list RGNode) : Z := sumZ (map (fun n => BytesToUint256 (Variance n)) layer).

Definition intSliceToUint64 (l : list Z) : list Z := map wrap64 l.

Definition contractTxCountForLevel (level contractTxCount : Z) : Z :=
  if negb (level =? 0) then 0 else contractTxCount.

Definition formatRGTelemetryLevels (tr : Tree) (contractTxCount : Z) : res (list RGLevelTelemetry) :=
  mapM (fun level : nat =>
    let level := Z.of_nat level in
    let* layer := Layer tr level in
    let scale := match layer with n :: _ => Scale n | [] => 0 end in
    let* '(_, contractNodes, density) := ContractDensity tr level in
    let* hist := SignatureHistogram tr level in
    let* vol := VolatilityRegions tr level in
    let* stag := StagnantRegions tr level in
    Ok (mkRGLevelTelemetry level scale (zlen layer) (formatSignatureTelemetry hist) density
          (intSliceToUint64 vol) (intSliceToUint64 stag) (big_text (levelVolume layer))
          (big_text (levelVariance layer)) (contractTxCountForLevel level contractTxCount) contractNodes))
    (seq 0 (Z.to_nat (LayerCount tr))).

Definition isContractTx (t : tx.Tx) : bool :=
  (tx.Type_ t =? tx.TxTypeContractDeploy) || (tx.Type_ t =? tx.TxTypeContractCall).

Definition buildBlockTelemetryFromTree (block : blockstore.Block) (tr : Tree) (exactContractState : bool) :
    res BlockTelemetry :=
  let txs := blockstore.Txs block in
  let txTypes := foldl (fun (m : gmap Z Z) t => <[tx.Type_ t := default 0 (m !! tx.Type_ t) + 1]> m) ∅ txs in
  let contractTxCount := zlen (filter (fun t => isContractTx t = true) txs) in
  let values := omap tx.Value txs in
  let total := sumZ values in
  let sumSquares := sumZ (map (fun v => v * v) values) in
  let '(mean, variance) :=
    if zlen txs >? 0 then
      let mean := total / zlen txs in
      let v := sumSquares / zlen txs - mean * mean in
      (mean, if v <? 0 then 0 else v)
    else (0, 0) in
  let* levels := formatRGTelemetryLevels tr contractTxCount in
  let warning :=
    if negb exactContractState && existsb isContractTx txs
    then str "historical contract-state RG nodes are not persisted for this block; telemetry reconstructs transaction structure only"
    else [] in
  Ok (mkBlockTelemetry (blockstore.Height block) (blockstore.StateRoot block) (blockstore.ProposerPubKey block)
        (zlen txs) (big_text total) (big_text mean) (big_text variance)
        (formatTxTypeTelemetry txTypes) levels exactContractState warning).

Definition BuildBlockTelemetry `{Platform} (block : option blockstore.Block) (contractNodes : list RGNode)
    (exactContractState : bool) : res BlockTelemetry :=
  match block with
  | None => failf "block not found"
  | Some block =>
    let* tr := BuildTree (blockstore.Txs block) contractNodes in
    buildBlockTelemetryFromTree block tr exactContractState
  end.

Definition putBlockTelemetryTx `{Json} {B} `{KV B} (db : DB B) (t : BlockTelemetry) : res (DB B) :=
  let* data := json_Marshal t in
  if zlen data >? maxStoredBlockTelemetryBytes
  then failf "serialized block telemetry exceeds 2097152 bytes" else
  Ok (set_block_telemetry db (kv_Put (block_telemetry db) (blockstore.blockKey (BHeight t)) data)).

(** The stored telemetry of a height, if there is any. *)
Definition BlockTelemetryAt `{Json} {B} `{KV B} (db : DB B) (height : Z) : res (option BlockTelemetry) :=
  match kv_Get (block_telemetry db) (blockstore.blockKey height) with
  | None => Ok None
  | Some data => let* t := json_Unmarshal data in Ok (Some t)
  end.
End telemetry.
