(* ===== verification/StateMachine.v ===== *)
(** * core/statemachine: applying blocks

    A block is checked and then applied in one database transaction.  Two
    things the language leaves open are arguments: [ncpu], the number of
    workers of the parallel checks, and [iter], the order in which a Go map
    is visited. *)

From S2P Require Import Prelude GoBytes Errors Platform Tx KV Denom Ledger Staking Gas Mint Node Tree Contract BlockStore Telemetry.

Module statemachine.
Import blockstore.

Definition genesisAppliedKey : bytes := str "genesisApplied".
Definition consensusVotePrefix : bytes := str "consensusVote/".
Definition consensusStateKey : bytes := str "consensusState".
Definition totalSupplyKey : bytes := str "totalSupply".
Definition heightKey : bytes := str "height".
Definition stateRootKey : bytes := str "stateRoot".
Definition baseFeeKey : bytes := str "baseFee".

Record Result : Type := mkResult
  { RStateRoot : arr 32;
    RHeight : Z;
    TxsApplied : Z;
    GasBurned : Z;
    MintAmount : Z }.

Section Meta.
Context {B : Type} `{KV B}.

Definition putMeta (db : DB B) (k v : bytes) : DB B := set_meta db (kv_Put (meta db) k v).

(** [New]: the buckets exist in a [DB]; an absent supply is written as an empty value. *)
Definition New (db : DB B) : DB B :=
  match kv_Get (meta db) totalSupplyKey with
  | None => putMeta db totalSupplyKey []
  | Some _ => db
  end.

Definition CurrentHeight (db : DB B) : res Z :=
  match kv_Get (meta db) heightKey with
  | None => Ok 0
  | Some v => u64_at v 0
  end.

Definition CurrentStateRoot (db : DB B) : arr 32 :=
  match kv_Get (meta db) stateRootKey with
  | None => zero_arr 32
  | Some v => mk_arr 32 v
  end.

Definition GenesisApplied (db : DB B) : bool :=
  match kv_Get (meta db) genesisAppliedKey with
  | Some [c] => bool_decide (c = x01)
  | _ => false
  end.

Definition MarkGenesisAppliedTx (db : DB B) : DB B := putMeta db genesisAppliedKey [x01].

Definition SetTotalSupplyTx (db : DB B) (total : option Z) : res (DB B) :=
  match total with
  | None => fail ErrArithmeticOverflow
  | Some total =>
    if total <? 0 then fail ErrArithmeticOverflow else Ok (putMeta db totalSupplyKey (big_Bytes total))
  end.

(** The supply and whether it is tracked. *)
Definition CurrentTotalSupply (db : DB B) : Z * bool :=
  match kv_Get (meta db) totalSupplyKey with
  | None => (0, false)
  | Some v => (big_SetBytes v, true)
  end.

Definition voteKey (height round voteType : Z) : bytes :=
  consensusVotePrefix ++ put64 height ++ put32 round ++ [byte_of_Z voteType].

Definition RecordConsensusVote (db : DB B) (height round voteType : Z) (blockHash : arr 32) : DB B * bool :=
  let key := voteKey height round voteType in
  match kv_Get (meta db) key with
  | Some _ => (db, false)
  | None => (putMeta db key blockHash, true)
  end.

Definition LoadConsensusState (db : DB B) : bytes := default [] (kv_Get (meta db) consensusStateKey).
Definition SaveConsensusState (db : DB B) (state : bytes) : DB B := putMeta db consensusStateKey state.
Definition ClearConsensusState (db : DB B) : DB B := set_meta db (kv_Delete (meta db) consensusStateKey).

Definition currentBaseFee (db : DB B) : Z :=
  match kv_Get (meta db) baseFeeKey with
  | None => gas.BaseFee None 0
  | Some v => big_SetBytes v
  end.
End Meta.

(** ** Stateless checks *)
Definition isSequenceFault (e : error) : bool :=
  match e with
  | RGError ErrSequenceFault => true
  | _ => false
  end.

Definition hasMissFields (t : tx.Tx) : bool :=
  negb (tx.MissedHeight t =? 0) || bool_decide (tx.MissedProposer t <> zero_arr 32) || negb (tx.SkipIndex t =? 0).

Definition validateBondTx (t : tx.Tx) : res unit :=
  match tx.Value t with
  | None => fail ErrCanonicalEncodingDistortion
  | Some v =>
    if v <=? 0 then fail ErrCanonicalEncodingDistortion else
    if bool_decide (tx.ReceiverPubKey t <> tx.SenderPubKey t) then fail ErrCanonicalEncodingDistortion else
    if hasMissFields t then fail ErrCanonicalEncodingDistortion else Ok tt
  end.

Definition validateZeroValueTx (t : tx.Tx) : res unit :=
  match tx.Value t with
  | Some 0 => Ok tt
  | _ => fail ErrCanonicalEncodingDistortion
  end.

Definition validateZeroValueSelfTx (t : tx.Tx) : res unit :=
  let* _ := validateZeroValueTx t in
  if bool_decide (tx.ReceiverPubKey t <> zero_arr 32) && bool_decide (tx.ReceiverPubKey t <> tx.SenderPubKey t)
  then fail ErrCanonicalEncodingDistortion else
  if hasMissFields t then fail ErrCanonicalEncodingDistortion else
  if negb (zlen (tx.WasmBytes t) =? 0) || negb (zlen (tx.InitArgs t) =? 0) || negb (zlen (tx.CallData t) =? 0) ||
     negb (zlen (tx.EvidenceA t) =? 0) || negb (zlen (tx.EvidenceB t) =? 0)
  then fail ErrCanonicalEncodingDistortion else Ok tt.

Definition missEvidenceKey (t : tx.Tx) : bytes :=
  put64 (tx.MissedHeight t) ++ put32 (tx.SkipIndex t) ++ tx.MissedProposer t.

Record evidenceVote : Type := mkEvidenceVote
  { EType : Z;
    EHeight : Z;
    ERound : Z;
    EBlockHash : arr 32;
    EValidatorPK : arr 32;
    ESig : arr 64 }.

Definition deserializeEvidenceVote (data : bytes) : res evidenceVote :=
  if negb (zlen data =? 141) then fail ErrCanonicalEncodingDistortion else
  let* ty := index data 0 in
  let* h := u64_at data 1 in
  let* r := u32_at data 9 in
  let* bh := slice data 13 45 in
  let* pk := slice data 45 77 in
  let* sg := slice data 77 141 in
  Ok (mkEvidenceVote (byte_to_Z ty) h r (mk_arr 32 bh) (mk_arr 32 pk) (mk_arr 64 sg)).

(** The message a vote signs. *)
Definition voteMessage (chainID : bytes) (ty height round : Z) (blockHash : arr 32) : bytes :=
  str "FRG_VOTE_V1" ++ [x00] ++ put16 (wrap16 (zlen chainID)) ++ chainID ++ [byte_of_Z ty] ++
  put64 height ++ put32 round ++ blockHash.

Section Checks.
Context `{Platform}.

Definition verifyEvidenceVote (v : evidenceVote) (chainID : bytes) : bool :=
  if negb (EType v =? 1) && negb (EType v =? 2) then false else
  let chainID := if decide (chainID = []) then tx.DefaultChainID else chainID in
  keys.Verify (EValidatorPK v) (voteMessage chainID (EType v) (EHeight v) (ERound v) (EBlockHash v)) (ESig v).

(** An error of the vote decoder is reported as a distortion of the evidence. *)
Definition asDistortion {A} (r : res A) : res A :=
  match r with
  | Err _ => fail ErrCanonicalEncodingDistortion
  | _ => r
  end.

Definition validateEquivocationEvidenceTx (t : tx.Tx) (chainID : bytes) : res (arr 32) :=
  if hasMissFields t then fail ErrCanonicalEncodingDistortion else
  if negb (zlen (tx.WasmBytes t) =? 0) || negb (zlen (tx.InitArgs t) =? 0) || negb (zlen (tx.CallData t) =? 0)
  then fail ErrCanonicalEncodingDistortion else
  let* a := asDistortion (deserializeEvidenceVote (tx.EvidenceA t)) in
  let* b := asDistortion (deserializeEvidenceVote (tx.EvidenceB t)) in
  if negb (verifyEvidenceVote a chainID) || negb (verifyEvidenceVote b chainID) then fail ErrInvalidSignature else
  if bool_decide (EValidatorPK a <> EValidatorPK b) then fail ErrCanonicalEncodingDistortion else
  if negb (EType a =? EType b) || negb (EHeight a =? EHeight b) || negb (ERound a =? ERound b)
  then fail ErrCanonicalEncodingDistortion else
  if bool_decide (EBlockHash a = EBlockHash b) then fail ErrCanonicalEncodingDistortion else
  if bool_decide (EBlockHash a = zero_arr 32) || bool_decide (EBlockHash b = zero_arr 32)
  then fail ErrCanonicalEncodingDistortion else
  Ok (EValidatorPK a).

Definition validateMissEvidenceTx (t : tx.Tx) (blockHeight : Z) (prevStateRoot : arr 32)
    (validators : list (arr 32)) : res unit :=
  let* _ := validateZeroValueTx t in
  if negb (tx.MissedHeight t =? blockHeight) then fail ErrCanonicalEncodingDistortion else
  if bool_decide (tx.ReceiverPubKey t <> tx.MissedProposer t) then fail ErrCanonicalEncodingDistortion else
  if tx.SkipIndex t =? two32 - 1 then fail ErrCanonicalEncodingDistortion else
  let* expectedMissed := leader.SkipProposer prevStateRoot blockHeight validators (tx.SkipIndex t) in
  if bool_decide (tx.MissedProposer t <> expectedMissed) then fail ErrInvalidSignature else
  let* expectedReporter := leader.SkipProposer prevStateRoot blockHeight validators (wrap32 (tx.SkipIndex t + 1)) in
  if bool_decide (tx.SenderPubKey t <> expectedReporter) then fail ErrInvalidSignature else
  Ok tt.

(** ** Parallel signature checks

    The transactions are cut into chunks, one per worker; each worker stops at
    its first error, and an error of any worker rejects the block.  When
    several workers fail, the code returns whichever error arrived first; here
    it is the one of the first chunk. *)
Definition verifySerial (txs : list tx.Tx) (chainID : bytes) : res unit :=
  foldM (fun _ t => tx.VerifySigsForChain t chainID) tt txs.

Fixpoint chunksOf {A} (fuel : nat) (n : nat) (l : list A) : list (list A) :=
  match fuel, l with
  | S fuel, _ :: _ => take n l :: chunksOf fuel n (drop n l)
  | _, _ => []
  end.

Definition verifyTxSigsParallel (ncpu : Z) (txs : list tx.Tx) (chainID : bytes) : res unit :=
  if zlen txs =? 0 then Ok tt else
  let workers := if ncpu >? zlen txs then zlen txs else ncpu in
  if workers <=? 1 then verifySerial txs chainID else
  let chunk := (zlen txs + workers - 1) / workers in
  foldM (fun _ c => verifySerial c chainID) tt (chunksOf (length txs) (Z.to_nat chunk) txs).

(** The outcome of the checks of one transaction: the validator an equivocation
    proof convicts, or the error.  It does not depend on the workers. *)
Definition txPrecheck : Type := res (arr 32).

Definition precheckTx (chainID : bytes) (blockHeight : Z) (prevStateRoot : arr 32)
    (validators : list (arr 32)) (t : tx.Tx) : txPrecheck :=
  let none (r : res unit) : txPrecheck := let* _ := r in Ok (zero_arr 32) in
  if tx.Type_ t =? tx.TxTypeBond then none (validateBondTx t) else
  if (tx.Type_ t =? tx.TxTypeUnbond) || (tx.Type_ t =? tx.TxTypeFinalizeUnbond) || (tx.Type_ t =? tx.TxTypeClaimRewards)
  then none (validateZeroValueSelfTx t) else
  if tx.Type_ t =? tx.TxTypeEquivEvidence then
    let* _ := validateZeroValueTx t in validateEquivocationEvidenceTx t chainID else
  if tx.Type_ t =? tx.TxTypeMissEvidence then none (validateMissEvidenceTx t blockHeight prevStateRoot validators) else
  Ok (zero_arr 32).

Definition precheckTxsParallel (txs : list tx.Tx) (chainID : bytes) (blockHeight : Z)
    (prevStateRoot : arr 32) (validators : list (arr 32)) : list txPrecheck :=
  map (precheckTx chainID blockHeight prevStateRoot validators) txs.

(** Miss evidence must be valid and not repeated within the block. *)
Definition checkMissEvidence (txs : list tx.Tx) (precheck : list txPrecheck) : res (gset bytes) :=
  foldM (fun (seen : gset bytes) '(t, pre) =>
    if negb (tx.Type_ t =? tx.TxTypeMissEvidence) then Ok seen else
    let* _ := pre in
    let key := missEvidenceKey t in
    if decide (key ∈ seen) then fail ErrCanonicalEncodingDistortion else Ok ({[key]} ∪ seen)) ∅ (zip txs precheck).
End Checks.

(** ** Applying *)
Section Apply.
Context `{Platform} `{contract.Wasmtime} `{telemetry.Json} {B : Type} `{KV B}.

Record TxState : Type := mkTxState
  { ts_db : DB B;
    ts_fuels : gmap nat Z;          (* fuel of contract transactions, by index *)
    ts_touched : gset (arr 32);     (* contracts deployed or called *)
    ts_slashed : Z }.

Definition set_db (st : TxState) (db : DB B) : TxState :=
  mkTxState db (ts_fuels st) (ts_touched st) (ts_slashed st).

Definition touch (st : TxState) (db : DB B) (i : nat) (fuel : Z) (addr : arr 32) : TxState :=
  mkTxState db (<[i := fuel]> (ts_fuels st)) ({[addr]} ∪ ts_touched st) (ts_slashed st).

Definition contractGasLimit (db : DB B) (sender : arr 32) (baseFee : Z) : res Z :=
  if baseFee <=? 0 then Ok 0 else
  let bal := ledger.BalanceOfTx db sender in
  let affordableGas := bal / baseFee in
  if affordableGas <=? 1 then fail ErrInsufficientFunds else
  if affordableGas >=? two64 then Ok (two64 - 1) else
  Ok (affordableGas - 1).

(** Continue after the nonce is used, or skip the transaction when it is out of
    sequence. *)
Definition withNonce (st : TxState) (t : tx.Tx) (k : TxState -> res TxState) : res TxState :=
  match ledger.AdvanceNonceTx (ts_db st) (tx.SenderPubKey t) (tx.Nonce t) with
  | Ok db => k (set_db st db)
  | Err e => if isSequenceFault e then Ok st else Err e
  | Panic => Panic
  end.

Definition applyTx (height baseFee : Z) (st : TxState) (i : nat) (t : tx.Tx) (pre : txPrecheck) : res TxState :=
  if tx.Type_ t =? tx.TxTypeTransfer then
    match ledger.TransferTx (ts_db st) t with
    | Ok db => Ok (set_db st db)
    | Err e => if isSequenceFault e then Ok st else Err e
    | Panic => Panic
    end
  else if tx.Type_ t =? tx.TxTypeContractDeploy then
    withNonce st t (fun st =>
      let* gasLimit := contractGasLimit (ts_db st) (tx.SenderPubKey t) baseFee in
      let* '(db, (_, fuelUsed)) := contract.Deploy (ts_db st) t height gasLimit in
      Ok (touch st db i fuelUsed (contract.ContractAddr (tx.SenderPubKey t) (tx.Nonce t))))
  else if tx.Type_ t =? tx.TxTypeContractCall then
    withNonce st t (fun st =>
      let* gasLimit := contractGasLimit (ts_db st) (tx.SenderPubKey t) baseFee in
      match contract.Call (ts_db st) t height gasLimit with
      | (_, Ok (db, (_, fuelUsed))) => Ok (touch st db i fuelUsed (tx.ReceiverPubKey t))
      | (db, Err e) => if decide (e = contract.ErrFunctionNotFound) then Ok (set_db st db) else Err e
      | (_, Panic) => Panic
      end)
  else if tx.Type_ t =? tx.TxTypeMissEvidence then withNonce st t (fun st => Ok st)
  else if tx.Type_ t =? tx.TxTypeBond then
    let* _ := pre in
    withNonce st t (fun st =>
      let* db := staking.BondTx (ts_db st) (tx.SenderPubKey t) (tx.Value t) height in Ok (set_db st db))
  else if tx.Type_ t =? tx.TxTypeUnbond then
    let* _ := pre in
    withNonce st t (fun st =>
      let* db := staking.UnbondTx (ts_db st) (tx.SenderPubKey t) height in Ok (set_db st db))
  else if tx.Type_ t =? tx.TxTypeFinalizeUnbond then
    let* _ := pre in
    withNonce st t (fun st =>
      let* db := staking.FinalizeTx (ts_db st) (tx.SenderPubKey t) height in Ok (set_db st db))
  else if tx.Type_ t =? tx.TxTypeClaimRewards then
    let* _ := pre in
    withNonce st t (fun st =>
      let* db := gas.ClaimTx (ts_db st) (tx.SenderPubKey t) in Ok (set_db st db))
  else if tx.Type_ t =? tx.TxTypeEquivEvidence then
    let* equivValidator := pre in
    withNonce st t (fun st =>
      let* '(db, slashAmt) := staking.SlashTx (ts_db st) equivValidator in
      Ok (mkTxState db (ts_fuels st) (ts_touched st) (ts_slashed st + slashAmt)))
  else Ok st.

(** Step 0: the transactions in order. *)
Definition applyTxs (height baseFee : Z) (db : DB B) (txs : list tx.Tx) (precheck : list txPrecheck) : res TxState :=
  foldM (fun st '(i, (t, pre)) => applyTx height baseFee st i t pre) (mkTxState db ∅ ∅ 0)
    (imap (fun i p => (i, p)) (zip txs precheck)).

(** Step 1: a leaf for every touched contract. *)
Definition contractNode (db : DB B) (addr : arr 32) : res node.RGNode :=
  let* stateRoot := contract.LoadStateRoot db addr in
  let bal := ledger.BalanceOfTx db addr in
  let sumSquares := bal * bal in
  let* vol := node.Uint256ToBytes (Some bal) in
  let* sq := node.Uint256ToBytes (Some sumSquares) in
  Ok (node.mkRGNode 1 vol (zero_arr 32) node.SigAtomic [stateRoot] sq 1 1).

(** Step 3: one gas unit per transaction and the fuel of contracts; returns the
    total gas.  Every transaction of the block pays, the skipped ones too. *)
Definition gasUnitsOf (fuels : gmap nat Z) (i : nat) : Z :=
  match fuels !! i with
  | Some fuelUsed => wrap64 (1 + fuelUsed / contract.FuelUnitsPerGas)
  | None => 1
  end.

Definition chargeGas (baseFee : Z) (fuels : gmap nat Z) (db : DB B) (txs : list tx.Tx) : res (DB B * Z) :=
  foldM (fun '(db, totalGas) '(i, t) =>
    if baseFee =? 0 then Ok (db, totalGas) else
    let gasUnits := gasUnitsOf fuels i in
    let* db := ledger.BurnTx db (tx.SenderPubKey t) (baseFee * gasUnits) in
    Ok (db, wrap64 (totalGas + gasUnits))) (db, 0) (imap (fun i t => (i, t)) txs).

(** Step 4: misses; returns the slashed amount added to [slashed]. *)
Definition applyMisses (db : DB B) (slashed : Z) (txs : list tx.Tx) : res (DB B * Z) :=
  foldM (fun '(db, slashed) t =>
    if negb (tx.Type_ t =? tx.TxTypeMissEvidence) then Ok (db, slashed) else
    let* '(db, (_, slashAmt)) := staking.RecordMissTx db (tx.MissedProposer t) in
    if slashAmt >? 0 then
      let* db := ledger.BurnTx db (staking.EscrowAccount (tx.MissedProposer t)) slashAmt in
      Ok (db, slashed + slashAmt)
    else Ok (db, slashed)) (db, slashed) txs.

(** Step 5: rewards. *)
Definition mintRewards (db : DB B) (mintShares : list Z) (validators : list (arr 32)) : res (DB B) :=
  foldM (fun db '(i, share) =>
    if share =? 0 then Ok db else
    let* v := index validators (Z.of_nat i) in
    ledger.CreditTx db (gas.FeeAccount v) share) db (imap (fun i s => (i, s)) mintShares).

(** Step 6: the new height, root, base fee and supply. *)
Definition persistMeta (db : DB B) (height : Z) (stateRoot : arr 32) (baseFee totalGas slashed mintAmount totalSupply : Z)
    (supplyTracked : bool) : res (DB B) :=
  let db := putMeta db heightKey (put64 height) in
  let db := putMeta db stateRootKey stateRoot in
  let db := putMeta db baseFeeKey (big_Bytes (gas.BaseFee (Some baseFee) totalGas)) in
  if supplyTracked
  then SetTotalSupplyTx db (Some (totalSupply - baseFee * totalGas - slashed + mintAmount))
  else Ok db.

(** Everything a block's transaction takes from the checks before it. *)
Record BlockContext : Type := mkBlockContext
  { bc_baseFee : Z;
    bc_validators : list (arr 32);
    bc_totalSupply : Z;
    bc_tracked : bool;
    bc_mintAmount : Z;
    bc_mintShares : list Z;
    bc_precheck : list txPrecheck }.

(** The body of the atomic write; returns the root and the total gas. *)
Definition applyBody (iter : gset (arr 32) -> list (arr 32)) (b : Block) (bc : BlockContext) (db : DB B) :
    res (DB B * (arr 32 * Z)) :=
  let* st := applyTxs (Height b) (bc_baseFee bc) db (Txs b) (bc_precheck bc) in
  let* contractNodes := mapM (contractNode (ts_db st)) (iter (ts_touched st)) in
  let* rgTree := tree.BuildTree (Txs b) contractNodes in
  let* '(stateRoot, _) := tree.TreeRoot rgTree in
  let* '(db, totalGas) := chargeGas (bc_baseFee bc) (ts_fuels st) (ts_db st) (Txs b) in
  let* '(db, slashed) := applyMisses db (ts_slashed st) (Txs b) in
  let* db := mintRewards db (bc_mintShares bc) (bc_validators bc) in
  let* db := persistMeta db (Height b) stateRoot (bc_baseFee bc) totalGas slashed (bc_mintAmount bc)
               (bc_totalSupply bc) (bc_tracked bc) in
  if bool_decide (StateRoot b <> zero_arr 32) && bool_decide (StateRoot b <> stateRoot) then fail ErrRootMismatch else
  let b := mkBlock (Height b) (Txs b) (ProposerPubKey b) (PrevStateRoot b) stateRoot (ProposalBytes b) in
  let* t := telemetry.buildBlockTelemetryFromTree b rgTree true in
  let* db := telemetry.putBlockTelemetryTx db t in
  let* db := putBlockTx db b in
  Ok (db, (stateRoot, totalGas)).

(** validators, supply, staked, tracked *)
Definition supplyAndStaked (db : DB B) : res (list (arr 32) * Z * Z * bool) :=
  let* '(validators, amounts) := staking.BondedAmounts db in
  let totalStaked := sumZ amounts in
  let '(totalSupply, tracked) := CurrentTotalSupply db in
  let totalSupply := if tracked then totalSupply else 0 in
  Ok (validators, totalSupply, totalStaked, tracked).

(** The checks before the write. *)
Definition prepareBlock (ncpu : Z) (db : DB B) (b : Block) (chainID : bytes) : res BlockContext :=
  let* cur := CurrentHeight db in
  if negb (Height b =? wrap64 (cur + 1)) then fail ErrBlockHeightSequenceFault else
  let previousRoot := CurrentStateRoot db in
  if bool_decide (PrevStateRoot b <> zero_arr 32) && bool_decide (previousRoot <> PrevStateRoot b)
  then fail ErrBlockHeightSequenceFault else
  let* _ := verifyTxSigsParallel ncpu (Txs b) chainID in
  let baseFee := currentBaseFee db in
  let* '(validators, totalSupply, totalStaked, tracked) := supplyAndStaked db in
  let precheck := precheckTxsParallel (Txs b) chainID (Height b) previousRoot validators in
  let* _ := checkMissEvidence (Txs b) precheck in
  let mintAmount := mint.MintPerBlock (Some totalSupply) (Some totalStaked) in
  let mintAmount := if zlen validators =? 0 then 0 else mintAmount in
  let mintShares := mint.SplitReward (Some mintAmount) (zlen validators) in
  Ok (mkBlockContext baseFee validators totalSupply tracked mintAmount mintShares precheck).

Definition ApplyBlockForChain (ncpu : Z) (iter : gset (arr 32) -> list (arr 32)) (db : DB B) (b : Block)
    (chainID : bytes) : DB B * res Result :=
  match prepareBlock ncpu db b chainID with
  | Err e => (db, Err e)
  | Panic => (db, Panic)
  | Ok bc =>
    match Update db (applyBody iter b bc) with
    | (db, Ok (stateRoot, totalGas)) =>
        (db, Ok (mkResult stateRoot (Height b) (zlen (Txs b)) (bc_baseFee bc * totalGas) (bc_mintAmount bc)))
    | (db, Err e) => (db, Err e)
    | (db, Panic) => (db, Panic)
    end
  end.

Definition ApplyBlock (ncpu : Z) (iter : gset (arr 32) -> list (arr 32)) (db : DB B) (b : Block) : DB B * res Result :=
  ApplyBlockForChain ncpu iter db b tx.DefaultChainID.

Definition ContractState (db : DB B) (contractAddr : arr 32) (key : bytes) : res (bool * bool * bytes * arr 32) :=
  contract.LoadStateValue db contractAddr key.
End Apply.
End statemachine.
