(* ===== verification/StateMachineProofs.v ===== *)
(** * core/statemachine: properties of block application *)

From S2P Require Import Prelude GoBytes Errors Platform Tx TxProofs KV Denom Ledger Staking StakingProofs Gas Mint Node Tree Contract BlockStore.
From S2P Require Import Telemetry StateMachine.
Import blockstore statemachine.

(** ** The metadata keys are distinct *)
Ltac key_ne := let E := fresh in intros E; vm_compute in E; discriminate E.

Section Meta.
Context {B : Type} `{KVLaws B}.
Implicit Types (db : DB B).

Lemma putMeta_get db k v k' :
  kv_Get (meta (putMeta db k v)) k' = if decide (k = k') then Some v else kv_Get (meta db) k'.
Proof. apply kv_get_put. Qed.

Lemma voteKey_inj h r t h' r' t' :
  is_u64 h -> is_u64 h' -> is_u32 r -> is_u32 r' -> is_u8 t -> is_u8 t' ->
  voteKey h r t = voteKey h' r' t' -> h = h' /\ r = r' /\ t = t'.
Proof.
  intros Hh Hh' Hr Hr' Ht Ht' He. unfold voteKey in He. apply app_inv_head in He.
  apply app_inj_len in He as [E1 He]; [|unfold put64; by rewrite !be_enc_length].
  apply app_inj_len in He as [E2 E3]; [|unfold put32; by rewrite !be_enc_length].
  unfold put64, put32 in *. apply be_enc_inj in E1, E2; [|done..]. split_and!; [done|done|].
  injection E3 as E3. apply (f_equal byte_to_Z) in E3. rewrite !byte_to_of_Z in E3.
  unfold is_u8, two8 in *. by rewrite !Z.mod_small in E3 by lia.
Qed.

(** A validator's slots: height, round, vote type. *)
Definition slot : Type := Z * Z * Z.
Definition slot_ok (s : slot) : Prop := let '(h, r, t) := s in is_u64 h /\ is_u32 r /\ is_u8 t.

(** A history of vote requests, and the ones that were accepted. *)
Fixpoint recordVotes db (votes : list (slot * arr 32)) : DB B * list (slot * arr 32) :=
  match votes with
  | [] => (db, [])
  | ((h, r, t) as s, bh) :: rest =>
    let '(db, ok) := RecordConsensusVote db h r t bh in
    let '(db, accepted) := recordVotes db rest in
    (db, if ok then (s, bh) :: accepted else accepted)
  end.

Definition keyOf (s : slot) : bytes := let '(h, r, t) := s in voteKey h r t.

Lemma recordVotes_fresh votes db :
  Forall (fun v => kv_Get (meta db) (keyOf (fst v)) = None) (snd (recordVotes db votes)) /\
  (forall k v, kv_Get (meta db) k = Some v -> kv_Get (meta (fst (recordVotes db votes))) k = Some v) /\
  NoDup (map (fun v => keyOf (fst v)) (snd (recordVotes db votes))).
Proof.
  revert db. induction votes as [|[[[h r] t] bh] votes IH]; intros db; cbn [recordVotes].
  { split_and!; [constructor|done|constructor]. }
  unfold RecordConsensusVote. destruct (kv_Get (meta db) (voteKey h r t)) as [x|] eqn:E.
  - specialize (IH db). destruct (recordVotes db votes) as [db1 acc]. exact IH.
  - specialize (IH (putMeta db (voteKey h r t) bh)).
    destruct (recordVotes (putMeta db (voteKey h r t) bh) votes) as [db1 acc]. cbn [fst snd] in *.
    destruct IH as (Hf & Hk & Hn). split_and!.
    + constructor; [done|]. eapply Forall_impl; [exact Hf|]. intros v Hv. cbv beta in Hv. rewrite putMeta_get in Hv. by case_decide.
    + intros k v Hkv. apply Hk. rewrite putMeta_get. case_decide; [subst; congruence|done].
    + cbn [map]. constructor; [|done]. intros Hin. apply list_elem_of_fmap in Hin as (v & Hv & Hin).
      rewrite Forall_forall in Hf. specialize (Hf v Hin). cbv beta in Hf. rewrite <- Hv, putMeta_get, decide_True in Hf by done.
      done.
Qed.

Lemma recorded_once db votes s bh bh' :
  (s, bh) ∈ snd (recordVotes db votes) -> (s, bh') ∈ snd (recordVotes db votes) -> bh = bh'.
Proof.
  intros H1 H2. destruct (recordVotes_fresh votes db) as (_ & _ & Hn).
  apply list_elem_of_lookup_1 in H1 as [i Hi]. apply list_elem_of_lookup_1 in H2 as [j Hj].
  assert (i = j) as ->; [|congruence].
  assert (forall k b, snd (recordVotes db votes) !! k = Some (s, b) ->
            map (fun v => keyOf (fst v)) (snd (recordVotes db votes)) !! k = Some (keyOf s)) as Hmap.
  { intros k b Hk. change (((fun v => keyOf (fst v)) <$> snd (recordVotes db votes)) !! k = Some (keyOf s)).
    by rewrite list_lookup_fmap, Hk. }
  eapply (NoDup_lookup _ i j (keyOf s) Hn); eauto.
Qed.

(** One vote per slot: over any history of requests, including restarts (the
    votes live in the database), at most one block hash is ever accepted for a
    (height, round, type) slot; and a request for one slot never uses up
    another slot. *)
Theorem RecordConsensusVote_once db votes s bh bh' :
  (s, bh) ∈ snd (recordVotes db votes) -> (s, bh') ∈ snd (recordVotes db votes) ->
  bh = bh' /\
  forall h r t h2 r2 t2 b2 b3, slot_ok (h, r, t) -> slot_ok (h2, r2, t2) -> (h, r, t) <> (h2, r2, t2) ->
    snd (RecordConsensusVote (fst (RecordConsensusVote db h r t b2)) h2 r2 t2 b3) =
    snd (RecordConsensusVote db h2 r2 t2 b3).
Proof.
  intros H1 H2. split; [by eapply recorded_once|].
  intros h r t h2 r2 t2 b2 b3 (? & ? & ?) (? & ? & ?) Hne.
  unfold RecordConsensusVote at 2. destruct (kv_Get (meta db) (voteKey h r t)) eqn:E; [done|].
  cbn [fst]. unfold RecordConsensusVote. rewrite putMeta_get.
  rewrite decide_False; [by destruct (kv_Get (meta db) (voteKey h2 r2 t2))|].
  intros He. apply voteKey_inj in He as (-> & -> & ->); done.
Qed.
End Meta.

(** ** Supply *)
Section Supply.
Context `{Platform} `{contract.Wasmtime} `{telemetry.Json} {B : Type} `{KVLaws B}.
Implicit Types (db : DB B).

(** The stored formats of the ledger and of the validators. *)
Definition formats_ok db : Prop := ledger.ledger_ok db /\ records_ok db.

(** Transactions that move no value in a circle: no contract code, no transfer
    to oneself, and a sender whose key is not its own escrow or fee address. *)
Definition plain_tx (t : tx.Tx) : Prop :=
  tx.Type_ t <> tx.TxTypeContractDeploy /\ tx.Type_ t <> tx.TxTypeContractCall /\
  (tx.Type_ t = tx.TxTypeTransfer -> tx.SenderPubKey t <> tx.ReceiverPubKey t) /\
  staking.escrowAccount (tx.SenderPubKey t) <> tx.SenderPubKey t /\
  gas.FeeAccount (tx.SenderPubKey t) <> tx.SenderPubKey t /\
  (forall v, tx.Value t = Some v -> 0 <= v).

Lemma records_ok_balances db b : records_ok db -> records_ok (set_balances db b).
Proof. done. Qed.

Lemma BondTx_total db v a h db' :
  formats_ok db -> is_u64 h -> staking.escrowAccount v <> v -> staking.BondTx db v a h = Ok db' ->
  formats_ok db' /\ ledger.totalBalance db' = ledger.totalBalance db.
Proof.
  intros [Hl Hr] Hh Hne (z & b & -> & _ & Hz & _ & Hs & ->)%BondTx_inv; try done.
  assert (record_wf (staking.mkRecord staking.stateBonded z h 0 0)) as Hw by (constructor; simpl; auto; done).
  split; [split|].
  - apply ledger_ok_validators. eapply ledger_ok_shift; [apply Hz|done..].
  - by apply (records_ok_put (set_balances db b)).
  - unfold ledger.totalBalance. cbn. rewrite (shift_total _ _ _ _ _ (proj1 Hz) Hs).
    rewrite decide_False by congruence. lia.
Qed.

Lemma FinalizeTx_total db v h db' :
  formats_ok db -> staking.escrowAccount v <> v -> staking.FinalizeTx db v h = Ok db' ->
  formats_ok db' /\ ledger.totalBalance db' = ledger.totalBalance db.
Proof.
  intros [Hl Hr] Hne [->|(r & b & Hrec & _ & _ & Hs & ->)]%FinalizeTx_inv; try done.
  assert (0 <= staking.BondedAmount r) as H0' by (eapply wf_amount, (getRecord_ok db v Hr); done).
  split; [split|].
  - apply ledger_ok_validators. by eapply ledger_ok_shift.
  - by apply (records_ok_delete (set_balances db b)).
  - unfold ledger.totalBalance. cbn. rewrite (shift_total _ _ _ _ _ H0' Hs).
    rewrite decide_False by done. lia.
Qed.

Lemma SlashTx_total db v db' z :
  formats_ok db -> staking.SlashTx db v = Ok (db', z) ->
  formats_ok db' /\ ledger.totalBalance db' + z = ledger.totalBalance db.
Proof.
  intros [Hl Hr] (r & db1 & Hrec & -> & Hb & ->)%SlashTx_inv; try done.
  pose proof (BurnTx_total _ _ _ _ Hb) as Ht. pose proof (BurnTx_wf _ _ _ _ Hl Hb) as Hok.
  apply BurnTx_inv in Hb as (_ & _ & ->). split; [split|].
  - by apply ledger_ok_validators.
  - by apply (records_ok_delete (set_balances db _)).
  - unfold ledger.totalBalance in *. cbn in *. lia.
Qed.

Lemma UnbondTx_total db v h db' :
  formats_ok db -> is_u64 h -> staking.UnbondTx db v h = Ok db' ->
  formats_ok db' /\ ledger.totalBalance db' = ledger.totalBalance db.
Proof.
  intros [Hl Hr] Hh (r & Hrec & _ & Hw & ->)%UnbondTx_inv; try done.
  split; [split; [by apply ledger_ok_validators|by apply records_ok_put]|done].
Qed.

Lemma ClaimTx_total db v db' :
  formats_ok db -> gas.FeeAccount v <> v -> gas.ClaimTx db v = Ok db' ->
  formats_ok db' /\ ledger.totalBalance db' = ledger.totalBalance db.
Proof.
  intros [Hl Hr] Hne. unfold gas.ClaimTx. destruct (_ =? 0); [by intros [= <-]|]. intros Hm.
  split; [|by eapply MoveTx_conserves]. split; [by eapply MoveTx_wf|].
  apply MoveTx_inv in Hm as (? & ? & _ & _ & _ & ->). done.
Qed.

Lemma AdvanceNonceTx_total db a n db' :
  formats_ok db -> ledger.AdvanceNonceTx db a n = Ok db' ->
  formats_ok db' /\ ledger.totalBalance db' = ledger.totalBalance db.
Proof.
  intros [Hl Hr] Ha. split; [split; [by eapply AdvanceNonceTx_wf|]|].
  all: rewrite AdvanceNonceTx_spec in Ha by done; destruct (_ =? _); [|done]; by injection Ha as <-.
Qed.

Lemma TransferTx_formats db t db' :
  formats_ok db -> (forall v, tx.Value t = Some v -> 0 <= v) -> tx.SenderPubKey t <> tx.ReceiverPubKey t ->
  ledger.TransferTx db t = Ok db' ->
  formats_ok db' /\ ledger.totalBalance db' = ledger.totalBalance db.
Proof.
  intros [Hl Hr] Hv Hne (v & b & Hval & Hs & _ & ->)%TransferTx_inv; try done. specialize (Hv v Hval).
  split; [split; [|done]|].
  - eapply (ledger_ok_shift (used_nonce db t)); [done|by apply ledger_ok_put_nonce|done].
  - unfold ledger.totalBalance. cbn. rewrite (shift_total _ _ _ _ _ Hv Hs). rewrite decide_False by done. lia.
Qed.

(** What one transaction keeps: formats, total plus slashed, no fuel. *)
Definition kept (st st' : TxState (B := B)) : Prop :=
  formats_ok (ts_db st) ->
  formats_ok (ts_db st') /\
  ledger.totalBalance (ts_db st') + ts_slashed st' = ledger.totalBalance (ts_db st) + ts_slashed st /\
  ts_fuels st' = ts_fuels st /\ ts_touched st' = ts_touched st.

Lemma withNonce_kept st t k st' :
  (forall st1, formats_ok (ts_db st1) -> k st1 = Ok st' -> ts_slashed st1 = ts_slashed st -> ts_fuels st1 = ts_fuels st ->
     ts_touched st1 = ts_touched st -> kept st1 st') ->
  withNonce st t k = Ok st' -> kept st st'.
Proof.
  intros Hk Hw Hf. unfold withNonce in Hw. destruct (ledger.AdvanceNonceTx _ _ _) as [db|e|] eqn:E; [| |done].
  - apply AdvanceNonceTx_total in E as [Hf' Ht]; [|done].
    destruct (Hk (set_db st db) Hf' Hw eq_refl eq_refl eq_refl Hf') as (? & Htot & ? & ?). cbn in *.
    split_and!; try done. lia.
  - destruct (isSequenceFault e); [|done]. by injection Hw as <-.
Qed.

Lemma kept_db st db : 
  (formats_ok (ts_db st) -> formats_ok db /\ ledger.totalBalance db = ledger.totalBalance (ts_db st)) ->
  kept st (set_db st db).
Proof. intros Hd Hf. destruct (Hd Hf) as [? Ht]. cbn. split_and!; try done. lia. Qed.

Lemma applyTx_kept height baseFee st i t pre st' :
  is_u64 height -> plain_tx t -> applyTx height baseFee st i t pre = Ok st' -> kept st st'.
Proof.
  intros Hh (Hd & Hc & Hself & Hesc & Hfee & Hv) Ha. unfold applyTx in Ha.
  destruct (tx.Type_ t =? tx.TxTypeTransfer) eqn:E1; bsimp.
  { destruct (ledger.TransferTx _ _) as [db|e|] eqn:E; [| |done].
    - injection Ha as <-. apply kept_db. intros Hf. by eapply TransferTx_formats; [|done|apply Hself|].
    - destruct (isSequenceFault e); [|done]. by injection Ha as <-. }
  destruct (_ =? tx.TxTypeContractDeploy) eqn:E2; bsimp; [done|].
  destruct (_ =? tx.TxTypeContractCall) eqn:E3; bsimp; [done|].
  destruct (_ =? tx.TxTypeMissEvidence) eqn:E4; bsimp.
  { eapply withNonce_kept; [|exact Ha]. intros st1 Hf [= ->] ? ? ? ?. done. }
  destruct (_ =? tx.TxTypeBond) eqn:E5; bsimp.
  { osteps Ha. eapply withNonce_kept; [|exact Ha]. intros st1 Hf Hk _ _ _. cbv beta in Hk. osteps Hk. simplify_eq.
    apply kept_db. intros _. by eapply BondTx_total. }
  destruct (_ =? tx.TxTypeUnbond) eqn:E6; bsimp.
  { osteps Ha. eapply withNonce_kept; [|exact Ha]. intros st1 Hf Hk _ _ _. cbv beta in Hk. osteps Hk. simplify_eq.
    apply kept_db. intros _. by eapply UnbondTx_total. }
  destruct (_ =? tx.TxTypeFinalizeUnbond) eqn:E7; bsimp.
  { osteps Ha. eapply withNonce_kept; [|exact Ha]. intros st1 Hf Hk _ _ _. cbv beta in Hk. osteps Hk. simplify_eq.
    apply kept_db. intros _. by eapply FinalizeTx_total. }
  destruct (_ =? tx.TxTypeClaimRewards) eqn:E8; bsimp.
  { osteps Ha. eapply withNonce_kept; [|exact Ha]. intros st1 Hf Hk _ _ _. cbv beta in Hk. osteps Hk. simplify_eq.
    apply kept_db. intros _. by eapply ClaimTx_total. }
  destruct (_ =? tx.TxTypeEquivEvidence) eqn:E9; bsimp.
  { osteps Ha. eapply withNonce_kept; [|exact Ha]. intros st1 Hf Hk _ _ _. cbv beta in Hk. osteps Hk. simplify_eq.
    intros _. match goal with H : staking.SlashTx _ _ = _ |- _ => apply SlashTx_total in H as [? ?]; [|done] end.
    cbn. split_and!; try done. lia. }
  by injection Ha as <-.
Qed.

Lemma applyTxs_kept height baseFee db txs pres st :
  is_u64 height -> formats_ok db -> Forall plain_tx txs -> applyTxs height baseFee db txs pres = Ok st ->
  formats_ok (ts_db st) /\ ledger.totalBalance (ts_db st) + ts_slashed st = ledger.totalBalance db /\
  ts_fuels st = ∅ /\ ts_touched st = ∅.
Proof.
  intros Hh Hf Hp Ha. unfold applyTxs in Ha.
  set (I := fun st : TxState (B := B) => formats_ok (ts_db st) /\
    ledger.totalBalance (ts_db st) + ts_slashed st = ledger.totalBalance db /\ ts_fuels st = ∅ /\ ts_touched st = ∅).
  apply (foldM_inv _ I) in Ha; [exact Ha| |].
  - intros s s' [i [t pre]] Hin (Hs & Hb & Hfu & Hto) Happ.
    assert (plain_tx t) as Ht.
    { apply elem_of_lookup_imap in Hin as (j & [t' pre'] & [= -> -> ->] & Hin).
      rewrite Forall_forall in Hp. apply Hp. apply list_elem_of_lookup_2 in Hin. by apply elem_of_zip_l in Hin. }
    destruct (applyTx_kept _ _ _ _ _ _ _ Hh Ht Happ Hs) as (? & ? & ? & ?). unfold I. split_and!; try done; [lia|congruence..].
  - unfold I. cbn. split_and!; try done. lia.
Qed.

Lemma BurnTx_formats db a z db' : formats_ok db -> ledger.BurnTx db a z = Ok db' -> formats_ok db'.
Proof.
  intros [Hl Hr] Hb. split; [by eapply BurnTx_wf|]. by apply BurnTx_inv in Hb as (_ & _ & ->).
Qed.

(** Without contract fuel every transaction is one unit of gas. *)
Lemma chargeGas_total baseFee db txs db' g :
  formats_ok db -> zlen txs < two64 -> chargeGas baseFee ∅ db txs = Ok (db', g) ->
  formats_ok db' /\ ledger.totalBalance db' = ledger.totalBalance db - baseFee * g /\
  g = (if baseFee =? 0 then 0 else zlen txs) /\ meta db' = meta db.
Proof.
  intros Hf Hlen. unfold chargeGas.
  assert (forall l db0 g0, formats_ok db0 -> 0 <= g0 -> g0 + zlen l < two64 ->
    foldM (fun '(db, totalGas) '(i, t) =>
      if baseFee =? 0 then Ok (db, totalGas) else
      let gasUnits := gasUnitsOf ∅ i in
      let* db := ledger.BurnTx db (tx.SenderPubKey t) (baseFee * gasUnits) in
      Ok (db, wrap64 (totalGas + gasUnits))) (db0, g0) l = Ok (db', g) ->
    formats_ok db' /\ ledger.totalBalance db' = ledger.totalBalance db0 - baseFee * (g - g0) /\
    g = g0 + (if baseFee =? 0 then 0 else zlen l) /\ meta db' = meta db0) as Hgen.
  { induction l as [|[i t] l IH]; intros db0 g0 Hf0 Hg0 Hb0 Hrun; cbn [foldM] in Hrun.
    - injection Hrun as -> ->. change (zlen (@nil (nat * tx.Tx))) with 0.
      destruct (baseFee =? 0); split_and!; try done; lia.
    - rewrite zlen_cons in *. pose proof (zlen_nonneg l). destruct (baseFee =? 0) eqn:E; bsimp.
      + cbn [obind] in Hrun. apply IH in Hrun as (? & ? & ? & ?); [|done|done|lia]. done.
      + cbv zeta in Hrun. change (gasUnitsOf ∅ i) with 1 in Hrun. rewrite Z.mul_1_r in Hrun.
        destruct (ledger.BurnTx _ _ _) as [db1| |] eqn:Eb; cbn [obind] in Hrun; try done.
        unfold wrap64 in Hrun. rewrite Z.mod_small in Hrun by lia.
        apply IH in Hrun as (? & Ht & Hg & Hm); [|by eapply BurnTx_formats|lia|lia].
        rewrite (BurnTx_total _ _ _ _ Eb) in Ht. apply BurnTx_inv in Eb as (_ & _ & ->).
        split_and!; try done; [nia|lia]. }
  intros Hrun. assert (zlen (imap (fun i t => (i, t)) txs) = zlen txs) as El by (unfold zlen; by rewrite length_imap).
  apply Hgen in Hrun as (? & Ht & Hg & Hm); [|done|lia|lia].
  rewrite El in Hg. rewrite Ht, Z.sub_0_r. split_and!; try done.
Qed.

Lemma RecordMissTx_formats db v db' n z :
  formats_ok db -> staking.RecordMissTx db v = Ok (db', (n, z)) ->
  formats_ok db' /\ ledger.totalBalance db' = ledger.totalBalance db /\ meta db' = meta db.
Proof.
  intros [Hl Hr] (r & Hrec & Hw & -> & -> & ->)%RecordMissTx_inv; try done.
  split; [split|done]; [by apply ledger_ok_validators|]. apply records_ok_put; [by apply missed_wf|done].
Qed.

Lemma applyMisses_total txs db s db' s' :
  formats_ok db -> applyMisses db s txs = Ok (db', s') ->
  formats_ok db' /\ ledger.totalBalance db' + s' = ledger.totalBalance db + s /\ meta db' = meta db.
Proof.
  unfold applyMisses. revert db s. induction txs as [|t txs IH]; intros db s Hf Hrun; cbn [foldM] in Hrun.
  { by injection Hrun as -> ->. }
  destruct (negb _); cbn [obind] in Hrun; [by apply IH in Hrun|].
  destruct (staking.RecordMissTx _ _) as [[db1 [n z]]| |] eqn:E; cbn [obind] in Hrun; try done.
  apply RecordMissTx_formats in E as (Hf1 & Ht1 & Hm1); [|done].
  destruct (z >? 0); cbn [obind] in Hrun.
  - destruct (ledger.BurnTx _ _ _) as [db2| |] eqn:Eb; cbn [obind] in Hrun; try done.
    apply IH in Hrun as (? & Ht & Hm); [|by eapply BurnTx_formats].
    rewrite (BurnTx_total _ _ _ _ Eb) in Ht. apply BurnTx_inv in Eb as (_ & _ & ->). cbn in Hm.
    split_and!; [done|lia|congruence].
  - apply IH in Hrun as (? & Ht & Hm); [|done]. split_and!; [done|lia|congruence].
Qed.

Lemma CreditTx_formats db a z db' : formats_ok db -> ledger.CreditTx db a z = Ok db' -> formats_ok db'.
Proof.
  intros [Hl Hr] Hb. split; [by eapply CreditTx_wf|]. by apply CreditTx_inv in Hb as (_ & ->).
Qed.

Lemma mintRewards_total shares validators db db' :
  formats_ok db -> mintRewards db shares validators = Ok db' ->
  formats_ok db' /\ ledger.totalBalance db' = ledger.totalBalance db + sumZ shares /\ meta db' = meta db.
Proof.
  unfold mintRewards. intros Hf.
  assert (forall l db0, formats_ok db0 -> foldM (fun db '(i, share) =>
      if share =? 0 then Ok db else
      let* v := index validators (Z.of_nat i) in
      ledger.CreditTx db (gas.FeeAccount v) share) db0 l = Ok db' ->
    formats_ok db' /\ ledger.totalBalance db' = ledger.totalBalance db0 + sumZ (map snd l) /\ meta db' = meta db0) as Hgen.
  { induction l as [|[i z] l IH]; intros db0 Hf0 Hrun; cbn [foldM] in Hrun.
    - injection Hrun as ->. cbn. split_and!; [done|lia|done].
    - cbn [map snd]. rewrite sumZ_cons. destruct (z =? 0) eqn:E; bsimp; cbn [obind] in Hrun.
      + apply IH in Hrun as (? & ? & ?); [|done]. split_and!; [done|lia|done].
      + destruct (index validators _) as [v| |] eqn:Ei; cbn [obind] in Hrun; try done.
        destruct (ledger.CreditTx _ _ _) as [db1| |] eqn:Ec; cbn [obind] in Hrun; try done.
        apply IH in Hrun as (? & Ht & Hm); [|by eapply CreditTx_formats].
        rewrite (CreditTx_total _ _ _ _ Ec) in Ht.
        apply CreditTx_inv in Ec as (_ & ->). split_and!; [done|lia|done]. }
  intros Hrun. apply Hgen in Hrun as (? & Ht & Hm); [|done]. split_and!; try done. rewrite Ht. do 2 f_equal.
  apply list_eq. intros i. change (map snd ?l) with (snd <$> l). rewrite list_lookup_fmap, list_lookup_imap.
  by destruct (shares !! i).
Qed.

(** Steps that leave accounts, validators and contract code alone. *)
Definition same_ledger db db' : Prop :=
  balances db' = balances db /\ nonces db' = nonces db /\ validators db' = validators db /\
  contract_bytecode db' = contract_bytecode db.

Lemma same_ledger_formats db db' : same_ledger db db' -> formats_ok db -> formats_ok db'.
Proof. destruct db, db'. unfold same_ledger. cbn. intros (-> & -> & -> & _) [Hl Hr]. split; [|exact Hr]; destruct Hl; by constructor. Qed.

Lemma same_ledger_total db db' : same_ledger db db' -> ledger.totalBalance db' = ledger.totalBalance db.
Proof. unfold ledger.totalBalance. by intros (-> & _). Qed.

(** What the last step writes. *)
Lemma persistMeta_inv db h r f g sl mi su tr db' :
  persistMeta db h r f g sl mi su tr = Ok db' ->
  same_ledger db db' /\
  kv_Get (meta db') heightKey = Some (put64 h) /\
  kv_Get (meta db') stateRootKey = Some (arr_bytes r) /\
  kv_Get (meta db') baseFeeKey = Some (big_Bytes (gas.BaseFee (Some f) g)) /\
  (tr = true -> 0 <= su - f * g - sl + mi /\
     kv_Get (meta db') totalSupplyKey = Some (big_Bytes (su - f * g - sl + mi))).
Proof.
  unfold persistMeta. destruct tr; intros Hp.
  - unfold SetTotalSupplyTx in Hp. osteps Hp. bsimp. simplify_eq.
    split; [done|split; [|split; [|split; [|intros _; split; [lia|]]]]]; rewrite !putMeta_get;
      repeat (rewrite decide_False by key_ne || rewrite decide_True by done); done.
  - simplify_eq.
    split; [done|split; [|split; [|split; [|done]]]]; rewrite !putMeta_get;
      repeat (rewrite decide_False by key_ne || rewrite decide_True by done); done.
Qed.

(** The stages of a block that is applied. *)
Lemma applyBody_inv iter b bc db db' root g :
  applyBody iter b bc db = Ok (db', (root, g)) ->
  exists st nodes tr v db1 db2 s db3 db4 data,
    applyTxs (Height b) (bc_baseFee bc) db (Txs b) (bc_precheck bc) = Ok st /\
    mapM (contractNode (ts_db st)) (iter (ts_touched st)) = Ok nodes /\
    tree.BuildTree (Txs b) nodes = Ok tr /\ tree.TreeRoot tr = Ok (root, v) /\
    chargeGas (bc_baseFee bc) (ts_fuels st) (ts_db st) (Txs b) = Ok (db1, g) /\
    applyMisses db1 (ts_slashed st) (Txs b) = Ok (db2, s) /\
    mintRewards db2 (bc_mintShares bc) (bc_validators bc) = Ok db3 /\
    persistMeta db3 (Height b) root (bc_baseFee bc) g s (bc_mintAmount bc) (bc_totalSupply bc) (bc_tracked bc) = Ok db4 /\
    (StateRoot b = zero_arr 32 \/ StateRoot b = root) /\
    same_ledger db4 db' /\ meta db' = meta db4 /\
    serializeBlock (mkBlock (Height b) (Txs b) (ProposerPubKey b) (PrevStateRoot b) root (ProposalBytes b)) = Ok data /\
    kv_Get (blocks db') (blockKey (Height b)) = Some data.
Proof.
  intros Hb. unfold applyBody in Hb. osteps Hb. simplify_eq.
  unfold telemetry.putBlockTelemetryTx, putBlockTx in *.
  repeat match goal with H : (let* _ := _ in _) = Ok _ |- _ => osteps H end. simplify_eq.
  do 10 eexists. split_and!; try done.
  all: try (cbn; rewrite kv_get_put; by rewrite decide_True).
  match goal with H : _ && _ = false |- _ => apply andb_false_iff in H as [H|H]; apply bool_decide_eq_false in H end;
    [left|right]; by apply dec_stable.
Qed.

Lemma prepareBlock_inv ncpu db b chainID bc :
  prepareBlock ncpu db b chainID = Ok bc ->
  exists cur amounts,
    CurrentHeight db = Ok cur /\ Height b = wrap64 (cur + 1) /\
    (PrevStateRoot b = zero_arr 32 \/ CurrentStateRoot db = PrevStateRoot b) /\
    verifyTxSigsParallel ncpu (Txs b) chainID = Ok tt /\
    bc_baseFee bc = currentBaseFee db /\
    staking.BondedAmounts db = Ok (bc_validators bc, amounts) /\
    bc_tracked bc = snd (CurrentTotalSupply db) /\
    (bc_tracked bc = true -> bc_totalSupply bc = fst (CurrentTotalSupply db)) /\
    bc_mintAmount bc = (if zlen (bc_validators bc) =? 0 then 0 else
                          mint.MintPerBlock (Some (bc_totalSupply bc)) (Some (sumZ amounts))) /\
    bc_mintShares bc = mint.SplitReward (Some (bc_mintAmount bc)) (zlen (bc_validators bc)) /\
    bc_precheck bc = precheckTxsParallel (Txs b) chainID (Height b) (CurrentStateRoot db) (bc_validators bc) /\
    is_Ok (checkMissEvidence (Txs b) (bc_precheck bc)) = true.
Proof.
  unfold prepareBlock. intros Hp. osteps Hp. unfold supplyAndStaked in E3.
  destruct (staking.BondedAmounts db) as [[vs amounts]| |]; cbn [obind] in E3; try done.
  destruct (CurrentTotalSupply db) as [supply tracked]. injection E3 as -> <- <- ->. injection Hp as <-.
  repeat match goal with u : unit |- _ => destruct u end.
  cbn [bc_baseFee bc_validators bc_totalSupply bc_tracked bc_mintAmount bc_mintShares bc_precheck fst snd].
  exists a, amounts. split_and!; try done; bsimp; try done.
  - match goal with H : _ && _ = false |- _ => apply andb_false_iff in H as [H|H]; apply bool_decide_eq_false in H end;
      [left|right]; by apply dec_stable.
  - by intros ->.
  - by rewrite E4.
Qed.

(** What applying a block does to the supply: the tracked figure and the sum of
    all balances change alike. *)
Lemma applied_totals ncpu iter db b chainID db' r :
  formats_ok db -> is_u64 (Height b) -> Forall plain_tx (Txs b) -> (forall s, iter s ≡ₚ elements s) ->
  zlen (Txs b) < two64 -> ApplyBlockForChain ncpu iter db b chainID = (db', Ok r) ->
  formats_ok db' /\
  exists slashed,
    ledger.totalBalance db' = ledger.totalBalance db - GasBurned r - slashed + MintAmount r /\
    (snd (CurrentTotalSupply db) = true ->
     CurrentTotalSupply db' = (fst (CurrentTotalSupply db) - GasBurned r - slashed + MintAmount r, true)).
Proof.
  intros Hf Hh Hp Hit Hlen. unfold ApplyBlockForChain.
  destruct (prepareBlock _ _ _ _) as [bc| |] eqn:Hpre; [|done..].
  destruct (Update _ _) as [db0 [[root g]| |]] eqn:Hu; [|done..]. intros [= -> <-]. cbn.
  apply Update_ok in Hu.
  apply applyBody_inv in Hu as (st & nodes & tr & v & db1 & db2 & s & db3 & db4 & data & Hat & _ & _ & _ & Hcg & Hms & Hmr & Hpm & _ & Hsame & Hmeta & _).
  apply applyTxs_kept in Hat as (Hf1 & Ht1 & Hfu & _); [|done..].
  rewrite Hfu in Hcg. apply chargeGas_total in Hcg as (Hf2 & Ht2 & _ & _); [|done..].
  apply applyMisses_total in Hms as (Hf3 & Ht3 & _); [|done].
  apply mintRewards_total in Hmr as (Hf4 & Ht4 & _); [|done].
  apply persistMeta_inv in Hpm as (Hs & _ & _ & _ & Hsup).
  split; [eapply same_ledger_formats, same_ledger_formats; done|].
  apply prepareBlock_inv in Hpre as (cur & amounts & _ & _ & _ & _ & Hbf & _ & Htr & Hts & Hma & Hsh & _).
  exists s. rewrite (same_ledger_total _ _ Hsame), (same_ledger_total _ _ Hs), Ht4, Hsh, SplitReward_total.
  assert (sumZ (mint.SplitReward (Some (bc_mintAmount bc)) (zlen (bc_validators bc))) = bc_mintAmount bc) as Hmint.
  { rewrite SplitReward_total, Hma. pose proof (zlen_nonneg (bc_validators bc)).
    destruct (zlen _ =? 0) eqn:E1, (zlen _ <=? 0) eqn:E2; bsimp; try lia.
    pose proof (MintPerBlock_nonneg (Some (bc_totalSupply bc)) (Some (sumZ amounts))). lia. }
  rewrite SplitReward_total in Hmint. split; [lia|]. intros Ht. rewrite <- Htr in Ht.
  specialize (Hsup Ht) as [Hnn Hget]. rewrite <- (Hts Ht).
  unfold CurrentTotalSupply. rewrite Hmeta, Hget. rewrite big_SetBytes_Bytes. f_equal. lia.
Qed.

(** A node's history: block after block, each accepted or rejected, with any
    number of processors and any map order. *)
Definition attempt : Type := Z * (gset (arr 32) -> list (arr 32)) * Block * bytes.

Definition tryBlock db (a : attempt) : DB B :=
  let '(ncpu, iter, b, chainID) := a in fst (ApplyBlockForChain ncpu iter db b chainID).

Definition attempt_ok (a : attempt) : Prop :=
  let '(_, iter, b, _) := a in
  is_u64 (Height b) /\ zlen (Txs b) < two64 /\ Forall plain_tx (Txs b) /\ (forall s, iter s ≡ₚ elements s).

Lemma rejected_unchanged ncpu iter db b chainID :
  is_Ok (snd (ApplyBlockForChain ncpu iter db b chainID)) = false ->
  fst (ApplyBlockForChain ncpu iter db b chainID) = db.
Proof.
  unfold ApplyBlockForChain. destruct (prepareBlock _ _ _ _); [|done..].
  destruct (Update _ _) as [db0 [[root g]|e|]] eqn:Hu; cbn; [done|..]; intros _; by eapply Update_err in Hu.
Qed.

Lemma tryBlock_supply db a :
  attempt_ok a -> formats_ok db -> snd (CurrentTotalSupply db) = true ->
  formats_ok (tryBlock db a) /\ snd (CurrentTotalSupply (tryBlock db a)) = true /\
  ledger.totalBalance (tryBlock db a) - fst (CurrentTotalSupply (tryBlock db a)) =
  ledger.totalBalance db - fst (CurrentTotalSupply db).
Proof.
  destruct a as [[[ncpu iter] b] chainID]. intros (Hh & Hl & Hp & Hi) Hf Ht. unfold tryBlock.
  destruct (ApplyBlockForChain ncpu iter db b chainID) as [db' r] eqn:E. cbn [fst].
  destruct (is_Ok r) eqn:Er.
  - destruct r as [r| |]; [|done..]. apply applied_totals in E as (Hf' & s & Htot & Hsup); [|done..].
    specialize (Hsup Ht). rewrite Hsup. cbn. split_and!; try done. lia.
  - pose proof (rejected_unchanged ncpu iter db b chainID) as Hr. rewrite E in Hr. cbn in Hr. by rewrite Hr.
Qed.

Lemma history_supply db attempts :
  Forall attempt_ok attempts -> formats_ok db -> snd (CurrentTotalSupply db) = true ->
  let db' := foldl tryBlock db attempts in
  formats_ok db' /\ snd (CurrentTotalSupply db') = true /\
  ledger.totalBalance db' - fst (CurrentTotalSupply db') = ledger.totalBalance db - fst (CurrentTotalSupply db).
Proof.
  cbv zeta. intros Ha. revert db. induction Ha as [|a attempts Ha _ IH]; intros db Hf Ht; [done|].
  cbn [foldl]. destruct (tryBlock_supply db a Ha Hf Ht) as (Hf' & Ht' & Hgap).
  destruct (IH _ Hf' Ht') as (? & ? & Hgap'). split_and!; try done. lia.
Qed.

(** Supply accounting.  Over any history of accepted and rejected blocks of
    plain transactions, the recorded total supply moves exactly as the sum of
    all balances does: transfers, bonds, unbonding and claims keep both, gas and
    slashing take from both, minting adds to both.  The stored formats of
    accounts, nonces and validator records stay valid. *)
Theorem ApplyBlock_supply db attempts :
  Forall attempt_ok attempts -> formats_ok db -> snd (CurrentTotalSupply db) = true ->
  let db' := foldl tryBlock db attempts in
  formats_ok db' /\ snd (CurrentTotalSupply db') = true /\
  ledger.totalBalance db' - fst (CurrentTotalSupply db') = ledger.totalBalance db - fst (CurrentTotalSupply db).
Proof. apply history_supply. Qed.
End Supply.

(** ** The bill of a block *)
Section Gas.
Context `{Platform} {B : Type} `{KVLaws B}.
Implicit Types (db : DB B).

(** The gas units of the transactions account [a] sent. *)
Definition gasOf (fuels : gmap nat Z) (a : arr 32) (l : list (nat * tx.Tx)) : Z :=
  sumZ (map (fun '(i, t) => if decide (tx.SenderPubKey t = a) then gasUnitsOf fuels i else 0) l).

Lemma charge_fold baseFee fuels l db g db' g' :
  baseFee <> 0 ->
  foldM (fun '(db, totalGas) '(i, t) =>
    if baseFee =? 0 then Ok (db, totalGas) else
    let gasUnits := gasUnitsOf fuels i in
    let* db := ledger.BurnTx db (tx.SenderPubKey t) (baseFee * gasUnits) in
    Ok (db, wrap64 (totalGas + gasUnits))) (db, g) l = Ok (db', g') ->
  forall a, ledger.BalanceOfTx db' a = ledger.BalanceOfTx db a - baseFee * gasOf fuels a l.
Proof.
  intros Hfee. revert db g. induction l as [|[i t] l IH]; intros db g Hrun a; cbn [foldM] in Hrun.
  { injection Hrun as -> ->. unfold gasOf. cbn. lia. }
  destruct (baseFee =? 0) eqn:E; bsimp; [done|]. cbv zeta in Hrun.
  destruct (ledger.BurnTx _ _ _) as [db1| |] eqn:Eb; cbn [obind] in Hrun; try done.
  rewrite (IH _ _ Hrun a), (BurnTx_read _ _ _ _ a Eb). unfold gasOf. cbn [map]. rewrite sumZ_cons.
  case_decide; subst; nia.
Qed.

Lemma charge_units baseFee fuels l db g db' g' :
  baseFee <> 0 -> is_u64 g ->
  foldM (fun '(db, totalGas) '(i, t) =>
    if baseFee =? 0 then Ok (db, totalGas) else
    let gasUnits := gasUnitsOf fuels i in
    let* db := ledger.BurnTx db (tx.SenderPubKey t) (baseFee * gasUnits) in
    Ok (db, wrap64 (totalGas + gasUnits))) (db, g) l = Ok (db', g') ->
  g' = wrap64 (g + sumZ (map (fun '(i, _) => gasUnitsOf fuels i) l)).
Proof.
  intros Hfee. revert db g. induction l as [|[i t] l IH]; intros db g Hg Hrun; cbn [foldM] in Hrun.
  { injection Hrun as -> ->. cbn. rewrite Z.add_0_r. unfold wrap64. by rewrite Z.mod_small. }
  destruct (baseFee =? 0) eqn:E; bsimp; [done|]. cbv zeta in Hrun.
  destruct (ledger.BurnTx _ _ _) as [db1| |] eqn:Eb; cbn [obind] in Hrun; try done.
  rewrite (IH _ _ ltac:(apply Z.mod_pos_bound; done) Hrun). cbn [map]. rewrite sumZ_cons.
  unfold wrap64. rewrite Zplus_mod_idemp_l. f_equal. lia.
Qed.

(** The gas bill: when charging succeeds with a positive base fee, every account
    has paid the base fee times the gas units of exactly the transactions it
    sent, and the reported total is the number of units (no wrap-around below
    2^64). *)
Theorem chargeGas_bill baseFee fuels db txs db' g :
  baseFee <> 0 -> chargeGas baseFee fuels db txs = Ok (db', g) ->
  (forall a, ledger.BalanceOfTx db' a = ledger.BalanceOfTx db a - baseFee * gasOf fuels a (imap (fun i t => (i, t)) txs)) /\
  g = wrap64 (sumZ (imap (fun i _ => gasUnitsOf fuels i) txs)).
Proof.
  intros Hfee Hrun. split; [by eapply charge_fold|].
  unfold chargeGas in Hrun. apply charge_units in Hrun; [|done|done]. rewrite Hrun, Z.add_0_l. do 2 f_equal. apply list_eq. intros i. change (map ?f ?l) with (f <$> l).
  rewrite list_lookup_fmap, !list_lookup_imap. by destruct (txs !! i).
Qed.

Lemma gasOf_all a l :
  (forall p, p ∈ l -> tx.SenderPubKey (snd p) = a) -> gasOf ∅ a l = Z.of_nat (length l).
Proof.
  unfold gasOf. induction l as [|[i t] l IH]; intros Hs; [done|]. cbn [map length]. rewrite sumZ_cons.
  rewrite decide_True by (apply (Hs (i, t)); set_solver). rewrite IH by set_solver. change (gasUnitsOf ∅ i) with 1. lia.
Qed.

(** A transfer out of sequence changes nothing when it is applied. *)
Lemma applyTx_skips `{contract.Wasmtime} `{telemetry.Json} height baseFee (st : TxState (B := B)) i t pre :
  ledger.ledger_ok (ts_db st) -> tx.Type_ t = tx.TxTypeTransfer ->
  tx.Nonce t <> wrap64 (ledger.nonceOf (ts_db st) (tx.SenderPubKey t) + 1) ->
  applyTx height baseFee st i t pre = Ok st.
Proof.
  intros Hok Hty Hn. unfold applyTx. rewrite Hty. cbn. unfold ledger.TransferTx.
  rewrite AdvanceNonceTx_spec by done. rewrite (proj2 (Z.eqb_neq _ _)) by done. done.
Qed.

(** Replays are not free.  A transfer that is out of sequence, such as one that
    was applied in an earlier block, moves no value, yet a block that carries
    it [n] times takes [n] base fees from its sender. *)
Theorem replayed_transfer_pays `{contract.Wasmtime} `{telemetry.Json} height baseFee db t n db' g :
  ledger.ledger_ok db -> tx.Type_ t = tx.TxTypeTransfer ->
  tx.Nonce t <> wrap64 (ledger.nonceOf db (tx.SenderPubKey t) + 1) -> baseFee <> 0 ->
  let txs := replicate n t in
  applyTxs height baseFee db txs (replicate n (Ok (zero_arr 32))) = Ok (mkTxState db ∅ ∅ 0) /\
  (chargeGas baseFee ∅ db txs = Ok (db', g) ->
   ledger.BalanceOfTx db' (tx.SenderPubKey t) = ledger.BalanceOfTx db (tx.SenderPubKey t) - baseFee * Z.of_nat n).
Proof.
  intros Hok Hty Hn Hfee. cbv zeta. split.
  - unfold applyTxs. apply foldM_const. intros [i [t' pre]] Hin.
    apply elem_of_lookup_imap in Hin as (j & [t'' pre'] & [= -> -> ->] & Hin).
    apply list_elem_of_lookup_2, elem_of_zip_l, elem_of_replicate in Hin as [-> _]. by apply applyTx_skips.
  - intros Hrun. unfold chargeGas in Hrun. rewrite (charge_fold _ _ _ _ _ _ _ Hfee Hrun). f_equal. f_equal.
    rewrite gasOf_all; [by rewrite length_imap, length_replicate|]. intros [i t'] Hin.
    apply elem_of_lookup_imap in Hin as (j & t'' & [= -> ->] & Hin).
    by apply list_elem_of_lookup_2, elem_of_replicate in Hin as [-> _].
Qed.
End Gas.
