(* ===== verification/BlockProofs.v ===== *)
(** * core/statemachine: what accepting a block means, and what evidence proves *)

From S2P Require Import Prelude GoBytes Errors Platform Tx TxProofs KV Denom Ledger Staking StakingProofs Gas Mint Node Tree Contract BlockStore.
From S2P Require Import Telemetry StateMachine StateMachineProofs.
Import blockstore statemachine.

(** ** Parallel signature checks *)
Section Parallel.
Context `{Platform}.

Lemma verifySerial_ok txs chainID :
  verifySerial txs chainID = Ok tt <-> Forall (fun t => tx.VerifySigsForChain t chainID = Ok tt) txs.
Proof.
  unfold verifySerial. induction txs as [|t txs IH]; cbn [foldM]; [by split|].
  rewrite Forall_cons, <- IH. destruct (tx.VerifySigsForChain t chainID) as [[]| |]; cbn [obind]; intuition congruence.
Qed.

Lemma chunksOf_concat {A} fuel n (l : list A) :
  (0 < n)%nat -> (length l <= fuel)%nat -> concat (chunksOf fuel n l) = l.
Proof.
  intros Hn. revert l. induction fuel as [|fuel IH]; intros [|a l] Hl; cbn [chunksOf]; try done; [cbn in Hl; lia|].
  cbn [concat]. rewrite IH; [by rewrite take_drop|]. rewrite length_drop. cbn [length] in *. lia.
Qed.

Lemma chunks_ok cs chainID :
  foldM (fun _ c => verifySerial c chainID) tt cs = Ok tt <->
  Forall (fun t => tx.VerifySigsForChain t chainID = Ok tt) (concat cs).
Proof.
  induction cs as [|c cs IH]; cbn [foldM concat]; [by split|]. rewrite Forall_app, <- IH, <- verifySerial_ok.
  destruct (verifySerial c chainID) as [[]| |]; cbn [obind]; intuition congruence.
Qed.

Lemma parallel_verdict ncpu txs chainID :
  verifyTxSigsParallel ncpu txs chainID = Ok tt <-> Forall (fun t => tx.VerifySigsForChain t chainID = Ok tt) txs.
Proof.
  unfold verifyTxSigsParallel. pose proof (zlen_nonneg txs) as Hl.
  destruct (zlen txs =? 0) eqn:E0; bsimp.
  { destruct txs; [by split|]. rewrite zlen_cons in E0. pose proof (zlen_nonneg txs). lia. }
  set (workers := if ncpu >? zlen txs then zlen txs else ncpu).
  destruct (workers <=? 1) eqn:E1; bsimp; [apply verifySerial_ok|].
  rewrite chunks_ok, chunksOf_concat; [done| |done].
  assert (workers <= zlen txs) by (subst workers; destruct (ncpu >? zlen txs) eqn:E; bsimp; lia).
  enough (1 <= (zlen txs + workers - 1) / workers) by lia. apply Z.div_le_lower_bound; lia.
Qed.

(** The number of processors does not matter: the parallel check accepts a
    block exactly when every transaction's signature verifies for the chain,
    whatever the number of workers. *)
Theorem verifyTxSigsParallel_verdict ncpu txs chainID :
  verifyTxSigsParallel ncpu txs chainID = Ok tt <-> Forall (fun t => tx.VerifySigsForChain t chainID = Ok tt) txs.
Proof. apply parallel_verdict. Qed.
End Parallel.

(** ** Evidence of equivocation *)
Section Evidence.
Context `{Platform}.

Definition chainOf (chainID : bytes) : bytes := if decide (chainID = []) then tx.DefaultChainID else chainID.

Lemma voteMessage_inj c ty h r bh ty' h' r' bh' :
  is_u8 ty -> is_u8 ty' -> is_u64 h -> is_u64 h' -> is_u32 r -> is_u32 r' ->
  voteMessage c ty h r bh = voteMessage c ty' h' r' bh' -> ty = ty' /\ h = h' /\ r = r' /\ bh = bh'.
Proof.
  intros Ht Ht' Hh Hh' Hr Hr'. unfold voteMessage. intros He.
  do 4 apply app_inv_head in He. apply app_inj_len in He as [E0 He]; [|done].
  injection E0 as E0. apply (f_equal byte_to_Z) in E0. rewrite !byte_to_of_Z in E0.
  unfold is_u8, two8 in *. rewrite !Z.mod_small in E0 by lia.
  apply app_inj_len in He as [E1 He]; [|unfold put64; by rewrite !be_enc_length].
  apply app_inj_len in He as [E2 E3]; [|unfold put32; by rewrite !be_enc_length].
  unfold put64, put32 in *. apply be_enc_inj in E1, E2; [|done..]. apply arr_eq in E3. done.
Qed.

Lemma evidence_vote_range d v :
  deserializeEvidenceVote d = Ok v -> is_u8 (EType v) /\ is_u64 (EHeight v) /\ is_u32 (ERound v).
Proof.
  unfold deserializeEvidenceVote. intros Hd. osteps Hd. simplify_eq. cbn.
  apply be_at_range in E1, E2. split_and!; [|done..]. unfold is_u8, two8. apply byte_to_Z_range.
Qed.

Definition slotOf (v : evidenceVote) : slot := (EHeight v, ERound v, EType v).

(** Two valid votes of one validator for different blocks in one slot. *)
Definition equivocation (chainID : bytes) (pk : arr 32) (a b : evidenceVote) : Prop :=
  EValidatorPK a = pk /\ EValidatorPK b = pk /\ slotOf a = slotOf b /\
  EBlockHash a <> EBlockHash b /\ EBlockHash a <> zero_arr 32 /\ EBlockHash b <> zero_arr 32 /\
  verifyEvidenceVote a chainID = true /\ verifyEvidenceVote b chainID = true.

Lemma evidence_equivocation t chainID pk :
  validateEquivocationEvidenceTx t chainID = Ok pk ->
  exists a b, deserializeEvidenceVote (tx.EvidenceA t) = Ok a /\ deserializeEvidenceVote (tx.EvidenceB t) = Ok b /\
    equivocation chainID pk a b.
Proof.
  unfold validateEquivocationEvidenceTx. intros Hv. osteps Hv.
  repeat match goal with
  | H : asDistortion ?r = Ok _ |- _ => destruct r eqn:?; cbn in H; [injection H as ->|done..]
  | H : _ || _ = false |- _ => apply orb_false_iff in H as [? ?]
  | H : negb _ = false |- _ => apply negb_false_iff in H
  end. bsimp. injection Hv as <-. unfold equivocation, slotOf.
  do 2 eexists. split_and!; try done. congruence.
Qed.

(** C12.  Slashing is sound.  An accepted equivocation proof presents two votes of the
    convicted validator that verify for this chain and name different non-nil
    blocks for one height, round and vote type.  Such a pair never comes from
    votes that one database's [RecordConsensusVote] let through, whatever was
    requested and in whatever order: a validator that signs only what its
    record admits cannot be convicted on its own votes. *)
Theorem equivocation_conviction_sound {B} `{KVLaws B} t chainID pk :
  validateEquivocationEvidenceTx t chainID = Ok pk ->
  exists a b, deserializeEvidenceVote (tx.EvidenceA t) = Ok a /\ deserializeEvidenceVote (tx.EvidenceB t) = Ok b /\
    equivocation chainID pk a b /\
    forall (db : DB B) votes,
      ~ ((slotOf a, EBlockHash a) ∈ snd (recordVotes db votes) /\ (slotOf b, EBlockHash b) ∈ snd (recordVotes db votes)).
Proof.
  intros (a & b & Ha & Hb & He)%evidence_equivocation. exists a, b. split_and!; try done.
  intros db votes [Hra Hrb]. destruct He as (_ & _ & Hslot & Hne & _). rewrite Hslot in Hra.
  apply Hne. by eapply (recorded_once db votes (slotOf b)).
Qed.
End Evidence.

(** ** Accepting a block *)
Section Outcome.
Context `{PlatformLaws} `{contract.Wasmtime} `{telemetry.Json} {B : Type} `{KVLaws B}.
Implicit Types (db : DB B).

Definition with_root (b : Block) (r : arr 32) : Block :=
  mkBlock (Height b) (Txs b) (ProposerPubKey b) (PrevStateRoot b) r (ProposalBytes b).

Lemma height_next cur : wrap64 cur <> wrap64 (cur + 1).
Proof.
  unfold wrap64. intros He. pose proof (Z.div_mod cur two64 ltac:(done)). pose proof (Z.div_mod (cur + 1) two64 ltac:(done)).
  unfold two64 in *. lia.
Qed.

(** An accepted block advances the height by one. *)
Lemma applied_height ncpu iter db b chainID db' r :
  ApplyBlockForChain ncpu iter db b chainID = (db', Ok r) ->
  exists cur, CurrentHeight db = Ok cur /\ Height b = wrap64 (cur + 1) /\ CurrentHeight db' = Ok (Height b).
Proof.
  unfold ApplyBlockForChain. intros E. destruct (prepareBlock _ _ _ _) as [bc| |] eqn:Hpre; [|done..].
  destruct (Update _ _) as [db0 [[root g]| |]] eqn:Hu; [|done..]. injection E as -> <-. apply Update_ok in Hu.
  apply applyBody_inv in Hu as (st & nodes & tr & v & db1 & db2 & s & db3 & db4 & data & _ & _ & _ & _ & _ & _ & _ & Hpm & _ & _ & Hmeta & _).
  apply persistMeta_inv in Hpm as (_ & Hh & _). apply prepareBlock_inv in Hpre as (cur & amounts & Hcur & Hnext & _).
  exists cur. split_and!; try done. unfold CurrentHeight. rewrite Hmeta, Hh. unfold u64_at. rewrite be_at_full by apply be_enc_length.
  f_equal. apply be_dec_enc_small. rewrite Hnext. by apply Z.mod_pos_bound.
Qed.

(** An accepted block carries valid signatures only. *)
Lemma ApplyBlock_signed ncpu iter db b chainID db' r :
  ApplyBlockForChain ncpu iter db b chainID = (db', Ok r) ->
  Forall (fun t => tx.VerifySigsForChain t chainID = Ok tt) (Txs b).
Proof.
  unfold ApplyBlockForChain. destruct (prepareBlock _ _ _ _) as [bc| |] eqn:Hpre; [|done..]. intros _.
  apply prepareBlock_inv in Hpre as (cur & amounts & _ & _ & _ & Hsig & _). by apply parallel_verdict in Hsig.
Qed.

(** C1.  All or nothing.  A rejected block leaves the database as it was.  An accepted
    block is the successor of the current height, agrees with the roots it
    names, and carries valid signatures only; afterwards height, root and base
    fee are those of the block, and the same block is refused as out of
    sequence.  A block of fewer than 65536 transactions, whose fields are
    values of their Go types, is read back at its height; one of exactly
    65536, the largest that is accepted, is stored but every reading of it
    fails. *)
Theorem ApplyBlock_atomic ncpu iter db b chainID :
  match ApplyBlockForChain ncpu iter db b chainID with
  | (db', Ok r) =>
      (exists cur, CurrentHeight db = Ok cur /\ Height b = wrap64 (cur + 1)) /\
      (PrevStateRoot b = zero_arr 32 \/ CurrentStateRoot db = PrevStateRoot b) /\
      (StateRoot b = zero_arr 32 \/ StateRoot b = RStateRoot r) /\
      Forall (fun t => tx.VerifySigsForChain t chainID = Ok tt) (Txs b) /\ zlen (Txs b) <= tx.maxBatchTxs /\
      CurrentHeight db' = Ok (Height b) /\ CurrentStateRoot db' = RStateRoot r /\
      (exists g, GasBurned r = currentBaseFee db * g /\ currentBaseFee db' = Z.abs (gas.BaseFee (Some (currentBaseFee db)) g)) /\
      (Forall tx.wf (Txs b) ->
       BlockAt db' (Height b) =
         if zlen (Txs b) =? tx.maxBatchTxs then fail ErrCanonicalEncodingDistortion
         else Ok (Some (canonBlock (with_root b (RStateRoot r))))) /\
      forall ncpu' iter' chain', ApplyBlockForChain ncpu' iter' db' b chain' = (db', fail ErrBlockHeightSequenceFault)
  | (db', _) => db' = db
  end.
Proof.
  destruct (ApplyBlockForChain ncpu iter db b chainID) as [db' r] eqn:E.
  destruct (is_Ok r) eqn:Er.
  2:{ pose proof (rejected_unchanged ncpu iter db b chainID) as Hr. rewrite E in Hr. destruct r; cbn in *; auto; done. }
  destruct r as [r| |]; [|done..]. pose proof E as Eapp. unfold ApplyBlockForChain in E.
  destruct (prepareBlock _ _ _ _) as [bc| |] eqn:Hpre; [|done..].
  destruct (Update _ _) as [db0 [[root g]| |]] eqn:Hu; [|done..]. injection E as -> <-. cbn [RStateRoot GasBurned].
  apply Update_ok in Hu.
  apply applyBody_inv in Hu as (st & nodes & tr & v & db1 & db2 & s & db3 & db4 & data & _ & _ & _ & _ & _ & _ & _ & Hpm & Hroot & _ & Hmeta & Hser & Hget).
  apply persistMeta_inv in Hpm as (_ & Hh & Hr & Hf & _).
  apply prepareBlock_inv in Hpre as (cur & amounts & Hcur & Hnext & Hprev & Hsig & Hbf & _).
  assert (is_u64 (Height b)) as Hu64 by (rewrite Hnext; apply Z.mod_pos_bound; done).
  assert (CurrentHeight db' = Ok (Height b)) as Hheight by (by destruct (applied_height _ _ _ _ _ _ _ Eapp) as (? & _ & _ & ?)).
  split_and!; try done.
  - by exists cur.
  - by apply parallel_verdict in Hsig.
  - exact (stored_count (with_root b root) data Hser).
  - unfold CurrentStateRoot. rewrite Hmeta, Hr. apply mk_arr_bytes.
  - exists g. split; [by rewrite Hbf|]. unfold currentBaseFee at 1. rewrite Hmeta, Hf, big_SetBytes_Bytes, Hbf. done.
  - intros Hw. unfold BlockAt. rewrite Hget. destruct (zlen (Txs b) =? tx.maxBatchTxs) eqn:En; bsimp.
    + by rewrite (full_block_lost (with_root b root) data).
    + by rewrite (block_roundtrip (with_root b root) data).
  - intros ncpu' iter' chain'. unfold ApplyBlockForChain, prepareBlock. rewrite Hheight. cbn [obind].
    rewrite (proj2 (Z.eqb_neq _ _)); [done|]. intros He.
    apply (height_next (Height b)). unfold wrap64 at 1. by rewrite Z.mod_small.
Qed.
End Outcome.
