(* ===== verification/FrameProofs.v ===== *)
(** * core/statemachine: what a block leaves alone

    Transactions, contract code included, never write the buckets with the
    chain's own records, its blocks or their telemetry; a block as a whole
    writes four keys of the first and its own height in the others.  The
    record of the votes a validator signed and the snapshot of its round
    survive every block.  The second part follows the escrow accounts through
    a block: whatever its transactions do, contract code included, every bond
    stays covered. *)

From S2P Require Import Prelude GoBytes Errors Platform Tx TxProofs KV Denom Ledger Staking StakingProofs Gas Mint Node Tree Contract ContractProofs BlockStore.
From S2P Require Import Telemetry StateMachine StateMachineProofs BlockProofs.
Import blockstore statemachine.

Section Frame.
Context `{Platform} `{contract.Wasmtime} `{telemetry.Json} {B : Type} `{KVLaws B}.
Implicit Types (db : DB B).

(** The chain's own records: heights and roots, blocks, telemetry. *)
Definition same_records db db' : Prop :=
  meta db' = meta db /\ blocks db' = blocks db /\ block_telemetry db' = block_telemetry db.

#[local] Instance same_records_preorder : PreOrder same_records.
Proof. split; [done|]. unfold same_records. intros d1 d2 d3. intuition congruence. Qed.

(** Close the goal with the frame lemma of the step that was taken. *)
Ltac frame_by lem := match goal with Hs : _ = Ok _ |- _ => apply lem in Hs; exact Hs end.

(** Run through an operation that succeeds and compare the bucket. *)
Ltac frame H := unfold same_records; osteps H; simplify_eq; cbn; try done.

Lemma BurnTx_meta db a z db' : ledger.BurnTx db a z = Ok db' -> same_records db db'.
Proof. unfold ledger.BurnTx. intros Hr. frame Hr. Qed.
Lemma CreditTx_meta db a z db' : ledger.CreditTx db a z = Ok db' -> same_records db db'.
Proof. unfold ledger.CreditTx. intros Hr. frame Hr. Qed.
Lemma MoveTx_meta db a b z db' : ledger.MoveTx db a b z = Ok db' -> same_records db db'.
Proof. unfold ledger.MoveTx. intros Hr. frame Hr. Qed.
Lemma AdvanceNonceTx_meta db a n db' : ledger.AdvanceNonceTx db a n = Ok db' -> same_records db db'.
Proof. unfold ledger.AdvanceNonceTx. intros Hr. frame Hr. Qed.

Lemma TransferTx_meta db t db' : ledger.TransferTx db t = Ok db' -> same_records db db'.
Proof. unfold ledger.TransferTx. intros Hr. osteps Hr. simplify_eq. frame_by AdvanceNonceTx_meta. Qed.

Lemma BondTx_meta db v a h db' : staking.BondTx db v a h = Ok db' -> same_records db db'.
Proof. unfold staking.BondTx. intros Hr. osteps Hr. simplify_eq. frame_by MoveTx_meta. Qed.
Lemma UnbondTx_meta db v h db' : staking.UnbondTx db v h = Ok db' -> same_records db db'.
Proof. unfold staking.UnbondTx. intros Hr. frame Hr. Qed.
Lemma FinalizeTx_meta db v h db' : staking.FinalizeTx db v h = Ok db' -> same_records db db'.
Proof. unfold staking.FinalizeTx. intros Hr. osteps Hr; simplify_eq; try done. frame_by MoveTx_meta. Qed.
Lemma SlashTx_meta db v db' z : staking.SlashTx db v = Ok (db', z) -> same_records db db'.
Proof. unfold staking.SlashTx. intros Hr. osteps Hr; simplify_eq; frame_by BurnTx_meta. Qed.
Lemma RecordMissTx_meta db v db' x : staking.RecordMissTx db v = Ok (db', x) -> same_records db db'.
Proof. unfold staking.RecordMissTx. intros Hr. frame Hr. Qed.
Lemma ClaimTx_meta db v db' : gas.ClaimTx db v = Ok db' -> same_records db db'.
Proof. unfold gas.ClaimTx. intros Hr. osteps Hr; simplify_eq; try done. frame_by MoveTx_meta. Qed.

Lemma fund_meta db t a db' : contract.fund db t a = Ok db' -> same_records db db'.
Proof. unfold contract.fund. intros Hr. osteps Hr; simplify_eq; try done; frame_by MoveTx_meta. Qed.

Lemma drive_meta {A} cfg (r : contract.wasm_run A) w w' out :
  contract.drive cfg r w = Ok (w', out) -> same_records (contract.w_db w) (contract.w_db w').
Proof. intros Hd. apply drive_confined in Hd as ([b ->] & _). done. Qed.

Lemma NewRuntime_meta cfg db s w rt : contract.NewRuntime cfg db s = Ok (w, rt) -> same_records db (contract.w_db w).
Proof. unfold contract.NewRuntime. intros Hr. osteps Hr. simplify_eq. frame_by (drive_meta (A := contract.wasm_instance)). Qed.

Lemma runtime_Call_meta cfg rt w f w' :
  contract.runtime_Call cfg rt w f = Ok w' -> same_records (contract.w_db w) (contract.w_db w').
Proof. unfold contract.runtime_Call. intros Hr. osteps Hr; simplify_eq; frame_by (drive_meta (A := unit)). Qed.

Lemma Deploy_meta db t h g db' x : contract.Deploy db t h g = Ok (db', x) -> same_records db db'.
Proof.
  unfold contract.Deploy. intros Hr. osteps Hr. simplify_eq.
  etransitivity; [frame_by fund_meta|]. etransitivity; [frame_by NewRuntime_meta|]. frame_by runtime_Call_meta.
Qed.

Lemma Call_meta db t h g db1 r :
  contract.Call db t h g = (db1, r) -> same_records db db1 /\ forall db' x, r = Ok (db', x) -> same_records db db'.
Proof.
  unfold contract.Call. intros Hc.
  repeat first [ match type of Hc with
    | (let '(_, _) := ?p in _) = _ => destruct p eqn:?
    | match ?x with _ => _ end = _ => destruct x eqn:?
    end | progress simplify_eq ]; try (split; [done|done]).
  all: match goal with Hn : contract.NewRuntime _ _ _ = Ok _ |- _ => apply NewRuntime_meta in Hn end.
  1: by split.
  split; [done|]. intros db' x Hr. osteps Hr. simplify_eq.
  etransitivity; [eassumption|]. etransitivity; [frame_by fund_meta|].
  frame_by runtime_Call_meta.
Qed.

Lemma withNonce_meta st t k st' :
  (forall st1, k st1 = Ok st' -> same_records (ts_db st1) (ts_db st')) ->
  withNonce (B := B) st t k = Ok st' -> same_records (ts_db st) (ts_db st').
Proof.
  intros Hk Hw. unfold withNonce in Hw. destruct (ledger.AdvanceNonceTx _ _ _) as [db|e|] eqn:E; [| |done].
  - apply AdvanceNonceTx_meta in E. etransitivity; [exact E|]. by apply Hk in Hw.
  - destruct (isSequenceFault e); [|done]. by injection Hw as <-.
Qed.

Lemma applyTx_meta height baseFee st i t pre st' :
  applyTx (B := B) height baseFee st i t pre = Ok st' -> same_records (ts_db st) (ts_db st').
Proof.
  intros Ha. unfold applyTx in Ha.
  destruct (tx.Type_ t =? tx.TxTypeTransfer).
  { destruct (ledger.TransferTx _ _) as [db|e|] eqn:E; [| |done].
    - injection Ha as <-. by apply TransferTx_meta in E.
    - destruct (isSequenceFault e); [|done]. by injection Ha as <-. }
  destruct (_ =? tx.TxTypeContractDeploy).
  { eapply withNonce_meta; [|exact Ha]. intros st1 Hk. cbv beta in Hk. osteps Hk. simplify_eq. frame_by Deploy_meta. }
  destruct (_ =? tx.TxTypeContractCall).
  { eapply withNonce_meta; [|exact Ha]. intros st1 (g & _ & Hk)%obind_ok_inv.
    destruct (contract.Call _ _ _ _) as [db1 r] eqn:Hc. apply Call_meta in Hc as [Hc1 Hc].
    osteps Hk; simplify_eq; [by eapply Hc|exact Hc1]. }
  destruct (_ =? tx.TxTypeMissEvidence).
  { eapply withNonce_meta; [|exact Ha]. by intros st1 [= ->]. }
  destruct (_ =? tx.TxTypeBond).
  { osteps Ha. eapply withNonce_meta; [|exact Ha]. intros st1 Hk. cbv beta in Hk. osteps Hk. simplify_eq. frame_by BondTx_meta. }
  destruct (_ =? tx.TxTypeUnbond).
  { osteps Ha. eapply withNonce_meta; [|exact Ha]. intros st1 Hk. cbv beta in Hk. osteps Hk. simplify_eq. frame_by UnbondTx_meta. }
  destruct (_ =? tx.TxTypeFinalizeUnbond).
  { osteps Ha. eapply withNonce_meta; [|exact Ha]. intros st1 Hk. cbv beta in Hk. osteps Hk. simplify_eq. frame_by FinalizeTx_meta. }
  destruct (_ =? tx.TxTypeClaimRewards).
  { osteps Ha. eapply withNonce_meta; [|exact Ha]. intros st1 Hk. cbv beta in Hk. osteps Hk. simplify_eq. frame_by ClaimTx_meta. }
  destruct (_ =? tx.TxTypeEquivEvidence); [|by injection Ha as <-].
  osteps Ha. eapply withNonce_meta; [|exact Ha]. intros st1 Hk. cbv beta in Hk. osteps Hk. simplify_eq. frame_by SlashTx_meta.
Qed.

Lemma applyTxs_meta height baseFee db txs pres st :
  applyTxs height baseFee db txs pres = Ok st -> same_records db (ts_db st).
Proof.
  intros Ha. unfold applyTxs in Ha. apply (foldM_inv _ (fun st => same_records db (ts_db st))) in Ha; [done| |done].
  intros s s' [i [t pre]] _ Hs Happ. etransitivity; [exact Hs|]. frame_by applyTx_meta.
Qed.

Lemma chargeGas_meta baseFee fuels db txs db' g : chargeGas baseFee fuels db txs = Ok (db', g) -> same_records db db'.
Proof.
  unfold chargeGas. intros Ha. apply (foldM_inv _ (fun s => same_records db (fst s))) in Ha; [done| |done].
  intros [d1 g1] [d2 g2] [i t] _ Hs Hr. osteps Hr; simplify_eq; [done|].
  etransitivity; [exact Hs|]. frame_by BurnTx_meta.
Qed.

Lemma applyMisses_meta db s txs db' s' : applyMisses db s txs = Ok (db', s') -> same_records db db'.
Proof.
  unfold applyMisses. intros Ha. apply (foldM_inv _ (fun s => same_records db (fst s))) in Ha; [done| |done].
  intros [d1 g1] [d2 g2] t _ Hs Hr. osteps Hr; simplify_eq; try done.
  all: match goal with Hm : staking.RecordMissTx _ _ = Ok _ |- _ => apply RecordMissTx_meta in Hm end.
  all: etransitivity; [exact Hs|]; etransitivity; [eassumption|]; try done. frame_by BurnTx_meta.
Qed.

Lemma mintRewards_meta db shares vs db' : mintRewards db shares vs = Ok db' -> same_records db db'.
Proof.
  unfold mintRewards. intros Ha. apply (foldM_inv _ (same_records db)) in Ha; [done| |done].
  intros d1 d2 [i s] _ Hs Hr. osteps Hr; simplify_eq; [done|]. etransitivity; [exact Hs|]. frame_by CreditTx_meta.
Qed.

(** The keys a block writes. *)
Definition chain_keys : list bytes := [heightKey; stateRootKey; baseFeeKey; totalSupplyKey].

Lemma ApplyBlock_frame ncpu iter db b chainID k :
  k ∉ chain_keys -> kv_Get (meta (fst (ApplyBlockForChain ncpu iter db b chainID))) k = kv_Get (meta db) k.
Proof.
  intros Hk. unfold ApplyBlockForChain. destruct (prepareBlock _ _ _ _) as [bc| |]; [|done..].
  destruct (Update _ _) as [db' [[root g]| |]] eqn:Hu; cbn [fst]; [|by rewrite (Update_err _ _ _ _ Hu)..].
  apply Update_ok, applyBody_inv in Hu
    as (st & nodes & tr & v & db1 & db2 & s & db3 & db4 & data & Ht & _ & _ & _ & Hg & Hm & Hr & Hp & _ & _ & -> & _).
  apply applyTxs_meta in Ht. apply chargeGas_meta in Hg. apply applyMisses_meta in Hm. apply mintRewards_meta in Hr.
  destruct Ht as [Ht _], Hg as [Hg _], Hm as [Hm _], Hr as [Hr _]. rewrite <- Ht, <- Hg, <- Hm, <- Hr.
  unfold chain_keys in Hk. rewrite !not_elem_of_cons in Hk. destruct Hk as (? & ? & ? & ? & _).
  unfold persistMeta, SetTotalSupplyTx in Hp. osteps Hp; simplify_eq; rewrite !putMeta_get; by rewrite !decide_False by congruence.
Qed.

Lemma prefix_ne (p q k : bytes) : take (length p) q <> p -> p ++ k <> q.
Proof. intros Hne <-. apply Hne. by rewrite take_app_length. Qed.

Lemma voteKey_chain h r t : voteKey h r t ∉ chain_keys.
Proof.
  unfold voteKey, chain_keys. rewrite !not_elem_of_cons. split_and!; try (apply prefix_ne; by vm_compute). apply not_elem_of_nil.
Qed.

Lemma voteKey_state h r t : voteKey h r t <> consensusStateKey.
Proof. apply prefix_ne. by vm_compute. Qed.

Lemma stateKey_chain : consensusStateKey ∉ chain_keys.
Proof. unfold chain_keys. rewrite !not_elem_of_cons. split_and!; try by vm_compute. apply not_elem_of_nil. Qed.
End Frame.

(** ** Escrow through a block *)
Section Escrow.
Context `{Platform} `{contract.Wasmtime} `{telemetry.Json} {B : Type} `{KVLaws B}.
Implicit Types (db : DB B) (K : list (arr 32)) (txs : list tx.Tx).

(** The keys [K] that bond and send the transactions [txs]: nobody can sign for
    an escrow account, collect its fees or deploy a contract to it. *)
Record parties K txs : Prop :=
  { pt_escrow : escrows_apart K;
    pt_fee : forall v w, v ∈ K -> w ∈ K -> staking.escrowAccount v <> gas.FeeAccount w;
    pt_senders : forall t, t ∈ txs -> tx.SenderPubKey t ∈ K;
    pt_deploys : forall t v, t ∈ txs -> tx.Type_ t = tx.TxTypeContractDeploy -> v ∈ K ->
      staking.escrowAccount v <> contract.ContractAddr (tx.SenderPubKey t) (tx.Nonce t) }.

Lemma parties_sublist K txs txs' : parties K txs -> (forall t, t ∈ txs' -> t ∈ txs) -> parties K txs'.
Proof. intros [????] Hin. constructor; auto. Qed.

(** A signature covers a value of 256 bits. *)
Lemma signed_value t chainID z : tx.VerifySigsForChain t chainID = Ok tt -> tx.Value t = Some z -> 0 <= z.
Proof.
  unfold tx.VerifySigsForChain, tx.UnsignedHashForChain. intros (msg & (u & Hu & _)%obind_ok_inv & _)%obind_ok_inv Hz.
  apply serializeUnsigned_spec in Hu as (v & Hv & _). rewrite (enc_value _ _ Hv) in Hz. injection Hz as <-.
  apply (enc_range _ _ Hv).
Qed.

(** Contract code takes from its own account only. *)
Lemma drive_preserves {A} K cfg (r : contract.wasm_run A) w w' out :
  staking_inv K (contract.w_db (B := B) w) -> (forall v, v ∈ K -> staking.escrowAccount v <> contract.SelfAddr cfg) ->
  contract.drive cfg r w = Ok (w', out) -> staking_inv K (contract.w_db w').
Proof.
  intros Hi Hne Hd. apply drive_confined in Hd as ([b Hb] & Hbal & _ & Hl).
  eapply frame_preserves; [exact Hi|apply Hl, Hi|by rewrite Hb|by rewrite Hb|].
  intros v Hv. apply Hbal. by apply Hne.
Qed.

Lemma NewRuntime_preserves K cfg db s w rt :
  staking_inv K db -> (forall v, v ∈ K -> staking.escrowAccount v <> contract.SelfAddr cfg) ->
  contract.NewRuntime cfg db s = Ok (w, rt) -> staking_inv K (contract.w_db w).
Proof.
  intros Hi Hne Hr. unfold contract.NewRuntime in Hr. osteps Hr. simplify_eq.
  match goal with Hd : contract.drive _ _ _ = Ok _ |- _ => by eapply drive_preserves in Hd end.
Qed.

Lemma runtime_Call_preserves K cfg rt w f w' :
  staking_inv K (contract.w_db (B := B) w) -> (forall v, v ∈ K -> staking.escrowAccount v <> contract.SelfAddr cfg) ->
  contract.runtime_Call cfg rt w f = Ok w' -> staking_inv K (contract.w_db w').
Proof.
  intros Hi Hne Hr. unfold contract.runtime_Call in Hr. osteps Hr; simplify_eq.
  match goal with Hd : contract.drive _ _ _ = Ok _ |- _ => by eapply drive_preserves in Hd end.
Qed.

Lemma fund_preserves K db t a db' :
  staking_inv K db -> (forall v, v ∈ K -> staking.escrowAccount v <> tx.SenderPubKey t) ->
  contract.fund db t a = Ok db' -> staking_inv K db'.
Proof.
  intros Hi Hne Hf. unfold contract.fund in Hf. osteps Hf; simplify_eq; try done. by eapply MoveTx_preserves.
Qed.

Lemma saveState_preserves K db a s : staking_inv K db -> staking_inv K (contract.saveState db a s).
Proof. intros Hi. eapply frame_preserves; [exact Hi|destruct Hi as [[??] _ _ _ _]; by constructor|done..]. Qed.

Lemma storeBytecode_preserves K db a code :
  staking_inv K db -> (forall v, v ∈ K -> staking.escrowAccount v <> a) -> staking_inv K (contract.storeBytecode db a code).
Proof.
  intros Hi Hne. eapply frame_preserves; [exact Hi|destruct Hi as [[??] _ _ _ _]; by constructor|done| |done].
  intros v Hv. cbn. rewrite kv_get_put, decide_False; [done|]. intros He%arr_eq. by apply (Hne v Hv).
Qed.

Lemma Deploy_preserves K db t h g db' x :
  staking_inv K db -> (forall v, v ∈ K -> staking.escrowAccount v <> tx.SenderPubKey t) ->
  (forall v, v ∈ K -> staking.escrowAccount v <> contract.ContractAddr (tx.SenderPubKey t) (tx.Nonce t)) ->
  contract.Deploy db t h g = Ok (db', x) -> staking_inv K db'.
Proof.
  intros Hi Hs Ha Hr. unfold contract.Deploy in Hr. osteps Hr. simplify_eq.
  apply saveState_preserves, storeBytecode_preserves; [|done].
  match goal with Hf : contract.fund _ _ _ = Ok _ |- _ => apply (fund_preserves K) in Hf; [|done..] end.
  match goal with Hf : contract.NewRuntime _ _ _ = Ok _ |- _ => apply (NewRuntime_preserves K) in Hf; [|done..] end.
  match goal with Hf : contract.runtime_Call _ _ _ _ = Ok _ |- _ => by apply (runtime_Call_preserves K) in Hf end.
Qed.

(** No contract lives at an escrow account, so none is called there. *)
Lemma Call_preserves K db t h g db1 r :
  staking_inv K db -> (forall v, v ∈ K -> staking.escrowAccount v <> tx.SenderPubKey t) ->
  contract.Call db t h g = (db1, r) ->
  staking_inv K db1 /\ forall db' x, r = Ok (db', x) -> staking_inv K db'.
Proof.
  intros Hi Hs Hc. unfold contract.Call in Hc.
  destruct (contract.loadBytecode db _) as [code| |] eqn:El; try (by injection Hc as <- <-).
  assert (forall v, v ∈ K -> staking.escrowAccount v <> tx.ReceiverPubKey t) as Hne.
  { intros v Hv He. unfold contract.loadBytecode in El. rewrite <- He, (inv_code _ _ Hi v Hv) in El. done. }
  destruct (contract.loadState _ _); try (by injection Hc as <- <-).
  destruct (if zlen (tx.CallData t) >=? 4 then _ else _) as [fn cd].
  destruct (contract.NewRuntime _ _ _) as [[w rt]| |] eqn:En; try (by injection Hc as <- <-).
  apply (NewRuntime_preserves K) in En; [|done..].
  destruct (negb _); injection Hc as <- <-; [done|]. split; [done|]. intros db' x Hr. osteps Hr. simplify_eq.
  apply saveState_preserves.
  match goal with Hf : contract.fund _ _ _ = Ok _ |- _ => apply (fund_preserves K) in Hf; [|done..] end.
  match goal with Hf : contract.runtime_Call _ _ _ _ = Ok _ |- _ => by apply (runtime_Call_preserves K) in Hf end.
Qed.

Lemma ClaimTx_preserves K db v db' :
  staking_inv K db -> (forall w, w ∈ K -> staking.escrowAccount w <> gas.FeeAccount v) ->
  gas.ClaimTx db v = Ok db' -> staking_inv K db'.
Proof.
  intros Hi Hne Hc. unfold gas.ClaimTx in Hc. destruct (_ =? 0); [by injection Hc as <-|]. by eapply MoveTx_preserves.
Qed.

Lemma withNonce_preserves K st t k st' :
  (forall st1, staking_inv K (ts_db st1) -> k st1 = Ok st' -> staking_inv K (ts_db st')) ->
  staking_inv K (ts_db (B := B) st) -> withNonce st t k = Ok st' -> staking_inv K (ts_db st').
Proof.
  intros Hk Hi Hw. unfold withNonce in Hw. destruct (ledger.AdvanceNonceTx _ _ _) as [db|e|] eqn:E; [| |done].
  - eapply Hk; [|exact Hw]. by eapply AdvanceNonceTx_preserves.
  - destruct (isSequenceFault e); [|done]. by injection Hw as <-.
Qed.

(** Use the nonce, then run the one operation the continuation makes. *)
Ltac after_nonce H K lem :=
  osteps H; eapply (withNonce_preserves K); [|eassumption|exact H];
  let st1 := fresh "st" in let Hi := fresh "Hi" in let Hk := fresh "Hk" in
  intros st1 Hi Hk; cbv beta in Hk; osteps Hk; simplify_eq; eapply lem; eauto.

Lemma applyTx_preserves K txs chainID height baseFee st i t pre st' :
  parties K txs -> t ∈ txs -> tx.VerifySigsForChain t chainID = Ok tt -> is_u64 height ->
  staking_inv K (ts_db (B := B) st) -> applyTx height baseFee st i t pre = Ok st' -> staking_inv K (ts_db st').
Proof.
  intros [Hesc Hfee Hsend Hdep] Hin Hsig Hh Hi Ha. specialize (Hsend t Hin).
  assert (forall v, v ∈ K -> staking.escrowAccount v <> tx.SenderPubKey t) as Hne by (intros v Hv; by apply Hesc).
  unfold applyTx in Ha. destruct (tx.Type_ t =? tx.TxTypeTransfer).
  { destruct (ledger.TransferTx _ _) as [db|e|] eqn:E; [| |done].
    - injection Ha as <-. eapply TransferTx_preserves; eauto. intros z. by eapply signed_value.
    - destruct (isSequenceFault e); [|done]. by injection Ha as <-. }
  destruct (_ =? tx.TxTypeContractDeploy) eqn:Ed; bsimp.
  { after_nonce Ha K Deploy_preserves. }
  destruct (_ =? tx.TxTypeContractCall).
  { eapply (withNonce_preserves K); [|exact Hi|exact Ha]. intros st1 Hi1 (g & _ & Hk)%obind_ok_inv.
    destruct (contract.Call _ _ _ _) as [db1 r] eqn:Hc. apply (Call_preserves K) in Hc as [Hc1 Hc]; [|done..].
    osteps Hk; simplify_eq; [by eapply Hc|exact Hc1]. }
  destruct (_ =? tx.TxTypeMissEvidence).
  { eapply (withNonce_preserves K); [|exact Hi|exact Ha]. by intros st1 Hi1 [= <-]. }
  destruct (_ =? tx.TxTypeBond); [after_nonce Ha K BondTx_preserves|].
  destruct (_ =? tx.TxTypeUnbond); [after_nonce Ha K UnbondTx_preserves|].
  destruct (_ =? tx.TxTypeFinalizeUnbond); [after_nonce Ha K FinalizeTx_preserves|].
  destruct (_ =? tx.TxTypeClaimRewards); [after_nonce Ha K ClaimTx_preserves|].
  destruct (_ =? tx.TxTypeEquivEvidence); [|by injection Ha as <-]. after_nonce Ha K SlashTx_preserves.
Qed.

Lemma applyTxs_preserves K chainID height baseFee db txs pres st :
  parties K txs -> Forall (fun t => tx.VerifySigsForChain t chainID = Ok tt) txs -> is_u64 height ->
  staking_inv K db -> applyTxs height baseFee db txs pres = Ok st -> staking_inv K (ts_db st).
Proof.
  intros Hp Hsig Hh Hi Ha. unfold applyTxs in Ha.
  apply (foldM_inv _ (fun st => staking_inv K (ts_db st))) in Ha; [done| |done].
  intros s s' [i [t pre]] Hin Hs Happ.
  assert (t ∈ txs) as Ht.
  { apply elem_of_lookup_imap in Hin as (j & [t' pre'] & [= -> -> ->] & Hin).
    apply list_elem_of_lookup_2 in Hin. by apply elem_of_zip_l in Hin. }
  rewrite Forall_forall in Hsig. eapply applyTx_preserves; eauto.
Qed.

Lemma chargeGas_preserves K baseFee fuels db txs db' g :
  parties K txs -> staking_inv K db -> chargeGas baseFee fuels db txs = Ok (db', g) -> staking_inv K db'.
Proof.
  intros [Hesc _ Hsend _] Hi Ha. unfold chargeGas in Ha.
  apply (foldM_inv _ (fun s => staking_inv K (fst s))) in Ha; [done| |done].
  intros [d1 g1] [d2 g2] [i t] Hin Hs Hr. osteps Hr; simplify_eq; [done|]. cbn in *. eapply BurnTx_preserves; eauto.
  intros v Hv. apply Hesc; [done|]. apply Hsend.
  apply elem_of_lookup_imap in Hin as (j & t' & [= -> ->] & Hin). by apply list_elem_of_lookup_2 in Hin.
Qed.

Lemma applyMisses_preserves K db s txs db' s' :
  staking_inv K db -> applyMisses db s txs = Ok (db', s') -> staking_inv K db'.
Proof.
  intros Hi Ha. unfold applyMisses in Ha.
  apply (foldM_inv _ (fun s => staking_inv K (fst s))) in Ha; [done| |done].
  intros [d1 g1] [d2 g2] t _ Hs Hr. destruct (negb _); [by injection Hr as <- <-|].
  apply obind_ok_inv in Hr as ([d3 [n z]] & Hm & Hr). cbn [fst] in *.
  eapply miss_preserves; [exact Hs|exact Hm|]. destruct (z >? 0); [|by injection Hr as <- _].
  apply obind_ok_inv in Hr as (d4 & Hb & Hr). by injection Hr as <- _.
Qed.

Lemma mintRewards_preserves K reward n vs db db' :
  staking_inv K db -> mintRewards db (mint.SplitReward reward n) vs = Ok db' -> staking_inv K db'.
Proof.
  intros Hi Ha. unfold mintRewards in Ha. apply (foldM_inv _ (staking_inv K)) in Ha; [done| |done].
  intros d1 d2 [i z] Hin Hs Hr. osteps Hr; simplify_eq; [done|]. eapply CreditTx_preserves; eauto.
  apply elem_of_lookup_imap in Hin as (j & z' & [= -> ->] & Hin).
  exact (Forall_lookup_1 _ _ _ _ (SplitReward_nonneg reward n) Hin).
Qed.

Lemma same_ledger_preserves K db db' : same_ledger db db' -> staking_inv K db -> staking_inv K db'.
Proof.
  intros (Hb & Hn & Hv & Hc) Hi. eapply frame_preserves; [exact Hi| |done|by rewrite Hc|].
  - destruct Hi as [[Hl1 Hl2] _ _ _ _]. constructor; by rewrite ?Hb, ?Hn.
  - intros v _. unfold ledger.BalanceOfTx. by rewrite Hb.
Qed.

(** Every block, accepted or rejected, keeps the invariant. *)
Lemma tryBlock_preserves K db (a : attempt) :
  parties K (Txs (snd (fst a))) -> staking_inv K db -> staking_inv K (tryBlock db a).
Proof.
  destruct a as [[[ncpu iter] b] chainID]. cbn [fst snd tryBlock]. intros Hp Hi.
  destruct (ApplyBlockForChain ncpu iter db b chainID) as [db' r] eqn:E. cbn [fst].
  destruct (is_Ok r) eqn:Er.
  2:{ pose proof (rejected_unchanged ncpu iter db b chainID) as Hr. rewrite E in Hr. cbn in Hr. by rewrite Hr. }
  destruct r as [r| |]; [|done..]. pose proof (ApplyBlock_signed _ _ _ _ _ _ _ E) as Hsig.
  unfold ApplyBlockForChain in E. destruct (prepareBlock _ _ _ _) as [bc| |] eqn:Hpre; [|done..].
  destruct (Update _ _) as [db0 [[root g]| |]] eqn:Hu; [|done..]. injection E as -> _. apply Update_ok in Hu.
  apply prepareBlock_inv in Hpre as (cur & amounts & _ & Hnext & _ & _ & _ & _ & _ & _ & _ & Hsh & _).
  apply applyBody_inv in Hu as (st & nodes & tr & v & db1 & db2 & s & db3 & db4 & data & Hat & _ & _ & _ & Hcg & Hms & Hmr & Hpm & _ & Hsame & _).
  apply persistMeta_inv in Hpm as (Hs & _). rewrite Hsh in Hmr.
  eapply same_ledger_preserves; [exact Hsame|]. eapply same_ledger_preserves; [exact Hs|].
  eapply mintRewards_preserves; [|exact Hmr]. eapply applyMisses_preserves; [|exact Hms].
  eapply chargeGas_preserves; [exact Hp| |exact Hcg]. eapply applyTxs_preserves; [exact Hp|exact Hsig| |exact Hi|exact Hat].
  rewrite Hnext. by apply Z.mod_pos_bound.
Qed.

(** The transactions of a history. *)
Definition history_txs (attempts : list attempt) : list tx.Tx := attempts ≫= (fun a => Txs (snd (fst a))).

Lemma history_preserves K db attempts :
  parties K (history_txs attempts) -> staking_inv K db -> staking_inv K (foldl tryBlock db attempts).
Proof.
  revert db. induction attempts as [|a attempts IH]; intros db Hp Hi; [done|]. cbn [foldl]. apply IH.
  - eapply parties_sublist; [exact Hp|]. intros t Ht. unfold history_txs in *. cbn. rewrite elem_of_app. by right.
  - apply tryBlock_preserves; [|done]. eapply parties_sublist; [exact Hp|]. intros t Ht. unfold history_txs. cbn.
    rewrite elem_of_app. by left.
Qed.
End Escrow.
