(* ===== verification/Vote.v ===== *)
(** * core/consensus: votes, proposals, attestations and quorums (vote.go)

    Go visits a map in an order of its own; [MapOrder] is that order, and the
    only thing known of it is that every entry is visited once. *)

From S2P Require Import Prelude GoBytes Errors Platform Tx.

Class MapOrder : Type :=
  { map_iter : forall {A : Type}, gmap (arr 32) A -> list (arr 32 * A) }.

Class MapOrderLaws `{MapOrder} : Prop :=
  { map_iter_perm : forall A (m : gmap (arr 32) A), map_iter m ≡ₚ map_to_list m }.

Module vote.

Definition VotePrevote : Z := 1.
Definition VotePrecommit : Z := 2.

Record Vote : Type := mkVote
  { VType : Z;
    VHeight : Z;
    VRound : Z;
    VBlockHash : arr 32;      (* all zeros: a nil vote *)
    VValidatorPK : arr 32;
    VSig : arr 64 }.

#[export] Instance Vote_eq_dec : EqDecision Vote.
Proof. solve_decision. Defined.

Definition Serialize (v : Vote) : bytes :=
  [byte_of_Z (VType v)] ++ put64 (VHeight v) ++ put32 (VRound v) ++ VBlockHash v ++ VValidatorPK v ++ VSig v.

Definition DeserializeVote (data : bytes) : res Vote :=
  if negb (zlen data =? 141) then failf "invalid vote length" else
  let* ty := index data 0 in
  let* h := u64_at data 1 in
  let* r := u32_at data 9 in
  let* bh := slice data 13 45 in
  let* pk := slice data 45 77 in
  let* sg := slice data 77 141 in
  Ok (mkVote (byte_to_Z ty) h r (mk_arr 32 bh) (mk_arr 32 pk) (mk_arr 64 sg)).

Definition chainOrDefault (chainID : bytes) : bytes :=
  if decide (chainID = []) then tx.DefaultChainID else chainID.

Definition VoteSignBytesForChain (v : Vote) (chainID : bytes) : bytes :=
  let chainID := chainOrDefault chainID in
  str "FRG_VOTE_V1" ++ [x00] ++ put16 (wrap16 (zlen chainID)) ++ chainID ++ [byte_of_Z (VType v)] ++
  put64 (VHeight v) ++ put32 (VRound v) ++ VBlockHash v.

Definition VoteSignBytes (v : Vote) : bytes := VoteSignBytesForChain v tx.DefaultChainID.

Record AttestationSet : Type := mkAttestationSet
  { AHeight : Z;
    ARound : Z;
    ABlockHash : arr 32;
    AVotes : list Vote }.

#[export] Instance AttestationSet_eq_dec : EqDecision AttestationSet.
Proof. solve_decision. Defined.

Definition emptyAttestation : AttestationSet := mkAttestationSet 0 0 (zero_arr 32) [].

Record BlockProposal : Type := mkBlockProposal
  { PHeight : Z;
    PRound : Z;
    ProposerPK : arr 32;
    PPrevStateRoot : arr 32;
    PTxs : list tx.Tx;
    PrevAttestations : AttestationSet;
    ProposerSig : arr 64 }.

Definition maxProposalVotes : Z := 4096.
Definition maxProposalTxs : Z := 65536.

Section Codec.
Context `{Platform}.

Definition VerifyVoteForChain (v : Vote) (chainID : bytes) : bool :=
  if negb (VType v =? VotePrevote) && negb (VType v =? VotePrecommit) then false else
  keys.Verify (VValidatorPK v) (VoteSignBytesForChain v chainID) (VSig v).

Definition VerifyVote (v : Vote) : bool := VerifyVoteForChain v tx.DefaultChainID.

(** ** Proposals *)

(** All fields but the signature. *)
Definition serializeProposalBody (p : BlockProposal) : res bytes :=
  let a := PrevAttestations p in
  if zlen (AVotes a) >? maxProposalVotes then failf "proposal vote count exceeds 4096" else
  if zlen (PTxs p) >? maxProposalTxs then failf "proposal transaction count exceeds 65536" else
  let head := put64 (PHeight p) ++ put32 (PRound p) ++ ProposerPK p ++ PPrevStateRoot p ++
    put64 (AHeight a) ++ put32 (ARound a) ++ ABlockHash a ++ put32 (wrap32 (zlen (AVotes a))) ++
    concat (map Serialize (AVotes a)) ++ put32 (wrap32 (zlen (PTxs p))) in
  if zlen (PTxs p) >? 0 then
    let* txBytes := tx.SerializeBatch (PTxs p) in Ok (head ++ txBytes)
  else Ok head.

(** The domain is copied into twelve bytes, which drops its version.  An error of
    the body's encoder is ignored; what is signed then has no body. *)
Definition ProposalSignBytesForChain (p : BlockProposal) (chainID : bytes) : res bytes :=
  let* body := match serializeProposalBody p with
               | Ok body => Ok body
               | Err _ => Ok []
               | Panic => Panic
               end in
  let chainID := chainOrDefault chainID in
  Ok (take 12 (str "FRG_PROPOSAL_V1" ++ [x00]) ++ put16 (wrap16 (zlen chainID)) ++ chainID ++ body).

Definition ProposalSignBytes (p : BlockProposal) : res bytes := ProposalSignBytesForChain p tx.DefaultChainID.

Definition BlockHashForChain (p : BlockProposal) (chainID : bytes) : res (arr 32) :=
  let* b := ProposalSignBytesForChain p chainID in Ok (hash.Hash b).

Definition BlockHash (p : BlockProposal) : res (arr 32) := BlockHashForChain p tx.DefaultChainID.

Definition VerifyProposalForChain (p : BlockProposal) (chainID : bytes) : res bool :=
  let* b := ProposalSignBytesForChain p chainID in Ok (keys.Verify (ProposerPK p) b (ProposerSig p)).

Definition SerializeProposal (p : BlockProposal) : res bytes :=
  let* body := serializeProposalBody p in Ok (ProposerSig p ++ body).

(** [n] votes from position [off]; the votes and the position after them. *)
Fixpoint votesLoop (n : nat) (body : bytes) (off : Z) : res (list Vote * Z) :=
  match n with
  | O => Ok ([], off)
  | S n =>
    if off + 141 >? zlen body then failf "truncated vote" else
    let* raw := slice body off (off + 141) in
    let* v := DeserializeVote raw in
    let* '(vs, off) := votesLoop n body (off + 141) in
    Ok (v :: vs, off)
  end.

Definition proposalTxs (body : bytes) (off : Z) : res (list tx.Tx) :=
  if off + 4 >? zlen body then failf "missing tx count" else
  let* txCount := u32_at body off in
  let off := off + 4 in
  if txCount >? maxProposalTxs then failf "proposal transaction count exceeds 65536" else
  if txCount =? 0 then
    if negb (off =? zlen body) then failf "trailing bytes after empty tx list" else Ok []
  else
    if off >=? zlen body then failf "missing tx batch" else
    let* raw := slice body off (zlen body) in
    let* txs := tx.DeserializeBatch raw in
    if negb (zlen txs =? txCount) then failf "tx count mismatch" else Ok txs.

Definition DeserializeProposal (data : bytes) : res BlockProposal :=
  if zlen data <? 64 + 8 + 4 + 32 + 32 + 8 + 4 + 32 + 4 then failf "proposal too short" else
  let* sig := slice data 0 64 in
  let* body := slice data 64 (zlen data) in
  let* height := u64_at body 0 in
  let* round := u32_at body 8 in
  let* proposer := slice body 12 44 in
  let* prev := slice body 44 76 in
  let* aHeight := u64_at body 76 in
  let* aRound := u32_at body 84 in
  let* aHash := slice body 88 120 in
  let* voteCount := u32_at body 120 in
  if (voteCount >? maxProposalVotes) || (voteCount >? (zlen body - 124) / 141)
  then failf "proposal vote count exceeds payload bounds" else
  let* '(votes, off) := votesLoop (Z.to_nat voteCount) body 124 in
  let* txs := proposalTxs body off in
  Ok (mkBlockProposal height round (mk_arr 32 proposer) (mk_arr 32 prev) txs
        (mkAttestationSet aHeight aRound (mk_arr 32 aHash) votes) (mk_arr 64 sig)).

(** ** Attestations *)

(** The loop over validators: the stake of each and the total. *)
Definition attestationStakes (validators : list (arr 32)) (stakes : list (option Z)) :
    res (gmap (arr 32) Z * Z) :=
  foldM (fun '(m, total) '(i, pk) =>
    let* s := index stakes (Z.of_nat i) in
    match s with
    | None => failf "invalid validator stake"
    | Some s => if s <? 0 then failf "invalid validator stake" else Ok (<[pk := s]> m, total + s)
    end) (∅, 0) (imap (fun i pk => (i, pk)) validators).

(** One vote of the attestation: the validators seen so far and their stake. *)
Definition attestationVote (a : AttestationSet) (stakeMap : gmap (arr 32) Z) (chainID : bytes)
    (acc : gset (arr 32) * Z) (v : Vote) : res (gset (arr 32) * Z) :=
  let '(seen, voted) := acc in
  if negb (VType v =? VotePrecommit) || negb (VHeight v =? AHeight a) || negb (VRound v =? ARound a) ||
     bool_decide (VBlockHash v <> ABlockHash a)
  then failf "attestation vote context mismatch" else
  match stakeMap !! VValidatorPK v with
  | None => failf "attestation contains non-validator vote"
  | Some stake =>
    if bool_decide (VValidatorPK v ∈ seen) then failf "attestation contains duplicate validator vote" else
    if negb (VerifyVoteForChain v chainID) then failf "attestation contains invalid vote signature" else
    Ok ({[VValidatorPK v]} ∪ seen, voted + stake)
  end.

Definition VerifyAttestationForChain (a : option AttestationSet) (validators : list (arr 32))
    (stakes : list (option Z)) (chainID : bytes) : res unit :=
  match a with
  | None => failf "empty attestation set"
  | Some a =>
    if zlen (AVotes a) =? 0 then failf "empty attestation set" else
    if negb (zlen validators =? zlen stakes) then failf "validator and stake sets are misaligned" else
    let* '(stakeMap, totalStake) := attestationStakes validators stakes in
    let* '(_, votedStake) := foldM (attestationVote a stakeMap chainID) (∅, 0) (AVotes a) in
    if (totalStake =? 0) || (votedStake * 3 <=? totalStake * 2)
    then failf "attestation does not reach quorum" else Ok tt
  end.

Definition VerifyAttestation (a : option AttestationSet) (validators : list (arr 32)) (stakes : list (option Z)) : res unit :=
  VerifyAttestationForChain a validators stakes tx.DefaultChainID.
End Codec.

(** ** Quorums *)
Section Quorum.
Context `{MapOrder}.

(** The stake of each validator and the total, the loop [QuorumReached] and
    [quorumBlock] begin with. *)
Definition stakeTable (validators : list (arr 32)) (stakes : list Z) : res (gmap (arr 32) Z * Z) :=
  foldM (fun '(m, total) '(i, pk) =>
    let* s := index stakes (Z.of_nat i) in Ok (<[pk := s]> m, total + s))
    (∅, 0) (imap (fun i pk => (i, pk)) validators).

Definition QuorumReached (voteMap : gmap (arr 32) Vote) (validators : list (arr 32)) (stakes : list Z) : res bool :=
  let* '(stakeMap, totalStake) := stakeTable validators stakes in
  let sumVoted := foldl (fun acc '(pk, _) =>
    match stakeMap !! pk with Some stake => acc + stake | None => acc end) 0 (map_iter voteMap) in
  Ok (sumVoted * 3 >? totalStake * 2).

(** Stake per block hash. *)
Definition tallyVote (stakeMap tally : gmap (arr 32) Z) (v : Vote) : gmap (arr 32) Z :=
  match stakeMap !! VValidatorPK v with
  | Some stake => <[VBlockHash v := default 0 (tally !! VBlockHash v) + stake]> tally
  | None => tally
  end.

Definition tallyVotes (stakeMap : gmap (arr 32) Z) (votes : list Vote) : gmap (arr 32) Z :=
  foldl (tallyVote stakeMap) ∅ votes.

(** The block with more than two thirds of the stake, if any. *)
Definition quorumBlock (votes : gmap (arr 32) Vote) (validators : list (arr 32)) (stakes : list Z) :
    res (option (arr 32)) :=
  let* '(stakeMap, totalStake) := stakeTable validators stakes in
  let tally := tallyVotes stakeMap (map snd (map_iter votes)) in
  Ok (fst <$> List.find (fun '(_, sum) => sum * 3 >? totalStake * 2) (map_iter tally)).

Definition vote_le (a b : Vote) : Prop := bytes_le (VValidatorPK a) (VValidatorPK b).
#[export] Instance vote_le_dec : RelDecision vote_le.
Proof. intros a b. unfold vote_le. apply _. Defined.

Definition attestationFromPrecommits (votes : gmap (arr 32) Vote) (blockHash : arr 32) : AttestationSet :=
  let chosen := List.filter (fun v => (VType v =? VotePrecommit) && bool_decide (VBlockHash v = blockHash))
                  (map snd (map_iter votes)) in
  match merge_sort vote_le chosen with
  | [] => mkAttestationSet 0 0 blockHash []
  | v :: vs => mkAttestationSet (VHeight v) (VRound v) blockHash (v :: vs)
  end.
End Quorum.
End vote.
