(* ===== verification/VoteProofs.v ===== *)
(** * core/consensus: encodings of votes and proposals *)

From S2P Require Import Prelude GoBytes Errors Platform Tx TxProofs BatchProofs KV Staking Mint Contract BlockStore StateMachine.
From S2P Require Import StateMachineProofs BlockProofs Vote.
Import vote.

(** The fields of a Go vote hold their widths. *)
Definition vote_wf (v : Vote) : Prop := is_u8 (VType v) /\ is_u64 (VHeight v) /\ is_u32 (VRound v).

Lemma zlen_Serialize v : zlen (Serialize v) = 141.
Proof. unfold Serialize. rewrite !zlen_app, zlen_one. autorewrite with len. lia. Qed.
#[export] Hint Rewrite zlen_Serialize : len.

Lemma zlen_votes vs : zlen (concat (map Serialize vs)) = 141 * zlen vs.
Proof. induction vs; cbn [map concat]; autorewrite with len; lia. Qed.

Lemma vote_roundtrip v : vote_wf v -> DeserializeVote (Serialize v) = Ok v.
Proof.
  intros (Ht & Hh & Hr). unfold DeserializeVote. rewrite zlen_Serialize. if_step.
  assert (Serialize v = concat [[byte_of_Z (VType v)]; be_enc 8 (VHeight v); be_enc 4 (VRound v);
            arr_bytes (VBlockHash v); arr_bytes (VValidatorPK v); arr_bytes (VSig v)]) as ->
    by (cbn [concat]; by rewrite app_nil_r).
  unfold is_u8, is_u64, is_u32, u64_at, u32_at in *. repeat rd_step.
  rewrite !mk_arr_bytes, byte_to_of_Z. unfold two8 in *. rewrite Z.mod_small by lia. by destruct v.
Qed.

Lemma DeserializeVote_wf d v : DeserializeVote d = Ok v -> vote_wf v.
Proof.
  unfold DeserializeVote. intros Hd. osteps Hd. simplify_eq. unfold vote_wf. cbn.
  apply be_at_range in E1, E2. split_and!; [|done..]. unfold is_u8, two8. apply byte_to_Z_range.
Qed.

(** ** Votes as evidence *)
Definition toEvidence (v : Vote) : statemachine.evidenceVote :=
  statemachine.mkEvidenceVote (VType v) (VHeight v) (VRound v) (VBlockHash v) (VValidatorPK v) (VSig v).

Lemma evidence_decoder d :
  statemachine.deserializeEvidenceVote d =
  match DeserializeVote d with
  | Ok v => Ok (toEvidence v)
  | Err _ => fail ErrCanonicalEncodingDistortion
  | Panic => Panic
  end.
Proof.
  unfold statemachine.deserializeEvidenceVote, DeserializeVote. destruct (negb (zlen d =? 141)); [done|].
  unfold u64_at, u32_at, be_at, index, slice.
  repeat (match goal with
          | |- context [if ?b then _ else _] => destruct b
          | |- context [d !! ?i] => destruct (d !! i)
          end; cbn [obind]; try done).
Qed.

Lemma evidence_verifier `{Platform} v chainID :
  statemachine.verifyEvidenceVote (toEvidence v) chainID = VerifyVoteForChain v chainID.
Proof. done. Qed.

Lemma sign_bytes_message v chainID :
  VoteSignBytesForChain v chainID =
  statemachine.voteMessage (chainOf chainID) (VType v) (VHeight v) (VRound v) (VBlockHash v).
Proof. done. Qed.

(** ** Proposals *)
Definition proposal_wf (p : BlockProposal) : Prop :=
  is_u64 (PHeight p) /\ is_u32 (PRound p) /\ is_u64 (AHeight (PrevAttestations p)) /\
  is_u32 (ARound (PrevAttestations p)) /\ Forall vote_wf (AVotes (PrevAttestations p)) /\ Forall tx.wf (PTxs p).

(** A proposal with its transactions as a reader sees them. *)
Definition canonProposal `{Platform} (p : BlockProposal) : BlockProposal :=
  mkBlockProposal (PHeight p) (PRound p) (ProposerPK p) (PPrevStateRoot p) (map canon (PTxs p))
    (PrevAttestations p) (ProposerSig p).

Section Proposal.
Context `{PlatformLaws}.

Lemma votesLoop_read vs (pre post : bytes) :
  Forall vote_wf vs ->
  votesLoop (length vs) (pre ++ concat (map Serialize vs) ++ post) (zlen pre) =
  Ok (vs, zlen pre + 141 * zlen vs).
Proof.
  intros Hw. revert pre. induction Hw as [|v vs Hv Hw IH]; intros pre; cbn [length votesLoop map concat].
  - rewrite (@zlen_nil Vote). do 2 f_equal. lia.
  - set (rest := concat (map Serialize vs) ++ post). pose proof (zlen_nonneg rest).
    rewrite <- app_assoc. fold rest.
    assert (zlen (pre ++ Serialize v ++ rest) = zlen pre + (141 + zlen rest)) as HL by (autorewrite with len; lia).
    rewrite HL. if_step. rewrite slice_app by (autorewrite with len; lia). cbn [obind].
    rewrite vote_roundtrip by done. cbn [obind].
    specialize (IH (pre ++ Serialize v)). rewrite <- app_assoc in IH. fold rest in IH.
    rewrite zlen_app, zlen_Serialize in IH. rewrite IH. cbn [obind]. do 2 f_equal. rewrite zlen_cons. lia.
Qed.

Definition txsField (txs : list tx.Tx) (batch : bytes) : Prop :=
  (txs = [] /\ batch = []) \/ (txs <> [] /\ tx.SerializeBatch txs = Ok batch).

(** A list of the full 65536 transactions is written, and never read again. *)
Lemma proposalTxs_read txs batch (pre : bytes) :
  Forall tx.wf txs -> zlen txs <= tx.maxBatchTxs -> txsField txs batch ->
  proposalTxs (pre ++ put32 (zlen txs) ++ batch) (zlen pre) =
    if zlen txs =? tx.maxBatchTxs then fail ErrCanonicalEncodingDistortion else Ok (map canon txs).
Proof.
  intros Hw Hn Hb. unfold proposalTxs, u32_at, put32. pose proof (zlen_nonneg batch). pose proof (zlen_nonneg txs).
  unfold tx.maxBatchTxs, maxProposalTxs in *. autorewrite with len. if_step.
  rewrite be_at_app by lia. cbn [obind]. if_step.
  destruct Hb as [[-> ->]|[Hne Hb]].
  - rewrite zlen_nil. if_step. by if_step.
  - assert (0 < zlen batch).
    { unfold tx.SerializeBatch in Hb. osteps Hb. apply foldM_appendTx in Hb as (bs & _ & -> & _).
      rewrite !zlen_app. change (zlen hash.DomainTxBatch) with 12. pose proof (zlen_nonneg (put16 (wrap16 (zlen txs)))).
      pose proof (zlen_nonneg (concat (map frame bs))). lia. }
    assert (0 < zlen txs) by (destruct txs; [done|]; rewrite zlen_cons; pose proof (zlen_nonneg txs); lia).
    if_step. rewrite Z.geb_leb. rewrite (proj2 (Z.leb_gt _ _)) by lia.
    rewrite app_assoc, slice_suffix by (autorewrite with len; lia). cbn [obind].
    destruct (zlen txs =? 65536) eqn:En; bsimp; [by rewrite (full_batch_lost txs batch)|].
    rewrite (batch_roundtrip txs batch) by (done || unfold tx.maxBatchTxs; lia). cbn [obind].
    replace (zlen (map canon txs)) with (zlen txs) by (unfold zlen; by rewrite length_map). by if_step.
Qed.

Lemma serializeProposalBody_inv p d :
  serializeProposalBody p = Ok d ->
  exists batch, txsField (PTxs p) batch /\ zlen (AVotes (PrevAttestations p)) <= maxProposalVotes /\
    zlen (PTxs p) <= maxProposalTxs /\
    d = concat [be_enc 8 (PHeight p); be_enc 4 (PRound p); arr_bytes (ProposerPK p); arr_bytes (PPrevStateRoot p);
      be_enc 8 (AHeight (PrevAttestations p)); be_enc 4 (ARound (PrevAttestations p));
      arr_bytes (ABlockHash (PrevAttestations p)); be_enc 4 (zlen (AVotes (PrevAttestations p)));
      concat (map Serialize (AVotes (PrevAttestations p))) ++ put32 (zlen (PTxs p)) ++ batch].
Proof.
  unfold serializeProposalBody. intros Hs.
  pose proof (zlen_nonneg (AVotes (PrevAttestations p))). pose proof (zlen_nonneg (PTxs p)).
  do 2 ostep_in Hs. bsimp. unfold maxProposalVotes, maxProposalTxs in *.
  unfold wrap32 in Hs. rewrite !Z.mod_small in Hs by (unfold two32; lia).
  ostep_in Hs; bsimp.
  - apply obind_ok_inv in Hs as (batch & Hb & <-%Ok_inj). exists batch. split_and!; [|done..|].
    + right. split; [|done]. intros Hnil. rewrite Hnil, zlen_nil in *. lia.
    + cbn [concat]. by rewrite app_nil_r, <- !app_assoc.
  - apply Ok_inj in Hs as <-. exists []. assert (PTxs p = []) as Hnil.
    { destruct (PTxs p); [done|]. rewrite zlen_cons in *. pose proof (zlen_nonneg l). lia. }
    split_and!; try done; [by left|]. cbn [concat]. by rewrite !app_nil_r, <- ?app_assoc.
Qed.

Definition fullProposal (p : BlockProposal) : bool := zlen (PTxs p) =? tx.maxBatchTxs.

Lemma proposal_read p d :
  proposal_wf p -> SerializeProposal p = Ok d ->
  DeserializeProposal d = if fullProposal p then fail ErrCanonicalEncodingDistortion else Ok (canonProposal p).
Proof.
  intros (Hh & Hr & Hah & Har & Hv & Ht) Hs. unfold SerializeProposal in Hs.
  apply obind_ok_inv in Hs as (body & Hb & <-%Ok_inj).
  apply serializeProposalBody_inv in Hb as (batch & Hbatch & Hvn & Hn & ->). unfold fullProposal.
  destruct p as [ph pr pk prev txs [ah ar abh vs] sig].
  cbn [PHeight PRound ProposerPK PPrevStateRoot PTxs PrevAttestations ProposerSig AHeight ARound ABlockHash AVotes] in *.
  unfold is_u64, is_u32, maxProposalVotes in *.
  pose proof (zlen_nonneg vs). pose proof (zlen_nonneg txs). pose proof (zlen_nonneg batch).
  set (tail := concat (map Serialize vs) ++ put32 (zlen txs) ++ batch).
  assert (zlen tail = 141 * zlen vs + (4 + zlen batch)) as HT.
  { subst tail. rewrite !zlen_app, zlen_votes, zlen_put32. done. }
  set (fields := [be_enc 8 ph; be_enc 4 pr; arr_bytes pk; arr_bytes prev; be_enc 8 ah; be_enc 4 ar; arr_bytes abh;
    be_enc 4 (zlen vs); tail]).
  assert (zlen (concat fields) = 124 + zlen tail) as HF by (subst fields; rewrite zlen_concat; len_solve).
  unfold DeserializeProposal. rewrite zlen_app, HF. autorewrite with len. if_step.
  pose proof (slice_app (E := error) [] sig (concat fields) 0 64 eq_refl) as S0. cbn [app] in S0.
  rewrite S0 by (autorewrite with len; lia). cbn [obind].
  rewrite slice_suffix by (autorewrite with len; lia). cbn [obind]. rewrite HF.
  unfold u64_at, u32_at. unfold fields at 1 2 3 4 5 6 7 8. repeat rd_step. 
  assert (zlen vs <= (124 + zlen tail - 124) / 141) by (apply Z.div_le_lower_bound; lia).
  replace ((zlen vs >? maxProposalVotes) || (zlen vs >? (124 + zlen tail - 124) / 141)) with false
    by (symmetry; apply orb_false_iff; rewrite !Z.gtb_ltb, !Z.ltb_ge; unfold maxProposalVotes; lia).
  replace (Z.to_nat (zlen vs)) with (length vs) by (unfold zlen; lia).
  set (pre := concat [be_enc 8 ph; be_enc 4 pr; arr_bytes pk; arr_bytes prev; be_enc 8 ah; be_enc 4 ar; arr_bytes abh;
    be_enc 4 (zlen vs)]).
  assert (zlen pre = 124) as HP by (subst pre; rewrite zlen_concat; len_solve).
  assert (concat fields = pre ++ tail) as HC.
  { subst fields pre. cbn [concat]. by rewrite !app_nil_r, <- !app_assoc. }
  rewrite HC. subst tail. pose proof (votesLoop_read vs pre (put32 (zlen txs) ++ batch) Hv) as HV.
  rewrite HP in HV. rewrite HV. cbn [obind]. rewrite app_assoc.
  pose proof (proposalTxs_read txs batch (pre ++ concat (map Serialize vs)) Ht Hn Hbatch) as HX.
  rewrite zlen_app, HP, zlen_votes in HX. rewrite HX. destruct (_ =? _); [done|]. cbn [obind]. by rewrite !mk_arr_bytes.
Qed.

Lemma proposal_roundtrip p d :
  proposal_wf p -> zlen (PTxs p) < tx.maxBatchTxs -> SerializeProposal p = Ok d ->
  DeserializeProposal d = Ok (canonProposal p).
Proof.
  intros Hw Hn Hs. rewrite (proposal_read p d Hw Hs). unfold fullProposal. by rewrite (proj2 (Z.eqb_neq _ _)) by lia.
Qed.

(** What is read off the wire has fields of their widths. *)
Lemma votesLoop_wf n body off vs off' : votesLoop n body off = Ok (vs, off') -> Forall vote_wf vs.
Proof.
  revert off vs off'. induction n as [|n IH]; intros off vs off' Hv; cbn [votesLoop] in Hv; [by simplify_eq|].
  osteps Hv. simplify_eq. constructor; [by eapply DeserializeVote_wf|by eapply IH].
Qed.

Lemma DeserializeTx_wf d t : tx.Deserialize d = Ok t -> tx.wf t.
Proof.
  unfold tx.Deserialize. intros Hd. osteps Hd. simplify_eq. unfold u16_at, u32_at, u64_at in *.
  repeat match goal with Hb : be_at _ _ _ = Ok _ |- _ => apply be_at_range in Hb end.
  constructor; cbn; try done. apply byte_to_Z_range.
Qed.

Lemma batchLoop_wf n d pos txs pos' : tx.batchLoop n d pos = Ok (txs, pos') -> Forall tx.wf txs.
Proof.
  revert pos txs pos'. induction n as [|n IH]; intros pos txs pos' Hb; cbn [tx.batchLoop] in Hb; [by simplify_eq|].
  osteps Hb. simplify_eq. constructor; [by eapply DeserializeTx_wf|by eapply IH].
Qed.

Lemma proposalTxs_wf body off txs : proposalTxs body off = Ok txs -> Forall tx.wf txs.
Proof.
  unfold proposalTxs. intros Hp. osteps Hp; simplify_eq; [constructor|].
  match goal with Hb : tx.DeserializeBatch _ = Ok _ |- _ => unfold tx.DeserializeBatch in Hb; osteps Hb end.
  simplify_eq. by eapply batchLoop_wf.
Qed.

Lemma DeserializeProposal_wf d p : DeserializeProposal d = Ok p -> proposal_wf p.
Proof.
  unfold DeserializeProposal. intros Hd. osteps Hd. simplify_eq. unfold u32_at, u64_at in *.
  repeat match goal with Hb : be_at _ _ _ = Ok _ |- _ => apply be_at_range in Hb end.
  split_and!; cbn; try done; [by eapply votesLoop_wf|by eapply proposalTxs_wf].
Qed.
End Proposal.

(** ** Signing a proposal never fails *)
Section Signing.
Context `{Platform}.

Lemma SerializeBatch_no_panic txs : tx.SerializeBatch txs <> Panic.
Proof.
  unfold tx.SerializeBatch. case_match; [done|]. case_match; [done|]. clear.
  generalize (hash.DomainTxBatch ++ put16 (wrap16 (zlen txs))). induction txs as [|t txs IH]; intros buf; [done|].
  cbn [foldM]. assert (tx.appendTx buf t <> Panic) as Ha.
  { unfold tx.appendTx. pose proof (Serialize_no_panic t). destruct (tx.Serialize t); cbn [obind]; [|done..].
    by repeat case_match. }
  destruct (tx.appendTx buf t); [apply IH|done..].
Qed.

Lemma body_no_panic p : serializeProposalBody p <> Panic.
Proof.
  unfold serializeProposalBody. repeat case_match; try done.
  pose proof (SerializeBatch_no_panic (PTxs p)). by destruct (tx.SerializeBatch _).
Qed.

Lemma sign_bytes_total p chainID : exists b, ProposalSignBytesForChain p chainID = Ok b.
Proof.
  unfold ProposalSignBytesForChain. pose proof (body_no_panic p).
  destruct (serializeProposalBody p); cbn [obind]; [eauto..|done].
Qed.

(** Proposals survive the wire: what [SerializeProposal] accepts, [DeserializeProposal]
    reads back with every field, the previous attestation included, and the
    transactions in canonical form, if there are fewer than 65536 of them. *)
Theorem DeserializeProposal_SerializeProposal `{!PlatformLaws} p d :
  proposal_wf p -> zlen (PTxs p) < tx.maxBatchTxs -> SerializeProposal p = Ok d ->
  DeserializeProposal d = Ok (canonProposal p).
Proof. apply proposal_roundtrip. Qed.

Lemma block_hash_total p chainID : exists h, BlockHashForChain p chainID = Ok h.
Proof. unfold BlockHashForChain. destruct (sign_bytes_total p chainID) as [b ->]. cbn. eauto. Qed.
End Signing.
