(* ===== verification/QuorumProofs.v ===== *)
(** * core/consensus: quorums and attestations

    Stake is a weight on sets of validators.  Two sets that each carry more
    than two thirds of the stake share more than a third of it; what the
    engine and the slashing rules need follows from that. *)

From S2P Require Import Prelude GoBytes Errors Platform Tx KV Staking Mint Contract BlockStore StateMachine StateMachineProofs BlockProofs Vote.
From S2P Require Import VoteProofs.
Import vote.

(** ** Weights *)
Section Weight.
Implicit Types (m : gmap (arr 32) Z) (S : gset (arr 32)).

Definition stakeIn m (pk : arr 32) : Z := default 0 (m !! pk).
Definition wt m S : Z := sumZ (map (stakeIn m) (elements S)).

Lemma wt_disjoint m S1 S2 : S1 ## S2 -> wt m (S1 ∪ S2) = wt m S1 + wt m S2.
Proof. intros Hd. unfold wt. by rewrite elements_disj_union, map_app, sumZ_app by done. Qed.

Lemma wt_empty m : wt m ∅ = 0.
Proof. unfold wt. by rewrite elements_empty. Qed.

Lemma wt_singleton m pk : wt m {[pk]} = stakeIn m pk.
Proof. unfold wt. rewrite elements_singleton. cbn. lia. Qed.

Lemma wt_ext m m' S : (forall k, k ∈ S -> stakeIn m k = stakeIn m' k) -> wt m S = wt m' S.
Proof.
  intros Hk. unfold wt. f_equal. apply map_ext_in. intros k Hin. apply Hk.
  by apply elem_of_elements, list_elem_of_In.
Qed.

Lemma wt_union m S1 S2 : wt m (S1 ∪ S2) + wt m (S1 ∩ S2) = wt m S1 + wt m S2.
Proof.
  assert (wt m S2 = wt m (S1 ∩ S2) + wt m (S2 ∖ S1)) as ->.
  { rewrite <- wt_disjoint by set_solver. f_equal. apply set_eq. intros k. destruct (decide (k ∈ S1)); set_solver. }
  assert (S1 ∪ S2 = S1 ∪ S2 ∖ S1) as ->.
  { apply set_eq. intros k. destruct (decide (k ∈ S1)); set_solver. }
  rewrite wt_disjoint by set_solver. lia.
Qed.

(** What the loops over the validators compute. *)
Definition table_ok m (total : Z) : Prop :=
  (forall k, 0 <= stakeIn m k) /\ forall S, wt m S <= total.

Lemma table_nil : table_ok ∅ 0.
Proof.
  split; [done|]. intros S. unfold wt. induction (elements S) as [|k l IH]; [done|]. exact IH.
Qed.

Lemma wt_insert_le m pk s S : (forall k, 0 <= stakeIn m k) -> 0 <= s -> wt (<[pk := s]> m) S <= wt m S + s.
Proof.
  intros Hm Hs. assert (forall k, k <> pk -> stakeIn (<[pk:=s]> m) k = stakeIn m k) as Hne
    by (intros k Hk; unfold stakeIn; by rewrite lookup_insert_ne).
  destruct (decide (pk ∈ S)) as [Hin|Hout].
  - rewrite (union_difference_L {[pk]} S) by set_solver. rewrite !wt_disjoint by set_solver.
    rewrite !wt_singleton. unfold stakeIn at 1. rewrite lookup_insert_eq. cbn.
    rewrite (wt_ext _ m (S ∖ {[pk]})) by set_solver. pose proof (Hm pk). lia.
  - rewrite (wt_ext _ m S) by set_solver. lia.
Qed.

Lemma table_insert m total pk s : 0 <= s -> table_ok m total -> table_ok (<[pk := s]> m) (total + s).
Proof.
  intros Hs [Hm Ht]. split.
  - intros k. unfold stakeIn. destruct (decide (k = pk)) as [->|Hk].
    + by rewrite lookup_insert_eq.
    + rewrite lookup_insert_ne by done. apply Hm.
  - intros S. pose proof (wt_insert_le m pk s S Hm Hs). pose proof (Ht S). lia.
Qed.

Lemma wt_nonneg m total S : table_ok m total -> 0 <= wt m S.
Proof. intros [Hm _]. unfold wt. apply sumZ_nonneg, Forall_forall. intros z (k & -> & _)%list_elem_of_fmap. apply Hm. Qed.

Lemma wt_mono m total S1 S2 : table_ok m total -> S1 ⊆ S2 -> wt m S1 <= wt m S2.
Proof.
  intros Ht Hsub. rewrite (union_difference_L S1 S2) by done. rewrite wt_disjoint by set_solver.
  pose proof (wt_nonneg m total (S2 ∖ S1) Ht). lia.
Qed.

(** More than two thirds of the stake. *)
Definition quorum m (total : Z) S : Prop := total * 2 < wt m S * 3.

#[export] Instance quorum_dec m total S : Decision (quorum m total S).
Proof. unfold quorum. apply _. Defined.

Lemma quorums_share m total S1 S2 :
  table_ok m total -> quorum m total S1 -> quorum m total S2 -> wt m (S1 ∩ S2) * 3 > total.
Proof.
  intros [_ Ht] H1 H2. pose proof (wt_union m S1 S2). pose proof (Ht (S1 ∪ S2)). unfold quorum in *. lia.
Qed.

Lemma quorums_meet m total S1 S2 :
  table_ok m total -> quorum m total S1 -> quorum m total S2 -> S1 ∩ S2 <> ∅.
Proof.
  intros Hok H1 H2 He. pose proof (quorums_share m total S1 S2 Hok H1 H2) as Hs.
  rewrite He, wt_empty in Hs. destruct Hok as [_ Ht]. pose proof (Ht ∅). rewrite wt_empty in *. lia.
Qed.
End Weight.

(** ** Stake tables *)
Lemma imap_pair_app {A} (l : list A) a :
  imap (fun i x => (i, x)) (l ++ [a]) = imap (fun i x => (i, x)) l ++ [(length l, a)].
Proof. rewrite imap_app. cbn. by rewrite Nat.add_0_r. Qed.

Lemma index_some {E A} (l : list A) i a : index (E := E) l (Z.of_nat i) = Ok a <-> l !! i = Some a.
Proof.
  unfold index. rewrite (proj2 (Z.leb_le 0 _)) by lia. rewrite Nat2Z.id. destruct (l !! i); naive_solver.
Qed.

Lemma index_none {E A} (l : list A) i : l !! i = None -> index (E := E) l (Z.of_nat i) = Panic.
Proof. intros Hl. unfold index. rewrite (proj2 (Z.leb_le 0 _)) by lia. by rewrite Nat2Z.id, Hl. Qed.

Lemma attestationStakes_ok validators stakes m total :
  attestationStakes validators stakes = Ok (m, total) ->
  table_ok m total /\ dom m = list_to_set validators.
Proof.
  unfold attestationStakes. revert m total. induction validators as [|pk l IH] using rev_ind; intros m total Hf.
  { cbn in Hf. simplify_eq. split; [apply table_nil|set_solver]. }
  rewrite imap_pair_app, foldM_app in Hf. apply obind_ok_inv in Hf as ([m0 t0] & H0 & Hf).
  destruct (IH _ _ H0) as [Hok Hd]. cbn [foldM] in Hf.
  apply obind_ok_inv in Hf as (r & Hf & [= ->]). osteps Hf. bsimp. simplify_eq. split.
  - by apply table_insert.
  - rewrite dom_insert_L, Hd, list_to_set_app_L, (comm_L (∪)). cbn. by rewrite (right_id_L ∅ (∪)).
Qed.

Lemma attestationStakes_some validators stakes :
  Forall (fun s => 0 <= s) stakes ->
  attestationStakes validators (map Some stakes) = stakeTable validators stakes.
Proof.
  intros Hs. unfold attestationStakes, stakeTable. generalize (@pair (gmap (arr 32) Z) Z ∅ 0).
  induction (imap (fun i x => (i, x)) validators) as [|[i pk] l IH]; intros [m t]; [done|].
  cbn [foldM]. destruct (stakes !! i) as [s|] eqn:E.
  - rewrite (proj2 (index_some (map Some stakes) i (Some s))), (proj2 (index_some stakes i s) E)
      by (change (map Some stakes) with (Some <$> stakes); by rewrite list_lookup_fmap, E).
    cbn [obind]. rewrite (proj2 (Z.ltb_ge s 0)) by (eapply Forall_lookup_1 in E; eauto). apply IH.
  - rewrite !index_none; [done|done|]. change (map Some stakes) with (Some <$> stakes). by rewrite list_lookup_fmap, E.
Qed.

Lemma stakeTable_ok validators stakes m total :
  Forall (fun s => 0 <= s) stakes -> stakeTable validators stakes = Ok (m, total) ->
  table_ok m total /\ dom m = list_to_set validators.
Proof. intros Hs. rewrite <- attestationStakes_some by done. apply attestationStakes_ok. Qed.

Lemma stakeTable_total validators stakes :
  zlen validators = zlen stakes -> exists m total, stakeTable validators stakes = Ok (m, total).
Proof.
  unfold stakeTable, zlen. intros Hl. assert (length validators <= length stakes)%nat as Hle by lia. clear Hl.
  induction validators as [|pk l IH] using rev_ind; [by exists ∅, 0|].
  rewrite length_app in Hle. cbn in Hle. destruct IH as (m & t & H0); [lia|].
  destruct (lookup_lt_is_Some_2 stakes (length l)) as [s Hs]; [lia|].
  rewrite imap_pair_app, foldM_app, H0. cbn [obind foldM]. rewrite (proj2 (index_some _ _ _) Hs). cbn [obind]. eauto.
Qed.

(** ** Attestations *)
Section Attestation.
Context `{Platform}.

Definition voters (vs : list Vote) : gset (arr 32) := list_to_set (map VValidatorPK vs).

(** A vote that belongs to the attestation. *)
Definition vote_attests (a : AttestationSet) (chainID : bytes) (v : Vote) : Prop :=
  VType v = VotePrecommit /\ VHeight v = AHeight a /\ VRound v = ARound a /\ VBlockHash v = ABlockHash a /\
  VerifyVoteForChain v chainID = true.

Lemma attestationVote_ok a m chainID seen voted v acc :
  attestationVote a m chainID (seen, voted) v = Ok acc <->
  vote_attests a chainID v /\ is_Some (m !! VValidatorPK v) /\ (VValidatorPK v ∉ seen) /\
  acc = ({[VValidatorPK v]} ∪ seen, voted + stakeIn m (VValidatorPK v)).
Proof.
  unfold attestationVote, vote_attests, stakeIn. split.
  - intros Hv. osteps Hv. bsimp. cbn. simplify_eq. split_and!; eauto.
  - intros ((-> & -> & -> & -> & Hsig) & [s Hs] & Hseen & ->). rewrite !Z.eqb_refl, Hs.
    rewrite !bool_decide_eq_false_2 by tauto. by rewrite Hsig.
Qed.

Lemma seen_step (pk : arr 32) (V seen : gset (arr 32)) :
  ((pk ∉ seen) /\ V ## {[pk]} ∪ seen <-> (pk ∉ V) /\ {[pk]} ∪ V ## seen) /\
  V ∪ ({[pk]} ∪ seen) = {[pk]} ∪ V ∪ seen.
Proof. split; [set_solver|]. by rewrite (assoc_L (∪)), (comm_L (∪) V). Qed.

Lemma attestationVotes_ok a m chainID vs seen voted acc :
  foldM (attestationVote a m chainID) (seen, voted) vs = Ok acc <->
  Forall (vote_attests a chainID) vs /\ Forall (fun v => is_Some (m !! VValidatorPK v)) vs /\
  NoDup (map VValidatorPK vs) /\ voters vs ## seen /\
  acc = (voters vs ∪ seen, voted + wt m (voters vs)).
Proof.
  revert seen voted. induction vs as [|v vs IH]; intros seen voted; cbn [foldM].
  { unfold voters. cbn. rewrite wt_empty, Z.add_0_r, (left_id_L ∅ (∪)). split; [intros [= <-]|intros (_ & _ & _ & _ & ->)].
    - split_and!; try constructor; try set_solver.
    - done. }
  unfold voters. cbn [map list_to_set]. fold (voters vs).
  assert (VValidatorPK v ∉ voters vs <-> VValidatorPK v ∉ map VValidatorPK vs) as Hnv
    by (unfold voters; by rewrite elem_of_list_to_set).
  pose proof (seen_step (VValidatorPK v) (voters vs) seen) as [Hstep Hun].
  assert (VValidatorPK v ∉ voters vs ->
    wt m ({[VValidatorPK v]} ∪ voters vs) = stakeIn m (VValidatorPK v) + wt m (voters vs)) as Hwt.
  { intros Hn. rewrite wt_disjoint, wt_singleton by by apply disjoint_singleton_l. done. }
  rewrite <- Hun. split.
  - intros (acc1 & Hv & Hf)%obind_ok_inv. apply attestationVote_ok in Hv as (Ha & Hin & Hnew & ->).
    apply IH in Hf as (Has & Hins & Hnd & Hd & ->).
    destruct (proj1 Hstep (conj Hnew Hd)) as [Hn Hd']. rewrite Hwt by done.
    split_and!; [by constructor..|constructor; tauto|done|]. f_equal. lia.
  - intros (Has & Hins & Hnd & Hd & ->). inversion Has; inversion Hins; inversion Hnd; subst.
    assert (VValidatorPK v ∉ voters vs) as Hn by tauto. destruct (proj2 Hstep (conj Hn Hd)) as [Hnew Hd'].
    rewrite (proj2 (attestationVote_ok a m chainID seen voted v _)) by (split_and!; [done..|reflexivity]).
    cbn [obind]. apply IH. rewrite Hwt by done. split_and!; try done. f_equal. lia.
Qed.

(** The meaning of an accepted attestation. *)
Record attested (a : AttestationSet) (validators : list (arr 32)) (chainID : bytes)
    (m : gmap (arr 32) Z) (total : Z) : Prop :=
  { att_table : table_ok m total;
    att_votes : Forall (vote_attests a chainID) (AVotes a);
    att_nodup : NoDup (map VValidatorPK (AVotes a));
    att_members : forall pk, pk ∈ voters (AVotes a) -> pk ∈ validators;
    att_quorum : quorum m total (voters (AVotes a)) }.

Lemma VerifyAttestation_attested a validators stakes chainID :
  VerifyAttestationForChain (Some a) validators stakes chainID = Ok tt ->
  exists m total, attestationStakes validators stakes = Ok (m, total) /\ attested a validators chainID m total.
Proof.
  unfold VerifyAttestationForChain. intros Hv. osteps Hv. bsimp.
  match goal with Hs : attestationStakes _ _ = Ok (?m, ?t), Hf : foldM _ _ _ = Ok _ |- _ =>
    exists m, t; split; [done|]; destruct (attestationStakes_ok _ _ _ _ Hs) as [Hok Hd];
    apply attestationVotes_ok in Hf as (Ha & Hin & Hnd & _ & [= -> ->]) end.
  constructor; try done. clear -Hin Hd.
  intros pk Hpk. unfold voters in Hpk. apply elem_of_list_to_set, list_elem_of_fmap in Hpk as (v & -> & Hvin).
  rewrite Forall_forall in Hin. specialize (Hin v Hvin). cbv beta in Hin.
  apply elem_of_dom in Hin. rewrite Hd in Hin. by apply elem_of_list_to_set in Hin.
Qed.

Lemma VerifyAttestation_complete a validators stakes chainID m total :
  Forall (fun s => 0 <= s) stakes -> zlen validators = zlen stakes -> stakeTable validators stakes = Ok (m, total) ->
  Forall (vote_attests a chainID) (AVotes a) -> Forall (fun v => is_Some (m !! VValidatorPK v)) (AVotes a) ->
  NoDup (map VValidatorPK (AVotes a)) -> quorum m total (voters (AVotes a)) ->
  VerifyAttestationForChain (Some a) validators (map Some stakes) chainID = Ok tt.
Proof.
  intros Hs Hl Ht Ha Hin Hnd Hq. destruct (stakeTable_ok _ _ _ _ Hs Ht) as [Hok _].
  unfold VerifyAttestationForChain.
  replace (zlen (map Some stakes)) with (zlen validators) by (rewrite Hl; unfold zlen; by rewrite length_map).
  rewrite Z.eqb_refl. cbn [negb]. rewrite attestationStakes_some, Ht by done. cbn [obind].
  destruct (Z.eqb_spec (zlen (AVotes a)) 0) as [E|E].
  { destruct (AVotes a); [|rewrite zlen_cons in E; pose proof (zlen_nonneg l); lia].
    unfold quorum, voters in Hq. cbn in Hq. rewrite wt_empty in Hq. destruct Hok as [_ Ho].
    specialize (Ho ∅). rewrite wt_empty in Ho. lia. }
  rewrite (proj2 (attestationVotes_ok a m chainID (AVotes a) ∅ 0 _)) by (split_and!; [done..|apply disjoint_empty_r|reflexivity]).
  cbn [obind]. unfold quorum in Hq. destruct Hok as [_ Ho]. pose proof (Ho (voters (AVotes a))).
  rewrite (proj2 (Z.eqb_neq total 0)) by lia. cbn [orb]. rewrite Z.add_0_l.
  by rewrite (proj2 (Z.leb_gt _ _)) by lia.
Qed.
End Attestation.

(** ** Accountability *)
Section Accountability.
Context `{Platform}.

(** A transaction that carries two votes as evidence, and nothing else that the
    check looks at. *)
Definition carries_evidence (t : tx.Tx) (va vb : Vote) : Prop :=
  tx.EvidenceA t = Serialize va /\ tx.EvidenceB t = Serialize vb /\ statemachine.hasMissFields t = false /\
  tx.WasmBytes t = [] /\ tx.InitArgs t = [] /\ tx.CallData t = [].

(** Two valid votes of one validator for different blocks in one slot are evidence. *)
Lemma evidence_accepted t va vb chainID :
  vote_wf va -> vote_wf vb -> carries_evidence t va vb ->
  VerifyVoteForChain va chainID = true -> VerifyVoteForChain vb chainID = true ->
  VValidatorPK va = VValidatorPK vb -> VType va = VType vb -> VHeight va = VHeight vb -> VRound va = VRound vb ->
  VBlockHash va <> VBlockHash vb -> VBlockHash va <> zero_arr 32 -> VBlockHash vb <> zero_arr 32 ->
  statemachine.validateEquivocationEvidenceTx t chainID = Ok (VValidatorPK va).
Proof.
  intros Hwa Hwb (Ea & Eb & Hm & Hw & Hi & Hc) Ha Hb Hpk Hty Hh Hr Hne Hz1 Hz2.
  unfold statemachine.validateEquivocationEvidenceTx. rewrite Hm, Hw, Hi, Hc, Ea, Eb. cbn [orb negb].
  rewrite !evidence_decoder, !vote_roundtrip by done. cbn -[statemachine.verifyEvidenceVote zero_arr].
  rewrite !evidence_verifier, Ha, Hb, Hpk, Hty, Hh, Hr, !Z.eqb_refl. cbn [orb negb].
  by rewrite !bool_decide_eq_false_2 by tauto.
Qed.

Lemma voters_In pk vs : pk ∈ voters vs <-> exists v, v ∈ vs /\ VValidatorPK v = pk.
Proof.
  unfold voters. rewrite elem_of_list_to_set, list_elem_of_fmap. split; intros (v & ? & ?); exists v; auto.
Qed.

(** C5.  Accountable safety.  Suppose two attestations for the same height and round but
    different blocks are both accepted against one validator set.  Then
    validators holding more than a third of the stake signed both blocks, and
    for each of them the two signed votes are evidence on which
    [validateEquivocationEvidenceTx] convicts that validator: a fork within a
    round always exposes over a third of the stake to slashing. *)
Theorem conflicting_attestations_slashable a1 a2 validators stakes chainID :
  VerifyAttestationForChain (Some a1) validators stakes chainID = Ok tt ->
  VerifyAttestationForChain (Some a2) validators stakes chainID = Ok tt ->
  Forall vote_wf (AVotes a1) -> Forall vote_wf (AVotes a2) ->
  AHeight a1 = AHeight a2 -> ARound a1 = ARound a2 -> ABlockHash a1 <> ABlockHash a2 ->
  ABlockHash a1 <> zero_arr 32 -> ABlockHash a2 <> zero_arr 32 ->
  exists m total (guilty : gset (arr 32)),
    attestationStakes validators stakes = Ok (m, total) /\ wt m guilty * 3 > total /\ guilty <> ∅ /\
    forall pk, pk ∈ guilty -> pk ∈ validators /\
      exists va vb, va ∈ AVotes a1 /\ vb ∈ AVotes a2 /\ VValidatorPK va = pk /\ VValidatorPK vb = pk /\
        forall t, carries_evidence t va vb -> statemachine.validateEquivocationEvidenceTx t chainID = Ok pk.
Proof.
  intros H1 H2 Hw1 Hw2 Hh Hr Hne Hz1 Hz2.
  apply VerifyAttestation_attested in H1 as (m & total & Ht & []), H2 as (m2 & total2 & Ht2 & []).
  rewrite Ht in Ht2. injection Ht2 as <- <-.
  exists m, total, (voters (AVotes a1) ∩ voters (AVotes a2)).
  split_and!; [done|by apply quorums_share|by eapply quorums_meet|].
  intros pk [Hp1 Hp2]%elem_of_intersection. split; [by auto|].
  apply voters_In in Hp1 as (va & Hva & <-), Hp2 as (vb & Hvb & Hpk). exists va, vb. split_and!; try done.
  rewrite Forall_forall in *. intros t Ht'.
  destruct (att_votes0 va Hva) as (? & ? & ? & Hba & Hsa), (att_votes1 vb Hvb) as (? & ? & ? & Hbb & Hsb).
  apply (evidence_accepted t va vb); auto; congruence.
Qed.
End Accountability.

(** ** Quorums of a vote map *)
Section VoteMap.
Context `{MapOrderLaws}.
Implicit Types (votes : gmap (arr 32) Vote) (m : gmap (arr 32) Z).

(** Every vote is stored under its validator. *)
Definition keyed votes : Prop := forall pk v, votes !! pk = Some v -> VValidatorPK v = pk.

(** The validators that voted for a block. *)
Definition supporters votes (bh : arr 32) : gset (arr 32) := dom (filter (fun kv => VBlockHash (snd kv) = bh) votes).

Lemma supporters_In votes bh pk : pk ∈ supporters votes bh <-> exists v, votes !! pk = Some v /\ VBlockHash v = bh.
Proof.
  unfold supporters. rewrite elem_of_dom. split.
  - intros [v Hv]. apply map_lookup_filter_Some in Hv. eauto.
  - intros (v & Hv & Hb). exists v. by apply map_lookup_filter_Some.
Qed.

Lemma foldl_stakes m (l : list (arr 32 * Vote)) acc :
  foldl (fun acc '(pk, _) => match m !! pk with Some s => acc + s | None => acc end) acc l =
  acc + sumZ (map (fun kv => stakeIn m (fst kv)) l).
Proof.
  revert acc. induction l as [|[pk v] l IH]; intros acc; cbn [foldl map fst]; [cbn; lia|].
  rewrite IH, sumZ_cons. unfold stakeIn at 2. destruct (m !! pk); cbn; lia.
Qed.

Lemma wt_dom m (votes : gmap (arr 32) Vote) :
  wt m (dom votes) = sumZ (map (fun kv => stakeIn m (fst kv)) (map_to_list votes)).
Proof.
  unfold wt. rewrite <- (map_map fst (stakeIn m)).
  apply sumZ_proper, Permutation_map, NoDup_Permutation.
  - apply NoDup_elements.
  - apply NoDup_fst_map_to_list.
  - intros pk. rewrite elem_of_elements, elem_of_dom. change (map fst ?l) with (fst <$> l).
    rewrite list_elem_of_fmap. split.
    + intros [v Hv]. exists (pk, v). by rewrite elem_of_map_to_list.
    + intros ([pk' v] & -> & Hv). exists v. by apply elem_of_map_to_list in Hv.
Qed.

Lemma QuorumReached_spec votes validators stakes m total :
  stakeTable validators stakes = Ok (m, total) ->
  QuorumReached votes validators stakes = Ok (bool_decide (quorum m total (dom votes))).
Proof.
  intros Ht. unfold QuorumReached. rewrite Ht. cbn [obind]. f_equal.
  rewrite foldl_stakes, map_iter_perm, <- wt_dom, Z.add_0_l. unfold quorum.
  case_bool_decide as Hq; rewrite Z.gtb_ltb; [apply Z.ltb_lt|apply Z.ltb_ge]; lia.
Qed.

Lemma tally_lookup m l t bh :
  default 0 (foldl (tallyVote m) t l !! bh) =
  default 0 (t !! bh) + sumZ (map (fun v => if decide (VBlockHash v = bh) then stakeIn m (VValidatorPK v) else 0) l).
Proof.
  revert t. induction l as [|v l IH]; intros t; cbn [foldl map]; [cbn; lia|].
  rewrite IH, sumZ_cons. unfold stakeIn at 2, tallyVote.
  destruct (m !! VValidatorPK v) as [s|]; cbn [default from_option].
  - case_decide as Hb; [subst; rewrite lookup_insert_eq; cbn; lia|].
    rewrite lookup_insert_ne by congruence. lia.
  - case_decide; lia.
Qed.

Lemma sumZ_filter {A} (P : A -> Prop) `{!forall a, Decision (P a)} (f : A -> Z) l :
  sumZ (map f (filter P l)) = sumZ (map (fun a => if decide (P a) then f a else 0) l).
Proof.
  induction l as [|a l IH]; [done|]. rewrite filter_cons. cbn [map]. rewrite sumZ_cons, <- IH.
  case_decide; cbn [map]; rewrite ?sumZ_cons; lia.
Qed.

Lemma tally_support votes m bh :
  keyed votes -> default 0 (tallyVotes m (map snd (map_iter votes)) !! bh) = wt m (supporters votes bh).
Proof.
  intros Hk. unfold tallyVotes. rewrite tally_lookup, lookup_empty. cbn [default from_option].
  unfold supporters. rewrite wt_dom, map_map, map_iter_perm.
  assert (map_to_list (filter (fun kv : arr 32 * Vote => VBlockHash kv.2 = bh) votes) ≡ₚ
          filter (fun kv => VBlockHash kv.2 = bh) (map_to_list votes)) as ->.
  { apply NoDup_Permutation; [apply NoDup_map_to_list|apply NoDup_filter, NoDup_map_to_list|].
    intros [pk v]. rewrite list_elem_of_filter, !elem_of_map_to_list, map_lookup_filter_Some. naive_solver. }
  rewrite sumZ_filter, Z.add_0_l. f_equal. apply map_ext_in. intros [pk v] Hin. cbn [fst snd].
  apply list_elem_of_In, elem_of_map_to_list, Hk in Hin. by rewrite Hin.
Qed.

(** [quorumBlock] finds the block backed by more than two thirds of the stake,
    whatever the order in which the maps are visited; there is at most one. *)
Lemma quorumBlock_spec votes validators stakes m total :
  stakeTable validators stakes = Ok (m, total) -> table_ok m total -> keyed votes ->
  exists r, quorumBlock votes validators stakes = Ok r /\ forall bh, r = Some bh <-> quorum m total (supporters votes bh).
Proof.
  intros Ht Hok Hk. unfold quorumBlock. rewrite Ht. cbn [obind].
  set (tally := tallyVotes m (map snd (map_iter votes))). set (l := map_iter tally).
  assert (forall bh s, (bh, s) ∈ l -> s = wt m (supporters votes bh)) as Hl.
  { intros bh s Hin. subst l. rewrite map_iter_perm in Hin. apply elem_of_map_to_list in Hin.
    rewrite <- (tally_support votes m bh Hk). fold tally. by rewrite Hin. }
  assert (forall bh bh', quorum m total (supporters votes bh) -> quorum m total (supporters votes bh') -> bh = bh') as Huniq.
  { intros bh bh' H1 H2. pose proof (quorums_meet m total _ _ Hok H1 H2) as Hne.
    apply set_choose_L in Hne as [pk [Hp1 Hp2]%elem_of_intersection].
    apply supporters_In in Hp1 as (v & Hv & <-), Hp2 as (v' & Hv' & <-). congruence. }
  eexists. split; [reflexivity|]. intros bh.
  destruct (List.find _ l) as [[bh0 s0]|] eqn:Ef; cbn.
  - apply List.find_some in Ef as [Hin Hs]. apply list_elem_of_In, Hl in Hin. subst s0.
    assert (quorum m total (supporters votes bh0)) as Hq by (unfold quorum; bsimp; lia).
    split; [intros [= <-]; done|]. intros Hq'. f_equal. by apply Huniq.
  - split; [done|]. intros Hq. exfalso.
    pose proof (tally_support votes m bh Hk) as Hts. fold tally in Hts.
    destruct (tally !! bh) as [s|] eqn:E; cbn in Hts.
    + apply (List.find_none _ _) with (x := (bh, s)) in Ef.
      * cbv beta iota in Ef. rewrite Z.gtb_ltb in Ef. apply Z.ltb_ge in Ef. unfold quorum in Hq. lia.
      * apply list_elem_of_In. subst l. rewrite map_iter_perm. by apply elem_of_map_to_list.
    + unfold quorum in Hq. destruct Hok as [_ Ho]. pose proof (Ho ∅). rewrite wt_empty in *. lia.
Qed.
End VoteMap.

(** ** The attestation of a committed block *)
Section Commit.
Context `{Platform} `{MapOrderLaws}.
Implicit Types (votes : gmap (arr 32) Vote).

(** The votes of one type collected for one height and round. *)
Definition collected (chainID : bytes) (validators : list (arr 32)) (ty h r : Z) votes : Prop :=
  forall pk v, votes !! pk = Some v ->
    VValidatorPK v = pk /\ VType v = ty /\ VHeight v = h /\ VRound v = r /\
    VerifyVoteForChain v chainID = true /\ pk ∈ validators.

Lemma collected_keyed chainID validators ty h r votes : collected chainID validators ty h r votes -> keyed votes.
Proof. intros Hc pk v Hv. by apply Hc in Hv as [? _]. Qed.

Lemma collected_empty chainID validators ty h r : collected chainID validators ty h r ∅.
Proof. intros pk v Hv. by rewrite lookup_empty in Hv. Qed.

Lemma collected_insert chainID validators ty h r votes v :
  collected chainID validators ty h r votes ->
  VType v = ty -> VHeight v = h -> VRound v = r -> VerifyVoteForChain v chainID = true -> VValidatorPK v ∈ validators ->
  collected chainID validators ty h r (<[VValidatorPK v := v]> votes).
Proof.
  intros Hc ????? pk w Hw. apply lookup_insert_Some in Hw as [[<- <-]|[_ Hw]]; [by split_and!|by apply Hc].
Qed.

Definition chosenVotes votes (bh : arr 32) : list Vote :=
  List.filter (fun v => (VType v =? VotePrecommit) && bool_decide (VBlockHash v = bh)) (map snd (map_iter votes)).

Lemma chosenVotes_In votes bh v :
  v ∈ chosenVotes votes bh <-> VType v = VotePrecommit /\ VBlockHash v = bh /\ exists pk, votes !! pk = Some v.
Proof.
  unfold chosenVotes. rewrite list_elem_of_In, List.filter_In, <- list_elem_of_In, andb_true_iff, Z.eqb_eq, bool_decide_eq_true.
  rewrite map_iter_perm. change (map snd ?l) with (snd <$> l). rewrite list_elem_of_fmap. split.
  - intros (([pk w] & -> & Hin) & ? & ?). apply elem_of_map_to_list in Hin. eauto.
  - intros (? & ? & pk & Hv). split; [|done]. exists (pk, v). by rewrite elem_of_map_to_list.
Qed.

Lemma AVotes_chosen votes bh : AVotes (attestationFromPrecommits votes bh) ≡ₚ chosenVotes votes bh.
Proof.
  unfold attestationFromPrecommits. fold (chosenVotes votes bh).
  rewrite <- (merge_sort_Permutation vote_le (chosenVotes votes bh)) at 2. by destruct (merge_sort _ _).
Qed.

Lemma chosen_nodup votes bh : keyed votes -> NoDup (map VValidatorPK (chosenVotes votes bh)).
Proof.
  intros Hk. assert (NoDup (map VValidatorPK (map snd (map_iter votes)))) as Hn.
  { rewrite map_map, map_iter_perm. rewrite (map_ext_in _ fst); [apply NoDup_fst_map_to_list|].
    intros [pk v] Hi. apply list_elem_of_In, elem_of_map_to_list in Hi. by apply Hk. }
  unfold chosenVotes. induction (map snd (map_iter votes)) as [|v l IH]; [constructor|].
  cbn [map] in Hn. inversion Hn as [|? ? Hnv Hn']; subst. cbn [List.filter].
  destruct (_ && _); [|by apply IH]. cbn [map]. constructor; [|by apply IH].
  intros (w & Hw & Hin)%list_elem_of_fmap. apply Hnv. rewrite Hw. apply list_elem_of_fmap. exists w. split; [done|].
  apply list_elem_of_In, List.filter_In in Hin as [Hin _]. by apply list_elem_of_In.
Qed.

Lemma voters_chosen chainID validators h r votes bh :
  collected chainID validators VotePrecommit h r votes ->
  voters (AVotes (attestationFromPrecommits votes bh)) = supporters votes bh.
Proof.
  intros Hc. apply set_eq. intros pk. rewrite voters_In, supporters_In. split.
  - intros (v & Hv & <-). rewrite AVotes_chosen in Hv. apply chosenVotes_In in Hv as (_ & Hb & pk & Hv).
    exists v. by destruct (Hc pk v Hv) as (-> & _).
  - intros (v & Hv & Hb). exists v. destruct (Hc pk v Hv) as (<- & Ht & _). split; [|done].
    rewrite AVotes_chosen. apply chosenVotes_In. eauto.
Qed.

Lemma attestation_context chainID validators h r votes bh :
  collected chainID validators VotePrecommit h r votes -> supporters votes bh <> ∅ ->
  let a := attestationFromPrecommits votes bh in AHeight a = h /\ ARound a = r /\ ABlockHash a = bh.
Proof.
  intros Hc Hne a. pose proof (AVotes_chosen votes bh) as Hp. pose proof (voters_chosen _ _ _ _ votes bh Hc) as Hv.
  subst a. unfold attestationFromPrecommits in *. destruct (merge_sort _ _) as [|v vs]; cbn in *.
  { by rewrite <- Hv in Hne. }
  assert (v ∈ chosenVotes votes bh) as Hin by (rewrite <- Hp; left).
  apply chosenVotes_In in Hin as (_ & _ & pk & Hin). by apply Hc in Hin as (_ & _ & ? & ? & _).
Qed.

(** An attestation built from the precommits that committed a block names that block,
    height and round, and is accepted by every node that has the same
    validators and stakes, whatever the order in which maps are visited. *)
Theorem committed_attestation_verifies chainID validators stakes h r votes bh :
  Forall (fun s => 0 <= s) stakes -> zlen validators = zlen stakes ->
  collected chainID validators VotePrecommit h r votes -> quorumBlock votes validators stakes = Ok (Some bh) ->
  let a := attestationFromPrecommits votes bh in
  AHeight a = h /\ ARound a = r /\ ABlockHash a = bh /\
  VerifyAttestationForChain (Some a) validators (map Some stakes) chainID = Ok tt.
Proof.
  intros Hs Hl Hc Hq a. destruct (stakeTable_total _ _ Hl) as (m & total & Ht).
  destruct (stakeTable_ok _ _ _ _ Hs Ht) as [Hok Hd].
  destruct (quorumBlock_spec votes validators stakes m total Ht Hok (collected_keyed _ _ _ _ _ _ Hc)) as (q & Hq' & Hspec).
  rewrite Hq in Hq'. injection Hq' as <-. pose proof (proj1 (Hspec bh) eq_refl) as Hquo.
  assert (supporters votes bh <> ∅) as Hne.
  { intros He. rewrite He in Hquo. pose proof (quorums_meet m total ∅ ∅ Hok Hquo Hquo). set_solver. }
  destruct (attestation_context _ _ _ _ votes bh Hc Hne) as (Hh & Hr & Hb). split_and!; try done.
  assert (forall v, v ∈ AVotes a -> exists pk, votes !! pk = Some v /\ VBlockHash v = bh) as Hin.
  { intros v Hv. subst a. rewrite AVotes_chosen in Hv. apply chosenVotes_In in Hv as (_ & ? & pk & ?). eauto. }
  eapply VerifyAttestation_complete; eauto.
  - apply Forall_forall. intros v (pk & Hv & Hvb)%Hin. apply Hc in Hv as (_ & ? & ? & ? & ? & _).
    subst a. unfold vote_attests. split_and!; try done; congruence.
  - apply Forall_forall. intros v (pk & Hv & _)%Hin. apply Hc in Hv as (-> & _ & _ & _ & _ & Hpk).
    apply elem_of_dom. rewrite Hd. by apply elem_of_list_to_set.
  - subst a. rewrite AVotes_chosen. by apply chosen_nodup, (collected_keyed _ _ _ _ _ _ Hc).
  - subst a. by rewrite (voters_chosen _ _ _ _ votes bh Hc).
Qed.
End Commit.
