(* ===== verification/BlockLoop.v ===== *)
(** * core/blockloop: the pool of pending transactions

    The pool is a linked list in arrival order with an index from transaction
    ids to list elements.  An element is a handle, unique for the life of the
    pool, as a pointer to a list element is. *)

From S2P Require Import Prelude GoBytes Errors Platform Tx TxProofs KV Staking Mint Contract BlockStore StateMachine StateMachineProofs.
From S2P Require Import BlockProofs Vote VoteProofs.

Module blockloop.

Definition defaultCap : Z := 4 * 65536.
Definition TMax : Z := 65536.

Record mempool : Type := mkMempool
  { queue : list (positive * tx.Tx);       (* front first *)
    index : gmap (arr 32) positive;
    next : positive;                       (* the next element's handle *)
    cap : Z }.

Definition newMempool (cap : Z) : mempool := mkMempool [] ∅ 1%positive cap.

Record BlockLoop : Type := mkBlockLoop
  { kp : keys.Keypair;
    pool : mempool;
    chainID : bytes }.

Definition NewWithChainID (kp : keys.Keypair) (chainID : bytes) : BlockLoop :=
  mkBlockLoop kp (newMempool defaultCap) (if decide (chainID = []) then tx.DefaultChainID else chainID).

Definition New (kp : keys.Keypair) : BlockLoop := NewWithChainID kp tx.DefaultChainID.

Definition set_pool (bl : BlockLoop) (p : mempool) : BlockLoop := mkBlockLoop (kp bl) p (chainID bl).

(** [queue.Remove(elem)] *)
Definition removeElem (q : list (positive * tx.Tx)) (e : positive) : list (positive * tx.Tx) :=
  List.filter (fun x => negb (Pos.eqb (fst x) e)) q.

Section Ops.
Context `{Platform}.

(** The front element is dropped; if its id cannot be computed, the zero id is
    deleted from the index. *)
Definition dropOldest (p : mempool) : mempool :=
  match queue p with
  | [] => p
  | (e, oldest) :: _ =>
    let oldestID := match tx.ID oldest with Ok id => id | _ => zero_arr 32 end in
    mkMempool (removeElem (queue p) e) (delete oldestID (index p)) (next p) (cap p)
  end.

Definition pushBack (p : mempool) (id : arr 32) (t : tx.Tx) : mempool :=
  mkMempool (queue p ++ [(next p, t)]) (<[id := next p]> (index p)) (Pos.succ (next p)) (cap p).

Definition enqueue (p : mempool) (t : tx.Tx) : mempool :=
  match tx.ID t with
  | Ok id =>
    match index p !! id with
    | Some _ => p
    | None =>
      let p := if zlen (queue p) >=? cap p then dropOldest p else p in
      pushBack p id t
    end
  | _ => p
  end.

Definition Enqueue (bl : BlockLoop) (t : tx.Tx) : BlockLoop := set_pool bl (enqueue (pool bl) t).

Definition Len (bl : BlockLoop) : Z := zlen (queue (pool bl)).
Definition Snapshot (bl : BlockLoop) : list tx.Tx := map snd (queue (pool bl)).
Definition Has (bl : BlockLoop) (id : arr 32) : bool := bool_decide (is_Some (index (pool bl) !! id)).

Definition removeOne (p : mempool) (t : tx.Tx) : mempool :=
  match tx.ID t with
  | Ok id =>
    match index p !! id with
    | Some e => mkMempool (removeElem (queue p) e) (delete id (index p)) (next p) (cap p)
    | None => p
    end
  | _ => p
  end.

Definition removeCommitted (bl : BlockLoop) (txs : list tx.Tx) : BlockLoop :=
  set_pool bl (foldl removeOne (pool bl) txs).

Definition OnCommit (bl : BlockLoop) (height : Z) (txs : list tx.Tx) : BlockLoop := removeCommitted bl txs.
Definition OnReject (bl : BlockLoop) (height : Z) (txs : list tx.Tx) : BlockLoop := removeCommitted bl txs.

(** The oldest transactions, at most [TMax], left in the pool until they commit. *)
Definition propose (bl : BlockLoop) (height round : Z) (prevAttest : vote.AttestationSet) (prevRoot : arr 32) :
    res vote.BlockProposal :=
  let count := if Len bl >? TMax then TMax else Len bl in
  let txs := take (Z.to_nat count) (Snapshot bl) in
  let p := vote.mkBlockProposal height round (keys.PublicKey (kp bl)) prevRoot txs prevAttest (zero_arr 64) in
  let* body := vote.ProposalSignBytesForChain p (chainID bl) in
  Ok (vote.mkBlockProposal height round (keys.PublicKey (kp bl)) prevRoot txs prevAttest (keys.Sign (kp bl) body)).

Definition Propose (bl : BlockLoop) (height round : Z) (prevAttest : vote.AttestationSet) : res vote.BlockProposal :=
  propose bl height round prevAttest (zero_arr 32).

Definition ProposeForState (bl : BlockLoop) (height round : Z) (prevAttest : vote.AttestationSet) (prevRoot : arr 32) :
    res vote.BlockProposal :=
  propose bl height round prevAttest prevRoot.

(** [Start]'s goroutine over what it receives until the node stops. *)
Definition Start (bl : BlockLoop) (received : list tx.Tx) : BlockLoop := foldl Enqueue bl received.
End Ops.
End blockloop.

(** * core/blockloop: the pool refines a bounded queue without duplicates *)

Import blockloop.

Section Pool.
Context `{Platform}.
Implicit Types (p : mempool) (t u : tx.Tx).

(** The index holds exactly the elements of the queue, by transaction id. *)
Record pool_ok p : Prop :=
  { po_handles : NoDup (map fst (queue p));
    po_next : Forall (fun x => (fst x < next p)%positive) (queue p);
    po_ids : Forall (fun x => is_Ok (tx.ID (snd x)) = true) (queue p);
    po_index : forall id e, index p !! id = Some e <-> exists t, (e, t) ∈ queue p /\ tx.ID t = Ok id }.

(** The abstract pool: transactions in arrival order. *)
Definition same_id t u : bool := bool_decide (tx.ID t = tx.ID u).

Definition spec_enqueue (capacity : Z) (l : list tx.Tx) t : list tx.Tx :=
  if negb (is_Ok (tx.ID t)) || existsb (same_id t) l then l else
  (if zlen l >=? capacity then tail l else l) ++ [t].

Definition spec_remove (l : list tx.Tx) t : list tx.Tx :=
  if is_Ok (tx.ID t) then List.filter (fun u => negb (same_id t u)) l else l.

Lemma handle_inj p e t t' : pool_ok p -> (e, t) ∈ queue p -> (e, t') ∈ queue p -> t = t'.
Proof.
  intros [Hn _ _ _] H1 H2. apply list_elem_of_lookup in H1 as [i Hi], H2 as [j Hj].
  assert (i = j) as ->; [|congruence]. apply (NoDup_lookup _ i j e Hn); change (map fst ?l) with (fst <$> l).
  - by rewrite list_lookup_fmap, Hi.
  - by rewrite list_lookup_fmap, Hj.
Qed.

(** The element the index names is the one with that id. *)
Lemma indexed_elem p id e e' u :
  pool_ok p -> index p !! id = Some e -> (e', u) ∈ queue p -> e' = e <-> tx.ID u = Ok id.
Proof.
  intros Hok Hi Hu. pose proof (proj1 (po_index p Hok id e) Hi) as (t & Ht & Hid). split.
  - intros ->. by rewrite (handle_inj p e u t Hok Hu Ht).
  - intros Hu'. assert (index p !! id = Some e') by (apply (po_index p Hok); eauto). congruence.
Qed.

Lemma removeElem_In q e x : x ∈ removeElem q e <-> x ∈ q /\ fst x <> e.
Proof.
  unfold removeElem. rewrite list_elem_of_In, List.filter_In, <- list_elem_of_In, negb_true_iff, Pos.eqb_neq. done.
Qed.

Lemma removeElem_NoDup q e : NoDup (map fst q) -> NoDup (map fst (removeElem q e)).
Proof.
  unfold removeElem. induction q as [|[e' u] q IH]; cbn [map List.filter]; [done|]. intros Hn.
  inversion Hn as [|? ? Hni Hn']; subst. cbn [fst]. destruct (negb (Pos.eqb e' e)); [|by apply IH]. cbn [map fst].
  constructor; [|by apply IH]. intros ([e2 u2] & He & Hin)%list_elem_of_fmap. apply Hni.
  apply removeElem_In in Hin as [Hin _]. apply list_elem_of_fmap. by exists (e2, u2).
Qed.

(** Removing an indexed element. *)
Lemma remove_indexed p id e :
  pool_ok p -> index p !! id = Some e ->
  let p' := mkMempool (removeElem (queue p) e) (delete id (index p)) (next p) (cap p) in
  pool_ok p' /\ map snd (queue p') = List.filter (fun u => negb (bool_decide (Ok id = tx.ID u))) (map snd (queue p)).
Proof.
  intros Hok Hi p'. split.
  - constructor; cbn.
    + apply removeElem_NoDup, (po_handles p Hok).
    + rewrite Forall_forall. intros x [Hx _]%removeElem_In. revert x Hx. apply Forall_forall, (po_next p Hok).
    + rewrite Forall_forall. intros x [Hx _]%removeElem_In. revert x Hx. apply Forall_forall, (po_ids p Hok).
    + intros id' e'. rewrite lookup_delete_Some, (po_index p Hok). split.
      * intros (Hne & t & Ht & Hid). exists t. rewrite removeElem_In. split; [split; [done|]|done].
        cbn. intros ->. pose proof (proj1 (indexed_elem p id e e t Hok Hi Ht) eq_refl). congruence.
      * intros (t & [Ht Hne]%removeElem_In & Hid). cbn in Hne. split; [|eauto].
        intros ->. apply Hne. by apply (indexed_elem p id' e e' t Hok Hi Ht).
  - cbn. assert (forall x, x ∈ queue p -> negb (Pos.eqb (fst x) e) = negb (bool_decide (Ok id = tx.ID (snd x)))) as Heq.
    { intros [e' u] Hu. pose proof (indexed_elem p id e e' u Hok Hi Hu) as Hiff. cbn. f_equal.
      apply eq_bool_prop_intro. rewrite !Is_true_true, Pos.eqb_eq, bool_decide_eq_true, Hiff. by split; intros ->. }
    unfold removeElem. revert Heq. generalize (queue p) as q. clear. intros q.
    induction q as [|x q IH]; intros Heq; [done|]. cbn [List.filter map].
    rewrite (Heq x) by (left). rewrite <- IH by (intros; apply Heq; by right). by destruct (negb _).
Qed.

Lemma existsb_index p id t :
  pool_ok p -> tx.ID t = Ok id -> existsb (same_id t) (map snd (queue p)) = bool_decide (is_Some (index p !! id)).
Proof.
  intros Hok Hid. apply eq_bool_prop_intro. rewrite !Is_true_true, existsb_exists, bool_decide_eq_true. split.
  - intros (u & Hu & Hs). unfold same_id in Hs. bsimp. apply in_map_iff in Hu as ([e u'] & <- & Hu).
    apply list_elem_of_In in Hu. exists e. apply (po_index p Hok). exists u'. split; [done|]. cbn in *. congruence.
  - intros [e (u & Hu & Hid')%(po_index p Hok)]. exists u. split.
    + apply in_map_iff. exists (e, u). split; [done|]. by apply list_elem_of_In.
    + unfold same_id. apply bool_decide_eq_true. congruence.
Qed.

Lemma pushBack_ok p id t :
  pool_ok p -> tx.ID t = Ok id -> index p !! id = None -> pool_ok (pushBack p id t).
Proof.
  intros Hok Hid Hnone. assert (next p ∉ map fst (queue p)) as Hfresh.
  { intros ([e u] & He & Hin)%list_elem_of_fmap. pose proof (po_next p Hok) as Hn. rewrite Forall_forall in Hn.
    specialize (Hn _ Hin). cbn in *. lia. }
  constructor; cbn.
  - rewrite map_app. apply NoDup_app. split_and!; [apply (po_handles p Hok)| |apply NoDup_singleton].
    intros e He ->%list_elem_of_singleton. done.
  - apply Forall_app. split; [|constructor; [cbn; lia|done]]. eapply Forall_impl; [apply (po_next p Hok)|].
    cbn. intros. lia.
  - apply Forall_app. split; [apply (po_ids p Hok)|]. constructor; [|done]. cbn. by rewrite Hid.
  - intros id' e'. rewrite lookup_insert_Some, (po_index p Hok). setoid_rewrite elem_of_app.
    setoid_rewrite list_elem_of_singleton. split.
    + intros [[<- <-]|[Hne (u & Hu & Hid')]]; eauto.
    + intros (u & [Hu|[= -> ->]] & Hid'); [|left; split; congruence]. right. split; [|eauto].
      intros <-. assert (index p !! id = Some e') by (apply (po_index p Hok); eauto). congruence.
Qed.

Lemma filter_head t l :
  Forall (fun u => tx.ID u <> tx.ID t) l ->
  List.filter (fun u => negb (bool_decide (tx.ID t = tx.ID u))) (t :: l) = l.
Proof.
  intros Hl. cbn. rewrite bool_decide_eq_true_2 by done. cbn.
  induction Hl as [|u l Hu Hl IH]; [done|]. cbn. rewrite bool_decide_eq_false_2 by congruence. cbn. by f_equal.
Qed.

(** Dropping the oldest transaction. *)
Lemma dropOldest_ok p :
  pool_ok p -> pool_ok (dropOldest p) /\ map snd (queue (dropOldest p)) = tail (map snd (queue p)) /\
  cap (dropOldest p) = cap p /\ (forall id, index p !! id = None -> index (dropOldest p) !! id = None).
Proof.
  intros Hok. unfold dropOldest. destruct (queue p) as [|[e t] q] eqn:Eq; [by rewrite Eq|].
  pose proof (po_ids p Hok) as Hids. rewrite Eq in Hids. apply Forall_cons in Hids as [Ht _]. cbn in Ht.
  destruct (tx.ID t) as [id| |] eqn:Hid; [|done..].
  assert (index p !! id = Some e) as Hi by (apply (po_index p Hok); exists t; rewrite Eq; split; [left|done]).
  pose proof (remove_indexed p id e Hok Hi) as [H1 H2]. rewrite Eq in H1, H2. cbn [queue] in H2. split_and!; [done| |done|].
  - cbn [queue]. rewrite H2. cbn [map snd tail]. rewrite <- Hid. apply filter_head. apply Forall_forall. intros u Hu Hsame.
    apply list_elem_of_fmap in Hu as ([e' u'] & -> & Hu). cbn in Hsame.
    assert (e' = e) as ->.
    { apply (indexed_elem p id e e' u' Hok Hi); [rewrite Eq; by right|]. congruence. }
    pose proof (po_handles p Hok) as Hn. rewrite Eq in Hn. inversion Hn as [|? ? Hni _]; subst. apply Hni.
    apply list_elem_of_fmap. by exists (e, u').
  - intros id' Hn. cbn. apply lookup_delete_None. by right.
Qed.

Lemma enqueue_refines p t :
  pool_ok p ->
  pool_ok (enqueue p t) /\ cap (enqueue p t) = cap p /\
  map snd (queue (enqueue p t)) = spec_enqueue (cap p) (map snd (queue p)) t.
Proof.
  intros Hok. unfold enqueue, spec_enqueue. destruct (tx.ID t) as [id| |] eqn:Hid; cbn [is_Ok negb orb]; [|done..].
  rewrite (existsb_index p id t Hok Hid). destruct (index p !! id) as [e|] eqn:Hi.
  { by rewrite bool_decide_eq_true_2 by eauto. }
  rewrite bool_decide_eq_false_2 by (by intros [? ?]).
  replace (zlen (map snd (queue p))) with (zlen (queue p)) by (unfold zlen; by rewrite length_map).
  destruct (zlen (queue p) >=? cap p).
  - destruct (dropOldest_ok p Hok) as (Hok' & Hq & Hc & Hnone). specialize (Hnone id Hi). split_and!.
    + by apply pushBack_ok.
    + done.
    + cbn. by rewrite map_app, Hq.
  - split_and!; [by apply pushBack_ok|done|]. cbn. by rewrite map_app.
Qed.

Lemma removeOne_refines p t :
  pool_ok p ->
  pool_ok (removeOne p t) /\ cap (removeOne p t) = cap p /\
  map snd (queue (removeOne p t)) = spec_remove (map snd (queue p)) t.
Proof.
  intros Hok. unfold removeOne, spec_remove. destruct (tx.ID t) as [id| |] eqn:Hid; cbn [is_Ok]; [|done..].
  destruct (index p !! id) as [e|] eqn:Hi.
  - destruct (remove_indexed p id e Hok Hi) as [H1 H2]. split_and!; [done..|]. rewrite H2. unfold same_id. by rewrite Hid.
  - split_and!; [done..|]. pose proof (existsb_index p id t Hok Hid) as He. rewrite Hi in He.
    rewrite bool_decide_eq_false_2 in He by (by intros [? ?]). revert He.
    induction (map snd (queue p)) as [|u l IH]; [done|]. cbn. intros [Hu Hl]%orb_false_iff. rewrite Hu. cbn.
    f_equal. by apply IH.
Qed.
End Pool.

(** ** Histories *)
Section History.
Context `{Platform}.

Inductive op : Type :=
| OpEnqueue (t : tx.Tx)
| OpCommit (height : Z) (txs : list tx.Tx)
| OpReject (height : Z) (txs : list tx.Tx).

Definition run (bl : BlockLoop) (o : op) : BlockLoop :=
  match o with
  | OpEnqueue t => Enqueue bl t
  | OpCommit h txs => OnCommit bl h txs
  | OpReject h txs => OnReject bl h txs
  end.

Definition spec_run (capacity : Z) (l : list tx.Tx) (o : op) : list tx.Tx :=
  match o with
  | OpEnqueue t => spec_enqueue capacity l t
  | OpCommit _ txs | OpReject _ txs => foldl spec_remove l txs
  end.

Lemma removeAll_refines txs p :
  pool_ok p ->
  pool_ok (foldl removeOne p txs) /\ cap (foldl removeOne p txs) = cap p /\
  map snd (queue (foldl removeOne p txs)) = foldl spec_remove (map snd (queue p)) txs.
Proof.
  revert p. induction txs as [|t txs IH]; intros p Hok; [done|]. cbn [foldl].
  destruct (removeOne_refines p t Hok) as (Hok' & Hc & Hq). destruct (IH _ Hok') as (? & ? & ?).
  split_and!; [done|congruence|]. by rewrite <- Hq.
Qed.

Lemma run_refines bl o :
  pool_ok (pool bl) ->
  pool_ok (pool (run bl o)) /\ cap (pool (run bl o)) = cap (pool bl) /\
  Snapshot (run bl o) = spec_run (cap (pool bl)) (Snapshot bl) o.
Proof. intros Hok. destruct o; cbn; [by apply enqueue_refines|by apply removeAll_refines..]. Qed.

Lemma runs_refine bl ops :
  pool_ok (pool bl) ->
  pool_ok (pool (foldl run bl ops)) /\ cap (pool (foldl run bl ops)) = cap (pool bl) /\
  Snapshot (foldl run bl ops) = foldl (spec_run (cap (pool bl))) (Snapshot bl) ops.
Proof.
  revert bl. induction ops as [|o ops IH]; intros bl Hok; [done|]. cbn [foldl].
  destruct (run_refines bl o Hok) as (Hok' & Hc & Hs). destruct (IH _ Hok') as (? & ? & Hr).
  split_and!; [done|congruence|]. by rewrite Hr, Hc, Hs.
Qed.

Lemma Start_refines bl received :
  pool_ok (pool bl) -> Snapshot (Start bl received) = foldl (spec_enqueue (cap (pool bl))) (Snapshot bl) received.
Proof.
  intros Hok. destruct (runs_refine bl (map OpEnqueue received) Hok) as (_ & _ & Hs). unfold Start.
  assert (forall {A} (f : A -> op -> A) a, foldl f a (map OpEnqueue received) = foldl (fun a t => f a (OpEnqueue t)) a received) as Hm.
  { intros A f. induction received as [|t l IH]; intros a; [done|]. apply IH. by apply (runs_refine bl (map OpEnqueue l)). }
  rewrite !Hm in Hs. exact Hs.
Qed.

Lemma new_ok kp chainID : pool_ok (pool (NewWithChainID kp chainID)).
Proof.
  constructor; cbn; [constructor..|]. intros id e. rewrite lookup_empty. split; [done|].
  intros (t & Hin & _). by apply not_elem_of_nil in Hin.
Qed.

Lemma ids_nodup p : pool_ok p -> NoDup (map tx.ID (map snd (queue p))).
Proof.
  intros Hok. rewrite map_map. apply NoDup_alt. intros i j x Hi Hj. change (map ?f ?l) with (f <$> l) in Hi, Hj.
  rewrite list_lookup_fmap in Hi, Hj.
  destruct (queue p !! i) as [[e t]|] eqn:Ei; [|done]. destruct (queue p !! j) as [[e' t']|] eqn:Ej; [|done].
  cbn in Hi, Hj. injection Hi as Hi. injection Hj as Hj.
  pose proof (po_ids p Hok) as Hids. rewrite Forall_lookup in Hids. specialize (Hids i _ Ei). cbn in Hids.
  destruct (tx.ID t) as [id| |] eqn:Hid; [|done..]. apply list_elem_of_lookup_2 in Ei as Hin, Ej as Hin'.
  assert (index p !! id = Some e) by (apply (po_index p Hok); eauto).
  assert (index p !! id = Some e') by (apply (po_index p Hok); exists t'; split; [done|congruence]).
  assert (e = e') as <- by congruence.
  apply (NoDup_lookup (map fst (queue p)) i j e (po_handles p Hok)); change (map ?f ?l) with (f <$> l);
    by rewrite list_lookup_fmap, ?Ei, ?Ej.
Qed.

Lemma spec_len capacity l o :
  0 < capacity -> zlen l <= capacity -> zlen (spec_run capacity l o) <= capacity.
Proof.
  intros Hc Hl. assert (forall txs l, zlen (foldl spec_remove l txs) <= zlen l) as Hr.
  { clear. intros txs. induction txs as [|t txs IH]; intros l; [done|]. cbn [foldl]. etransitivity; [apply IH|].
    unfold spec_remove. case_match; [|done]. unfold zlen. pose proof (List.filter_length_le (fun u => negb (same_id t u)) l). lia. }
  destruct o; cbn; [|etransitivity; [apply Hr|done]..].
  unfold spec_enqueue. case_match; [done|]. rewrite zlen_app, zlen_one. case_match; bsimp; [|lia].
  destruct l; cbn in *; [unfold zlen in *; cbn in *; lia|]. rewrite zlen_cons in *. lia.
Qed.

(** C13.  Refinement.  Through any history of arrivals, commits and rejections the indexed
    linked list behaves as a plain queue: arrivals are appended unless a
    transaction with the same id is waiting, the oldest is dropped when the
    pool is full, and commits and rejections remove exactly the transactions
    with the given ids.  Membership by index agrees with the queue, no id
    occurs twice, and the capacity is never exceeded. *)
Theorem mempool_refines_queue kp chain ops :
  let bl := foldl run (NewWithChainID kp chain) ops in
  Snapshot bl = foldl (spec_run defaultCap) [] ops /\
  (forall id, Has bl id = existsb (fun u => bool_decide (tx.ID u = Ok id)) (Snapshot bl)) /\
  NoDup (map tx.ID (Snapshot bl)) /\ Len bl <= defaultCap.
Proof.
  intros bl. destruct (runs_refine (NewWithChainID kp chain) ops (new_ok kp chain)) as (Hok & _ & Hs).
  fold bl in Hok, Hs. cbn in Hs. split_and!; [done| |by apply ids_nodup|].
  - intros id. unfold Has, Snapshot. apply eq_bool_prop_intro.
    rewrite !Is_true_true, existsb_exists, bool_decide_eq_true. split.
    + intros [e (t & Ht & Hid)%(po_index _ Hok)]. exists t. rewrite bool_decide_eq_true. split; [|done].
      apply in_map_iff. exists (e, t). by rewrite <- list_elem_of_In.
    + intros (t & Hin & Hid). bsimp. apply in_map_iff in Hin as ([e t'] & <- & Hin). exists e.
      apply (po_index _ Hok). exists t'. by rewrite list_elem_of_In.
  - assert (zlen (Snapshot bl) <= defaultCap) as Hlen.
    { rewrite Hs. assert (zlen (@nil tx.Tx) <= defaultCap) as H0 by done. revert H0. generalize (@nil tx.Tx) as l. clear.
      induction ops as [|o ops IH]; intros l Hl; [done|]. cbn [foldl]. apply IH. by apply spec_len. }
    unfold Len, Snapshot, zlen in *. by rewrite length_map in Hlen.
Qed.

Lemma sign_bytes_sig h r pk root txs a s s' chain :
  vote.ProposalSignBytesForChain (vote.mkBlockProposal h r pk root txs a s) chain =
  vote.ProposalSignBytesForChain (vote.mkBlockProposal h r pk root txs a s') chain.
Proof. done. Qed.

(** What the proposer signs verifies, and carries the oldest waiting transactions. *)
Lemma propose_spec `{!PlatformLaws} bl h r a root :
  keys.generated (kp bl) ->
  exists p, propose bl h r a root = Ok p /\ vote.VerifyProposalForChain p (chainID bl) = Ok true /\
    vote.PHeight p = h /\ vote.PRound p = r /\ vote.ProposerPK p = keys.PublicKey (kp bl) /\
    vote.PPrevStateRoot p = root /\ vote.PrevAttestations p = a /\ vote.PTxs p = take (Z.to_nat TMax) (Snapshot bl).
Proof.
  intros Hg. unfold propose. set (n := if Len bl >? TMax then TMax else Len bl).
  assert (take (Z.to_nat n) (Snapshot bl) = take (Z.to_nat TMax) (Snapshot bl)) as ->.
  { subst n. destruct (Len bl >? TMax) eqn:E; [done|]. bsimp.
    assert (length (Snapshot bl) = Z.to_nat (Len bl)) as Hl by (unfold Len, Snapshot, zlen; rewrite length_map; lia).
    rewrite !take_ge by lia. done. }
  set (txs := take (Z.to_nat TMax) (Snapshot bl)).
  set (p0 := vote.mkBlockProposal h r (keys.PublicKey (kp bl)) root txs a (zero_arr 64)).
  destruct (sign_bytes_total p0 (chainID bl)) as [body Hb]. rewrite Hb. cbn [obind]. eexists. split; [reflexivity|].
  split_and!; try done. unfold vote.VerifyProposalForChain.
  rewrite (sign_bytes_sig _ _ _ _ _ _ _ (zero_arr 64)). fold p0. rewrite Hb. cbn [obind vote.ProposerPK vote.ProposerSig].
  f_equal. by apply keys.Verify_Sign.
Qed.
End History.
