(* ===== verification/Round.v ===== *)
(** * core/consensus: the round state and its snapshot (consensus.go, persistence.go) *)

From S2P Require Import Prelude GoBytes Errors Platform Tx KV Denom Ledger Staking Gas Mint Node Tree Contract BlockStore Telemetry StateMachine.
From S2P Require Import Vote.

Module round.
Import vote.

Definition PhasePropose : Z := 1.
Definition PhasePrevote : Z := 2.
Definition PhasePrecommit : Z := 3.
Definition PhaseCommit : Z := 4.

Record RoundState : Type := mkRoundState
  { Height : Z;
    Round : Z;
    Phase : Z;
    Proposal : option BlockProposal;
    Prevotes : gmap (arr 32) Vote;
    Precommits : gmap (arr 32) Vote;
    LockedBlock : option (arr 32);
    LockedRound : Z;
    LastAttestation : AttestationSet }.

Definition NewRoundState (height : Z) : RoundState :=
  mkRoundState height 0 PhasePropose None ∅ ∅ None (-1) emptyAttestation.

(** ** Updates of single fields *)
Definition set_Phase (rs : RoundState) (p : Z) : RoundState :=
  mkRoundState (Height rs) (Round rs) p (Proposal rs) (Prevotes rs) (Precommits rs) (LockedBlock rs) (LockedRound rs) (LastAttestation rs).
Definition set_Proposal (rs : RoundState) (p : option BlockProposal) : RoundState :=
  mkRoundState (Height rs) (Round rs) (Phase rs) p (Prevotes rs) (Precommits rs) (LockedBlock rs) (LockedRound rs) (LastAttestation rs).
Definition set_Prevotes (rs : RoundState) (v : gmap (arr 32) Vote) : RoundState :=
  mkRoundState (Height rs) (Round rs) (Phase rs) (Proposal rs) v (Precommits rs) (LockedBlock rs) (LockedRound rs) (LastAttestation rs).
Definition set_Precommits (rs : RoundState) (v : gmap (arr 32) Vote) : RoundState :=
  mkRoundState (Height rs) (Round rs) (Phase rs) (Proposal rs) (Prevotes rs) v (LockedBlock rs) (LockedRound rs) (LastAttestation rs).
Definition set_LastAttestation (rs : RoundState) (a : AttestationSet) : RoundState :=
  mkRoundState (Height rs) (Round rs) (Phase rs) (Proposal rs) (Prevotes rs) (Precommits rs) (LockedBlock rs) (LockedRound rs) a.

Definition IncrementRound (rs : RoundState) : RoundState :=
  mkRoundState (Height rs) (wrap32 (Round rs + 1)) PhasePropose None ∅ ∅ (LockedBlock rs) (LockedRound rs) (LastAttestation rs).

Definition Lock (rs : RoundState) (blockHash : arr 32) (rnd : Z) : RoundState :=
  mkRoundState (Height rs) (Round rs) (Phase rs) (Proposal rs) (Prevotes rs) (Precommits rs) (Some blockHash) (int32_of rnd) (LastAttestation rs).

Definition Unlock (rs : RoundState) : RoundState :=
  mkRoundState (Height rs) (Round rs) (Phase rs) (Proposal rs) (Prevotes rs) (Precommits rs) None (-1) (LastAttestation rs).

(** The state [startNextRound] begins the next height with.  The lock is released
    but its round number stays. *)
Definition nextHeight (rs : RoundState) : RoundState :=
  mkRoundState (wrap64 (Height rs + 1)) 0 PhasePropose None ∅ ∅ None (LockedRound rs) (LastAttestation rs).

(** ** Snapshots *)
Definition maxPersistedVotes : Z := 4096.

(** [bytes.Reader]: what is left of the input. *)
Definition reader : Type := bytes.

(** [binary.Read] of an n-byte integer. *)
Definition readBE (n : nat) (r : reader) : res (Z * reader) :=
  if Z.of_nat n >? zlen r then failf "EOF" else Ok (be_dec (take n r), drop n r).

Definition readByte (r : reader) : res (byte * reader) :=
  match r with
  | [] => failf "EOF"
  | b :: r => Ok (b, r)
  end.

(** [r.Read(buf)] with [n] zero bytes in [buf]: an error at the end of input (also
    for an empty buffer), otherwise as many bytes as there are. *)
Definition readInto (n : nat) (r : reader) : res (bytes * reader) :=
  match r with
  | [] => failf "EOF"
  | _ :: _ => Ok (copy_to n r, drop n r)
  end.

Section Persist.
Context `{Platform} `{MapOrder}.

Definition serializeAttestation (a : AttestationSet) : res bytes :=
  if zlen (AVotes a) =? 0 then Ok [] else
  if zlen (AVotes a) >? maxPersistedVotes then failf "too many attestation votes" else
  Ok (put64 (AHeight a) ++ put32 (ARound a) ++ ABlockHash a ++ put32 (wrap32 (zlen (AVotes a))) ++
      concat (map Serialize (AVotes a))).

Definition serializeOptionalProposal (p : option BlockProposal) : res bytes :=
  match p with
  | None => Ok []
  | Some p => SerializeProposal p
  end.

Definition encodeVotes (votes : gmap (arr 32) Vote) : res bytes :=
  let l := map snd (map_iter votes) in
  if zlen l >? maxPersistedVotes then failf "too many votes to persist" else
  Ok (put32 (wrap32 (zlen l)) ++ concat (map Serialize l)).

Definition encodeRoundState (rs : RoundState) : res bytes :=
  let* proposal := serializeOptionalProposal (Proposal rs) in
  let* prevotes := encodeVotes (Prevotes rs) in
  let* precommits := encodeVotes (Precommits rs) in
  let* attestation := serializeAttestation (LastAttestation rs) in
  Ok (put64 (Height rs) ++ put32 (Round rs) ++ [byte_of_Z (Phase rs)] ++
      match LockedBlock rs with Some h => [x01] ++ h | None => [x00] end ++
      put32 (wrap32 (LockedRound rs)) ++
      put32 (wrap32 (zlen proposal)) ++ proposal ++ prevotes ++ precommits ++
      put32 (wrap32 (zlen attestation)) ++ attestation).

(** The votes of a snapshot; each must carry a valid signature. *)
Fixpoint readVotes (n : nat) (chainID : bytes) (r : reader) (votes : gmap (arr 32) Vote) :
    res (gmap (arr 32) Vote * reader) :=
  match n with
  | O => Ok (votes, r)
  | S n =>
    let* '(data, r) := readInto 141 r in
    let* v := DeserializeVote data in
    if negb (VerifyVoteForChain v chainID) then failf "snapshot vote signature" else
    readVotes n chainID r (<[VValidatorPK v := v]> votes)
  end.

Definition decodeVotes (chainID : bytes) (r : reader) : res (gmap (arr 32) Vote * reader) :=
  let* '(count, r) := readBE 4 r in
  if (count >? maxPersistedVotes) || (count * 141 >? zlen r) then failf "snapshot vote count" else
  readVotes (Z.to_nat count) chainID r ∅.

Fixpoint readAttestationVotes (n : nat) (chainID : bytes) (height round : Z) (blockHash : arr 32) (r : reader) :
    res (list Vote * reader) :=
  match n with
  | O => Ok ([], r)
  | S n =>
    let* '(data, r) := readInto 141 r in
    let* v := DeserializeVote data in
    if negb (VerifyVoteForChain v chainID) then failf "attestation vote signature" else
    if negb (VType v =? VotePrecommit) || negb (VHeight v =? height) || negb (VRound v =? round) ||
       bool_decide (VBlockHash v <> blockHash) then failf "attestation vote context" else
    let* '(vs, r) := readAttestationVotes n chainID height round blockHash r in
    Ok (v :: vs, r)
  end.

Definition deserializeAttestation (data : bytes) (chainID : bytes) : res AttestationSet :=
  if zlen data =? 0 then Ok emptyAttestation else
  let* '(height, r) := readBE 8 data in
  let* '(round, r) := readBE 4 r in
  let* '(blockHash, r) := readInto 32 r in
  let* '(count, r) := readBE 4 r in
  if (count >? maxPersistedVotes) || (count * 141 >? zlen r) then failf "attestation vote count" else
  let* '(votes, r) := readAttestationVotes (Z.to_nat count) chainID height round (mk_arr 32 blockHash) r in
  if negb (zlen r =? 0) then failf "attestation trailing bytes" else
  Ok (mkAttestationSet height round (mk_arr 32 blockHash) votes).

Definition deserializeOptionalProposal (data : bytes) (chainID : bytes) : res (option BlockProposal) :=
  if zlen data =? 0 then Ok None else
  let* p := DeserializeProposal data in
  let* ok := VerifyProposalForChain p chainID in
  if negb ok then failf "snapshot proposal signature" else
  let* _ := foldM (fun _ t => tx.VerifySigsForChain t chainID) tt (PTxs p) in
  Ok (Some p).

(** The last field, absent from old snapshots. *)
Definition decodeAttestation (chainID : bytes) (r : reader) : res (AttestationSet * reader) :=
  if zlen r >? 0 then
    let* '(attestationLen, r) := readBE 4 r in
    if attestationLen >? wrap32 (zlen r) then failf "snapshot attestation length" else
    let* '(data, r) := (if attestationLen >? 0 then readInto (Z.to_nat attestationLen) r else Ok ([], r)) in
    let* a := deserializeAttestation data chainID in
    Ok (a, r)
  else Ok (emptyAttestation, r).

(** Everything after the lock: proposal, votes, attestation, and the end of input. *)
Definition decodeRest (chainID : bytes) (r : reader) :
    res (option BlockProposal * gmap (arr 32) Vote * gmap (arr 32) Vote * AttestationSet) :=
  let* '(proposalLen, r) := readBE 4 r in
  if proposalLen >? wrap32 (zlen r) then failf "snapshot proposal length" else
  let* '(proposalData, r) := readInto (Z.to_nat proposalLen) r in
  let* proposal := deserializeOptionalProposal proposalData chainID in
  let* '(prevotes, r) := decodeVotes chainID r in
  let* '(precommits, r) := decodeVotes chainID r in
  let* '(attestation, r) := decodeAttestation chainID r in
  if negb (zlen r =? 0) then failf "snapshot trailing bytes" else
  Ok (proposal, prevotes, precommits, attestation).

Definition decodeRoundState (data : bytes) (chainID : bytes) : res RoundState :=
  let* '(height, r) := readBE 8 data in
  let* '(round, r) := readBE 4 r in
  let* '(phase, r) := readByte r in
  let phase := byte_to_Z phase in
  if (phase <? PhasePropose) || (phase >? PhaseCommit) then failf "snapshot phase" else
  let* '(locked, r) := readByte r in
  let locked := negb (byte_to_Z locked =? 0) in
  let* '(lockedHash, r) := (if locked then readInto 32 r else Ok ([], r)) in
  let* '(lockedRound, r) := readBE 4 r in
  let* '(proposal, prevotes, precommits, attestation) := decodeRest chainID r in
  Ok (mkRoundState height round phase proposal prevotes precommits
        (if locked then Some (mk_arr 32 lockedHash) else None)
        (if locked then int32_of lockedRound else -1) attestation).

(** A snapshot that cannot be encoded is not written. *)
Definition persistRoundState {B} `{KV B} (db : DB B) (rs : RoundState) : outcome error (DB B) :=
  match encodeRoundState rs with
  | Ok data => Ok (statemachine.SaveConsensusState db data)
  | Err _ => Ok db
  | Panic => Panic
  end.
End Persist.
End round.
