(* ===== verification/RoundProofs.v ===== *)
(** * core/consensus: a snapshot restores the round state *)

From S2P Require Import Prelude GoBytes Errors Platform Tx TxProofs BatchProofs KV Staking Mint Contract BlockStore StateMachine.
From S2P Require Import StateMachineProofs BlockProofs Vote VoteProofs QuorumProofs Round.
Import vote round.

(** ** Reading *)
Lemma readBE_app n z (r : bytes) : 0 <= z < 256 ^ Z.of_nat n -> readBE n (be_enc n z ++ r) = Ok (z, r).
Proof.
  intros Hz. unfold readBE. rewrite zlen_app, zlen_be_enc. pose proof (zlen_nonneg r).
  rewrite Z.gtb_ltb, (proj2 (Z.ltb_ge _ _)) by lia.
  rewrite take_app_length', drop_app_length', be_dec_enc_small by (rewrite ?be_enc_length; done). done.
Qed.

Lemma readBE_range n r z r' : readBE n r = Ok (z, r') -> 0 <= z < 256 ^ Z.of_nat n.
Proof.
  unfold readBE. intros Hr. osteps Hr. bsimp. simplify_eq. pose proof (be_dec_range (take n r)) as Hz.
  replace (zlen (take n r)) with (Z.of_nat n) in Hz; [done|]. unfold zlen in *. rewrite length_take. lia.
Qed.

Lemma readInto_app n (l r : bytes) : length l = n -> l ++ r <> [] -> readInto n (l ++ r) = Ok (l, r).
Proof.
  intros Hl Hne. unfold readInto. destruct (l ++ r) eqn:E; [done|]. rewrite <- E.
  unfold copy_to. rewrite take_app_length', drop_app_length' by done.
  rewrite length_app. replace (n - (length l + length r))%nat with 0%nat by lia. by rewrite app_nil_r.
Qed.

Lemma readInto_arr n (a : arr (S n)) r : readInto (S n) (arr_bytes a ++ r) = Ok (arr_bytes a, r).
Proof.
  apply readInto_app; [apply arr_length|]. intros He. apply (f_equal length) in He.
  rewrite length_app, arr_length in He. done.
Qed.

(** ** Transactions and proposals under canonicalisation *)
Section Canon.
Context `{PlatformLaws}.

Lemma SerializeBatch_canon txs d : tx.SerializeBatch txs = Ok d -> tx.SerializeBatch (map canon txs) = Ok d.
Proof.
  unfold tx.SerializeBatch. replace (zlen (map canon txs)) with (zlen txs) by (unfold zlen; by rewrite length_map).
  intros Hs. osteps Hs. pose proof Hs as Hf. apply foldM_appendTx in Hf as (bs & HF & -> & Hm).
  apply foldM_appendTx_ok.
  - rewrite <- (map_id bs). clear -HF H0. induction HF as [|t b txs bs [Hb Hl] HF IH]; cbn [map]; constructor; [|done].
    split; [by apply Serialize_canon|done].
  - rewrite <- zlen_app. apply Hm. by intros ->.
Qed.

Lemma body_canon p d : serializeProposalBody p = Ok d -> serializeProposalBody (canonProposal p) = Ok d.
Proof.
  unfold serializeProposalBody, canonProposal. cbn [PTxs PrevAttestations PHeight PRound ProposerPK PPrevStateRoot].
  replace (zlen (map canon (PTxs p))) with (zlen (PTxs p)) by (unfold zlen; by rewrite length_map).
  intros Hs. osteps Hs; [|done]. match goal with Hb : tx.SerializeBatch _ = Ok _ |- _ => rewrite (SerializeBatch_canon _ _ Hb) end.
  done.
Qed.

Lemma sign_bytes_canon p d chainID :
  serializeProposalBody p = Ok d -> ProposalSignBytesForChain (canonProposal p) chainID = ProposalSignBytesForChain p chainID.
Proof. intros Hd. unfold ProposalSignBytesForChain. by rewrite Hd, (body_canon p d Hd). Qed.
End Canon.

(** ** The pieces of a snapshot *)
Section Pieces.
Context `{PlatformLaws} `{MapOrderLaws}.
Implicit Types (votes : gmap (arr 32) Vote) (r : bytes).

Definition votes_ok (chainID : bytes) votes : Prop :=
  forall pk v, votes !! pk = Some v -> VValidatorPK v = pk /\ vote_wf v /\ VerifyVoteForChain v chainID = true.

Definition addVote votes (v : Vote) : gmap (arr 32) Vote := <[VValidatorPK v := v]> votes.

Lemma readVotes_read chainID vs r votes :
  Forall (fun v => vote_wf v /\ VerifyVoteForChain v chainID = true) vs ->
  readVotes (length vs) chainID (concat (map Serialize vs) ++ r) votes = Ok (foldl addVote votes vs, r).
Proof.
  intros Hf. revert votes. induction Hf as [|v vs [Hw Hv] Hf IH]; intros votes; [done|].
  cbn [length readVotes map concat foldl]. rewrite <- app_assoc.
  rewrite readInto_app; [|pose proof (zlen_Serialize v); unfold zlen in *; lia|done].
  cbn [obind]. rewrite vote_roundtrip by done. cbn [obind]. rewrite Hv. cbn [negb]. apply IH.
Qed.

Lemma foldl_addVote vs votes pk :
  NoDup (map VValidatorPK vs) ->
  (forall v, v ∈ vs -> VValidatorPK v = pk -> foldl addVote votes vs !! pk = Some v) /\
  ((pk ∉ map VValidatorPK vs) -> foldl addVote votes vs !! pk = votes !! pk).
Proof.
  revert votes. induction vs as [|w vs IH]; intros votes Hn; cbn [foldl map] in *; [split; [set_solver|done]|].
  inversion Hn as [|? ? Hw Hn']; subst. destruct (IH (addVote votes w) Hn') as [IH1 IH2]. split.
  - intros v [->|Hin]%elem_of_cons Hpk; [|by apply IH1]. rewrite IH2 by by rewrite <- Hpk.
    unfold addVote. rewrite Hpk. apply lookup_insert_eq.
  - intros [Hne Hnin]%not_elem_of_cons. rewrite IH2 by done. unfold addVote. by rewrite lookup_insert_ne.
Qed.

Lemma map_votes_In votes v : v ∈ map snd (map_iter votes) <-> exists pk, votes !! pk = Some v.
Proof.
  rewrite map_iter_perm. change (map snd ?l) with (snd <$> l). rewrite list_elem_of_fmap. split.
  - intros ([pk w] & -> & Hin). exists pk. by apply elem_of_map_to_list in Hin.
  - intros [pk Hv]. exists (pk, v). by rewrite elem_of_map_to_list.
Qed.

Lemma map_votes_nodup votes : keyed votes -> NoDup (map VValidatorPK (map snd (map_iter votes))).
Proof.
  intros Hk. rewrite map_map, map_iter_perm, (map_ext_in _ fst); [apply NoDup_fst_map_to_list|].
  intros [pk v] Hi. apply list_elem_of_In, elem_of_map_to_list in Hi. by apply Hk.
Qed.

Lemma rebuild_votes votes : keyed votes -> foldl addVote ∅ (map snd (map_iter votes)) = votes.
Proof.
  intros Hk. apply map_eq. intros pk.
  destruct (foldl_addVote (map snd (map_iter votes)) ∅ pk (map_votes_nodup votes Hk)) as [H1' H2'].
  destruct (votes !! pk) as [v|] eqn:E.
  - apply H1'; [|by apply Hk]. apply map_votes_In. eauto.
  - rewrite H2'; [apply lookup_empty|]. intros (v & -> & Hin)%list_elem_of_fmap.
    apply map_votes_In in Hin as [pk' Hv]. rewrite (Hk _ _ Hv) in E. congruence.
Qed.

Lemma votes_roundtrip chainID votes d r :
  votes_ok chainID votes -> encodeVotes votes = Ok d -> decodeVotes chainID (d ++ r) = Ok (votes, r).
Proof.
  intros Hok He. unfold encodeVotes in He. osteps He. bsimp. apply Ok_inj in He as <-.
  assert (keyed votes) as Hk by (intros pk v Hv; by apply Hok in Hv as [? _]).
  set (vs := map snd (map_iter votes)) in *. pose proof (zlen_nonneg vs). unfold maxPersistedVotes in *.
  rewrite wrap32_small by (unfold two32; lia). unfold decodeVotes, put32. rewrite <- app_assoc, readBE_app by lia.
  cbn [obind]. rewrite zlen_app, zlen_votes. pose proof (zlen_nonneg r).
  replace ((zlen vs >? maxPersistedVotes) || (zlen vs * 141 >? 141 * zlen vs + zlen r)) with false
    by (symmetry; apply orb_false_iff; rewrite !Z.gtb_ltb, !Z.ltb_ge; unfold maxPersistedVotes; lia).
  replace (Z.to_nat (zlen vs)) with (length vs) by (unfold zlen; lia).
  rewrite readVotes_read.
  - subst vs. by rewrite rebuild_votes.
  - apply Forall_forall. intros v [pk Hv]%map_votes_In. by apply Hok in Hv as (_ & ? & ?).
Qed.

Definition attestation_ok (chainID : bytes) (a : AttestationSet) : Prop :=
  is_u64 (AHeight a) /\ is_u32 (ARound a) /\ Forall vote_wf (AVotes a) /\ Forall (vote_attests a chainID) (AVotes a).

Lemma readAttestationVotes_read chainID a vs r :
  Forall vote_wf vs -> Forall (vote_attests a chainID) vs ->
  readAttestationVotes (length vs) chainID (AHeight a) (ARound a) (ABlockHash a) (concat (map Serialize vs) ++ r) = Ok (vs, r).
Proof.
  intros Hw Ha. revert Ha. induction Hw as [|v vs Hv Hw IH]; intros Ha; [done|].
  inversion Ha as [|? ? (Ht & Hh & Hr & Hb & Hs) Ha']; subst.
  cbn [length readAttestationVotes map concat]. rewrite <- app_assoc.
  rewrite readInto_app; [|pose proof (zlen_Serialize v); unfold zlen in *; lia|done].
  cbn [obind]. rewrite vote_roundtrip by done. cbn [obind]. rewrite Hs, Ht, Hh, Hr, Hb, !Z.eqb_refl. cbn [negb orb].
  rewrite bool_decide_eq_false_2 by tauto. by rewrite IH.
Qed.

(** Without votes only the absence of an attestation is recorded. *)
Definition canonAttestation (a : AttestationSet) : AttestationSet :=
  match AVotes a with [] => emptyAttestation | _ => a end.

Lemma attestation_roundtrip chainID a d :
  attestation_ok chainID a -> serializeAttestation a = Ok d ->
  zlen d <= 48 + 141 * 4096 /\ deserializeAttestation d chainID = Ok (canonAttestation a).
Proof.
  intros (Hh & Hr & Hw & Ha) Hs. unfold serializeAttestation, canonAttestation in *.
  pose proof (zlen_nonneg (AVotes a)). osteps Hs; bsimp; apply Ok_inj in Hs as <-.
  { destruct (AVotes a); [done|]. rewrite zlen_cons in *. pose proof (zlen_nonneg l). lia. }
  unfold maxPersistedVotes in *. rewrite wrap32_small by (unfold two32; lia).
  rewrite !zlen_app, zlen_put64, !zlen_put32, zlen_arr, zlen_votes.
  split; [lia|]. unfold deserializeAttestation.
  rewrite !zlen_app, zlen_put64, !zlen_put32, zlen_arr, zlen_votes.
  rewrite (proj2 (Z.eqb_neq _ _)) by lia.
  unfold put64, put32, is_u64, is_u32, two64, two32 in *. rewrite readBE_app by lia. cbn [obind].
  rewrite readBE_app by lia. cbn [obind]. rewrite readInto_arr. cbn [obind]. rewrite readBE_app by lia. cbn [obind].
  rewrite zlen_votes.
  replace ((zlen (AVotes a) >? maxPersistedVotes) || (zlen (AVotes a) * 141 >? 141 * zlen (AVotes a))) with false
    by (symmetry; apply orb_false_iff; rewrite !Z.gtb_ltb, !Z.ltb_ge; unfold maxPersistedVotes; lia).
  rewrite mk_arr_bytes. replace (Z.to_nat (zlen (AVotes a))) with (length (AVotes a)) by (unfold zlen; lia).
  pose proof (readAttestationVotes_read chainID a (AVotes a) [] Hw Ha) as HR. rewrite app_nil_r in HR.
  rewrite HR. cbn [obind]. change (zlen (@nil byte) =? 0) with true. cbn [negb]. destruct a as [? ? ? vs]. cbn in *. by destruct vs.
Qed.
End Pieces.

(** ** The whole snapshot *)
Section Snapshot.
Context `{PlatformLaws} `{MapOrderLaws}.

(** The proposal a node holds: checked when it arrived or signed by itself. *)
Definition held_proposal (chainID : bytes) (p : BlockProposal) : Prop :=
  proposal_wf p /\ VerifyProposalForChain p chainID = Ok true /\
  Forall (fun t => tx.VerifySigsForChain t chainID = Ok tt) (PTxs p).

Record snapshot_ok (chainID : bytes) (rs : RoundState) : Prop :=
  { so_height : is_u64 (Height rs);
    so_round : is_u32 (Round rs);
    so_phase : PhasePropose <= Phase rs <= PhaseCommit;
    so_locked : - 2 ^ 31 <= LockedRound rs < 2 ^ 31;
    so_proposal : forall p, Proposal rs = Some p -> held_proposal chainID p;
    so_prevotes : votes_ok chainID (Prevotes rs);
    so_precommits : votes_ok chainID (Precommits rs);
    so_attestation : attestation_ok chainID (LastAttestation rs) }.

(** A snapshot with a proposal of the full 65536 transactions. *)
Definition fullSnapshot (rs : RoundState) : bool :=
  match Proposal rs with Some p => fullProposal p | None => false end.

(** What a snapshot keeps. *)
Definition canonRoundState (rs : RoundState) : RoundState :=
  mkRoundState (Height rs) (Round rs) (Phase rs) (canonProposal <$> Proposal rs) (Prevotes rs) (Precommits rs)
    (LockedBlock rs) (match LockedBlock rs with Some _ => LockedRound rs | None => -1 end)
    (canonAttestation (LastAttestation rs)).

Lemma SerializeProposal_size p d :
  SerializeProposal p = Ok d -> 188 <= zlen d <= 192 + 141 * 4096 + 32 * 2 ^ 20.
Proof.
  unfold SerializeProposal. intros (body & Hb & <-%Ok_inj)%obind_ok_inv.
  apply serializeProposalBody_inv in Hb as (batch & Hbatch & Hv & _ & ->).
  assert (0 <= zlen batch <= 32 * 2 ^ 20) as Hz.
  { split; [apply zlen_nonneg|]. destruct Hbatch as [[_ ->]|[Hne Hb]]; [rewrite zlen_nil; lia|].
    unfold tx.SerializeBatch in Hb. osteps Hb. apply foldM_appendTx in Hb as (bs & _ & -> & Hm). by apply Hm. }
  rewrite zlen_app, zlen_concat. cbn [map zsum foldr]. rewrite !zlen_app, zlen_votes, zlen_put32.
  autorewrite with len. pose proof (zlen_nonneg (AVotes (PrevAttestations p))). unfold maxProposalVotes in *. lia.
Qed.

Lemma optional_proposal_roundtrip chainID p d :
  (forall q, p = Some q -> held_proposal chainID q) -> serializeOptionalProposal p = Ok d ->
  deserializeOptionalProposal d chainID =
    if match p with Some q => fullProposal q | None => false end then fail ErrCanonicalEncodingDistortion
    else Ok (canonProposal <$> p).
Proof.
  intros Hp Hs. destruct p as [p|]; cbn [serializeOptionalProposal] in *; [|by simplify_eq].
  destruct (Hp p eq_refl) as (Hw & Hv & Ht). pose proof (SerializeProposal_size p d Hs) as Hz.
  unfold deserializeOptionalProposal. rewrite (proj2 (Z.eqb_neq _ _)) by lia.
  rewrite (proposal_read p d Hw Hs). destruct (fullProposal p); [done|]. cbn [obind].
  unfold SerializeProposal in Hs. apply obind_ok_inv in Hs as (body & Hb & _).
  assert (VerifyProposalForChain (canonProposal p) chainID = Ok true) as ->.
  { unfold VerifyProposalForChain in *. by rewrite (sign_bytes_canon p body chainID Hb). }
  cbn [obind negb]. rewrite foldM_unit; [done|]. cbn. intros t (t0 & -> & Hin)%list_elem_of_fmap.
  apply VerifySigs_canon. by rewrite Forall_forall in Ht; apply Ht.
Qed.

Lemma int32_roundtrip z : - 2 ^ 31 <= z < 2 ^ 31 -> int32_of (wrap32 z) = z.
Proof.
  intros Hz. unfold int32_of, wrap32, two32. rewrite Z.add_mod_idemp_l by done.
  rewrite Z.mod_small by lia. lia.
Qed.

Lemma encodeVotes_size votes d : encodeVotes votes = Ok d -> 4 <= zlen d <= 4 + 141 * 4096.
Proof.
  unfold encodeVotes. intros Hs. osteps Hs. bsimp. apply Ok_inj in Hs as <-.
  rewrite zlen_app, zlen_put32, zlen_votes. unfold maxPersistedVotes in *.
  pose proof (zlen_nonneg (map snd (map_iter votes))). lia.
Qed.

Lemma decodeAttestation_read chainID a d :
  attestation_ok chainID a -> serializeAttestation a = Ok d ->
  decodeAttestation chainID (put32 (wrap32 (zlen d)) ++ d) = Ok (canonAttestation a, []).
Proof.
  intros Ha Hs. destruct (attestation_roundtrip chainID a d Ha Hs) as [Hz Hd]. pose proof (zlen_nonneg d).
  unfold decodeAttestation. rewrite zlen_app, zlen_put32, Z.gtb_ltb, (proj2 (Z.ltb_lt _ _)) by lia.
  rewrite wrap32_small by (unfold two32; lia). unfold put32. rewrite readBE_app by lia. cbn [obind].
  rewrite (wrap32_small (zlen d)) by (unfold two32; lia). if_step.
  destruct (decide (d = [])) as [->|Hne].
  - change (zlen [] >? 0) with false. cbn [obind]. by rewrite Hd.
  - assert (0 < zlen d) by (destruct d; [done|]; rewrite zlen_cons; pose proof (zlen_nonneg d); lia).
    rewrite (Z.gtb_ltb _ 0), (proj2 (Z.ltb_lt 0 _)) by lia. rewrite <- (app_nil_r d) at 2. rewrite readInto_app; [|unfold zlen; lia|by rewrite app_nil_r].
    cbn [obind]. by rewrite Hd.
Qed.

Lemma decodeRest_read chainID rs pd v1 v2 ad :
  snapshot_ok chainID rs -> serializeOptionalProposal (Proposal rs) = Ok pd -> encodeVotes (Prevotes rs) = Ok v1 ->
  encodeVotes (Precommits rs) = Ok v2 -> serializeAttestation (LastAttestation rs) = Ok ad ->
  decodeRest chainID (put32 (wrap32 (zlen pd)) ++ pd ++ v1 ++ v2 ++ put32 (wrap32 (zlen ad)) ++ ad) =
  if fullSnapshot rs then fail ErrCanonicalEncodingDistortion
  else Ok (canonProposal <$> Proposal rs, Prevotes rs, Precommits rs, canonAttestation (LastAttestation rs)).
Proof.
  intros [Hh Hr Hp Hl Hprop Hpv Hpc Ha] Hpd Hv1 Hv2 Had.
  pose proof (attestation_roundtrip chainID _ ad Ha Had) as [Hza _].
  pose proof (encodeVotes_size _ _ Hv1) as Hz1. pose proof (encodeVotes_size _ _ Hv2) as Hz2.
  assert (0 <= zlen pd <= 192 + 141 * 4096 + 32 * 2 ^ 20) as Hzp.
  { destruct (Proposal rs) as [p|]; cbn in Hpd; [|simplify_eq; change (zlen (@nil byte)) with 0; lia].
    pose proof (SerializeProposal_size p pd Hpd). lia. }
  pose proof (zlen_nonneg ad). set (tail := v1 ++ v2 ++ put32 (wrap32 (zlen ad)) ++ ad).
  assert (0 < zlen tail <= 12 + 3 * 141 * 4096 + 48) as Hzt by (subst tail; rewrite !zlen_app, zlen_put32; lia).
  assert (tail <> []) as Htail by (intros He; rewrite He in Hzt; change (zlen (@nil byte)) with 0 in Hzt; lia).
  unfold decodeRest. rewrite (wrap32_small (zlen pd)) by (unfold two32; lia).
  unfold put32 at 1. rewrite readBE_app by lia. cbn [obind].
  rewrite zlen_app, wrap32_small by (unfold two32; lia). if_step.
  rewrite readInto_app; [|unfold zlen; lia|by destruct pd]. cbn [obind].
  rewrite (optional_proposal_roundtrip chainID _ pd Hprop Hpd). unfold fullSnapshot.
  destruct (match Proposal rs with Some q => _ | None => _ end); [done|]. cbn [obind]. subst tail.
  rewrite (votes_roundtrip chainID _ v1 _ Hpv Hv1). cbn [obind].
  rewrite (votes_roundtrip chainID _ v2 _ Hpc Hv2). cbn [obind].
  by rewrite (decodeAttestation_read chainID _ ad Ha Had).
Qed.

(** Whatever [encodeRoundState] writes of a well-formed state, [decodeRoundState]
    returns, with transactions in canonical form, an attestation without votes
    dropped, and the round of a released lock forgotten; only a state with a
    proposal of 65536 transactions is refused. *)
Lemma snapshot_read rs d chainID :
  snapshot_ok chainID rs -> encodeRoundState rs = Ok d ->
  decodeRoundState d chainID = if fullSnapshot rs then fail ErrCanonicalEncodingDistortion else Ok (canonRoundState rs).
Proof.
  intros Hok He. unfold encodeRoundState in He.
  apply obind_ok_inv in He as (pd & Hpd & He). apply obind_ok_inv in He as (v1 & Hv1 & He).
  apply obind_ok_inv in He as (v2 & Hv2 & He). apply obind_ok_inv in He as (ad & Had & <-%Ok_inj).
  pose proof (decodeRest_read chainID rs pd v1 v2 ad Hok Hpd Hv1 Hv2 Had) as Hrest.
  destruct Hok as [Hh Hr Hp Hl _ _ _ _]. unfold decodeRoundState, is_u64, is_u32, PhasePropose, PhaseCommit in *.
  assert (0 <= wrap32 (LockedRound rs) < 256 ^ Z.of_nat 4) as Hwl by (apply Z.mod_pos_bound; done).
  unfold put64 at 1. rewrite readBE_app by (unfold two64 in *; lia). cbn [obind].
  unfold put32 at 1. rewrite readBE_app by (unfold two32 in *; lia). cbn [obind app readByte].
  rewrite byte_to_of_Z, Z.mod_small by lia.
  replace ((Phase rs <? 1) || (Phase rs >? 4)) with false
    by (symmetry; apply orb_false_iff; rewrite Z.gtb_ltb, !Z.ltb_ge; lia).
  unfold canonRoundState. destruct (LockedBlock rs) as [bh|]; cbn [app readByte obind].
  - change (byte_to_Z x01 =? 0) with false. cbn [negb]. rewrite readInto_arr. cbn [obind].
    unfold put32 at 1. rewrite readBE_app by done. cbn [obind]. rewrite Hrest. destruct (fullSnapshot rs); [done|]. cbn [obind].
    by rewrite mk_arr_bytes, int32_roundtrip by done.
  - change (byte_to_Z x00 =? 0) with true. cbn [negb obind].
    unfold put32 at 1. rewrite readBE_app by done. cbn [obind]. rewrite Hrest. by destruct (fullSnapshot rs).
Qed.

(** ** What a restored state holds *)
Lemma restored_proposal d chainID p :
  deserializeOptionalProposal d chainID = Ok (Some p) -> held_proposal chainID p.
Proof.
  unfold deserializeOptionalProposal. destruct (_ =? 0); [done|]. intros (q & Hq & Hd)%obind_ok_inv.
  apply obind_ok_inv in Hd as (ok & Hok & Hd). destruct ok; [|done]. cbn [negb] in Hd.
  apply obind_ok_inv in Hd as ([] & Hs & [= <-]%Ok_inj). split_and!; [by eapply DeserializeProposal_wf|done|].
  by apply (verifySerial_ok (PTxs q) chainID).
Qed.

Lemma readAttestationVotes_ok n chainID h r bh rd vs rd' :
  readAttestationVotes n chainID h r bh rd = Ok (vs, rd') ->
  Forall vote_wf vs /\ Forall (vote_attests (mkAttestationSet h r bh vs) chainID) vs.
Proof.
  assert (forall vs0, readAttestationVotes n chainID h r bh rd = Ok (vs, rd') ->
    Forall vote_wf vs /\ Forall (vote_attests (mkAttestationSet h r bh vs0) chainID) vs) as Hgen; [|by auto].
  intros vs0. revert rd vs rd'. induction n as [|n IH]; intros rd vs rd' Hr; cbn [readAttestationVotes] in Hr; [by simplify_eq|].
  osteps Hr. simplify_eq. match goal with Hv : readAttestationVotes _ _ _ _ _ _ = Ok _ |- _ => apply IH in Hv as [Hw Ha] end.
  bsimp. split; (constructor; [|done]); [by eapply DeserializeVote_wf|]. unfold vote_attests. cbn. split_and!; auto.
Qed.

Lemma restored_attestation d chainID a : deserializeAttestation d chainID = Ok a -> attestation_ok chainID a.
Proof.
  unfold deserializeAttestation. intros Hd. osteps Hd; simplify_eq.
  { split_and!; try done; constructor. }
  match goal with Hv : readAttestationVotes _ _ _ _ _ _ = Ok _ |- _ => apply readAttestationVotes_ok in Hv as [Hw Ha] end.
  repeat match goal with Hb : readBE _ _ = Ok _ |- _ => apply readBE_range in Hb end.
  by split_and!.
Qed.
End Snapshot.
