(* ===== verification/Engine.v ===== *)
(** * core/consensus: the engine (consensus.go)

    One goroutine, [Start], owns the round state and handles one event at a
    time: a message, a timer, or the signal that a delayed proposal of its own
    is due.  A handler is a function from engine to engine.  [handleVote] calls
    itself with the votes the node casts in reply, so it has fuel, the depth of
    the Go stack; running out is [Panic].

    The engine's proposer is an interface of the source ([Proposer]);
    [blockloop_proposer] is the implementation the node uses.

    [trace] is a history variable, newest entry first: what the node has
    broadcast and what it has committed. *)

From S2P Require Import Prelude GoBytes Errors Platform Tx KV Denom Ledger Staking Gas Mint Node Tree Contract BlockStore Telemetry StateMachine.
From S2P Require Import Vote BlockLoop Round.

(** [Proposer], and the two optional interfaces that are found by type assertion. *)
Class Proposer (P : Type) : Type :=
  { Propose : P -> Z -> Z -> vote.AttestationSet -> res vote.BlockProposal;
    OnCommit : P -> Z -> list tx.Tx -> P;
    OnReject : option (P -> Z -> list tx.Tx -> P);                          (* RejectingProposer *)
    ProposeForState : option (P -> Z -> Z -> vote.AttestationSet -> arr 32 -> res vote.BlockProposal) }.  (* StateRootProposer *)

#[export] Instance blockloop_proposer `{Platform} : Proposer blockloop.BlockLoop :=
  { Propose := blockloop.Propose;
    OnCommit := blockloop.OnCommit;
    OnReject := Some blockloop.OnReject;
    ProposeForState := Some blockloop.ProposeForState }.

Module engine.
Import vote round.

Inductive output : Type :=
| SentVote (v : Vote)
| SentProposal (data : bytes)
| Committed (height rnd : Z) (p : BlockProposal) (precommits : gmap (arr 32) Vote)
    (validators : list (arr 32)) (stakes : list Z).

(** Whether each timer will fire. *)
Record Timers : Type := mkTimers { proposeTimer : bool; prevoteTimer : bool; precommitTimer : bool }.

Record EngineStatus : Type := mkEngineStatus { SHeight : Z; SRound : Z; SPhase : Z }.

Record Engine (B P : Type) : Type := mkEngine
  { db : DB B;                          (* staking store and state machine *)
    proposer : option P;
    rs : RoundState;
    status : EngineStatus;
    timers : Timers;
    delayed : nat;                      (* AfterFunc callbacks that have not run *)
    proposeReady : bool;                (* the buffered channel holds a signal *)
    validators : list (arr 32);         (* local variables of Start *)
    stakes : list Z;
    trace : list output }.
Arguments mkEngine {B P}. Arguments db {B P}. Arguments proposer {B P}. Arguments rs {B P}. Arguments status {B P}.
Arguments timers {B P}. Arguments delayed {B P}. Arguments proposeReady {B P}. Arguments validators {B P}.
Arguments stakes {B P}. Arguments trace {B P}.

Section Fields.
Context {B P : Type}.
Implicit Types (e : Engine B P).

Definition set_db e (d : DB B) : Engine B P :=
  mkEngine d (proposer e) (rs e) (status e) (timers e) (delayed e) (proposeReady e) (validators e) (stakes e) (trace e).
Definition set_proposer e (p : option P) : Engine B P :=
  mkEngine (db e) p (rs e) (status e) (timers e) (delayed e) (proposeReady e) (validators e) (stakes e) (trace e).
Definition set_rs e (r : RoundState) : Engine B P :=
  mkEngine (db e) (proposer e) r (status e) (timers e) (delayed e) (proposeReady e) (validators e) (stakes e) (trace e).
Definition set_timers e (t : Timers) : Engine B P :=
  mkEngine (db e) (proposer e) (rs e) (status e) t (delayed e) (proposeReady e) (validators e) (stakes e) (trace e).
Definition set_delayed e (n : nat) (ready : bool) : Engine B P :=
  mkEngine (db e) (proposer e) (rs e) (status e) (timers e) n ready (validators e) (stakes e) (trace e).
Definition set_validators e (vs : list (arr 32)) (ss : list Z) : Engine B P :=
  mkEngine (db e) (proposer e) (rs e) (status e) (timers e) (delayed e) (proposeReady e) vs ss (trace e).
Definition emit e (o : output) : Engine B P :=
  mkEngine (db e) (proposer e) (rs e) (status e) (timers e) (delayed e) (proposeReady e) (validators e) (stakes e) (o :: trace e).

Definition setStatus e : Engine B P :=
  mkEngine (db e) (proposer e) (rs e) (mkEngineStatus (Height (rs e)) (Round (rs e)) (Phase (rs e))) (timers e)
    (delayed e) (proposeReady e) (validators e) (stakes e) (trace e).

Definition armPropose e (on : bool) : Engine B P := set_timers e (mkTimers on (prevoteTimer (timers e)) (precommitTimer (timers e))).
Definition armPrevote e (on : bool) : Engine B P := set_timers e (mkTimers (proposeTimer (timers e)) on (precommitTimer (timers e))).
Definition armPrecommit e (on : bool) : Engine B P := set_timers e (mkTimers (proposeTimer (timers e)) (prevoteTimer (timers e)) on).
End Fields.

Section Engine.
Context `{Platform} `{contract.Wasmtime} `{telemetry.Json} `{MapOrder} {B P : Type} `{KV B} `{Proposer P}.
Context (kp : keys.Keypair) (chainID : bytes) (ncpu : Z) (iter : gset (arr 32) -> list (arr 32)).
Implicit Types (e : Engine B P).

Definition prevStateRoot e : arr 32 := statemachine.CurrentStateRoot (db e).

(** The error of [SkipProposer] is ignored where this is used. *)
Definition electedOrZero (root : arr 32) (height : Z) (vs : list (arr 32)) (rnd : Z) : res (arr 32) :=
  match leader.SkipProposer root height vs rnd with
  | Err _ => Ok (zero_arr 32)
  | r => r
  end.

Definition persist e : res (Engine B P) := let* d := persistRoundState (db e) (rs e) in Ok (set_db e d).

(** ** Casting votes *)
Definition broadcastVote (ty : Z) e (blockHash : arr 32) : Engine B P * option Vote :=
  let '(d, fresh) := statemachine.RecordConsensusVote (db e) (Height (rs e)) (Round (rs e)) ty blockHash in
  let e := set_db e d in
  if negb fresh then (e, None) else
  let v := mkVote ty (Height (rs e)) (Round (rs e)) blockHash (keys.PublicKey kp) (zero_arr 64) in
  let v := mkVote ty (Height (rs e)) (Round (rs e)) blockHash (keys.PublicKey kp)
             (keys.Sign kp (VoteSignBytesForChain v chainID)) in
  (emit e (SentVote v), Some v).

Definition broadcastPrevote : Engine B P -> arr 32 -> Engine B P * option Vote := broadcastVote VotePrevote.
Definition broadcastPrecommit : Engine B P -> arr 32 -> Engine B P * option Vote := broadcastVote VotePrecommit.

(** ** Committing *)
Definition commit e (vs : list (arr 32)) (ss : list Z) (blockHash : arr 32) : res (Engine B P * bool) :=
  match Proposal (rs e) with
  | None => Ok (e, false)
  | Some p =>
    let* h := BlockHashForChain p chainID in
    if bool_decide (h <> blockHash) then Ok (e, false) else
    match SerializeProposal p with
    | Err _ => Ok (e, false)
    | Panic => Panic
    | Ok data =>
      let b := blockstore.mkBlock (Height (rs e)) (PTxs p) (ProposerPK p) (PPrevStateRoot p) (zero_arr 32) data in
      match statemachine.ApplyBlockForChain ncpu iter (db e) b chainID with
      | (d, Ok _) =>
        let e := set_db e (statemachine.ClearConsensusState d) in
        let e := set_proposer e ((fun q => OnCommit q (Height (rs e)) (PTxs p)) <$> proposer e) in
        Ok (emit e (Committed (Height (rs e)) (Round (rs e)) p (Precommits (rs e)) vs ss), true)
      | (d, Err _) => Ok (set_db e d, false)
      | (_, Panic) => Panic
      end
    end
  end.

Definition rejectProposal e : Engine B P :=
  match @OnReject P _, proposer e, Proposal (rs e) with
  | Some reject, Some q, Some p => set_proposer e (Some (reject q (Height (rs e)) (PTxs p)))
  | _, _, _ => e
  end.

Definition startNextRound e (vs : list (arr 32)) : res (Engine B P) :=
  let e := setStatus (set_rs e (nextHeight (rs e))) in
  let* proposerPK := electedOrZero (prevStateRoot e) (Height (rs e)) vs (Round (rs e)) in
  let e := armPropose e true in
  let e := if bool_decide (proposerPK = keys.PublicKey kp) then set_delayed e (S (delayed e)) (proposeReady e) else e in
  persist e.

(** ** Proposing *)
Definition voteHandler : Type := Engine B P -> Vote -> list (arr 32) -> list Z -> res (Engine B P).

Definition handleOwn (hv : voteHandler) (ev : Engine B P * option Vote) (vs : list (arr 32)) (ss : list Z) : res (Engine B P) :=
  match ev with
  | (e, Some v) => hv e v vs ss
  | (e, None) => Ok e
  end.

Definition makeProposal e (prevRoot : arr 32) (q : P) : res BlockProposal :=
  match @ProposeForState P _ with
  | Some proposeFor => proposeFor q (Height (rs e)) (Round (rs e)) (LastAttestation (rs e)) prevRoot
  | None => Propose q (Height (rs e)) (Round (rs e)) (LastAttestation (rs e))
  end.

Definition broadcastProposal (hv : voteHandler) e (prevRoot : arr 32) (vs : list (arr 32)) (ss : list Z) : res (Engine B P) :=
  match proposer e with
  | None => Ok e
  | Some q =>
    match makeProposal e prevRoot q with
    | Err _ => Ok e
    | Panic => Panic
    | Ok p =>
      if negb (Phase (rs e) =? PhasePropose) then Ok e else
      match SerializeProposal p with
      | Err _ => Ok e
      | Panic => Panic
      | Ok data =>
        let e := setStatus (set_rs e (set_Phase (set_Proposal (rs e) (Some p)) PhasePrevote)) in
        let* e := persist e in
        let e := emit e (SentProposal data) in
        let* blockHash := BlockHashForChain p chainID in
        handleOwn hv (broadcastPrevote e blockHash) vs ss
      end
    end
  end.

(** An error comes from reading the validators, before anything is changed. *)
Definition restartRound (hv : voteHandler) e : res (Engine B P) :=
  let* '(vs, ss) := staking.BondedAmounts (db e) in
  let e := setStatus (set_rs e (IncrementRound (Unlock (rs e)))) in
  let prevRoot := prevStateRoot e in
  let* proposerPK := electedOrZero prevRoot (Height (rs e)) vs (Round (rs e)) in
  let e := armPropose e true in
  let* e := (if bool_decide (proposerPK = keys.PublicKey kp) then broadcastProposal hv e prevRoot vs ss else Ok e) in
  persist e.

Definition restartOrStop (hv : voteHandler) e : res (Engine B P) :=
  match restartRound hv e with
  | Err _ => Ok e
  | r => r
  end.

(** ** Votes *)
Definition onPrevote (hv : voteHandler) e (v : Vote) (vs : list (arr 32)) (ss : list Z) : res (Engine B P) :=
  match Prevotes (rs e) !! VValidatorPK v with
  | Some _ => Ok e
  | None =>
    let* e := persist (set_rs e (set_Prevotes (rs e) (<[VValidatorPK v := v]> (Prevotes (rs e))))) in
    let* reached := QuorumReached (Prevotes (rs e)) vs ss in
    if reached && (Phase (rs e) =? PhasePrevote) then
      let e := setStatus (set_rs e (set_Phase (rs e) PhasePrecommit)) in
      let e := armPrecommit (armPrevote e false) true in
      let* bh := quorumBlock (Prevotes (rs e)) vs ss in
      match bh with
      | Some bh => handleOwn hv (broadcastPrecommit (set_rs e (Lock (rs e) bh (Round (rs e)))) bh) vs ss
      | None => handleOwn hv (broadcastPrecommit e (zero_arr 32)) vs ss
      end
    else Ok e
  end.

Definition afterCommit e (blockHash : arr 32) : res (Engine B P) :=
  let e := set_rs e (set_LastAttestation (rs e) (attestationFromPrecommits (Precommits (rs e)) blockHash)) in
  match staking.BondedAmounts (db e) with
  | Err _ => Ok e
  | Panic => Panic
  | Ok (vs, _) => startNextRound e vs
  end.

Definition onPrecommit (hv : voteHandler) e (v : Vote) (vs : list (arr 32)) (ss : list Z) : res (Engine B P) :=
  match Precommits (rs e) !! VValidatorPK v with
  | Some _ => Ok e
  | None =>
    let* e := persist (set_rs e (set_Precommits (rs e) (<[VValidatorPK v := v]> (Precommits (rs e))))) in
    let* reached := QuorumReached (Precommits (rs e)) vs ss in
    if reached && (Phase (rs e) =? PhasePrecommit) then
      let* bh := quorumBlock (Precommits (rs e)) vs ss in
      match bh with
      | Some bh =>
        if bool_decide (bh <> zero_arr 32) then
          let e := setStatus (set_rs (armPrecommit e false) (set_Phase (rs e) PhaseCommit)) in
          let* '(e, commitOK) := commit e vs ss bh in
          if (commitOK : bool) then afterCommit e bh else restartOrStop hv (rejectProposal e)
        else restartOrStop hv (rejectProposal e)
      | None => restartOrStop hv (rejectProposal e)
      end
    else Ok e
  end.

Definition handleVoteBody (hv : voteHandler) : voteHandler := fun e v vs ss =>
  if negb (VHeight v =? Height (rs e)) || negb (VRound v =? Round (rs e)) then Ok e else
  if negb (VerifyVoteForChain v chainID) then Ok e else
  if negb (bool_decide (VValidatorPK v ∈ vs)) then Ok e else
  if VType v =? VotePrevote then onPrevote hv e v vs ss else
  if VType v =? VotePrecommit then onPrecommit hv e v vs ss else Ok e.

Fixpoint handleVote (fuel : nat) : voteHandler :=
  match fuel with
  | O => fun _ _ _ _ => Panic
  | S fuel => handleVoteBody (handleVote fuel)
  end.

(** ** Proposals of others *)
Definition parseProposal (raw : bytes) : res (option BlockProposal) :=
  match DeserializeProposal raw with
  | Err _ => Ok None
  | Panic => Panic
  | Ok p => let* ok := VerifyProposalForChain p chainID in Ok (if (ok : bool) then Some p else None)
  end.

(** The checks of [handleProposal]; an error of any of them drops the proposal. *)
Definition acceptable e (p : BlockProposal) (vs : list (arr 32)) (ss : list Z) : res bool :=
  if negb (PHeight p =? Height (rs e)) || negb (PRound p =? Round (rs e)) then Ok false else
  if bool_decide (PPrevStateRoot p <> prevStateRoot e) then Ok false else
  if negb (Phase (rs e) =? PhasePropose) || bool_decide (is_Some (Proposal (rs e))) then Ok false else
  match leader.SkipProposer (prevStateRoot e) (Height (rs e)) vs (Round (rs e)) with
  | Err _ => Ok false
  | Panic => Panic
  | Ok expected =>
    if bool_decide (ProposerPK p <> expected) then Ok false else
    match foldM (fun _ t => tx.VerifySigsForChain t chainID) tt (PTxs p) with
    | Err _ => Ok false
    | Panic => Panic
    | Ok _ =>
      if zlen (AVotes (PrevAttestations p)) >? 0 then
        match VerifyAttestationForChain (Some (PrevAttestations p)) vs (map Some ss) chainID with
        | Err _ => Ok false
        | Panic => Panic
        | Ok _ => Ok true
        end
      else Ok true
    end
  end.

(** The block a node locked on another block prevotes: none. *)
Definition prevoteFor (r : RoundState) (blockHash : arr 32) : arr 32 :=
  match LockedBlock r with
  | Some h => if bool_decide (h <> blockHash) then zero_arr 32 else blockHash
  | None => blockHash
  end.

Definition handleProposal (hv : voteHandler) e (p : BlockProposal) (vs : list (arr 32)) (ss : list Z) : res (Engine B P) :=
  let* ok := acceptable e p vs ss in
  if negb ok then Ok e else
  let e := setStatus (set_rs e (set_Phase (set_Proposal (rs e) (Some p)) PhasePrevote)) in
  let e := armPropose e false in
  let* blockHash := BlockHashForChain p chainID in
  let e := armPrevote e true in
  let* e := handleOwn hv (broadcastPrevote e (prevoteFor (rs e) blockHash)) vs ss in
  persist e.

(** ** Timeouts *)
Definition onProposeTimeout (hv : voteHandler) e (vs : list (arr 32)) (ss : list Z) : res (Engine B P) :=
  if negb (Phase (rs e) =? PhasePropose) then Ok e else
  let e := armPrevote (setStatus (set_rs e (set_Phase (rs e) PhasePrevote))) true in
  let* e := handleOwn hv (broadcastPrevote e (zero_arr 32)) vs ss in
  persist e.

Definition onPrevoteTimeout (hv : voteHandler) e (vs : list (arr 32)) (ss : list Z) : res (Engine B P) :=
  if negb (Phase (rs e) =? PhasePrevote) then Ok e else
  let e := armPrecommit (setStatus (set_rs e (set_Phase (rs e) PhasePrecommit))) true in
  let* e := handleOwn hv (broadcastPrecommit e (zero_arr 32)) vs ss in
  persist e.

Definition onPrecommitTimeout (hv : voteHandler) e (vs : list (arr 32)) (ss : list Z) : res (Engine B P) :=
  let e := setStatus (set_rs e (IncrementRound (rs e))) in
  let prevRoot := prevStateRoot e in
  let* proposerPK := electedOrZero prevRoot (Height (rs e)) vs (Round (rs e)) in
  let e := armPropose e true in
  let* e := (if bool_decide (proposerPK = keys.PublicKey kp) then broadcastProposal hv e prevRoot vs ss else Ok e) in
  persist e.

Definition onProposeReady (hv : voteHandler) e (vs : list (arr 32)) (ss : list Z) : res (Engine B P) :=
  if negb (Phase (rs e) =? PhasePropose) then Ok e else
  let prevRoot := prevStateRoot e in
  let* proposerPK := electedOrZero prevRoot (Height (rs e)) vs (Round (rs e)) in
  if bool_decide (proposerPK = keys.PublicKey kp) then broadcastProposal hv e prevRoot vs ss else Ok e.

(** ** The event loop *)
Inductive event : Type :=
| EvVote (raw : bytes)
| EvProposal (raw : bytes)
| EvProposeTimer
| EvPrevoteTimer
| EvPrecommitTimer
| EvDelay            (* an AfterFunc callback runs: a non-blocking send *)
| EvProposeReady.

Definition enabled e (ev : event) : bool :=
  match ev with
  | EvVote _ | EvProposal _ => true
  | EvProposeTimer => proposeTimer (timers e)
  | EvPrevoteTimer => prevoteTimer (timers e)
  | EvPrecommitTimer => precommitTimer (timers e)
  | EvDelay => negb (Nat.eqb (delayed e) 0)
  | EvProposeReady => proposeReady e
  end.

(** One turn of the loop.  The validators are those of [Start]'s local variables. *)
Definition handle (fuel : nat) e (ev : event) : res (Engine B P) :=
  let hv := handleVote fuel in
  let vs := validators e in
  let ss := stakes e in
  match ev with
  | EvVote raw =>
    match DeserializeVote raw with
    | Err _ => Ok e
    | Panic => Panic
    | Ok v => hv e v vs ss
    end
  | EvProposal raw =>
    let* p := parseProposal raw in
    match p with
    | None => Ok e
    | Some p => handleProposal hv e p vs ss
    end
  | EvProposeTimer => onProposeTimeout hv (armPropose e false) vs ss
  | EvPrevoteTimer => onPrevoteTimeout hv (armPrevote e false) vs ss
  | EvPrecommitTimer => onPrecommitTimeout hv (armPrecommit e false) vs ss
  | EvDelay => Ok (set_delayed e (pred (delayed e)) true)
  | EvProposeReady => onProposeReady hv (set_delayed e (delayed e) false) vs ss
  end.

(** ** Start, up to the loop *)
Definition restored (d : DB B) (height : Z) : res RoundState :=
  let raw := statemachine.LoadConsensusState d in
  let fresh := NewRoundState (wrap64 (height + 1)) in
  if zlen raw >? 0 then
    match decodeRoundState raw chainID with
    | Ok r => Ok (if Height r =? wrap64 (height + 1) then r else fresh)
    | Err _ => Ok fresh
    | Panic => Panic
    end
  else Ok fresh.

(** A node that stopped while committing tries again. *)
Definition resumeCommit (hv : voteHandler) e : res (Engine B P) :=
  let* bh := quorumBlock (Precommits (rs e)) (validators e) (stakes e) in
  match bh with
  | Some bh =>
    if bool_decide (bh <> zero_arr 32) then
      let* '(e, commitOK) := commit e (validators e) (stakes e) bh in
      if (commitOK : bool) then
        let e := set_rs e (set_LastAttestation (rs e) (attestationFromPrecommits (Precommits (rs e)) bh)) in
        let* '(vs, ss) := staking.BondedAmounts (db e) in
        startNextRound (set_validators e vs ss) vs
      else restartRound hv (rejectProposal e)
    else Ok e
  | None => Ok e
  end.

Definition Start (fuel : nat) (d : DB B) (q : option P) (history : list output) : res (Engine B P) :=
  let* height := statemachine.CurrentHeight d in
  let* r := restored d height in
  let* '(vs, ss) := staking.BondedAmounts d in
  let e := setStatus (mkEngine d q r (mkEngineStatus 0 0 0) (mkTimers true false false) 0 false vs ss history) in
  let* proposerPK := electedOrZero (prevStateRoot e) (Height r) vs (Round r) in
  if Phase r =? PhasePrevote then Ok (armPrevote (armPropose e false) true) else
  if Phase r =? PhasePrecommit then Ok (armPrecommit (armPropose e false) true) else
  if Phase r =? PhaseCommit then resumeCommit (handleVote fuel) (armPropose e false) else
  if bool_decide (proposerPK = keys.PublicKey kp) then Ok (set_delayed e 1 false) else Ok e.
End Engine.
End engine.
