(* ===== verification/EngineProofs.v ===== *)
(** * core/consensus: what the engine keeps true

    An invariant of the engine over every history of messages, timers,
    restarts, blocks applied by others and changes of the transaction pool:
    every vote it sent is on record under its slot, the votes it holds are
    valid votes of the current round, its snapshot is one of such a state, and
    every block it committed had a quorum of precommits.  The invariant leaves
    room for more: a property of the proposal and the attestation the node
    holds, when the proposer it uses keeps its side of it. *)

From S2P Require Import Prelude GoBytes Errors Platform Tx TxProofs KV Denom Ledger Staking Gas Mint Node Tree Contract BlockStore Telemetry.
From S2P Require Import StateMachine StateMachineProofs BlockProofs FrameProofs Vote VoteProofs QuorumProofs BlockLoop Round RoundProofs Engine.
Import vote round engine.

(** ** Snapshots, whatever the proposal *)
Section Restore.
Context `{PlatformLaws} `{MapOrderLaws}.

(** The votes of one type held for a height and round. *)
Definition gathered (chainID : bytes) (ty h r : Z) (votes : gmap (arr 32) Vote) : Prop :=
  forall pk v, votes !! pk = Some v ->
    VValidatorPK v = pk /\ vote_wf v /\ VerifyVoteForChain v chainID = true /\
    VType v = ty /\ VHeight v = h /\ VRound v = r.

Record rs_ok (chainID : bytes) (r : RoundState) : Prop :=
  { rs_height : is_u64 (Height r);
    rs_round : is_u32 (Round r);
    rs_phase : PhasePropose <= Phase r <= PhaseCommit;
    rs_locked : - 2 ^ 31 <= LockedRound r < 2 ^ 31;
    rs_prevotes : gathered chainID VotePrevote (Height r) (Round r) (Prevotes r);
    rs_precommits : gathered chainID VotePrecommit (Height r) (Round r) (Precommits r) }.

Lemma gathered_empty chainID ty h r : gathered chainID ty h r ∅.
Proof. intros pk v Hv. by rewrite lookup_empty in Hv. Qed.

Lemma gathered_votes_ok chainID ty h r votes : gathered chainID ty h r votes -> votes_ok chainID votes.
Proof. intros Hg pk v Hv. by apply Hg in Hv as (? & ? & ? & _). Qed.

Lemma gathered_keyed chainID ty h r votes : gathered chainID ty h r votes -> keyed votes.
Proof. intros Hg pk v Hv. by apply Hg in Hv as [? _]. Qed.

Lemma gathered_insert chainID ty h r votes v :
  gathered chainID ty h r votes -> vote_wf v -> VerifyVoteForChain v chainID = true ->
  VType v = ty -> VHeight v = h -> VRound v = r -> gathered chainID ty h r (<[VValidatorPK v := v]> votes).
Proof.
  intros Hg ????? pk w Hw. apply lookup_insert_Some in Hw as [[<- <-]|[_ Hw]]; [by split_and!|by apply Hg].
Qed.

Lemma new_rs_ok chainID h : is_u64 h -> rs_ok chainID (NewRoundState h).
Proof. intros Hh. constructor; cbn; try done; try apply gathered_empty. Qed.

(** Reading back a snapshot gives the height, round, phase and votes that were written. *)
Lemma decode_encoded chainID r d r' :
  rs_ok chainID r -> encodeRoundState r = Ok d -> decodeRoundState d chainID = Ok r' -> rs_ok chainID r'.
Proof.
  intros [Hh Hr Hp Hl Hpv Hpc] He Hd. unfold encodeRoundState in He.
  apply obind_ok_inv in He as (pd & Hpd & He). apply obind_ok_inv in He as (v1 & Hv1 & He).
  apply obind_ok_inv in He as (v2 & Hv2 & He). apply obind_ok_inv in He as (ad & Had & <-%Ok_inj).
  assert (0 <= zlen pd <= 192 + 141 * 4096 + 32 * 2 ^ 20) as Hzp.
  { destruct (Proposal r) as [p|]; cbn in Hpd; [|simplify_eq; change (zlen (@nil byte)) with 0; lia].
    pose proof (SerializeProposal_size p pd Hpd). lia. }
  set (tail := v1 ++ v2 ++ put32 (wrap32 (zlen ad)) ++ ad) in *.
  assert (forall x, decodeRest chainID (put32 (wrap32 (zlen pd)) ++ pd ++ tail) = Ok x ->
    exists p a, x = (p, Prevotes r, Precommits r, a)) as Hrest.
  { intros x Hx. unfold decodeRest in Hx. rewrite (wrap32_small (zlen pd)) in Hx by (unfold two32; lia).
    unfold put32 in Hx at 1. rewrite readBE_app in Hx by lia. cbn [obind] in Hx.
    destruct (_ >? _); [done|]. rewrite readInto_app in Hx; [|unfold zlen; lia|].
    2:{ subst tail. pose proof (encodeVotes_size _ _ Hv1). intros Hn. apply (f_equal zlen) in Hn.
        rewrite !zlen_app in Hn. change (zlen (@nil byte)) with 0 in Hn.
        pose proof (zlen_nonneg v2). pose proof (zlen_nonneg ad). rewrite zlen_put32 in Hn. lia. }
    cbn [obind] in Hx. apply obind_ok_inv in Hx as (p & _ & Hx). subst tail.
    rewrite (votes_roundtrip chainID _ v1 _ (gathered_votes_ok _ _ _ _ _ Hpv) Hv1) in Hx. cbn [obind] in Hx.
    rewrite (votes_roundtrip chainID _ v2 _ (gathered_votes_ok _ _ _ _ _ Hpc) Hv2) in Hx. cbn [obind] in Hx.
    apply obind_ok_inv in Hx as ([a rest] & _ & Hx). destruct (negb _); [done|]. apply Ok_inj in Hx as <-. eauto. }
  clearbody tail. unfold decodeRoundState, is_u64, is_u32, PhasePropose, PhaseCommit in *.
  assert (0 <= wrap32 (LockedRound r) < 256 ^ Z.of_nat 4) as Hwl by (apply Z.mod_pos_bound; done).
  unfold put64 in Hd at 1. rewrite readBE_app in Hd by (unfold two64 in *; lia). cbn [obind] in Hd.
  unfold put32 in Hd at 1. rewrite readBE_app in Hd by (unfold two32 in *; lia). cbn [obind app readByte] in Hd.
  rewrite byte_to_of_Z, Z.mod_small in Hd by lia. destruct (_ || _); [done|].
  destruct (LockedBlock r) as [bh|]; cbn [app readByte obind] in Hd.
  - change (byte_to_Z x01 =? 0) with false in Hd. cbn [negb] in Hd. rewrite readInto_arr in Hd. cbn [obind] in Hd.
    unfold put32 in Hd at 1. rewrite readBE_app in Hd by done. cbn [obind] in Hd.
    apply obind_ok_inv in Hd as (x & Hx & Hd). destruct (Hrest x Hx) as (p & a & ->). apply Ok_inj in Hd as <-.
    rewrite int32_roundtrip by done. by constructor.
  - change (byte_to_Z x00 =? 0) with true in Hd. cbn [negb obind] in Hd.
    unfold put32 in Hd at 1. rewrite readBE_app in Hd by done. cbn [obind] in Hd.
    apply obind_ok_inv in Hd as (x & Hx & Hd). destruct (Hrest x Hx) as (p & a & ->). apply Ok_inj in Hd as <-.
    by constructor.
Qed.
End Restore.

(** ** The invariant *)
Section Invariant.
Context `{PlatformLaws} `{contract.Wasmtime} `{telemetry.Json} `{MapOrderLaws} {B P : Type} `{KVLaws B} `{Proposer P}.
Context (kp : keys.Keypair) (chainID : bytes).

(** A property [X] of the proposal and the last attestation of a round state, and
    one [Q] of the proposer, that support each other. *)
Record maintained (X : RoundState -> Prop) (Q : P -> Prop) : Prop :=
  { mt_new : forall h, X (NewRoundState h);
    mt_same : forall r r', X r -> Proposal r' = Proposal r -> LastAttestation r' = LastAttestation r -> X r';
    mt_drop : forall r r', X r -> Proposal r' = None -> LastAttestation r' = LastAttestation r -> X r';
    mt_attest : forall r bh, rs_ok chainID r -> X r -> X (set_LastAttestation r (attestationFromPrecommits (Precommits r) bh));
    mt_own : forall (e : Engine B P) root q p, rs_ok chainID (rs e) -> X (rs e) -> Q q ->
      makeProposal e root q = Ok p -> X (set_Proposal (rs e) (Some p));
    mt_other : forall r p, X r -> held_proposal chainID p -> X (set_Proposal r (Some p));
    mt_restored : forall raw r, decodeRoundState raw chainID = Ok r -> X r;
    mt_commit : forall q h txs, Q q -> Q (OnCommit q h txs);
    mt_reject : forall reject q h txs, OnReject = Some reject -> Q q -> Q (reject q h txs) }.

Lemma maintained_trivial : maintained (fun _ => True) (fun _ => True).
Proof. by constructor. Qed.

Context (ncpu : Z) (iter : gset (arr 32) -> list (arr 32)) (Hkp : keys.generated kp).
Context (X : RoundState -> Prop) (Q : P -> Prop) (HX : maintained X Q).
Implicit Types (e : Engine B P) (d : DB B).

(** The slot of a vote is taken by that vote. *)
Definition recorded d (v : Vote) : Prop :=
  kv_Get (meta d) (statemachine.voteKey (VHeight v) (VRound v) (VType v)) = Some (arr_bytes (VBlockHash v)).

Definition own_vote (v : Vote) : Prop :=
  VValidatorPK v = keys.PublicKey kp /\ VerifyVoteForChain v chainID = true /\ vote_wf v.

(** A block is committed by a quorum of valid precommits for its hash. *)
Definition commit_ok (o : output) : Prop :=
  match o with
  | Committed h r p precommits vs ss =>
      gathered chainID VotePrecommit h r precommits /\
      exists bh, BlockHashForChain p chainID = Ok bh /\ bh <> zero_arr 32 /\ quorumBlock precommits vs ss = Ok (Some bh)
  | _ => True
  end.

Definition saved_ok d : Prop :=
  forall raw, kv_Get (meta d) statemachine.consensusStateKey = Some raw ->
    exists r, rs_ok chainID r /\ encodeRoundState r = Ok raw.

Definition round_ok (r : RoundState) : Prop := rs_ok chainID r /\ X r.

Definition saved_round d : Prop :=
  forall raw, kv_Get (meta d) statemachine.consensusStateKey = Some raw ->
    exists r, round_ok r /\ encodeRoundState r = Ok raw.

Lemma saved_round_ok d : saved_round d -> saved_ok d.
Proof. intros Hs raw Hr. destruct (Hs raw Hr) as (r & [? _] & ?). eauto. Qed.

Definition pool_sound e : Prop := forall q, proposer e = Some q -> Q q.

Record inv e : Prop :=
  { inv_round : round_ok (rs e);
    inv_pool : pool_sound e;
    inv_votes : forall v, SentVote v ∈ trace e -> recorded (db e) v /\ own_vote v;
    inv_saved : saved_round (db e);
    inv_commits : Forall commit_ok (trace e) }.

Lemma inv_rs e : inv e -> rs_ok chainID (rs e).
Proof. intros Hi. apply (inv_round e Hi). Qed.

(** What of the engine the invariant looks at. *)
Lemma inv_ext e e' : db e' = db e -> rs e' = rs e -> trace e' = trace e -> proposer e' = proposer e -> inv e -> inv e'.
Proof. intros Hd Hr Ht Hp []. constructor; unfold pool_sound in *; rewrite ?Hd, ?Hr, ?Ht, ?Hp; auto. Qed.

Lemma inv_set_rs e r : inv e -> round_ok r -> inv (set_rs e r).
Proof. intros [] Hr. by constructor. Qed.

(** Changes of the database that keep the vote records and the snapshot. *)
Lemma inv_set_db e d :
  inv e -> (forall h r t b, kv_Get (meta (db e)) (statemachine.voteKey h r t) = Some b ->
             kv_Get (meta d) (statemachine.voteKey h r t) = Some b) ->
  saved_round d -> inv (set_db e d).
Proof.
  intros [Hr Hq Hv Hs Hc] Hk Hs'. constructor; try done. intros v Hin. destruct (Hv v Hin) as [Hrec Hown].
  split; [by apply Hk|done].
Qed.

Lemma apply_votes d b h r t :
  kv_Get (meta (fst (statemachine.ApplyBlockForChain ncpu iter d b chainID))) (statemachine.voteKey h r t) =
  kv_Get (meta d) (statemachine.voteKey h r t).
Proof. apply ApplyBlock_frame, voteKey_chain. Qed.

Lemma apply_saved d b : saved_round d -> saved_round (fst (statemachine.ApplyBlockForChain ncpu iter d b chainID)).
Proof. intros Hs raw Hr. rewrite ApplyBlock_frame in Hr by apply stateKey_chain. by apply Hs. Qed.

Lemma persist_inv e e' :
  inv e -> persist e = Ok e' -> inv e' /\ rs e' = rs e /\ trace e' = trace e /\ validators e' = validators e /\ stakes e' = stakes e.
Proof.
  intros Hi Hp. unfold persist, persistRoundState in Hp. apply obind_ok_inv in Hp as (d & Hd & <-%Ok_inj).
  split_and!; try done. pose proof (inv_saved e Hi) as Hs. destruct (encodeRoundState (rs e)) as [raw| |] eqn:Er; [| |done].
  - apply Ok_inj in Hd as <-. apply inv_set_db; [done| |].
    + intros h r t b Hb. unfold statemachine.SaveConsensusState. rewrite putMeta_get, decide_False; [done|].
      intros Heq. symmetry in Heq. by apply voteKey_state in Heq.
    + intros raw' Hraw. unfold statemachine.SaveConsensusState in Hraw. rewrite putMeta_get, decide_True in Hraw by done.
      injection Hraw as <-. exists (rs e). split; [apply (inv_round e Hi)|done].
  - apply Ok_inj in Hd as <-. apply inv_set_db; auto.
Qed.

Lemma broadcastVote_inv ty e bh e' ov :
  (ty = VotePrevote \/ ty = VotePrecommit) -> inv e -> broadcastVote kp chainID ty e bh = (e', ov) ->
  inv e' /\ rs e' = rs e /\ validators e' = validators e /\ stakes e' = stakes e /\ (forall v, ov = Some v -> own_vote v).
Proof.
  intros Hty Hi Hb. unfold broadcastVote, statemachine.RecordConsensusVote in Hb. cbn [rs set_db] in Hb.
  set (key := statemachine.voteKey (Height (rs e)) (Round (rs e)) ty) in *.
  destruct (kv_Get (meta (db e)) key) as [old|] eqn:Ek; cbn [negb] in Hb; injection Hb as <- <-.
  { split_and!; try done. by apply (inv_ext e). }
  set (v := mkVote ty (Height (rs e)) (Round (rs e)) bh (keys.PublicKey kp) _).
  assert (own_vote v) as Hown.
  { destruct (inv_rs e Hi) as [Hh Hr _ _ _ _]. split_and!; [done| |].
    - unfold VerifyVoteForChain, v. cbn [VType].
      replace (negb (ty =? VotePrevote) && negb (ty =? VotePrecommit)) with false by (destruct Hty as [-> | ->]; done).
      cbn [VValidatorPK VSig]. by apply keys.Verify_Sign.
    - split_and!; try done. destruct Hty as [-> | ->]; done. }
  assert (forall k, kv_Get (meta (statemachine.putMeta (db e) key bh)) k = if decide (key = k) then Some (arr_bytes bh) else kv_Get (meta (db e)) k)
    as Hget by (intros k; apply putMeta_get).
  split_and!; try done; [|by intros ? [= <-]]. constructor; cbn [emit set_db db rs trace]; [apply (inv_round e Hi)|apply (inv_pool e Hi)| | |].
  - intros w [[= ->]|Hin]%elem_of_cons.
    + split; [|done]. unfold recorded. by rewrite Hget, decide_True.
    + destruct (inv_votes e Hi w Hin) as [Hw Hw']. split; [|done]. unfold recorded in *. rewrite Hget.
      case_decide as Heq; [|done]. rewrite <- Heq in Hw. congruence.
  - intros raw Hraw. rewrite Hget, decide_False in Hraw by apply voteKey_state. by apply (inv_saved e Hi).
  - constructor; [done|apply (inv_commits e Hi)].
Qed.

Lemma commit_inv e vs ss bh e' ok :
  inv e -> bh <> zero_arr 32 -> quorumBlock (Precommits (rs e)) vs ss = Ok (Some bh) ->
  commit chainID ncpu iter e vs ss bh = Ok (e', ok) ->
  inv e' /\ rs e' = rs e /\ validators e' = validators e /\ stakes e' = stakes e.
Proof.
  intros Hi Hnz Hq Hc. unfold commit in Hc. destruct (Proposal (rs e)) as [p|] eqn:Ep; [|by simplify_eq].
  apply obind_ok_inv in Hc as (h & Hh & Hc). case_bool_decide as Hbh; [by simplify_eq|]. subst h.
  destruct (SerializeProposal p) as [data| |]; [|by simplify_eq|done].
  set (b := blockstore.mkBlock _ _ _ _ _ _) in Hc.
  pose proof (apply_votes (db e) b) as Hv. pose proof (apply_saved (db e) b (inv_saved e Hi)) as Hs.
  destruct (statemachine.ApplyBlockForChain _ _ _ _ _) as [d [r| |]]; cbn [fst] in *; [| |done]; apply Ok_inj in Hc; injection Hc as <- <-.
  - split_and!; try done.
    assert (inv (set_db e (statemachine.ClearConsensusState d))) as Hd.
    { apply inv_set_db; [done| |]; unfold statemachine.ClearConsensusState; cbn [meta KV.set_meta].
      - intros h' r' t' b' Hb'. rewrite kv_get_delete, decide_False by (intros Heq; symmetry in Heq; by apply voteKey_state in Heq).
        by rewrite Hv.
      - intros raw Hraw. cbn [meta KV.set_meta] in Hraw. by rewrite kv_get_delete, decide_True in Hraw. }
    destruct Hd as [Hd1 Hdq Hd2 Hd3 Hd4]. constructor; cbn; try done.
    + intros q Hq'. destruct (proposer e) as [q0|] eqn:Eq0; [|done]. cbn in Hq'. injection Hq' as <-.
      by apply (mt_commit _ _ HX), Hdq.
    + intros v [[=]|Hin]%elem_of_cons. by apply Hd2.
    + constructor; [|done]. cbn. split; [apply (rs_precommits _ _ (inv_rs e Hi))|]. eauto.
  - split_and!; try done. apply inv_set_db; [done| |done]. intros. by rewrite Hv.
Qed.

Lemma rejectProposal_same e :
  db (rejectProposal e) = db e /\ rs (rejectProposal e) = rs e /\ trace (rejectProposal e) = trace e /\
  validators (rejectProposal e) = validators e /\ stakes (rejectProposal e) = stakes e.
Proof. unfold rejectProposal. by repeat case_match. Qed.

Lemma rejectProposal_pool e : pool_sound e -> pool_sound (rejectProposal e).
Proof.
  intros Hq. unfold rejectProposal. destruct (@OnReject P _) as [reject|] eqn:Er; [|done].
  destruct (proposer e) as [q|] eqn:Eq; [|done]. destruct (Proposal (rs e)) as [p|]; [|done].
  intros q'. cbn. intros [= <-]. apply (mt_reject _ _ HX _ _ _ _ Er). by apply Hq.
Qed.

(** ** Round states the handlers move to *)
Lemma round_ok_same r r' :
  round_ok r -> rs_ok chainID r' -> Proposal r' = Proposal r -> LastAttestation r' = LastAttestation r -> round_ok r'.
Proof. intros [_ Hx] Hr Hp Ha. split; [done|]. by apply (mt_same _ _ HX r). Qed.

Lemma round_ok_phase r p : round_ok r -> PhasePropose <= p <= PhaseCommit -> round_ok (set_Phase r p).
Proof. intros Hr Hp. apply (round_ok_same r); try done. destruct Hr as [[] _]. by constructor. Qed.

Lemma round_ok_proposal r p : round_ok r -> X (set_Proposal r p) -> round_ok (set_Proposal r p).
Proof. intros [[] _] Hx. split; [by constructor|done]. Qed.

Lemma round_ok_attestation r bh :
  round_ok r -> round_ok (set_LastAttestation r (attestationFromPrecommits (Precommits r) bh)).
Proof. intros [Hr Hx]. split; [destruct Hr; by constructor|by apply (mt_attest _ _ HX)]. Qed.

Lemma round_ok_lock r bh : round_ok r -> round_ok (Lock r bh (Round r)).
Proof.
  intros Hr. apply (round_ok_same r); try done. destruct Hr as [[] _]. constructor; cbn; try done.
  unfold int32_of. pose proof (Z.mod_pos_bound (Round r + 2 ^ 31) two32 ltac:(done)). unfold two32 in *. lia.
Qed.

Lemma round_ok_unlock r : round_ok r -> round_ok (Unlock r).
Proof. intros Hr. apply (round_ok_same r); try done. destruct Hr as [[] _]. by constructor. Qed.

Lemma round_ok_increment r : round_ok r -> round_ok (IncrementRound r).
Proof.
  intros [Hr Hx]. split; [|by apply (mt_drop _ _ HX r)].
  destruct Hr. constructor; cbn; try done; [apply Z.mod_pos_bound; done|apply gathered_empty..].
Qed.

Lemma round_ok_next r : round_ok r -> round_ok (nextHeight r).
Proof.
  intros [Hr Hx]. split; [|by apply (mt_drop _ _ HX r)].
  destruct Hr. constructor; cbn; try done; [apply Z.mod_pos_bound; done|apply gathered_empty..].
Qed.

(** ** The handlers keep it *)
Definition kept e e' : Prop := inv e' /\ validators e' = validators e /\ stakes e' = stakes e.

#[local] Instance kept_trans : Transitive kept.
Proof. intros e1 e2 e3 (? & ? & ?) (? & ? & ?). split_and!; congruence. Qed.

Lemma kept_ext e e' :
  inv e -> db e' = db e -> rs e' = rs e -> trace e' = trace e -> proposer e' = proposer e -> validators e' = validators e ->
  stakes e' = stakes e -> kept e e'.
Proof. intros. split_and!; try done. by apply (inv_ext e). Qed.

Lemma kept_set_rs e r : inv e -> round_ok r -> kept e (set_rs e r).
Proof. intros. split_and!; try done. by apply inv_set_rs. Qed.

(** A new round state and bookkeeping that the invariant does not see. *)
Lemma kept_move e e' :
  inv e -> db e' = db e -> round_ok (rs e') -> trace e' = trace e -> proposer e' = proposer e -> validators e' = validators e ->
  stakes e' = stakes e -> kept e e'.
Proof.
  intros Hi Hd Hr Ht Hp Hv Hs. split_and!; try done. destruct Hi. constructor; unfold pool_sound in *; rewrite ?Hd, ?Ht, ?Hp; done.
Qed.

Lemma kept_persist e e' : inv e -> persist e = Ok e' -> kept e e'.
Proof. intros Hi Hp. destruct (persist_inv e e' Hi Hp) as (? & _ & _ & ? & ?). by split_and!. Qed.

Definition good (hv : voteHandler (B := B) (P := P)) : Prop :=
  forall e v vs ss e', inv e -> vote_wf v -> hv e v vs ss = Ok e' -> kept e e'.

Lemma kept_own hv ty e bh vs ss e' :
  good hv -> (ty = VotePrevote \/ ty = VotePrecommit) -> inv e ->
  handleOwn hv (broadcastVote kp chainID ty e bh) vs ss = Ok e' -> kept e e'.
Proof.
  intros Hg Hty Hi Hh. destruct (broadcastVote kp chainID ty e bh) as [e1 ov] eqn:Eb.
  destruct (broadcastVote_inv ty e bh e1 ov Hty Hi Eb) as (Hi1 & _ & Hv & Hs & Hown).
  assert (kept e e1) as Hk by done. destruct ov as [v|]; cbn in Hh.
  - etransitivity; [exact Hk|]. eapply Hg; [done| |exact Hh]. by apply (Hown v eq_refl).
  - by apply Ok_inj in Hh as <-.
Qed.

Lemma kept_startNextRound e vs e' : inv e -> startNextRound kp e vs = Ok e' -> kept e e'.
Proof.
  intros Hi Hs. unfold startNextRound in Hs. apply obind_ok_inv in Hs as (pk & _ & Hs).
  etransitivity; [|eapply kept_persist; [|exact Hs]].
  - apply kept_move; try (by case_match); try done. case_match; cbn; apply round_ok_next, (inv_round e Hi).
  - refine (proj1 (kept_move e _ _ _ _ _ _ _ _)); try (by case_match); try done. case_match; cbn; apply round_ok_next, (inv_round e Hi).
Qed.

Lemma kept_broadcastProposal hv e root vs ss e' :
  good hv -> inv e -> broadcastProposal kp chainID hv e root vs ss = Ok e' -> kept e e'.
Proof.
  intros Hg Hi Hb. unfold broadcastProposal in Hb.
  assert (kept e e) as Hrefl by by split_and!.
  destruct (proposer e) as [q|] eqn:Epr; [|by apply Ok_inj in Hb as <-].
  destruct (makeProposal e root q) as [p| |] eqn:Emk; [|by apply Ok_inj in Hb as <-|done].
  destruct (negb _); [by apply Ok_inj in Hb as <-|].
  destruct (SerializeProposal p) as [data| |]; [|by apply Ok_inj in Hb as <-|done].
  set (e1 := setStatus (set_rs e _)) in Hb.
  assert (X (set_Proposal (rs e) (Some p))) as Hown
    by (apply (mt_own _ _ HX e root q); [apply Hi|apply Hi|by apply (inv_pool e Hi)|done]).
  assert (kept e e1) as Hk1
    by (apply kept_move; try done; apply round_ok_phase, conj; [apply round_ok_proposal; [apply (inv_round e Hi)|done]|done..]).
  apply obind_ok_inv in Hb as (e2 & Hp & Hb). apply kept_persist in Hp as Hk2; [|apply Hk1].
  apply obind_ok_inv in Hb as (bh & _ & Hb).
  assert (kept e2 (emit e2 (SentProposal data))) as Hk3.
  { destruct Hk2 as [[Hr Hq Hv Hs Hc] _]. split_and!; try done. constructor; try done; cbn.
    - intros v [[=]|Hin]%elem_of_cons. by apply Hv.
    - by constructor. }
  etransitivity; [exact Hk1|]. etransitivity; [exact Hk2|]. etransitivity; [exact Hk3|].
  eapply kept_own; [done|by left|apply Hk3|exact Hb].
Qed.

Lemma kept_propose hv e e1 root vs ss e' (own : bool) :
  good hv -> inv e -> kept e e1 ->
  (let* e2 := (if own then broadcastProposal kp chainID hv e1 root vs ss else Ok e1) in persist e2) = Ok e' -> kept e e'.
Proof.
  intros Hg Hi Hk Hb. apply obind_ok_inv in Hb as (e2 & Hb & Hp).
  assert (kept e1 e2) as Hk2.
  { destruct own; [by eapply kept_broadcastProposal; [|apply Hk|]|]. apply Ok_inj in Hb as <-. split_and!; try done. apply Hk. }
  etransitivity; [exact Hk|]. etransitivity; [exact Hk2|]. eapply kept_persist; [apply Hk2|exact Hp].
Qed.

Lemma kept_restartRound hv e e' : good hv -> inv e -> restartRound kp chainID hv e = Ok e' -> kept e e'.
Proof.
  intros Hg Hi Hb. unfold restartRound in Hb. apply obind_ok_inv in Hb as ([vs ss] & _ & Hb).
  apply obind_ok_inv in Hb as (pk & _ & Hb). eapply kept_propose; [done|done| |exact Hb].
  apply kept_move; try done. apply round_ok_increment, round_ok_unlock, (inv_round e Hi).
Qed.

Lemma kept_reject e : inv e -> kept e (rejectProposal e).
Proof.
  intros Hi. destruct (rejectProposal_same e) as (Hd & Hr & Ht & ? & ?). split_and!; try done.
  destruct Hi. constructor; rewrite ?Hd, ?Hr, ?Ht; try done. by apply rejectProposal_pool.
Qed.

Lemma kept_restart hv e e' : good hv -> inv e -> restartOrStop kp chainID hv (rejectProposal e) = Ok e' -> kept e e'.
Proof.
  intros Hg Hi Hb. pose proof (kept_reject e Hi) as Hk. etransitivity; [exact Hk|]. unfold restartOrStop in Hb.
  destruct (restartRound kp chainID hv (rejectProposal e)) as [e1| |] eqn:Er; [| |done]; apply Ok_inj in Hb as <-.
  - by eapply kept_restartRound; [|apply Hk|].
  - split_and!; try done. apply Hk.
Qed.

Lemma kept_onPrevote hv e v vs ss e' :
  good hv -> inv e -> vote_wf v -> VerifyVoteForChain v chainID = true -> VType v = VotePrevote ->
  VHeight v = Height (rs e) -> VRound v = Round (rs e) -> onPrevote kp chainID hv e v vs ss = Ok e' -> kept e e'.
Proof.
  intros Hg Hi Hw Hsig Ht Hh Hr Hb. unfold onPrevote in Hb.
  destruct (Prevotes (rs e) !! VValidatorPK v); [by apply Ok_inj in Hb as <-|].
  set (e0 := set_rs e _) in Hb. assert (kept e e0) as Hk0.
  { apply kept_set_rs; [done|]. apply (round_ok_same (rs e)); try done; [apply (inv_round e Hi)|].
    destruct (inv_rs e Hi). constructor; try done. by apply gathered_insert. }
  apply obind_ok_inv in Hb as (e1 & Hp & Hb). apply kept_persist in Hp as Hk1; [|apply Hk0].
  etransitivity; [exact Hk0|]. etransitivity; [exact Hk1|]. clear Hp.
  apply obind_ok_inv in Hb as (reached & _ & Hb).
  destruct (_ && _); [|apply Ok_inj in Hb as <-; split_and!; try done; apply Hk1].
  set (e2 := armPrecommit _ _) in Hb. assert (kept e1 e2) as Hk2.
  { apply kept_move; try done; [apply Hk1|]. apply round_ok_phase; [apply inv_round, Hk1|by split]. }
  apply obind_ok_inv in Hb as (bh & _ & Hb). etransitivity; [exact Hk2|]. destruct bh as [bh|].
  - assert (kept e2 (set_rs e2 (Lock (rs e2) bh (Round (rs e2))))) as Hk3
      by (apply kept_set_rs; [apply Hk2|apply round_ok_lock, inv_round, Hk2]).
    etransitivity; [exact Hk3|]. eapply kept_own; [done|by right|apply Hk3|exact Hb].
  - eapply kept_own; [done|by right|apply Hk2|exact Hb].
Qed.

Lemma kept_afterCommit e bh e' : inv e -> afterCommit kp e bh = Ok e' -> kept e e'.
Proof.
  intros Hi Ha. unfold afterCommit in Ha. set (e1 := set_rs e _) in Ha.
  assert (kept e e1) as Hk by (apply kept_set_rs; [done|apply round_ok_attestation, (inv_round e Hi)]).
  etransitivity; [exact Hk|]. destruct (staking.BondedAmounts _) as [[vs ss]| |]; [| |done].
  - eapply kept_startNextRound; [apply Hk|exact Ha].
  - apply Ok_inj in Ha as <-. split_and!; try done. apply Hk.
Qed.

Lemma kept_onPrecommit hv e v vs ss e' :
  good hv -> inv e -> vote_wf v -> VerifyVoteForChain v chainID = true -> VType v = VotePrecommit ->
  VHeight v = Height (rs e) -> VRound v = Round (rs e) -> onPrecommit kp chainID ncpu iter hv e v vs ss = Ok e' -> kept e e'.
Proof.
  intros Hg Hi Hw Hsig Ht Hh Hr Hb. unfold onPrecommit in Hb.
  destruct (Precommits (rs e) !! VValidatorPK v); [by apply Ok_inj in Hb as <-|].
  set (e0 := set_rs e _) in Hb. assert (kept e e0) as Hk0.
  { apply kept_set_rs; [done|]. apply (round_ok_same (rs e)); try done; [apply (inv_round e Hi)|].
    destruct (inv_rs e Hi). constructor; try done. by apply gathered_insert. }
  apply obind_ok_inv in Hb as (e1 & Hp & Hb). apply kept_persist in Hp as Hk1; [|apply Hk0].
  etransitivity; [exact Hk0|]. etransitivity; [exact Hk1|]. clear Hp.
  apply obind_ok_inv in Hb as (reached & _ & Hb).
  destruct (_ && _); [|apply Ok_inj in Hb as <-; split_and!; try done; apply Hk1].
  apply obind_ok_inv in Hb as (bh & Hq & Hb).
  destruct bh as [bh|]; [|by eapply kept_restart; [|apply Hk1|]].
  case_bool_decide as Hnz; [|by eapply kept_restart; [|apply Hk1|]].
  set (e2 := setStatus _) in Hb. assert (kept e1 e2) as Hk2.
  { apply kept_move; try done; [apply Hk1|]. apply round_ok_phase; [apply inv_round, Hk1|by split]. }
  apply obind_ok_inv in Hb as ([e3 ok] & Hc & Hb).
  destruct (commit_inv e2 vs ss bh e3 ok (proj1 Hk2) Hnz Hq Hc) as (Hi3 & _ & Hv3 & Hs3).
  etransitivity; [exact Hk2|]. etransitivity; [by split_and!|].
  destruct ok; [by eapply kept_afterCommit|by eapply kept_restart].
Qed.

Lemma body_good hv : good hv -> good (handleVoteBody kp chainID ncpu iter hv).
Proof.
  intros Hg e v vs ss e' Hi Hw Hb. unfold handleVoteBody in Hb.
  assert (kept e e) as Hrefl by by split_and!.
  repeat match type of Hb with (if ?c then _ else _) = _ =>
    destruct c eqn:?; [first [by apply Ok_inj in Hb as <- | idtac]|] end.
  all: bsimp; try (by apply Ok_inj in Hb as <-).
  - by eapply kept_onPrevote.
  - by eapply kept_onPrecommit.
Qed.

Lemma handleVote_good fuel : good (handleVote kp chainID ncpu iter fuel).
Proof. induction fuel as [|fuel IH]; [by intros ? ? ? ? ?|]. by apply body_good. Qed.

Lemma kept_own_persist hv ty e e1 bh vs ss e' :
  good hv -> (ty = VotePrevote \/ ty = VotePrecommit) -> inv e -> kept e e1 ->
  (let* e2 := handleOwn hv (broadcastVote kp chainID ty e1 bh) vs ss in persist e2) = Ok e' -> kept e e'.
Proof.
  intros Hg Hty Hi Hk Hb. apply obind_ok_inv in Hb as (e2 & Hh & Hp). etransitivity; [exact Hk|].
  assert (kept e1 e2) as Hk2 by (eapply kept_own; [done|done|apply Hk|exact Hh]).
  etransitivity; [exact Hk2|]. eapply kept_persist; [apply Hk2|exact Hp].
Qed.

Lemma acceptable_signed e p vs ss :
  acceptable chainID e p vs ss = Ok true -> Forall (fun t => tx.VerifySigsForChain t chainID = Ok tt) (PTxs p).
Proof.
  unfold acceptable. intros Ha. repeat (match type of Ha with (if ?c then _ else _) = _ => destruct c end; [done|]).
  destruct (leader.SkipProposer _ _ _ _); [|done..]. destruct (bool_decide _); [done|].
  destruct (foldM _ tt (PTxs p)) as [[]| |] eqn:Hs; [|done..]. by apply (verifySerial_ok (PTxs p) chainID).
Qed.

Lemma kept_handleProposal hv e p vs ss e' :
  good hv -> inv e -> proposal_wf p -> VerifyProposalForChain p chainID = Ok true ->
  handleProposal kp chainID hv e p vs ss = Ok e' -> kept e e'.
Proof.
  intros Hg Hi Hw Hsig Hb. unfold handleProposal in Hb. apply obind_ok_inv in Hb as (ok & Hacc & Hb).
  destruct ok; cbn [negb] in Hb; [|by apply Ok_inj in Hb as <-]. apply obind_ok_inv in Hb as (bh & _ & Hb).
  eapply kept_own_persist; [done|by left|done| |exact Hb].
  apply kept_move; try done. apply round_ok_phase; [apply round_ok_proposal; [apply (inv_round e Hi)|]|by split].
  apply (mt_other _ _ HX); [apply Hi|]. split_and!; try done. by eapply acceptable_signed.
Qed.

Lemma kept_handle fuel e ev e' : inv e -> handle kp chainID ncpu iter fuel e ev = Ok e' -> kept e e'.
Proof.
  intros Hi Hb. pose proof (handleVote_good fuel) as Hg. unfold handle in Hb. assert (kept e e) as Hrefl by by split_and!.
  destruct ev as [raw|raw| | | | |].
  - destruct (DeserializeVote raw) as [v| |] eqn:Ed; [|by apply Ok_inj in Hb as <-|done].
    eapply Hg; [done| |exact Hb]. by eapply DeserializeVote_wf.
  - apply obind_ok_inv in Hb as ([p|] & Hp & Hb); [|by apply Ok_inj in Hb as <-].
    unfold parseProposal in Hp. destruct (DeserializeProposal raw) as [p0| |] eqn:Ed; [|done..].
    apply obind_ok_inv in Hp as (ok & Hv & Hp). destruct ok; [|done]. injection Hp as <-.
    eapply kept_handleProposal; try done. by eapply DeserializeProposal_wf.
  - unfold onProposeTimeout in Hb. destruct (negb _); [apply Ok_inj in Hb as <-; by apply kept_ext|].
    eapply kept_own_persist; [done|by left|done| |exact Hb].
    apply kept_move; try done. apply round_ok_phase; [apply (inv_round e Hi)|by split].
  - unfold onPrevoteTimeout in Hb. destruct (negb _); [apply Ok_inj in Hb as <-; by apply kept_ext|].
    eapply kept_own_persist; [done|by right|done| |exact Hb].
    apply kept_move; try done. apply round_ok_phase; [apply (inv_round e Hi)|by split].
  - unfold onPrecommitTimeout in Hb. apply obind_ok_inv in Hb as (pk & _ & Hb).
    eapply kept_propose; [done|done| |exact Hb]. apply kept_move; try done. apply round_ok_increment, (inv_round e Hi).
  - apply Ok_inj in Hb as <-. by apply kept_ext.
  - unfold onProposeReady in Hb. set (e1 := set_delayed e _ _) in Hb. assert (kept e e1) as Hk by by apply kept_ext.
    destruct (negb _); [by apply Ok_inj in Hb as <-|]. apply obind_ok_inv in Hb as (pk & _ & Hb).
    etransitivity; [exact Hk|].
    case_bool_decide; [by eapply kept_broadcastProposal; [|apply Hk|]|by apply Ok_inj in Hb as <-; split_and!; try done; apply Hk].
Qed.

(** ** Starting and restarting *)
Lemma restored_ok d height r : saved_round d -> restored chainID d height = Ok r -> round_ok r.
Proof.
  intros Hs Hr. unfold restored in Hr. assert (round_ok (NewRoundState (wrap64 (height + 1)))) as Hn
    by (split; [apply new_rs_ok, Z.mod_pos_bound; done|apply (mt_new _ _ HX)]).
  destruct (_ >? 0) eqn:Ez; [|by apply Ok_inj in Hr as <-].
  destruct (decodeRoundState _ _) as [r0| |] eqn:Ed; [| |done]; apply Ok_inj in Hr as <-; [|done].
  case_match; [|done]. unfold statemachine.LoadConsensusState in *.
  destruct (kv_Get (meta d) statemachine.consensusStateKey) as [raw|] eqn:Er; [|done]. cbn [default from_option] in *.
  destruct (Hs raw Er) as (r1 & [Hr1 _] & He). split; [by eapply decode_encoded|by eapply (mt_restored _ _ HX)].
Qed.

Lemma Start_inv fuel d q history e :
  saved_round d -> (forall q', q = Some q' -> Q q') ->
  (forall v, SentVote v ∈ history -> recorded d v /\ own_vote v) -> Forall commit_ok history ->
  Start kp chainID ncpu iter fuel d q history = Ok e -> inv e.
Proof.
  intros Hs Hq Hv Hc Hst. unfold Start in Hst.
  apply obind_ok_inv in Hst as (h & _ & Hst). apply obind_ok_inv in Hst as (r & Hr & Hst).
  apply obind_ok_inv in Hst as ([vs ss] & _ & Hst). apply restored_ok in Hr; [|done].
  set (e0 := setStatus _) in Hst. assert (inv e0) as Hi0 by by constructor.
  apply obind_ok_inv in Hst as (pk & _ & Hst).
  assert (forall e1, db e1 = db e0 -> rs e1 = rs e0 -> trace e1 = trace e0 -> proposer e1 = proposer e0 -> inv e1) as Hsame
    by (intros; by apply (inv_ext e0)).
  repeat match type of Hst with (if ?c then _ else _) = _ => destruct c end;
    try (apply Ok_inj in Hst as <-; by apply Hsame).
  unfold resumeCommit in Hst. set (e1 := armPropose e0 false) in Hst. assert (inv e1) as Hi1 by by apply Hsame.
  apply obind_ok_inv in Hst as (bh & Hquo & Hst). destruct bh as [bh|]; [|by apply Ok_inj in Hst as <-].
  case_bool_decide as Hnz; [|by apply Ok_inj in Hst as <-].
  apply obind_ok_inv in Hst as ([e2 ok] & Hcm & Hst).
  destruct (commit_inv e1 _ _ bh e2 ok Hi1 Hnz Hquo Hcm) as (Hi2 & _).
  destruct ok.
  - apply obind_ok_inv in Hst as ([vs' ss'] & _ & Hst). eapply (proj1 (kept_startNextRound _ _ _ _ Hst)). Unshelve.
    apply (inv_ext (set_rs e2 (set_LastAttestation (rs e2) (attestationFromPrecommits (Precommits (rs e2)) bh)))); try done.
    apply inv_set_rs; [done|]. apply round_ok_attestation, (inv_round e2 Hi2).
  - eapply kept_restartRound; [apply handleVote_good| |exact Hst]. by apply kept_reject.
Qed.
End Invariant.
