(* ===== verification/EngineDepth.v ===== *)
(** * core/consensus: how deep a vote goes

    A vote can make the node cast a precommit, the precommit can end the round,
    and a new round can make it propose and prevote, all in one call of
    [handleVote].  Unless the node alone is a quorum the recursion ends there. *)

From S2P Require Import Prelude GoBytes Errors Platform Tx TxProofs KV Denom Ledger Staking Gas Mint Node Tree Contract BlockStore Telemetry.
From S2P Require Import StateMachine StateMachineProofs BlockProofs FrameProofs Vote VoteProofs QuorumProofs BlockLoop Round RoundProofs Engine.
Import vote round engine.

Section Depth.
Context `{Platform} `{contract.Wasmtime} `{telemetry.Json} `{MapOrderLaws} {B P : Type} `{KVLaws B} `{Proposer P}.
Context (kp : keys.Keypair) (chainID : bytes) (ncpu : Z) (iter : gset (arr 32) -> list (arr 32)).
Implicit Types (e : Engine B P) (hv : voteHandler (B := B) (P := P)).

(** The node's own stake is not a quorum of the table. *)
Definition not_alone (vs : list (arr 32)) (ss : list Z) : Prop :=
  forall m total, stakeTable vs ss = Ok (m, total) -> ~ quorum m total {[keys.PublicKey kp]}.

(** The same of the validators the database holds. *)
Definition bonds_not_alone (d : DB B) : Prop :=
  forall vs ss, staking.BondedAmounts d = Ok (vs, ss) -> not_alone vs ss.

Lemma bonds_ext (d d' : DB B) : KV.validators d' = KV.validators d -> staking.BondedAmounts d' = staking.BondedAmounts d.
Proof. intros Hv. unfold staking.BondedAmounts. by rewrite Hv. Qed.

Lemma bonds_not_alone_ext (d d' : DB B) : KV.validators d' = KV.validators d -> bonds_not_alone d -> bonds_not_alone d'.
Proof. intros Hv Hn vs ss. rewrite (bonds_ext d d' Hv). apply Hn. Qed.

Lemma persist_same e e' : persist e = Ok e' -> rs e' = rs e /\ KV.validators (db e') = KV.validators (db e).
Proof.
  unfold persist, persistRoundState. intros (d & Hd & <-%Ok_inj)%obind_ok_inv. split; [done|]. cbn.
  destruct (encodeRoundState (rs e)); [| |done]; by apply Ok_inj in Hd as <-.
Qed.

Lemma broadcastVote_same ty e bh e' ov :
  broadcastVote kp chainID ty e bh = (e', ov) ->
  rs e' = rs e /\ KV.validators (db e') = KV.validators (db e) /\
  forall v, ov = Some v -> VType v = ty /\ VValidatorPK v = keys.PublicKey kp.
Proof.
  unfold broadcastVote, statemachine.RecordConsensusVote. intros Hb. destruct (kv_Get _ _); cbn in Hb; injection Hb as <- <-;
    (split; [done|split; [done|by intros v [= <-]]]).
Qed.

(** Two handlers that agree on the node's own votes of a type in a state. *)
Lemma handleOwn_ext hv1 hv2 ty e bh vs ss :
  (forall e' v, rs e' = rs e -> KV.validators (db e') = KV.validators (db e) -> VType v = ty ->
     VValidatorPK v = keys.PublicKey kp -> hv1 e' v vs ss = hv2 e' v vs ss) ->
  handleOwn hv1 (broadcastVote kp chainID ty e bh) vs ss = handleOwn hv2 (broadcastVote kp chainID ty e bh) vs ss.
Proof.
  intros Hhv. destruct (broadcastVote kp chainID ty e bh) as [e' ov] eqn:Eb.
  apply broadcastVote_same in Eb as (Hr & Hv & Hown). destruct ov as [v|]; cbn; [|done].
  destruct (Hown v eq_refl). by apply Hhv.
Qed.

(** The node's own prevote is the first of its round: no quorum. *)
Lemma own_no_quorum v vs ss reached :
  not_alone vs ss -> VValidatorPK v = keys.PublicKey kp ->
  QuorumReached (<[VValidatorPK v := v]> ∅) vs ss = Ok reached -> reached = false.
Proof.
  intros Hna Hpk Hq. destruct (stakeTable vs ss) as [[m total]| |] eqn:Et; [|unfold QuorumReached in Hq; by rewrite Et in Hq..].
  rewrite (QuorumReached_spec _ _ _ _ _ Et) in Hq. injection Hq as <-. apply bool_decide_eq_false.
  rewrite dom_insert_L, dom_empty_L, (right_id_L ∅ (∪)), Hpk. by apply Hna.
Qed.

Lemma own_prevote_ends hv1 hv2 e v vs ss :
  not_alone vs ss -> Prevotes (rs e) = ∅ -> VType v = VotePrevote -> VValidatorPK v = keys.PublicKey kp ->
  handleVoteBody kp chainID ncpu iter hv1 e v vs ss = handleVoteBody kp chainID ncpu iter hv2 e v vs ss.
Proof.
  intros Hna He Ht Hpk. unfold handleVoteBody. rewrite Ht. change (VotePrevote =? VotePrevote) with true.
  do 3 (case_match; [done|]). unfold onPrevote. rewrite He, lookup_empty.
  apply obind_ext. intros e1 Hp. apply persist_same in Hp as [Hr _]. cbn [rs set_rs] in Hr. rewrite Hr. cbn [Prevotes set_Prevotes].
  apply obind_ext. intros reached Hq. by rewrite (own_no_quorum v vs ss reached Hna Hpk Hq).
Qed.

Lemma broadcastProposal_ends hv1 hv2 e root vs ss :
  not_alone vs ss -> Prevotes (rs e) = ∅ ->
  broadcastProposal kp chainID (handleVoteBody kp chainID ncpu iter hv1) e root vs ss =
  broadcastProposal kp chainID (handleVoteBody kp chainID ncpu iter hv2) e root vs ss.
Proof.
  intros Hna He. unfold broadcastProposal. destruct (proposer e) as [q|]; [|done].
  destruct (makeProposal e root q) as [p| |]; [|done..]. case_match; [done|]. destruct (SerializeProposal p); [|done..].
  apply obind_ext. intros e1 Hp. apply persist_same in Hp as [Hr _]. apply obind_ext. intros bh _.
  apply handleOwn_ext. intros e2 v Hr2 _ Ht Hpk. apply own_prevote_ends; try done.
  rewrite Hr2. cbn [rs emit]. rewrite Hr. exact He.
Qed.

Lemma restartRound_ends hv1 hv2 e :
  bonds_not_alone (db e) ->
  restartRound kp chainID (handleVoteBody kp chainID ncpu iter hv1) e =
  restartRound kp chainID (handleVoteBody kp chainID ncpu iter hv2) e.
Proof.
  intros Hb. unfold restartRound. apply obind_ext. intros [vs ss] Hbond. specialize (Hb vs ss Hbond).
  apply obind_ext. intros pk _. case_bool_decide; [|done]. by rewrite (broadcastProposal_ends hv1 hv2).
Qed.

Lemma restart_ends hv1 hv2 e :
  bonds_not_alone (db e) ->
  restartOrStop kp chainID (handleVoteBody kp chainID ncpu iter hv1) (rejectProposal e) =
  restartOrStop kp chainID (handleVoteBody kp chainID ncpu iter hv2) (rejectProposal e).
Proof.
  intros Hb. unfold restartOrStop. rewrite (restartRound_ends hv1 hv2); [done|].
  assert (db (rejectProposal e) = db e) as -> by (unfold rejectProposal; by repeat case_match). done.
Qed.

(** A block that does not apply leaves the validators as they were. *)
Lemma failed_commit_same e vs ss bh e' :
  commit chainID ncpu iter e vs ss bh = Ok (e', false) -> KV.validators (db e') = KV.validators (db e).
Proof.
  unfold commit. intros Hc. destruct (Proposal (rs e)) as [p|]; [|by simplify_eq].
  apply obind_ok_inv in Hc as (h & _ & Hc). case_bool_decide; [by simplify_eq|].
  destruct (SerializeProposal p) as [data| |]; [|by simplify_eq|done].
  set (b := blockstore.mkBlock _ _ _ _ _ _) in Hc.
  pose proof (rejected_unchanged ncpu iter (db e) b chainID) as Hu.
  destruct (statemachine.ApplyBlockForChain _ _ _ _ _) as [d r]. destruct r; simplify_eq. cbn in *. by rewrite Hu.
Qed.

Lemma onPrecommit_ends hv1 hv2 e v vs ss :
  bonds_not_alone (db e) ->
  onPrecommit kp chainID ncpu iter (handleVoteBody kp chainID ncpu iter hv1) e v vs ss =
  onPrecommit kp chainID ncpu iter (handleVoteBody kp chainID ncpu iter hv2) e v vs ss.
Proof.
  intros Hb. unfold onPrecommit. case_match; [done|].
  apply obind_ext. intros e1 Hp. apply persist_same in Hp as [_ Hv].
  assert (bonds_not_alone (db e1)) as Hb1 by by apply (bonds_not_alone_ext (db e)).
  apply obind_ext. intros reached _. case_match; [|done].
  apply obind_ext. intros [bh|] _; [|by apply restart_ends]. case_match; [|by apply restart_ends].
  apply obind_ext. intros [e2 ok] Hc. destruct ok; [done|]. apply restart_ends.
  apply failed_commit_same in Hc. by apply (bonds_not_alone_ext (db e1)).
Qed.

Lemma own_precommit_ends hv1 hv2 e v vs ss :
  bonds_not_alone (db e) -> VType v = VotePrecommit ->
  handleVoteBody kp chainID ncpu iter (handleVoteBody kp chainID ncpu iter hv1) e v vs ss =
  handleVoteBody kp chainID ncpu iter (handleVoteBody kp chainID ncpu iter hv2) e v vs ss.
Proof.
  intros Hb Ht. unfold handleVoteBody at 1 3. rewrite Ht. change (VotePrecommit =? VotePrevote) with false.
  change (VotePrecommit =? VotePrecommit) with true. do 3 (case_match; [done|]). by apply onPrecommit_ends.
Qed.

Lemma three_levels hv1 hv2 e v vs ss :
  let F := handleVoteBody kp chainID ncpu iter in
  bonds_not_alone (db e) -> F (F (F hv1)) e v vs ss = F (F (F hv2)) e v vs ss.
Proof.
  intros F Hb. unfold F at 1 4. unfold handleVoteBody at 1 2. do 3 (case_match; [done|]). case_match.
  - unfold onPrevote. case_match; [done|]. apply obind_ext. intros e1 Hp. apply persist_same in Hp as [_ Hv].
    apply obind_ext. intros reached _. case_match; [|done].
    assert (forall e2, KV.validators (db e2) = KV.validators (db e1) -> bonds_not_alone (db e2)) as Hb2
      by (intros e2 He2; apply (bonds_not_alone_ext (db e)); [rewrite He2; exact Hv|done]).
    apply obind_ext. intros [bh|] _; apply handleOwn_ext; intros e3 w _ Hv3 Ht _; apply own_precommit_ends; try done;
      by apply Hb2.
  - case_match; [|done]. by apply onPrecommit_ends.
Qed.

(** C22.  Handling a vote ends after three nested calls: for a node that does not by itself
    hold two thirds of the bonded stake, a fourth nested call is never made.
    Whatever would be run in its place ([hv]) does not matter, and more stack
    changes nothing, whatever votes the node holds and whatever the proposer
    and the block do. *)
Theorem handleVote_depth e v vs ss :
  bonds_not_alone (db e) ->
  (forall hv, let F := handleVoteBody kp chainID ncpu iter in F (F (F hv)) e v vs ss = handleVote kp chainID ncpu iter 3 e v vs ss) /\
  forall fuel, handleVote kp chainID ncpu iter (3 + fuel) e v vs ss = handleVote kp chainID ncpu iter 3 e v vs ss.
Proof. intros Hb. split; intros; cbn [handleVote Nat.add]; by apply three_levels. Qed.
End Depth.
