(* ===== verification/EngineSafety.v ===== *)
(** * core/consensus: safety of the engine

    The histories of a node ([node_run]) and what holds in all of them: typed
    states, one vote per slot, one block per round, and snapshots that a
    restart reads back. *)

From S2P Require Import Prelude GoBytes Errors Platform Tx TxProofs KV Denom Ledger Staking Gas Mint Node Tree Contract BlockStore Telemetry.
From S2P Require Import StateMachine StateMachineProofs BlockProofs FrameProofs Vote VoteProofs QuorumProofs BlockLoop Round RoundProofs Engine.
From S2P Require Import EngineProofs.
Import vote round engine.

Section Reach.
Context `{PlatformLaws} `{contract.Wasmtime} `{telemetry.Json} `{MapOrderLaws} {B P : Type} `{KVLaws B} `{Proposer P}.
Context (kp : keys.Keypair) (chainID : bytes).
Implicit Types (e : Engine B P) (d : DB B).

(** The histories of a node: it starts on a database without a snapshot; it handles
    events; its transaction pool changes; blocks obtained from peers are
    applied to its database; it stops and starts again, with an empty memory
    but the same database.  [Q] is what is asked of the pools. *)
Inductive node_run_of (Q : P -> Prop) : Engine B P -> Prop :=
| reach_start fuel ncpu iter d q e :
    kv_Get (meta d) statemachine.consensusStateKey = None -> (forall q', q = Some q' -> Q q') ->
    Start kp chainID ncpu iter fuel d q [] = Ok e -> node_run_of Q e
| reach_event fuel ncpu iter e ev e' :
    node_run_of Q e -> enabled e ev = true -> handle kp chainID ncpu iter fuel e ev = Ok e' -> node_run_of Q e'
| reach_pool e q : node_run_of Q e -> (forall q', q = Some q' -> Q q') -> node_run_of Q (set_proposer e q)
| reach_sync ncpu iter e b :
    node_run_of Q e -> node_run_of Q (set_db e (fst (statemachine.ApplyBlockForChain ncpu iter (db e) b chainID)))
| reach_restart fuel ncpu iter e q e' :
    node_run_of Q e -> (forall q', q = Some q' -> Q q') ->
    Start kp chainID ncpu iter fuel (db e) q (trace e) = Ok e' -> node_run_of Q e'.

(** Any pool at all. *)
Definition node_run : Engine B P -> Prop := node_run_of (fun _ => True).

Lemma run_inv X Q e : keys.generated kp -> maintained (B := B) chainID X Q -> node_run_of Q e -> inv kp chainID X Q e.
Proof.
  intros Hkp HX.
  induction 1 as [fuel ncpu iter d q e Hn Hq Hs|fuel ncpu iter e ev e' _ IH _ Hh|e q _ IH Hq|ncpu iter e b _ IH|fuel ncpu iter e q e' _ IH Hq Hs].
  - eapply (Start_inv kp chainID ncpu iter); [done|done| |exact Hq| | |exact Hs]; try done.
    + intros raw Hr. congruence.
    + intros v Hv. by apply not_elem_of_nil in Hv.
  - by eapply kept_handle in Hh as [? _].
  - destruct IH as [Hr _ Hv Hs Hc]. by constructor.
  - apply inv_set_db; [done| |apply apply_saved, (inv_saved _ _ _ _ e IH)].
    intros h r t x Hx. by rewrite apply_votes.
  - eapply (Start_inv kp chainID ncpu iter);
      [done|done|apply (inv_saved _ _ _ _ e IH)|exact Hq|apply (inv_votes _ _ _ _ e IH)|apply (inv_commits _ _ _ _ e IH)|exact Hs].
Qed.

Lemma node_run_inv e : keys.generated kp -> node_run e -> inv kp chainID (fun _ => True) (fun _ => True) e.
Proof. intros Hkp. apply run_inv; [done|apply maintained_trivial]. Qed.

(** C4.  A node never equivocates.  Whatever messages it receives, whatever timers fire
    and however often it is restarted, all votes it broadcasts for one height,
    round and type name the same block; every one of them carries its valid
    signature and is on record in its database.  So no evidence made of two
    of its own votes convicts it. *)
Theorem engine_never_equivocates e v1 v2 :
  keys.generated kp -> node_run e -> SentVote v1 ∈ trace e -> SentVote v2 ∈ trace e ->
  VType v1 = VType v2 -> VHeight v1 = VHeight v2 -> VRound v1 = VRound v2 ->
  VBlockHash v1 = VBlockHash v2 /\ VerifyVoteForChain v1 chainID = true /\ VValidatorPK v1 = keys.PublicKey kp /\
  recorded (db e) v1 /\
  forall t, tx.EvidenceA t = Serialize v1 -> tx.EvidenceB t = Serialize v2 ->
    is_Ok (statemachine.validateEquivocationEvidenceTx t chainID) = false.
Proof.
  intros Hkp Hr%node_run_inv H1' H2' Ht Hh Hrd; [|done].
  destruct (inv_votes _ _ _ _ e Hr v1 H1') as (R1 & Hpk & Hsig & Hw1), (inv_votes _ _ _ _ e Hr v2 H2') as (R2 & _ & _ & Hw2).
  assert (VBlockHash v1 = VBlockHash v2) as Hbh.
  { unfold recorded in R1, R2. rewrite Ht, Hh, Hrd in R1. rewrite R1 in R2. by injection R2 as ?%arr_eq. }
  split_and!; try done. intros t Ea Eb.
  unfold statemachine.validateEquivocationEvidenceTx. rewrite Ea, Eb, !evidence_decoder, !vote_roundtrip by done.
  cbn [statemachine.asDistortion obind toEvidence statemachine.EBlockHash]. rewrite Hbh.
  rewrite (bool_decide_eq_true_2 (VBlockHash v2 = VBlockHash v2)) by done. by repeat case_match.
Qed.

(** C14.  The state of a node is well typed.  In every history the height and round fit their
    64 and 32 bits, the phase is one of the four, every vote held was cast for
    the current height and round with the right type, is stored under its
    signer and carries a valid signature, and the snapshot on disk, if there
    is one, encodes a state of that kind. *)
Theorem engine_state_typed e :
  keys.generated kp -> node_run e -> rs_ok chainID (rs e) /\ saved_ok chainID (db e).
Proof.
  intros Hkp Hr%node_run_inv; [|done]. split; [by apply inv_rs in Hr|]. eapply saved_round_ok, (inv_saved _ _ _ _ e Hr).
Qed.

(** What a commit in a node's history is backed by. *)
Lemma commit_backed e h r p precommits vs ss :
  keys.generated kp -> node_run e -> Committed h r p precommits vs ss ∈ trace e ->
  Forall (fun s => 0 <= s) ss -> zlen vs = zlen ss ->
  exists bh m total, gathered chainID VotePrecommit h r precommits /\ BlockHashForChain p chainID = Ok bh /\
    bh <> zero_arr 32 /\ stakeTable vs ss = Ok (m, total) /\ table_ok m total /\ quorum m total (supporters precommits bh).
Proof.
  intros Hkp Hr%node_run_inv Hc Hs Hl; [|done].
  pose proof (inv_commits _ _ _ _ e Hr) as Hall. rewrite Forall_forall in Hall. destruct (Hall _ Hc) as (Hg & bh & Hbh & Hnz & Hq).
  destruct (stakeTable_total vs ss Hl) as (m & total & Ht). destruct (stakeTable_ok _ _ _ _ Hs Ht) as [Hok _].
  exists bh, m, total. destruct (quorumBlock_spec precommits vs ss m total Ht Hok (gathered_keyed _ _ _ _ _ Hg)) as (q & Hq' & Hspec).
  rewrite Hq in Hq'. injection Hq' as <-. split_and!; try done. by apply Hspec.
Qed.
End Reach.

(** ** Agreement within a round *)
Section Agreement.
Context `{PlatformLaws} `{contract.Wasmtime} `{telemetry.Json} `{MapOrderLaws} {B P : Type} `{KVLaws B} `{Proposer P}.

(** Every vote held under [pk] was broadcast by that node. *)
Definition votes_sent_by (precommits : gmap (arr 32) Vote) (pk : arr 32) (e : Engine B P) : Prop :=
  forall v, precommits !! pk = Some v -> SentVote v ∈ trace e.

(** A validator that runs this engine, with both commits holding only votes it sent. *)
Definition runs_engine (chainID : bytes) (pc1 pc2 : gmap (arr 32) Vote) (pk : arr 32) : Prop :=
  exists kp e, keys.generated kp /\ node_run kp chainID e /\ votes_sent_by pc1 pk e /\ votes_sent_by pc2 pk e.

Lemma runs_engine_agree chainID pc1 pc2 pk h r b1 b2 :
  runs_engine chainID pc1 pc2 pk -> gathered chainID VotePrecommit h r pc1 -> gathered chainID VotePrecommit h r pc2 ->
  pk ∈ supporters pc1 b1 -> pk ∈ supporters pc2 b2 -> b1 = b2.
Proof.
  intros (kp & e & Hkp & Hr & Hs1 & Hs2) Hg1 Hg2 (v1 & Hv1 & <-)%supporters_In (v2 & Hv2 & <-)%supporters_In.
  pose proof (node_run_inv kp chainID e Hkp Hr) as Hi.
  destruct (inv_votes _ _ _ _ e Hi v1 (Hs1 v1 Hv1)) as [R1 _], (inv_votes _ _ _ _ e Hi v2 (Hs2 v2 Hv2)) as [R2 _].
  apply Hg1 in Hv1 as (_ & _ & _ & T1 & H1' & D1). apply Hg2 in Hv2 as (_ & _ & _ & T2 & H2' & D2).
  unfold recorded in R1, R2. rewrite T1, H1', D1 in R1. rewrite T2, H2', D2 in R2. rewrite R1 in R2.
  by injection R2 as ?%arr_eq.
Qed.

(** C3.  Agreement within a round.  Two nodes, in any histories, that commit blocks for the
    same height and round with the same stake table commit the same block
    hash, provided at most a third of the stake belongs to validators that do
    not run this engine. *)
Theorem one_block_per_round kp1 kp2 chainID (e1 e2 : Engine B P) h r p1 p2 pc1 pc2 vs ss (faulty : gset (arr 32)) m total :
  keys.generated kp1 -> keys.generated kp2 -> node_run kp1 chainID e1 -> node_run kp2 chainID e2 ->
  Committed h r p1 pc1 vs ss ∈ trace e1 -> Committed h r p2 pc2 vs ss ∈ trace e2 ->
  Forall (fun s => 0 <= s) ss -> zlen vs = zlen ss -> stakeTable vs ss = Ok (m, total) ->
  wt m faulty * 3 <= total -> (forall pk, pk ∉ faulty -> pk ∈ dom pc1 -> pk ∈ dom pc2 -> runs_engine chainID pc1 pc2 pk) ->
  BlockHashForChain p1 chainID = BlockHashForChain p2 chainID.
Proof.
  intros Hk1 Hk2 Hr1 Hr2 Hc1 Hc2 Hs Hl Ht Hf Honest.
  destruct (commit_backed kp1 chainID e1 _ _ _ _ _ _ Hk1 Hr1 Hc1 Hs Hl) as (b1 & m1 & t1 & Hg1 & Hb1 & _ & Ht1 & Hok & Hq1).
  destruct (commit_backed kp2 chainID e2 _ _ _ _ _ _ Hk2 Hr2 Hc2 Hs Hl) as (b2 & m2 & t2 & Hg2 & Hb2 & _ & Ht2 & _ & Hq2).
  rewrite Ht in Ht1, Ht2. simplify_eq. rewrite Hb1, Hb2. f_equal.
  destruct (decide (supporters pc1 b1 ∩ supporters pc2 b2 ⊆ faulty)) as [Hsub|Hsub].
  - pose proof (quorums_share _ _ _ _ Hok Hq1 Hq2). pose proof (wt_mono _ _ _ _ Hok Hsub). lia.
  - assert (exists pk, pk ∈ supporters pc1 b1 ∩ supporters pc2 b2 /\ (pk ∉ faulty)) as (pk & [Hp1 Hp2]%elem_of_intersection & Hpf).
    { destruct (decide ((supporters pc1 b1 ∩ supporters pc2 b2) ∖ faulty = ∅)) as [He|He].
      - exfalso. apply Hsub. by apply empty_difference_subseteq_L.
      - apply set_choose_L in He as [pk Hpk]. exists pk. by apply elem_of_difference in Hpk. }
    eapply (runs_engine_agree chainID pc1 pc2 pk); [|done..].
    apply Honest; [done|..]; apply elem_of_dom.
    + apply supporters_In in Hp1 as (v & Hv & _). eauto.
    + apply supporters_In in Hp2 as (v & Hv & _). eauto.
Qed.
End Agreement.

(** ** Snapshots of a running node *)
Section Snapshots.
Context `{PlatformLaws} `{contract.Wasmtime} `{telemetry.Json} `{MapOrderLaws} {B : Type} `{KVLaws B}.
Context (kp : keys.Keypair) (chainID : bytes) (Hkp : keys.generated kp).
Implicit Types (bl : blockloop.BlockLoop) (t : tx.Tx).

(** A transaction as it enters the pool: its fields have their widths, its signature
    verifies for the chain. *)
Definition admitted t : Prop := tx.wf t /\ tx.VerifySigsForChain t chainID = Ok tt.

(** The node's own block loop, with a pool of such transactions. *)
Definition sound_pool bl : Prop :=
  blockloop.kp bl = kp /\ chainOrDefault (blockloop.chainID bl) = chainOrDefault chainID /\
  Forall admitted (blockloop.Snapshot bl).

Lemma queue_sound (q q' : list (positive * tx.Tx)) :
  (forall x, x ∈ q' -> x ∈ q) -> Forall admitted (map snd q) -> Forall admitted (map snd q').
Proof. rewrite !Forall_map, !Forall_forall. intros Hs Hq x Hx. by apply Hq, Hs. Qed.

Lemma removeOne_sound p t :
  Forall admitted (map snd (blockloop.queue p)) -> Forall admitted (map snd (blockloop.queue (blockloop.removeOne p t))).
Proof.
  unfold blockloop.removeOne. destruct (tx.ID t); [|done..]. destruct (_ !! _); [|done]. apply queue_sound.
  intros x Hx. by apply removeElem_In in Hx as [? _].
Qed.

Lemma removeCommitted_sound bl txs : sound_pool bl -> sound_pool (blockloop.removeCommitted bl txs).
Proof.
  intros (Hk & Hc & Hs). split_and!; [done..|]. unfold blockloop.removeCommitted, blockloop.Snapshot in *. cbn.
  generalize dependent (blockloop.pool bl). induction txs as [|t txs IH]; intros p Hs; [done|]. cbn. by apply IH, removeOne_sound.
Qed.

(** A new block loop is sound, and stays so while admitted transactions arrive. *)
Lemma new_sound : sound_pool (blockloop.NewWithChainID kp chainID).
Proof.
  split_and!; [done| |constructor]. unfold blockloop.NewWithChainID. cbn [blockloop.chainID].
  destruct (decide (chainID = [])) as [->|]; done.
Qed.

Lemma Enqueue_sound bl t : admitted t -> sound_pool bl -> sound_pool (blockloop.Enqueue bl t).
Proof.
  intros Ht (Hk & Hc & Hs). split_and!; [done..|]. unfold blockloop.Enqueue, blockloop.Snapshot, blockloop.enqueue in *. cbn.
  destruct (tx.ID t) as [id| |]; [|done..]. destruct (_ !! id); [done|]. cbn [blockloop.queue blockloop.pushBack].
  rewrite map_app, Forall_app. split; [|by constructor]. case_match; [|done].
  unfold blockloop.dropOldest. destruct (blockloop.queue (blockloop.pool bl)) as [|[e o] q] eqn:Eq; [by rewrite Eq|].
  eapply queue_sound, Hs. cbn [blockloop.queue]. intros x Hx. by apply removeElem_In in Hx as [? _].
Qed.

(** What the node holds besides votes. *)
Definition held (r : RoundState) : Prop :=
  (forall p, Proposal r = Some p -> held_proposal chainID p) /\ attestation_ok chainID (LastAttestation r).

Lemma held_snapshot r : rs_ok chainID r -> held r -> snapshot_ok chainID r.
Proof. intros [] []. constructor; try done; by eapply gathered_votes_ok. Qed.

Lemma attestation_empty h r bh : is_u64 h -> is_u32 r -> attestation_ok chainID (mkAttestationSet h r bh []).
Proof. intros Hh Hr. unfold attestation_ok. by split_and!. Qed.

Lemma precommits_attest r bh :
  rs_ok chainID r -> attestation_ok chainID (attestationFromPrecommits (Precommits r) bh).
Proof.
  intros Hr. unfold attestationFromPrecommits.
  set (chosen := List.filter _ _). assert (Forall (fun v => vote_wf v /\ VType v = VotePrecommit /\ VHeight v = Height r /\
    VRound v = Round r /\ VBlockHash v = bh /\ VerifyVoteForChain v chainID = true) (merge_sort vote_le chosen)) as Hc.
  { rewrite merge_sort_Permutation. apply Forall_forall. intros v Hv. apply list_elem_of_In, List.filter_In in Hv as [Hv Hb].
    apply andb_true_iff in Hb as [_ Hb]. apply bool_decide_eq_true in Hb. apply list_elem_of_In, map_votes_In in Hv as [pk Hv].
    apply (rs_precommits _ _ Hr) in Hv as (_ & ? & ? & ? & ? & ?). done. }
  destruct (merge_sort vote_le chosen) as [|v vs]; [by apply attestation_empty|].
  pose proof Hc as Hc'. apply Forall_cons in Hc' as [(_ & _ & Hh & Hrd & _) _].
  unfold attestation_ok. split_and!; cbn; rewrite ?Hh, ?Hrd; [apply Hr|apply Hr|..]; eapply Forall_impl; try exact Hc; cbn; try tauto.
  intros w (? & ? & ? & ? & ? & ?). unfold vote_attests. cbn. by split_and!.
Qed.

Lemma own_held (e : Engine B blockloop.BlockLoop) root bl p :
  rs_ok chainID (rs e) -> held (rs e) -> sound_pool bl -> makeProposal e root bl = Ok p -> held_proposal chainID p.
Proof.
  intros Hr [_ (Hah & Har & Haw & _)] (Hk & Hc & Hs) Hm. cbn in Hm. unfold blockloop.ProposeForState, blockloop.propose in Hm.
  apply obind_ok_inv in Hm as (body & Hb & <-%Ok_inj). set (txs := take _ _) in *.
  assert (Forall admitted txs) as Htx by by apply Forall_take.
  assert (ProposalSignBytesForChain (mkBlockProposal (Height (rs e)) (Round (rs e)) (keys.PublicKey (blockloop.kp bl)) root txs
    (LastAttestation (rs e)) (keys.Sign (blockloop.kp bl) body)) chainID = Ok body) as Hb'.
  { rewrite <- Hb. unfold ProposalSignBytesForChain. by rewrite Hc. }
  unfold held_proposal, proposal_wf. cbn. split_and!; try done; try apply Hr.
  - eapply Forall_impl; [exact Htx|]. by intros t [? _].
  - unfold VerifyProposalForChain. rewrite Hb'. cbn. by rewrite Hk, keys.Verify_Sign.
  - eapply Forall_impl; [exact Htx|]. by intros t [_ ?].
Qed.

Lemma restored_held raw r : decodeRoundState raw chainID = Ok r -> held r.
Proof.
  unfold decodeRoundState. intros Hd. osteps Hd; simplify_eq.
  all: match goal with Hr : decodeRest _ _ = Ok _ |- _ => unfold decodeRest in Hr; osteps Hr end; simplify_eq.
  all: split; cbn.
  all: try (intros p ->; match goal with Hp : deserializeOptionalProposal _ _ = Ok _ |- _ => by apply restored_proposal in Hp end).
  all: match goal with Ha : decodeAttestation _ _ = Ok _ |- _ => unfold decodeAttestation in Ha; osteps Ha end; simplify_eq.
  all: try (match goal with Ha : deserializeAttestation _ _ = Ok _ |- _ => by apply restored_attestation in Ha end).
  all: by apply attestation_empty.
Qed.

Lemma blockloop_maintained : maintained (B := B) chainID held sound_pool.
Proof.
  constructor.
  - intros h. split; [done|by apply attestation_empty].
  - intros r r' [Hp Ha] Ep Ea. split; [by rewrite Ep|by rewrite Ea].
  - intros r r' [_ Ha] Ep Ea. split; [by rewrite Ep|by rewrite Ea].
  - intros r bh Hr [Hp _]. split; [done|by apply precommits_attest].
  - intros e root q p Hr Hh Hq Hm. split; [|apply Hh]. cbn. intros p' [= <-]. by eapply own_held.
  - intros r p [_ Ha] Hp. split; [by intros p' [= <-]|done].
  - intros raw r. apply restored_held.
  - intros q h txs. apply removeCommitted_sound.
  - intros reject q h txs [= <-]. apply removeCommitted_sound.
Qed.

Lemma encoded_nonempty r d : encodeRoundState r = Ok d -> (zlen d >? 0) = true.
Proof.
  unfold encodeRoundState. intros He. repeat (apply obind_ok_inv in He as (? & _ & He)). apply Ok_inj in He as <-.
  rewrite zlen_app, zlen_put64, Z.gtb_ltb. apply Z.ltb_lt.
  match goal with |- 0 < 8 + zlen ?l => pose proof (zlen_nonneg l) end. lia.
Qed.

(** C15.  A restarted node goes on where it stopped.  Take any history of a node whose pool
    takes in only transactions that verify for its chain.  Whatever it writes
    of its round state is read back with every field, transactions in
    canonical form, an attestation without votes dropped and the round of a
    released lock forgotten; and a restart at any height resumes the saved
    round when it is of the next height.  The one exception is a held
    proposal of the full 65536 transactions: its snapshot is written and never
    read, and the node restarts in a new round without it. *)
Theorem snapshot_restores_round (e : Engine B blockloop.BlockLoop) :
  node_run_of kp chainID sound_pool e ->
  (forall d, encodeRoundState (rs e) = Ok d ->
     decodeRoundState d chainID =
       if fullSnapshot (rs e) then fail ErrCanonicalEncodingDistortion else Ok (canonRoundState (rs e))) /\
  forall raw, kv_Get (meta (db e)) statemachine.consensusStateKey = Some raw ->
    exists r, rs_ok chainID r /\ encodeRoundState r = Ok raw /\
      decodeRoundState raw chainID =
        (if fullSnapshot r then fail ErrCanonicalEncodingDistortion else Ok (canonRoundState r)) /\
      forall h, restored chainID (db e) h =
        Ok (if negb (fullSnapshot r) && (Height r =? wrap64 (h + 1)) then canonRoundState r else NewRoundState (wrap64 (h + 1))).
Proof.
  intros Hr. apply (run_inv kp chainID held sound_pool) in Hr as Hi; [|done|apply blockloop_maintained].
  split; [intros d; apply snapshot_read, held_snapshot; apply (inv_round _ _ _ _ e Hi)|].
  intros raw Hraw. destruct (inv_saved _ _ _ _ e Hi raw Hraw) as (r & [Hok Hh] & He). exists r.
  pose proof (snapshot_read r raw chainID (held_snapshot r Hok Hh) He) as Hd. split_and!; try done.
  intros h. unfold restored, statemachine.LoadConsensusState. rewrite Hraw. cbn [default from_option id].
  rewrite (encoded_nonempty r raw He), Hd. destruct (fullSnapshot r); [done|]. cbn [negb andb]. reflexivity.
Qed.
End Snapshots.
