(* ===== verification/EngineLiveness.v ===== *)
(** * core/consensus: where the engine waits

    Two places where the code does not do what it means to: a proposer has no
    timeout for the votes on its own block, and the event loop never sees the
    validators that bond after it started. *)

From S2P Require Import Prelude GoBytes Errors Platform Tx TxProofs KV Denom Ledger Staking Gas Mint Node Tree Contract BlockStore Telemetry.
From S2P Require Import StateMachine StateMachineProofs BlockProofs FrameProofs Vote VoteProofs QuorumProofs BlockLoop Round RoundProofs Engine.
From S2P Require Import EngineProofs EngineDepth EngineSafety.
Import vote round engine.

Section Waiting.
Context `{Platform} `{contract.Wasmtime} `{telemetry.Json} `{MapOrderLaws} {B P : Type} `{KVLaws B} `{Proposer P}.
Context (kp : keys.Keypair) (chainID : bytes) (ncpu : Z) (iter : gset (arr 32) -> list (arr 32)).
Implicit Types (e : Engine B P) (hv : voteHandler (B := B) (P := P)).

(** In the prevote phase with neither of the timers that would end it. *)
Definition waiting e : Prop :=
  Phase (rs e) = PhasePrevote /\ prevoteTimer (timers e) = false /\ precommitTimer (timers e) = false.

(** An event that is not a vote. *)
Definition quiet_step e e' : Prop :=
  exists fuel ev, (forall raw, ev <> EvVote raw) /\ enabled e ev = true /\ handle kp chainID ncpu iter fuel e ev = Ok e'.

Lemma quiet_waiting e e' : waiting e -> quiet_step e e' -> waiting e' /\ rs e' = rs e.
Proof.
  intros (Hp & Hv & Hc) (fuel & ev & Hnv & Hen & Hh). assert ((PhasePrevote =? PhasePropose) = false) as Hne by done.
  assert (waiting e) as Hw by done.
  destruct ev as [raw|raw| | | | |]; cbn [enabled handle] in *; try congruence.
  - by destruct (Hnv raw).
  - apply obind_ok_inv in Hh as ([p|] & _ & Hh); [|by apply Ok_inj in Hh as <-].
    unfold handleProposal in Hh. apply obind_ok_inv in Hh as (ok & Hok & Hh).
    enough (ok = false) as -> by by apply Ok_inj in Hh as <-.
    unfold acceptable in Hok. rewrite Hp, Hne in Hok. cbn [negb orb] in Hok. by repeat case_match; simplify_eq.
  - unfold onProposeTimeout in Hh. cbn [rs armPropose set_timers] in Hh. rewrite Hp, Hne in Hh. by apply Ok_inj in Hh as <-.
  - by apply Ok_inj in Hh as <-.
  - unfold onProposeReady in Hh. cbn [rs set_delayed] in Hh. rewrite Hp, Hne in Hh. by apply Ok_inj in Hh as <-.
Qed.

Lemma persist_timers e e' : persist e = Ok e' -> timers e' = timers e.
Proof. unfold persist. by intros (d & _ & <-%Ok_inj)%obind_ok_inv. Qed.

(** The node's own prevote changes neither phase nor timers. *)
Lemma own_prevote_waits hv e v vs ss e' :
  not_alone kp vs ss -> Prevotes (rs e) = ∅ -> VType v = VotePrevote -> VValidatorPK v = keys.PublicKey kp ->
  handleVoteBody kp chainID ncpu iter hv e v vs ss = Ok e' ->
  Phase (rs e') = Phase (rs e) /\ timers e' = timers e.
Proof.
  intros Hna He Ht Hpk Hh. unfold handleVoteBody in Hh. rewrite Ht in Hh. change (VotePrevote =? VotePrevote) with true in Hh.
  do 3 (case_match; [by apply Ok_inj in Hh as <-|]). unfold onPrevote in Hh. rewrite He, lookup_empty in Hh.
  apply obind_ok_inv in Hh as (e1 & Hp & Hh). pose proof (persist_timers _ _ Hp) as Htm.
  apply persist_same in Hp as [Hr _]. apply obind_ok_inv in Hh as (reached & Hq & Hh).
  rewrite Hr in Hq. rewrite (own_no_quorum kp v vs ss reached Hna Hpk Hq) in Hh. apply Ok_inj in Hh as <-.
  by rewrite Hr, Htm.
Qed.

Lemma broadcastProposal_waits hv e root vs ss e' :
  not_alone kp vs ss -> Prevotes (rs e) = ∅ -> prevoteTimer (timers e) = false -> precommitTimer (timers e) = false ->
  broadcastProposal kp chainID (handleVoteBody kp chainID ncpu iter hv) e root vs ss = Ok e' -> e' = e \/ waiting e'.
Proof.
  intros Hna He Hv Hc Hb. unfold broadcastProposal in Hb.
  destruct (proposer e) as [q|]; [|apply Ok_inj in Hb; auto].
  destruct (makeProposal e root q) as [p| |]; [|apply Ok_inj in Hb; auto|done].
  case_match; [apply Ok_inj in Hb; auto|]. destruct (SerializeProposal p) as [data| |]; [|apply Ok_inj in Hb; auto|done].
  right. apply obind_ok_inv in Hb as (e1 & Hp & Hb). pose proof (persist_timers _ _ Hp) as Htm.
  apply persist_same in Hp as [Hr _]. cbn in Hr, Htm. apply obind_ok_inv in Hb as (bh & _ & Hb).
  unfold broadcastPrevote in Hb. destruct (broadcastVote _ _ _ _ _) as [e2 ov] eqn:Eb.
  assert (timers e2 = timers e) as Htm2.
  { unfold broadcastVote, statemachine.RecordConsensusVote in Eb. destruct (kv_Get _ _); cbn in Eb; by injection Eb as <- <-. }
  apply broadcastVote_same in Eb as (Hr2 & _ & Hown). cbn [rs emit] in Hr2. rewrite Hr in Hr2. destruct ov as [v|]; cbn in Hb.
  - destruct (Hown v eq_refl) as [Hvt Hpk]. apply own_prevote_waits in Hb as [Hph Ht2]; try done; [|by rewrite Hr2].
    unfold waiting. by rewrite Hph, Ht2, Htm2, Hr2.
  - apply Ok_inj in Hb as <-. unfold waiting. by rewrite Htm2, Hr2.
Qed.

(** A proposer has no timeout for its own block.  When the node's turn to propose comes
    ([EvProposeReady]) and it broadcasts a block, it enters the prevote phase
    with neither the prevote nor the precommit timer running; from then on no
    event other than a vote, be it the propose timer, another proposal or a
    further signal, ever changes its round state.  A proposer that does not
    hear a quorum of prevotes for that very round stays in it until it is
    restarted. *)
Theorem proposer_waits_forever fuel e e1 e2 :
  not_alone kp (validators e) (stakes e) -> Prevotes (rs e) = ∅ ->
  prevoteTimer (timers e) = false -> precommitTimer (timers e) = false ->
  handle kp chainID ncpu iter (S fuel) e EvProposeReady = Ok e1 -> rs e1 <> rs e ->
  rtc quiet_step e1 e2 -> waiting e2 /\ rs e2 = rs e1.
Proof.
  intros Hna He Hv Hc Hh Hne Hrun. assert (waiting e1) as Hw.
  { cbn [handle] in Hh. unfold onProposeReady in Hh. set (e0 := set_delayed e _ _) in Hh.
    case_match; [by apply Ok_inj in Hh as <-|]. apply obind_ok_inv in Hh as (pk & _ & Hh).
    case_bool_decide; [|by apply Ok_inj in Hh as <-]. cbn [handleVote] in Hh.
    apply broadcastProposal_waits in Hh as [->|?]; try done. }
  clear Hna He Hv Hc Hh Hne. induction Hrun as [e1|e1 e3 e2 Hs _ IH]; [done|].
  destruct (quiet_waiting e1 e3 Hw Hs) as [Hw3 Hr3]. destruct (IH Hw3) as [? Hr]. split; [done|congruence].
Qed.
End Waiting.

(** ** The loop's validators *)
Section Frozen.
Context `{PlatformLaws} `{contract.Wasmtime} `{telemetry.Json} `{MapOrderLaws} {B P : Type} `{KVLaws B} `{Proposer P}.
Context (kp : keys.Keypair) (chainID : bytes).
Implicit Types (e : Engine B P).

(** One event, or a change from outside: anything but a restart. *)
Inductive live_step : Engine B P -> Engine B P -> Prop :=
| live_event fuel ncpu iter e ev e' :
    enabled e ev = true -> handle kp chainID ncpu iter fuel e ev = Ok e' -> live_step e e'
| live_pool e q : live_step e (set_proposer e q)
| live_sync ncpu iter e b :
    live_step e (set_db e (fst (statemachine.ApplyBlockForChain ncpu iter (db e) b chainID))).

Lemma live_reachable e e' : node_run kp chainID e -> live_step e e' -> node_run kp chainID e'.
Proof.
  intros Hr Hst. destruct Hst as [fuel ncpu iter e ev e' Hen Hh| |];
    [exact (reach_event kp chainID _ fuel ncpu iter e ev e' Hr Hen Hh)|by apply reach_pool|by apply reach_sync].
Qed.

(** The event loop never learns of new validators.  While a node runs, the stake table
    its loop counts votes with stays the one it started with, whatever blocks
    it commits in between; a vote of a validator that is not in that table is
    dropped, even when the validator is bonded in the node's database. *)
Theorem late_validators_ignored fuel ncpu iter e e' raw v :
  keys.generated kp -> node_run kp chainID e -> rtc live_step e e' ->
  DeserializeVote raw = Ok v -> (VValidatorPK v ∉ validators e) ->
  validators e' = validators e /\ stakes e' = stakes e /\ handle kp chainID ncpu iter (S fuel) e' (EvVote raw) = Ok e'.
Proof.
  intros Hkp Hr Hrun Hd Hnv. assert (validators e' = validators e /\ stakes e' = stakes e) as [Hv Hs].
  { clear Hd Hnv. induction Hrun as [e|e e1 e' Hst _ IH]; [done|]. destruct (IH (live_reachable e e1 Hr Hst)) as [-> ->].
    pose proof (node_run_inv kp chainID e Hkp Hr) as Hi. destruct Hst as [fuel' ncpu' iter' e ev e1 _ Hh| |]; try done.
    by eapply (kept_handle kp chainID ncpu' iter' Hkp _ _ (maintained_trivial chainID)) in Hh as (_ & ? & ?). }
  split_and!; try done. cbn [handle]. rewrite Hd, Hv. cbn [handleVote]. unfold handleVoteBody.
  rewrite (bool_decide_eq_false_2 (VValidatorPK v ∈ validators e)) by done. by repeat case_match.
Qed.
End Frozen.
