(* ===== verification/EngineAlone.v ===== *)
(** * core/consensus: a validator that holds all the stake makes blocks

    The engine of such a node hears a quorum in its own votes: its turn to
    propose runs through prevote, precommit and commit in one call of
    [handle].  With an empty pool the block it makes is empty, and applying
    it cannot fail. *)

From S2P Require Import Prelude GoBytes Errors Platform Tx TxProofs KV Denom Ledger Staking StakingProofs Gas Mint Node NodeProofs Tree Contract BlockStore.
From S2P Require Import Float64 Telemetry StateMachine StateMachineProofs BlockProofs FrameProofs Vote VoteProofs QuorumProofs BlockLoop Round RoundProofs Engine.
From S2P Require Import EngineProofs EngineDepth.
Import blockstore statemachine.

(** ** An empty block is always accepted *)
Section EmptyBlock.
Context `{PlatformLaws} `{contract.Wasmtime} `{telemetry.Json} `{MapOrderLaws} {B : Type} `{KVLaws B}.
Implicit Types (db : DB B) (b : Block).

(** What is stored of a block without transactions. *)
Definition blankTelemetry b : telemetry.BlockTelemetry :=
  telemetry.mkBlockTelemetry (Height b) (StateRoot b) (ProposerPubKey b) 0 (str "0") (str "0") (str "0") []
    [telemetry.mkRGLevelTelemetry 0 0 0 [] float64.zero [] [] (str "0") (str "0") 0 0] true [].

Lemma blank_telemetry b root :
  Txs b = [] -> telemetry.buildBlockTelemetryFromTree b (tree.mkTree [[]] root false) true = Ok (blankTelemetry b).
Proof. intros Ht. unfold telemetry.buildBlockTelemetryFromTree. rewrite Ht. reflexivity. Qed.

Lemma empty_tree : exists root, tree.BuildTree [] [] = Ok (tree.mkTree [[]] root false).
Proof.
  unfold tree.BuildTree. cbn [zlen Z.eqb andb]. change (zlen (@nil tx.Tx) =? 0) with true. change (zlen (@nil node.RGNode) =? 0) with true.
  cbn [andb]. unfold node.EmptyBlockRoot. rewrite Root_spec by (split; reflexivity). by eexists.
Qed.

(** Telemetry of such a block can be written and is small. *)
Definition writes_blank : Prop :=
  forall b, exists data, telemetry.json_Marshal (blankTelemetry b) = Ok data /\ zlen data <= telemetry.maxStoredBlockTelemetryBytes.

Lemma SetTotalSupply_ok db total : 0 <= total -> SetTotalSupplyTx db (Some total) = Ok (putMeta db totalSupplyKey (big_Bytes total)).
Proof. intros Ht. unfold SetTotalSupplyTx. by rewrite (proj2 (Z.ltb_ge _ _)). Qed.

(** With one validator the whole reward is its own. *)
Lemma mint_alone db pk amount :
  0 <= amount -> ledger.BalanceOfTx db (gas.FeeAccount pk) + amount < two256 ->
  exists db', mintRewards db (mint.SplitReward (Some amount) 1) [pk] = Ok db' /\
    KV.validators db' = KV.validators db /\ same_records db db' /\
    forall a, ledger.BalanceOfTx db' a = ledger.BalanceOfTx db a + (if decide (gas.FeeAccount pk = a) then amount else 0).
Proof.
  intros Ha Hroom. unfold mint.SplitReward. cbn [Z.leb Z.compare]. change (Z.to_nat 1) with 1%nat. destruct (amount <=? 0) eqn:E; bsimp.
  - exists db. assert (amount = 0) as -> by lia. cbn. split_and!; try done. intros a. case_decide; lia.
  - cbn [replicate]. rewrite Z.div_1_r, Z.mul_1_r, Z.sub_diag, Z.add_0_r. unfold mintRewards. cbn [imap foldM].
    rewrite (proj2 (Z.eqb_neq amount 0)) by lia. change (index [pk] (Z.of_nat 0)) with (@Ok error _ pk). cbn [obind].
    pose proof (readBalance_nonneg (balances db) (gas.FeeAccount pk)). unfold ledger.BalanceOfTx in Hroom.
    unfold ledger.CreditTx. rewrite writeBalance_ok by (unfold is_u256; lia). cbn [obind]. eexists. split; [reflexivity|].
    split; [done|]. split; [done|]. intros a. rewrite (BalanceOfTx_put db) by (unfold is_u256; lia). unfold ledger.BalanceOfTx.
    case_decide; [by subst|lia].
Qed.

Lemma blank_stored db b :
  Txs b = [] -> zlen (ProposalBytes b) <= maxStoredBlockBytes - 125 -> exists data, putBlockTx db b = Ok (set_blocks db (kv_Put (blocks db) (blockKey (Height b)) data)).
Proof.
  intros Ht Hs. unfold putBlockTx, serializeBlock. rewrite Ht. change (zlen (@nil tx.Tx) >? 0) with false. cbn [obind].
  rewrite Z.gtb_ltb, (proj2 (Z.ltb_ge _ _)) by lia. match goal with |- context [zlen ?d >? _] => assert (zlen d <= maxStoredBlockBytes) as Hd end.
  { rewrite !zlen_app, !zlen_arr, zlen_put64, !zlen_put32. change (zlen blockMagicV2) with 13. change (zlen (@nil byte)) with 0. lia. }
  rewrite Z.gtb_ltb, (proj2 (Z.ltb_ge _ _)) by exact Hd. cbn [obind]. by eexists.
Qed.

(** The reward of a block when [pk] has bonded [stake] and nobody else anything. *)
Definition reward db (stake : Z) : Z := mint.MintPerBlock (Some (fst (CurrentTotalSupply db))) (Some stake).

Lemma empty_block_applies ncpu iter db b chainID cur pk stake :
  writes_blank -> (forall s, iter s ≡ₚ elements s) ->
  CurrentHeight db = Ok cur -> Height b = wrap64 (cur + 1) -> Txs b = [] -> PrevStateRoot b = CurrentStateRoot db ->
  StateRoot b = zero_arr 32 -> zlen (ProposalBytes b) <= maxStoredBlockBytes - 125 ->
  staking.BondedAmounts db = Ok ([pk], [stake]) -> snd (CurrentTotalSupply db) = true ->
  ledger.BalanceOfTx db (gas.FeeAccount pk) + reward db stake < two256 ->
  exists db' r, ApplyBlockForChain ncpu iter db b chainID = (db', Ok r) /\
    KV.validators db' = KV.validators db /\
    CurrentTotalSupply db' = (fst (CurrentTotalSupply db) + reward db stake, true) /\
    forall a, ledger.BalanceOfTx db' a = ledger.BalanceOfTx db a + (if decide (gas.FeeAccount pk = a) then reward db stake else 0).
Proof.
  intros Hjson Hit Hcur Hh Ht Hprev Hroot Hsize Hbonds Htr Hroom.
  assert (iter ∅ = []) as Hi by (apply Permutation_nil_r; by rewrite Hit, elements_empty).
  destruct (CurrentTotalSupply db) as [total tracked] eqn:Es. cbn [fst snd] in *. subst tracked.
  assert (0 <= reward db stake) as Hm by apply MintPerBlock_nonneg.
  assert (0 <= total) as Htotal.
  { unfold CurrentTotalSupply in Es. destruct (kv_Get _ _) as [v|]; injection Es as <-; [apply be_dec_range|lia]. }
  unfold ApplyBlockForChain, prepareBlock. rewrite Hcur. cbn [obind]. rewrite Hh, Z.eqb_refl. cbn [negb].
  rewrite Hprev, (bool_decide_eq_false_2 (CurrentStateRoot db <> CurrentStateRoot db)) by (intros []; done). rewrite andb_false_r.
  rewrite Ht. change (verifyTxSigsParallel ncpu [] chainID) with (@Ok error _ tt). cbn [obind].
  unfold supplyAndStaked. rewrite Hbonds, Es. cbn [obind]. change (zlen [pk] =? 0) with false. change (zlen [pk]) with 1.
  cbn [sumZ foldr]. change (precheckTxsParallel [] _ _ _ _) with (@nil txPrecheck). change (checkMissEvidence [] []) with (@Ok error (gset bytes) ∅). cbn [obind].
  rewrite Z.add_0_r. unfold reward in Hm, Hroom. rewrite Es in Hm, Hroom. cbn [fst] in Hm, Hroom.
  set (m := mint.MintPerBlock _ _) in *. unfold Update, applyBody. rewrite Ht. cbn [bc_baseFee bc_precheck bc_mintShares bc_validators bc_mintAmount bc_totalSupply bc_tracked].
  unfold applyTxs. cbn [zip zip_with imap foldM obind ts_db ts_touched ts_fuels ts_slashed]. rewrite Hi. cbn [mapM obind].
  destruct empty_tree as [root Hroot']. rewrite Hroot'. cbn [obind tree.TreeRoot tree.dirty]. unfold chargeGas, applyMisses. cbn [imap foldM obind].
  destruct (mint_alone db pk m Hm Hroom) as (db1 & Hd1 & Hv1 & (Hm1 & _) & Hb1). rewrite Hd1. cbn [obind].
  unfold persistMeta. rewrite SetTotalSupply_ok by lia. cbn [obind].
  rewrite Hroot, (bool_decide_eq_false_2 (zero_arr 32 <> zero_arr 32)) by (intros []; done). cbn [andb].
  rewrite blank_telemetry by reflexivity. cbn [obind].
  match goal with |- context [blankTelemetry ?b'] => destruct (Hjson b') as (data & Hw & Hlen) end.
  unfold telemetry.putBlockTelemetryTx. rewrite Hw. cbn [obind]. rewrite Z.gtb_ltb, (proj2 (Z.ltb_ge _ _)) by exact Hlen. cbn [obind].
  match goal with |- context [putBlockTx ?d ?b'] => destruct (blank_stored d b' eq_refl Hsize) as [blk Hblk] end. rewrite Hblk. cbn [obind].
  do 2 eexists. split; [reflexivity|]. split; [exact Hv1|]. split.
  - unfold CurrentTotalSupply. cbn [meta set_blocks set_block_telemetry putMeta set_meta]. rewrite !kv_get_put, decide_True by done.
    rewrite big_SetBytes_Bytes. unfold reward. rewrite Es. cbn [fst]. fold m. f_equal. lia.
  - intros a. unfold reward. rewrite Es. exact (Hb1 a).
Qed.
End EmptyBlock.

(** ** The round of a lone validator *)
Import vote round engine.

Section Alone.
Context `{PlatformLaws} `{contract.Wasmtime} `{telemetry.Json} `{MapOrderLaws} {B : Type} `{KVLaws B}.
Context (kp : keys.Keypair) (chainID : bytes) (ncpu : Z) (iter : gset (arr 32) -> list (arr 32)) (stake : Z).
Context (Hkp : keys.generated kp) (Hjson : writes_blank) (Hiter : forall s, iter s ≡ₚ elements s) (Hstake : 0 < stake).
Abbreviation pk := (keys.PublicKey kp).
Implicit Types (e : Engine B blockloop.BlockLoop) (d : DB B).

(** Its own vote alone is a quorum. *)
Lemma table_alone : stakeTable [pk] [stake] = Ok ({[pk := stake]}, stake) /\ table_ok {[pk := stake]} stake.
Proof.
  assert (stakeTable [pk] [stake] = Ok ({[pk := stake]}, stake)) as Ht by reflexivity.
  split; [done|]. apply (stakeTable_ok [pk] [stake]); [|done]. constructor; [lia|constructor].
Qed.

Lemma quorum_alone : quorum {[pk := stake]} stake {[pk]}.
Proof. unfold quorum. rewrite wt_singleton. unfold stakeIn. rewrite lookup_singleton_eq. cbn. lia. Qed.

Lemma own_quorum v :
  VValidatorPK v = pk ->
  QuorumReached {[pk := v]} [pk] [stake] = Ok true /\ quorumBlock {[pk := v]} [pk] [stake] = Ok (Some (VBlockHash v)).
Proof.
  intros Hv. destruct table_alone as [Ht Hok]. split.
  - rewrite (QuorumReached_spec _ _ _ _ _ Ht). rewrite dom_singleton_L, bool_decide_eq_true_2; [done|apply quorum_alone].
  - assert (keyed {[pk := v]}) as Hk by (by intros k w [<- <-]%lookup_singleton_Some).
    destruct (quorumBlock_spec _ _ _ _ _ Ht Hok Hk) as (r & Hr & Hiff). rewrite Hr. f_equal. apply Hiff.
    assert (supporters {[pk := v]} (VBlockHash v) = {[pk]}) as ->; [|apply quorum_alone].
    apply set_eq. intros k. rewrite supporters_In, elem_of_singleton. split.
    + intros (w & [<- _]%lookup_singleton_Some & _). done.
    + intros ->. exists v. by rewrite lookup_singleton_eq.
Qed.

Lemma elected_alone root h r : is_u32 r -> electedOrZero root h [pk] r = Ok pk.
Proof.
  intros Hr. destruct (SkipProposer_elects root h [pk] r) as [He _]; [done|done|]. unfold electedOrZero.
  destruct (leader.SkipProposer _ _ _ _) as [p|x|]; [|by destruct He|done]. by apply list_elem_of_singleton in He as ->.
Qed.

(** What the engine writes on the way: its snapshot and the votes of the slot. *)
Definition noted (h r : Z) d d' : Prop :=
  KV.validators d' = KV.validators d /\ balances d' = balances d /\
  forall k, k <> consensusStateKey -> (forall t, k <> voteKey h r t) -> kv_Get (meta d') k = kv_Get (meta d) k.

#[local] Instance noted_preorder h r : PreOrder (noted h r).
Proof.
  split; [done|]. intros d1 d2 d3 (? & ? & N1) (? & ? & N2). split; [congruence|split; [congruence|]].
  intros k Hk Hv. by rewrite N2, N1.
Qed.

Lemma noted_put h r d k v : (k = consensusStateKey \/ exists t, k = voteKey h r t) -> noted h r d (putMeta d k v).
Proof.
  intros Hk. split; [done|split; [done|]]. intros k' Hs Hv. rewrite putMeta_get, decide_False; [done|].
  intros ->. destruct Hk as [->|[t ->]]; [done|by apply (Hv t)].
Qed.

Lemma noted_chain h r d d' k : noted h r d d' -> k ∈ chain_keys -> kv_Get (meta d') k = kv_Get (meta d) k.
Proof.
  intros (_ & _ & Hg) Hk. apply Hg; [intros ->; by apply stateKey_chain|]. intros t ->. by eapply voteKey_chain.
Qed.

Lemma noted_reads h r d d' :
  noted h r d d' -> CurrentHeight d' = CurrentHeight d /\ CurrentStateRoot d' = CurrentStateRoot d /\
    CurrentTotalSupply d' = CurrentTotalSupply d /\ staking.BondedAmounts d' = staking.BondedAmounts d.
Proof.
  intros Hn. pose proof (fun k => noted_chain h r d d' k Hn) as Hk. unfold chain_keys in Hk.
  unfold CurrentHeight, CurrentStateRoot, CurrentTotalSupply. rewrite !Hk by set_solver.
  split_and!; [done..|]. apply bonds_ext, Hn.
Qed.

(** The snapshot is written or, when too large, left out; nothing fails. *)
Lemma persist_noted e h r :
  exists d, persist e = Ok (set_db e d) /\ noted h r (db e) d /\
    forall t, kv_Get (meta d) (voteKey h r t) = kv_Get (meta (db e)) (voteKey h r t).
Proof.
  unfold persist, persistRoundState. destruct (encodeRoundState (rs e)) as [data|x|] eqn:E.
  - eexists. split; [reflexivity|]. split; [apply noted_put; by left|]. intros t. unfold SaveConsensusState.
    rewrite putMeta_get, decide_False; [done|]. apply not_eq_sym, voteKey_state.
  - by exists (db e).
  - exfalso. unfold encodeRoundState in E. assert (serializeOptionalProposal (Proposal (rs e)) <> Panic) as Hp.
    { destruct (Proposal (rs e)) as [p|]; [|done]. cbn. unfold SerializeProposal. pose proof (body_no_panic p). by destruct (serializeProposalBody p). }
    unfold encodeVotes, serializeAttestation in E. destruct (serializeOptionalProposal _); [|done..]. cbn [obind] in E.
    repeat (case_match; cbn [obind] in E; try done).
Qed.

(** A first vote of a slot is signed, sent and on record. *)
Lemma cast_first ty e bh :
  (ty = VotePrevote \/ ty = VotePrecommit) -> kv_Get (meta (db e)) (voteKey (Height (rs e)) (Round (rs e)) ty) = None ->
  exists v, broadcastVote kp chainID ty e bh = (emit (set_db e (putMeta (db e) (voteKey (Height (rs e)) (Round (rs e)) ty) bh)) (SentVote v), Some v) /\
    VType v = ty /\ VHeight v = Height (rs e) /\ VRound v = Round (rs e) /\ VBlockHash v = bh /\ VValidatorPK v = pk /\
    VerifyVoteForChain v chainID = true.
Proof.
  intros Hty Hn. unfold broadcastVote, RecordConsensusVote. rewrite Hn. cbn [negb rs set_db]. eexists. split; [reflexivity|].
  split_and!; try done. unfold VerifyVoteForChain. cbn [VType VValidatorPK VSig].
  replace (negb (ty =? VotePrevote) && negb (ty =? VotePrecommit)) with false by (destruct Hty as [-> | ->]; done).
  by apply keys.Verify_Sign.
Qed.

(** The chain at height [cur] in the hands of this validator. *)
Record chain_at (cur : Z) d : Prop := mkChainAt
  { ca_height : CurrentHeight d = Ok cur;
    ca_range : 0 <= cur /\ cur + 1 < two64;
    ca_bonds : staking.BondedAmounts d = Ok ([pk], [stake]);
    ca_tracked : snd (CurrentTotalSupply d) = true;
    ca_fee : ledger.BalanceOfTx d (gas.FeeAccount pk) <= fst (CurrentTotalSupply d);
    ca_unvoted : forall h r t, cur + 1 < h -> is_u64 h -> kv_Get (meta d) (voteKey h r t) = None }.

Lemma voteKey_height h r t h' r' t' : is_u64 h -> is_u64 h' -> voteKey h r t = voteKey h' r' t' -> h = h'.
Proof.
  intros Hh Hh' He. unfold voteKey in He. apply app_inv_head in He.
  apply app_inj_len in He as [E1 _]; [|unfold put64; by rewrite !be_enc_length]. by apply be_enc_inj in E1.
Qed.

Lemma chain_at_noted cur r d d' : noted (cur + 1) r d d' -> chain_at cur d -> chain_at cur d'.
Proof.
  intros Hn [H1' H2' H3' H4' H5' H6']. pose proof (noted_reads _ _ _ _ Hn) as (Eh & _ & Es & Eb). destruct Hn as (_ & Hb & Hg).
  constructor; rewrite ?Eh, ?Es, ?Eb; try done.
  - unfold ledger.BalanceOfTx in *. by rewrite Hb.
  - intros h r' t Hh Hu. rewrite Hg; [by apply H6'|apply voteKey_state|]. intros t' Heq.
    apply voteKey_height in Heq; [lia|done|]. unfold is_u64, two64 in *. lia.
Qed.

Lemma noted_clear h r d : noted h r d (ClearConsensusState d).
Proof.
  split; [done|split; [done|]]. intros k Hk _. unfold ClearConsensusState. cbn [meta set_meta]. rewrite kv_get_delete. by rewrite decide_False by congruence.
Qed.

(** A block proposal without transactions. *)
Definition blank_proposal e (p : BlockProposal) : Prop :=
  PTxs p = [] /\ PPrevStateRoot p = prevStateRoot e /\ ProposerPK p = pk /\ zlen (AVotes (PrevAttestations p)) <= maxProposalVotes.

Lemma blank_written e p : blank_proposal e p -> exists data, SerializeProposal p = Ok data /\ zlen data <= maxStoredBlockBytes - 125.
Proof.
  intros (Ht & _ & _ & Hv). assert (exists data, SerializeProposal p = Ok data) as [data Hd].
  { unfold SerializeProposal, serializeProposalBody. rewrite Ht, !Z.gtb_ltb, (proj2 (Z.ltb_ge _ _)) by lia. by eexists. }
  exists data. split; [done|]. apply SerializeProposal_size in Hd. change (maxStoredBlockBytes - 125) with (64 * 2 ^ 20 - 125). lia.
Qed.

Lemma reward_small d : 0 <= fst (CurrentTotalSupply d) < 2 ^ 255 -> 0 <= reward d stake < 2 ^ 255.
Proof.
  intros Hs. unfold reward. split; [apply MintPerBlock_nonneg|].
  destruct (MintPerBlock_bounds (fst (CurrentTotalSupply d)) stake stake) as (_ & Hb & _); [lia..|].
  pose proof (MintPerBlock_nonneg (Some (fst (CurrentTotalSupply d))) (Some stake)).
  unfold mint.BlocksPerYear in Hb. assert (fst (CurrentTotalSupply d) / 10 <= fst (CurrentTotalSupply d)) by (apply Z.div_le_upper_bound; lia). lia.
Qed.

Lemma supply_nonneg d : 0 <= fst (CurrentTotalSupply d).
Proof. unfold CurrentTotalSupply. destruct (kv_Get _ _) as [v|]; [apply be_dec_range|done]. Qed.

(** Committing it. *)
Lemma commit_alone cur e p bh :
  chain_at cur (db e) -> cur + 2 < two64 -> fst (CurrentTotalSupply (db e)) < 2 ^ 255 -> Height (rs e) = cur + 1 ->
  Proposal (rs e) = Some p -> blank_proposal e p -> BlockHashForChain p chainID = Ok bh ->
  exists d, commit chainID ncpu iter e [pk] [stake] bh =
      Ok (emit (set_proposer (set_db e d) ((fun q => OnCommit q (Height (rs e)) (PTxs p)) <$> proposer e))
            (Committed (Height (rs e)) (Round (rs e)) p (Precommits (rs e)) [pk] [stake]), true) /\
    chain_at (cur + 1) d /\ fst (CurrentTotalSupply d) = fst (CurrentTotalSupply (db e)) + reward (db e) stake /\
    forall t, kv_Get (meta d) (voteKey (cur + 2) 0 t) = None.
Proof.
  intros [Hc Hr Hb Ht Hf Hu] Hroom Hsup Hh Hp Hbl Hbh. destruct (blank_written e p Hbl) as (data & Hd & Hlen).
  destruct Hbl as (Htx & Hprev & _ & _). pose proof (supply_nonneg (db e)) as Hs0. destruct (reward_small (db e)) as [Hr0 Hr1]; [lia|].
  unfold commit. rewrite Hp, Hbh. cbn [obind]. rewrite bool_decide_eq_false_2 by (intros []; done). rewrite Hd. cbn [obind].
  set (b := mkBlock _ _ _ _ _ _).
  destruct (empty_block_applies ncpu iter (db e) b chainID cur pk stake) as (d & r & Ha & Hv & Hts & Hbal); try done.
  { change (blockstore.Height b) with (Height (rs e)). rewrite Hh. unfold wrap64. rewrite Z.mod_small; [done|unfold two64 in *; lia]. }
  { unfold two256. lia. }
  rewrite Ha. exists (ClearConsensusState d). split; [reflexivity|].
  pose proof (applied_height _ _ _ _ _ _ _ Ha) as (_ & _ & _ & Hnew). change (blockstore.Height b) with (Height (rs e)) in Hnew. rewrite Hh in Hnew.
  pose proof (fun k Hk => ApplyBlock_frame ncpu iter (db e) b chainID k Hk) as Hfr. rewrite Ha in Hfr. cbn [fst] in Hfr.
  assert (forall h r' t, cur + 1 < h -> is_u64 h -> kv_Get (meta d) (voteKey h r' t) = None) as Hun.
  { intros h r' t Hlt Hu64. rewrite Hfr by apply voteKey_chain. by apply Hu. }
  destruct (noted_reads _ _ _ _ (noted_clear (cur + 2) 0 d)) as (_ & _ & Es & _). split; [|split; [by rewrite Es, Hts|]].
  2:{ intros t. unfold ClearConsensusState. cbn [meta set_meta]. rewrite kv_get_delete.
      case_decide; [done|]. apply Hun; [lia|]. unfold is_u64. lia. }
  apply (chain_at_noted (cur + 1) 0 d); [apply noted_clear|]. constructor; try done.
  - lia.
  - by rewrite (bonds_ext _ _ Hv).
  - by rewrite Hts.
  - rewrite Hbal, Hts. cbn [fst]. rewrite decide_True by done. lia.
  - intros h r' t Hlt Hu64. apply Hun; [lia|done].
Qed.

(** The validator's turn at the next height: nothing voted, nothing pending. *)
Record alone (cur : Z) e : Prop := mkAlone
  { al_chain : chain_at cur (db e);
    al_height : Height (rs e) = cur + 1;
    al_round : is_u32 (Round (rs e));
    al_phase : Phase (rs e) = PhasePropose /\ Prevotes (rs e) = ∅ /\ Precommits (rs e) = ∅;
    al_attest : zlen (AVotes (LastAttestation (rs e))) <= maxProposalVotes;
    al_pool : exists bl, proposer e = Some bl /\ blockloop.kp bl = kp /\ blockloop.queue (blockloop.pool bl) = [];
    al_loop : validators e = [pk] /\ stakes e = [stake];
    al_slot : forall t, kv_Get (meta (db e)) (voteKey (Height (rs e)) (Round (rs e)) t) = None }.

(** One block further. *)
Definition advanced (cur : Z) e e' : Prop :=
  alone (cur + 1) e' /\ delayed e' = S (delayed e) /\
  fst (CurrentTotalSupply (db e')) = fst (CurrentTotalSupply (db e)) + reward (db e) stake /\
  exists p precommits, Committed (cur + 1) (Round (rs e)) p precommits [pk] [stake] ∈ trace e' /\ PTxs p = [] /\ ProposerPK p = pk.

Lemma attestation_small v bh : zlen (AVotes (attestationFromPrecommits {[pk := v]} bh)) <= maxProposalVotes.
Proof.
  unfold zlen. rewrite AVotes_chosen. unfold chosenVotes. assert (length (map snd (map_iter (A := Vote) {[pk := v]})) = 1%nat) as Hl.
  { rewrite length_map, map_iter_perm, map_to_list_singleton. done. }
  pose proof (filter_length_le (fun v0 => (VType v0 =? VotePrecommit) && bool_decide (VBlockHash v0 = bh)) (map snd (map_iter (A := Vote) {[pk := v]}))).
  unfold maxProposalVotes. lia.
Qed.

(** The next height begins with the node's own turn. *)
Lemma next_round cur e :
  chain_at (cur + 1) (db e) -> cur + 2 < two64 -> Height (rs e) = cur + 1 ->
  zlen (AVotes (LastAttestation (rs e))) <= maxProposalVotes ->
  (exists bl, proposer e = Some bl /\ blockloop.kp bl = kp /\ blockloop.queue (blockloop.pool bl) = []) ->
  validators e = [pk] /\ stakes e = [stake] ->
  (forall t, kv_Get (meta (db e)) (voteKey (cur + 2) 0 t) = None) ->
  exists e', startNextRound kp e [pk] = Ok e' /\ alone (cur + 1) e' /\ delayed e' = S (delayed e) /\
    fst (CurrentTotalSupply (db e')) = fst (CurrentTotalSupply (db e)) /\ trace e' = trace e.
Proof.
  intros Hc Hroom Hh Ha Hq Hl Hslot. unfold startNextRound. cbn [rs setStatus set_rs nextHeight Height Round db].
  rewrite elected_alone by (unfold is_u32, two32; lia). cbn [obind]. rewrite bool_decide_eq_true_2 by done.
  match goal with |- context [persist ?e1] => destruct (persist_noted e1 (cur + 2) 0) as (d & Hd & Hn & Hk) end.
  rewrite Hd. eexists. split; [reflexivity|]. cbn in Hn, Hk. pose proof (noted_reads _ _ _ _ Hn) as (_ & _ & Es & _).
  assert (wrap64 (Height (rs e) + 1) = cur + 2) as Hw.
  { rewrite Hh. unfold wrap64. rewrite Z.mod_small by (destruct (ca_range _ _ Hc); lia). lia. }
  split; [|split; [done|split; [by cbn; rewrite Es|done]]].
  constructor; cbn; try done.
  - eapply chain_at_noted; [|exact Hc]. by replace (cur + 1 + 1) with (cur + 2) by lia.
  - rewrite Hw. lia.
  - intros t. rewrite Hw, Hk. apply Hslot.
Qed.

(** What a vote of the validator for the block of its slot looks like. *)
Definition own_ballot e ty (bh : arr 32) (v : Vote) : Prop :=
  VType v = ty /\ VHeight v = Height (rs e) /\ VRound v = Round (rs e) /\ VBlockHash v = bh /\ VValidatorPK v = pk /\
  VerifyVoteForChain v chainID = true.

(** The state between its own proposal and its commit. *)
Record underway (cur phase : Z) (p : BlockProposal) (bh : arr 32) e : Prop := mkUnderway
  { uw_chain : chain_at cur (db e);
    uw_room : cur + 2 < two64 /\ fst (CurrentTotalSupply (db e)) < 2 ^ 255;
    uw_height : Height (rs e) = cur + 1;
    uw_phase : Phase (rs e) = phase;
    uw_proposal : Proposal (rs e) = Some p /\ blank_proposal e p;
    uw_hash : BlockHashForChain p chainID = Ok bh /\ bh <> zero_arr 32;
    uw_pool : exists bl, proposer e = Some bl /\ blockloop.kp bl = kp /\ blockloop.queue (blockloop.pool bl) = [];
    uw_loop : validators e = [pk] /\ stakes e = [stake] }.

Lemma ballot_checked hv e ty bh v :
  own_ballot e ty bh v -> (ty = VotePrevote \/ ty = VotePrecommit) ->
  handleVoteBody kp chainID ncpu iter hv e v [pk] [stake] =
  if ty =? VotePrevote then onPrevote kp chainID hv e v [pk] [stake] else onPrecommit kp chainID ncpu iter hv e v [pk] [stake].
Proof.
  intros (Ht & Hh & Hr & _ & Hpk & Hs) Hty. unfold handleVoteBody. rewrite Hh, Hr, !Z.eqb_refl, Hs, Hpk. cbn [negb orb].
  rewrite bool_decide_eq_true_2 by (by apply list_elem_of_singleton). cbn [negb]. rewrite Ht. by destruct Hty as [-> | ->].
Qed.

Lemma own_precommit_commits hv cur p bh e v :
  underway cur PhasePrecommit p bh e -> Precommits (rs e) = ∅ -> own_ballot e VotePrecommit bh v ->
  exists e', handleVoteBody kp chainID ncpu iter hv e v [pk] [stake] = Ok e' /\ alone (cur + 1) e' /\ delayed e' = S (delayed e) /\
    fst (CurrentTotalSupply (db e')) = fst (CurrentTotalSupply (db e)) + reward (db e) stake /\
    Committed (cur + 1) (Round (rs e)) p {[pk := v]} [pk] [stake] ∈ trace e'.
Proof.
  intros [Hc [Hroom Hsup] Hh Hph [Hp Hbl] [Hbh Hnz] Hq [Hvs Hss]] He Hv. rewrite (ballot_checked hv e _ bh v Hv) by auto.
  change (VotePrecommit =? VotePrevote) with false. cbv iota. destruct Hv as (_ & _ & _ & Hvb & Hvpk & _).
  unfold onPrecommit. rewrite Hvpk, He, lookup_empty, insert_empty.
  match goal with |- context [persist ?e1] => destruct (persist_noted e1 (cur + 1) (Round (rs e))) as (d1 & Hd1 & Hn1 & _) end.
  rewrite Hd1. cbn [obind rs set_db set_rs set_Precommits Precommits Phase]. cbn [db set_rs] in Hn1.
  destruct (own_quorum v Hvpk) as [Hqr Hqb]. rewrite Hqr. cbn [obind andb]. rewrite Hph. change (PhasePrecommit =? PhasePrecommit) with true. cbv iota.
  rewrite Hqb, Hvb. cbn [obind]. rewrite bool_decide_eq_true_2 by done.
  pose proof (noted_reads _ _ _ _ Hn1) as (Eh & Er & Es & Eb).
  match goal with |- context [commit chainID ncpu iter ?e2 _ _ _] => destruct (commit_alone cur e2 p bh) as (d & Hcm & Hc' & Hs' & Hsl) end; cbn -[reward].
  - by eapply chain_at_noted.
  - done.
  - by rewrite Es.
  - done.
  - done.
  - unfold blank_proposal, prevStateRoot in *. cbn. by rewrite Er.
  - done.
  - rewrite Hcm. cbn [obind]. unfold afterCommit.
    match goal with |- context [staking.BondedAmounts ?d'] => change d' with d end. rewrite (ca_bonds _ _ Hc').
    match goal with |- context [startNextRound kp ?e3 _] => destruct (next_round cur e3) as (e' & Hn & Hal & Hdl & Hsu & Htr) end; cbn -[reward]; try done.
    + apply attestation_small.
    + destruct Hq as (bl & -> & Hk & Hqn). eexists. split; [reflexivity|]. by rewrite (proj1 Hbl).
    + exists e'. split; [exact Hn|]. split; [done|]. split; [done|]. rewrite Hsu, Htr. cbn [db set_rs trace emit set_proposer set_db].
      change (fst (CurrentTotalSupply d) = fst (CurrentTotalSupply d1) + reward d1 stake) in Hs'. unfold reward in *. rewrite Es in Hs'. split; [exact Hs'|].
      cbn. rewrite Hh. apply list_elem_of_here.
Qed.

Lemma own_prevote_commits fuel cur p bh e v :
  underway cur PhasePrevote p bh e -> Prevotes (rs e) = ∅ -> Precommits (rs e) = ∅ -> own_ballot e VotePrevote bh v ->
  kv_Get (meta (db e)) (voteKey (Height (rs e)) (Round (rs e)) VotePrecommit) = None ->
  exists e' w, handleVoteBody kp chainID ncpu iter (handleVote kp chainID ncpu iter (S fuel)) e v [pk] [stake] = Ok e' /\
    alone (cur + 1) e' /\ delayed e' = S (delayed e) /\
    fst (CurrentTotalSupply (db e')) = fst (CurrentTotalSupply (db e)) + reward (db e) stake /\
    Committed (cur + 1) (Round (rs e)) p {[pk := w]} [pk] [stake] ∈ trace e'.
Proof.
  intros [Hc [Hroom Hsup] Hh Hph [Hp Hbl] [Hbh Hnz] Hq [Hvs Hss]] He He' Hv Hslot. rewrite (ballot_checked _ e _ bh v Hv) by auto.
  change (VotePrevote =? VotePrevote) with true. cbv iota. destruct Hv as (_ & _ & _ & Hvb & Hvpk & _).
  unfold onPrevote. rewrite Hvpk, He, lookup_empty, insert_empty.
  match goal with |- context [persist ?e1] => destruct (persist_noted e1 (cur + 1) (Round (rs e))) as (d1 & Hd1 & Hn1 & Hk1) end.
  rewrite Hd1. cbn [obind rs set_db set_rs set_Prevotes Prevotes Phase]. cbn [db set_rs] in Hn1, Hk1.
  destruct (own_quorum v Hvpk) as [Hqr Hqb]. rewrite Hqr. cbn [obind andb]. rewrite Hph. change (PhasePrevote =? PhasePrevote) with true. cbv iota.
  match goal with |- context [quorumBlock ?m _ _] => change m with ({[pk := v]} : gmap (arr 32) Vote) end.
  rewrite Hqb, Hvb. cbn [obind]. unfold broadcastPrecommit.
  match goal with |- context [broadcastVote kp chainID VotePrecommit ?e2 bh] =>
    destruct (cast_first VotePrecommit e2 bh) as (w & Hcast & Hw); [by right| |] end.
  { change (kv_Get (meta d1) (voteKey (Height (rs e)) (Round (rs e)) VotePrecommit) = None). rewrite Hh, Hk1, <- Hh. exact Hslot. }
  rewrite Hcast. cbn [handleOwn handleVote].
  match goal with |- context [handleVoteBody _ _ _ _ _ (emit (set_db _ ?d) _) w _ _] => set (d2 := d) end.
  assert (noted (cur + 1) (Round (rs e)) (db e) d2) as Hn.
  { etransitivity; [exact Hn1|]. apply noted_put. right. exists VotePrecommit. cbn. by rewrite Hh. }
  pose proof (noted_reads _ _ _ _ Hn) as (Eh & Er & Es & Eb).
  match goal with |- context [handleVoteBody _ _ _ _ ?hv ?e3 w _ _] => destruct (own_precommit_commits hv cur p bh e3 w) as (e' & Hb & Hal & Hdl & Hs & Ht) end.
  - constructor; try done.
    + by eapply chain_at_noted.
    + split; [done|]. change (fst (CurrentTotalSupply d2) < 2 ^ 255). by rewrite Es.
    + split; [done|]. destruct Hbl as (? & Hpr & ?). split; [done|]. split; [|done]. rewrite Hpr. symmetry. exact Er.
  - exact He'.
  - exact Hw.
  - exists e', w. split; [exact Hb|]. split; [done|]. split; [done|]. split; [|exact Ht].
    change (fst (CurrentTotalSupply (db e')) = fst (CurrentTotalSupply d2) + reward d2 stake) in Hs. unfold reward in *. by rewrite Es in Hs.
Qed.

(** The block it would propose hashes to the nil block. *)
Definition hashes_to_nil e : Prop :=
  exists bl p, proposer e = Some bl /\ makeProposal e (prevStateRoot e) bl = Ok p /\ BlockHashForChain p chainID = Ok (zero_arr 32).

Lemma blank_proposed e bl :
  proposer e = Some bl -> blockloop.kp bl = kp -> blockloop.queue (blockloop.pool bl) = [] ->
  zlen (AVotes (LastAttestation (rs e))) <= maxProposalVotes ->
  exists p, makeProposal e (prevStateRoot e) bl = Ok p /\ blank_proposal e p.
Proof.
  intros _ Hk Hq Ha. unfold makeProposal. cbn [ProposeForState blockloop_proposer]. unfold blockloop.ProposeForState, blockloop.propose.
  unfold blockloop.Len, blockloop.Snapshot. rewrite Hq, Hk. cbn [map take].
  rewrite take_nil. destruct (sign_bytes_total (mkBlockProposal (Height (rs e)) (Round (rs e)) pk (prevStateRoot e) [] (LastAttestation (rs e)) (zero_arr 64)) (blockloop.chainID bl)) as [b Hb].
  rewrite Hb. cbn [obind]. eexists. split; [reflexivity|]. split_and!; done.
Qed.

(** Its turn makes the next block. *)
Lemma alone_turn fuel cur e :
  alone cur e -> cur + 2 < two64 -> fst (CurrentTotalSupply (db e)) < 2 ^ 255 -> ~ hashes_to_nil e ->
  exists e', handle kp chainID ncpu iter (S (S fuel)) e EvProposeReady = Ok e' /\ advanced cur e e'.
Proof.
  intros [Hc Hh Hr (Hph & Hpv & Hpc) Ha Hq [Hvs Hss] Hslot] Hroom Hsup Hnil. destruct Hq as (bl & Hbl & Hk & Hqn).
  destruct (blank_proposed e bl Hbl Hk Hqn Ha) as (p & Hp & Hblank). destruct (block_hash_total p chainID) as [bh Hbh].
  assert (bh <> zero_arr 32) as Hnz by (intros ->; apply Hnil; by exists bl, p).
  destruct (blank_written e p Hblank) as (data & Hd & _).
  cbn [handle]. rewrite Hvs, Hss. unfold onProposeReady. cbn [rs set_delayed]. rewrite Hph. change (PhasePropose =? PhasePropose) with true. cbn [negb].
  rewrite elected_alone by exact Hr. cbn [obind]. rewrite bool_decide_eq_true_2 by done.
  unfold broadcastProposal. cbn [proposer set_delayed]. rewrite Hbl.
  change (makeProposal (set_delayed e (delayed e) false) (prevStateRoot (set_delayed e (delayed e) false)) bl) with (makeProposal e (prevStateRoot e) bl).
  rewrite Hp. cbn [rs set_delayed]. rewrite Hph. change (PhasePropose =? PhasePropose) with true. cbn [negb]. rewrite Hd.
  match goal with |- context [persist ?e1] => destruct (persist_noted e1 (cur + 1) (Round (rs e))) as (d1 & Hd1 & Hn1 & Hk1) end.
  rewrite Hd1. cbn [obind]. rewrite Hbh. cbn [obind]. unfold broadcastPrevote.
  match goal with |- context [broadcastVote kp chainID VotePrevote ?e2 bh] => destruct (cast_first VotePrevote e2 bh) as (v & Hcast & Hv); [by left| |] end.
  { change (kv_Get (meta d1) (voteKey (Height (rs e)) (Round (rs e)) VotePrevote) = None). rewrite Hh, Hk1, <- Hh. apply Hslot. }
  rewrite Hcast. cbn [handleOwn]. change (handleVote kp chainID ncpu iter (S (S fuel))) with (handleVoteBody kp chainID ncpu iter (handleVote kp chainID ncpu iter (S fuel))).
  match goal with |- context [handleVoteBody _ _ _ _ _ (emit (set_db _ ?d) _) v _ _] => set (d2 := d) end.
  assert (noted (cur + 1) (Round (rs e)) (db e) d2) as Hn.
  { etransitivity; [exact Hn1|]. apply noted_put. right. exists VotePrevote. cbn. by rewrite Hh. }
  pose proof (noted_reads _ _ _ _ Hn) as (Eh & Er & Es & Eb).
  match goal with |- context [handleVoteBody _ _ _ _ _ ?e3 v _ _] => destruct (own_prevote_commits fuel cur p bh e3 v) as (e' & w & Hb & Hal & Hdl & Hs & Ht) end.
  - constructor; try done.
    + by eapply chain_at_noted.
    + split; [done|]. change (fst (CurrentTotalSupply d2) < 2 ^ 255). by rewrite Es.
    + split; [done|]. destruct Hblank as (? & Hpr & ?). split; [done|]. split; [|done]. rewrite Hpr. symmetry. exact Er.
    + by exists bl.
  - exact Hpv.
  - exact Hpc.
  - exact Hv.
  - change (kv_Get (meta d2) (voteKey (Height (rs e)) (Round (rs e)) VotePrecommit) = None). unfold d2. rewrite putMeta_get.
    rewrite decide_False.
    + change (kv_Get (meta d1) (voteKey (Height (rs e)) (Round (rs e)) VotePrecommit) = None). rewrite Hh, Hk1, <- Hh. apply Hslot.
    + intros Heq. pose proof (ca_range _ _ Hc). apply voteKey_inj in Heq as (_ & _ & Heq); [done|..]; try exact Hr; cbn; rewrite ?Hh; done || (unfold is_u64; lia).
  - exists e'. split; [exact Hb|]. split; [done|]. split; [exact Hdl|]. split.
    + change (fst (CurrentTotalSupply (db e')) = fst (CurrentTotalSupply d2) + reward d2 stake) in Hs. unfold reward in *. by rewrite Es in Hs.
    + exists p, {[pk := w]}. split; [exact Ht|]. destruct Hblank as (? & _ & ? & _). done.
Qed.

(** The proposal delay runs out and the loop takes the signal. *)
Definition turn fuel e e' : Prop :=
  exists e1, enabled e EvDelay = true /\ handle kp chainID ncpu iter fuel e EvDelay = Ok e1 /\
    enabled e1 EvProposeReady = true /\ handle kp chainID ncpu iter fuel e1 EvProposeReady = Ok e'.

(** What can stop it: a block that hashes to the nil block, a supply of 2^255
    base units, the last height. *)
Definition at_limit e : Prop :=
  hashes_to_nil e \/ 2 ^ 255 <= fst (CurrentTotalSupply (db e)) \/ two64 <= Height (rs e) + 1.

Lemma alone_delay cur e n b : alone cur e -> alone cur (set_delayed e n b).
Proof. by intros []. Qed.

Lemma turn_advances fuel cur e :
  alone cur e -> (0 < delayed e)%nat -> ~ at_limit e ->
  exists e', turn (S (S fuel)) e e' /\ alone (cur + 1) e' /\ (0 < delayed e')%nat /\
    fst (CurrentTotalSupply (db e')) = fst (CurrentTotalSupply (db e)) + reward (db e) stake.
Proof.
  intros Ha Hd Hl. set (e1 := set_delayed e (pred (delayed e)) true). pose proof (al_height _ _ Ha) as Hh. unfold at_limit in Hl.
  destruct (alone_turn fuel cur e1) as (e' & Hhd & Ha' & Hde & Hs & _).
  - by apply alone_delay.
  - lia.
  - change (fst (CurrentTotalSupply (db e)) < 2 ^ 255). lia.
  - intros Hn. apply Hl. left. exact Hn.
  - exists e'. split; [|split; [done|split; [rewrite Hde; lia|exact Hs]]]. exists e1. split_and!; try done.
    apply negb_true_iff, Nat.eqb_neq. lia.
Qed.

(** The chain of a lone validator grows.  A node that holds all the stake, with an empty
    pool and its turn pending, makes block after block with nobody else's
    help: for every [n] its own timer and signals take it [n] heights further,
    unless it reaches a limit first. *)
Theorem lone_chain_grows fuel cur e n :
  alone cur e -> (0 < delayed e)%nat ->
  exists k e', (k <= n)%nat /\ nsteps (turn (S (S fuel))) k e e' /\ alone (cur + Z.of_nat k) e' /\ (k = n \/ at_limit e').
Proof.
  revert cur e. induction n as [|n IH]; intros cur e Ha Hd.
  - exists 0%nat, e. rewrite Z.add_0_r. split; [lia|]. split; [constructor|]. auto.
  - destruct (decide (2 ^ 255 <= fst (CurrentTotalSupply (db e)) \/ two64 <= Height (rs e) + 1)) as [Hl|Hl].
    { exists 0%nat, e. rewrite Z.add_0_r. split; [lia|]. split; [constructor|]. split; [done|]. right. by right. }
    destruct (al_pool _ _ Ha) as (bl & Hbl & Hk & Hq).
    destruct (blank_proposed e bl Hbl Hk Hq (al_attest _ _ Ha)) as (p & Hp & _). destruct (block_hash_total p chainID) as [bh Hbh].
    destruct (decide (bh = zero_arr 32)) as [->|Hnz].
    { exists 0%nat, e. rewrite Z.add_0_r. split; [lia|]. split; [constructor|]. split; [done|]. right. left. by exists bl, p. }
    destruct (turn_advances fuel cur e Ha Hd) as (e1 & Ht & Ha1 & Hd1 & _).
    { intros [(bl' & p' & Hbl' & Hp' & Hbh')|Hl']; [|by apply Hl]. rewrite Hbl in Hbl'. injection Hbl' as <-. rewrite Hp in Hp'. injection Hp' as <-. congruence. }
    destruct (IH _ _ Ha1 Hd1) as (k & e' & Hkn & Hst & Ha' & Hor). exists (S k), e'. split; [lia|]. split; [by econstructor|].
    replace (cur + Z.of_nat (S k)) with (cur + 1 + Z.of_nat k) by lia. split; [done|]. destruct Hor; [left; lia|by right].
Qed.
End Alone.
