(* ===== verification/Fork.v ===== *)
(** * core/consensus: four honest validators commit two blocks at one height

    A run of four engines with equal stake, none of which deviates from the
    code, no message altered.  It shows that the lock does not protect a
    committed block across rounds: [handleVote] ends a round as soon as
    precommits of any kind reach a quorum, and [restartRound] then unlocks.

    The nodes are named by their part: [a] proposes round 0, [b] proposes round
    1, [c] commits round 0, [d] misses the first proposal. *)

From S2P Require Import Prelude GoBytes Errors Platform Sha256 Tx TxProofs KV Denom Ledger Staking Gas Mint Node Tree Contract BlockStore.
From S2P Require Import Telemetry StateMachine StateMachineProofs BlockProofs FrameProofs Vote VoteProofs QuorumProofs BlockLoop Round.
From S2P Require Import RoundProofs Engine EngineProofs EngineSafety.
Import vote round engine.

#[local] Existing Instance witness_platform.
#[local] Existing Instance witness_platform_laws.
#[local] Existing Instance gmap_kv.
#[local] Existing Instance gmap_kv_laws.

Module fork.

(** ** The setting *)
Definition list_order : MapOrder := {| map_iter A m := map_to_list m |}.
#[local] Existing Instance list_order.

Lemma list_order_laws : @MapOrderLaws list_order.
Proof. by constructor. Qed.
#[local] Existing Instance list_order_laws.

(** No block of the run has a contract in it. *)
Definition no_contracts : contract.Wasmtime :=
  {| contract.wasm_instance := unit;
     contract.wasm_module _ := None;
     contract.wasm_instantiate _ fuel := contract.WRet tt fuel;
     contract.wasm_getfunc _ _ := false;
     contract.wasm_call _ _ fuel := contract.WRet tt fuel;
     contract.bn254_g1_valid _ := false;
     contract.bn254_g2_valid _ := false;
     contract.bn254_PairingCheck _ := Ok false |}.
#[local] Existing Instance no_contracts.

Definition plain_json : telemetry.Json := {| telemetry.json_Marshal _ := Ok (str "{}"); telemetry.json_Unmarshal _ := failf "not read" |}.
#[local] Existing Instance plain_json.

Abbreviation node := (Engine (gmap bytes bytes) blockloop.BlockLoop).

Definition key (i : Z) : keys.Keypair := keys.NewKeypairFromSeed (mk_arr 32 (put64 i)).

Definition bond (v : gmap bytes bytes) (i : Z) : gmap bytes bytes :=
  match staking.encodeRecord (staking.mkRecord staking.stateBonded (10 ^ 20) 1 0 0) with
  | Ok r => kv_Put v (arr_bytes (keys.PublicKey (key i))) r
  | _ => v
  end.

(** The database every node starts from, and one with a single validator. *)
Definition genesisOf (vs : list Z) : DB (gmap bytes bytes) := mkDB ∅ ∅ (foldl bond ∅ vs) ∅ ∅ ∅ ∅ ∅.

Definition boot (vs : list Z) (i : Z) : res node :=
  Start (key i) [] 1 elements 8 (genesisOf vs) (Some (blockloop.New (key i))) [].

(** A node handles a list of events, each of which must be possible. *)
Definition runs (i : Z) (e : node) (evs : list event) : res node :=
  foldM (fun e ev => if enabled e ev then handle (key i) [] 1 elements 8 e ev else failf "not enabled") e evs.

Lemma key_generated i : keys.generated (key i).
Proof. by eexists. Qed.

Lemma boot_run vs i e : boot vs i = Ok e -> node_run (key i) [] e.
Proof. intros Hb. eapply reach_start; [|done|exact Hb]. reflexivity. Qed.

Lemma runs_run i evs e e' : node_run (key i) [] e -> runs i e evs = Ok e' -> node_run (key i) [] e'.
Proof.
  intros He Hr. unfold runs in Hr. apply (foldM_inv _ (node_run (key i) [])) in Hr; [done| |done].
  intros e1 e2 ev _ H1 Hh. destruct (enabled e1 ev) eqn:En; [|done]. by eapply reach_event.
Qed.

(** What a node has sent: its vote of a type in a round, its latest proposal. *)
Definition voteOf (ty r : Z) (e : node) : event :=
  EvVote (match List.find (fun o => match o with SentVote v => (VType v =? ty) && (VRound v =? r) | _ => false end) (trace e) with
          | Some (SentVote v) => Serialize v
          | _ => []
          end).
Abbreviation prevoteOf := (voteOf 1).
Abbreviation precommitOf := (voteOf 2).

Definition proposalOf (e : node) : event :=
  EvProposal (match List.find (fun o => match o with SentProposal _ => true | _ => false end) (trace e) with
              | Some (SentProposal p) => p
              | _ => []
              end).

(** ** The run *)
Definition network : res (node * node * node * node) :=
  let* a0 := boot [0; 1; 2; 3] 2 in
  let* b0 := boot [0; 1; 2; 3] 0 in
  let* c0 := boot [0; 1; 2; 3] 1 in
  let* d0 := boot [0; 1; 2; 3] 3 in
  (* round 0: [a] proposes; [d] hears nothing in time and votes nil twice *)
  let* a1 := runs 2 a0 [EvDelay; EvProposeReady] in
  let* b1 := runs 0 b0 [proposalOf a1] in
  let* c1 := runs 1 c0 [proposalOf a1] in
  let* d1 := runs 3 d0 [EvProposeTimer; EvPrevoteTimer] in
  (* [a], [b] and [c] see each other's prevotes, lock the block and precommit it *)
  let* a2 := runs 2 a1 [prevoteOf 0 b1; prevoteOf 0 c1] in
  let* b2 := runs 0 b1 [prevoteOf 0 a1; prevoteOf 0 c1] in
  let* c2 := runs 1 c1 [prevoteOf 0 a1; prevoteOf 0 b1] in
  (* [c] hears the precommits of [a] and [b] and commits *)
  let* c3 := runs 1 c2 [precommitOf 0 a2; precommitOf 0 b2] in
  (* [a], [b] and [d] hear two precommits for the block and one for nil, and unlock *)
  let* a3 := runs 2 a2 [precommitOf 0 b2; precommitOf 0 d1] in
  let* b3 := runs 0 b2 [precommitOf 0 a2; precommitOf 0 d1] in
  let* d2 := runs 3 d1 [precommitOf 0 a2; precommitOf 0 b2] in
  (* round 1: [b] has proposed another block; the three prevote, precommit and commit it *)
  let* a4 := runs 2 a3 [proposalOf b3] in
  let* d3 := runs 3 d2 [proposalOf b3] in
  let* a5 := runs 2 a4 [prevoteOf 1 b3; prevoteOf 1 d3] in
  let* b4 := runs 0 b3 [prevoteOf 1 a4; prevoteOf 1 d3] in
  let* d4 := runs 3 d3 [prevoteOf 1 b3; prevoteOf 1 a4] in
  let* a6 := runs 2 a5 [precommitOf 1 b4; precommitOf 1 d4] in
  Ok (a6, b4, c3, d4).

Lemma network_run a b c d :
  network = Ok (a, b, c, d) ->
  node_run (key 2) [] a /\ node_run (key 0) [] b /\ node_run (key 1) [] c /\ node_run (key 3) [] d.
Proof.
  unfold network. intros Hn.
  apply obind_ok_inv in Hn as (a0 & Ha0 & Hn). apply obind_ok_inv in Hn as (b0 & Hb0 & Hn). apply obind_ok_inv in Hn as (c0 & Hc0 & Hn).
  apply obind_ok_inv in Hn as (d0 & Hd0 & Hn). apply obind_ok_inv in Hn as (a1 & Ha1 & Hn). apply obind_ok_inv in Hn as (b1 & Hb1 & Hn).
  apply obind_ok_inv in Hn as (c1 & Hc1 & Hn). apply obind_ok_inv in Hn as (d1 & Hd1 & Hn). apply obind_ok_inv in Hn as (a2 & Ha2 & Hn).
  apply obind_ok_inv in Hn as (b2 & Hb2 & Hn). apply obind_ok_inv in Hn as (c2 & Hc2 & Hn). apply obind_ok_inv in Hn as (c3 & Hc3 & Hn).
  apply obind_ok_inv in Hn as (a3 & Ha3 & Hn). apply obind_ok_inv in Hn as (b3 & Hb3 & Hn). apply obind_ok_inv in Hn as (d2 & Hd2 & Hn).
  apply obind_ok_inv in Hn as (a4 & Ha4 & Hn). apply obind_ok_inv in Hn as (d3 & Hd3 & Hn). apply obind_ok_inv in Hn as (a5 & Ha5 & Hn).
  apply obind_ok_inv in Hn as (b4 & Hb4 & Hn). apply obind_ok_inv in Hn as (d4 & Hd4 & Hn). apply obind_ok_inv in Hn as (a6 & Ha6 & Hn).
  injection Hn as <- <- <- <-.
  split_and!.
  - exact (runs_run 2 _ _ _ (runs_run 2 _ _ _ (runs_run 2 _ _ _ (runs_run 2 _ _ _ (runs_run 2 _ _ _ (runs_run 2 _ _ _ (boot_run _ _ _ Ha0) Ha1) Ha2) Ha3) Ha4) Ha5) Ha6).
  - exact (runs_run 0 _ _ _ (runs_run 0 _ _ _ (runs_run 0 _ _ _ (runs_run 0 _ _ _ (boot_run _ _ _ Hb0) Hb1) Hb2) Hb3) Hb4).
  - exact (runs_run 1 _ _ _ (runs_run 1 _ _ _ (runs_run 1 _ _ _ (boot_run _ _ _ Hc0) Hc1) Hc2) Hc3).
  - exact (runs_run 3 _ _ _ (runs_run 3 _ _ _ (runs_run 3 _ _ _ (runs_run 3 _ _ _ (boot_run _ _ _ Hd0) Hd1) Hd2) Hd3) Hd4).
Qed.

(** ** Reading the outcome *)
Definition commitAt (h r : Z) (o : output) : bool :=
  match o with Committed h' r' _ _ _ _ => (h' =? h) && (r' =? r) | _ => false end.

Definition theCommit (h r : Z) (e : node) : option output := List.find (commitAt h r) (trace e).

Definition sentBy (v : Vote) (e : node) : bool :=
  existsb (fun o => match o with SentVote w => bool_decide (v = w) | _ => false end) (trace e).

Definition allSent (pc : gmap (arr 32) Vote) (nodes : list node) : bool :=
  forallb (fun '(_, v) => existsb (sentBy v) nodes) (map_to_list pc).

(** Four bonds of 100 FRG. *)
Definition fourBonds : list Z := replicate 4 (10 ^ 20).

Definition forked (outcome : res (node * node * node * node)) : bool :=
  match outcome with
  | Ok (a, b, c, d) =>
    match theCommit 1 0 c, theCommit 1 1 a with
    | Some (Committed _ _ p pc vs ss), Some (Committed _ _ p' pc' vs' ss') =>
      bool_decide (vs = vs') && bool_decide (ss = ss') && bool_decide (ss = fourBonds) &&
      negb (bool_decide (BlockHashForChain p [] = BlockHashForChain p' [])) &&
      allSent pc [a; b; c; d] && allSent pc' [a; b; c; d]
    | _, _ => false
    end
  | _ => false
  end.

Lemma forked_true : forked network = true.
Proof. vm_compute. reflexivity. Qed.

Lemma theCommit_In h r e o : theCommit h r e = Some o -> o ∈ trace e /\ commitAt h r o = true.
Proof. intros [Hin Hc]%List.find_some. by rewrite list_elem_of_In. Qed.

Lemma allSent_spec pc nodes pk v :
  allSent pc nodes = true -> pc !! pk = Some v -> exists e, e ∈ nodes /\ SentVote v ∈ trace e.
Proof.
  intros Ha Hv. unfold allSent in Ha. rewrite forallb_forall in Ha.
  assert (In (pk, v) (map_to_list pc)) as Hin by (by apply list_elem_of_In, elem_of_map_to_list).
  apply Ha in Hin. apply existsb_exists in Hin as (e & He & Hs). exists e. rewrite list_elem_of_In. split; [done|].
  apply existsb_exists in Hs as (o & Ho & Hs). destruct o; [|done..]. bsimp. subst. by apply list_elem_of_In.
Qed.

(** C6.  Agreement fails across rounds.  There is a run of four validators with equal
    stake, all of them running this engine and all messages genuine, in which
    one commits a block at height 1 in round 0 and another commits a
    different block at height 1 in round 1; every precommit behind either
    block was broadcast by one of the four. *)
Theorem honest_validators_fork :
  exists (a b c d : node) p p' pc pc' vs,
    node_run (key 2) [] a /\ node_run (key 0) [] b /\ node_run (key 1) [] c /\ node_run (key 3) [] d /\
    Committed 1 0 p pc vs fourBonds ∈ trace c /\
    Committed 1 1 p' pc' vs fourBonds ∈ trace a /\
    BlockHashForChain p [] <> BlockHashForChain p' [] /\
    forall pk v, pc !! pk = Some v \/ pc' !! pk = Some v -> exists e, e ∈ [a; b; c; d] /\ SentVote v ∈ trace e.
Proof.
  pose proof forked_true as Hf. unfold forked in Hf. destruct network as [[[[a b] c] d]| |] eqn:En; [|done..].
  destruct (network_run a b c d En) as (Ha & Hb & Hc & Hd). clear En.
  destruct (theCommit 1 0 c) as [[| |h r p pc vs ss]|] eqn:E1; try done.
  destruct (theCommit 1 1 a) as [[| |h' r' p' pc' vs' ss']|] eqn:E2; try done.
  bsimp. subst. apply theCommit_In in E1 as [I1 C1], E2 as [I2 C2]. cbn in C1, C2. bsimp. subst.
  exists a, b, c, d, p, p', pc, pc', vs'.
  split_and!; [exact Ha|exact Hb|exact Hc|exact Hd|exact I1|exact I2|assumption|].
  intros pk v [Hv|Hv]; (eapply allSent_spec; [|exact Hv]); assumption.
Qed.
End fork.
