(* ===== verification/Genesis.v ===== *)
(** * core/genesis: the first state of a chain

    Seeding a new database, which files start a chain, and what holds of the
    chain from there on: every bond is covered and can be withdrawn. *)

From S2P Require Import Prelude GoBytes Errors Platform Hex Tx KV Denom Ledger Staking StakingProofs Gas Mint Node Tree Contract BlockStore.
From S2P Require Import Telemetry StateMachine StateMachineProofs FrameProofs Vote.

Module genesis.

Record ValidatorEntry : Type := mkValidatorEntry { PubKey : bytes; Bond : bytes }.
Record BalanceEntry : Type := mkBalanceEntry { Account : bytes; Amount : bytes }.
Record Genesis : Type := mkGenesis
  { ChainID : bytes;
    Validators : list ValidatorEntry;
    Balances : list BalanceEntry }.

Definition decodeKey (value : bytes) : res (arr 32) :=
  match hex_DecodeString value with
  | Some b => if zlen b =? 32 then Ok (mk_arr 32 b) else failf "expected 32-byte hex"
  | None => failf "expected 32-byte hex"
  end.

Definition parseAmount (s : bytes) : res Z :=
  match denom.SetString s with
  | Some z => Ok z
  | None => failf "invalid amount string"
  end.

Section Apply.
Context `{Platform} `{MapOrder} {B : Type} `{KV B}.

Definition seedBalance (acc : DB B * gmap (arr 32) Z) (entry : BalanceEntry) : res (DB B * gmap (arr 32) Z) :=
  let '(btx, genesisBalances) := acc in
  let* addr := decodeKey (Account entry) in
  let* amt := parseAmount (Amount entry) in
  let* btx := ledger.SeedTx btx addr amt in
  Ok (btx, <[addr := amt]> genesisBalances).

Definition supplyOf (genesisBalances : gmap (arr 32) Z) : Z :=
  foldl (fun total '(_, amt) => total + amt) 0 (map_iter genesisBalances).

Definition bondValidator (btx : DB B) (entry : ValidatorEntry) : res (DB B) :=
  let* pub := decodeKey (PubKey entry) in
  let* amt := parseAmount (Bond entry) in
  staking.BondTx btx pub (Some amt) 0.

Definition seed (g : Genesis) (btx : DB B) : res (DB B) :=
  let* '(btx, genesisBalances) := foldM seedBalance (btx, ∅) (Balances g) in
  let* btx := statemachine.SetTotalSupplyTx btx (Some (supplyOf genesisBalances)) in
  let* btx := foldM bondValidator btx (Validators g) in
  Ok (statemachine.MarkGenesisAppliedTx btx).

Definition Apply (db : DB B) (g : Genesis) : DB B * res unit :=
  match statemachine.CurrentHeight db with
  | Err e => (db, Err e)
  | Panic => (db, Panic)
  | Ok height =>
    if statemachine.GenesisApplied db || (height >? 0) then (db, Ok tt) else
    Update db (fun btx => let* btx := seed g btx in Ok (btx, tt))
  end.
End Apply.
End genesis.

(** * core/genesis: the first state is sound *)

Import genesis.

Lemma decodeKey_hex (pk : arr 32) : decodeKey (hex_EncodeToString pk) = Ok pk.
Proof. unfold decodeKey. rewrite hex_roundtrip, zlen_arr. cbn. by rewrite mk_arr_bytes. Qed.

(** The sum of a map's values. *)
Definition map_sum (m : gmap (arr 32) Z) : Z := sumZ (map snd (map_to_list m)).

Lemma map_sum_insert m k z : map_sum (<[k := z]> m) = map_sum m - default 0 (m !! k) + z.
Proof.
  unfold map_sum. destruct (m !! k) as [w|] eqn:E.
  - rewrite <- (insert_delete_eq m k z), map_to_list_insert by apply lookup_delete_eq.
    rewrite <- (insert_delete_id m k w E) at 2. rewrite map_to_list_insert by apply lookup_delete_eq. simpl. lia.
  - rewrite map_to_list_insert by done. simpl. lia.
Qed.

Lemma supplyOf_sum `{MapOrderLaws} m : supplyOf m = map_sum m.
Proof.
  unfold supplyOf, map_sum. rewrite <- map_iter_perm.
  assert (forall l z, foldl (fun total '((_, amt) : arr 32 * Z) => total + amt) z l = z + sumZ (map snd l)) as Hf.
  { induction l as [|[k x] l IH]; intros z; [cbn; lia|]. cbn [foldl map]. rewrite IH, sumZ_cons. cbn. lia. }
  rewrite Hf. lia.
Qed.

Section Genesis.
Context `{Platform} `{contract.Wasmtime} `{telemetry.Json} `{MapOrderLaws} {B : Type} `{KVLaws B}.
Implicit Types (db : DB B) (g : Genesis).

(** A database in which nothing has happened; opening it may have written an
    empty supply ([statemachine.New]). *)
Record fresh db : Prop :=
  { fr_balances : forall k, kv_Get (balances db) k = None;
    fr_nonces : forall k, kv_Get (nonces db) k = None;
    fr_validators : forall k, kv_Get (validators db) k = None;
    fr_meta : forall k, k <> statemachine.totalSupplyKey -> kv_Get (meta db) k = None }.

Lemma fresh_formats db : fresh db -> formats_ok db /\ ledger.totalBalance db = 0.
Proof.
  intros [Hb Hn Hv _]. split; [split|].
  - constructor; intros k v; rewrite ?Hb, ?Hn; done.
  - intros k v. by rewrite Hv.
  - unfold ledger.totalBalance. rewrite kv_sum_map. replace (kv_map (balances db)) with (∅ : gmap bytes bytes); [done|].
    symmetry. apply map_eq. intros k. by rewrite kv_map_lookup, lookup_empty.
Qed.

(** After some entries: the ledger holds what the map says. *)
Record seeded db0 db (m : gmap (arr 32) Z) : Prop :=
  { sd_formats : formats_ok db;
    sd_meta : meta db = meta db0;
    sd_validators : validators db = validators db0;
    sd_read : forall a, ledger.BalanceOfTx db a = default 0 (m !! a);
    sd_total : ledger.totalBalance db = map_sum m;
    sd_nonneg : forall a z, m !! a = Some z -> 0 <= z }.

Lemma seedBalance_seeded db0 db m entry db' m' :
  seeded db0 db m -> seedBalance (db, m) entry = Ok (db', m') -> seeded db0 db' m'.
Proof.
  intros [[Hl Hr] Hm Hv Hread Htot Hnn] Hs. unfold seedBalance in Hs. osteps Hs. simplify_eq.
  match goal with Hseed : ledger.SeedTx _ ?a ?z = Ok _ |- _ => rename a into addr, z into amt; apply SeedTx_inv in Hseed as [Hz ->] end.
  constructor; try done.
  - split; [by apply ledger_ok_put_balance|done].
  - intros a. rewrite BalanceOfTx_put by done. rewrite lookup_insert. by case_decide.
  - rewrite totalBalance_put, map_sum_insert, Htot, Hread by done. done.
  - intros a z [[<- <-]|[_ Ha]]%lookup_insert_Some; [by destruct Hz|by eapply Hnn].
Qed.

Lemma seedBalances_seeded db entries db' m :
  fresh db -> foldM seedBalance (db, ∅) entries = Ok (db', m) -> seeded db db' m.
Proof.
  intros Hf Hs. apply (foldM_inv seedBalance (fun '(d, m) => seeded db d m)) in Hs; [done| |].
  - intros [d1 m1] [d2 m2] entry _. apply seedBalance_seeded.
  - destruct (fresh_formats db Hf) as [Hok Ht]. constructor; try done.
    intros a. rewrite lookup_empty. unfold ledger.BalanceOfTx, ledger.readBalance. by rewrite (fr_balances db Hf).
Qed.

Lemma map_sum_nonneg (m : gmap (arr 32) Z) : (forall a z, m !! a = Some z -> 0 <= z) -> 0 <= map_sum m.
Proof.
  intros Hm. apply sumZ_nonneg, Forall_forall. intros z ([a w] & -> & Hin)%list_elem_of_fmap.
  apply elem_of_map_to_list in Hin. by eapply Hm.
Qed.

(** Bonding the listed validators. *)
Definition listed (vs : list ValidatorEntry) (pk : arr 32) (a : Z) : Prop :=
  exists entry, entry ∈ vs /\ decodeKey (PubKey entry) = Ok pk /\ parseAmount (Bond entry) = Ok a.

Definition escrow_apart (vs : list ValidatorEntry) : Prop :=
  forall pk a, listed vs pk a -> staking.escrowAccount pk <> pk.

Lemma bondValidators_spec vs db db' :
  formats_ok db -> escrow_apart vs -> foldM bondValidator db vs = Ok db' ->
  formats_ok db' /\ meta db' = meta db /\ ledger.totalBalance db' = ledger.totalBalance db /\
  forall pk r, recordOf db' pk = Some r <->
    recordOf db pk = Some r \/ exists a, listed vs pk a /\ r = staking.mkRecord staking.stateBonded a 0 0 0.
Proof.
  revert db. induction vs as [|entry vs IH]; intros db Hok Hap Hf; cbn [foldM] in Hf.
  { injection Hf as <-. split_and!; try done. intros pk r. split; [by left|].
    intros [?|(a & (entry & Hin & _) & _)]; [done|by apply not_elem_of_nil in Hin]. }
  apply obind_ok_inv in Hf as (db1 & Hb & Hf). unfold bondValidator in Hb.
  apply obind_ok_inv in Hb as (pk0 & Hpk & Hb). apply obind_ok_inv in Hb as (a0 & Ha & Hb).
  assert (staking.escrowAccount pk0 <> pk0) as Hne by (apply (Hap pk0 a0); exists entry; split; [left|done]).
  pose proof (BondTx_total db pk0 _ 0 db1 Hok ltac:(done) Hne Hb) as [Hok1 Ht1].
  pose proof (proj1 (BondTx_meta _ _ _ _ _ Hb)) as Hm1.
  apply BondTx_inv in Hb as (z & b & [= <-] & _ & Hz & Hnone & _ & ->); [|apply Hok|done].
  apply IH in Hf as (Hok' & Hm' & Ht' & Hrec); [|done|].
  2:{ intros pk a (e & He & Hd). apply (Hap pk a). exists e. split; [by right|done]. }
  split_and!; [done|by rewrite Hm', Hm1|by rewrite Ht'|]. intros pk r. rewrite Hrec.
  rewrite (recordOf_put (set_balances db b)) by (constructor; simpl; auto; done).
  change (recordOf (set_balances db b) pk) with (recordOf db pk). split.
  - intros [Hr|(a & (e & He & Hd) & ->)]; [|right; exists a; split; [exists e; split; [by right|done]|done]].
    case_decide as Heq; [|by left]. subst. injection Hr as <-. right. exists a0. split; [|done]. exists entry. split; [left|done].
  - intros [Hr|(a & (e & [->|He]%elem_of_cons & Hd1 & Hd2) & ->)].
    + case_decide as Heq; [subst; congruence|by left].
    + rewrite Hpk in Hd1. rewrite Ha in Hd2. simplify_eq. left. by rewrite decide_True.
    + right. exists a. split; [exists e; auto|done].
Qed.

Lemma seed_spec g db db' :
  fresh db -> escrow_apart (Validators g) -> seed g db = Ok db' ->
  formats_ok db' /\ statemachine.CurrentTotalSupply db' = (ledger.totalBalance db', true) /\
  statemachine.GenesisApplied db' = true /\ statemachine.CurrentHeight db' = Ok 0 /\
  forall pk r, recordOf db' pk = Some r <-> exists a, listed (Validators g) pk a /\ r = staking.mkRecord staking.stateBonded a 0 0 0.
Proof.
  intros Hfr Hap Hs. unfold seed in Hs. apply obind_ok_inv in Hs as ([d1 m] & Hb & Hs).
  apply seedBalances_seeded in Hb as [Hok Hm Hv _ Htot Hnn]; [|done].
  apply obind_ok_inv in Hs as (d2 & H2' & Hs). unfold statemachine.SetTotalSupplyTx in H2'.
  rewrite supplyOf_sum, (proj2 (Z.ltb_ge _ _)) in H2' by by apply map_sum_nonneg. apply Ok_inj in H2' as <-.
  apply obind_ok_inv in Hs as (d3 & H3' & <-%Ok_inj).
  apply bondValidators_spec in H3' as (Hok3 & Hm3 & Ht3 & Hrec); [|by apply (same_ledger_formats d1)|done].
  assert (forall k, kv_Get (meta (statemachine.MarkGenesisAppliedTx d3)) k =
    if decide (statemachine.genesisAppliedKey = k) then Some [x01] else
    if decide (statemachine.totalSupplyKey = k) then Some (big_Bytes (map_sum m)) else None) as Hget.
  { intros k. unfold statemachine.MarkGenesisAppliedTx. rewrite putMeta_get, Hm3, putMeta_get, Hm.
    repeat (case_decide; [done|]). by rewrite (fr_meta db Hfr). }
  split_and!.
  - by apply (same_ledger_formats d3).
  - unfold statemachine.CurrentTotalSupply. rewrite Hget, decide_False, decide_True by done.
    rewrite big_SetBytes_Bytes, Z.abs_eq by by apply map_sum_nonneg. f_equal.
    change (map_sum m = ledger.totalBalance d3). by rewrite Ht3, <- Htot.
  - unfold statemachine.GenesisApplied. by rewrite Hget.
  - unfold statemachine.CurrentHeight. by rewrite Hget.
  - intros pk r. change (recordOf (statemachine.MarkGenesisAppliedTx d3) pk) with (recordOf d3 pk). rewrite Hrec.
    assert (recordOf (statemachine.putMeta d1 statemachine.totalSupplyKey (big_Bytes (map_sum m))) pk = None) as ->; [|naive_solver].
    unfold recordOf, staking.getRecord. change (validators (statemachine.putMeta d1 _ _)) with (validators d1).
    by rewrite Hv, (fr_validators db Hfr).
Qed.

Lemma Apply_fresh db g :
  fresh db -> Apply db g = Update db (fun btx => let* btx := seed g btx in Ok (btx, tt)).
Proof.
  intros Hf. unfold Apply, statemachine.CurrentHeight, statemachine.GenesisApplied. by rewrite !(fr_meta db Hf) by key_ne.
Qed.

Lemma Apply_seed db g db' : fresh db -> Apply db g = (db', Ok tt) -> seed g db = Ok db'.
Proof.
  intros Hf. rewrite Apply_fresh by done. rewrite Update_ok. by intros (d & Hd & [= ->])%obind_ok_inv.
Qed.

(** From genesis on, the recorded supply is the money there is.  Apply a genesis file to
    a new database and then any history of accepted and rejected blocks of
    plain transactions: the total supply on record is exactly the sum of all
    balances, and accounts, nonces and validator records stay readable. *)
Theorem chain_supply_exact db g db' attempts :
  fresh db -> escrow_apart (Validators g) -> Apply db g = (db', Ok tt) -> Forall attempt_ok attempts ->
  let db'' := foldl tryBlock db' attempts in
  formats_ok db'' /\ statemachine.CurrentTotalSupply db'' = (ledger.totalBalance db'', true).
Proof.
  intros Hf Hap Ha Hat. destruct (seed_spec g db db' Hf Hap (Apply_seed _ _ _ Hf Ha)) as (Hok & Hs & _).
  destruct (history_supply db' attempts Hat Hok) as (Hok' & Htr & Hgap); [by rewrite Hs|]. cbv zeta. split; [done|].
  rewrite Hs in Hgap. cbn [fst] in Hgap. apply injective_projections; [cbn [fst]; lia|exact Htr].
Qed.

(** The genesis file is applied once and as a whole.  An invalid file leaves the new
    database as it was.  A valid one bonds exactly the listed validators, with
    the listed bonds and a clean record, at height 0; from then on any genesis
    file is ignored. *)
Theorem genesis_applied_once db g db' r :
  fresh db -> escrow_apart (Validators g) -> Apply db g = (db', r) ->
  (is_Ok r = false /\ db' = db) \/
  (r = Ok tt /\ statemachine.CurrentHeight db' = Ok 0 /\
   (forall pk rec, recordOf db' pk = Some rec <->
      exists a, listed (Validators g) pk a /\ rec = staking.mkRecord staking.stateBonded a 0 0 0) /\
   forall g', Apply db' g' = (db', Ok tt)).
Proof.
  intros Hf Hap Ha. destruct r as [[]|e|].
  - right. destruct (seed_spec g db db' Hf Hap (Apply_seed _ _ _ Hf Ha)) as (_ & _ & Hg & Hh & Hrec).
    split_and!; try done. intros g'. unfold Apply. by rewrite Hh, Hg.
  - left. split; [done|]. rewrite Apply_fresh in Ha by done. by eapply Update_err in Ha.
  - left. split; [done|]. rewrite Apply_fresh in Ha by done. by eapply Update_err in Ha.
Qed.

(** ** Bonds are covered from genesis on *)

(** The keys that act in a chain: validators of the genesis file and senders. *)
Record chain_parties (K : list (arr 32)) g (attempts : list attempt) : Prop :=
  { cp_genesis : forall pk a, listed (Validators g) pk a -> pk ∈ K;
    cp_history : parties K (history_txs attempts) }.

Lemma no_validators_inv K db :
  ledger.ledger_ok db -> (forall k, kv_Get (validators db) k = None) ->
  (forall k, kv_Get (contract_bytecode db) k = None) -> staking_inv K db.
Proof.
  intros Hl Hv Hc. constructor; [done|intros k x; by rewrite Hv..|intros; apply Hc|].
  intros a. unfold bondsAt. rewrite kv_total_zero by (intros k x; by rewrite Hv). apply readBalance_nonneg.
Qed.

Lemma seed_preserves K g db db' :
  fresh db -> (forall k, kv_Get (contract_bytecode db) k = None) -> escrows_apart K ->
  (forall pk a, listed (Validators g) pk a -> pk ∈ K) -> seed g db = Ok db' -> staking_inv K db'.
Proof.
  intros Hfr Hc Hap Hlist Hs. unfold seed in Hs. apply obind_ok_inv in Hs as ([d1 m] & Hb & Hs).
  assert (contract_bytecode d1 = contract_bytecode db) as Hc1.
  { apply (foldM_inv _ (fun s => contract_bytecode (fst s) = contract_bytecode db)) in Hb; [done| |done].
    intros [d2 m2] [d3 m3] entry _ Hd Hr. unfold seedBalance in Hr. osteps Hr. simplify_eq. rewrite <- Hd.
    match goal with Hse : ledger.SeedTx _ _ _ = Ok _ |- _ => by apply SeedTx_inv in Hse as [_ ->] end. }
  apply seedBalances_seeded in Hb as [[Hl _] _ Hv _ _ _]; [|done].
  assert (staking_inv K d1) as Hi.
  { apply no_validators_inv; [done|intros k; by rewrite Hv, (fr_validators db Hfr)|intros k; by rewrite Hc1]. }
  apply obind_ok_inv in Hs as (d2 & H2' & Hs). apply obind_ok_inv in Hs as (d3 & H3' & <-%Ok_inj).
  assert (staking_inv K d2) as Hi2.
  { unfold statemachine.SetTotalSupplyTx in H2'. osteps H2'. simplify_eq. by apply (same_ledger_preserves K d1). }
  apply (same_ledger_preserves K d3); [done|].
  apply (foldM_inv _ (staking_inv K)) in H3'; [done| |done].
  intros d d' entry Hin Hd Hr. unfold bondValidator in Hr. apply obind_ok_inv in Hr as (pk & Hpk & Hr).
  apply obind_ok_inv in Hr as (a & Ha & Hr). eapply BondTx_preserves; [exact Hd|exact Hap| |done|exact Hr].
  apply (Hlist pk a). by exists entry.
Qed.

Lemma chain_inv K db g db' attempts :
  fresh db -> (forall k, kv_Get (contract_bytecode db) k = None) -> Apply db g = (db', Ok tt) ->
  chain_parties K g attempts -> staking_inv K (foldl tryBlock db' attempts).
Proof.
  intros Hf Hc Ha [Hg Hh]. apply history_preserves; [done|].
  eapply seed_preserves; [exact Hf|exact Hc|apply Hh|exact Hg|by apply Apply_seed].
Qed.

(** C7.  Solvency: apply a genesis file to a new database and then any history of
    accepted and rejected blocks, with transactions of every kind, contract
    code included.  Every account holds at least the sum of the bonds that are
    kept in it, so each validator's escrow account covers its recorded bond.
    [K] lists the keys that bond or send; that none of their escrow accounts
    is one of these keys, the fee account of one, or the address of a contract
    one of them deploys, is all that is asked of them. *)
Theorem escrow_solvent K db g db' attempts :
  fresh db -> (forall k, kv_Get (contract_bytecode db) k = None) -> Apply db g = (db', Ok tt) ->
  chain_parties K g attempts ->
  let db'' := foldl tryBlock db' attempts in
  (forall a, bondsAt db'' a <= ledger.BalanceOf db'' a) /\
  forall v r, recordOf db'' v = Some r -> staking.BondedAmount r <= ledger.BalanceOf db'' (staking.escrowAccount v).
Proof.
  intros Hf Hc Ha Hp. pose proof (chain_inv K db g db' attempts Hf Hc Ha Hp) as Hi. cbv zeta.
  split; [apply (inv_solvent _ _ Hi)|]. intros v r. by apply (inv_bond K).
Qed.

(** C25.  Withdrawal: in every state of such a chain, finalizing pays out exactly when
    the account is an unbonding validator whose lockup has elapsed: the record
    is removed and the recorded bond moves from escrow to the validator, the
    sum of all balances unchanged; only when the validator's balance would
    reach 2^256 is the answer an overflow error instead.  It never fails for
    lack of escrowed funds, and for everyone else it changes nothing. *)
Theorem FinalizeTx_pays K db g db' attempts v h :
  fresh db -> (forall k, kv_Get (contract_bytecode db) k = None) -> Apply db g = (db', Ok tt) ->
  chain_parties K g attempts ->
  let db'' := foldl tryBlock db' attempts in
  let due r := (staking.State r =? staking.stateUnbonding) &&
               (wrap64 (staking.UnbondingAtBlock r + staking.UnbondingBlocks) <=? h) in
  match recordOf db'' v with
  | Some r =>
      if due r then
        if ledger.BalanceOf db'' v + staking.BondedAmount r <? two256 then
          exists paid, staking.FinalizeTx db'' v h = Ok paid /\ recordOf paid v = None /\
            ledger.BalanceOf paid v = ledger.BalanceOf db'' v + staking.BondedAmount r /\
            ledger.BalanceOf paid (staking.escrowAccount v) =
              ledger.BalanceOf db'' (staking.escrowAccount v) - staking.BondedAmount r /\
            ledger.totalBalance paid = ledger.totalBalance db''
        else staking.FinalizeTx db'' v h = fail ErrArithmeticOverflow
      else staking.FinalizeTx db'' v h = Ok db''
  | None => staking.FinalizeTx db'' v h = Ok db''
  end.
Proof.
  intros Hf Hc Ha Hp. pose proof (chain_inv K db g db' attempts Hf Hc Ha Hp) as Hi. cbv zeta.
  destruct (recordOf _ v) as [r|] eqn:Hr.
  - destruct (_ && _) eqn:Hd; [apply andb_true_iff in Hd as [Hst Hh]|apply andb_false_iff in Hd].
    + apply Z.eqb_eq in Hst. apply Z.leb_le in Hh. apply (FinalizeTx_due K); [done|apply Hp|done..].
    + apply FinalizeTx_idle; [apply Hi|]. intros r' Hr' Hst. rewrite Hr in Hr'. injection Hr' as <-.
      rewrite Hst in Hd. destruct Hd as [Hd|Hd]; [done|]. by apply Z.leb_gt in Hd.
  - apply FinalizeTx_idle; [apply Hi|]. intros r'. by rewrite Hr.
Qed.
End Genesis.

(** * core/genesis: which files are accepted

    A genesis file with readable keys and amounts, validators that are listed
    once and own their bond, and a supply within 256 bits is applied by a new
    database.  The files of frg-node and of frg-devnet are of this kind. *)

Import genesis.

Abbreviation key_map := (@gmap (arr 32) (arr_eq_dec 32) (arr_countable 32) Z).

(** What the balance entries give each account: the last entry counts. *)
Definition grant (m : key_map) (entry : BalanceEntry) : key_map :=
  match decodeKey (Account entry), parseAmount (Amount entry) with
  | Ok a, Ok z => <[a := z]> m
  | _, _ => m
  end.

Definition grants (l : list BalanceEntry) : key_map := foldl grant ∅ l.

Definition entry_ok (entry : BalanceEntry) : Prop :=
  exists a z, decodeKey (Account entry) = Ok a /\ parseAmount (Amount entry) = Ok z /\ is_u256 z.

Definition bond_ok (m : key_map) (entry : ValidatorEntry) : Prop :=
  exists pk z bal, decodeKey (PubKey entry) = Ok pk /\ parseAmount (Bond entry) = Ok z /\
    m !! pk = Some bal /\ staking.minBondAmount <= z <= bal.

Record well_formed (g : Genesis) : Prop := mkWellFormed
  { wf_entries : Forall entry_ok (Balances g);
    wf_bonds : Forall (bond_ok (grants (Balances g))) (Validators g);
    wf_keys : NoDup (map (fun entry => decodeKey (PubKey entry)) (Validators g));
    wf_supply : map_sum (grants (Balances g)) < two256 }.

(** A supply is at most the sum of what is listed. *)
Lemma grants_sum l c m :
  Forall entry_ok l -> 0 <= c -> (forall entry z, entry ∈ l -> parseAmount (Amount entry) = Ok z -> z <= c) ->
  (forall a z, m !! a = Some z -> 0 <= z) -> map_sum (foldl grant m l) <= map_sum m + zlen l * c.
Proof.
  intros Hl Hc. revert m. induction Hl as [|entry l (a & z & Ha & Hz & Hu) Hl IH]; intros m Hb Hm; cbn [foldl]; [rewrite (zlen_nil (A := BalanceEntry)); lia|].
  assert (z <= c) as Hzc by (apply (Hb entry); [left|done]). assert (0 <= z) as Hz0 by apply Hu.
  unfold grant at 2. rewrite Ha, Hz. etransitivity; [apply IH|].
  - intros e y He. apply Hb. by right.
  - intros a' z' [[<- <-]|[_ Hm']]%lookup_insert_Some; [done|by eapply Hm].
  - rewrite map_sum_insert, zlen_cons. assert (0 <= default 0 (m !! a)); [|lia]. destruct (m !! a) as [w|] eqn:E; [by eapply Hm|done].
Qed.

Section Accept.
Context `{Platform} `{contract.Wasmtime} `{telemetry.Json} `{MapOrderLaws} {B : Type} `{KVLaws B}.
Implicit Types (db : DB B) (g : Genesis).

(** Two accounts hold no more than everything. *)
Lemma two_balances db a b :
  a <> b -> ledger.readBalance (balances db) a + ledger.readBalance (balances db) b <= ledger.totalBalance db.
Proof.
  intros Hne. assert (is_u256 0) as Hu by (unfold is_u256, two256; lia).
  pose proof (readBalance_le_total (kv_Put (balances db) a (be_enc 32 0)) b) as Hle.
  rewrite readBalance_put, kv_sum_put_balance, decide_False in Hle by done. unfold ledger.totalBalance. lia.
Qed.

Lemma seedBalances_accept l db m : Forall entry_ok l -> exists db', foldM seedBalance (db, m) l = Ok (db', foldl grant m l).
Proof.
  intros Hl. revert db m. induction Hl as [|entry l (a & z & Ha & Hz & Hu) Hl IH]; intros db m; [by eexists|]. cbn [foldM foldl].
  unfold seedBalance at 1, grant at 2. rewrite Ha, Hz. cbn [obind]. unfold ledger.SeedTx. rewrite writeBalance_ok by done. cbn [obind]. apply IH.
Qed.

(** A bond that the validator owns is taken. *)
Lemma BondTx_accept db pk z :
  formats_ok db -> staking.escrowAccount pk <> pk -> recordOf db pk = None -> ledger.totalBalance db < two256 ->
  staking.minBondAmount <= z <= ledger.BalanceOfTx db pk ->
  exists db', staking.BondTx db pk (Some z) 0 = Ok db'.
Proof.
  intros [Hl Hr] Hne Hrec Htot [Hmin Hle]. unfold ledger.BalanceOfTx in Hle.
  assert (0 <= z) as Hz by (pose proof (eq_refl : (0 <=? staking.minBondAmount) = true); lia).
  pose proof (two_balances db pk (staking.escrowAccount pk) ltac:(done)) as Htwo.
  pose proof (readBalance_nonneg (balances db) (staking.escrowAccount pk)).
  assert (is_u256 z) as Hu by (unfold is_u256; lia).
  unfold staking.BondTx. rewrite (proj2 (Z.ltb_ge _ _)) by exact Hmin. rewrite (proj1 (getRecord_ok db pk Hr)), Hrec. cbn [obind].
  rewrite MoveTx_shift by exact Hu. destruct (shift_ok db pk (staking.escrowAccount pk) z Hl) as [b ->]; [lia|lia|]. cbn [obind].
  rewrite putRecord_ok; [by eexists|]. assert (is_u64 0) as Hzero by (unfold is_u64, two64; lia).
  constructor; cbn [staking.State staking.BondedAmount staking.BondedAtBlock staking.UnbondingAtBlock staking.MissCount]; [by left|exact Hu|exact Hzero..].
Qed.


(** What is still to be bonded can be. *)
Definition bondable db (entry : ValidatorEntry) : Prop :=
  exists pk z, decodeKey (PubKey entry) = Ok pk /\ parseAmount (Bond entry) = Ok z /\ staking.escrowAccount pk <> pk /\
    recordOf db pk = None /\ staking.minBondAmount <= z <= ledger.BalanceOfTx db pk.

Lemma bondValidators_accept vs db :
  formats_ok db -> ledger.totalBalance db < two256 -> NoDup (map (fun entry => decodeKey (PubKey entry)) vs) -> Forall (bondable db) vs ->
  exists db', foldM bondValidator db vs = Ok db'.
Proof.
  revert db. induction vs as [|entry vs IH]; intros db Hok Htot Hnd Hvs; [by eexists|]. cbn [foldM].
  apply Forall_cons in Hvs as [(pk & z & Hk & Hz & Hne & Hrec & Hb) Hvs]. cbn [map] in Hnd. apply NoDup_cons in Hnd as [Hni Hnd].
  destruct (BondTx_accept db pk z Hok Hne Hrec Htot Hb) as [db1 Hb1]. unfold bondValidator at 1. rewrite Hk, Hz. cbn [obind]. rewrite Hb1. cbn [obind].
  destruct (BondTx_total db pk _ 0 db1 Hok ltac:(done) Hne Hb1) as [Hok1 Ht1].
  apply BondTx_inv in Hb1 as (z' & b & [= <-] & Hmin & Hu & _ & Hsh & ->); [|apply Hok|done].
  apply IH; [done|by rewrite Ht1|done|]. apply Forall_forall. intros e He.
  destruct (proj1 (Forall_forall _ _) Hvs e He) as (pk' & z2 & Hk2 & Hz2 & Hne2 & Hrec2 & Hb2). assert (pk' <> pk) as Hdiff by (intros ->; apply Hni, list_elem_of_fmap; exists e; split; [congruence|done]).
  exists pk', z2. split_and!; try done.
  - rewrite (recordOf_put (set_balances db b)) by (assert (is_u64 0) by (unfold is_u64, two64; lia); constructor; cbn; auto).
    by rewrite decide_False by congruence.
  - apply Hb2.
  - unfold ledger.BalanceOfTx in *. cbn [balances set_validators set_balances].
    rewrite (shift_read _ _ _ _ _ pk' (proj1 Hu) Hsh). destruct Hu as [Hu _]. repeat case_decide; subst; [lia|done|lia].
Qed.

Lemma well_formed_seed db g :
  fresh db -> escrow_apart (Validators g) -> well_formed g -> exists db', seed g db = Ok db'.
Proof.
  intros Hf Hap [Hen Hbo Hkeys Hsup]. unfold seed.
  destruct (seedBalances_accept (Balances g) db ∅ Hen) as [d1 H1']. fold (grants (Balances g)) in H1'. rewrite H1'. cbn [obind].
  apply seedBalances_seeded in H1' as [Hok Hm Hv Hread Htot Hnn]; [|done].
  unfold statemachine.SetTotalSupplyTx. rewrite supplyOf_sum, (proj2 (Z.ltb_ge _ _)) by by apply map_sum_nonneg. cbn [obind].
  set (d2 := statemachine.putMeta d1 _ _). destruct (bondValidators_accept (Validators g) d2) as [d3 ->]; [| | | |by eexists].
  - by apply (same_ledger_formats d1).
  - change (ledger.totalBalance d1 < two256). by rewrite Htot.
  - done.
  - apply Forall_forall. intros e He. destruct (proj1 (Forall_forall _ _) Hbo e He) as (pk & z & bal & Hk & Hz & Hbal & Hmin & Hle).
    exists pk, z. split_and!; try done.
    + apply (Hap pk z). by exists e.
    + unfold recordOf, staking.getRecord. change (validators d2) with (validators d1). by rewrite Hv, (fr_validators db Hf).
    + change (ledger.BalanceOfTx d2 pk) with (ledger.BalanceOfTx d1 pk). by rewrite Hread, Hbal.
Qed.

(** C34.  A well-formed genesis file starts a chain: when every balance entry is a
    key and an amount of 256 bits, every validator is listed once with at
    least the minimum bond and owns it, and the whole supply fits 256 bits,
    a new database accepts the file.  Exactly the listed validators are then
    bonded and the recorded supply is the sum of what the file grants. *)
Theorem genesis_accepted db g :
  fresh db -> escrow_apart (Validators g) -> well_formed g ->
  exists db', Apply db g = (db', Ok tt) /\
    (forall pk r, recordOf db' pk = Some r <-> exists a, listed (Validators g) pk a /\ r = staking.mkRecord staking.stateBonded a 0 0 0) /\
    statemachine.CurrentTotalSupply db' = (ledger.totalBalance db', true) /\ statemachine.CurrentHeight db' = Ok 0.
Proof.
  intros Hf Hap Hwf. destruct (well_formed_seed db g Hf Hap Hwf) as [db' Hs]. exists db'.
  destruct (seed_spec g db db' Hf Hap Hs) as (_ & Hsup & _ & Hh & Hrec). split_and!; try done.
  rewrite Apply_fresh by done. apply Update_ok. by rewrite Hs.
Qed.
End Accept.
