(* ===== verification/BlockSync.v ===== *)
(** * core/p2p: exchanging committed blocks (blocksync.go)

    A stream is the bytes one side has written.  A peer is a function from the
    request it receives to the response it writes, or an error when no stream
    can be opened. *)

From S2P Require Import Prelude GoBytes Errors Platform Tx TxProofs KV BlockStore.

Module blocksync.

Definition blockSyncVersion : byte := x01.
Definition blockSyncMaxRange : Z := 1024.
Definition blockSyncMaxBlockBytes : Z := Z.shiftl 64 20.
Definition blockSyncMaxResponseBytes : Z := Z.shiftl 128 20.
Definition blockSyncHeaderBytes : Z := 8 + 1 + 8 + 8.
Definition blockSyncMagic : bytes := str "FRGSYNC" ++ [x01].

(** [io.ReadFull] of [n > 0] bytes: fewer are an error. *)
Definition readFull (r : bytes) (n : Z) : res (bytes * bytes) :=
  if zlen r <? n then failf "unexpected EOF" else Ok (take (Z.to_nat n) r, drop (Z.to_nat n) r).

(** ** Requests *)
Definition writeBlockSyncRequest (from to : Z) : bytes :=
  blockSyncMagic ++ [blockSyncVersion] ++ put64 from ++ put64 to.

Definition badRange (from to : Z) : bool := (to <? from) || (to - from >=? blockSyncMaxRange).

Definition readBlockSyncRequest (r : bytes) : res (Z * Z) :=
  let* '(request, _) := readFull r blockSyncHeaderBytes in
  let* magic := slice request 0 8 in
  let* version := index request 8 in
  if bool_decide (magic <> blockSyncMagic) || bool_decide (version <> blockSyncVersion)
  then failf "invalid block sync request" else
  let* from := u64_at request 9 in
  let* to := u64_at request 17 in
  if badRange from to then failf "invalid block sync range" else Ok (from, to).

(** ** Responses *)

(** The frames written, and the error that stopped the writing, if any. *)
Fixpoint writeFrames (blocks : list bytes) : bytes * res unit :=
  match blocks with
  | [] => ([], Ok tt)
  | block :: rest =>
    if (zlen block =? 0) || (zlen block >? blockSyncMaxBlockBytes)
    then ([], failf "invalid block sync response block") else
    let '(out, r) := writeFrames rest in
    (put32 (wrap32 (zlen block)) ++ block ++ out, r)
  end.

Definition writeBlockSyncResponse (blocks : list bytes) : bytes * res unit :=
  let '(out, r) := writeFrames blocks in (put32 (wrap32 (zlen blocks)) ++ out, r).

Fixpoint readFrames (count : nat) (r : bytes) (total : Z) : res (list bytes) :=
  match count with
  | O => Ok []
  | S count =>
    let* '(size, r) := readFull r 4 in
    let* length := u32_at size 0 in
    if (length =? 0) || (length >? blockSyncMaxBlockBytes) || (total + length >? blockSyncMaxResponseBytes)
    then failf "block sync response exceeds limit" else
    let* '(block, r) := readFull r length in
    let* blocks := readFrames count r (total + length) in
    Ok (block :: blocks)
  end.

(** [io.LimitReader] *)
Definition limitReader (r : bytes) (n : Z) : bytes := take (Z.to_nat n) r.

Definition readBlockSyncResponse (r : bytes) : res (list bytes) :=
  let reader := limitReader r (blockSyncMaxResponseBytes + 4 + 4) in
  let* '(countBuf, reader) := readFull reader 4 in
  let* count := u32_at countBuf 0 in
  if count >? blockSyncMaxRange then failf "block sync response count exceeds limit" else
  readFrames (Z.to_nat count) reader 0.

(** ** Serving *)
Definition BlockProvider : Type := Z -> res (option bytes).

(** The loop over [n] heights from [height]. *)
Fixpoint serveLoop (n : nat) (provider : BlockProvider) (height total : Z) : res (list bytes) :=
  match n with
  | O => Ok []
  | S n =>
    match provider height with
    | Panic => Panic
    | Err _ | Ok None => Ok []
    | Ok (Some data) =>
      if (zlen data =? 0) || (zlen data >? blockSyncMaxBlockBytes) || (total + zlen data >? blockSyncMaxResponseBytes)
      then Ok [] else
      if height =? two64 - 1 then Ok [data] else
      let* rest := serveLoop n provider (height + 1) (total + zlen data) in
      Ok (data :: rest)
    end
  end.

Definition handleBlockSync (provider : option BlockProvider) (stream : bytes) : res bytes :=
  match readBlockSyncRequest stream with
  | Err _ => Ok []
  | Panic => Panic
  | Ok (from, to) =>
    match provider with
    | None => Ok (fst (writeBlockSyncResponse []))
    | Some provider =>
      let* blocks := serveLoop (Z.to_nat (to - from + 1)) provider from 0 in
      Ok (fst (writeBlockSyncResponse blocks))
    end
  end.

(** ** Requesting *)
Definition SyncBlocks (peer : bytes -> res bytes) (from to : Z) : res (list bytes) :=
  if badRange from to then failf "invalid block sync range" else
  let* stream := peer (writeBlockSyncRequest from to) in
  readBlockSyncResponse stream.

(** What a node serves: its stored blocks. *)
Definition storedProvider `{Platform} {B} `{KV B} (db : DB B) : BlockProvider := fun height =>
  let* block := blockstore.BlockAt db height in
  match block with
  | None => Ok None
  | Some block => let* data := blockstore.SerializeBlock block in Ok (Some data)
  end.
End blocksync.

(** * core/p2p: the block exchange delivers what the peer has *)

Import blocksync.

Lemma readFull_app a r n : n = zlen a -> readFull (a ++ r) n = Ok (a, r).
Proof.
  intros ->. unfold readFull. rewrite zlen_app. pose proof (zlen_nonneg r).
  rewrite (proj2 (Z.ltb_ge _ _)) by lia. unfold zlen. rewrite Nat2Z.id.
  by rewrite take_app_length, drop_app_length.
Qed.

Lemma request_roundtrip from to :
  is_u64 from -> is_u64 to ->
  readBlockSyncRequest (writeBlockSyncRequest from to) =
  if badRange from to then failf "invalid block sync range" else Ok (from, to).
Proof.
  intros Hf Ht. unfold readBlockSyncRequest.
  assert (zlen (writeBlockSyncRequest from to) = blockSyncHeaderBytes) as Hlen.
  { unfold writeBlockSyncRequest. by rewrite !zlen_app, !zlen_put64. }
  rewrite <- (app_nil_r (writeBlockSyncRequest from to)), (readFull_app _ [] _ (eq_sym Hlen)). cbn [obind].
  assert (slice (E := error) (writeBlockSyncRequest from to) 0 8 = Ok blockSyncMagic) as ->
    by by apply (slice_app [] blockSyncMagic).
  assert (index (E := error) (writeBlockSyncRequest from to) 8 = Ok blockSyncVersion) as ->
    by by apply (index_app blockSyncMagic).
  cbn [obind]. rewrite !bool_decide_eq_false_2 by tauto. cbn [orb].
  unfold u64_at, writeBlockSyncRequest, put64. rewrite app_assoc.
  rewrite (be_at_app 8 (blockSyncMagic ++ [blockSyncVersion])) by done. cbn [obind].
  rewrite <- (app_nil_r (be_enc 8 to)), !app_assoc, <- app_assoc.
  by rewrite (be_at_app 8 ((blockSyncMagic ++ [blockSyncVersion]) ++ be_enc 8 from)) by done.
Qed.

(** ** Frames *)

(** A block that may be sent. *)
Definition servable (b : bytes) : Prop := 0 < zlen b <= blockSyncMaxBlockBytes.

Definition frame (b : bytes) : bytes := put32 (zlen b) ++ b.
Definition payload (bs : list bytes) : Z := sumZ (map zlen bs).

Lemma max_block_u32 z : z <= blockSyncMaxBlockBytes -> z < two32.
Proof. change blockSyncMaxBlockBytes with (2 ^ 26). unfold two32. lia. Qed.

Lemma writeFrames_ok bs : Forall servable bs -> writeFrames bs = (concat (map frame bs), Ok tt).
Proof.
  induction 1 as [|b bs [Hb1 Hb2] _ IH]; [done|]. cbn [writeFrames map concat].
  rewrite (proj2 (Z.eqb_neq _ _)), Z.gtb_ltb, (proj2 (Z.ltb_ge _ _)) by lia. cbn [orb].
  rewrite IH. unfold frame. rewrite wrap32_small by (split; [lia|by apply max_block_u32]). by rewrite <- app_assoc.
Qed.

Lemma zlen_frames bs : zlen (concat (map frame bs)) = 4 * zlen bs + payload bs.
Proof.
  unfold payload. induction bs as [|b bs IH]; [done|]. cbn [map concat]. unfold frame at 1.
  rewrite !zlen_app, IH, zlen_put32, zlen_cons, sumZ_cons. lia.
Qed.

Lemma payload_nonneg bs : 0 <= payload bs.
Proof. apply sumZ_nonneg, Forall_forall. intros z (b & -> & _)%list_elem_of_fmap. apply zlen_nonneg. Qed.

Lemma readFull_short (r : bytes) n : zlen r < n -> readFull r n = failf "unexpected EOF".
Proof. intros Hr. unfold readFull. by rewrite (proj2 (Z.ltb_lt _ _)) by lia. Qed.

Lemma limit_app (a r : bytes) L : zlen a <= L -> limitReader (a ++ r) L = a ++ limitReader r (L - zlen a).
Proof.
  intros Hl. unfold limitReader. rewrite take_app, take_ge by (unfold zlen in *; lia). f_equal. f_equal.
  unfold zlen. lia.
Qed.

Lemma limit_short (r : bytes) L n : 0 <= L -> L < n -> readFull (limitReader r L) n = failf "unexpected EOF".
Proof. intros H0 Hl. apply readFull_short. unfold zlen, limitReader. rewrite length_take. lia. Qed.

(** Reading frames through a limit: all of them or an error. *)
Lemma readFrames_limit bs L total :
  Forall servable bs -> total + payload bs <= blockSyncMaxResponseBytes -> 0 <= L ->
  readFrames (length bs) (limitReader (concat (map frame bs)) L) total =
  if 4 * zlen bs + payload bs <=? L then Ok bs else failf "unexpected EOF".
Proof.
  intros Hs. revert L total. induction Hs as [|b bs [Hb1 Hb2] _ IH]; intros L total Ht HL.
  { cbn. rewrite (proj2 (Z.leb_le _ _)); [done|]. unfold payload, zlen. cbn. lia. }
  unfold payload in *. cbn [map] in *. rewrite sumZ_cons in *. fold (payload bs) in *. pose proof (payload_nonneg bs).
  rewrite zlen_cons. pose proof (zlen_nonneg bs). cbn [length readFrames concat]. unfold frame at 1. rewrite <- app_assoc.
  destruct (Z.lt_ge_cases L 4) as [H4|H4].
  { rewrite limit_short by done. by rewrite (proj2 (Z.leb_gt _ _)) by lia. }
  rewrite limit_app, zlen_put32 by (rewrite zlen_put32; lia).
  rewrite readFull_app by (by rewrite zlen_put32). cbn [obind].
  assert (u32_at (E := error) (put32 (zlen b)) 0 = Ok (zlen b)) as ->.
  { unfold u32_at. rewrite be_at_full by apply be_enc_length. f_equal. apply be_dec_enc_small.
    pose proof (max_block_u32 _ Hb2). unfold two32 in *. lia. }
  cbn [obind]. rewrite !Z.gtb_ltb, (proj2 (Z.eqb_neq _ _)), !(proj2 (Z.ltb_ge _ _)) by lia. cbn [orb].
  destruct (Z.lt_ge_cases (L - 4) (zlen b)) as [Hb|Hb].
  { rewrite limit_short by lia. by rewrite (proj2 (Z.leb_gt _ _)) by lia. }
  rewrite limit_app by lia. rewrite readFull_app by done. cbn [obind]. rewrite IH by lia.
  destruct (Z.leb_spec (4 * zlen bs + payload bs) (L - 4 - zlen b)); cbn [obind].
  - by rewrite (proj2 (Z.leb_le _ _)) by lia.
  - by rewrite (proj2 (Z.leb_gt _ _)) by lia.
Qed.

(** What the reader makes of a response: its size with the frame headers must fit the
    reader's limit. *)
Lemma response_limit bs :
  Forall servable bs -> zlen bs <= blockSyncMaxRange -> payload bs <= blockSyncMaxResponseBytes ->
  readBlockSyncResponse (fst (writeBlockSyncResponse bs)) =
  if 4 * zlen bs + payload bs <=? blockSyncMaxResponseBytes + 4 then Ok bs else failf "unexpected EOF".
Proof.
  intros Hs Hn Hp. unfold readBlockSyncResponse, writeBlockSyncResponse. rewrite writeFrames_ok by done. cbn [fst].
  unfold blockSyncMaxRange in Hn. pose proof (zlen_nonneg bs). rewrite wrap32_small by (unfold two32; lia).
  rewrite limit_app by (rewrite zlen_put32; done). rewrite zlen_put32.
  rewrite readFull_app by (by rewrite zlen_put32). cbn [obind].
  assert (u32_at (E := error) (put32 (zlen bs)) 0 = Ok (zlen bs)) as ->.
  { unfold u32_at. rewrite be_at_full by apply be_enc_length. f_equal. apply be_dec_enc_small. lia. }
  cbn [obind]. rewrite Z.gtb_ltb, (proj2 (Z.ltb_ge _ _)) by (unfold blockSyncMaxRange; lia).
  replace (Z.to_nat (zlen bs)) with (length bs) by (unfold zlen; lia).
  rewrite readFrames_limit by (done || lia). by replace (blockSyncMaxResponseBytes + 4 + 4 - 4) with (blockSyncMaxResponseBytes + 4) by lia.
Qed.

(** ** Serving *)
Lemma serveLoop_spec n provider height total bs :
  0 <= height -> serveLoop n provider height total = Ok bs -> total <= blockSyncMaxResponseBytes ->
  Forall servable bs /\ zlen bs <= Z.of_nat n /\ total + payload bs <= blockSyncMaxResponseBytes /\
  forall i b, bs !! i = Some b -> provider (height + Z.of_nat i) = Ok (Some b).
Proof.
  revert height total bs. induction n as [|n IH]; intros height total bs Hh Hs Ht; cbn [serveLoop] in Hs.
  { apply Ok_inj in Hs as <-. unfold payload. cbn. split_and!; [constructor|done|lia|done]. }
  assert (forall bs, bs = [] -> Forall servable bs /\ zlen bs <= Z.of_nat (S n) /\
    total + payload bs <= blockSyncMaxResponseBytes /\ forall i b, bs !! i = Some b -> provider (height + Z.of_nat i) = Ok (Some b)) as Hnil.
  { intros ? ->. unfold payload, zlen. cbn. split_and!; [constructor|lia|lia|done]. }
  destruct (provider height) as [[data|]| |] eqn:Ep; [|by apply Ok_inj in Hs as <-; apply Hnil|by apply Ok_inj in Hs as <-; apply Hnil|done].
  destruct ((zlen data =? 0) || _ || _) eqn:Eg; [by apply Ok_inj in Hs as <-; apply Hnil|]. bsimp.
  pose proof (zlen_nonneg data). assert (servable data) as Hd by (split; lia).
  assert (forall b, [data] !! 0%nat = Some b -> provider (height + 0) = Ok (Some b)) as Hhd
    by (intros b [= <-]; by rewrite Z.add_0_r).
  destruct (height =? two64 - 1).
  { apply Ok_inj in Hs as <-. unfold payload, zlen. cbn [map length]. rewrite sumZ_cons. cbn [sumZ fold_right].
    split_and!; [by constructor|lia|unfold zlen in *; cbn; lia|]. intros [|i] b Hb; [by apply Hhd|done]. }
  apply obind_ok_inv in Hs as (rest & Hr & <-%Ok_inj). apply IH in Hr as (Hs' & Hn' & Hp' & Hi'); [|lia|lia].
  unfold payload in *. cbn [map]. rewrite sumZ_cons, zlen_cons. split_and!; [by constructor|lia|lia|].
  intros [|i] b Hb; [by apply Hhd|]. cbn in Hb. apply Hi' in Hb.
  by replace (height + Z.of_nat (S i)) with (height + 1 + Z.of_nat i) by lia.
Qed.

Lemma serveLoop_total n provider h t : (forall h, provider h <> Panic) -> exists bs, serveLoop n provider h t = Ok bs.
Proof.
  intros Hp. revert h t. induction n as [|n IH]; intros h t; cbn [serveLoop]; [eauto|].
  pose proof (Hp h). destruct (provider h) as [[d|]| |]; [|eauto|eauto|done].
  do 2 (case_match; [eauto|]). destruct (IH (h + 1) (t + zlen d)) as [bs ->]. cbn. eauto.
Qed.

(** C17.  The exchange delivers a prefix of the requested range.  Asking a peer for a valid
    range returns exactly the blocks its provider gives for consecutive
    heights from the first one on, if they fit the reader's limit with their
    frame headers; the frames of a response the peer is allowed to send can
    exceed that limit by up to 4092 bytes, and then the request fails. *)
Theorem SyncBlocks_delivers provider from to :
  is_u64 from -> is_u64 to -> badRange from to = false -> (forall h, provider h <> Panic) ->
  exists bs, serveLoop (Z.to_nat (to - from + 1)) provider from 0 = Ok bs /\
    zlen bs <= to - from + 1 /\ (forall i b, bs !! i = Some b -> provider (from + Z.of_nat i) = Ok (Some b)) /\
    payload bs <= blockSyncMaxResponseBytes /\
    SyncBlocks (handleBlockSync (Some provider)) from to =
      if 4 * zlen bs + payload bs <=? blockSyncMaxResponseBytes + 4 then Ok bs else failf "unexpected EOF".
Proof.
  intros Hf Ht Hr Hp.
  destruct (serveLoop_total (Z.to_nat (to - from + 1)) provider from 0 Hp) as [bs Hs].
  exists bs. pose proof Hr as Hr'. unfold badRange, blockSyncMaxRange in Hr'. bsimp.
  destruct (serveLoop_spec _ _ _ _ _ (proj1 Hf) Hs) as (Hsv & Hn & Hpl & Hi); [done|].
  split_and!; [done|lia|done|lia|]. unfold SyncBlocks. rewrite Hr. unfold handleBlockSync.
  rewrite request_roundtrip, Hr, Hs by done. cbn [obind]. apply response_limit; [done|unfold blockSyncMaxRange; lia|lia].
Qed.
