(* ===== verification/CatchUp.v ===== *)
(** * cmd/frg-node: catching up with committed blocks (main.go)

    A peer answers a request for a range of heights with raw blocks or an
    error; it may answer differently at every attempt.  [ctxDone] says whether
    the context has ended when the code looks: after an attempt (0 and 1) and
    at the end of a pass (3).  The counters of metrics.go are left out. *)

From S2P Require Import Prelude GoBytes Errors Platform Tx TxProofs BatchProofs KV Denom Ledger Staking Gas Mint Node Tree Contract BlockStore.
From S2P Require Import Telemetry StateMachine StateMachineProofs BlockProofs Vote VoteProofs RoundProofs BlockSync.

Module catchup.
Import vote blockstore.

Section Validate.
Context `{Platform}.

(** One block of a range: [None] rejects the range. *)
Definition checkSynced (raw : bytes) (height : Z) (validators : list (arr 32)) (stakes : list Z) (chainID : bytes) :
    res (option Block) :=
  match DeserializeBlock raw with
  | Err _ => Ok None
  | Panic => Panic
  | Ok block =>
    if negb (Height block =? height) then Ok None else
    match DeserializeProposal (ProposalBytes block) with
    | Err _ => Ok None
    | Panic => Panic
    | Ok proposal =>
      let* signed := VerifyProposalForChain proposal chainID in
      if negb signed then Ok None else
      if bool_decide (ProposerPK proposal ∉ validators) || negb (PHeight proposal =? Height block) ||
         bool_decide (ProposerPK proposal <> ProposerPubKey block) ||
         bool_decide (PPrevStateRoot proposal <> PrevStateRoot block)
      then Ok None else
      match tx.SerializeBatch (PTxs proposal), tx.SerializeBatch (Txs block) with
      | Panic, _ => Panic
      | _, Panic => Panic
      | Ok proposalTxs, Ok blockTxs =>
        if bool_decide (proposalTxs <> blockTxs) then Ok None else
        if zlen (AVotes (PrevAttestations proposal)) >? 0 then
          match VerifyAttestationForChain (Some (PrevAttestations proposal)) validators (map Some stakes) chainID with
          | Err _ => Ok None
          | Panic => Panic
          | Ok _ => Ok (Some block)
          end
        else Ok (Some block)
      | _, _ => Ok None
      end
    end
  end.

(** The blocks from index [i] on. *)
Fixpoint validateFrom (rawBlocks : list bytes) (from i : Z) (validators : list (arr 32)) (stakes : list Z) (chainID : bytes) :
    res (option (list Block)) :=
  match rawBlocks with
  | [] => Ok (Some [])
  | raw :: rest =>
    let* block := checkSynced raw (wrap64 (from + wrap64 i)) validators stakes chainID in
    match block with
    | None => Ok None
    | Some block =>
      let* blocks := validateFrom rest from (i + 1) validators stakes chainID in
      Ok (cons block <$> blocks)
    end
  end.

Definition validateSyncedBlocks (rawBlocks : list bytes) (from : Z) (validators : list (arr 32)) (stakes : list Z)
    (chainID : bytes) : res (option (list Block)) :=
  validateFrom rawBlocks from 0 validators stakes chainID.

Definition syncedBlockRangeKey (blocks : list bytes) : arr 32 :=
  sha256_Sum256 (sha256_Sum256 (concat (map (fun block => put64 (zlen block) ++ block) blocks))).
End Validate.

(** A peer's answer to a request at an attempt. *)
Definition Peer : Type := nat -> Z -> Z -> res (list bytes).

Section CatchUp.
Context `{Platform} `{contract.Wasmtime} `{telemetry.Json} `{MapOrder} {B : Type} `{KV B}.
Context (chainID : bytes) (ncpu : Z) (iter : gset (arr 32) -> list (arr 32)).
Context (validators : list (arr 32)) (stakes : list Z).

(** A range some peers agree on, and how many. *)
Definition candidate : Type := list Block * Z.

Definition askPeer (attempt : nat) (from to : Z) (acc : gmap (arr 32) candidate * Z) (peer : Peer) :
    res (gmap (arr 32) candidate * Z) :=
  let '(candidates, candidateCount) := acc in
  match peer attempt from to with
  | Panic => Panic
  | Err _ => Ok acc
  | Ok rawBlocks =>
    if zlen rawBlocks =? 0 then Ok acc else
    let* decoded := validateSyncedBlocks rawBlocks from validators stakes chainID in
    match decoded with
    | None => Ok acc
    | Some decoded =>
      let key := syncedBlockRangeKey rawBlocks in
      let count := match candidates !! key with Some (_, c) => c | None => 0 end in
      Ok (<[key := (decoded, count + 1)]> candidates, candidateCount + 1)
    end
  end.

Definition bestCandidate (candidates : gmap (arr 32) candidate) : option (list Block) * Z :=
  foldl (fun '(selected, selectedCount) '(_, (blocks, count)) =>
           if count >? selectedCount then (Some blocks, count) else (selected, selectedCount))
    (None, 0) (map_iter candidates).

(** [Some] result of a pass, or the last number of candidates; [Err] when the context ends. *)
Fixpoint attempts (n attempt : nat) (ctxDone : nat -> bool) (peers : list Peer) (from to : Z) :
    res (option (list Block) * Z) :=
  match n with
  | O => Ok (None, 0)
  | S n =>
    let* '(candidates, candidateCount) := foldM (askPeer attempt from to) (∅, 0) peers in
    let '(selected, selectedCount) := bestCandidate candidates in
    match selected with
    | Some blocks =>
      if (candidateCount =? 1) || (selectedCount >=? 2) then Ok (Some blocks, candidateCount) else
      if Nat.ltb attempt 2 then
        if ctxDone attempt then failf "context done" else attempts n (S attempt) ctxDone peers from to
      else Ok (None, candidateCount)
    | None =>
      if Nat.ltb attempt 2 then
        if ctxDone attempt then failf "context done" else attempts n (S attempt) ctxDone peers from to
      else Ok (None, candidateCount)
    end
  end.

Fixpoint applyBlocks (db : DB B) (blocks : list Block) : DB B * res unit :=
  match blocks with
  | [] => (db, Ok tt)
  | block :: rest =>
    match statemachine.ApplyBlockForChain ncpu iter db block chainID with
    | (db, Ok _) => applyBlocks db rest
    | (db, Err e) => (db, Err e)
    | (db, Panic) => (db, Panic)
    end
  end.

(** One pass of the loop: [Ok true] continues. *)
Definition catchUpPass (db : DB B) (ctxDone : nat -> bool) (peers : list Peer) : DB B * res bool :=
  match statemachine.CurrentHeight db with
  | Err e => (db, Err e)
  | Panic => (db, Panic)
  | Ok current =>
    if current =? two64 - 1 then (db, Ok false) else
    if zlen peers =? 0 then (db, Ok false) else
    let from := wrap64 (current + 1) in
    let to := wrap64 (from + 1023) in
    let to := if to <? from then two64 - 1 else to in
    match attempts 3 0 ctxDone peers from to with
    | Err e => (db, Err e)
    | Panic => (db, Panic)
    | Ok (None, candidateCount) =>
      if candidateCount =? 0 then (db, Ok false) else (db, failf "connected peers did not agree on blocks")
    | Ok (Some selected, _) =>
      match applyBlocks db selected with
      | (db, Ok _) => if ctxDone 3%nat then (db, failf "context done") else (db, Ok true)
      | (db, Err e) => (db, Err e)
      | (db, Panic) => (db, Panic)
      end
    end
  end.

(** The loop, with the peers connected at each pass; [None] when [fuel] passes were
    not enough. *)
Fixpoint catchUpLoop (fuel pass : nat) (ctxDone : nat -> nat -> bool) (peers : nat -> list Peer) (db : DB B) :
    DB B * option (res unit) :=
  match fuel with
  | O => (db, None)
  | S fuel =>
    match catchUpPass db (ctxDone pass) (peers pass) with
    | (db, Ok true) => catchUpLoop fuel (S pass) ctxDone peers db
    | (db, Ok false) => (db, Some (Ok tt))
    | (db, Err e) => (db, Some (Err e))
    | (db, Panic) => (db, Some Panic)
    end
  end.
End CatchUp.

Definition catchUpCommittedBlocks `{Platform} `{contract.Wasmtime} `{telemetry.Json} `{MapOrder} {B} `{KV B}
    (chainID : bytes) (ncpu : Z) (iter : gset (arr 32) -> list (arr 32)) (fuel : nat) (ctxDone : nat -> nat -> bool)
    (peers : nat -> list Peer) (db : DB B) : DB B * option (res unit) :=
  match staking.BondedAmounts db with
  | Err e => (db, Some (Err e))
  | Panic => (db, Some Panic)
  | Ok (validators, stakes) => catchUpLoop chainID ncpu iter validators stakes fuel 0 ctxDone peers db
  end.
End catchup.

(** * cmd/frg-node: what catching up guarantees, and what stops it *)

Import vote blockstore catchup.

(** ** Validated ranges *)
Section Validate.
Context `{Platform}.
Context (validators : list (arr 32)) (stakes : list Z) (chainID : bytes).

(** A block that carries its proposal, signed by a bonded validator. *)
Definition proposed (b : Block) (p : BlockProposal) : Prop :=
  DeserializeProposal (ProposalBytes b) = Ok p /\ VerifyProposalForChain p chainID = Ok true /\
  ProposerPK p ∈ validators /\ PHeight p = Height b /\ ProposerPK p = ProposerPubKey b /\ PPrevStateRoot p = PrevStateRoot b /\
  Txs b <> [] /\ tx.SerializeBatch (PTxs p) = tx.SerializeBatch (Txs b) /\
  (AVotes (PrevAttestations p) = [] \/
   VerifyAttestationForChain (Some (PrevAttestations p)) validators (map Some stakes) chainID = Ok tt).

Lemma batch_nonempty txs d : tx.SerializeBatch txs = Ok d -> txs <> [].
Proof. by intros Hs ->. Qed.

Lemma checkSynced_sound raw height b :
  checkSynced raw height validators stakes chainID = Ok (Some b) ->
  DeserializeBlock raw = Ok b /\ Height b = height /\ exists p, proposed b p.
Proof.
  unfold checkSynced. intros Hc. destruct (DeserializeBlock raw) as [b'| |]; [|done..].
  case_match eqn:Eh; [done|]. destruct (DeserializeProposal (ProposalBytes b')) as [p| |] eqn:Ed; [|done..].
  apply obind_ok_inv in Hc as (signed & Hv & Hc). destruct signed; [|done]. cbn [negb] in Hc.
  case_match eqn:Eg; [done|].
  destruct (tx.SerializeBatch (PTxs p)) as [x| |] eqn:Ex, (tx.SerializeBatch (Txs b')) as [y| |] eqn:Ey; try done.
  case_match eqn:Exy; [done|]. bsimp. subst y.
  assert (b' = b /\ (AVotes (PrevAttestations p) = [] \/
    VerifyAttestationForChain (Some (PrevAttestations p)) validators (map Some stakes) chainID = Ok tt)) as [-> Ha].
  { destruct (zlen (AVotes (PrevAttestations p)) >? 0) eqn:Ez.
    - destruct (VerifyAttestationForChain _ _ _ _) as [[]| |]; [|done..]. apply Ok_inj in Hc. injection Hc as ->. auto.
    - apply Ok_inj in Hc. injection Hc as ->. split; [done|left]. bsimp.
      destruct (AVotes (PrevAttestations p)); [done|]. rewrite zlen_cons in *. pose proof (zlen_nonneg l). lia. }
  split_and!; try done. exists p. unfold proposed.
  split_and!; try done; [by apply dec_stable|by eapply batch_nonempty|by rewrite Ex, Ey].
Qed.

Lemma validateFrom_sound raws from i bs :
  validateFrom raws from i validators stakes chainID = Ok (Some bs) ->
  length bs = length raws /\
  Forall (fun b => exists p, proposed b p) bs /\
  forall k b, bs !! k = Some b -> Height b = wrap64 (from + wrap64 (i + Z.of_nat k)).
Proof.
  revert i bs. induction raws as [|raw raws IH]; intros i bs Hv; cbn [validateFrom] in Hv.
  { apply Ok_inj in Hv. injection Hv as <-. split_and!; [done|constructor|done]. }
  apply obind_ok_inv in Hv as ([b|] & Hc & Hv); [|done]. apply checkSynced_sound in Hc as (_ & Hh & Hp).
  apply obind_ok_inv in Hv as ([bs'|] & Hr & Hv); [|done]. apply Ok_inj in Hv. cbn in Hv. injection Hv as <-.
  apply IH in Hr as (Hl & Hf & Hk). split_and!; [cbn; lia|by constructor|].
  intros [|k] c Hc; cbn in Hc; [injection Hc as <-; by rewrite Hh, Z.add_0_r|].
  rewrite (Hk k c Hc). do 3 f_equal. lia.
Qed.

(** A range with an empty block is never accepted. *)
Lemma empty_block_rejected raw height b :
  DeserializeBlock raw = Ok b -> Txs b = [] -> DeserializeProposal (ProposalBytes b) <> Panic ->
  checkSynced raw height validators stakes chainID = Ok None.
Proof.
  intros Hd He Hp. unfold checkSynced. rewrite Hd. case_match; [done|].
  destruct (DeserializeProposal _) as [p| |]; [|done..]. destruct (sign_bytes_total p chainID) as [sb Hsb].
  unfold VerifyProposalForChain. rewrite Hsb. cbn [obind]. do 2 (case_match; [done|]).
  rewrite He. pose proof (SerializeBatch_no_panic (PTxs p)). by destruct (tx.SerializeBatch (PTxs p)).
Qed.
End Validate.

(** ** Catching up *)
Section CatchUp.
Context `{Platform} `{contract.Wasmtime} `{telemetry.Json} `{MapOrderLaws} {B : Type} `{KVLaws B}.
Context (chainID : bytes) (ncpu : Z) (iter : gset (arr 32) -> list (arr 32)).
Implicit Types (db : DB B).

(** A block applied on the word of its proposer. *)
Definition synced_step (validators : list (arr 32)) (stakes : list Z) db db' : Prop :=
  exists b p r, proposed validators stakes chainID b p /\
    statemachine.ApplyBlockForChain ncpu iter db b chainID = (db', Ok r).

Section Pass.
Context (validators : list (arr 32)) (stakes : list Z).

(** Whatever holds of every accepted answer holds of the range that is selected. *)
Section Selected.
Context (peers : list Peer) (from to : Z) (Q : list Block -> Prop).
Context (HQ : forall peer attempt raws bs, peer ∈ peers -> peer attempt from to = Ok raws -> raws <> [] ->
  validateSyncedBlocks raws from validators stakes chainID = Ok (Some bs) -> Q bs).

Definition good_candidates (cs : gmap (arr 32) candidate) : Prop := map_Forall (fun _ c => Q (fst c)) cs.

Lemma askPeer_good attempt acc peer acc' :
  peer ∈ peers -> good_candidates (fst acc) -> askPeer chainID validators stakes attempt from to acc peer = Ok acc' ->
  good_candidates (fst acc').
Proof.
  destruct acc as [cs n]. intros Hin Hc Ha. unfold askPeer in Ha.
  destruct (peer attempt from to) as [raws| |] eqn:Ep; [|by apply Ok_inj in Ha as <-|done].
  case_match eqn:Ez; [by apply Ok_inj in Ha as <-|]. apply obind_ok_inv in Ha as ([bs|] & Hv & Ha); apply Ok_inj in Ha as <-; [|done].
  apply map_Forall_insert_2; [|done]. apply (HQ peer attempt raws); try done. by intros ->.
Qed.

Lemma best_good cs bs n : good_candidates cs -> bestCandidate cs = (Some bs, n) -> Q bs.
Proof.
  intros Hc. unfold bestCandidate.
  assert (forall l acc, Forall (fun kv : arr 32 * candidate => Q (fst (snd kv))) l -> (forall bs, fst acc = Some bs -> Q bs) ->
    forall bs, fst (foldl (fun '(selected, selectedCount) '((_, (blocks, count)) : arr 32 * candidate) =>
      if count >? selectedCount then (Some blocks, count) else (selected, selectedCount)) acc l) = Some bs -> Q bs) as Hg.
  { induction l as [|[k [b c]] l IH]; intros [sel sc] Hl Hacc bs' Hb; [by apply Hacc|]. inversion Hl as [|? ? Hb' Hl']; subst.
    cbn [foldl] in Hb. case_match; (eapply IH in Hb; [done|done|]); [|done]. by intros ? [= <-]. }
  intros Hf. apply (Hg (map_iter cs) (None, 0)); [|done|exact (f_equal fst Hf)].
  rewrite map_iter_perm. apply Forall_forall. intros [k c] Hin%elem_of_map_to_list. by apply Hc in Hin.
Qed.

Lemma attempts_good n attempt ctxDone bs k :
  attempts chainID validators stakes n attempt ctxDone peers from to = Ok (Some bs, k) -> Q bs.
Proof.
  revert attempt. induction n as [|n IH]; intros attempt Ha; cbn [attempts] in Ha; [done|].
  apply obind_ok_inv in Ha as ([cs cnt] & Hf & Ha).
  assert (good_candidates cs) as Hcs.
  { apply (foldM_inv _ (fun acc : gmap (arr 32) candidate * Z => good_candidates (fst acc))) in Hf; [done| |apply map_Forall_empty].
    intros s t p Hp. by apply askPeer_good. }
  destruct (bestCandidate cs) as [[b|] c] eqn:Eb.
  - destruct (_ || _).
    + apply Ok_inj in Ha. injection Ha as <- <-. by apply best_good in Eb.
    + repeat case_match; try done. by eapply IH.
  - repeat case_match; try done. by eapply IH.
Qed.
End Selected.

Lemma applyBlocks_steps db bs db' r :
  Forall (fun b => exists p, proposed validators stakes chainID b p) bs ->
  applyBlocks chainID ncpu iter db bs = (db', r) -> rtc (synced_step validators stakes) db db'.
Proof.
  intros Hbs. revert db. induction Hbs as [|b bs [p Hp] _ IH]; intros db Ha; cbn [applyBlocks] in Ha; [by injection Ha as <- _|].
  pose proof (rejected_unchanged ncpu iter db b chainID) as Hrej.
  destruct (statemachine.ApplyBlockForChain ncpu iter db b chainID) as [db1 [x| |]] eqn:E; cbn in Hrej.
  - eapply rtc_l; [|by apply IH]. exists b, p, x. done.
  - injection Ha as <- _. by rewrite Hrej.
  - injection Ha as <- _. by rewrite Hrej.
Qed.

Lemma pass_steps db ctxDone peers db' r :
  catchUpPass chainID ncpu iter validators stakes db ctxDone peers = (db', r) -> rtc (synced_step validators stakes) db db'.
Proof.
  unfold catchUpPass. intros Hp. destruct (statemachine.CurrentHeight db); [|by injection Hp as <- _..].
  do 2 (case_match; [by injection Hp as <- _|]). cbv zeta in Hp.
  destruct (attempts _ _ _ _ _ _ _ _) as [[[bs|] k]| |] eqn:Ea; [|case_match; by injection Hp as <- _|by injection Hp as <- _..].
  assert (Forall (fun b => exists p, proposed validators stakes chainID b p) bs) as Hbs.
  { revert Ea. apply attempts_good. intros peer attempt raws bs' _ _ _ Hv. by apply validateFrom_sound in Hv as (_ & ? & _). }
  destruct (applyBlocks _ _ _ _ _) as [db1 r1] eqn:Eb.
  apply applyBlocks_steps in Eb; [|done]. destruct r1; [case_match|..]; by injection Hp as <- _.
Qed.

Lemma loop_steps fuel pass ctxDone peers db db' r :
  catchUpLoop chainID ncpu iter validators stakes fuel pass ctxDone peers db = (db', r) -> rtc (synced_step validators stakes) db db'.
Proof.
  revert pass db. induction fuel as [|fuel IH]; intros pass db Hl; cbn [catchUpLoop] in Hl; [by injection Hl as <- _|].
  destruct (catchUpPass _ _ _ _ _ _ _ _) as [db1 r1] eqn:Ep. apply pass_steps in Ep.
  destruct r1 as [[]| |]; [|by injection Hl as <- _..]. etransitivity; [done|by eapply IH].
Qed.
End Pass.

(** C16.  Catching up only appends proposed blocks.  Whatever peers answer, a node that
    catches up moves from its state by applying, one after the other, blocks
    at consecutive heights that a validator bonded at the start proposed and
    signed for this chain, with the same transactions and parent root; a block
    the state machine refuses changes nothing and ends the catch-up. *)
Theorem catchUp_applies_proposed fuel ctxDone peers db db' r :
  catchUpCommittedBlocks chainID ncpu iter fuel ctxDone peers db = (db', r) ->
  db' = db \/ exists validators stakes, staking.BondedAmounts db = Ok (validators, stakes) /\
    rtc (synced_step validators stakes) db db'.
Proof.
  unfold catchUpCommittedBlocks. destruct (staking.BondedAmounts db) as [[vs ss]| |]; intros Hc;
    [|by injection Hc as <- _; left..].
  right. exists vs, ss. split; [done|]. by eapply loop_steps.
Qed.

(** ** When no peer has anything to offer *)
Section Nothing.
Context (validators : list (arr 32)) (stakes : list Z).

Definition no_use (peer : Peer) (from to : Z) : Prop :=
  forall attempt acc, askPeer chainID validators stakes attempt from to acc peer = Ok acc.

Lemma best_empty : bestCandidate ∅ = (None, 0).
Proof.
  unfold bestCandidate. replace (map_iter (∅ : gmap (arr 32) candidate)) with (@nil (arr 32 * candidate)); [done|].
  symmetry. apply Permutation_nil. by rewrite map_iter_perm, map_to_list_empty.
Qed.

Lemma ask_nothing attempt peers from to acc :
  Forall (fun peer => no_use peer from to) peers -> foldM (askPeer chainID validators stakes attempt from to) acc peers = Ok acc.
Proof. induction 1 as [|peer peers Hp _ IH]; [done|]. cbn [foldM]. by rewrite Hp. Qed.

Lemma attempts_nothing n attempt ctxDone peers from to :
  Forall (fun peer => no_use peer from to) peers ->
  attempts chainID validators stakes n attempt ctxDone peers from to = Ok (None, 0) \/
  attempts chainID validators stakes n attempt ctxDone peers from to = failf "context done" /\ exists k, ctxDone k = true.
Proof.
  intros Hp. revert attempt. induction n as [|n IH]; intros attempt; cbn [attempts]; [by left|].
  rewrite ask_nothing by done. cbn [obind]. rewrite best_empty.
  destruct (Nat.ltb attempt 2); [|by left]. destruct (ctxDone attempt) eqn:Ec; [right; eauto|apply IH].
Qed.

Lemma pass_nothing db ctxDone peers cur :
  statemachine.CurrentHeight db = Ok cur ->
  (forall to, Forall (fun peer => no_use peer (wrap64 (cur + 1)) to) peers) -> (forall k, ctxDone k = false) ->
  catchUpPass chainID ncpu iter validators stakes db ctxDone peers = (db, Ok false).
Proof.
  intros Hc Hp Hd. unfold catchUpPass. rewrite Hc. do 2 (case_match; [done|]). cbv zeta.
  match goal with |- context [attempts _ _ _ 3 0 ctxDone peers ?f ?t] =>
    destruct (attempts_nothing 3 0 ctxDone peers f t (Hp t)) as [->|[_ [k Hk]]] end; [done|].
  by rewrite Hd in Hk.
Qed.
End Nothing.

(** An answer whose first block is empty. *)
Definition starts_empty (answer : res (list bytes)) : Prop :=
  match answer with
  | Ok (raw :: _) => exists b, DeserializeBlock raw = Ok b /\ Txs b = [] /\ DeserializeProposal (ProposalBytes b) <> Panic
  | Ok [] | Err _ => True
  | Panic => False
  end.

Lemma starts_empty_no_use vs ss peer from to :
  (forall attempt, starts_empty (peer attempt from to)) -> no_use vs ss peer from to.
Proof.
  intros Hp attempt [cs n]. unfold askPeer. specialize (Hp attempt).
  destruct (peer attempt from to) as [[|raw raws]| |]; [done| |done|done]. destruct Hp as (b & Hd & He & Hn).
  rewrite zlen_cons. pose proof (zlen_nonneg raws). rewrite (proj2 (Z.eqb_neq _ _)) by lia.
  unfold validateSyncedBlocks. cbn [validateFrom]. by rewrite (empty_block_rejected _ _ _ raw _ b Hd He Hn).
Qed.

(** An empty block stops every node that is behind it.  When the next block of the chain
    has no transactions, as every block proposed from an empty pool, no
    answer to a request is accepted, however many peers give it: the catch-up
    reports success and leaves the node where it was. *)
Theorem empty_block_stops_sync fuel ctxDone peers db cur vs ss :
  staking.BondedAmounts db = Ok (vs, ss) -> statemachine.CurrentHeight db = Ok cur ->
  (forall k, ctxDone 0%nat k = false) ->
  Forall (fun peer => forall attempt to, starts_empty (peer attempt (wrap64 (cur + 1)) to)) (peers 0%nat) ->
  catchUpCommittedBlocks chainID ncpu iter (S fuel) ctxDone peers db = (db, Some (Ok tt)).
Proof.
  intros Hb Hc Hd Hp. unfold catchUpCommittedBlocks. rewrite Hb. cbn [catchUpLoop].
  rewrite (pass_nothing vs ss db (ctxDone 0%nat) (peers 0%nat) cur); [done|done| |done].
  intros to. eapply Forall_impl; [exact Hp|]. intros peer He. apply starts_empty_no_use. auto.
Qed.

(** ** The catch-up ends *)
Section Ends.
Context (validators : list (arr 32)) (stakes : list Z).

Lemma height_range db cur : statemachine.CurrentHeight db = Ok cur -> is_u64 cur.
Proof.
  unfold statemachine.CurrentHeight. destruct (kv_Get _ _); [|by intros [= <-]].
  intros Hu%be_at_range. unfold is_u64, two64. lia.
Qed.

Lemma applyBlocks_height db bs db' cur :
  statemachine.CurrentHeight db = Ok cur -> cur < two64 - 1 -> bs <> [] -> applyBlocks chainID ncpu iter db bs = (db', Ok tt) ->
  Forall (fun b => cur < Height b) bs -> exists cur', statemachine.CurrentHeight db' = Ok cur' /\ cur < cur'.
Proof.
  intros Hc Hm Hne Ha Hall. destruct bs as [|b bs]; [done|]. clear Hne. cbn [applyBlocks] in Ha.
  destruct (statemachine.ApplyBlockForChain ncpu iter db b chainID) as [db1 [x| |]] eqn:E; [|done..].
  apply applied_height in E as (c & Hc' & Hh & Hc1). rewrite Hc in Hc'. injection Hc' as <-.
  apply Forall_cons in Hall as [Hb Hall]. assert (cur < Height b) as Hlt by done. clear Hb Hh Hc. revert db1 b Hc1 Hlt Ha.
  induction bs as [|b' bs IH]; intros db1 b Hc1 Hlt Ha; cbn [applyBlocks] in Ha; [injection Ha as <-; eauto|].
  destruct (statemachine.ApplyBlockForChain ncpu iter db1 b' chainID) as [db2 [x'| |]] eqn:E; [|done..].
  apply applied_height in E as (c & _ & _ & Hc2). apply Forall_cons in Hall as [Hb' Hall].
  by eapply (IH Hall db2 b').
Qed.

(** A peer whose chain ends at height [top]. *)
Definition ends_at (top : Z) (peer : Peer) : Prop :=
  forall attempt from to raws, peer attempt from to = Ok raws -> raws = [] \/ from + zlen raws <= top + 1.

(** A pass that goes on has advanced the height, and was below the top. *)
Lemma pass_progress top db ctxDone peers cur db' :
  top < two64 - 1 -> Forall (ends_at top) peers -> statemachine.CurrentHeight db = Ok cur ->
  catchUpPass chainID ncpu iter validators stakes db ctxDone peers = (db', Ok true) ->
  cur < top /\ exists cur', statemachine.CurrentHeight db' = Ok cur' /\ cur < cur'.
Proof.
  intros Htop Hp Hc Hpass. pose proof (height_range db cur Hc) as [Hc0 Hc1]. unfold catchUpPass in Hpass. rewrite Hc in Hpass.
  case_match eqn:Em; [done|]. apply Z.eqb_neq in Em. case_match; [done|]. cbv zeta in Hpass.
  assert (wrap64 (cur + 1) = cur + 1) as Hw by (apply Z.mod_small; lia). rewrite Hw in Hpass.
  match type of Hpass with context [attempts _ _ _ _ _ _ _ _ ?t] => set (to := t) in Hpass end.
  destruct (attempts _ _ _ _ _ _ _ _) as [[[bs|] k]| |] eqn:Ea; [|by case_match|done..].
  assert (bs <> [] /\ cur < top /\ Forall (fun b => cur < Height b) bs) as (Hne & Hlt & Hall).
  { revert Ea. apply (attempts_good validators stakes peers (cur + 1) to (fun bs => bs <> [] /\ cur < top /\ Forall (fun b => cur < Height b) bs)).
    intros peer attempt raws bs' Hin Hans Hne Hv.
    apply validateFrom_sound in Hv as (Hl & _ & Hh).
    assert (0 < zlen raws) as Hpos by (destruct raws; [done|rewrite zlen_cons; pose proof (zlen_nonneg raws); lia]).
    rewrite Forall_forall in Hp. destruct (Hp peer Hin _ _ _ _ Hans) as [->|Hend]; [done|].
    split_and!; [intros ->; cbn in Hl; destruct raws; done|lia|].
    apply Forall_forall. intros b [i Hi]%list_elem_of_lookup. rewrite (Hh i b Hi).
    assert (Z.of_nat i < zlen raws) as Hil by (unfold zlen; rewrite <- Hl; apply lookup_lt_Some in Hi; lia).
    unfold wrap64. rewrite (Z.mod_small (0 + Z.of_nat i)), Z.mod_small by lia. lia. }
  split; [done|]. destruct (applyBlocks _ _ _ _ _) as [db1 [[]| |]] eqn:Eb; [|done..].
  case_match; [done|]. injection Hpass as <-. apply (applyBlocks_height db bs db1 cur); try done. lia.
Qed.

Lemma loop_ends top fuel pass ctxDone peers db cur :
  top < two64 - 1 -> (forall pass, Forall (ends_at top) (peers pass)) -> statemachine.CurrentHeight db = Ok cur ->
  (Z.to_nat (top - cur) < fuel)%nat ->
  exists r, snd (catchUpLoop chainID ncpu iter validators stakes fuel pass ctxDone peers db) = Some r.
Proof.
  intros Htop Hp. revert pass db cur. induction fuel as [|fuel IH]; intros pass db cur Hc Hf; [lia|]. cbn [catchUpLoop].
  destruct (catchUpPass _ _ _ _ _ _ _ _) as [db1 r1] eqn:Ep. destruct r1 as [[]| |]; [|by eexists..].
  apply (pass_progress top _ _ _ cur) in Ep as (Hlt & cur' & Hc' & Hgt); try done. apply (IH _ _ cur'); [done|lia].
Qed.
End Ends.

(** C23.  The catch-up ends.  If no peer ever serves a block above some height, the loop returns
    after at most as many passes as the node is below it, and one. *)
Theorem catchUp_terminates top fuel ctxDone peers db cur :
  top < two64 - 1 -> (forall pass, Forall (ends_at top) (peers pass)) -> statemachine.CurrentHeight db = Ok cur ->
  (Z.to_nat (top - cur) < fuel)%nat ->
  exists r, snd (catchUpCommittedBlocks chainID ncpu iter fuel ctxDone peers db) = Some r.
Proof.
  intros Htop Hp Hc Hf. unfold catchUpCommittedBlocks. destruct (staking.BondedAmounts db) as [[vs ss]| |]; [|by eexists..].
  by apply (loop_ends vs ss top _ _ _ _ _ cur).
Qed.

(** ** Peers that disagree *)

(** A peer that always gives the same answer. *)
Definition steady (answer : list bytes) : Peer := fun _ _ _ => Ok answer.

Lemma ask_two vs ss attempt from to r1 r2 b1 b2 :
  r1 <> [] -> r2 <> [] -> syncedBlockRangeKey r1 <> syncedBlockRangeKey r2 ->
  validateSyncedBlocks r1 from vs ss chainID = Ok (Some b1) -> validateSyncedBlocks r2 from vs ss chainID = Ok (Some b2) ->
  exists cs, foldM (askPeer chainID vs ss attempt from to) (∅, 0) [steady r1; steady r2] = Ok (cs, 2) /\
    forall k c, cs !! k = Some c -> snd c = 1.
Proof.
  intros Hn1 Hn2 Hk Hv1 Hv2. eexists. unfold steady, askPeer. cbn [foldM].
  assert (forall r : list bytes, r <> [] -> (zlen r =? 0) = false) as Hz.
  { intros [|x r] Hr; [done|]. rewrite zlen_cons. pose proof (zlen_nonneg r). apply Z.eqb_neq. lia. }
  rewrite !Hz, Hv1 by done. cbn [obind]. rewrite Hv2. cbn [obind].
  rewrite lookup_empty, lookup_insert_ne, lookup_empty by done. split; [reflexivity|].
  intros k c. rewrite !lookup_insert_Some. intros [[_ <-]|[_ [[_ <-]|[_ Hc]]]]; [done..|by rewrite lookup_empty in Hc].
Qed.

Lemma best_ones (cs : gmap (arr 32) candidate) : (forall k c, cs !! k = Some c -> snd c = 1) -> snd (bestCandidate cs) <= 1.
Proof.
  intros Hc. unfold bestCandidate.
  assert (forall l acc, Forall (fun kv : arr 32 * candidate => snd (snd kv) = 1) l -> snd acc <= 1 ->
    snd (foldl (fun '(selected, selectedCount) '((_, (blocks, count)) : arr 32 * candidate) =>
      if count >? selectedCount then (Some blocks, count) else (selected, selectedCount)) acc l) <= 1) as Hg.
  { induction l as [|[k [b c]] l IH]; intros [sel sc] Hl Hacc; [done|]. inversion Hl as [|? ? Hb' Hl']; subst. cbn in Hb'.
    cbn [foldl]. case_match; apply IH; try done; cbn; lia. }
  apply (Hg (map_iter cs) (None, 0)); [|cbn; lia]. rewrite map_iter_perm. apply Forall_forall.
  intros [k c] Hin%elem_of_map_to_list. by eapply Hc.
Qed.

(** Two correct peers are not enough when one is ahead.  If two peers give different
    valid ranges, as they do when one has a block more than the other, the
    catch-up ends with an error and applies nothing; the node exits on it. *)
Theorem peers_apart_stop_sync vs ss db ctxDone r1 r2 b1 b2 cur :
  statemachine.CurrentHeight db = Ok cur -> (cur =? two64 - 1) = false -> (forall k, ctxDone k = false) ->
  r1 <> [] -> r2 <> [] -> syncedBlockRangeKey r1 <> syncedBlockRangeKey r2 ->
  validateSyncedBlocks r1 (wrap64 (cur + 1)) vs ss chainID = Ok (Some b1) ->
  validateSyncedBlocks r2 (wrap64 (cur + 1)) vs ss chainID = Ok (Some b2) ->
  catchUpPass chainID ncpu iter vs ss db ctxDone [steady r1; steady r2] =
    (db, failf "connected peers did not agree on blocks").
Proof.
  intros Hc Hm Hd Hn1 Hn2 Hk Hv1 Hv2. unfold catchUpPass. rewrite Hc, Hm.
  change (zlen [steady r1; steady r2] =? 0) with false. cbv zeta iota.
  match goal with |- context [attempts _ _ _ 3 0 ctxDone _ ?f ?t] =>
    assert (forall n attempt, (n + attempt = 3)%nat -> (0 < n)%nat ->
      attempts chainID vs ss n attempt ctxDone [steady r1; steady r2] f t = Ok (None, 2)) as Ha end.
  { induction n as [|n IH]; intros attempt Hn Hpos; [lia|]. cbn [attempts].
    match goal with |- context [foldM (askPeer _ _ _ attempt ?f ?t)] =>
      destruct (ask_two vs ss attempt f t r1 r2 b1 b2 Hn1 Hn2 Hk Hv1 Hv2) as (cs & -> & Hone) end.
    cbn [obind]. pose proof (best_ones cs Hone) as Hb. destruct (bestCandidate cs) as [sel c]. cbn [snd] in Hb.
    change (2 =? 1) with false. cbn [orb]. rewrite Z.geb_leb, (proj2 (Z.leb_gt _ _)) by lia.
    destruct (Nat.ltb_spec attempt 2).
    - rewrite Hd, IH by lia. by destruct sel.
    - by destruct sel. }
  by rewrite Ha by lia.
Qed.
End CatchUp.

(** ** Complete and forged blocks *)
Section Forge.
Context `{PlatformLaws}.
Context (validators : list (arr 32)) (stakes : list Z) (chainID : bytes).

(** A block with its own signed proposal is accepted. *)
Lemma checkSynced_complete p sroot pd raw :
  let b := mkBlock (PHeight p) (PTxs p) (ProposerPK p) (PPrevStateRoot p) sroot pd in
  proposal_wf p -> 0 < zlen (PTxs p) < tx.maxBatchTxs -> VerifyProposalForChain p chainID = Ok true ->
  ProposerPK p ∈ validators ->
  (AVotes (PrevAttestations p) = [] \/
   VerifyAttestationForChain (Some (PrevAttestations p)) validators (map Some stakes) chainID = Ok tt) ->
  SerializeProposal p = Ok pd -> SerializeBlock b = Ok raw ->
  checkSynced raw (PHeight p) validators stakes chainID = Ok (Some (canonBlock b)).
Proof.
  intros b Hw Hn Hv Hin Ha Hs Hb.
  assert (deserializeBlock raw = Ok (canonBlock b)) as Hdb.
  { apply block_roundtrip; [|cbn; lia|done]. split; [apply Hw|]. apply Hw. }
  unfold checkSynced. unfold DeserializeBlock. rewrite Hdb. cbn [canonBlock Height b negb]. rewrite Z.eqb_refl. cbn [negb].
  cbn [ProposalBytes canonBlock b]. rewrite (proposal_roundtrip p pd Hw (proj2 Hn) Hs).
  unfold SerializeProposal in Hs. apply obind_ok_inv in Hs as (body & Hbody & _).
  unfold VerifyProposalForChain in *. rewrite (sign_bytes_canon p body chainID Hbody).
  cbn [canonProposal ProposerPK ProposerSig]. rewrite Hv. cbn [obind negb].
  cbn [PHeight canonProposal PPrevStateRoot canonBlock b ProposerPubKey PrevStateRoot PTxs Txs PrevAttestations].
  rewrite Z.eqb_refl, !bool_decide_eq_false_2 by tauto. cbn [negb orb].
  apply serializeProposalBody_inv in Hbody as (batch & [[Hnil _]|[_ Hbatch]] & _).
  { rewrite Hnil in Hn. change (zlen (@nil tx.Tx)) with 0 in Hn. lia. }
  rewrite (SerializeBatch_canon _ _ Hbatch), bool_decide_eq_false_2 by tauto.
  destruct Ha as [->|Ha]; [done|]. rewrite Ha. by case_match.
Qed.

(** One validator can make history.  Any bonded validator can sign a proposal for the
    next height with transactions of its choice and no attestation; the block
    made of it passes the validation of synced blocks, although no other
    validator has voted for it. *)
Theorem lone_validator_forges_block kp h root sroot txs pd raw :
  keys.generated kp -> keys.PublicKey kp ∈ validators -> is_u64 h -> Forall tx.wf txs -> 0 < zlen txs < tx.maxBatchTxs ->
  let unsigned := mkBlockProposal h 0 (keys.PublicKey kp) root txs emptyAttestation (zero_arr 64) in
  forall body, ProposalSignBytesForChain unsigned chainID = Ok body ->
  let p := mkBlockProposal h 0 (keys.PublicKey kp) root txs emptyAttestation (keys.Sign kp body) in
  let b := mkBlock h txs (keys.PublicKey kp) root sroot pd in
  SerializeProposal p = Ok pd -> SerializeBlock b = Ok raw ->
  validateSyncedBlocks [raw] h validators stakes chainID = Ok (Some [canonBlock b]).
Proof.
  intros Hg Hin Hh Hw Hn unsigned body Hbody p b Hs Hb.
  assert (VerifyProposalForChain p chainID = Ok true) as Hv.
  { unfold VerifyProposalForChain. change (ProposalSignBytesForChain p chainID) with (ProposalSignBytesForChain unsigned chainID).
    rewrite Hbody. cbn [obind p ProposerPK ProposerSig]. f_equal. by apply keys.Verify_Sign. }
  unfold validateSyncedBlocks. cbn [validateFrom].
  replace (wrap64 (h + wrap64 0)) with h by (unfold wrap64; rewrite Z.mod_0_l, Z.add_0_r by done; symmetry; by apply Z.mod_small).
  pose proof (checkSynced_complete p sroot pd raw) as Hc. cbv zeta in Hc.
  cbn [p PHeight PTxs ProposerPK PPrevStateRoot PrevAttestations] in Hc. fold b in Hc.
  rewrite Hc; try done. by left.
Qed.
End Forge.
