(* ===== verification/Gossip.v ===== *)
(** * core/p2p: gossip (p2p.go)

    Publishing and delivery are libp2p's: a broadcast is the topic and the
    bytes it hands over, a delivery is one message of a subscription.  A Go
    channel is the list of the values in it with a capacity; a send that would
    block is dropped, as in the code's [select] with a default. *)

From S2P Require Import Prelude GoBytes Errors Platform Tx TxProofs BatchProofs RoundProofs.

Module p2p.

Definition topicTxSuffix : bytes := str "/tx/v1".
Definition topicBatchSuffix : bytes := str "/batch/v1".
Definition topicBlockSuffix : bytes := str "/block/v1".
Definition topicVoteSuffix : bytes := str "/vote/v1".
Definition defaultChainID : bytes := str "frg-mainnet-1".
Definition maxGossipBatchBytes : Z := tx.MaxBatchBytes.
Definition maxGossipBlockBytes : Z := Z.shiftl 64 20.
Definition maxGossipVoteBytes : Z := 141.

Record Config : Type := mkConfig { ListenAddr : bytes; BootstrapPeers : list bytes; ChainID : bytes; EnableMDNS : bool }.

Definition chainID (c : Config) : bytes := if decide (ChainID c = []) then defaultChainID else ChainID c.

Definition topicTx (c : Config) : bytes := str "frg/" ++ chainID c ++ topicTxSuffix.
Definition topicBatch (c : Config) : bytes := str "frg/" ++ chainID c ++ topicBatchSuffix.
Definition topicBlock (c : Config) : bytes := str "frg/" ++ chainID c ++ topicBlockSuffix.
Definition topicVote (c : Config) : bytes := str "frg/" ++ chainID c ++ topicVoteSuffix.

(** The channels between the subscriptions and the rest of the node. *)
Record Node : Type := mkNode
  { cfg : Config;
    txCh : list tx.Tx;
    blockCh : list bytes;
    voteCh : list bytes }.

Definition txChCap : Z := 16384.
Definition blockChCap : Z := 16.
Definition voteChCap : Z := 1024.

(** What [New] makes of a configuration. *)
Definition New (c : Config) : Node :=
  mkNode (mkConfig (ListenAddr c) (BootstrapPeers c) (chainID c) (EnableMDNS c)) [] [] [].

(** [select { case ch <- x: default: }] *)
Definition offer {A} (cap : Z) (ch : list A) (x : A) : list A := if zlen ch <? cap then ch ++ [x] else ch.

Definition offerTx (n : Node) (t : tx.Tx) : Node := mkNode (cfg n) (offer txChCap (txCh n) t) (blockCh n) (voteCh n).

Section Ops.
Context `{Platform}.

Definition parseTxForChain (data : bytes) (chainID : bytes) : res tx.Tx :=
  let* t := tx.Deserialize data in
  let* _ := tx.VerifySigsForChain t chainID in
  Ok t.

Definition parseTx (data : bytes) : res tx.Tx := parseTxForChain data tx.DefaultChainID.

(** ** Delivered messages *)
Definition readTx (n : Node) (data : bytes) : res Node :=
  if zlen data >? tx.MaxSerializedBytes then Ok n else
  match parseTxForChain data (chainID (cfg n)) with
  | Ok t => Ok (offerTx n t)
  | Err _ => Ok n
  | Panic => Panic
  end.

Definition offerVerified (n : Node) (t : tx.Tx) : res Node :=
  match tx.VerifySigsForChain t (chainID (cfg n)) with
  | Ok _ => Ok (offerTx n t)
  | Err _ => Ok n
  | Panic => Panic
  end.

Definition readBatch (n : Node) (data : bytes) : res Node :=
  if zlen data >? maxGossipBatchBytes then Ok n else
  match tx.DeserializeBatch data with
  | Ok txs => foldM offerVerified n txs
  | Err _ => Ok n
  | Panic => Panic
  end.

Definition readBlock (n : Node) (data : bytes) : res Node :=
  if zlen data >? maxGossipBlockBytes then Ok n else
  Ok (mkNode (cfg n) (txCh n) (offer blockChCap (blockCh n) data) (voteCh n)).

Definition readVote (n : Node) (data : bytes) : res Node :=
  if negb (zlen data =? maxGossipVoteBytes) then Ok n else
  Ok (mkNode (cfg n) (txCh n) (blockCh n) (offer voteChCap (voteCh n) data)).

(** ** Broadcasts: the topic and the message handed to the network *)
Definition BroadcastTx (n : Node) (t : tx.Tx) : res (bytes * bytes) :=
  let* b := tx.Serialize t in Ok (topicTx (cfg n), b).

Definition BroadcastBatch (n : Node) (txs : list tx.Tx) : res (bytes * bytes) :=
  let* b := tx.SerializeBatch txs in Ok (topicBatch (cfg n), b).

Definition BroadcastBlockHeader (n : Node) (header : bytes) : res (bytes * bytes) :=
  if zlen header >? maxGossipBlockBytes then failf "block header exceeds 67108864 bytes" else
  Ok (topicBlock (cfg n), header).

Definition BroadcastVote (n : Node) (vote : bytes) : res (bytes * bytes) := Ok (topicVote (cfg n), vote).

(** A message on a topic reaches the reader that subscribed to it. *)
Definition deliver (n : Node) (msg : bytes * bytes) : res Node :=
  let '(topic, data) := msg in
  if bool_decide (topic = topicTx (cfg n)) then readTx n data else
  if bool_decide (topic = topicBatch (cfg n)) then readBatch n data else
  if bool_decide (topic = topicBlock (cfg n)) then readBlock n data else
  if bool_decide (topic = topicVote (cfg n)) then readVote n data else Ok n.
End Ops.

(** Receiving from the channels. *)
Definition recvTx (n : Node) : option (tx.Tx * Node) :=
  match txCh n with t :: r => Some (t, mkNode (cfg n) r (blockCh n) (voteCh n)) | [] => None end.
Definition recvBlock (n : Node) : option (bytes * Node) :=
  match blockCh n with b :: r => Some (b, mkNode (cfg n) (txCh n) r (voteCh n)) | [] => None end.
Definition recvVote (n : Node) : option (bytes * Node) :=
  match voteCh n with v :: r => Some (v, mkNode (cfg n) (txCh n) (blockCh n) r) | [] => None end.
End p2p.

(** * core/p2p: what gossip lets through *)

Import p2p.

Section Gossip.
Context `{PlatformLaws}.
Implicit Types (n : Node).

(** What every channel holds. *)
Record channels_ok n : Prop :=
  { ch_tx : Forall (fun t => tx.VerifySigsForChain t (chainID (cfg n)) = Ok tt) (txCh n);
    ch_tx_cap : zlen (txCh n) <= txChCap;
    ch_block : Forall (fun d => zlen d <= maxGossipBlockBytes) (blockCh n);
    ch_block_cap : zlen (blockCh n) <= blockChCap;
    ch_vote : Forall (fun d => zlen d = maxGossipVoteBytes) (voteCh n);
    ch_vote_cap : zlen (voteCh n) <= voteChCap }.

Lemma offer_Forall {A} (P : A -> Prop) cap ch x : Forall P ch -> P x -> Forall P (offer cap ch x).
Proof. intros Hc Hx. unfold offer. case_match; [|done]. apply Forall_app. split; [done|by constructor]. Qed.

Lemma offer_cap {A} cap (ch : list A) x : zlen ch <= cap -> zlen (offer cap ch x) <= cap.
Proof. intros Hc. unfold offer. case_match; [|done]. bsimp. rewrite zlen_app, zlen_one. lia. Qed.

Lemma offerVerified_ok n t n' : channels_ok n -> offerVerified n t = Ok n' -> channels_ok n' /\ cfg n' = cfg n.
Proof.
  intros [] Ho. unfold offerVerified in Ho. destruct (tx.VerifySigsForChain t _) as [[]| |] eqn:Ev; [|by apply Ok_inj in Ho as <-|done].
  apply Ok_inj in Ho as <-. split; [|done]. constructor; cbn; auto using offer_Forall, offer_cap.
Qed.

Lemma readTx_offer n data :
  readTx n data = if zlen data >? tx.MaxSerializedBytes then Ok n else
    match tx.Deserialize data with Ok t => offerVerified n t | Err _ => Ok n | Panic => Panic end.
Proof.
  unfold readTx, offerVerified, parseTxForChain. case_match; [done|]. destruct (tx.Deserialize data) as [t| |]; [|done..].
  cbn [obind]. by destruct (tx.VerifySigsForChain t _) as [[]| |].
Qed.

Lemma deliver_ok n msg n' : channels_ok n -> deliver n msg = Ok n' -> channels_ok n' /\ cfg n' = cfg n.
Proof.
  intros Hn Hd. destruct msg as [topic data]. unfold deliver in Hd. case_match; [|case_match; [|case_match; [|case_match]]].
  - rewrite readTx_offer in Hd. case_match; [by apply Ok_inj in Hd as <-|].
    destruct (tx.Deserialize data); [by eapply offerVerified_ok|by apply Ok_inj in Hd as <-|done].
  - unfold readBatch in Hd. case_match; [by apply Ok_inj in Hd as <-|].
    destruct (tx.DeserializeBatch data) as [txs| |]; [|by apply Ok_inj in Hd as <-|done].
    apply (foldM_inv offerVerified (fun m => channels_ok m /\ cfg m = cfg n)) in Hd; [done| |done].
    intros m m' t _ [Hm Hc] Ho. apply offerVerified_ok in Ho as [? Hc']; [|done]. split; [done|congruence].
  - unfold readBlock in Hd. case_match; apply Ok_inj in Hd as <-; [done|]. bsimp. split; [|done].
    destruct Hn. constructor; cbn; auto using offer_cap. by apply offer_Forall.
  - unfold readVote in Hd. case_match; apply Ok_inj in Hd as <-; [done|]. bsimp. split; [|done].
    destruct Hn. constructor; cbn; auto using offer_cap. by apply offer_Forall.
  - by apply Ok_inj in Hd as <-.
Qed.

(** Only signed transactions get past gossip.  Whatever peers send, on whatever topics
    and in whatever order, the channels a node reads from hold only
    transactions with a valid signature for its chain, blocks of at most
    64 MiB and votes of exactly 141 bytes, and never more than their capacity. *)
Theorem gossip_filters c msgs n :
  foldM deliver (New c) msgs = Ok n -> channels_ok n /\ cfg n = cfg (New c).
Proof.
  intros Hf. apply (foldM_inv deliver (fun m => channels_ok m /\ cfg m = cfg (New c))) in Hf; [done| |].
  - intros m m' msg _ [Hm Hc] Hd. apply deliver_ok in Hd as [? Hc']; [|done]. split; [done|congruence].
  - split; [|done]. constructor; cbn; try constructor; done.
Qed.

Lemma offer_room {A} cap (ch : list A) x : zlen ch < cap -> offer cap ch x = ch ++ [x].
Proof. intros Hc. unfold offer. by rewrite (proj2 (Z.ltb_lt _ _)). Qed.

(** A signed transaction travels.  What one node broadcasts, a node of the same chain
    with room in its channel receives as the same transaction in canonical
    form, unless it is not validly signed, and then it is dropped. *)
Theorem gossip_roundtrip sender receiver t msg :
  tx.wf t -> chainID (cfg sender) = chainID (cfg receiver) -> zlen (txCh receiver) < txChCap ->
  BroadcastTx sender t = Ok msg -> tx.VerifySigsForChain t (chainID (cfg receiver)) = Ok tt ->
  deliver receiver msg = Ok (mkNode (cfg receiver) (txCh receiver ++ [canon t]) (blockCh receiver) (voteCh receiver)).
Proof.
  intros Hw Hc Hroom Hb Hv. unfold BroadcastTx in Hb. apply obind_ok_inv in Hb as (d & Hd & <-%Ok_inj).
  unfold deliver, topicTx. rewrite Hc, bool_decide_eq_true_2 by done. rewrite readTx_offer.
  assert (zlen d <= tx.MaxSerializedBytes) as Hz.
  { unfold tx.Serialize in Hd. osteps Hd. bsimp. simplify_eq. rewrite !zlen_app, !zlen_arr. unfold tx.MaxSerializedBytes. lia. }
  rewrite Z.gtb_ltb, (proj2 (Z.ltb_ge _ _)) by done. rewrite (tx_roundtrip t d Hw Hd).
  unfold offerVerified. rewrite (VerifySigs_canon t _ Hv). unfold offerTx. by rewrite offer_room.
Qed.
End Gossip.

Section Crash.
Context `{Platform}.

(** A transaction whose sender name runs to the end of the message. *)
Definition truncated : bytes := hash.DomainTx ++ [x01] ++ put16 278 ++ replicate 278 x00.

Lemma truncated_panics : tx.Deserialize truncated = Panic.
Proof. vm_compute. reflexivity. Qed.

(** One message stops the network.  There is a message of 287 bytes, the same for
    every chain and every state, that makes each node to which it is
    delivered panic; no key is needed to make it. *)
Theorem gossip_crash :
  exists data, zlen data = 287 /\ forall n, deliver n (topicTx (cfg n), data) = Panic.
Proof.
  exists truncated. split; [done|]. intros n. unfold deliver. rewrite bool_decide_eq_true_2 by done.
  unfold readTx, parseTxForChain. change (zlen truncated >? tx.MaxSerializedBytes) with false. cbv iota.
  by rewrite truncated_panics.
Qed.
End Crash.
