(* ===== verification/Rpc.v ===== *)
(** * cmd/frg-node: the gRPC server (authorization.go, grpc_server.go, part of main.go)

    A call comes with what the code reads from its context: the client's
    credentials, its address, and whether the context has ended each time the
    code asks.  Time is in nanoseconds.  Counters of the metrics are kept;
    the protobuf messages are their fields. *)

From S2P Require Import Prelude GoBytes Errors Platform Hex Tx KV Denom Ledger Staking Gas Mint Node Tree Contract BlockStore Telemetry.
From S2P Require Import StateMachine Vote BlockLoop Round Engine Gossip Float64.

(** The telemetry messages of src/proto/frg.proto. *)
Module frgpb.
Record SignatureCount : Type := mkSignatureCount { sc_signature : Z; sc_name : bytes; sc_count : Z }.

Record RGLevelTelemetry : Type := mkLevel
  { level : Z; scale : Z; node_count : Z; signature_counts : list SignatureCount; contract_density : float64.t;
    volatile_regions : list Z; stagnant_regions : list Z; total_volume : bytes; level_variance : bytes;
    contract_tx_count : Z; contract_node_count : Z }.

Record TxTypeCount : Type := mkTxTypeCount { tt_type : Z; tt_name : bytes; tt_count : Z }.

Record BlockTelemetryResponse : Type := mkBlockTelemetryResponse
  { height : Z; state_root : bytes; proposer_pubkey : bytes; tx_count : Z; total_value : bytes; mean_value : bytes;
    variance : bytes; tx_types : list TxTypeCount; levels : list RGLevelTelemetry; contract_state_included : bool;
    warning : bytes }.
End frgpb.

Module rpc.

(** ** Roles *)
Inductive rpcRole : Type := roleAdmin | roleSubmitter | roleObserver | roleValidator.

#[export] Instance rpcRole_eq_dec : EqDecision rpcRole.
Proof. solve_decision. Defined.

Definition roleName (r : rpcRole) : bytes :=
  match r with
  | roleAdmin => str "admin"
  | roleSubmitter => str "submitter"
  | roleObserver => str "observer"
  | roleValidator => str "validator"
  end.

Definition roleOf (s : bytes) : option rpcRole :=
  List.find (fun r => bool_decide (roleName r = s)) [roleAdmin; roleSubmitter; roleObserver; roleValidator].

Record rpcAuthorizer : Type := mkAuthorizer { roles : gmap bytes rpcRole; requireIdentity : bool }.

Definition addRole (roles : gmap bytes rpcRole) (entry : bytes * bytes) : res (gmap bytes rpcRole) :=
  let '(fingerprint, configuredRole) := entry in
  if bool_decide (hex_DecodeString fingerprint = None) || negb (zlen fingerprint =? 64)
  then failf "invalid client certificate fingerprint" else
  match roleOf configuredRole with
  | Some role => Ok (<[fingerprint := role]> roles)
  | None => failf "invalid RPC role"
  end.

(** [configured] lists the entries of the configured map in the order they are visited. *)
Definition newRPCAuthorizer (configured : list (bytes * bytes)) (requireIdentity : bool) : res rpcAuthorizer :=
  let* roles := foldM addRole ∅ configured in Ok (mkAuthorizer roles requireIdentity).

Definition roleAllows (actual required : rpcRole) : bool :=
  if bool_decide (actual = roleAdmin) || bool_decide (actual = required) then true else
  negb (bool_decide (required = roleAdmin)) && bool_decide (actual = roleValidator).

(** The peer of a call: none or without credentials; credentials other than TLS;
    TLS with the certificates presented, [None] for a nil pointer. *)
Inductive AuthInfo : Type :=
| NoAuthInfo
| OtherAuthInfo
| TLSInfo (certs : option (list bytes)).

Section Authorize.
Context `{Platform}.

Definition fingerprintOf (cert : bytes) : bytes := hex_EncodeToString (sha256_Sum256 cert).

Definition authorize (a : option rpcAuthorizer) (info : AuthInfo) (required : rpcRole) : res unit :=
  match a with
  | None => Ok tt
  | Some a =>
    match info with
    | NoAuthInfo => if requireIdentity a then failf "RPC client identity is not authenticated" else Ok tt
    | OtherAuthInfo => failf "RPC client identity is not authenticated"
    | TLSInfo None | TLSInfo (Some []) =>
      if negb (requireIdentity a) then Ok tt else failf "RPC client certificate is missing"
    | TLSInfo (Some (cert :: _)) =>
      match roles a !! fingerprintOf cert with
      | Some role => if roleAllows role required then Ok tt else failf "RPC client is not authorized"
      | None => failf "RPC client is not authorized"
      end
    end
  end.
End Authorize.

(** ** The rate limit *)
Definition submitWindow : Z := 10 ^ 9.
Definition maxSubmitTxPerPeer : Z := 2048.
Definition maxSubmitReqsPerPeer : Z := 128.
Definition maxTrackedSubmitPeers : Z := 4096.

Record submitWindowState : Type := mkWindow { started : Z; txs : Z; requests : Z }.

Abbreviation submitLimiter := (gmap bytes submitWindowState).

Definition newSubmitLimiter : submitLimiter := ∅.

(** Windows that are over are forgotten. *)
Definition evict (l : submitLimiter) (now : Z) : submitLimiter :=
  filter (fun kv => (now - started (snd kv) >=? submitWindow) = false) l.

Definition peerKey (addr : option bytes) : bytes := default (str "unknown") addr.

(** The window a request counts in: [None] when no more clients can be tracked. *)
Definition windowOf (l : submitLimiter) (key : bytes) (now : Z) : submitLimiter * option submitWindowState :=
  match l !! key with
  | Some state => (l, Some state)
  | None =>
    if Z.of_nat (size l) >=? maxTrackedSubmitPeers then
      let l := evict l now in
      if Z.of_nat (size l) >=? maxTrackedSubmitPeers then (l, None) else (l, Some (mkWindow now 0 0))
    else (l, Some (mkWindow now 0 0))
  end.

Definition allow (l : option submitLimiter) (addr : option bytes) (now txCount : Z) : option submitLimiter * res unit :=
  match l with
  | None => (None, Ok tt)
  | Some l =>
    if (txCount <? 1) || (txCount >? maxSubmitTxPerPeer) then (Some l, failf "submission rate limit exceeded") else
    let key := peerKey addr in
    match windowOf l key now with
    | (l, None) => (Some l, failf "too many submission clients")
    | (l, Some state) =>
      let state := if now - started state >=? submitWindow then mkWindow now 0 0 else state in
      if (requests state >=? maxSubmitReqsPerPeer) || (txs state + txCount >? maxSubmitTxPerPeer)
      then (Some (<[key := state]> l), failf "submission rate limit exceeded")
      else (Some (<[key := mkWindow (started state) (txs state + txCount) (requests state + 1)]> l), Ok tt)
    end
  end.

(** ** The server *)
Record nodeMetrics : Type := mkMetrics { rpcRequests : Z; rpcRejected : Z; txAccepted : Z; batchAccepted : Z }.

Definition countRequest (m : nodeMetrics) : nodeMetrics := mkMetrics (wrap64 (rpcRequests m + 1)) (rpcRejected m) (txAccepted m) (batchAccepted m).
Definition countRejected (m : nodeMetrics) : nodeMetrics := mkMetrics (rpcRequests m) (wrap64 (rpcRejected m + 1)) (txAccepted m) (batchAccepted m).
Definition countTx (m : nodeMetrics) : nodeMetrics := mkMetrics (rpcRequests m) (rpcRejected m) (wrap64 (txAccepted m + 1)) (batchAccepted m).
Definition countBatch (m : nodeMetrics) : nodeMetrics := mkMetrics (rpcRequests m) (rpcRejected m) (txAccepted m) (wrap64 (batchAccepted m + 1)).

Record nodeGRPCServer : Type := mkServer
  { node : option p2p.Node;                 (* nil in grpc-only mode *)
    chainID : bytes;
    limiter : option submitLimiter;
    metrics : option nodeMetrics;
    authorizer : option rpcAuthorizer;
    published : list (bytes * bytes) }.     (* history: messages handed to the network *)

Definition count (s : nodeGRPCServer) (f : nodeMetrics -> nodeMetrics) : nodeGRPCServer :=
  mkServer (node s) (chainID s) (limiter s) (f <$> metrics s) (authorizer s) (published s).
Definition set_limiter (s : nodeGRPCServer) (l : option submitLimiter) : nodeGRPCServer :=
  mkServer (node s) (chainID s) l (metrics s) (authorizer s) (published s).
Definition publish (s : nodeGRPCServer) (msg : bytes * bytes) : nodeGRPCServer :=
  mkServer (node s) (chainID s) (limiter s) (metrics s) (authorizer s) (published s ++ [msg]).

(** The context of a call; [ended k] is what the k-th question whether it is over gets. *)
Record Context_ : Type := mkContext { info : AuthInfo; addr : option bytes; now : Z; ended : nat -> bool }.

(** [Refused] is an RPC error, [Answer] a response with its [Ok] field. *)
Inductive reply : Type := Refused | Answer (ok : bool).

Section Server.
Context `{Platform}.
(** Whether the network takes a message. *)
Context (taken : bytes * bytes -> bool).

Definition send (s : nodeGRPCServer) (msg : res (bytes * bytes)) : res (nodeGRPCServer * bool) :=
  match msg with
  | Panic => Panic
  | Err _ => Ok (s, false)
  | Ok msg => if taken msg then Ok (publish s msg, true) else Ok (s, false)
  end.

(** [nodeRuntime.BroadcastTx] and [BroadcastBatch]. *)
Definition broadcastTx (s : nodeGRPCServer) (t : tx.Tx) : res (nodeGRPCServer * bool) :=
  match node s with None => Ok (s, false) | Some n => send s (p2p.BroadcastTx n t) end.
Definition broadcastBatch (s : nodeGRPCServer) (txs : list tx.Tx) : res (nodeGRPCServer * bool) :=
  match node s with None => Ok (s, false) | Some n => send s (p2p.BroadcastBatch n txs) end.

Definition SubmitTx (s : nodeGRPCServer) (ctx : Context_) (data : option bytes) : res (nodeGRPCServer * reply) :=
  let s := count s countRequest in
  if ended ctx 0 then Ok (s, Refused) else
  match authorize (authorizer s) (info ctx) roleSubmitter with
  | Panic => Panic
  | Err _ => Ok (count s countRejected, Refused)
  | Ok _ =>
    match data with
    | None => Ok (s, Answer false)
    | Some data =>
      if zlen data >? tx.MaxSerializedBytes then Ok (s, Answer false) else
      match allow (limiter s) (addr ctx) (now ctx) 1 with
      | (_, Panic) => Panic
      | (l, Err _) => Ok (count (set_limiter s l) countRejected, Refused)
      | (l, Ok _) =>
        let s := set_limiter s l in
        match p2p.parseTxForChain data (chainID s) with
        | Panic => Panic
        | Err _ => Ok (s, Answer false)
        | Ok t =>
          if ended ctx 1 then Ok (s, Refused) else
          let* '(s, sent) := broadcastTx s t in
          Ok (if (sent : bool) then (count s countTx, Answer true) else (s, Answer false))
        end
      end
    end
  end.

(** The transactions of a batch: [inl] ends the call with a reply. *)
Fixpoint parseAll (ended : nat -> bool) (k : nat) (chainID : bytes) (raws : list bytes) : res (reply + list tx.Tx) :=
  match raws with
  | [] => Ok (inr [])
  | raw :: rest =>
    if ended k then Ok (inl Refused) else
    if zlen raw >? tx.MaxSerializedBytes then Ok (inl (Answer false)) else
    match p2p.parseTxForChain raw chainID with
    | Panic => Panic
    | Err _ => Ok (inl (Answer false))
    | Ok t =>
      let* r := parseAll ended (S k) chainID rest in
      Ok (match r with inl reply => inl reply | inr ts => inr (t :: ts) end)
    end
  end.

Definition maxSubmitBatch : Z := 1024.

Definition SubmitBatch (s : nodeGRPCServer) (ctx : Context_) (data : list bytes) : res (nodeGRPCServer * reply) :=
  let s := count s countRequest in
  if ended ctx 0 then Ok (s, Refused) else
  match authorize (authorizer s) (info ctx) roleSubmitter with
  | Panic => Panic
  | Err _ => Ok (count s countRejected, Refused)
  | Ok _ =>
    if (zlen data =? 0) || (zlen data >? maxSubmitBatch) then Ok (s, Answer false) else
    match allow (limiter s) (addr ctx) (now ctx) (zlen data) with
    | (_, Panic) => Panic
    | (l, Err _) => Ok (count (set_limiter s l) countRejected, Refused)
    | (l, Ok _) =>
      let s := set_limiter s l in
      let* r := parseAll (ended ctx) 1 (chainID s) data in
      match r with
      | inl reply => Ok (s, reply)
      | inr batch =>
        let* '(s, sent) := broadcastBatch s batch in
        Ok (if (sent : bool) then (count s countBatch, Answer true) else (s, Answer false))
      end
    end
  end.
End Server.

(** ** Queries *)

(** What the runtime answers from; a component that is not running is [None]. *)
Record nodeRuntime (B : Type) : Type := mkRuntime
  { grpcOnly : bool;
    peerCount : option Z;                   (* p2p *)
    blockloop : option blockloop.BlockLoop;
    sm : option (DB B);
    staking : option (DB B);
    ledger : DB B;
    engine : option engine.EngineStatus }.
Arguments mkRuntime {B}. Arguments grpcOnly {B}. Arguments peerCount {B}. Arguments blockloop {B}.
Arguments sm {B}. Arguments staking {B}. Arguments ledger {B}. Arguments engine {B}.

Record StatusResponse : Type := mkStatus
  { sHeight : Z; sStateRoot : arr 32; sPeerCount : Z; sMempoolLen : Z; sValidatorCount : Z;
    sConsensusRound : Z; sConsensusPhase : bytes; sGrpcOnly : bool }.

Definition consensusPhaseName (p : Z) : bytes :=
  if p =? round.PhasePropose then str "propose" else
  if p =? round.PhasePrevote then str "prevote" else
  if p =? round.PhasePrecommit then str "precommit" else
  if p =? round.PhaseCommit then str "commit" else str "unknown".

Section Queries.
Context `{Platform} {B : Type} `{KV B}.
Implicit Types (n : nodeRuntime B).

Definition Status n : res StatusResponse :=
  let* '(height, stateRoot) :=
    match sm n with
    | None => Ok (0, zero_arr 32)
    | Some db => let* h := statemachine.CurrentHeight db in Ok (h, statemachine.CurrentStateRoot db)
    end in
  let* validatorCount :=
    match staking n with
    | None => Ok 0
    | Some db => let* vs := staking.ValidatorSet db in Ok (zlen vs)
    end in
  let '(height, consensusRound, consensusPhase) :=
    match engine n with
    | None => (height, 0, [])
    | Some st =>
      (if (height =? 0) && (engine.SHeight st >? 0) then engine.SHeight st - 1 else height,
       engine.SRound st, consensusPhaseName (engine.SPhase st))
    end in
  Ok (mkStatus height stateRoot (default 0 (peerCount n)) (from_option blockloop.Len 0 (blockloop n)) validatorCount
        consensusRound consensusPhase (grpcOnly n)).

Record AccountResponse : Type := mkAccount { aPubkey : arr 32; aBalance : bytes; aNonce : Z }.

Definition queryAccount n (pubkey : arr 32) : res AccountResponse :=
  let bal := ledger.BalanceOf (ledger n) pubkey in
  let* nonce := ledger.NonceOf (ledger n) pubkey in
  Ok (mkAccount pubkey (denom.big_String bal) nonce).

Definition ListValidators n : res (list (arr 32 * bytes)) :=
  match staking n with
  | None => Panic
  | Some db =>
    let* '(pubkeys, bonds) := staking.BondedAmounts db in
    Ok (imap (fun i pk => (pk, match bonds !! i with Some b => denom.big_String b | None => str "0" end)) pubkeys)
  end.

Definition ListMempool n : list (arr 32 * bytes * Z) :=
  match blockloop n with
  | None => []
  | Some bl => omap (fun t => match tx.ID t with Ok id => Some (id, tx.Sender t, tx.Nonce t) | _ => None end) (blockloop.Snapshot bl)
  end.

(** ** Telemetry of a block *)
Definition protoSignature (s : telemetry.SignatureTelemetry) : frgpb.SignatureCount :=
  frgpb.mkSignatureCount (telemetry.Signature s) (telemetry.SName s) (telemetry.SCount s).

Definition protoLevel (l : telemetry.RGLevelTelemetry) : frgpb.RGLevelTelemetry :=
  frgpb.mkLevel (telemetry.LLevel l) (telemetry.LScale l) (telemetry.LNodeCount l)
    (map protoSignature (telemetry.SignatureCounts l)) (telemetry.LContractDensity l)
    (telemetry.VolatileRegions_ l) (telemetry.StagnantRegions_ l) (telemetry.TotalVolume l) (telemetry.LVariance l)
    (telemetry.ContractTxCount l) (telemetry.ContractNodeCount l).

Definition protoTxType (t : telemetry.TxTypeTelemetry) : frgpb.TxTypeCount :=
  frgpb.mkTxTypeCount (telemetry.TType t) (telemetry.TName t) (telemetry.TCount t).

Definition protoBlockTelemetry (t : telemetry.BlockTelemetry) : frgpb.BlockTelemetryResponse :=
  frgpb.mkBlockTelemetryResponse (telemetry.BHeight t) (telemetry.BStateRoot t) (telemetry.BProposer t)
    (telemetry.TxCount t) (telemetry.TotalValue t) (telemetry.MeanValue t) (telemetry.BVariance t)
    (map protoTxType (telemetry.TxTypes t)) (map protoLevel (telemetry.Levels t))
    (telemetry.ContractStateIncluded t) (telemetry.Warning t).

Definition blockTelemetry (block : option blockstore.Block) : res frgpb.BlockTelemetryResponse :=
  let* t := telemetry.BuildBlockTelemetry block [] false in Ok (protoBlockTelemetry t).

(** Telemetry that was stored is served; for a block without any it is rebuilt
    from the transactions. *)
Definition queryTelemetry `{telemetry.Json} n (height : Z) : res frgpb.BlockTelemetryResponse :=
  match sm n with
  | None => failf "state machine unavailable"
  | Some db =>
    let* height := (if height =? 0 then statemachine.CurrentHeight db else Ok height) in
    if height =? 0 then failf "no committed block after genesis" else
    let* t := telemetry.BlockTelemetryAt db height in
    match t with
    | Some t => Ok (protoBlockTelemetry t)
    | None => let* block := blockstore.BlockAt db height in blockTelemetry block
    end
  end.

(** The handlers: authorization and the checks of the request. *)
Definition GetBlockTelemetry `{telemetry.Json} (a : option rpcAuthorizer) (i : AuthInfo) n (height : Z) :
    res frgpb.BlockTelemetryResponse :=
  let* _ := authorize a i roleObserver in queryTelemetry n height.

Definition GetStatus (a : option rpcAuthorizer) (i : AuthInfo) n : res StatusResponse :=
  let* _ := authorize a i roleObserver in Status n.

Definition GetAccount (a : option rpcAuthorizer) (i : AuthInfo) n (pubkey : bytes) : res AccountResponse :=
  let* _ := authorize a i roleObserver in
  if negb (zlen pubkey =? 32) then failf "pubkey must be 32 bytes" else queryAccount n (mk_arr 32 pubkey).

Definition GetContractState (a : option rpcAuthorizer) (i : AuthInfo) n (contractAddress key : bytes) :
    res (bool * bool * bytes * arr 32) :=
  let* _ := authorize a i roleObserver in
  if negb (zlen contractAddress =? 32) then failf "contract_address must be 32 bytes" else
  if zlen key >? 32 then failf "contract state key must be at most 32 bytes" else
  match sm n with
  | None => Panic
  | Some db => statemachine.ContractState db (mk_arr 32 contractAddress) key
  end.

Definition GetValidators (a : option rpcAuthorizer) (i : AuthInfo) n : res (list (arr 32 * bytes)) :=
  let* _ := authorize a i roleObserver in ListValidators n.

Definition GetMempool (a : option rpcAuthorizer) (i : AuthInfo) n : res (list (arr 32 * bytes * Z)) :=
  let* _ := authorize a i roleObserver in Ok (ListMempool n).
End Queries.
End rpc.
