(* ===== verification/Stream.v ===== *)
(** * Blocks on their way to subscribers (p2p.go, grpc_server.go, client/)

    One channel of the gossip node carries the block messages.  The consensus
    engine reads its proposals from it, and every call of [SubscribeBlocks]
    reads from the same channel; a message goes to whoever takes it first.
    [hub] is the channel with all its readers, [pipe] the two goroutines of a
    client's [Subscribe], [p2plife] how the node's network resources are
    acquired and given back, [sse] what the explorer writes to a browser. *)

From S2P Require Import Prelude GoBytes Errors Platform Hex Tx Denom KV BlockStore Vote BlockLoop Gossip BlockSync Rpc.

Module hub.

(** One call of [SubscribeBlocks]: what it has sent, the message a failed send lost. *)
Record Stream : Type := mkStream { sent : list bytes; lost : list bytes; live : bool }.

(** [entered] is a history variable: the messages that got into the channel. *)
Record Hub : Type := mkHub
  { node : p2p.Node;
    engineSaw : list bytes;
    streams : gmap nat Stream;
    entered : list bytes }.

Inductive action : Type :=
| Arrive (data : bytes)                              (* [readBlocks] *)
| EngineTakes                                        (* [Start]: case rawProposal := <-proposalSub *)
| SubscribeBlocks (i : nat) (info : rpc.AuthInfo)
| StreamTakes (i : nat) (sendOK : bool)              (* case data := <-blocks, and stream.Send *)
| ContextDone (i : nat).

Section Hub.
Context `{Platform} (authorizer : option rpc.rpcAuthorizer).

Definition set_stream (h : Hub) (i : nat) (s : Stream) : Hub := mkHub (node h) (engineSaw h) (<[i := s]> (streams h)) (entered h).

(** A goroutine that waits on the empty channel stays where it is. *)
Definition act (h : Hub) (a : action) : res Hub :=
  match a with
  | Arrive data =>
    let* n := p2p.readBlock (node h) data in
    let got := drop (length (p2p.blockCh (node h))) (p2p.blockCh n) in
    Ok (mkHub n (engineSaw h) (streams h) (entered h ++ got))
  | EngineTakes =>
    match p2p.recvBlock (node h) with
    | Some (data, n) => Ok (mkHub n (engineSaw h ++ [data]) (streams h) (entered h))
    | None => Ok h
    end
  | SubscribeBlocks i info =>
    match streams h !! i with
    | Some _ => Ok h
    | None =>
      match rpc.authorize authorizer info rpc.roleObserver with
      | Ok _ => Ok (set_stream h i (mkStream [] [] true))
      | Err _ => Ok h
      | Panic => Panic
      end
    end
  | StreamTakes i sendOK =>
    match streams h !! i with
    | Some s =>
      if negb (live s) then Ok h else
      match p2p.recvBlock (node h) with
      | Some (data, n) =>
        let h := mkHub n (engineSaw h) (streams h) (entered h) in
        Ok (set_stream h i (if (sendOK : bool) then mkStream (sent s ++ [data]) (lost s) true else mkStream (sent s) (lost s ++ [data]) false))
      | None => Ok h
      end
    | None => Ok h
    end
  | ContextDone i =>
    match streams h !! i with
    | Some s => Ok (set_stream h i (mkStream (sent s) (lost s) false))
    | None => Ok h
    end
  end.

Definition run (h : Hub) (acts : list action) : res Hub := foldM act h acts.

Definition start (c : p2p.Config) : Hub := mkHub (p2p.New c) [] ∅ [].
End Hub.

(** The runtime's [SubscribeBlockHeaders]: in grpc-only mode a channel that is
    closed, which ends the call at once. *)
Inductive source : Type := Closed | Shared.
Definition SubscribeBlockHeaders {A} (p2pNode : option A) : source := match p2pNode with None => Closed | Some _ => Shared end.
End hub.

(** ** Readers share the messages *)
Import hub.

Section Dealt.
Context `{Platform} (authorizer : option rpc.rpcAuthorizer).
Implicit Types (h : Hub) (deals : list (option nat * bytes)).

(** What of a deal a reader got; [None] is the engine. *)
Definition dealtTo (r : option nat) deals : list bytes := map snd (filter (fun d => fst d = r) deals).

Record dealt h deals : Prop := mkDealt
  { dl_all : entered h = map snd deals ++ p2p.blockCh (node h);
    dl_engine : engineSaw h = dealtTo None deals;
    dl_streams : forall i, match streams h !! i with
                           | Some s => sent s ++ lost s = dealtTo (Some i) deals /\ (live s = true -> lost s = [])
                           | None => dealtTo (Some i) deals = []
                           end }.

Lemma dealtTo_snoc r deals r' d : dealtTo r (deals ++ [(r', d)]) = dealtTo r deals ++ (if decide (r' = r) then [d] else []).
Proof. unfold dealtTo. rewrite filter_app, map_app. f_equal. cbn. by destruct (decide (r' = r)). Qed.

Lemma recvBlock_inv n d n' : p2p.recvBlock n = Some (d, n') -> p2p.blockCh n = d :: p2p.blockCh n'.
Proof. unfold p2p.recvBlock. destruct (p2p.blockCh n) as [|b r] eqn:E; [done|]. by intros [= <- <-]. Qed.

Lemma readBlock_inv n data n' :
  p2p.readBlock n data = Ok n' -> exists got, p2p.blockCh n' = p2p.blockCh n ++ got.
Proof.
  unfold p2p.readBlock, p2p.offer. case_match; intros [= <-]; [exists []; by rewrite app_nil_r|]. cbn.
  case_match; [by eexists|exists []; by rewrite app_nil_r].
Qed.

Lemma act_dealt h a h' deals : dealt h deals -> act authorizer h a = Ok h' -> exists deals', dealt h' deals'.
Proof.
  intros [Ha He Hs] Hact. destruct a as [data| |i info|i ok|i]; cbn [act] in Hact.
  - apply obind_ok_inv in Hact as (n & Hn & <-%Ok_inj). exists deals. apply readBlock_inv in Hn as [got Hg]. constructor; cbn; [|done..].
    by rewrite Hg, drop_app_length, Ha, app_assoc.
  - destruct (p2p.recvBlock (node h)) as [[d n]|] eqn:Er; apply Ok_inj in Hact as <-; [|by exists deals].
    apply recvBlock_inv in Er. exists (deals ++ [(None, d)]). constructor; cbn.
    + rewrite Ha, Er, map_app, <- app_assoc. done.
    + by rewrite dealtTo_snoc, decide_True, He.
    + intros i. rewrite dealtTo_snoc, decide_False, app_nil_r by done. apply Hs.
  - destruct (streams h !! i) as [s|] eqn:Es; [apply Ok_inj in Hact as <-; by exists deals|].
    destruct (rpc.authorize _ _ _); [|apply Ok_inj in Hact as <-; by exists deals|done]. apply Ok_inj in Hact as <-. exists deals.
    constructor; cbn; [done..|]. intros j. pose proof (Hs j) as Hj. destruct (decide (i = j)) as [<-|Hne].
    + rewrite lookup_insert_eq. rewrite Es in Hj. by rewrite Hj.
    + by rewrite lookup_insert_ne.
  - destruct (streams h !! i) as [s|] eqn:Es; [|apply Ok_inj in Hact as <-; by exists deals]. destruct (live s) eqn:El; cbn [negb] in Hact;
      [|apply Ok_inj in Hact as <-; by exists deals]. destruct (p2p.recvBlock (node h)) as [[d n]|] eqn:Er; apply Ok_inj in Hact as <-; [|by exists deals].
    apply recvBlock_inv in Er. exists (deals ++ [(Some i, d)]). pose proof (Hs i) as Hi. rewrite Es in Hi. destruct Hi as [Hi Hl]. rewrite (Hl El), app_nil_r in Hi. constructor; cbn.
    + rewrite Ha, Er, map_app, <- app_assoc. done.
    + by rewrite dealtTo_snoc, decide_False, app_nil_r.
    + intros j. rewrite dealtTo_snoc. destruct (decide (i = j)) as [<-|Hne].
      * rewrite lookup_insert_eq, decide_True by done. rewrite <- Hi. destruct ok; cbn; rewrite (Hl El); by rewrite ?app_nil_r.
      * rewrite lookup_insert_ne, decide_False, app_nil_r by congruence. apply Hs.
  - destruct (streams h !! i) as [s|] eqn:Es; apply Ok_inj in Hact as <-; exists deals; [|done]. constructor; cbn; [done..|].
    intros j. pose proof (Hs j) as Hj. destruct (decide (i = j)) as [<-|Hne].
    + rewrite lookup_insert_eq. rewrite Es in Hj. cbn. by destruct Hj.
    + by rewrite lookup_insert_ne.
Qed.

Lemma run_dealt acts h h' deals : dealt h deals -> run authorizer h acts = Ok h' -> exists deals', dealt h' deals'.
Proof.
  revert h deals. induction acts as [|a acts IH]; intros h deals Hd Hr; [apply Ok_inj in Hr as <-; by exists deals|].
  unfold run in Hr. cbn [foldM] in Hr. apply obind_ok_inv in Hr as (h1 & Ha & Hr). destruct (act_dealt _ _ _ _ Hd Ha) as [d1 Hd1]. by eapply IH.
Qed.

Lemma dealt_once deals r r' d : NoDup (map snd deals) -> d ∈ dealtTo r deals -> d ∈ dealtTo r' deals -> r = r'.
Proof.
  intros Hn (x & -> & [<- Hx]%list_elem_of_filter)%list_elem_of_fmap (y & Hxy & [<- Hy]%list_elem_of_filter)%list_elem_of_fmap.
  apply list_elem_of_lookup in Hx as [i Hi], Hy as [j Hj]. f_equal. enough (i = j) as <- by congruence.
  eapply NoDup_lookup; [exact Hn|by rewrite list_lookup_fmap, Hi|]. by rewrite list_lookup_fmap, Hj, Hxy.
Qed.

(** C31.  A subscriber takes blocks away from consensus.  Whatever arrives and whoever
    subscribes, reads and leaves, every block message that entered the node's
    channel is dealt to exactly one reader, in order, or still waits there:
    the engine gets its share and every [SubscribeBlocks] call its own, less
    the one message that the send which ended it lost.  When all messages
    differ, the engine never sees a proposal that was sent to a subscriber,
    nor does a second subscriber. *)
Theorem blocks_dealt_once c acts h :
  run authorizer (start c) acts = Ok h ->
  (exists deals, entered h = map snd deals ++ p2p.blockCh (node h) /\ engineSaw h = dealtTo None deals /\
     forall i s, streams h !! i = Some s -> sent s ++ lost s = dealtTo (Some i) deals /\ (live s = true -> lost s = [])) /\
  (NoDup (entered h) -> forall i s d, streams h !! i = Some s -> d ∈ sent s -> (d ∉ engineSaw h) /\
     forall j s', j <> i -> streams h !! j = Some s' -> d ∉ sent s').
Proof.
  intros Hr. destruct (run_dealt acts (start c) h []) as [deals [Ha He Hs]]; [|exact Hr|].
  { constructor; [done..|]. intros i. cbn. by rewrite lookup_empty. }
  split.
  - exists deals. split; [done|]. split; [done|]. intros i s Hi. pose proof (Hs i) as Hd. by rewrite Hi in Hd.
  - rewrite Ha. intros [Hn _]%NoDup_app i s d Hi Hd. pose proof (Hs i) as Hsi. rewrite Hi in Hsi. destruct Hsi as [Hsi _].
    assert (d ∈ dealtTo (Some i) deals) as Hdi by (rewrite <- Hsi; apply elem_of_app; by left). split.
    + rewrite He. intros Hde. by pose proof (dealt_once _ _ _ _ Hn Hdi Hde).
    + intros j s' Hne Hj Hdj. pose proof (Hs j) as Hsj. rewrite Hj in Hsj. destruct Hsj as [Hsj _]. apply Hne.
      enough (Some i = Some j) as [= ->] by done. apply (dealt_once deals _ _ d Hn Hdi). rewrite <- Hsj. apply elem_of_app. by left.
Qed.
End Dealt.

(** ** The client's end *)
Module pipe.

(** [transport.subscribe] receives messages into a channel of 16, and
    [Client.Subscribe] puts an empty block into another channel of 16 for each
    of them; both block when their channel is full. *)
Record Pipe : Type := mkPipe
  { wire : list bytes;                      (* sent by the node, not yet received *)
    received : option bytes;                (* msg of the first goroutine *)
    raw : list bytes;
    pending : bool;                         (* the second goroutine is at its send *)
    ch : list blockstore.Block;
    readByApp : list blockstore.Block }.

Definition chanCap : Z := 16.

(** [&tree.Block{}] *)
Definition emptyBlock : blockstore.Block := blockstore.mkBlock 0 [] (zero_arr 32) (zero_arr 32) (zero_arr 32) [].

Inductive move : Pipe -> Pipe -> Prop :=
| Recv m w r p c a : move (mkPipe (m :: w) None r p c a) (mkPipe w (Some m) r p c a)
| Push m w r p c a : zlen r < chanCap -> move (mkPipe w (Some m) r p c a) (mkPipe w None (r ++ [m]) p c a)
| Take m w h r c a : move (mkPipe w h (m :: r) false c a) (mkPipe w h r true c a)
| Put w h r c a : zlen c < chanCap -> move (mkPipe w h r true c a) (mkPipe w h r false (c ++ [emptyBlock]) a)
| Read b w h r p c a : move (mkPipe w h r p (b :: c) a) (mkPipe w h r p c (a ++ [b])).

Definition subscribed (messages : list bytes) : Pipe := mkPipe messages None [] false [] [].

Definition underway (p : Pipe) : Z :=
  (match received p with Some _ => 1 | None => 0 end) + zlen (raw p) + (if pending p then 1 else 0) + zlen (ch p).

Lemma move_kept p p' : move p p' ->
  zlen (wire p') + underway p' + zlen (readByApp p') = zlen (wire p) + underway p + zlen (readByApp p) /\
  (zlen (raw p) <= chanCap -> zlen (raw p') <= chanCap) /\ (zlen (ch p) <= chanCap -> zlen (ch p') <= chanCap) /\
  (Forall (fun b => b = emptyBlock) (ch p ++ readByApp p) -> Forall (fun b => b = emptyBlock) (ch p' ++ readByApp p')).
Proof.
  intros Hs. unfold underway, chanCap. destruct Hs; cbn [wire received raw pending ch readByApp]; rewrite ?zlen_app, ?zlen_cons; change (zlen (@nil bytes)) with 0;
    change (zlen (@nil blockstore.Block)) with 0; unfold chanCap in *; (split; [lia|]); (split; [lia|]); (split; [lia|]); try done.
  - rewrite !Forall_app. intros [Hc Ha]. split_and!; [done|by constructor|done].
  - rewrite !Forall_app, !Forall_cons. pose proof (Forall_nil_2 (fun b0 => b0 = emptyBlock)). tauto.
Qed.

Definition balanced (messages : list bytes) (p : Pipe) : Prop :=
  zlen (wire p) + underway p + zlen (readByApp p) = zlen messages /\
  zlen (raw p) <= chanCap /\ zlen (ch p) <= chanCap /\ Forall (fun b => b = emptyBlock) (ch p ++ readByApp p).

Lemma run_balanced messages p : rtc move (subscribed messages) p -> balanced messages p.
Proof.
  apply (rtc_ind_r (balanced messages)).
  - split; [unfold underway; cbn; change (zlen (@nil bytes)) with 0; change (zlen (@nil blockstore.Block)) with 0; lia|]. split_and!; [done..|constructor].
  - intros q q' _ Hs (Hn & Hw & Hc & Hf). destruct (move_kept q q' Hs) as (Hn' & Hw' & Hc' & Hf'). split; [lia|]. auto.
Qed.

(** What a client's subscription delivers.  However the two goroutines are
    scheduled, no message is lost or made up, the application reads one block
    per message and every one of them is the empty block; and while it reads
    nothing, at most 34 messages leave the connection. *)
Theorem subscription_delivers messages p :
  rtc move (subscribed messages) p ->
  zlen (wire p) + underway p + zlen (readByApp p) = zlen messages /\ 0 <= underway p <= 34 /\
  Forall (fun b => b = emptyBlock) (readByApp p).
Proof.
  intros (Hn & Hw & Hc & Hf)%run_balanced. split; [done|]. apply Forall_app in Hf as [_ Hf]. split; [|done].
  unfold underway, chanCap in *. pose proof (zlen_nonneg (raw p)). pose proof (zlen_nonneg (ch p)). destruct (received p), (pending p); lia.
Qed.
End pipe.

(** ** The network resources of a node *)
Module p2plife.
Import p2p.

(** The calls into libp2p, the goroutines and the context, in the order they are made. *)
Inductive call : Type :=
| UnmarshalKey | NewMultiaddr (a : bytes) | NewHost | WithCancel | NewGossipSub
| Join (topic : bytes) | Subscribe (topic : bytes) (buffer : Z)
| SetStreamHandler (protocol : bytes) | StartReaders
| NewDHT (prefix : bytes) | Connect (peer : bytes) | Bootstrap | StartMDNS (tag : bytes)
| Cancel | CancelSub (topic : bytes) | CloseDHT | CloseHost.

#[export] Instance call_eq_dec : EqDecision call.
Proof. solve_decision. Defined.

Definition blockSyncProtocol (chainID : bytes) : bytes := str "/frg/" ++ chainID ++ str "/blocks/sync/1".
Definition dhtPrefix (c : Config) : bytes := str "/frg/" ++ chainID c ++ str "/kad/v1".

Section Life.
Context (works : call -> bool) (peerOf : bytes -> option bytes).   (* which calls succeed; AddrInfoFromP2pAddr *)

(** A run: the calls made, and the value or error of the function. *)
Definition prog (A : Type) : Type := list call * res A.

(** A call that can fail; [undo] is what the error branch does before it returns. *)
Definition try (c : call) (undo : list call) (k : prog bool) : prog bool :=
  if works c then (c :: fst k, snd k) else (c :: undo, failf "p2p").

Definition calls (cs : list call) (k : prog bool) : prog bool := (cs ++ fst k, snd k).

Definition connects (peers : list bytes) : list call := omap (fun a => Connect <$> peerOf a) peers.

Definition subscriptions (c : Config) : list (bytes * Z) := [(topicTx c, 8192); (topicBatch c, 4096); (topicBlock c, 256); (topicVote c, 4096)].

Definition withContext : list call := [Cancel; CloseHost].

(** The DHT only with bootstrap peers; the result says whether there is one. *)
Definition joinDHT (c : Config) (k : bool -> prog bool) : prog bool :=
  match BootstrapPeers c with
  | [] => k false
  | peers => try (NewDHT (dhtPrefix c)) withContext (calls (connects peers ++ [Bootstrap]) (k true))
  end.

(** [New] *)
Definition NewNode (c : Config) : prog bool :=
  try UnmarshalKey [] (try (NewMultiaddr (ListenAddr c)) [] (try NewHost [] (calls [WithCancel] (
  try NewGossipSub withContext (
  foldr (fun t k => try (Join (fst t)) withContext k) (
  foldr (fun t k => try (Subscribe (fst t) (snd t)) withContext k) (
  calls [SetStreamHandler (blockSyncProtocol (chainID c)); StartReaders] (
  joinDHT c (fun dht => calls (if EnableMDNS c then [StartMDNS (chainID c)] else []) ([], Ok dht))))
  (subscriptions c)) (subscriptions c)))))).

(** [Close] of a node that [New] returned; its error is that of closing the host. *)
Definition Close (c : Config) (dht : bool) : list call * bool :=
  ([Cancel] ++ map (fun t => CancelSub (fst t)) (subscriptions c) ++ (if dht then [CloseDHT] else []) ++ [CloseHost], works CloseHost).

(** [Connect]: the addresses in order, up to the first that cannot be read or reached. *)
Fixpoint ConnectTo (addrs : list bytes) : list call * res unit :=
  match addrs with
  | [] => ([], Ok tt)
  | a :: addrs =>
    match peerOf a with
    | None => ([], failf "invalid p2p multiaddr")
    | Some p =>
      if works (Connect p) then let '(cs, r) := ConnectTo addrs in (Connect p :: cs, r) else ([Connect p], failf "connect")
    end
  end.

(** A peer that mDNS found; the error of connecting to it is dropped. *)
Definition HandlePeerFound (self found : bytes) : list call := if bool_decide (found = self) then [] else [Connect found].

(** What is open after a list of calls. *)
Record open_ : Type := mkOpen { host : bool; context : bool; subs : list bytes; dht : bool }.
Definition effect (o : open_) (c : call) : open_ :=
  match c with
  | NewHost => mkOpen (host o || works NewHost) (context o) (subs o) (dht o)
  | WithCancel => mkOpen (host o) true (subs o) (dht o)
  | Subscribe t _ => mkOpen (host o) (context o) (if works c then subs o ++ [t] else subs o) (dht o)
  | NewDHT _ => mkOpen (host o) (context o) (subs o) (dht o || works c)
  | Cancel => mkOpen (host o) false (subs o) (dht o)
  | CancelSub t => mkOpen (host o) (context o) (List.filter (fun x => negb (bool_decide (x = t))) (subs o)) (dht o)
  | CloseDHT => mkOpen (host o) (context o) (subs o) false
  | CloseHost => mkOpen false (context o) (subs o) (dht o)
  | _ => o
  end.
Definition nothing : open_ := mkOpen false false [] false.
Definition after (cs : list call) : open_ := foldl effect nothing cs.

Lemma after_app a b o : foldl effect o (a ++ b) = foldl effect (foldl effect o a) b.
Proof. apply foldl_app. Qed.

Lemma connects_neutral peers o : foldl effect o (connects peers) = o.
Proof. revert o. induction peers as [|a peers IH]; intros o; [done|]. unfold connects in *. cbn [omap list_omap]. destruct (peerOf a); cbn; apply IH. Qed.

Lemma cancels ts h x subs0 d : foldl effect (mkOpen h x subs0 d) (map (fun t : bytes * Z => CancelSub (fst t)) ts) =
  mkOpen h x (List.filter (fun s => negb (bool_decide (s ∈ map fst ts))) subs0) d.
Proof.
  revert subs0. induction ts as [|t ts IH]; intros subs0; cbn [map foldl effect host context subs dht].
  - f_equal. induction subs0 as [|s subs0 IH]; [done|]. cbn. rewrite bool_decide_eq_false_2 by apply not_elem_of_nil. cbn. by f_equal.
  - rewrite IH. f_equal. clear IH. induction subs0 as [|s subs0 IH]; [done|]. cbn [List.filter].
    destruct (decide (s = fst t)) as [->|Hne].
    + rewrite (bool_decide_eq_true_2 (fst t = fst t)), (bool_decide_eq_true_2 (fst t ∈ fst t :: map fst ts)) by (done || apply list_elem_of_here). exact IH.
    + rewrite (bool_decide_eq_false_2 (s = fst t)) by done. cbn [negb List.filter].
      assert (bool_decide (s ∈ fst t :: map fst ts) = bool_decide (s ∈ map fst ts)) as ->.
      { apply bool_decide_ext. rewrite elem_of_cons. tauto. }
      destruct (negb _); [by f_equal|exact IH].
Qed.

Lemma cancelled ts : List.filter (fun s => negb (bool_decide (s ∈ map fst ts))) (map (fst : bytes * Z -> bytes) ts) = [].
Proof.
  assert (forall l, l ⊆ map fst ts -> List.filter (fun s => negb (bool_decide (s ∈ map (fst : bytes * Z -> bytes) ts))) l = []) as Hl; [|by apply Hl].
  intros l Hl. induction l as [|s l IH]; [done|]. cbn [List.filter]. rewrite bool_decide_eq_true_2 by (apply Hl, list_elem_of_here).
  apply IH. intros x Hx. by apply Hl, list_elem_of_further.
Qed.

(** [Connect] reports success when all peers have been reached, and opens nothing itself. *)
Lemma ConnectTo_spec addrs :
  (snd (ConnectTo addrs) = Ok tt -> fst (ConnectTo addrs) = connects addrs /\
    Forall (fun a => exists p, peerOf a = Some p /\ works (Connect p) = true) addrs) /\
  forall o, foldl effect o (fst (ConnectTo addrs)) = o.
Proof.
  induction addrs as [|a addrs [IH IHo]]; [done|]. cbn [ConnectTo]. unfold connects in *. cbn [omap list_omap].
  destruct (peerOf a) as [p|] eqn:Ep; [|done]. cbn. destruct (works (Connect p)) eqn:Ew; [|done].
  destruct (ConnectTo addrs) as [cs r]. cbn [fst snd] in *. split; [|done]. intros Hr. destruct (IH Hr) as [-> Hf]. split; [done|].
  constructor; [by exists p|done].
Qed.

Definition outcome_ok (c : Config) (o : open_) (r : res bool) : Prop :=
  match r with
  | Ok d => o = mkOpen true true (map fst (subscriptions c)) d /\ d = negb (bool_decide (BootstrapPeers c = []))
  | _ => host o = false /\ context o = false
  end.

Ltac calls_done := cbn -[topicTx topicBatch topicBlock topicVote dhtPrefix blockSyncProtocol];
  repeat match goal with E : works _ = _ |- _ => rewrite E; clear E end.

Lemma NewNode_outcome c : outcome_ok c (after (fst (NewNode c))) (snd (NewNode c)).
Proof.
  unfold after, NewNode. cbn [subscriptions foldr fst snd]. unfold try.
  repeat (match goal with |- context [if works ?c then _ else _] => let E := fresh "E" in destruct (works c) eqn:E end;
    [cbn [fst snd]|solve [unfold failf; calls_done; split; reflexivity]]).
  unfold joinDHT. destruct (BootstrapPeers c) as [|a peers] eqn:Eb.
  - unfold calls. cbn [fst snd]. split; [|by rewrite Eb]. destruct (EnableMDNS c); calls_done; reflexivity.
  - unfold try. destruct (works (NewDHT (dhtPrefix c))) eqn:Ed; [|unfold failf; calls_done; split; reflexivity].
    unfold calls. cbn [fst snd]. split; [|by rewrite Eb]. rewrite <- !app_assoc. cbn [app foldl]. rewrite after_app, connects_neutral.
    destruct (EnableMDNS c); calls_done; reflexivity.
Qed.

(** [New] either returns a node with its host, its context and its four
    subscriptions open, and the DHT if there are bootstrap peers, or leaves
    neither host nor context open.  [Close] of such a node leaves nothing open
    that [New] opened. *)
Theorem network_released c :
  outcome_ok c (after (fst (NewNode c))) (snd (NewNode c)) /\
  forall d, snd (NewNode c) = Ok d -> after (fst (NewNode c) ++ fst (Close c d)) = nothing.
Proof.
  pose proof (NewNode_outcome c) as Hok. split; [done|]. intros d Hd. unfold outcome_ok in Hok. rewrite Hd in Hok. destruct Hok as [Ho _].
  unfold after in *. rewrite after_app, Ho. unfold Close. cbn [fst]. rewrite !after_app. cbn [foldl effect host context subs dht].
  rewrite cancels, cancelled. by destruct d.
Qed.
End Life.
End p2plife.

(** ** Chains do not hear each other *)
Section Isolation.
Context `{Platform}.
Import p2p.
Implicit Types (n m : Node) (c : Config).

Definition suffixes : list bytes := [topicTxSuffix; topicBatchSuffix; topicBlockSuffix; topicVoteSuffix].

Lemma suffix_end (a s : bytes) : (4 <= length s)%nat -> take 4 (reverse (a ++ s)) = take 4 (reverse s).
Proof. intros Hl. rewrite reverse_app, take_app_le; [done|]. by rewrite length_reverse. Qed.

(** A topic says which chain and which kind of message. *)
Lemma topics_apart a b s1 s2 :
  s1 ∈ suffixes -> s2 ∈ suffixes -> str "frg/" ++ a ++ s1 = str "frg/" ++ b ++ s2 -> a = b /\ s1 = s2.
Proof.
  intros H1 H2 He%app_inv_head. assert (take 4 (reverse s1) = take 4 (reverse s2)) as Ht.
  { assert (Forall (fun s : bytes => (4 <= length s)%nat) suffixes) as Hf by (repeat constructor).
    rewrite Forall_forall in Hf. rewrite <- (suffix_end a s1), <- (suffix_end b s2), He by auto. done. }
  assert (s1 = s2) as <-; [|split; [by apply app_inv_tail in He|done]].
  revert Ht. unfold suffixes in *. rewrite !elem_of_cons in H1, H2.
  destruct H1 as [->|[->|[->|[->|[]%not_elem_of_nil]]]], H2 as [->|[->|[->|[->|[]%not_elem_of_nil]]]]; done.
Qed.

Lemma deliver_foreign n a s data : s ∈ suffixes -> a <> chainID (cfg n) -> deliver n (str "frg/" ++ a ++ s, data) = Ok n.
Proof.
  intros Hs Ha. unfold deliver, topicTx, topicBatch, topicBlock, topicVote.
  repeat (rewrite bool_decide_eq_false_2; [|intros [? _]%topics_apart; [done|exact Hs|unfold suffixes; set_solver]]). done.
Qed.

(** What the nodes of one chain publish is nothing to the nodes of another.  A
    transaction, a batch, a block message or a vote broadcast by a node of
    another chain changes no channel of the node it is delivered to. *)
Theorem foreign_gossip_ignored n m t txs header v msg :
  chainID (cfg m) <> chainID (cfg n) ->
  BroadcastTx m t = Ok msg \/ BroadcastBatch m txs = Ok msg \/ BroadcastBlockHeader m header = Ok msg \/ BroadcastVote m v = Ok msg ->
  deliver n msg = Ok n.
Proof.
  intros Hne [Hb|[Hb|[Hb|Hb]]].
  - apply obind_ok_inv in Hb as (b & _ & <-%Ok_inj). apply deliver_foreign; [unfold suffixes; set_solver|done].
  - apply obind_ok_inv in Hb as (b & _ & <-%Ok_inj). apply deliver_foreign; [unfold suffixes; set_solver|done].
  - unfold BroadcastBlockHeader in Hb. case_match; [done|]. apply Ok_inj in Hb as <-. apply deliver_foreign; [unfold suffixes; set_solver|done].
  - apply Ok_inj in Hb as <-. apply deliver_foreign; [unfold suffixes; set_solver|done].
Qed.
End Isolation.

(** ** The explorer's event stream (cmd/frg-web, handleBlocks) *)
Module sse.

(** The JSON of the message, its keys in alphabetical order. *)
Definition payload (data : bytes) : bytes :=
  [x7b; x22] ++ str "hex" ++ [x22; x3a; x22] ++ hex_EncodeToString data ++ [x22; x2c; x22] ++ str "size" ++ [x22; x3a] ++
  denom.big_String (zlen data) ++ [x7d].

Definition event (data : bytes) : bytes := str "data: " ++ payload data ++ [x0a; x0a].

(** What has been written when the stream ends or a write fails; [writes]: whether
    each write works. *)
Fixpoint forward (msgs : list bytes) (writes : list bool) : bytes :=
  match msgs, writes with
  | data :: msgs, true :: writes => event data ++ forward msgs writes
  | _, _ => []
  end.

(** Reading an event back: what precedes a byte, and what follows it. *)
Fixpoint until (stop : byte) (s : bytes) : option (bytes * bytes) :=
  match s with
  | [] => None
  | b :: s => if bool_decide (b = stop) then Some ([], s) else match until stop s with Some (x, r) => Some (b :: x, r) | None => None end
  end.

Definition readEvent (s : bytes) : option (bytes * bytes) :=
  match until x22 (drop 14 s) with
  | Some (h, r) =>
    match hex_DecodeString h, until x0a r with
    | Some data, Some (_, x0a :: rest) => Some (data, rest)
    | _, _ => None
    end
  | None => None
  end.

Fixpoint readEvents (fuel : nat) (s : bytes) : list bytes :=
  match fuel with
  | O => []
  | S fuel => match readEvent s with Some (data, rest) => data :: readEvents fuel rest | None => [] end
  end.

Lemma until_app stop x r : Forall (fun b => b <> stop) x -> until stop (x ++ stop :: r) = Some (x, r).
Proof.
  induction 1 as [|b x Hb _ IH]; cbn; [by rewrite bool_decide_eq_true_2|]. by rewrite bool_decide_eq_false_2, IH.
Qed.

Lemma hex_plain data : Forall (fun b => b <> x22) (hex_EncodeToString data).
Proof.
  unfold hex_EncodeToString. induction data as [|b data IH]; [constructor|]. cbn. repeat (constructor; [|]); try exact IH.
  all: unfold hexDigit; destruct b; by vm_compute.
Qed.

Lemma digits_no_newline fuel z acc : Forall (fun b => b <> x0a) acc -> Forall (fun b => b <> x0a) (denom.digits_of fuel z acc).
Proof.
  revert z acc. induction fuel as [|fuel IH]; intros z acc Ha; [done|]. cbn [denom.digits_of].
  assert (Forall (fun b => b <> x0a) (byte_of_Z (48 + z mod 10) :: acc)) as Hc; [|case_match; auto].
  constructor; [|done]. intros He. apply (f_equal byte_to_Z) in He. rewrite byte_to_of_Z in He.
  pose proof (Z.mod_pos_bound z 10 ltac:(lia)). unfold two8 in He. rewrite Z.mod_small in He by lia. change (byte_to_Z x0a) with 10 in He. lia.
Qed.

Definition after_hex (data : bytes) : bytes := [x2c; x22] ++ str "size" ++ [x22; x3a] ++ denom.big_String (zlen data) ++ [x7d].

Lemma event_split data rest :
  event data ++ rest = (str "data: " ++ [x7b; x22] ++ str "hex" ++ [x22; x3a; x22]) ++ hex_EncodeToString data ++ x22 :: after_hex data ++ x0a :: x0a :: rest.
Proof. unfold event, payload, after_hex. rewrite <- !app_assoc. reflexivity. Qed.

Lemma after_hex_plain data : Forall (fun b => b <> x0a) (after_hex data).
Proof.
  unfold after_hex. rewrite !Forall_app. split_and!; try (by repeat constructor). apply digits_no_newline. constructor.
Qed.

Lemma event_read data rest : readEvent (event data ++ rest) = Some (data, rest).
Proof.
  unfold readEvent. rewrite event_split, drop_app_length' by reflexivity.
  rewrite until_app, hex_roundtrip by apply hex_plain. by rewrite until_app by apply after_hex_plain.
Qed.

(** The browser can tell the messages apart.  What the explorer writes for a stream of
    block messages, as long as its writes work, is read back as exactly these
    messages in order, whatever bytes they contain. *)
Theorem forward_read msgs writes fuel :
  (length msgs < fuel)%nat -> length writes = length msgs -> forallb id writes = true -> readEvents fuel (forward msgs writes) = msgs.
Proof.
  revert writes fuel. induction msgs as [|data msgs IH]; intros writes fuel Hf Hl Hw.
  - by destruct writes, fuel.
  - destruct writes as [|[] writes], fuel as [|fuel]; cbn in Hl, Hw; try done; [cbn in Hf; lia|]. cbn [forward readEvents]. rewrite event_read. f_equal.
    apply IH; [cbn in Hf; lia|lia|done].
Qed.
End sse.
