(* ===== verification/TelemetryProofs.v ===== *)
(** * Telemetry: what is stored for a block is served for it

    The telemetry a block's application stores is what every later query for
    its height is answered with, and its levels all report the value the
    block moved: coarse-graining conserves volume. *)

From S2P Require Import Prelude GoBytes Errors Platform Hex Tx KV Denom Ledger Staking Gas Mint Node NodeProofs Tree TreeProofs Inclusion RootProofs.
From S2P Require Import Contract BlockStore Telemetry StateMachine StateMachineProofs BlockProofs FrameProofs Gossip Rpc.
Import blockstore statemachine telemetry.

(** ** Strings of telemetry are ASCII *)
Lemma ascii_all s : forallb (fun b => byte_to_Z b <? 128) s = true -> ascii s.
Proof. intros Hf. apply Forall_forall. intros b Hb. apply Z.ltb_lt. by eapply forallb_forall in Hf; [|by apply list_elem_of_In]. Qed.

Ltac ascii_const := apply ascii_all; vm_compute; reflexivity.

Lemma ascii_app a b : ascii a -> ascii b -> ascii (a ++ b).
Proof. apply Forall_app_2. Qed.

Lemma digits_ascii fuel z acc : ascii acc -> ascii (denom.digits_of fuel z acc).
Proof.
  revert z acc. induction fuel as [|fuel IH]; intros z acc Ha; [done|]. cbn [denom.digits_of].
  assert (ascii (byte_of_Z (48 + z mod 10) :: acc)) as Hc.
  { constructor; [|done]. rewrite byte_to_of_Z. pose proof (Z.mod_pos_bound z 10 ltac:(lia)).
    unfold two8. rewrite Z.mod_small; lia. }
  case_match; auto.
Qed.

Lemma big_text_ascii z : ascii (big_text z).
Proof.
  assert (forall y, ascii (denom.big_String y)) as Hd by (intros y; apply digits_ascii; constructor).
  unfold big_text. case_match; [|apply Hd]. apply ascii_app; [ascii_const|apply Hd].
Qed.

Lemma txTypeName_ascii t : ascii (txTypeName t).
Proof. unfold txTypeName. repeat (case_match; [ascii_const|]). apply ascii_app; [ascii_const|apply big_text_ascii]. Qed.

Lemma signatureName_ascii s : ascii (signatureName s).
Proof. unfold signatureName. repeat (case_match; [ascii_const|]). apply ascii_app; [ascii_const|apply big_text_ascii]. Qed.

(** ** Levels *)
Section Levels.
Context `{Platform}.

Lemma levels_inv tr c levels :
  formatRGTelemetryLevels tr c = Ok levels ->
  Forall2 (fun layer l => TotalVolume l = big_text (levelVolume layer) /\ LVariance l = big_text (levelVariance layer) /\
                          Forall (fun x => ascii (SName x)) (SignatureCounts l)) (tree.layers tr) levels.
Proof.
  intros Hf%mapM_Forall2. apply Forall2_same_length_lookup. pose proof (Forall2_length _ _ _ Hf) as Hlen.
  rewrite length_seq in Hlen. unfold tree.LayerCount, zlen in Hlen. rewrite Nat2Z.id in Hlen. split; [done|].
  intros i layer l Hi Hl. rewrite Forall2_lookup in Hf. specialize (Hf i). rewrite Hl in Hf. inversion Hf as [k ? Hk Hseq Heq|]; subst.
  symmetry in Hseq. apply lookup_seq in Hseq as [-> _]. cbn [Nat.add] in Hk.
  assert (tree.Layer tr (Z.of_nat i) = Ok layer) as HL.
  { unfold tree.Layer, index. by rewrite (proj2 (Z.leb_le _ _)), Nat2Z.id, Hi by lia. }
  rewrite HL in Hk. cbn [obind] in Hk. osteps Hk. simplify_eq. cbn. split_and!; [done..|].
  apply Forall_map, Forall_forall. intros sg _. apply signatureName_ascii.
Qed.

(** Every layer of a tree has the volume of its leaves. *)
Lemma linked_volume ls l rest k :
  linked ls -> ls = l :: rest -> uniform k l -> Forall (fun layer => sumZ (map vol layer) = sumZ (map vol l)) ls.
Proof.
  intros Hl. revert l rest k. induction Hl as [n|l' next rest' Hlen Hc Hl IH]; intros l rest k Heq Hu.
  - injection Heq as <- _. by repeat constructor.
  - injection Heq as <- _. assert (l' <> []) as Hne by (intros ->; done). constructor; [done|].
    destruct (layer_sums k l' next Hu Hne Hc) as (<- & _). eapply IH; [done|]. by eapply coarsenLayer_uniform.
Qed.

Lemma BuildTree_volume txs cn tr :
  Forall leaf_ok cn -> tree.BuildTree txs cn = Ok tr ->
  exists leaves, tree.atomicLayer txs = Ok leaves /\
    Forall (fun layer => levelVolume layer = sumZ (map vol leaves) + sumZ (map vol cn)) (tree.layers tr).
Proof.
  intros Hcn Hb. destruct (decide (txs = [] /\ cn = [])) as [[-> ->]|Hne].
  - unfold tree.BuildTree in Hb. cbn in Hb. osteps Hb. simplify_eq. exists []. split; [done|]. by repeat constructor.
  - assert (txs <> [] \/ cn <> []) as Hor by (destruct txs, cn; [by destruct Hne|by right|by left|by left]).
    destruct (BuildTree_inv _ _ _ Hcn Hor Hb) as (leaves & rest & n & r & Ha & Hls & Hl & Hu & _).
    exists leaves. split; [done|]. rewrite <- sumZ_app, <- map_app. by eapply linked_volume.
Qed.

Lemma atomic_volume txs leaves :
  Forall (fun t => forall v, tx.Value t = Some v -> 0 <= v) txs -> tree.atomicLayer txs = Ok leaves ->
  sumZ (map vol leaves) = sumZ (omap tx.Value txs).
Proof.
  intros Hv Hl%atomicLayer_inv. induction Hl as [|t n txs leaves Hn _ IH]; [done|]. apply Forall_cons in Hv as [Ht Hv].
  apply makeAtomicNode_inv in Hn as (id & v & _ & Hval & _ & _ & _ & Hvol & _). 
  assert (omap tx.Value (t :: txs) = v :: omap tx.Value txs) as -> by (cbn; by rewrite Hval).
  cbn [map]. rewrite !sumZ_cons, IH by done. by rewrite (proj1 (Hvol (Ht v Hval))).
Qed.
End Levels.

(** The fields of a block's telemetry. *)
Lemma built_fields `{Platform} b tr exact t :
  buildBlockTelemetryFromTree b tr exact = Ok t ->
  BHeight t = Height b /\ BStateRoot t = StateRoot b /\ BProposer t = ProposerPubKey b /\ TxCount t = zlen (Txs b) /\
  TotalValue t = big_text (sumZ (omap tx.Value (Txs b))) /\ ContractStateIncluded t = exact /\
  (exact = true -> Warning t = []) /\ ascii_telemetry t /\
  exists c, formatRGTelemetryLevels tr c = Ok (Levels t).
Proof.
  unfold buildBlockTelemetryFromTree. intros Hb.
  match type of Hb with (let '(_, _) := ?p in _) = _ => destruct p as [mean variance] end.
  apply obind_ok_inv in Hb as (levels & Hl & <-%Ok_inj). cbn. split_and!; try done; [by intros ->| |by eexists].
  constructor; cbn.
  - repeat apply Forall_cons_2; try apply big_text_ascii; [|constructor]. case_match; [ascii_const|constructor].
  - apply Forall_map, Forall_forall. intros ty _. apply txTypeName_ascii.
  - apply levels_inv in Hl. eapply Forall2_Forall_r; [exact Hl|]. apply Forall_forall. intros layer _ l (-> & -> & Hs).
    split_and!; [apply big_text_ascii..|done].
Qed.

(** ** What a block stores *)
Section Stored.
Context `{PlatformLaws} `{contract.Wasmtime} `{JsonLaws} {B : Type} `{KVLaws B}.
Implicit Types (db : DB B) (st : TxState (B := B)).

Lemma withNonce_touched st t k st' :
  (forall st1, ts_touched st1 = ts_touched st -> k st1 = Ok st' -> ts_touched st' = ts_touched st1) ->
  withNonce st t k = Ok st' -> ts_touched st' = ts_touched st.
Proof.
  intros Hk Hw. unfold withNonce in Hw. destruct (ledger.AdvanceNonceTx _ _ _) as [db|e|]; [| |done].
  - by rewrite (Hk (set_db st db) eq_refl Hw).
  - destruct (isSequenceFault e); [|done]. by injection Hw as <-.
Qed.

(** A transaction that is not a contract's touches no contract. *)
Lemma applyTx_touched height baseFee st i t pre st' :
  isContractTx t = false -> applyTx height baseFee st i t pre = Ok st' -> ts_touched st' = ts_touched st.
Proof.
  intros Hc Ha. apply orb_false_iff in Hc as [Hd Hcall]. unfold applyTx in Ha. rewrite Hd, Hcall in Ha.
  destruct (tx.Type_ t =? tx.TxTypeTransfer).
  { destruct (ledger.TransferTx _ _) as [db|e|]; [by injection Ha as <-| |done].
    destruct (isSequenceFault e); [|done]. by injection Ha as <-. }
  repeat match type of Ha with (if ?b then _ else _) = _ => destruct b end; try (by injection Ha as <-).
  all: try (apply obind_ok_inv in Ha as (? & _ & Ha)).
  all: eapply withNonce_touched; [|exact Ha]; intros st1 _ Hk; cbv beta in Hk; try (by injection Hk as <-).
  all: osteps Hk; by simplify_eq.
Qed.

Lemma applyTxs_untouched height baseFee db txs pres st :
  Forall (fun t => isContractTx t = false) txs -> applyTxs height baseFee db txs pres = Ok st -> ts_touched st = ∅.
Proof.
  intros Hp Ha. unfold applyTxs in Ha. apply (foldM_inv _ (fun st => ts_touched st = ∅)) in Ha; [done| |done].
  intros s s' [i [t pre]] Hin Hs Happ. rewrite <- Hs. eapply applyTx_touched; [|exact Happ].
  apply elem_of_lookup_imap in Hin as (j & [t' pre'] & [= -> -> ->] & Hin).
  rewrite Forall_forall in Hp. apply Hp. apply list_elem_of_lookup_2 in Hin. by apply elem_of_zip_l in Hin.
Qed.

(** The node of a touched contract commits to the state the contract has in the database. *)
Lemma contractNode_commits db addr n :
  contractNode db addr = Ok n -> exists s, contract.loadState db addr = Ok s /\ contract_leaf n s.
Proof.
  unfold contractNode, contract.LoadStateRoot. intros (r & (s & Hs & <-%Ok_inj)%obind_ok_inv & Hn)%obind_ok_inv. exists s. split; [done|].
  osteps Hn. by simplify_eq.
Qed.

Lemma contractNode_leaf db addr n : contractNode db addr = Ok n -> leaf_ok n.
Proof. by intros (s & _ & Hl & _)%contractNode_commits. Qed.

(** The telemetry a block leaves behind, and where. *)
Lemma applyBody_telemetry iter b bc db db' root g :
  applyBody iter b bc db = Ok (db', (root, g)) ->
  exists st nodes tr t data,
    applyTxs (Height b) (bc_baseFee bc) db (Txs b) (bc_precheck bc) = Ok st /\
    mapM (contractNode (ts_db st)) (iter (ts_touched st)) = Ok nodes /\ tree.BuildTree (Txs b) nodes = Ok tr /\
    buildBlockTelemetryFromTree (with_root b root) tr true = Ok t /\ json_Marshal t = Ok data /\
    block_telemetry db' = kv_Put (block_telemetry db) (blockKey (Height b)) data.
Proof.
  intros Hb. pose proof Hb as Hb'. unfold applyBody in Hb'. osteps Hb'. simplify_eq.
  unfold putBlockTelemetryTx, putBlockTx in *.
  repeat match goal with Ho : (let* _ := _ in _) = Ok _ |- _ => osteps Ho end. simplify_eq.
  do 5 eexists. split_and!; try done. cbn [block_telemetry set_blocks set_block_telemetry].
  match goal with Ht : buildBlockTelemetryFromTree _ _ _ = Ok _ |- _ => apply built_fields in Ht as (-> & _) end. cbn [Height]. f_equal.
  repeat match goal with
  | Hs : applyTxs _ _ _ _ _ = Ok _ |- _ => apply applyTxs_meta in Hs as (_ & _ & Hs)
  | Hs : chargeGas _ _ _ _ = Ok _ |- _ => apply chargeGas_meta in Hs as (_ & _ & Hs)
  | Hs : applyMisses _ _ _ = Ok _ |- _ => apply applyMisses_meta in Hs as (_ & _ & Hs)
  | Hs : mintRewards _ _ _ = Ok _ |- _ => apply mintRewards_meta in Hs as (_ & _ & Hs)
  | Hs : persistMeta _ _ _ _ _ _ _ _ _ = Ok _ |- _ =>
      unfold persistMeta, SetTotalSupplyTx in Hs; osteps Hs; simplify_eq; cbn [block_telemetry putMeta set_meta]
  end; congruence.
Qed.
Definition telemetryOf db h : option bytes := kv_Get (block_telemetry db) (blockKey h).

Lemma applied_telemetry ncpu iter db b chainID db' r h :
  ApplyBlockForChain ncpu iter db b chainID = (db', Ok r) -> is_u64 h -> h <> Height b -> telemetryOf db' h = telemetryOf db h.
Proof.
  intros Ha Hh Hne. pose proof (applied_height _ _ _ _ _ _ _ Ha) as (cur & _ & Hnext & _).
  unfold ApplyBlockForChain in Ha. destruct (prepareBlock _ _ _ _) as [bc| |]; [|done..].
  destruct (Update _ _) as [db0 [[root g]| |]] eqn:Hu; [|done..]. injection Ha as -> _.
  apply Update_ok, applyBody_telemetry in Hu as (_ & _ & _ & _ & data & _ & _ & _ & _ & _ & Ht).
  unfold telemetryOf. rewrite Ht, kv_get_put, decide_False; [done|]. intros He. apply Hne. unfold blockKey, put64 in He.
  symmetry. apply be_enc_inj in He; [done| |exact Hh]. rewrite Hnext. by apply Z.mod_pos_bound.
Qed.

(** A later attempt moves the height by at most one and leaves older telemetry alone. *)
Lemma later_telemetry db h k later :
  CurrentHeight db = Ok (wrap64 (h + k)) -> is_u64 h -> 0 <= k -> k + zlen later < two64 ->
  telemetryOf (foldl tryBlock db later) h = telemetryOf db h.
Proof.
  revert db k. induction later as [|a later IH]; intros db k Hcur Hh Hk Hlen; [done|]. cbn [foldl].
  rewrite zlen_cons in Hlen. pose proof (zlen_nonneg later). destruct a as [[[ncpu iter] b] chainID]. cbn [tryBlock].
  destruct (ApplyBlockForChain ncpu iter db b chainID) as [db' r] eqn:Ea. cbn [fst]. destruct (is_Ok r) eqn:Er.
  - destruct r as [r| |]; [|done..]. pose proof (applied_height _ _ _ _ _ _ _ Ea) as (cur & Hc & Hnext & Hc').
    rewrite Hcur in Hc. apply Ok_inj in Hc as <-.
    assert (Height b = wrap64 (h + (k + 1))) as Hb.
    { rewrite Hnext. unfold wrap64. by rewrite Zplus_mod_idemp_l, Z.add_assoc. }
    rewrite (IH db' (k + 1)) by (rewrite ?Hc', ?Hb; done || lia).
    eapply applied_telemetry; [done|done|]. rewrite Hb. unfold wrap64, is_u64, two64 in *. intros He.
    pose proof (Z.div_mod (h + (k + 1)) (2 ^ 64) ltac:(done)) as Hd. rewrite <- He in Hd. nia.
  - pose proof (rejected_unchanged ncpu iter db b chainID) as Hr. rewrite Ea in Hr. cbn in Hr. rewrite (Hr Er).
    apply (IH db k); done || lia.
Qed.

(** C40.  Telemetry tells what a block did.  Once a block is accepted, every observer
    that asks for its height, then or after any number of later blocks,
    accepted or not, and right after it for the latest height, gets one
    answer: the block's height, root, proposer, number of transactions and
    total value, and tree levels that all report the same volume, the
    block's total value and what the contracts it touched hold; that is
    nothing if it has no contract transactions. *)
Theorem telemetry_served ncpu iter db b chainID db' r later a i (n : rpc.nodeRuntime B) :
  ApplyBlockForChain ncpu iter db b chainID = (db', Ok r) -> (forall s, iter s ≡ₚ elements s) ->
  Height b <> 0 -> zlen later < two64 ->
  rpc.authorize a i rpc.roleObserver = Ok tt -> rpc.sm n = Some (foldl tryBlock db' later) ->
  exists resp, rpc.GetBlockTelemetry a i n (Height b) = Ok resp /\ (later = [] -> rpc.GetBlockTelemetry a i n 0 = Ok resp) /\
    frgpb.height resp = Height b /\ frgpb.state_root resp = arr_bytes (RStateRoot r) /\
    frgpb.proposer_pubkey resp = arr_bytes (ProposerPubKey b) /\ frgpb.tx_count resp = zlen (Txs b) /\
    let total := sumZ (omap tx.Value (Txs b)) in
    frgpb.total_value resp = big_text total /\ frgpb.warning resp = [] /\
    exists held, 0 <= held /\ Forall (fun l => frgpb.total_volume l = big_text (total + held)) (frgpb.levels resp) /\
      (Forall (fun t => isContractTx t = false) (Txs b) -> held = 0).
Proof.
  intros Ha Hiter Hne Hlater Hauth Hsm. pose proof (applied_height _ _ _ _ _ _ _ Ha) as (cur & _ & Hnext & Hheight).
  assert (is_u64 (Height b)) as Hu64 by (rewrite Hnext; by apply Z.mod_pos_bound).
  pose proof (ApplyBlock_signed _ _ _ _ _ _ _ Ha) as Hsig.
  unfold ApplyBlockForChain in Ha. destruct (prepareBlock _ _ _ _) as [bc| |]; [|done..].
  destruct (Update _ _) as [db0 [[root g]| |]] eqn:Hu; [|done..]. injection Ha as -> <-.
  apply Update_ok, applyBody_telemetry in Hu as (st & nodes & tr & t & data & Hst & Hn & Htr & Ht & Hdata & Hput).
  apply built_fields in Ht as (Hbh & Hroot & Hprop & Hcount & Htot & _ & Hwarn & Hascii & c & Hlev).
  assert (telemetryOf (foldl tryBlock db' later) (Height b) = Some data) as Hget.
  { rewrite (later_telemetry db' (Height b) 0) by (rewrite ?Z.add_0_r, ?Hheight; try done; try lia; by unfold wrap64; rewrite Z.mod_small).
    unfold telemetryOf. by rewrite Hput, kv_get_put, decide_True. }
  assert (forall h, h = Height b \/ h = 0 /\ later = [] -> rpc.GetBlockTelemetry a i n h = Ok (rpc.protoBlockTelemetry t)) as Hquery.
  { intros h Hh. unfold rpc.GetBlockTelemetry, rpc.queryTelemetry. rewrite Hauth. cbn [obind]. rewrite Hsm.
    assert ((if h =? 0 then CurrentHeight (foldl tryBlock db' later) else Ok h) = Ok (Height b)) as ->.
    { destruct Hh as [->|[-> ->]]; [by rewrite (proj2 (Z.eqb_neq _ _))|done]. }
    cbn [obind]. rewrite (proj2 (Z.eqb_neq _ _)) by done. unfold BlockTelemetryAt, telemetryOf in *. rewrite Hget.
    by rewrite (json_reads_back t data Hascii Hdata). }
  exists (rpc.protoBlockTelemetry t). cbn. rewrite Hroot, Hprop, Hcount, Htot, Hbh. split_and!; auto.
  destruct (BuildTree_volume (Txs b) nodes tr) as (leaves & Hleaves & Hvol); [|done|].
  { apply mapM_Forall2 in Hn. eapply Forall2_Forall_r; [exact Hn|]. apply Forall_forall. intros ad _ m. apply contractNode_leaf. }
  apply atomic_volume in Hleaves; [|eapply Forall_impl; [exact Hsig|]; intros t0 Hs v; by apply (signed_value t0 chainID)]. rewrite Hleaves in Hvol.
  exists (sumZ (map vol nodes)). split_and!.
  - apply sum_map_nonneg, vol_nonneg.
  - apply levels_inv in Hlev. apply Forall_map. eapply Forall2_Forall_r; [exact Hlev|]. eapply Forall_impl; [exact Hvol|].
    intros layer Hly l (Hl & _). cbn. by rewrite Hl, Hly.
  - intros Hplain. rewrite (applyTxs_untouched _ _ _ _ _ _ Hplain Hst) in Hn.
    assert (iter ∅ = []) as Hi by (apply Permutation_nil_r; by rewrite Hiter, elements_empty). rewrite Hi in Hn. by injection Hn as <-.
Qed.
End Stored.
