(* ===== verification/RpcProofs.v ===== *)
(** * cmd/frg-node: who may submit, how much, and what happens to it *)

From S2P Require Import Prelude GoBytes Errors Platform Hex Tx TxProofs TxSigProofs BatchProofs KV Denom Ledger Staking Gas Mint Node Tree.
From S2P Require Import Contract BlockStore Telemetry StateMachine Vote BlockLoop Round Engine Gossip Rpc.
Import rpc.

(** ** Authorization *)
Section Authorize.
Context `{Platform}.

Lemma roleOf_name s r : roleOf s = Some r <-> roleName r = s.
Proof.
  unfold roleOf. split.
  - intros [_ Hb]%List.find_some. by apply bool_decide_eq_true in Hb.
  - intros <-. by destruct r.
Qed.

(** A fingerprint that may be configured. *)
Definition fingerprint_ok (fp : bytes) : Prop := is_Some (hex_DecodeString fp) /\ zlen fp = 64.

Lemma addRoles_spec configured roles0 rs :
  NoDup (map fst configured) -> foldM addRole roles0 configured = Ok rs ->
  (forall k, k ∈ map fst configured -> fingerprint_ok k) /\
  forall k r, rs !! k = Some r <-> (k, roleName r) ∈ configured \/ roles0 !! k = Some r /\ (k ∉ map fst configured).
Proof.
  revert roles0. induction configured as [|[fp name] l IH]; intros roles0 Hnd Hf; cbn [foldM] in Hf.
  { apply Ok_inj in Hf as <-. split; [intros k Hk; by apply not_elem_of_nil in Hk|]. intros k r. cbn. set_solver. }
  apply obind_ok_inv in Hf as (m & Ha & Hf). cbn [map fst] in *. inversion Hnd as [|? ? Hni Hnd']; subst.
  apply IH in Hf as [Hok Hrs]; [|done]. unfold addRole in Ha. case_match eqn:Eg; [done|].
  destruct (roleOf name) as [role|] eqn:Er; [|done]. apply Ok_inj in Ha as <-. apply roleOf_name in Er. subst name. bsimp.
  assert (fingerprint_ok fp) as Hfp by (split; [destruct (hex_DecodeString fp); eauto; done|done]).
  split; [intros k [->|Hk]%elem_of_cons; auto|]. intros k r. rewrite Hrs, !elem_of_cons, lookup_insert_Some.
  assert (roleName r = roleName role -> r = role) as Hinj by (by destruct r, role).
  assert ((k, roleName r) ∈ l -> k ∈ map fst l) as Hin by (intros Hk; apply list_elem_of_fmap; by exists (k, roleName r)).
  naive_solver.
Qed.

(** Who may call what.  A server configured with certificate fingerprints lets a
    client with a certificate through exactly when the lower-case hex of the
    certificate's SHA-256 is configured with the required role, with admin, or
    with validator for anything but admin.  Without a certificate a client
    gets through only if no identity is required. *)
Theorem authorize_spec configured need a info required :
  NoDup (map fst configured) -> newRPCAuthorizer configured need = Ok a ->
  (authorize (Some a) info required = Ok tt <->
   match info with
   | TLSInfo (Some (cert :: _)) =>
       (fingerprintOf cert, roleName required) ∈ configured \/ (fingerprintOf cert, str "admin") ∈ configured \/
       required <> roleAdmin /\ (fingerprintOf cert, str "validator") ∈ configured
   | OtherAuthInfo => False
   | _ => need = false
   end) /\
  forall k, k ∈ map fst configured -> fingerprint_ok k.
Proof.
  intros Hnd Hn. unfold newRPCAuthorizer in Hn. apply obind_ok_inv in Hn as (rs & Hf & <-%Ok_inj).
  apply addRoles_spec in Hf as [Hok Hrs]; [|done]. split; [|done]. unfold authorize.
  destruct info as [| |[[|cert certs]|]]; cbn [requireIdentity roles]; try (by destruct need).
  assert (forall role, rs !! fingerprintOf cert = Some role <-> (fingerprintOf cert, roleName role) ∈ configured) as Hl.
  { intros role. rewrite Hrs, lookup_empty. naive_solver. }
  change (str "admin") with (roleName roleAdmin). change (str "validator") with (roleName roleValidator).
  rewrite <- !Hl. destruct (rs !! fingerprintOf cert) as [role|]; [|naive_solver].
  unfold roleAllows. destruct role, required; cbn; naive_solver.
Qed.

(** A fingerprint in capitals is accepted by the configuration and never matches. *)
Lemma capitals_never_match configured need a cert certs required :
  NoDup (map fst configured) -> newRPCAuthorizer configured need = Ok a ->
  (forall fp name, (fp, name) ∈ configured -> fp <> fingerprintOf cert) ->
  is_Ok (authorize (Some a) (TLSInfo (Some (cert :: certs))) required) = false.
Proof.
  intros Hnd Hn Hno. unfold newRPCAuthorizer in Hn. apply obind_ok_inv in Hn as (rs & Hf & <-%Ok_inj).
  apply addRoles_spec in Hf as [_ Hrs]; [|done]. unfold authorize. cbn [roles].
  destruct (rs !! fingerprintOf cert) as [role|] eqn:E; [|done]. apply Hrs in E as [Hin|[Hl _]]; [|by rewrite lookup_empty in Hl].
  by destruct (Hno _ _ Hin).
Qed.
End Authorize.

(** ** The rate limit *)
Section Limit.

(** A call to the limiter, and the log of those it let through, newest first. *)
Record call : Type := mkCall { c_addr : option bytes; c_now : Z; c_count : Z }.

Definition limit_step (st : option submitLimiter * list call) (c : call) : option submitLimiter * list call :=
  let '(l, log) := st in
  let '(l, r) := allow l (c_addr c) (c_now c) (c_count c) in
  (l, if is_Ok r then c :: log else log).

Definition limit_run (calls : list call) : option submitLimiter * list call :=
  foldl limit_step (Some newSubmitLimiter, []) calls.

Definition times_ok (calls : list call) : Prop := StronglySorted (fun c d => c_now c <= c_now d) calls.

(** What went through for a client from a time on: the sum of a measure. *)
Definition passed (w : call -> Z) (key : bytes) (from : Z) (log : list call) : Z :=
  sumZ (map (fun c => if decide (peerKey (c_addr c) = key /\ from <= c_now c) then w c else 0) log).

Lemma windowOf_lookup l key now l' st k :
  windowOf l key now = (l', st) ->
  match l' !! k with
  | Some s => l !! k = Some s
  | None => match l !! k with Some s => submitWindow <= now - started s | None => True end
  end /\ (forall s, st = Some s -> l !! key = Some s \/ l !! key = None /\ s = mkWindow now 0 0) /\
  (l !! key = None -> l' !! key = None).
Proof.
  assert (forall k, match evict l now !! k with
    | Some s => l !! k = Some s
    | None => match l !! k with Some s => submitWindow <= now - started s | None => True end end) as He.
  { intros j. unfold evict. destruct (filter _ l !! j) as [s|] eqn:E; [by apply map_lookup_filter_Some in E as [? _]|].
    apply map_lookup_filter_None in E as [E|E]; [by rewrite E|]. destruct (l !! j) as [s|] eqn:Ej; [|done].
    specialize (E s eq_refl). cbn in E. destruct (now - started s >=? submitWindow) eqn:Eg; [bsimp; lia|done]. }
  assert (forall j, match l !! j with
    | Some s => l !! j = Some s
    | None => match l !! j with Some s => submitWindow <= now - started s | None => True end end) as Hl by (intros j; by destruct (l !! j) eqn:E).
  unfold windowOf. destruct (l !! key) as [s|] eqn:Ek.
  { intros [= <- <-]. split_and!; [apply Hl|by intros s' [= <-]; left|done]. }
  assert (evict l now !! key = None) as Hek by (specialize (He key); destruct (evict l now !! key); [congruence|done]).
  destruct (Z.of_nat (size l) >=? maxTrackedSubmitPeers); [destruct (Z.of_nat (size (evict l now)) >=? maxTrackedSubmitPeers)|];
    intros [= <- <-]; (split_and!; [apply He || apply Hl|by intros s' [= <-]; right|by intros _]).
Qed.

(** A measure of requests that the windows count: their number or their transactions. *)
Section Measure.
Context (w : call -> Z) (f : submitWindowState -> Z) (bound : Z).
Context (Hzero : forall s, f (mkWindow s 0 0) = 0).
Context (Hadd : forall s c, f (mkWindow (started s) (txs s + c_count c) (requests s + 1)) = f s + w c).
Context (Hguard : forall s c, requests s < maxSubmitReqsPerPeer -> txs s + c_count c <= maxSubmitTxPerPeer -> f s + w c <= bound).
Context (Hw : forall c, 1 <= c_count c -> 0 <= w c).
Context (Hbound : 0 <= bound).

Definition log_ok (log : list call) : Prop := Forall (fun c => 1 <= c_count c) log.

Lemma passed_mono key a b log : log_ok log -> a <= b -> passed w key b log <= passed w key a log.
Proof.
  intros Hl Hab. unfold passed. induction Hl as [|c log Hc _ IH]; [done|]. cbn [map]. rewrite !sumZ_cons.
  pose proof (Hw c Hc). repeat case_decide; naive_solver lia.
Qed.

Lemma passed_nonneg key a log : log_ok log -> 0 <= passed w key a log.
Proof.
  intros Hl. unfold passed. induction Hl as [|c log Hc _ IH]; [done|]. cbn [map]. rewrite sumZ_cons.
  pose proof (Hw c Hc). case_decide; lia.
Qed.

Lemma passed_cons key a c log :
  passed w key a (c :: log) = passed w key a log + (if decide (peerKey (c_addr c) = key /\ a <= c_now c) then w c else 0).
Proof. unfold passed. cbn [map]. rewrite sumZ_cons. lia. Qed.

(** A window's count is what went through since it started; before that, at most
    one bound's worth within a window's length. *)
Record open_window (key : bytes) (now : Z) (s : submitWindowState) (log : list call) : Prop :=
  { ow_started : started s <= now;
    ow_count : passed w key (started s) log = f s;
    ow_bound : f s <= bound;
    ow_before : forall a, started s - submitWindow < a -> a <= started s -> passed w key a log <= f s + bound;
    ow_after : passed w key (started s + submitWindow) log = 0 }.

Definition windowed (key : bytes) (now : Z) (l : submitLimiter) (log : list call) : Prop :=
  match l !! key with
  | None => (forall a, now - submitWindow < a -> passed w key a log <= bound) /\ passed w key now log = 0
  | Some s => open_window key now s log
  end.

Lemma zero_mono key a b log : log_ok log -> a <= b -> passed w key a log = 0 -> passed w key b log = 0.
Proof. intros Hl Hab Ha. pose proof (passed_mono key a b log Hl Hab). pose proof (passed_nonneg key b log Hl). lia. Qed.

Lemma windowed_later key now now' l log : log_ok log -> now <= now' -> windowed key now l log -> windowed key now' l log.
Proof.
  intros Hl Hn. unfold windowed. destruct (l !! key) as [s|].
  - intros []. constructor; try done. lia.
  - intros [Ha Hz]. split; [intros a Ha'; apply Ha; lia|]. by eapply zero_mono.
Qed.

(** A window that is over leaves at most one bound's worth behind. *)
Lemma window_over key now now' s log :
  log_ok log -> open_window key now s log -> submitWindow <= now' - started s ->
  (forall a, now' - submitWindow < a -> passed w key a log <= bound) /\ passed w key now' log = 0.
Proof.
  intros Hl [Hs Hc Hb _ Ha] Ho. split.
  - intros a Hlt. pose proof (passed_mono key (started s) a log Hl ltac:(lia)). lia.
  - apply (zero_mono key (started s + submitWindow)); [done|lia|done].
Qed.

Lemma fresh_window key now log :
  (forall a, now - submitWindow < a -> passed w key a log <= bound) -> passed w key now log = 0 -> log_ok log ->
  open_window key now (mkWindow now 0 0) log.
Proof.
  intros Hb Hz Hl. constructor; cbn [started]; rewrite ?Hzero; try lia.
  - intros a Ha _. specialize (Hb a Ha). lia.
  - apply (zero_mono key now); [done|unfold submitWindow; lia|done].
Qed.

Lemma windowed_evicted key now now' l l' k st log :
  log_ok log -> now <= now' -> windowed key now l log -> windowOf l k now' = (l', st) -> windowed key now' l' log.
Proof.
  intros Hl Hn Hw' Hof. destruct (windowOf_lookup _ _ _ _ _ key Hof) as [Hk _].
  unfold windowed in *. destruct (l' !! key) as [s|]; [rewrite Hk in Hw'; destruct Hw'; constructor; try done; lia|].
  destruct (l !! key) as [s|]; [by eapply window_over|]. destruct Hw' as [Ha Hz].
  split; [intros a Ha'; apply Ha; lia|by eapply zero_mono].
Qed.

(** The window a request is counted in, after a reset if the old one is over. *)
Lemma current_window key now now' l l' s0 log :
  log_ok log -> now <= now' -> windowed key now l log -> windowOf l key now' = (l', Some s0) ->
  let s := if now' - started s0 >=? submitWindow then mkWindow now' 0 0 else s0 in
  open_window key now' s log /\ now' < started s + submitWindow.
Proof.
  intros Hl Hn Hwd Hof s. destruct (windowOf_lookup _ _ _ _ _ key Hof) as (_ & Hst & _).
  unfold windowed in Hwd. subst s. destruct (Hst s0 eq_refl) as [Hk|[Hk ->]]; rewrite Hk in Hwd.
  - destruct (now' - started s0 >=? submitWindow) eqn:Eg; bsimp.
    + destruct (window_over key now now' s0 log Hl Hwd ltac:(lia)). split; [by apply fresh_window|unfold submitWindow; cbn; lia].
    + split; [destruct Hwd; constructor; try done; lia|lia].
  - cbn [started]. rewrite Z.sub_diag. change (0 >=? submitWindow) with false. cbn [started]. destruct Hwd as [Ha Hz].
    split; [|unfold submitWindow; lia]. apply fresh_window; [intros a Ha'; apply Ha; lia|by eapply zero_mono|done].
Qed.

Lemma allow_windowed key now l log c l' r :
  log_ok log -> now <= c_now c -> windowed key now l log -> allow (Some l) (c_addr c) (c_now c) (c_count c) = (l', r) ->
  exists l1, l' = Some l1 /\ log_ok (if is_Ok r then c :: log else log) /\
    windowed key (c_now c) l1 (if is_Ok r then c :: log else log).
Proof.
  intros Hl Hn Hwd Ha. unfold allow in Ha. destruct ((_ <? 1) || _) eqn:Eg.
  { injection Ha as <- <-. exists l. split_and!; [done..|by eapply windowed_later]. }
  bsimp. destruct (windowOf l (peerKey (c_addr c)) (c_now c)) as [l1 [s0|]] eqn:Ew.
  2:{ injection Ha as <- <-. exists l1. split_and!; [done..|by eapply windowed_evicted]. }
  set (s := if c_now c - started s0 >=? submitWindow then mkWindow (c_now c) 0 0 else s0) in *.
  pose proof (windowed_evicted key _ _ _ _ _ _ log Hl Hn Hwd Ew) as Hother.
  destruct ((requests s >=? _) || _) eqn:Er; injection Ha as <- <-; cbn [is_Ok]; eexists.
  - split_and!; [done..|]. unfold windowed. rewrite lookup_insert. case_decide as Hk; [subst key|exact Hother].
    by eapply current_window in Ew as [? _].
  - split_and!; [done|by constructor; [lia|]|]. unfold windowed. rewrite lookup_insert. bsimp. case_decide as Hk.
    + subst key. apply (current_window _ now _ _ _ _ log Hl Hn Hwd) in Ew as [[Hs Hc Hb Hbf Haf] Hlt]. fold s in Hs, Hc, Hb, Hbf, Haf, Hlt.
      constructor; rewrite ?Hadd; cbn [started].
      * done.
      * rewrite passed_cons, decide_True by auto. lia.
      * apply Hguard; lia.
      * intros a Ha1 Ha2. rewrite passed_cons, decide_True by (split; [done|lia]). specialize (Hbf a Ha1 Ha2). lia.
      * rewrite passed_cons, decide_False by (intros [_ ?]; lia). lia.
    + unfold windowed in Hother. destruct (l1 !! key) as [s'|].
      * destruct Hother. constructor; try done; try (intros a Ha1 Ha2; rewrite passed_cons, decide_False by tauto; rewrite Z.add_0_r; auto);
          rewrite passed_cons, decide_False by tauto; lia.
      * destruct Hother as [Ho1 Ho2]. split; [intros a Ha1|]; rewrite passed_cons, decide_False by tauto; [specialize (Ho1 a Ha1)|]; lia.
Qed.

Lemma run_windowed calls l log key now :
  log_ok log -> windowed key now l log -> times_ok calls -> Forall (fun c => now <= c_now c) calls ->
  exists l' log', foldl limit_step (Some l, log) calls = (Some l', log') /\ log_ok log' /\
    forall last, now <= last -> Forall (fun c => c_now c <= last) calls -> windowed key last l' log'.
Proof.
  revert l log now. induction calls as [|c calls IH]; intros l log now Hl Hwd Ht Hn; cbn [foldl].
  { exists l, log. split_and!; [done..|]. intros last Hlast _. by eapply windowed_later. }
  apply Forall_cons in Hn as [Hc Hn]. inversion Ht as [|? ? Ht' Hsc]; subst.
  unfold limit_step at 2. destruct (allow (Some l) (c_addr c) (c_now c) (c_count c)) as [l1 r] eqn:Ea.
  destruct (allow_windowed key now l log c l1 r Hl Hc Hwd Ea) as (l2 & -> & Hl2 & Hw2).
  destruct (IH l2 _ (c_now c) Hl2 Hw2 Ht' Hsc) as (l' & log' & Hf & Hl' & Hlast). exists l', log'. split_and!; [done..|].
  intros last Hle [Hcl Hall]%Forall_cons. by apply Hlast.
Qed.

(** Whatever the calls, no client gets more than two bounds' worth through within
    the length of a window. *)
Lemma limit_bound calls key from last :
  times_ok calls -> Forall (fun c => c_now c <= last) calls -> last - submitWindow < from ->
  passed w key from (snd (limit_run calls)) <= 2 * bound.
Proof.
  intros Ht Hle Hfrom. destruct calls as [|c0 calls]; [cbn; unfold passed; cbn; lia|].
  assert (log_ok []) as Hnil by constructor.
  assert (windowed key (c_now c0) newSubmitLimiter []) as Hwd0.
  { unfold windowed, newSubmitLimiter. rewrite lookup_empty. unfold passed. cbn. split; [intros; lia|done]. }
  assert (Forall (fun c => c_now c0 <= c_now c) (c0 :: calls)) as Hall.
  { inversion Ht as [|? ? _ Hs]; subst. constructor; [lia|done]. }
  destruct (run_windowed _ _ _ key _ Hnil Hwd0 Ht Hall) as (l' & log' & Hf & Hl' & Hlast).
  unfold limit_run. rewrite Hf. cbn [snd]. apply Forall_cons in Hle as [Hc0 Hle'].
  specialize (Hlast last Hc0 ltac:(by constructor)). unfold windowed in Hlast. destruct (l' !! key) as [s|].
  - destruct Hlast as [Hs Hc Hb Hbf _]. destruct (Z.le_gt_cases from (started s)) as [Hlt|Hgt].
    + specialize (Hbf from ltac:(lia) Hlt). lia.
    + pose proof (passed_mono key (started s) from log' Hl' ltac:(lia)). lia.
  - destruct Hlast as [Ha _]. specialize (Ha from Hfrom). lia.
Qed.
End Measure.

(** C30.  Nobody floods the node.  Over any history of calls at nondecreasing times, the
    limiter lets through, for any client and in any interval shorter than a
    second, at most 4096 transactions in at most 256 requests (twice what a
    window allows, since two windows can meet in the interval). *)
Theorem submit_rate_bounded calls key from last :
  times_ok calls -> Forall (fun c => c_now c <= last) calls -> last - submitWindow < from ->
  passed c_count key from (snd (limit_run calls)) <= 2 * maxSubmitTxPerPeer /\
  passed (fun _ => 1) key from (snd (limit_run calls)) <= 2 * maxSubmitReqsPerPeer.
Proof.
  intros Ht Hl Hf. split.
  - apply (limit_bound c_count txs maxSubmitTxPerPeer) with (last := last); try done; intros; cbn; lia.
  - apply (limit_bound (fun _ => 1) requests maxSubmitReqsPerPeer) with (last := last); try done; intros; cbn; lia.
Qed.
End Limit.

(** ** Submissions *)
Section Submit.
Context `{Platform} (taken : bytes * bytes -> bool).
Implicit Types (s : nodeGRPCServer).

Lemma parse_spec data chain t :
  p2p.parseTxForChain data chain = Ok t <-> tx.Deserialize data = Ok t /\ tx.VerifySigsForChain t chain = Ok tt.
Proof.
  unfold p2p.parseTxForChain. split.
  - by intros (t' & Hd & ([] & Hv & <-%Ok_inj)%obind_ok_inv)%obind_ok_inv.
  - intros [-> Hv]. cbn [obind]. by rewrite Hv.
Qed.

(** A transaction signed by the key it names and serialized is accepted on its chain. *)
Lemma signed_parses `{!PlatformLaws} tr kp chain sig raw :
  keys.generated kp -> tx.SenderPubKey tr = keys.PublicKey kp -> tx.wf tr -> tx.knownType (tx.Type_ tr) = true ->
  tx.SignSenderForChain tr kp chain = Ok sig -> tx.Serialize (set_SenderSig sig tr) = Ok raw ->
  p2p.parseTxForChain raw chain = Ok (canon (set_SenderSig sig tr)).
Proof.
  intros Hg Hpk [Hw1 Hw2 Hw3 Hw4] Hty Hsig Hraw. apply parse_spec. split; [apply tx_roundtrip; [by constructor|done]|].
  apply VerifySigs_canon. by eapply SignSender_verifies.
Qed.

(** The parts of the server a call does not touch. *)
Definition same_server s s' : Prop := node s' = node s /\ chainID s' = chainID s /\ authorizer s' = authorizer s.

Lemma send_spec s msg s' sent :
  send taken s msg = Ok (s', sent) ->
  same_server s s' /\ if (sent : bool) then exists m, msg = Ok m /\ taken m = true /\ published s' = published s ++ [m] else published s' = published s.
Proof.
  unfold send. destruct msg as [m| |]; [|by intros [= <- <-]|done]. destruct (taken m) eqn:Et; intros [= <- <-]; [|done].
  split; [done|]. by exists m.
Qed.

Lemma SubmitTx_inv s ctx data s' r :
  SubmitTx taken s ctx (Some data) = Ok (s', r) ->
  same_server s s' /\
  (r = Answer true /\ (exists n t, node s = Some n /\ tx.Deserialize data = Ok t /\
      tx.VerifySigsForChain t (chainID s) = Ok tt /\ published s' = published s ++ [(p2p.topicTx (p2p.cfg n), data)]) /\
     authorize (authorizer s) (info ctx) roleSubmitter = Ok tt \/
   r <> Answer true /\ published s' = published s).
Proof.
  unfold SubmitTx. intros Hs. cbn [authorizer count limiter metrics node chainID set_limiter] in Hs.
  destruct (ended ctx 0); [injection Hs as <- <-; split; [done|by right]|].
  destruct (authorize _ _ _) as [[]| |] eqn:Ea; [|injection Hs as <- <-; split; [done|by right]|done].
  case_match; [injection Hs as <- <-; split; [done|by right]|].
  destruct (allow _ _ _ _) as [l [[]| |]]; [|injection Hs as <- <-; split; [done|by right]|done].
  destruct (p2p.parseTxForChain data (chainID s)) as [t| |] eqn:Ep; [|injection Hs as <- <-; split; [done|by right]|done].
  apply parse_spec in Ep as [Hd Hv]. destruct (ended ctx 1); [injection Hs as <- <-; split; [done|by right]|].
  apply obind_ok_inv in Hs as ([s2 sent] & Hb & Hs). unfold broadcastTx in Hb. cbn [node set_limiter count] in Hb.
  destruct (node s) as [n|] eqn:En; [|apply Ok_inj in Hb; injection Hb as <- <-; injection Hs as <- <-; split; [done|by right]].
  apply send_spec in Hb as [[Hn [Hc Hau]] Hb]. unfold p2p.BroadcastTx in Hb. rewrite (tx_canonical data t Hd) in Hb.
  destruct sent; injection Hs as <- <-; (split; [by split_and!|]).
  - left. split_and!; try done. destruct Hb as (m & Hm & _ & Hp). apply Ok_inj in Hm as <-. exists n, t. by split_and!.
  - right. split; [done|exact Hb].
Qed.

(** A submitted transaction is passed on as it came.  [SubmitTx] answers yes exactly when
    it has handed the submitted bytes themselves to the network; then the
    client is authorized to submit and the bytes are a transaction validly
    signed for the chain.  In every other case nothing is published.  The call
    crashes only on the inputs on which decoding does. *)
Theorem SubmitTx_passes_on s ctx data s' r :
  SubmitTx taken s ctx (Some data) = Ok (s', r) ->
  same_server s s' /\
  (r = Answer true /\ (exists n t, node s = Some n /\ tx.Deserialize data = Ok t /\
      tx.VerifySigsForChain t (chainID s) = Ok tt /\ published s' = published s ++ [(p2p.topicTx (p2p.cfg n), data)]) /\
     authorize (authorizer s) (info ctx) roleSubmitter = Ok tt \/
   r <> Answer true /\ published s' = published s).
Proof. apply SubmitTx_inv. Qed.

Lemma parseAll_spec ended k chain raws r :
  parseAll ended k chain raws = Ok r ->
  match r with
  | inl reply => reply <> Answer true
  | inr ts => Forall2 (fun raw t => tx.Deserialize raw = Ok t /\ tx.VerifySigsForChain t chain = Ok tt) raws ts
  end.
Proof.
  revert k r. induction raws as [|raw raws IH]; intros k r Hp; cbn [parseAll] in Hp; [apply Ok_inj in Hp as <-; constructor|].
  do 2 (case_match; [by apply Ok_inj in Hp as <-|]).
  destruct (p2p.parseTxForChain raw chain) as [t| |] eqn:Et; [|by apply Ok_inj in Hp as <-|done].
  apply obind_ok_inv in Hp as (r' & Hr & <-%Ok_inj). apply IH in Hr. destruct r' as [rep|ts]; [done|].
  constructor; [by apply parse_spec|done].
Qed.

Lemma SubmitBatch_inv s ctx data s' r :
  SubmitBatch taken s ctx data = Ok (s', r) ->
  same_server s s' /\
  (r = Answer true /\ 0 < zlen data <= maxSubmitBatch /\ (exists n ts m, node s = Some n /\
      Forall2 (fun raw t => tx.Deserialize raw = Ok t /\ tx.VerifySigsForChain t (chainID s) = Ok tt) data ts /\
      tx.SerializeBatch ts = Ok m /\ published s' = published s ++ [(p2p.topicBatch (p2p.cfg n), m)]) /\
     authorize (authorizer s) (info ctx) roleSubmitter = Ok tt \/
   r <> Answer true /\ published s' = published s).
Proof.
  unfold SubmitBatch. intros Hs. cbn [authorizer count limiter metrics node chainID set_limiter] in Hs.
  destruct (ended ctx 0); [injection Hs as <- <-; split; [done|by right]|].
  destruct (authorize _ _ _) as [[]| |] eqn:Ea; [|injection Hs as <- <-; split; [done|by right]|done].
  case_match eqn:Eg; [injection Hs as <- <-; split; [done|by right]|]. bsimp. pose proof (zlen_nonneg data).
  destruct (allow _ _ _ _) as [l [[]| |]]; [|injection Hs as <- <-; split; [done|by right]|done].
  apply obind_ok_inv in Hs as (rep & Hp & Hs). apply parseAll_spec in Hp.
  destruct rep as [rep|ts]; [injection Hs as <- <-; split; [done|by right]|].
  apply obind_ok_inv in Hs as ([s2 sent] & Hb & Hs). unfold broadcastBatch in Hb. cbn [node set_limiter count] in Hb.
  destruct (node s) as [n|] eqn:En; [|apply Ok_inj in Hb; injection Hb as <- <-; injection Hs as <- <-; split; [done|by right]].
  apply send_spec in Hb as [[Hn [Hc Hau]] Hb]. unfold p2p.BroadcastBatch in Hb.
  destruct sent; injection Hs as <- <-; (split; [by split_and!|]).
  - left. split_and!; try done; try lia. destruct Hb as (m & Hm & _ & Hpub).
    apply obind_ok_inv in Hm as (b & Hb & <-%Ok_inj). exists n, ts, b. by split_and!.
  - right. split; [done|exact Hb].
Qed.

(** Batches are taken whole.  [SubmitBatch] answers yes exactly when one message with all
    the transactions, in order and each validly signed, has been handed to
    the network; if any of them is bad nothing is published. *)
Theorem SubmitBatch_all_or_nothing s ctx data s' r :
  SubmitBatch taken s ctx data = Ok (s', r) ->
  same_server s s' /\
  (r = Answer true /\ 0 < zlen data <= maxSubmitBatch /\ (exists n ts m, node s = Some n /\
      Forall2 (fun raw t => tx.Deserialize raw = Ok t /\ tx.VerifySigsForChain t (chainID s) = Ok tt) data ts /\
      tx.SerializeBatch ts = Ok m /\ published s' = published s ++ [(p2p.topicBatch (p2p.cfg n), m)]) /\
     authorize (authorizer s) (info ctx) roleSubmitter = Ok tt \/
   r <> Answer true /\ published s' = published s).
Proof. apply SubmitBatch_inv. Qed.
End Submit.

(** ** From a client to the pools of the network *)
Section EndToEnd.
Context `{Platform} (taken : bytes * bytes -> bool).

Lemma Enqueue_has bl t id : tx.ID t = Ok id -> blockloop.Has (blockloop.Enqueue bl t) id = true.
Proof.
  intros Hid. unfold blockloop.Has, blockloop.Enqueue, blockloop.enqueue. rewrite Hid. apply bool_decide_eq_true.
  destruct (blockloop.index (blockloop.pool bl) !! id) eqn:E; cbn; [by rewrite E; eexists|].
  case_match; cbn; rewrite lookup_insert_eq; by eexists.
Qed.

Lemma Start_has bl ts t id : tx.ID t = Ok id -> blockloop.Has (blockloop.Start bl (ts ++ [t])) id = true.
Proof. intros Hid. unfold blockloop.Start. rewrite foldl_app. by apply Enqueue_has. Qed.

(** C19.  A submitted transaction reaches the pools.  When [SubmitTx] answers yes, what it
    published, delivered to any node of the same chain with room in its
    channel, is queued there behind what the channel holds, as the
    transaction that was submitted, and once the node's pool has taken in the
    channel in order the pool holds it. *)
Theorem submitted_reaches_pool s ctx data s' peer bl :
  SubmitTx taken s ctx (Some data) = Ok (s', Answer true) ->
  p2p.chainID (p2p.cfg peer) = chainID s -> zlen (p2p.txCh peer) < p2p.txChCap -> (forall n, node s = Some n -> p2p.chainID (p2p.cfg n) = chainID s) ->
  exists msg peer' t id, published s' = published s ++ [msg] /\ p2p.deliver peer msg = Ok peer' /\
    tx.Deserialize data = Ok t /\ tx.ID t = Ok id /\ p2p.txCh peer' = p2p.txCh peer ++ [t] /\
    blockloop.Has (blockloop.Start bl (p2p.txCh peer')) id = true.
Proof.
  intros Hs Hc He Hn. apply SubmitTx_inv in Hs as [_ [(_ & (n & t & En & Hd & Hv & Hp) & _)|[Hf _]]]; [|done].
  pose proof (tx_canonical data t Hd) as Hser. unfold tx.Serialize in Hser. apply obind_ok_inv in Hser as (u & Hu & Hlen).
  assert (tx.ID t = Ok (hash.Hash u)) as Hid by (unfold tx.ID; by rewrite Hu).
  exists (p2p.topicTx (p2p.cfg n), data), (p2p.mkNode (p2p.cfg peer) (p2p.txCh peer ++ [t]) (p2p.blockCh peer) (p2p.voteCh peer)), t, (hash.Hash u).
  split_and!; [exact Hp| |done|done|done|by apply Start_has].
  unfold p2p.deliver, p2p.topicTx. rewrite (Hn n En), Hc, bool_decide_eq_true_2 by done. rewrite readTx_offer, Hd.
  assert ((zlen data >? tx.MaxSerializedBytes) = false) as ->.
  { case_match eqn:Ez; [done|]. apply Ok_inj in Hlen as <-. bsimp. rewrite !zlen_app, !zlen_arr.
    rewrite Z.gtb_ltb. apply Z.ltb_ge. unfold tx.MaxSerializedBytes. lia. }
  unfold p2p.offerVerified. rewrite Hc, Hv. unfold p2p.offerTx. by rewrite offer_room.
Qed.
End EndToEnd.
