(* ===== verification/Client.v ===== *)
(** * client: signing, queueing and delivering transactions (client.go, queue.go, transport.go)

    AES-GCM and the random nonces are not the program's: [GCM] is the cipher
    under the queue's key, a nonce comes with each call.  A bbolt bucket's
    sequence number is part of the queue's state.  [process] is a client with
    its goroutines, which interleave step by step. *)

From S2P Require Import Prelude GoBytes Errors Platform Hex Tx TxProofs TxSigProofs BatchProofs KV Denom Ledger Staking Gas Mint Node Tree.
From S2P Require Import Contract BlockStore Telemetry StateMachine Vote BlockLoop Round Engine Gossip Rpc RpcProofs.

(** [gcm.Seal] and [gcm.Open] for the queue's key. *)
Class GCM : Type :=
  { gcm_Seal : arr 12 -> bytes -> bytes;
    gcm_Open : arr 12 -> bytes -> option bytes }.

Class GCMLaws `{GCM} : Prop :=
  { gcm_open_seal : forall nonce plain, gcm_Open nonce (gcm_Seal nonce plain) = Some plain }.

Module client.

Record queue (B : Type) : Type := mkQueue
  { pending : B;
    sequence : Z;                (* of the bucket of pending transactions *)
    hashes : B }.
Arguments mkQueue {B}. Arguments pending {B}. Arguments sequence {B}. Arguments hashes {B}.

Section Queue.
Context `{Platform} `{GCM} {B : Type} `{KV B}.
Implicit Types (q : queue B).

Definition openQueue : queue B := mkQueue kv_empty 0 kv_empty.

Definition encrypt (nonce : arr 12) (plain : bytes) : bytes := nonce ++ gcm_Seal nonce plain.

Definition decrypt (data : bytes) : res bytes :=
  if zlen data <? 12 then failf "ciphertext too short" else
  match gcm_Open (mk_arr 12 (take 12 data)) (drop 12 data) with
  | Some plain => Ok plain
  | None => failf "cipher: message authentication failed"
  end.

Definition Enqueue q (nonce : arr 12) (txBytes : bytes) : queue B :=
  let h := sha256_Sum256 txBytes in
  let ciphertext := encrypt nonce txBytes in
  match kv_Get (hashes q) h with
  | Some _ => q
  | None =>
    let seq := wrap64 (sequence q + 1) in
    mkQueue (kv_Put (pending q) (put64 seq) (h ++ ciphertext)) seq (kv_Put (hashes q) h [x01])
  end.

(** One entry of [ForEach]; the error of [decrypt] ends it. *)
Definition drainStep (acc : list bytes * list bytes) (kv : bytes * bytes) : res (list bytes * list bytes) :=
  let '(dbKeys, txBytesSlice) := acc in
  let '(k, v) := kv in
  if zlen v <? 32 then Ok acc else
  let* plain := decrypt (drop 32 v) in
  Ok (dbKeys ++ [k], txBytesSlice ++ [plain]).

Definition Drain q : res (list bytes * list bytes) := foldM drainStep ([], []) (kv_ForEach (pending q)).

Definition deleteKey q (k : bytes) : queue B :=
  let hb :=
    match kv_Get (pending q) k with
    | Some v => if zlen v >=? 32 then kv_Delete (hashes q) (take 32 v) else hashes q
    | None => hashes q
    end in
  mkQueue (kv_Delete (pending q) k) (sequence q) hb.

Definition DeleteKeys q (dbKeys : list bytes) : queue B := foldl deleteKey q dbKeys.

(** ** The client *)

(** How a submission ends: taken, [errNodeRejected], or any other error. *)
Inductive outcome_ : Type := Accepted | NodeRejected | TransportError.

Definition signed (kp : keys.Keypair) (chainID : bytes) (t : tx.Tx) : res tx.Tx :=
  let t := tx.mkTx (tx.Type_ t) (tx.Sender t) (tx.Receiver t) (tx.Value t) (tx.Nonce t) (keys.PublicKey kp) (tx.ReceiverPubKey t)
             (tx.SenderSig t) (tx.ReceiverSig t) (tx.MissedHeight t) (tx.MissedProposer t) (tx.SkipIndex t) (tx.WasmBytes t)
             (tx.InitArgs t) (tx.CallData t) (tx.EvidenceA t) (tx.EvidenceB t) in
  let* msg := tx.UnsignedHashForChain t chainID in
  Ok (tx.mkTx (tx.Type_ t) (tx.Sender t) (tx.Receiver t) (tx.Value t) (tx.Nonce t) (keys.PublicKey kp) (tx.ReceiverPubKey t)
        (keys.Sign kp msg) (tx.ReceiverSig t) (tx.MissedHeight t) (tx.MissedProposer t) (tx.SkipIndex t) (tx.WasmBytes t)
        (tx.InitArgs t) (tx.CallData t) (tx.EvidenceA t) (tx.EvidenceB t)).

(** [SubmitTx]: [ready] is the state of the connection, [submit] what the node answers. *)
Definition SubmitTx (kp : keys.Keypair) (chainID : bytes) (q : option (queue B)) (nonce : arr 12) (ready : bool)
    (submit : bytes -> outcome_) (t : tx.Tx) : option (queue B) * res unit :=
  match (let* t := signed kp chainID t in tx.Serialize t) with
  | Panic => (q, Panic)
  | Err e => (q, Err e)
  | Ok txBytes =>
    let later (missing : string) :=
      match q with
      | None => (None, failf missing)
      | Some q => (Some (Enqueue q nonce txBytes), Ok tt)
      end in
    if ready then
      match submit txBytes with
      | Accepted => (q, Ok tt)
      | TransportError => later "transport error"
      | NodeRejected => (q, failf "node rejected tx")
      end
    else later "queue is not initialized"
  end.

(** [flush]: the whole queue in one batch. *)
Definition flush q (submitBatch : list bytes -> outcome_) : queue B :=
  match Drain q with
  | Ok (dbKeys, txBytesSlice) =>
    if zlen txBytesSlice =? 0 then q else
    match submitBatch txBytesSlice with
    | Accepted => DeleteKeys q dbKeys
    | _ => q
    end
  | _ => q
  end.

(** ** The client's goroutines

    [flush] runs in the reconnect loop and in [Close], and nothing keeps two of
    them apart: each first drains, then asks the node, then deletes what it
    drained.  A queue that was closed answers every call with an error. *)
Inductive flusher : Type := Submitting (dbKeys txBytesSlice : list bytes) | Deleting (dbKeys : list bytes).

(** [queued] and [accepted] are history: the transactions [SubmitTx] reported as
    queued, and the batches the node took. *)
Record process : Type := mkProcess
  { db : queue B; isOpen : bool; flushers : gmap nat flusher; queued : list bytes; accepted : list (list bytes) }.

Inductive action : Type :=
| PutOff (nonce : arr 12) (txBytes : bytes)      (* [SubmitTx] *)
| BeginFlush (i : nat)                           (* [reconnectLoop] on a ready connection, or [Close] *)
| Answered (i : nat) (o : outcome_)              (* [submitBatch] returns *)
| EndFlush (i : nat)
| CloseQueue                                     (* [Close], after its flush *)
| NewProcess.                                    (* [NewWithChainID] on the same file, at any time *)

Definition stopFlush (p : process) (i : nat) : process :=
  mkProcess (db p) (isOpen p) (delete i (flushers p)) (queued p) (accepted p).

Definition act (p : process) (a : action) : process :=
  match a with
  | PutOff nonce txBytes =>
    if isOpen p then mkProcess (Enqueue (db p) nonce txBytes) true (flushers p) (queued p ++ [txBytes]) (accepted p) else p
  | BeginFlush i =>
    match flushers p !! i with
    | Some _ => p
    | None =>
      if isOpen p then
        match Drain (db p) with
        | Ok (dbKeys, txBytesSlice) =>
          if zlen txBytesSlice =? 0 then p
          else mkProcess (db p) true (<[i := Submitting dbKeys txBytesSlice]> (flushers p)) (queued p) (accepted p)
        | _ => p
        end
      else p
    end
  | Answered i o =>
    match flushers p !! i, o with
    | Some (Submitting dbKeys txBytesSlice), Accepted =>
      mkProcess (db p) (isOpen p) (<[i := Deleting dbKeys]> (flushers p)) (queued p) (accepted p ++ [txBytesSlice])
    | Some (Submitting _ _), _ => stopFlush p i
    | _, _ => p
    end
  | EndFlush i =>
    match flushers p !! i with
    | Some (Deleting dbKeys) =>
      let p' := stopFlush p i in
      mkProcess (if isOpen p then DeleteKeys (db p) dbKeys else db p) (isOpen p') (flushers p') (queued p') (accepted p')
    | _ => p
    end
  | CloseQueue => mkProcess (db p) false (flushers p) (queued p) (accepted p)
  | NewProcess => mkProcess (db p) true ∅ (queued p) (accepted p)
  end.

Definition newClient : process := mkProcess openQueue true ∅ [] [].
End Queue.
End client.

(** * client: the queue of unsent transactions is a FIFO, and what it delivers *)

Import client.

(** ** Big-endian keys are ordered as numbers *)
Lemma bytes_compare_app (a b c d : bytes) :
  length a = length b ->
  bytes_compare (a ++ c) (b ++ d) = match bytes_compare a b with Eq => bytes_compare c d | o => o end.
Proof.
  revert b. induction a as [|x a IH]; intros [|y b] Hl; try done. cbn [app bytes_compare]. cbn [length] in Hl.
  destruct (byte_to_Z x ?= byte_to_Z y)%Z; [|done..]. apply IH. lia.
Qed.

Lemma be_enc_compare n a b :
  0 <= a < 256 ^ Z.of_nat n -> 0 <= b < 256 ^ Z.of_nat n -> bytes_compare (be_enc n a) (be_enc n b) = (a ?= b)%Z.
Proof.
  revert a b. induction n as [|n IH]; intros a b Ha Hb.
  { rewrite Z.pow_0_r in *. by replace a with b by lia; rewrite Z.compare_refl. }
  unfold be_enc; fold be_enc. rewrite bytes_compare_app by by rewrite !be_enc_length.
  rewrite Nat2Z.inj_succ, Z.pow_succ_r in Ha, Hb by lia.
  rewrite IH by (split; [apply Z.div_pos; lia|apply Z.div_lt_upper_bound; lia]).
  cbn [bytes_compare]. rewrite !byte_to_of_Z.
  pose proof (Z.div_mod a 256 ltac:(lia)). pose proof (Z.div_mod b 256 ltac:(lia)).
  pose proof (Z.mod_pos_bound a 256 ltac:(lia)). pose proof (Z.mod_pos_bound b 256 ltac:(lia)).
  destruct (Z.compare_spec (a / 256) (b / 256)), (Z.compare_spec (a mod 256) (b mod 256)), (Z.compare_spec a b); lia || done.
Qed.

Lemma put64_le a b : is_u64 a -> is_u64 b -> a <= b -> bytes_le (put64 a) (put64 b).
Proof.
  intros Ha Hb Hle. apply bytes_le_compare. unfold put64. rewrite be_enc_compare by done.
  by apply Z.compare_le_iff.
Qed.

Lemma put64_inj a b : is_u64 a -> is_u64 b -> put64 a = put64 b -> a = b.
Proof. unfold is_u64, two64, put64. intros Ha Hb. apply be_enc_inj; lia. Qed.

(** ** A bucket is determined by its entries *)
Section Entries.
Context {B : Type} `{KVLaws B}.

Lemma entries_values (b : B) (l : list (bytes * bytes)) :
  (forall k v, (k, v) ∈ l -> kv_Get b k = Some v) -> l = map (fun k => (k, default [] (kv_Get b k))) (map fst l).
Proof.
  induction l as [|[k v] l IH]; intros Hl; [done|]. cbn [map fst]. rewrite (Hl k v) by left. cbn [default].
  f_equal. apply IH. intros. apply Hl. by right.
Qed.

Lemma ForEach_unique (b : B) (l : list (bytes * bytes)) :
  StronglySorted bytes_le (map fst l) -> NoDup (map fst l) ->
  (forall k v, (k, v) ∈ l <-> kv_Get b k = Some v) -> kv_ForEach b = l.
Proof.
  intros Hs Hn Hl. rewrite (entries_values b (kv_ForEach b)) by (intros k v; apply kv_foreach_get).
  rewrite (entries_values b l) by (intros k v; apply Hl).
  f_equal. apply (StronglySorted_unique bytes_le); [apply kv_foreach_sorted|done|].
  apply NoDup_Permutation; [apply kv_foreach_nodup|done|]. intros k. rewrite !list_elem_of_fmap.
  split; intros ([k' v] & -> & Hk); exists (k', v); (split; [done|]); [apply Hl, kv_foreach_get|apply kv_foreach_get, Hl]; done.
Qed.
End Entries.

(** ** The queue *)
Record entry : Type := mkEntry { seq : Z; nonce : arr 12; plain : bytes }.

Section Fifo.
Context `{Platform} `{GCMLaws} {B : Type} `{KVLaws B}.
Implicit Types (q : queue B) (l : list entry).

Definition hashOf (e : entry) : bytes := sha256_Sum256 (plain e).
Definition keyOf (e : entry) : bytes := put64 (seq e).
Definition stored (e : entry) : bytes * bytes := (keyOf e, hashOf e ++ encrypt (nonce e) (plain e)).

(** The entries of a queue: numbered upwards, no hash twice, and exactly what the two buckets hold. *)
Record repr q l : Prop := mkRepr
  { repr_sorted : StronglySorted Z.lt (map seq l);
    repr_range : Forall (fun e => 0 <= seq e <= sequence q) l;
    repr_u64 : 0 <= sequence q < two64;
    repr_distinct : NoDup (map hashOf l);
    repr_pending : forall k v, kv_Get (pending q) k = Some v <-> (k, v) ∈ map stored l;
    repr_hashes : forall h, is_Some (kv_Get (hashes q) h) <-> h ∈ map hashOf l }.

Lemma decrypt_encrypt n p : decrypt (encrypt n p) = Ok p.
Proof.
  unfold decrypt, encrypt. rewrite zlen_app, zlen_arr. pose proof (zlen_nonneg (gcm_Seal n p)).
  rewrite (proj2 (Z.ltb_ge _ _)) by lia.
  rewrite take_app_length', drop_app_length' by (by rewrite arr_length). by rewrite mk_arr_bytes, gcm_open_seal.
Qed.

Lemma drain_entries l ks ps :
  foldM drainStep (ks, ps) (map stored l) = Ok (ks ++ map keyOf l, ps ++ map plain l).
Proof.
  revert ks ps. induction l as [|e l IH]; intros ks ps; cbn [map foldM]; [by rewrite !app_nil_r|].
  unfold drainStep at 1, stored at 1. unfold hashOf. rewrite zlen_app, zlen_arr.
  pose proof (zlen_nonneg (encrypt (nonce e) (plain e))). rewrite (proj2 (Z.ltb_ge _ _)) by lia.
  rewrite drop_app_length' by (by rewrite arr_length). rewrite decrypt_encrypt. cbn [obind].
  by rewrite IH, <- !app_assoc.
Qed.

Lemma keys_sorted q l : repr q l -> StronglySorted bytes_le (map keyOf l) /\ NoDup (map keyOf l).
Proof.
  intros [Hs Hr Hu _ _ _]. induction l as [|e l IH]; [split; constructor|]. cbn [map] in *.
  apply StronglySorted_inv in Hs as [Hs Hlt]. apply Forall_cons in Hr as [He Hr].
  destruct (IH Hs Hr) as [IHs IHn]. rewrite Forall_map in Hlt. unfold two64 in Hu.
  assert (Forall (fun e' => is_u64 (seq e') /\ seq e < seq e') l) as Hall.
  { apply Forall_forall. intros e' He'. rewrite !Forall_forall in *. pose proof (Hr e' He'). pose proof (Hlt e' He').
    unfold is_u64, two64. lia. }
  assert (is_u64 (seq e)) by (unfold is_u64, two64; lia). split; constructor; try done.
  - apply Forall_map. eapply Forall_impl; [exact Hall|]. intros e' [? ?]. apply put64_le; [done..|lia].
  - intros (e' & Hk & He')%list_elem_of_fmap. rewrite Forall_forall in Hall. destruct (Hall e' He') as [Hu' Hlt'].
    unfold keyOf in Hk. pose proof (put64_inj (seq e) (seq e') ltac:(done) Hu' Hk). lia.
Qed.

Lemma repr_drain q l : repr q l -> Drain q = Ok (map keyOf l, map plain l).
Proof.
  intros Hr. destruct (keys_sorted q l Hr) as [Hs Hn]. unfold Drain.
  assert (map fst (map stored l) = map keyOf l) as Hf by (by rewrite map_map).
  rewrite (ForEach_unique (pending q) (map stored l)); [apply drain_entries|by rewrite Hf..|].
  intros k v. by rewrite (repr_pending q l Hr).
Qed.

Lemma repr_open : repr openQueue [].
Proof.
  constructor; cbn [openQueue pending hashes sequence map].
  - constructor.
  - constructor.
  - by unfold two64.
  - constructor.
  - intros k v. rewrite kv_get_empty. split; [done|by intros ?%not_elem_of_nil].
  - intros h. rewrite kv_get_empty. split; [by intros []|by intros ?%not_elem_of_nil].
Qed.

(** A transaction whose hash is new goes to the end. *)
Lemma repr_enqueue q l n p :
  repr q l -> sequence q + 1 < two64 -> (sha256_Sum256 p : bytes) ∉ map hashOf l ->
  repr (Enqueue q n p) (l ++ [mkEntry (sequence q + 1) n p]).
Proof.
  intros Hr Hlt Hni. pose proof Hr as [Hs Hrg Hu Hd Hp Hh]. unfold Enqueue.
  destruct (kv_Get (hashes q) (sha256_Sum256 p)) eqn:Eh; [destruct Hni; apply Hh; by eexists|].
  unfold wrap64. rewrite Z.mod_small by lia.
  set (e := mkEntry _ _ _). assert (seq e = sequence q + 1) as He by done.
  constructor; cbn [pending sequence hashes].
  - rewrite map_app. apply StronglySorted_app. cbn [map]. split_and!; [|done|by repeat constructor].
    rewrite Forall_forall in Hrg. intros x y (e' & -> & He')%list_elem_of_fmap ->%list_elem_of_singleton.
    rewrite He. pose proof (Hrg e' He'). lia.
  - apply Forall_app. split; [|constructor; [lia|constructor]]. eapply Forall_impl; [exact Hrg|]. cbn. lia.
  - lia.
  - rewrite map_app. apply NoDup_app. split_and!; [done| |repeat constructor; by intros ?%not_elem_of_nil].
    intros h Hin ->%list_elem_of_singleton. done.
  - intros k v. rewrite kv_get_put, map_app, elem_of_app. cbn [map].
    unfold stored at 2. rewrite list_elem_of_singleton. unfold keyOf, hashOf. rewrite He. cbn [nonce plain e].
    case_decide as Hk.
    + subst k. split; [intros Hv; right; by injection Hv as <-|]. intros [Hin|Hv]; [|apply (f_equal snd) in Hv; cbn in Hv; by rewrite Hv]. exfalso.
      apply list_elem_of_fmap in Hin as (e' & Hst & He'). apply (f_equal fst) in Hst as Hk.
      rewrite Forall_forall in Hrg. pose proof (Hrg e' He'). pose proof (put64_inj (sequence q + 1) (seq e') ltac:(unfold is_u64; lia) ltac:(unfold is_u64; lia) Hk). lia.
    + rewrite Hp. split; [by left|]. intros [?|Hv]; [done|]. apply (f_equal fst) in Hv. by cbn in Hv.
  - intros h. rewrite kv_get_put, map_app, elem_of_app. cbn [map]. rewrite list_elem_of_singleton. unfold hashOf at 2. cbn [plain e].
    case_decide as Hk; [subst h; split; [by right|by eexists]|]. rewrite Hh. split; [by left|]. intros [?| ->]; done.
Qed.

Lemma keyOf_inj l e e' : NoDup (map keyOf l) -> e ∈ l -> e' ∈ l -> keyOf e = keyOf e' -> e = e'.
Proof.
  intros Hn He He' Hk. apply list_elem_of_lookup in He as [i Hi], He' as [j Hj]. enough (i = j) as <- by congruence.
  eapply NoDup_lookup; [exact Hn|by rewrite list_lookup_fmap, Hi|]. by rewrite list_lookup_fmap, Hj, Hk.
Qed.

(** The entries that stay when a key is deleted. *)
Definition without (k : bytes) l : list entry := base.filter (fun e => keyOf e <> k) l.

Lemma elem_without k l e : e ∈ without k l <-> keyOf e <> k /\ e ∈ l.
Proof. unfold without. by rewrite list_elem_of_filter. Qed.

Lemma sorted_without k l : StronglySorted Z.lt (map seq l) -> StronglySorted Z.lt (map seq (without k l)).
Proof.
  induction l as [|e l IH]; [done|]. cbn [map]. intros [Hs Hlt]%StronglySorted_inv. unfold without. rewrite filter_cons.
  case_decide; [|by apply IH]. cbn [map]. constructor; [by apply IH|]. rewrite Forall_map, Forall_forall in *.
  intros x [_ Hx]%elem_without. by apply Hlt.
Qed.

Lemma hashes_without k l : NoDup (map hashOf l) -> NoDup (map hashOf (without k l)).
Proof.
  induction l as [|e l IH]; [done|]. cbn [map]. intros [Hni Hd]%NoDup_cons. unfold without. rewrite filter_cons.
  case_decide; [|by apply IH]. cbn [map]. constructor; [|by apply IH].
  intros (x & Hx & [_ Hin]%elem_without)%list_elem_of_fmap. destruct Hni. rewrite Hx. by apply list_elem_of_fmap_2.
Qed.

(** Deleting a key takes its entry out of both buckets. *)
Lemma repr_delete q k l : repr q l -> repr (deleteKey q k) (without k l).
Proof.
  intros Hr. pose proof (keys_sorted q _ Hr) as [_ Hk]. pose proof Hr as [Hs Hrg Hu Hd Hp Hh].
  assert (forall k' v, kv_Get (kv_Delete (pending q) k) k' = Some v <-> (k', v) ∈ map stored (without k l)) as Hpend.
  { intros k' v. rewrite kv_get_delete. split.
    - case_decide as Hkk; [done|]. intros (e & Hst & He)%Hp%list_elem_of_fmap. apply list_elem_of_fmap. exists e. split; [done|].
      apply elem_without. split; [|done]. apply (f_equal fst) in Hst. cbn in Hst. congruence.
    - intros (e & Hst & [Hne He]%elem_without)%list_elem_of_fmap. apply (f_equal fst) in Hst as Hk1. cbn in Hk1.
      rewrite decide_False by congruence. apply Hp. rewrite Hst. by apply list_elem_of_fmap_2. }
  assert (forall e, e ∈ l -> kv_Get (pending q) (keyOf e) = Some (hashOf e ++ encrypt (nonce e) (plain e))) as Hget.
  { intros e He. apply Hp. by apply (list_elem_of_fmap_2 stored). }
  assert (Forall (fun e => 0 <= seq e <= sequence q) (without k l)) as Hrange.
  { rewrite Forall_forall in *. intros e [_ He]%elem_without. by apply Hrg. }
  unfold deleteKey. constructor; cbn [pending sequence hashes]; [by apply sorted_without|done|done|by apply hashes_without|done|].
  intros h. destruct (kv_Get (pending q) k) as [v|] eqn:Ev.
  - apply Hp in Ev as Hin. apply list_elem_of_fmap in Hin as (e & Hst & He). injection Hst as -> ->.
    unfold hashOf at 1 2. rewrite zlen_app, zlen_arr. pose proof (zlen_nonneg (encrypt (nonce e) (plain e))). rewrite (proj2 (Z.geb_le _ _)) by lia.
    rewrite take_app_length' by (by rewrite arr_length). fold (hashOf e). rewrite kv_get_delete. split.
    + case_decide as Hhe; [by intros []|]. intros (e' & -> & He')%Hh%list_elem_of_fmap. apply list_elem_of_fmap_2, elem_without.
      split; [|done]. intros Hkk. destruct Hhe. by rewrite (keyOf_inj l e' e Hk He' He Hkk).
    + intros (e' & -> & [Hne He']%elem_without)%list_elem_of_fmap. rewrite decide_False; [apply Hh; by apply list_elem_of_fmap_2|].
      intros Hhe. destruct Hne. f_equal. apply list_elem_of_lookup in He as [i Hi], He' as [j Hj]. enough (i = j) as <- by congruence.
      eapply NoDup_lookup; [exact Hd|by rewrite list_lookup_fmap, Hi|]. rewrite list_lookup_fmap, Hj. cbn. congruence.
  - rewrite Hh. split; intros (e & -> & He)%list_elem_of_fmap; [|apply elem_without in He as [_ He]; by apply list_elem_of_fmap_2].
    apply list_elem_of_fmap_2, elem_without. split; [|done]. intros <-. rewrite (Hget e He) in Ev. done.
Qed.

Lemma deleteKey_sequence q k : sequence (deleteKey q k) = sequence q.
Proof. done. Qed.

Lemma DeleteKeys_sequence q ks : sequence (DeleteKeys q ks) = sequence q.
Proof. unfold DeleteKeys. revert q. induction ks as [|k ks IH]; intros q; [done|]. cbn [foldl]. by rewrite IH. Qed.

Lemma repr_deleteKeys q ks l :
  repr q l -> exists l', repr (DeleteKeys q ks) l' /\ forall e, e ∈ l' <-> e ∈ l /\ keyOf e ∉ ks.
Proof.
  unfold DeleteKeys. revert q l. induction ks as [|k ks IH]; intros q l Hr.
  - exists l. split; [done|]. intros e. split; [intros He; split; [done|apply not_elem_of_nil]|by intros []].
  - cbn [foldl]. destruct (IH _ _ (repr_delete q k l Hr)) as (l' & Hr' & Hl'). exists l'. split; [done|].
    intros e. rewrite Hl', elem_without, not_elem_of_cons. tauto.
Qed.

Lemma repr_delete_all q l : repr q l -> repr (DeleteKeys q (map keyOf l)) [] /\ sequence (DeleteKeys q (map keyOf l)) = sequence q.
Proof.
  intros Hr. split; [|apply DeleteKeys_sequence]. destruct (repr_deleteKeys q (map keyOf l) l Hr) as ([|e l'] & Hr' & Hl'); [done|].
  exfalso. destruct (proj1 (Hl' e)) as [He Hni]; [left|]. destruct Hni. by apply list_elem_of_fmap_2.
Qed.

(** ** Refinement *)

(** What happens to the queue: a transaction is put off, or the connection is
    back and the node answers the batch. *)
Inductive event : Type := Later (nonce : arr 12) (txBytes : bytes) | Ready (answer : list bytes -> outcome_).

Definition step q (ev : event) : queue B :=
  match ev with Later n p => Enqueue q n p | Ready answer => flush q answer end.

(** The specification: a list of different transactions. *)
Definition fifo_step (ps : list bytes) (ev : event) : list bytes :=
  match ev with
  | Later _ p => if decide (p ∈ ps) then ps else ps ++ [p]
  | Ready answer => match ps, answer ps with _ :: _, Accepted => [] | _, _ => ps end
  end.

Definition putOff (evs : list event) (p : bytes) : Prop := exists n, Later n p ∈ evs.

Lemma step_refines q l evs ev :
  repr q l -> sequence q + 1 < two64 -> (forall e, e ∈ l -> putOff evs (plain e)) -> ev ∈ evs ->
  hash.collision (putOff evs) \/
  exists l', repr (step q ev) l' /\ map plain l' = fifo_step (map plain l) ev /\ sequence (step q ev) <= sequence q + 1 /\
    forall e, e ∈ l' -> putOff evs (plain e).
Proof.
  intros Hr Hlt Hin Hev. destruct ev as [n p|answer]; cbn [step fifo_step].
  - assert (putOff evs p) as Hpo by (by exists n).
    destruct (decide ((sha256_Sum256 p : bytes) ∈ map hashOf l)) as [Hh|Hh].
    + pose proof Hh as (e & He & Hel)%list_elem_of_fmap. unfold hashOf in He. apply arr_eq in He.
      destruct (hash.Hash_inj_or_collision (putOff evs) p (plain e)) as [->|]; auto. right. exists l.
      rewrite decide_True by (by apply list_elem_of_fmap_2).
      unfold Enqueue. apply (repr_hashes q l Hr) in Hh as [w ->]. split_and!; [done|done|lia|done].
    + right. eexists. split; [by apply repr_enqueue|]. split_and!.
      * rewrite map_app. rewrite decide_False; [done|]. intros (e & -> & He)%list_elem_of_fmap. destruct Hh.
        by apply list_elem_of_fmap; exists e.
      * unfold Enqueue. destruct (kv_Get (hashes q) _); [lia|]. cbn [sequence]. unfold wrap64. rewrite Z.mod_small; [lia|]. pose proof (repr_u64 q l Hr). lia.
      * intros e [?| ->%list_elem_of_singleton]%elem_of_app; auto.
  - right. unfold flush. rewrite (repr_drain q l Hr). destruct l as [|e l].
    { exists []. cbn [map]. change (zlen (@nil bytes) =? 0) with true. cbv iota. split_and!; [done|done|lia|done]. }
    rewrite (proj2 (Z.eqb_neq _ _)) by (cbn [map]; rewrite zlen_cons; pose proof (zlen_nonneg (map plain l)); lia).
    cbn [map]. destruct (answer (plain e :: map plain l)).
    + destruct (repr_delete_all q (e :: l) Hr) as [Hr' Hs]. exists []. cbn [map] in *. split_and!; [done|done|lia|].
      by intros ? ?%not_elem_of_nil.
    + exists (e :: l). split_and!; [done|done|lia|done].
    + exists (e :: l). split_and!; [done|done|lia|done].
Qed.

Lemma queue_run_refines evs0 evs q l :
  repr q l -> sequence q + zlen evs < two64 -> (forall e, e ∈ l -> putOff evs0 (plain e)) -> (forall ev, ev ∈ evs -> ev ∈ evs0) ->
  hash.collision (putOff evs0) \/ exists l', repr (foldl step q evs) l' /\ map plain l' = foldl fifo_step (map plain l) evs.
Proof.
  revert q l. induction evs as [|ev evs IH]; intros q l Hr Hlt Hin Hsub; cbn [foldl]; [right; by exists l|].
  rewrite zlen_cons in Hlt. pose proof (zlen_nonneg evs).
  destruct (step_refines q l evs0 ev Hr ltac:(lia) Hin (Hsub ev ltac:(left))) as [?|(l' & Hr' & Hm & Hq & Hin')]; [by left|].
  rewrite <- Hm. apply IH; [done|lia|done|]. intros. apply Hsub. by right.
Qed.

(** C18.  The client's queue is a list.  Whatever transactions are put off and whatever the
    node answers when the connection is back, draining the encrypted,
    doubly indexed database returns the transactions of the plain list
    specification, unchanged and in the order they were put off: each once,
    until a batch is accepted, which empties the list; or two of the
    transactions are a SHA-256 collision. *)
Theorem queue_refines_list evs :
  zlen evs < two64 ->
  hash.collision (putOff evs) \/
  exists keys, Drain (foldl step openQueue evs) = Ok (keys, foldl fifo_step [] evs).
Proof.
  intros Hlt. destruct (queue_run_refines evs evs openQueue [] repr_open) as [?|(l & Hr & Hm)]; [done| |done|by left|].
  - by intros ? ?%not_elem_of_nil.
  - right. rewrite (repr_drain _ l Hr), Hm. by eexists.
Qed.

(** ** The node's answers *)
Context (taken : bytes * bytes -> bool).

(** How a batch ends at a node: a call that is refused, or that crashes the
    node, is a transport error for the client. *)
Definition nodeAnswer (s : rpc.nodeGRPCServer) (ctx : rpc.Context_) (batch : list bytes) : outcome_ :=
  match rpc.SubmitBatch taken s ctx batch with
  | Ok (_, rpc.Answer true) => Accepted
  | Ok (_, rpc.Answer false) => NodeRejected
  | _ => TransportError
  end.

(** Nothing is forgotten before it is published.  When the connection to a node is back,
    either the queue stays as it is, or the node has handed one message with
    all the queued transactions, in order, to the network and the queue is
    empty afterwards; or two of the transactions are a SHA-256 collision. *)
Theorem queued_until_published evs s ctx :
  zlen evs < two64 ->
  let q := foldl step openQueue evs in let txs := foldl fifo_step [] evs in
  hash.collision (putOff evs) \/
  flush q (nodeAnswer s ctx) = q \/
  Drain (flush q (nodeAnswer s ctx)) = Ok ([], []) /\
  exists s' n ts m, rpc.SubmitBatch taken s ctx txs = Ok (s', rpc.Answer true) /\ rpc.node s = Some n /\
    Forall2 (fun raw t => tx.Deserialize raw = Ok t /\ tx.VerifySigsForChain t (rpc.chainID s) = Ok tt) txs ts /\
    tx.SerializeBatch ts = Ok m /\ rpc.published s' = rpc.published s ++ [(p2p.topicBatch (p2p.cfg n), m)].
Proof.
  intros Hlt q txs. destruct (queue_run_refines evs evs openQueue [] repr_open) as [?|(l & Hr & Hm)]; [done| |done|by left|].
  { by intros ? ?%not_elem_of_nil. }
  right. fold q in Hr. change (map plain l = txs) in Hm. unfold flush. rewrite (repr_drain q l Hr), Hm.
  destruct (zlen txs =? 0); [by left|]. unfold nodeAnswer.
  destruct (rpc.SubmitBatch taken s ctx txs) as [[s' [|[]]]| |] eqn:Es; try by left. right.
  destruct (repr_delete_all q l Hr) as [Hr' _]. split; [by rewrite (repr_drain _ [] Hr')|].
  apply (SubmitBatch_inv taken) in Es as [_ [(_ & _ & (n & ts & m & ? & ? & ? & ?) & _)|[Hf _]]]; [|done].
  exists s', n, ts, m. by split_and!.
Qed.

(** A list of queued transactions that no node takes. *)
Definition refused (chain : bytes) (txs : list bytes) : Prop :=
  rpc.maxSubmitBatch < zlen txs \/ exists raw, raw ∈ txs /\ is_Ok (p2p.parseTxForChain raw chain) = false.

Lemma refused_grows chain txs p : refused chain txs -> refused chain (txs ++ [p]).
Proof.
  intros [Hl|(raw & Hr & Hp)]; [left; rewrite zlen_app, zlen_one; lia|right; exists raw; split; [|done]].
  apply elem_of_app. by left.
Qed.

Lemma refused_answer s ctx txs : refused (rpc.chainID s) txs -> nodeAnswer s ctx txs <> Accepted.
Proof.
  intros Hrf Ha. unfold nodeAnswer in Ha. destruct (rpc.SubmitBatch taken s ctx txs) as [[s' [|[]]]| |] eqn:Es; try done.
  apply (SubmitBatch_inv taken) in Es as [_ [(_ & Hl & (n & ts & m & _ & Hall & _) & _)|[Hf _]]]; [|done].
  destruct Hrf as [?|(raw & Hin & Hp)]; [lia|]. apply list_elem_of_lookup in Hin as (i & Hi).
  destruct (Forall2_lookup_l _ _ _ _ _ Hall Hi) as (t & _ & Ht). apply parse_spec in Ht. by rewrite Ht in Hp.
Qed.

(** Events in which every batch goes to a node of the chain. *)
Definition toNodes (chain : bytes) (ev : event) : Prop :=
  match ev with
  | Later _ _ => True
  | Ready answer => exists s ctx, rpc.chainID s = chain /\ forall b, answer b = nodeAnswer s ctx b
  end.

Lemma refused_prefix chain evs txs :
  refused chain txs -> Forall (toNodes chain) evs -> exists rest, foldl fifo_step txs evs = txs ++ rest.
Proof.
  revert txs. induction evs as [|ev evs IH]; intros txs Hr Hev; [exists []; by rewrite app_nil_r|].
  apply Forall_cons in Hev as [He Hev]. cbn [foldl]. destruct ev as [n p|answer].
  - cbn [fifo_step]. case_decide; [by apply IH|]. destruct (IH (txs ++ [p])) as [rest ->]; [by apply refused_grows|done|].
    exists (p :: rest). by rewrite <- app_assoc.
  - destruct He as (s & ctx & <- & Hans). assert (fifo_step txs (Ready answer) = txs) as ->.
    { cbn [fifo_step]. destruct txs as [|p txs]; [done|]. rewrite Hans. pose proof (refused_answer s ctx (p :: txs) Hr). by destruct (nodeAnswer s ctx (p :: txs)). }
    by apply IH.
Qed.

(** A stuck queue.  Once more than 1024 transactions are queued, or one that nodes do not
    accept, no node of the chain ever takes the queue: whatever happens
    afterwards, every one of these transactions is still queued. *)
Theorem refused_queue_stuck chain evs evs' :
  zlen (evs ++ evs') < two64 -> refused chain (foldl fifo_step [] evs) -> Forall (toNodes chain) evs' ->
  hash.collision (putOff (evs ++ evs')) \/
  exists keys rest, Drain (foldl step openQueue (evs ++ evs')) = Ok (keys, foldl fifo_step [] evs ++ rest).
Proof.
  intros Hlt Hr Hev. destruct (refused_prefix chain evs' _ Hr Hev) as [rest Hrest].
  destruct (queue_run_refines (evs ++ evs') (evs ++ evs') openQueue [] repr_open) as [?|(l & Hl & Hm)]; [done| |done|by left|].
  - by intros ? ?%not_elem_of_nil.
  - right. rewrite (repr_drain _ l Hl), Hm. cbn [map]. rewrite (foldl_app fifo_step), Hrest. eauto.
Qed.
End Fifo.

(** ** Nothing is lost between the goroutines *)
Section Delivery.
Context `{Platform} `{GCMLaws} {B : Type} `{KVLaws B}.
Implicit Types (p : process (B := B)) (l hist : list entry) (P : bytes -> Prop).

(** The three steps of a flush, one after the other, are [flush]. *)
Lemma flush_steps p i answer ks txs :
  isOpen p = true -> flushers p !! i = None -> Drain (db p) = Ok (ks, txs) ->
  db (foldl act p [BeginFlush i; Answered i (answer txs); EndFlush i]) = flush (db p) answer.
Proof.
  intros Ho Hi Hd. unfold flush. rewrite Hd. cbn [foldl act]. rewrite Hi, Ho, Hd.
  destruct (zlen txs =? 0) eqn:Ez; [by cbn [act]; rewrite Hi; cbn [act]; rewrite Hi|].
  cbn [act flushers]. rewrite lookup_insert_eq. destruct (answer txs); cbn [act stopFlush flushers db isOpen];
    [by rewrite lookup_insert_eq|by rewrite lookup_delete_eq..].
Qed.

(** What a flush holds are entries of the past; what it deletes was accepted. *)
Definition flush_ok p hist (f : flusher) : Prop :=
  match f with
  | Submitting ks txs => exists es, es ⊆ hist /\ ks = map keyOf es /\ txs = map plain es
  | Deleting ks => exists es, es ⊆ hist /\ ks = map keyOf es /\ forall e, e ∈ es -> plain e ∈ concat (accepted p)
  end.

(** [l] is in the queue, [hist] has been. *)
Record kept P p l hist : Prop := mkKept
  { kt_repr : repr (db p) l;
    kt_sub : l ⊆ hist;
    kt_keys : NoDup (map keyOf hist);
    kt_range : forall e, e ∈ hist -> 0 <= seq e <= sequence (db p);
    kt_queued : forall e, e ∈ hist -> plain e ∈ queued p;
    kt_within : forall m, m ∈ queued p -> P m;
    kt_flush : forall i f, flushers p !! i = Some f -> flush_ok p hist f;
    kt_cover : forall m, m ∈ queued p -> m ∈ map plain l \/ m ∈ concat (accepted p);
    kt_honest : forall m, m ∈ concat (accepted p) -> m ∈ queued p }.

Lemma putOff_kept P p l hist n m :
  kept P p l hist -> isOpen p = true -> sequence (db p) + 1 < two64 -> P m ->
  hash.collision P \/ exists l' hist', kept P (act p (PutOff n m)) l' hist' /\ sequence (db (act p (PutOff n m))) <= sequence (db p) + 1.
Proof.
  intros [Hr Hs Hk Hg Hq Hw Hf Hc Hh] Ho Hlt Hm. cbn [act]. rewrite Ho.
  assert (forall x, x ∈ queued p ++ [m] -> P x) as Hw' by (intros x [?| ->%list_elem_of_singleton]%elem_of_app; auto).
  destruct (decide ((sha256_Sum256 m : bytes) ∈ map hashOf l)) as [Hin|Hni].
  - pose proof Hin as (e & He & Hel)%list_elem_of_fmap. unfold hashOf in He. apply arr_eq in He.
    destruct (hash.Hash_inj_or_collision P m (plain e)) as [->|]; [done|auto|done| |by left]. right. exists l, hist.
    assert (Enqueue (db p) n (plain e) = db p) as Hen by (unfold Enqueue; by apply (repr_hashes _ l Hr) in Hin as [w ->]).
    rewrite Hen. cbn [db]. split; [|lia]. constructor; cbn [db flushers queued accepted]; try done.
    + intros e' He'. apply elem_of_app. auto.
    + intros x [?| ->%list_elem_of_singleton]%elem_of_app; [auto|]. left. by apply list_elem_of_fmap_2.
    + intros x Hx. apply elem_of_app. auto.
  - right. pose proof (repr_enqueue (db p) l n m Hr Hlt Hni) as Hr'. set (e := mkEntry (sequence (db p) + 1) n m) in *.
    assert (sequence (Enqueue (db p) n m) = sequence (db p) + 1) as Hsq.
    { unfold Enqueue. destruct (kv_Get (hashes (db p)) (sha256_Sum256 m)) eqn:Eh; [destruct Hni; apply (repr_hashes _ l Hr); by eexists|].
      cbn [sequence]. unfold wrap64. rewrite Z.mod_small; [done|]. pose proof (repr_u64 _ _ Hr). lia. }
    exists (l ++ [e]), (hist ++ [e]). cbn [db]. rewrite Hsq. split; [|lia].
    assert (forall es, es ⊆ hist -> es ⊆ hist ++ [e]) as Hsub by (intros es Hes x Hx; apply elem_of_app; left; auto).
    constructor; cbn [db flushers queued accepted]; try done.
    + intros x [Hx|Hx]%elem_of_app; apply elem_of_app; auto.
    + rewrite map_app. apply NoDup_app. split_and!; [done| |repeat constructor; by intros ?%not_elem_of_nil].
      intros k (e' & -> & He')%list_elem_of_fmap Hk'%list_elem_of_singleton. pose proof (Hg e' He').
      unfold keyOf in Hk'. pose proof (repr_u64 _ _ Hr). apply put64_inj in Hk'; cbn in *; unfold is_u64; lia.
    + rewrite Hsq. intros e' [He'| ->%list_elem_of_singleton]%elem_of_app; [pose proof (Hg e' He'); lia|]. pose proof (repr_u64 _ _ Hr). cbn. lia.
    + intros e' [He'| ->%list_elem_of_singleton]%elem_of_app; apply elem_of_app; [auto|]. right. apply list_elem_of_here.
    + intros i f Hif. pose proof (Hf i f Hif) as Hfo. destruct f; destruct Hfo as (es & Hes & ?); exists es; split; auto.
    + intros x [Hx| ->%list_elem_of_singleton]%elem_of_app; rewrite map_app, elem_of_app.
      * destruct (Hc x Hx); auto.
      * left. right. apply list_elem_of_here.
    + intros x Hx. apply elem_of_app. auto.
Qed.

(** Changing the flushes only. *)
Lemma flushers_kept P p l hist o fs :
  kept P p l hist -> (forall i f, fs !! i = Some f -> flush_ok p hist f) -> kept P (mkProcess (db p) o fs (queued p) (accepted p)) l hist.
Proof. intros [Hr Hs Hk Hg Hq Hw Hf Hc Hh] Hfs. by constructor. Qed.

Lemma delete_kept p hist i : (forall j f, flushers p !! j = Some f -> flush_ok p hist f) ->
  forall j f, delete i (flushers p) !! j = Some f -> flush_ok p hist f.
Proof. intros Hf j f [_ Hj]%lookup_delete_Some. eauto. Qed.

Lemma answered_kept P p l hist i ks txs :
  kept P p l hist -> flushers p !! i = Some (Submitting ks txs) -> kept P (act p (Answered i Accepted)) l hist.
Proof.
  intros [Hr Hs Hk Hg Hq Hw Hf Hc Hh] Hi. cbn [act]. rewrite Hi. destruct (Hf i _ Hi) as (es & Hes & -> & ->).
  assert (forall x, x ∈ concat (accepted p ++ [map plain es]) <-> x ∈ concat (accepted p) \/ x ∈ map plain es) as Hcat.
  { intros x. rewrite concat_app, elem_of_app. cbn [concat]. by rewrite app_nil_r. }
  constructor; cbn [db flushers queued accepted]; try done.
  - intros j f [[<- <-]|[_ Hj]]%lookup_insert_Some.
    + exists es. split; [done|]. split; [done|]. intros e He. cbn [accepted]. apply Hcat. right. by apply list_elem_of_fmap_2.
    + specialize (Hf j f Hj). destruct f; destruct Hf as (es' & ? & ? & Hin); exists es'; (split; [done|]); (split; [done|]); [done|].
      intros e He. cbn [accepted]. apply Hcat. left. auto.
  - intros m Hm. rewrite Hcat. destruct (Hc m Hm); auto.
  - intros m [Hm|(e & -> & He)%list_elem_of_fmap]%Hcat; auto.
Qed.

Lemma endFlush_kept P p l hist i ks :
  kept P p l hist -> flushers p !! i = Some (Deleting ks) ->
  exists l', kept P (act p (EndFlush i)) l' hist /\ sequence (db (act p (EndFlush i))) = sequence (db p).
Proof.
  intros Hkt Hi. pose proof Hkt as [Hr Hs Hk Hg Hq Hw Hf Hc Hh]. destruct (Hf i _ Hi) as (es & Hes & -> & Hacc).
  cbn [act]. rewrite Hi. cbn [stopFlush db flushers queued accepted isOpen]. destruct (isOpen p); cbn [db].
  2:{ exists l. split; [|done]. apply flushers_kept; [done|by apply delete_kept]. }
  destruct (repr_deleteKeys (db p) (map keyOf es) l Hr) as (l' & Hr' & Hl'). exists l'. rewrite DeleteKeys_sequence. split; [|done].
  constructor; cbn [db flushers queued accepted]; try done.
  - intros e [He _]%Hl'. auto.
  - by rewrite DeleteKeys_sequence.
  - apply (delete_kept p hist i Hf).
  - intros m Hm. destruct (Hc m Hm) as [(e & -> & He)%list_elem_of_fmap|]; [|auto].
    destruct (decide (keyOf e ∈ map keyOf es)) as [(e' & Hkk & He')%list_elem_of_fmap|Hni].
    + right. rewrite (keyOf_inj hist e e' Hk (Hs e He) (Hes e' He') Hkk). auto.
    + left. apply list_elem_of_fmap_2, Hl'. by split.
Qed.

Lemma act_kept P p l hist a :
  kept P p l hist -> sequence (db p) + 1 < two64 -> (forall n m, a = PutOff n m -> P m) ->
  hash.collision P \/ exists l' hist', kept P (act p a) l' hist' /\ sequence (db (act p a)) <= sequence (db p) + 1.
Proof.
  intros Hkt Hlt HP. assert (forall p', p' = p -> hash.collision P \/ exists l' hist', kept P p' l' hist' /\ sequence (db p') <= sequence (db p) + 1) as Hsame.
  { intros p' ->. right. exists l, hist. split; [done|lia]. }
  destruct a as [n m|i|i o|i| |].
  - destruct (isOpen p) eqn:Ho; [by eapply putOff_kept; eauto|]. apply Hsame. cbn. by rewrite Ho.
  - cbn [act]. destruct (flushers p !! i) eqn:Hi; [by apply Hsame|]. destruct (isOpen p) eqn:Ho; [|by apply Hsame].
    rewrite (repr_drain _ _ (kt_repr _ _ _ _ Hkt)). destruct (_ =? 0); [by apply Hsame|]. right. exists l, hist. cbn [db]. split; [|lia].
    apply flushers_kept; [done|]. intros j f [[<- <-]|[_ Hj]]%lookup_insert_Some; [|by eapply kt_flush]. exists l. by split; [eapply kt_sub|].
  - destruct (flushers p !! i) as [[ks txs|ks]|] eqn:Hi; [|apply Hsame; cbn; by rewrite Hi..].
    destruct o; [right; exists l, hist; split; [by eapply answered_kept|cbn [act]; rewrite Hi; cbn; lia]|..];
      (right; exists l, hist; cbn [act]; rewrite Hi; split; [|cbn; lia]; apply flushers_kept; [done|]; apply delete_kept, (kt_flush _ _ _ _ Hkt)).
  - destruct (flushers p !! i) as [[ks txs|ks]|] eqn:Hi; [apply Hsame; cbn; by rewrite Hi| |apply Hsame; cbn; by rewrite Hi].
    right. destruct (endFlush_kept P p l hist i ks Hkt Hi) as (l' & Hk' & Hsq). exists l', hist. split; [done|lia].
  - right. exists l, hist. split; [|cbn; lia]. apply flushers_kept; [done|]. exact (kt_flush _ _ _ _ Hkt).
  - right. exists l, hist. split; [|cbn; lia]. apply flushers_kept; [done|]. intros j f Hj. by rewrite lookup_empty in Hj.
Qed.

Lemma acts_kept P acts p l hist :
  kept P p l hist -> sequence (db p) + zlen acts < two64 -> (forall n m, PutOff n m ∈ acts -> P m) ->
  hash.collision P \/ exists l' hist', kept P (foldl act p acts) l' hist'.
Proof.
  revert p l hist. induction acts as [|a acts IH]; intros p l hist Hk Hlt HP; cbn [foldl]; [right; by exists l, hist|].
  rewrite zlen_cons in Hlt. pose proof (zlen_nonneg acts).
  destruct (act_kept P p l hist a Hk) as [?|(l' & hist' & Hk' & Hsq)]; [lia| |by left|].
  - intros n m ->. eapply HP, list_elem_of_here.
  - apply (IH _ l' hist' Hk'); [lia|]. intros n m Hin. by eapply HP, list_elem_of_further.
Qed.

(** C32.  At-least-once delivery.  However a client's goroutines interleave: transactions put
    off at any time, flushes of the reconnect loop and of [Close] that overlap,
    answers that never come, a queue closed under a running flush, a process
    that ends anywhere and is started again.  Every transaction reported as
    queued is still in the queue, to be sent again, or in a batch the node
    accepted; and nothing else is ever in such a batch; or two of the
    transactions are a SHA-256 collision. *)
Theorem queued_delivered acts :
  zlen acts < two64 ->
  let p := foldl act (newClient (B := B)) acts in
  hash.collision (fun m => exists n, PutOff n m ∈ acts) \/
  exists dbKeys waiting, Drain (db p) = Ok (dbKeys, waiting) /\
    (forall m, m ∈ queued p -> m ∈ waiting \/ m ∈ concat (accepted p)) /\ (forall m, m ∈ concat (accepted p) -> m ∈ queued p).
Proof.
  intros Hlt p. destruct (acts_kept (fun m => exists n, PutOff n m ∈ acts) acts (newClient (B := B)) [] []) as [?|(l & hist & Hk)]; [|done|eauto|by left|].
  - constructor; cbn [newClient db flushers queued accepted map concat]; first [apply repr_open | done | by intros ? ?%not_elem_of_nil | by intros ? ? Hi; rewrite lookup_empty in Hi | constructor].
  - right. exists (map keyOf l), (map plain l). split; [apply repr_drain, (kt_repr _ _ _ _ Hk)|]. split; [apply (kt_cover _ _ _ _ Hk)|apply (kt_honest _ _ _ _ Hk)].
Qed.
End Delivery.

(** ** Signing *)
Section Sign.
Context `{PlatformLaws} `{GCM} {B : Type} `{KV B}.

Lemma signed_verifies kp chain t t' :
  keys.generated kp -> tx.knownType (tx.Type_ t) = true -> signed kp chain t = Ok t' ->
  tx.VerifySigsForChain t' chain = Ok tt.
Proof.
  intros Hg Hty Hs. unfold signed in Hs. apply obind_ok_inv in Hs as (msg & Hm & <-%Ok_inj).
  unfold tx.VerifySigsForChain. match goal with |- obind ?u _ = _ => change u with (tx.UnsignedHashForChain
    (tx.mkTx (tx.Type_ t) (tx.Sender t) (tx.Receiver t) (tx.Value t) (tx.Nonce t) (keys.PublicKey kp) (tx.ReceiverPubKey t)
       (tx.SenderSig t) (tx.ReceiverSig t) (tx.MissedHeight t) (tx.MissedProposer t) (tx.SkipIndex t) (tx.WasmBytes t)
       (tx.InitArgs t) (tx.CallData t) (tx.EvidenceA t) (tx.EvidenceB t)) chain) end.
  rewrite Hm. cbn [obind tx.Type_ tx.SenderPubKey tx.SenderSig]. by rewrite Hty, keys.Verify_Sign.
Qed.

(** What the client sends, nodes accept.  When [SubmitTx] succeeds for a transaction of a
    known type, the client has signed it so that every node of the chain
    accepts its bytes, and these bytes were either taken by the node or are
    put in the queue. *)
Theorem client_tx_accepted kp chain (q : option (queue B)) n ready submit t q' :
  keys.generated kp -> tx.wf t -> tx.knownType (tx.Type_ t) = true ->
  SubmitTx kp chain q n ready submit t = (q', Ok tt) ->
  exists t' raw, signed kp chain t = Ok t' /\ tx.Serialize t' = Ok raw /\ p2p.parseTxForChain raw chain = Ok (canon t') /\
    (ready = true /\ submit raw = Accepted /\ q' = q \/ exists q0, q = Some q0 /\ q' = Some (Enqueue q0 n raw)).
Proof.
  intros Hg [Hw1 Hw2 Hw3 Hw4] Hty Hs. unfold SubmitTx in Hs. destruct (obind _ _) as [raw| |] eqn:Er; [|by simplify_eq..].
  apply obind_ok_inv in Er as (t' & Ht' & Hraw). exists t', raw. split_and!; [done|done| |].
  - apply parse_spec. assert (tx.wf t') as Hw.
    { unfold signed in Ht'. apply obind_ok_inv in Ht' as (? & _ & <-%Ok_inj). by constructor. }
    split; [by apply tx_roundtrip|]. apply VerifySigs_canon. by eapply signed_verifies.
  - destruct ready; [destruct (submit raw) eqn:Ea|]; [left; by simplify_eq|done| |];
      (right; destruct q as [q0|]; [|done]; injection Hs as <-; by exists q0).
Qed.
End Sign.
