(* ===== verification/Backup.v ===== *)
(** * core/statemachine: backups (backup.go), and the frg-backup command

    A file system is a finite map from paths to files; a path is the pair of
    its directory and its base name, as filepath.Dir and filepath.Join relate
    them.  Every call of the operating system may fail ([fault]), a failed
    write may have written a part of the data ([written]), and a file gets
    the time of the call that wrote it ([clock]).  A run keeps, beside its
    result, the file systems a crash at any of its points would leave behind.
    os.Rename replaces its target in one step, as POSIX requires. *)

From S2P Require Import Prelude GoBytes Errors KV.

(** The file format is bbolt's: [bolt_Write] is what [Tx.CopyFile] writes for a
    database, [bolt_Read] opens a file, [bolt_Buckets] lists its buckets. *)
Class Bolt (B : Type) : Type :=
  { bolt_Write : DB B -> bytes;
    bolt_Read : bytes -> option (DB B);
    bolt_Buckets : bytes -> option (list bytes) }.

Definition metaBucket : bytes := str "meta".
Definition blocksBucket : bytes := str "blocks".

Class BoltLaws (B : Type) `{Bolt B} : Prop :=
  { bolt_read_write : forall db, bolt_Read (bolt_Write db) = Some db;
    (* the node creates every bucket when it opens its database *)
    bolt_buckets_write : forall db, exists names, bolt_Buckets (bolt_Write db) = Some names /\ metaBucket ∈ names /\ blocksBucket ∈ names }.

Module backup.

Inductive fileKind : Type := Regular | Directory | Special.

#[export] Instance fileKind_eq_dec : EqDecision fileKind.
Proof. solve_decision. Defined.

Record file : Type := mkFile { kind : fileKind; data : bytes; modTime : Z }.

Abbreviation path := (bytes * bytes)%type.
#[export] Instance path_eq_dec : EqDecision path := _.
#[export] Instance path_countable : Countable path := _.
Abbreviation FS := (@gmap path path_eq_dec path_countable file).

Definition noPath (p : path) : bool := bool_decide (p = ([], [])).

Record world : Type := mkWorld { files : FS; calls : nat }.

(** ** Calls of the operating system *)
Definition io (A : Type) : Type := world -> list FS * world * res A.

Definition ret {A} (r : res A) : io A := fun w => ([], w, r).

Definition bind {A C} (m : io A) (k : A -> io C) : io C := fun w =>
  match m w with
  | (tr, w, Ok a) => let '(tr', w', r) := k a w in (tr ++ tr', w', r)
  | (tr, w, Err e) => (tr, w, Err e)
  | (tr, w, Panic) => (tr, w, Panic)
  end.

#[local] Notation "'do' x <- m ; k" := (bind m (fun x => k)) (at level 20, x name, m at level 100, k at level 200).
#[local] Notation "m ;; k" := (bind m (fun _ => k)) (at level 100, right associativity).

Section OS.
Context (fault : nat -> bool) (written : nat -> nat) (clock : nat -> Z).

(** A call that fails or changes the files in one step. *)
Definition os_call (msg : string) (f : FS -> FS) : io unit := fun w =>
  if fault (calls w) then ([], mkWorld (files w) (S (calls w)), failf msg)
  else ([f (files w)], mkWorld (f (files w)) (S (calls w)), Ok tt).

(** A call that fails or reads. *)
Definition os_read {A} (msg : string) (f : FS -> res A) : io A := fun w =>
  ([], mkWorld (files w) (S (calls w)), if fault (calls w) then failf msg else f (files w)).

(** Close, Sync, Open of a file just written: the files stay. *)
Definition os_touch (msg : string) : io unit := os_call msg (fun fs => fs).

(** os.CreateTemp makes a file that did not exist. *)
Definition CreateTemp (msg : string) (p : path) : io unit := fun w =>
  if fault (calls w) || bool_decide (is_Some (files w !! p)) then ([], mkWorld (files w) (S (calls w)), failf msg)
  else let fs := <[p := mkFile Regular [] (clock (calls w))]> (files w) in ([fs], mkWorld fs (S (calls w)), Ok tt).

(** Writing a file: every prefix of the data can be what a crash leaves. *)
Definition writeFile (msg : string) (p : path) (d : bytes) : io unit := fun w =>
  let put (n : nat) := <[p := mkFile Regular (take n d) (clock (calls w))]> (files w) in
  if fault (calls w)
  then let n := written (calls w) in (map put (seq 0 (S n)), mkWorld (put n) (S (calls w)), failf msg)
  else (map put (seq 0 (S (length d))), mkWorld (put (length d)) (S (calls w)), Ok tt).

Definition rename (p q : path) (fs : FS) : FS :=
  match fs !! p with Some f => <[q := f]> (delete p fs) | None => fs end.

Definition Rename (msg : string) (p q : path) : io unit := fun w =>
  if bool_decide (files w !! p = None) || bool_decide (kind <$> files w !! q = Some Directory)
  then ([], mkWorld (files w) (S (calls w)), failf msg)
  else os_call msg (rename p q) w.

(** [defer os.Remove(p)]: its error is dropped. *)
Definition deferRemove {A} (p : path) (m : io A) : io A := fun w =>
  let '(tr, w, r) := m w in
  if fault (calls w) then (tr, mkWorld (files w) (S (calls w)), r)
  else (tr ++ [delete p (files w)], mkWorld (delete p (files w)) (S (calls w)), r).

Section Backups.
Context {B : Type} `{Bolt B}.

(** ** The operations; [r] is the random part of the temporary name *)
Definition BackupDatabase (db : option (DB B)) (p : path) (r : bytes) : io unit :=
  match db with
  | None => ret (failf "database is nil")
  | Some db =>
    if noPath p then ret (failf "backup path is empty") else
    let tmpPath := (fst p, str ".frg-backup-" ++ r) in
    CreateTemp "create backup temporary file" tmpPath ;;
    deferRemove tmpPath
      (os_touch "close backup temporary file" ;;
       writeFile "copy database" tmpPath (bolt_Write db) ;;
       os_touch "open backup" ;;
       os_touch "sync backup" ;;
       os_touch "close backup" ;;
       Rename "install backup" tmpPath p)
  end.

Definition HasPrefix (s prefix : bytes) : bool := bool_decide (take (length prefix) s = prefix).
Definition HasSuffix (s suffix : bytes) : bool :=
  bool_decide ((length suffix <= length s)%nat /\ drop (length s - length suffix) s = suffix).

(** The entries of a directory that CreateBackup counts. *)
Definition isBackup (name : bytes) (f : file) : bool :=
  HasPrefix name (str "frg-") && HasSuffix name (str ".db") && bool_decide (kind f = Regular).

Definition entriesOf (fs : FS) (dir : bytes) : list (bytes * file) :=
  omap (fun '((d, name), f) => if bool_decide (d = dir) then Some (name, f) else None) (map_to_list fs).

Definition backupsOf (fs : FS) (dir : bytes) : list (bytes * file) :=
  filter (fun e => isBackup (fst e) (snd e) = true) (entriesOf fs dir).

(** Newest first; of two with one time the one with the larger name. *)
Definition newer (a b : bytes * file) : Prop :=
  modTime (snd b) < modTime (snd a) \/ modTime (snd a) = modTime (snd b) /\ bytes_le (fst b) (fst a).
#[export] Instance newer_dec : RelDecision newer.
Proof. intros a b. unfold newer. apply _. Defined.

Fixpoint removeAll (dir : bytes) (old : list (bytes * file)) : io unit :=
  match old with
  | [] => ret (Ok tt)
  | e :: rest => os_call "remove old backup" (delete (dir, fst e)) ;; removeAll dir rest
  end.

(** [stamp] is the formatted time. *)
Definition backupName (stamp : bytes) : bytes := str "frg-" ++ stamp ++ str ".db".

Definition CreateBackup (db : option (DB B)) (dir : bytes) (retain : Z) (stamp r : bytes) : io path :=
  if retain <? 1 then ret (failf "backup retention must be positive") else
  os_touch "create backup directory" ;;
  let p := (dir, backupName stamp) in
  BackupDatabase db p r ;;
  do entries <- os_read "list backups" (fun fs => Ok (backupsOf fs dir));
  let backups := merge_sort newer entries in
  do old <- ret (slice backups retain (zlen backups));
  removeAll dir old ;;
  ret (Ok p).

Definition RestoreDatabase (source destination : path) (r : bytes) : io unit :=
  if noPath source || noPath destination then ret (failf "restore source and destination are required") else
  os_read "check restore destination" (fun fs =>
    match fs !! destination with Some _ => failf "restore destination already exists" | None => Ok tt end) ;;
  os_read "open backup" (fun fs =>
    match fs !! source with
    | None => failf "open backup"
    | Some f =>
      match bolt_Buckets (data f) with
      | None => failf "open backup"
      | Some names =>
        if bool_decide (metaBucket ∈ names) && bool_decide (blocksBucket ∈ names) then Ok tt
        else failf "backup is missing required buckets"
      end
    end) ;;
  os_touch "close backup" ;;
  os_touch "create restore directory" ;;
  let tmpPath := (fst destination, str ".frg-restore-" ++ r) in
  CreateTemp "create restore temporary file" tmpPath ;;
  deferRemove tmpPath
    (do d <- os_read "open restore source" (fun fs =>
       match fs !! source with Some f => Ok (data f) | None => failf "open restore source" end);
     writeFile "copy restore source" tmpPath d ;;
     os_touch "close restore source" ;;
     os_touch "sync restored database" ;;
     os_touch "close restored database" ;;
     Rename "install restored database" tmpPath destination).

(** frg-backup: [db] is what opening the database gives, [r] and [stamp] as above. *)
Definition main (restoreFrom restoreTo : path) (db : res (DB B)) (backupDir : bytes) (retain : Z) (stamp r : bytes) : io path :=
  if negb (noPath restoreFrom) then
    if noPath restoreTo then ret (failf "-restore-to is required with -restore-from") else
    RestoreDatabase restoreFrom restoreTo r ;;
    ret (Ok restoreTo)
  else
    do db <- ret db;
    do p <- CreateBackup (Some db) backupDir retain stamp r;
    os_touch "secure backup" ;;
    ret (Ok p).
End Backups.
End OS.
End backup.

(** * core/statemachine: backups survive crashes, and when making one panics

    [safe I P m Q] is a Hoare triple with a crash condition: run from files
    that satisfy [P], every file system a crash of [m] could leave behind
    satisfies [I], and [m] ends with a result and files that satisfy [Q]. *)

Import backup.

Definition safe {A : Type} (I P : FS -> Prop) (m : io A) (Q : res A -> FS -> Prop) : Prop :=
  forall w tr w' r, P (files w) -> m w = (tr, w', r) -> Forall I tr /\ Q r (files w').

(** What holds of a result that is not [Ok]. *)
Definition failed {A C : Type} (Q : res C -> FS -> Prop) (r : res A) (fs : FS) : Prop :=
  match r with Ok _ => True | Err e => Q (Err e) fs | Panic => Q Panic fs end.

Section Triples.
Implicit Types (I P : FS -> Prop).

Lemma safe_ret {A : Type} I P (r : res A) (Q : res A -> FS -> Prop) : (forall fs, P fs -> Q r fs) -> safe I P (ret r) Q.
Proof. intros HQ w tr w' r' HP [= <- <- <-]. split; [constructor|auto]. Qed.

Lemma safe_weaken {A : Type} I (P P' : FS -> Prop) (m : io A) (Q Q' : res A -> FS -> Prop) :
  safe I P' m Q' -> (forall fs, P fs -> P' fs) -> (forall r fs, Q' r fs -> Q r fs) -> safe I P m Q.
Proof. intros Hm HP HQ w tr w' r Hw Hr. destruct (Hm w tr w' r) as [? ?]; auto. Qed.

Lemma safe_bind {A C : Type} I P (m : io A) (k : A -> io C) R Q :
  safe I P m R -> (forall a, safe I (R (Ok a)) (k a) Q) -> (forall r fs, R r fs -> failed Q r fs) -> safe I P (bind m k) Q.
Proof.
  intros Hm Hk Hf w tr w' r HP Hr. unfold bind in Hr. destruct (m w) as [[tr1 w1] r1] eqn:Em.
  destruct (Hm _ _ _ _ HP Em) as [Htr HR]. destruct r1 as [a|e|].
  - destruct (k a w1) as [[tr2 w2] r2] eqn:Ek. injection Hr as <- <- <-.
    destruct (Hk a _ _ _ _ HR Ek) as [Htr2 HQ]. split; [by apply Forall_app|done].
  - injection Hr as <- <- <-. split; [done|]. exact (Hf _ _ HR).
  - injection Hr as <- <- <-. split; [done|]. exact (Hf _ _ HR).
Qed.

Lemma bind_ok {A C : Type} (m : io A) (k : A -> io C) w tr w1 a :
  m w = (tr, w1, Ok a) -> bind m k w = let '(tr', w', r) := k a w1 in (tr ++ tr', w', r).
Proof. unfold bind. by intros ->. Qed.

Context (fault : nat -> bool) (written : nat -> nat) (clock : nat -> Z).

Lemma safe_call I P msg f Q :
  (forall fs, P fs -> I (f fs) /\ Q (Ok tt) (f fs) /\ Q (failf msg) fs) -> safe I P (os_call fault msg f) Q.
Proof.
  intros HQ w tr w' r HP Hr. unfold os_call in Hr. destruct (HQ _ HP) as (? & ? & ?).
  destruct (fault (calls w)); injection Hr as <- <- <-; (split; [repeat constructor|]; done).
Qed.

Lemma safe_read {A : Type} I P msg (f : FS -> res A) Q :
  (forall fs, P fs -> Q (f fs) fs /\ Q (failf msg) fs) -> safe I P (os_read fault msg f) Q.
Proof.
  intros HQ w tr w' r HP [= <- <- <-]. destruct (HQ _ HP). split; [constructor|]. cbn. by destruct (fault (calls w)).
Qed.

Lemma safe_touch I P msg Q :
  (forall fs, P fs -> I fs /\ Q (Ok tt) fs /\ Q (failf msg) fs) -> safe I P (os_touch fault msg) Q.
Proof. apply safe_call. Qed.

Lemma safe_create I P msg p Q :
  (forall fs t, P fs -> fs !! p = None -> I (<[p := mkFile Regular [] t]> fs) /\ Q (Ok tt) (<[p := mkFile Regular [] t]> fs)) ->
  (forall fs, P fs -> Q (failf msg) fs) ->
  safe I P (CreateTemp fault clock msg p) Q.
Proof.
  intros HQ HF w tr w' r HP Hr. unfold CreateTemp in Hr. case_match eqn:E; injection Hr as <- <- <-.
  - split; [constructor|auto].
  - apply orb_false_iff in E as [_ E]. apply bool_decide_eq_false, eq_None_not_Some in E.
    destruct (HQ _ (clock (calls w)) HP E). split; [by repeat constructor|done].
Qed.

Lemma safe_write I P msg p d Q :
  (forall fs n t, P fs -> I (<[p := mkFile Regular (take n d) t]> fs) /\ Q (failf msg) (<[p := mkFile Regular (take n d) t]> fs)) ->
  (forall fs t, P fs -> Q (Ok tt) (<[p := mkFile Regular d t]> fs)) ->
  safe I P (writeFile fault written clock msg p d) Q.
Proof.
  intros HI HQ w tr w' r HP Hr. unfold writeFile in Hr.
  assert (forall k, Forall I (map (fun n => <[p := mkFile Regular (take n d) (clock (calls w))]> (files w)) (seq 0 k))) as Htr.
  { intros k. apply Forall_map, Forall_forall. intros n _. by apply HI. }
  destruct (fault (calls w)); injection Hr as <- <- <-; (split; [apply (Htr (S _))|]); cbn [files].
  - by apply HI.
  - rewrite firstn_all. by apply HQ.
Qed.

Lemma safe_rename I P msg p q Q :
  (forall fs f, P fs -> fs !! p = Some f -> I (<[q := f]> (delete p fs)) /\ Q (Ok tt) (<[q := f]> (delete p fs))) ->
  (forall fs, P fs -> Q (failf msg) fs) ->
  safe I P (Rename fault msg p q) Q.
Proof.
  intros HQ HF w tr w' r HP Hr. unfold Rename in Hr. case_match eqn:E; [injection Hr as <- <- <-; split; [constructor|auto]|].
  apply orb_false_iff in E as [E _]. apply bool_decide_eq_false in E. destruct (files w !! p) as [f|] eqn:Ef; [|done].
  destruct (HQ _ _ HP Ef). revert Hr. apply (safe_call I (fun fs => fs = files w)); [|done].
  intros fs ->. unfold rename. rewrite Ef. auto.
Qed.

Lemma safe_defer {A : Type} I P p (m : io A) (R Q : res A -> FS -> Prop) :
  safe I P m R -> (forall r fs, R r fs -> I (delete p fs) /\ Q r fs /\ Q r (delete p fs)) -> safe I P (deferRemove fault p m) Q.
Proof.
  intros Hm HR w tr w' r HP Hr. unfold deferRemove in Hr. destruct (m w) as [[tr1 w1] r1] eqn:Em.
  destruct (Hm _ _ _ _ HP Em) as [Htr HR1]. destruct (HR _ _ HR1) as (? & ? & ?).
  destruct (fault (calls w1)); injection Hr as <- <- <-; (split; [|done]); [done|]. apply Forall_app. by repeat constructor.
Qed.
End Triples.

(** ** Writing a file beside its final name and renaming it *)
Section Install.
Context (fault : nat -> bool) (written : nat -> nat) (clock : nat -> Z).
Context (fs0 : FS) (p tmp : path) (d : bytes) (Hpt : p <> tmp).

(** What a crash may leave: the old file or the whole new one under [p], every other file as it was, and maybe [tmp]. *)
Definition atomic (fs : FS) : Prop :=
  (fs !! p = fs0 !! p \/ data <$> fs !! p = Some d) /\ forall q, q <> p -> q <> tmp -> fs !! q = fs0 !! q.

Definition unchanged (fs : FS) : Prop := fs = fs0.
Definition partly (fs : FS) : Prop := fs0 !! tmp = None /\ exists d' t, fs = <[tmp := mkFile Regular d' t]> fs0.
Definition whole (fs : FS) : Prop := fs0 !! tmp = None /\ exists t, fs = <[tmp := mkFile Regular d t]> fs0.
Definition installed (fs : FS) : Prop := fs0 !! tmp = None /\ exists t, fs = <[p := mkFile Regular d t]> fs0.

(** How the work on the temporary file ends, and the whole call. *)
Definition inner (r : res unit) (fs : FS) : Prop :=
  match r with Ok _ => installed fs | Err _ => partly fs | Panic => False end.
Definition outcome_ok (r : res unit) (fs : FS) : Prop :=
  match r with Ok _ => installed fs | Err _ => unchanged fs \/ partly fs | Panic => False end.

Lemma partly_atomic fs : partly fs -> atomic fs.
Proof. intros (_ & d' & t & ->). split; [left; by rewrite lookup_insert_ne|]. intros q _ Hq. by rewrite lookup_insert_ne. Qed.
Lemma whole_partly fs : whole fs -> partly fs.
Proof. intros (? & t & ->). split; [done|]. by eexists _, _. Qed.
Lemma installed_atomic fs : installed fs -> atomic fs.
Proof. intros (_ & t & ->). split; [right; by rewrite lookup_insert_eq|]. intros q Hq _. by rewrite lookup_insert_ne. Qed.
Lemma unchanged_atomic fs : unchanged fs -> atomic fs.
Proof. intros ->. split; [by left|done]. Qed.

Lemma safe_whole msg Q : (forall fs, whole fs -> Q (Ok tt) fs /\ Q (failf msg) fs) -> safe atomic whole (os_touch fault msg) Q.
Proof. intros HQ. apply safe_touch. intros fs Hfs. destruct (HQ fs Hfs). split_and!; [by apply partly_atomic, whole_partly|done..]. Qed.

(** A step after which the temporary file is whole, or which fails. *)
Definition still (r : res unit) (fs : FS) : Prop :=
  match r with Ok _ => whole fs | Err _ => partly fs | Panic => False end.

Lemma still_failed r fs : still r fs -> failed inner r fs.
Proof. destruct r; cbn; auto. Qed.

Lemma safe_still msg : safe atomic whole (os_touch fault msg) still.
Proof. apply safe_whole. intros fs Hfs. split; [done|by apply whole_partly]. Qed.

Lemma safe_install msg : safe atomic whole (Rename fault msg tmp p) inner.
Proof.
  apply safe_rename.
  - intros fs f (Hn & t & ->). rewrite lookup_insert_eq. intros [= <-].
    assert (installed (<[p := mkFile Regular d t]> (delete tmp (<[tmp := mkFile Regular d t]> fs0)))) as Hi.
    { split; [done|]. exists t. by rewrite delete_insert_id. }
    split; [by apply installed_atomic|done].
  - intros fs Hfs. by apply whole_partly.
Qed.

(** The data goes to the temporary file: whole, or a part of it and an error. *)
Lemma safe_fill msg : safe atomic partly (writeFile fault written clock msg tmp d) still.
Proof.
  apply safe_write.
  - intros fs n t (Hn & d' & t' & ->). rewrite insert_insert_eq.
    assert (partly (<[tmp := mkFile Regular (take n d) t]> fs0)) by (split; [done|by eexists _, _]).
    split; [by apply partly_atomic|done].
  - intros fs t (Hn & d' & t' & ->). rewrite insert_insert_eq. split; [done|by eexists].
Qed.

(** Removing the temporary name leaves the old files or the installed one. *)
Lemma inner_remove (r : res unit) fs : inner r fs -> atomic (delete tmp fs) /\ outcome_ok r fs /\ outcome_ok r (delete tmp fs).
Proof.
  intros Hr. destruct r as [[]|e|]; [| |done].
  - destruct Hr as (Hn & t & ->).
    assert (installed (delete tmp (<[p := mkFile Regular d t]> fs0))) as Hi.
    { split; [done|]. exists t. rewrite delete_insert_ne by done. by rewrite delete_id. }
    split_and!; [by apply installed_atomic|split; [done|by eexists]|done].
  - destruct Hr as (Hn & d' & t & ->). rewrite delete_insert_id by done.
    split_and!; [by apply unchanged_atomic|right; split; [done|by eexists _, _]|by left].
Qed.

(** Creating the temporary file and working on it. *)
Lemma safe_temporary msg (m : io unit) :
  safe atomic partly m inner ->
  safe atomic unchanged (bind (CreateTemp fault clock msg tmp) (fun _ => deferRemove fault tmp m)) outcome_ok.
Proof.
  intros Hm. apply safe_bind with (R := fun r fs => match r with Ok _ => partly fs | Err _ => unchanged fs | Panic => False end).
  - apply safe_create; [|done]. intros fs t -> Hn.
    assert (partly (<[tmp := mkFile Regular [] t]> fs0)) by (split; [done|by eexists _, _]). split; [by apply partly_atomic|done].
  - intros _. eapply safe_defer; [exact Hm|apply inner_remove].
  - intros [[]|e|] fs; cbn; auto.
Qed.
End Install.

Section Backups.
Context {B : Type} `{BoltLaws B} (fault : nat -> bool) (written : nat -> nat) (clock : nat -> Z).

Lemma BackupDatabase_safe fs0 db p r :
  p <> (fst p, str ".frg-backup-" ++ r) ->
  safe (atomic fs0 p (fst p, str ".frg-backup-" ++ r) (bolt_Write db)) (unchanged fs0)
    (BackupDatabase fault written clock (Some db) p r)
    (outcome_ok fs0 p (fst p, str ".frg-backup-" ++ r) (bolt_Write db)).
Proof.
  intros Hp. unfold BackupDatabase. destruct (noPath p); [apply safe_ret; by left|].
  apply safe_temporary; [done|]. eapply safe_bind; [|intros []|].
  - apply safe_touch with (Q := fun r' fs => match r' with Panic => False | _ => partly fs0 (fst p, str ".frg-backup-" ++ r) fs end).
    intros fs Hfs. split_and!; [by apply partly_atomic|done..].
  - eapply safe_bind; [apply safe_fill; done|intros []|apply still_failed].
    do 3 (eapply safe_bind; [apply safe_still; done|intros []|apply still_failed]). by apply safe_install.
  - intros [[]|e|] fs; cbn; auto.
Qed.

(** What a restore may start from: the source holds [d], which opens and has the buckets; the destination does not exist. *)
Lemma RestoreDatabase_safe fs0 src dst r d :
  dst <> (fst dst, str ".frg-restore-" ++ r) -> src <> (fst dst, str ".frg-restore-" ++ r) -> data <$> fs0 !! src = Some d ->
  safe (atomic fs0 dst (fst dst, str ".frg-restore-" ++ r) d) (unchanged fs0)
    (RestoreDatabase fault written clock src dst r)
    (fun res fs => outcome_ok fs0 dst (fst dst, str ".frg-restore-" ++ r) d res fs /\ (res = Ok tt -> fs0 !! dst = None)).
Proof.
  set (tmp := (fst dst, str ".frg-restore-" ++ r)). intros Hd Hs Hsrc. unfold RestoreDatabase.
  destruct (noPath src || noPath dst); [apply safe_ret; intros fs ->; split; [by left|done]|].
  set (Q := fun res fs => _). assert (forall (e : error) fs, unchanged fs0 fs -> Q (Err e) fs) as HQ by (intros e fs Hfs; split; [by left|done]).
  eapply safe_bind with (R := fun res fs => unchanged fs0 fs /\ res <> Panic /\ (res = Ok tt -> fs0 !! dst = None)).
  { eapply safe_read. intros fs ->. destruct (fs0 !! dst) eqn:E; split; (split; [done|split; [done|]]); done. }
  2: { intros [a|e|] fs (? & ? & ?); [done|by apply HQ|done]. }
  intros []. eapply safe_bind with (R := fun res fs => unchanged fs0 fs /\ res <> Panic /\ fs0 !! dst = None).
  { eapply safe_read. intros fs (-> & _ & Hn). specialize (Hn eq_refl).
    split; (split; [done|split; [|done]]); [|done]. unfold failf. by repeat case_match. }
  2: { intros [a|e|] fs (? & ? & ?); [done|by apply HQ|done]. }
  intros []. destruct (fs0 !! dst) as [f0|] eqn:E0.
  { intros w tr w' res (_ & _ & [=]). }
  apply safe_weaken with (P' := unchanged fs0) (Q' := outcome_ok fs0 dst tmp d); [|by intros fs (? & _)|intros res fs ?; by split].
  do 2 (eapply safe_bind with (R := fun res fs => unchanged fs0 fs /\ res <> Panic);
    [apply safe_touch; intros fs Hfs; split_and!; [by apply unchanged_atomic|done..]|intros []
    |intros [a|e|] fs (? & ?); [done|by left|done]];
    apply safe_weaken with (P' := unchanged fs0) (Q' := outcome_ok fs0 dst tmp d); [|by intros fs (? & _)|done]).
  apply safe_temporary; [done|].
  eapply safe_bind with (R := fun res fs => partly fs0 tmp fs /\ res <> Panic /\ forall d', res = Ok d' -> d' = d).
  { eapply safe_read. intros fs Hp. pose proof Hp as (Hn & d' & t & ->). rewrite lookup_insert_ne by done.
    destruct (fs0 !! src) as [f|] eqn:Ef; [|done]. injection Hsrc as <-. split; (split; [done|]); (split; [done|]); by intros ? [=]. }
  2: { intros [a|e|] fs (? & ? & ?); [done|done|done]. }
  intros d'. destruct (decide (d' = d)) as [->|Hne].
  2: { intros w tr w' res (_ & _ & Hd'). by destruct Hne; apply Hd'. }
  eapply safe_weaken with (P' := partly fs0 tmp); [|by intros fs (? & _)|done].
  eapply safe_bind; [apply safe_fill; done|intros []|apply still_failed].
  do 3 (eapply safe_bind; [apply safe_still; done|intros []|apply still_failed]). by apply safe_install.
Qed.

(** C21.  Backups are atomic.  Whichever calls of the operating system fail and wherever the
    process crashes, the backup's name holds what it held before or the whole
    snapshot, and no other file but the temporary one is touched; a call that
    succeeds has installed the snapshot, one that fails has not. *)
Theorem backup_atomic w db p r tr w' res :
  p <> (fst p, str ".frg-backup-" ++ r) ->
  BackupDatabase fault written clock (Some db) p r w = (tr, w', res) ->
  (forall fs, fs ∈ tr -> (fs !! p = files w !! p \/ data <$> fs !! p = Some (bolt_Write db)) /\
     forall q, q <> p -> q <> (fst p, str ".frg-backup-" ++ r) -> fs !! q = files w !! q) /\
  match res with
  | Ok _ => data <$> files w' !! p = Some (bolt_Write db) /\ bolt_Read (bolt_Write db) = Some db
  | Err _ => files w' !! p = files w !! p
  | Panic => False
  end.
Proof.
  intros Hp Hr. destruct (BackupDatabase_safe (files w) db p r Hp w tr w' res eq_refl Hr) as [Htr Hres].
  rewrite Forall_forall in Htr. split; [exact Htr|]. destruct res as [[]|e|]; [| |done].
  - destruct Hres as (_ & t & ->). rewrite lookup_insert_eq. split; [done|]. apply bolt_read_write.
  - destruct Hres as [-> |(_ & d' & t & ->)]; [done|]. by rewrite lookup_insert_ne.
Qed.

(** Restoring.  A restore never replaces an existing file; whichever calls fail and
    wherever the process crashes, the destination is absent or holds the
    whole backup, and no other file but the temporary one is touched.  A
    restore that succeeds from a snapshot gives back the database. *)
Theorem restore_atomic w src dst r d tr w' res :
  dst <> (fst dst, str ".frg-restore-" ++ r) -> src <> (fst dst, str ".frg-restore-" ++ r) -> data <$> files w !! src = Some d ->
  RestoreDatabase fault written clock src dst r w = (tr, w', res) ->
  (forall fs, fs ∈ tr -> (fs !! dst = files w !! dst \/ data <$> fs !! dst = Some d) /\
     forall q, q <> dst -> q <> (fst dst, str ".frg-restore-" ++ r) -> fs !! q = files w !! q) /\
  match res with
  | Ok _ => files w !! dst = None /\ data <$> files w' !! dst = Some d /\ forall db, d = bolt_Write db -> bolt_Read d = Some db
  | Err _ => files w' !! dst = files w !! dst
  | Panic => False
  end.
Proof.
  intros Hd Hs Hsrc Hr. destruct (RestoreDatabase_safe (files w) src dst r d Hd Hs Hsrc w tr w' res eq_refl Hr) as [Htr [Hres Hn]].
  rewrite Forall_forall in Htr. split; [exact Htr|]. destruct res as [[]|e|]; [| |done].
  - destruct Hres as (_ & t & ->). rewrite lookup_insert_eq. split_and!; [by apply Hn|done|]. intros db ->. apply bolt_read_write.
  - destruct Hres as [-> |(_ & d' & t & ->)]; [done|]. by rewrite lookup_insert_ne.
Qed.

(** The command that restores a backup leaves a database file that opens as what
    was backed up, where there was none before. *)
Lemma main_restores w src dst db db' dir retain stamp r tr w' p :
  dst <> (fst dst, str ".frg-restore-" ++ r) -> src <> (fst dst, str ".frg-restore-" ++ r) -> noPath src = false ->
  data <$> files w !! src = Some (bolt_Write db) -> main fault written clock src dst db' dir retain stamp r w = (tr, w', Ok p) ->
  p = dst /\ files w !! dst = None /\ exists f, files w' !! dst = Some f /\ bolt_Read (data f) = Some db.
Proof.
  intros Hd Hs Hp Hsrc. unfold main. rewrite Hp. cbn [negb]. destruct (noPath dst); [done|]. unfold bind, ret.
  destruct (RestoreDatabase fault written clock src dst r w) as [[tr1 w1] [[]|e|]] eqn:Er; [|done..]. intros [= _ <- <-].
  destruct (restore_atomic w src dst r _ _ _ _ Hd Hs Hsrc Er) as [_ (Hn & Hf & Hr)]. split; [done|]. split; [done|].
  destruct (files w1 !! dst) as [f|] eqn:Ef; [|done]. cbn in Hf. injection Hf as Hf. exists f. rewrite Hf. split; [done|by apply Hr].
Qed.
End Backups.

(** ** Retention *)
Lemma elem_of_backups fs dir n f : (n, f) ∈ backupsOf fs dir <-> fs !! (dir, n) = Some f /\ isBackup n f = true.
Proof.
  unfold backupsOf, entriesOf. rewrite list_elem_of_filter, list_elem_of_omap. cbn [fst snd]. split.
  - intros [Hb ([[d' n'] f'] & Hin & Hd)]. case_bool_decide; [|done]. injection Hd as -> ->. subst.
    by apply elem_of_map_to_list in Hin.
  - intros [Hf Hb]. split; [done|]. exists ((dir, n), f). split; [by apply elem_of_map_to_list|]. by rewrite bool_decide_eq_true_2.
Qed.

Lemma backups_nodup fs dir : NoDup (map fst (backupsOf fs dir)).
Proof.
  unfold backupsOf, entriesOf. pose proof (NoDup_fst_map_to_list fs) as Hn. induction (map_to_list fs) as [|[[d n] f] l IH]; [constructor|].
  cbn [fmap list_fmap fst] in Hn. apply NoDup_cons in Hn as [Hni Hn]. specialize (IH Hn). cbn [omap list_omap].
  case_bool_decide; [|done]. rewrite filter_cons. case_decide; [|done]. cbn [map fst]. apply NoDup_cons. split; [|done].
  intros ([n' f'] & Hn' & Hin)%list_elem_of_fmap. cbn in Hn'. subst n' d.
  apply list_elem_of_filter in Hin as [_ ([[d2 n2] f2] & Hin & Hd)%list_elem_of_omap]. case_bool_decide; [|done].
  injection Hd as -> ->. subst d2. destruct Hni. apply list_elem_of_fmap. by exists ((dir, n), f').
Qed.

(** Removing files by name. *)
Definition without (dir : bytes) (names : list bytes) (fs : FS) : FS := foldl (fun fs n => delete (dir, n) fs) fs names.

Lemma lookup_without dir names fs q :
  without dir names fs !! q = if decide (fst q = dir /\ snd q ∈ names) then None else fs !! q.
Proof.
  revert fs. unfold without. induction names as [|n names IH]; intros fs; cbn [foldl].
  { rewrite decide_False; [done|]. by intros [_ ?%not_elem_of_nil]. }
  rewrite IH, lookup_delete. destruct q as [d m]; cbn [fst snd]. repeat case_decide; set_solver.
Qed.

Instance newer_total : Total newer.
Proof. intros a b. unfold newer. destruct (Z.lt_trichotomy (modTime (snd a)) (modTime (snd b))) as [?|[?|?]]; [auto| |auto].
  destruct (total bytes_le (fst a) (fst b)); [right|left]; auto. Qed.
Instance newer_trans : Transitive newer.
Proof. intros a b c. unfold newer. intros [?|[? ?]] [?|[? ?]]; [left; lia..|right]. split; [lia|]. by etrans. Qed.

Lemma removeAll_ok fault dir old w :
  (forall k, fault k = false) ->
  exists tr w', removeAll fault dir old w = (tr, w', Ok tt) /\ files w' = without dir (map fst old) (files w).
Proof.
  intros Hf. revert w. induction old as [|e old IH]; intros w; cbn [removeAll map]; [by exists [], w|].
  unfold bind, os_call. rewrite Hf. destruct (IH (mkWorld (delete (dir, fst e) (files w)) (S (calls w)))) as (tr & w' & -> & Hw).
  eexists _, w'. split; [done|exact Hw].
Qed.

Section Retention.
Context {B : Type} `{BoltLaws B} (fault : nat -> bool) (written : nat -> nat) (clock : nat -> Z).

(** The snapshot of a run in which no call fails. *)
Lemma BackupDatabase_ok w db p r :
  (forall k, fault k = false) -> noPath p = false -> p <> (fst p, str ".frg-backup-" ++ r) ->
  files w !! (fst p, str ".frg-backup-" ++ r) = None -> kind <$> files w !! p <> Some Directory ->
  exists tr t k, BackupDatabase fault written clock (Some db) p r w = (tr, mkWorld (<[p := mkFile Regular (bolt_Write db) t]> (files w)) k, Ok tt).
Proof.
  intros Hf Hp Hne Hn Hd. unfold BackupDatabase. rewrite Hp. set (tmp := (fst p, str ".frg-backup-" ++ r)) in *.
  unfold CreateTemp, deferRemove, os_touch, writeFile, Rename, os_call, bind.
  rewrite ?Hf, Hn. rewrite bool_decide_eq_false_2 by (by intros [? [=]]). cbn [orb files calls].
  rewrite ?Hf. cbn [files calls]. rewrite firstn_all.
  rewrite insert_insert_eq, lookup_insert_eq, lookup_insert_ne by done.
  rewrite (bool_decide_eq_false_2 (_ = Some Directory)) by done.
  rewrite bool_decide_eq_false_2 by done. cbn [orb]. unfold rename. rewrite lookup_insert_eq, ?Hf. cbn [files calls].
  rewrite ?Hf. cbn [files calls].
  rewrite delete_insert_id by done. rewrite delete_insert_ne by done. rewrite delete_id by done. eauto.
Qed.

Lemma name_not_tmp (dir stamp r : bytes) : (dir, backupName stamp) <> (fst (dir, backupName stamp), str ".frg-backup-" ++ r).
Proof. intros Hp. apply (f_equal (fun q => head (snd q))) in Hp. vm_compute in Hp. discriminate Hp. Qed.

Lemma name_not_empty (dir stamp : bytes) : noPath (dir, backupName stamp) = false.
Proof. apply bool_decide_eq_false_2. intros Hp. apply (f_equal (fun q => head (snd q))) in Hp. vm_compute in Hp. discriminate Hp. Qed.

Lemma keep_newest dir fs k (sorted : list (bytes * file)) :
  sorted ≡ₚ backupsOf fs dir ->
  backupsOf (without dir (map fst (drop k sorted)) fs) dir ≡ₚ take k sorted.
Proof.
  intros Hp. assert (NoDup (map fst sorted)) as Hn by (rewrite Hp; apply backups_nodup).
  rewrite <- (take_drop k sorted) in Hn at 1. rewrite map_app in Hn. apply NoDup_app in Hn as (Hn1 & Hdis & _).
  apply NoDup_Permutation; [apply (NoDup_fmap_1 fst), backups_nodup|by apply (NoDup_fmap_1 fst)|].
  intros [n f]. rewrite elem_of_backups, lookup_without. cbn [fst snd].
  assert ((n, f) ∈ sorted <-> fs !! (dir, n) = Some f /\ isBackup n f = true) as Hs by (by rewrite Hp, elem_of_backups).
  rewrite <- (take_drop k sorted), elem_of_app in Hs.
  assert ((n, f) ∈ take k sorted -> n ∈ map fst (take k sorted)) by (intros; apply list_elem_of_fmap; by exists (n, f)).
  assert ((n, f) ∈ drop k sorted -> n ∈ map fst (drop k sorted)) by (intros; apply list_elem_of_fmap; by exists (n, f)).
  case_decide as Hd; naive_solver.
Qed.

(** Up to the sorted list of backups. *)
Lemma CreateBackup_reduce w db dir retain stamp r :
  (forall k, fault k = false) -> 1 <= retain ->
  files w !! (dir, str ".frg-backup-" ++ r) = None -> kind <$> files w !! (dir, backupName stamp) <> Some Directory ->
  exists t k, let fs1 := <[(dir, backupName stamp) := mkFile Regular (bolt_Write db) t]> (files w) in
    let sorted := merge_sort newer (backupsOf fs1 dir) in
    forall tr' w' res,
      bind (ret (slice sorted retain (zlen sorted)))
        (fun old => bind (removeAll fault dir old) (fun _ => ret (Ok (dir, backupName stamp)))) (mkWorld fs1 k) = (tr', w', res) ->
      exists tr, CreateBackup fault written clock (Some db) dir retain stamp r w = (tr, w', res).
Proof.
  intros Hf Hr Hn Hd. destruct (BackupDatabase_ok (mkWorld (files w) (S (calls w))) db (dir, backupName stamp) r Hf
    (name_not_empty dir stamp) (name_not_tmp dir stamp r) Hn Hd) as (tr1 & t & k & Hb).
  exists t, (S k). intros fs1 sorted tr' w' res Hrest. unfold CreateBackup. rewrite (proj2 (Z.ltb_ge _ _)) by lia.
  rewrite (bind_ok _ _ w [files w] (mkWorld (files w) (S (calls w))) tt) by (unfold os_touch, os_call; by rewrite Hf).
  rewrite (bind_ok _ _ _ _ _ _ Hb).
  rewrite (bind_ok _ _ _ [] (mkWorld fs1 (S k)) (backupsOf fs1 dir)) by (unfold os_read; by rewrite Hf).
  cbv beta zeta. fold sorted. rewrite Hrest. by eexists.
Qed.

Lemma CreateBackup_spec w db dir retain stamp r :
  (forall k, fault k = false) -> 1 <= retain ->
  files w !! (dir, str ".frg-backup-" ++ r) = None -> kind <$> files w !! (dir, backupName stamp) <> Some Directory ->
  exists tr w' t,
    let fs1 := <[(dir, backupName stamp) := mkFile Regular (bolt_Write db) t]> (files w) in
    (zlen (backupsOf fs1 dir) < retain /\ files w' = fs1 /\
       CreateBackup fault written clock (Some db) dir retain stamp r w = (tr, w', Panic)) \/
    (retain <= zlen (backupsOf fs1 dir) /\
       CreateBackup fault written clock (Some db) dir retain stamp r w = (tr, w', Ok (dir, backupName stamp)) /\
       backupsOf (files w') dir ≡ₚ take (Z.to_nat retain) (merge_sort newer (backupsOf fs1 dir)) /\
       forall q f, fs1 !! q = Some f -> fst q <> dir \/ isBackup (snd q) f = false -> files w' !! q = Some f).
Proof.
  intros Hf Hr Hn Hd. destruct (CreateBackup_reduce w db dir retain stamp r Hf Hr Hn Hd) as (t & k & Hred). cbv zeta in Hred.
  set (fs1 := <[(dir, backupName stamp) := _]> (files w)) in Hred. set (sorted := merge_sort newer (backupsOf fs1 dir)) in Hred.
  assert (sorted ≡ₚ backupsOf fs1 dir) as Hp by apply merge_sort_Permutation.
  assert (zlen sorted = zlen (backupsOf fs1 dir)) as Hl by (unfold zlen; by rewrite Hp).
  destruct (Z_lt_dec (zlen (backupsOf fs1 dir)) retain) as [Hlt|Hge].
  - destruct (Hred [] (mkWorld fs1 k) Panic) as [tr Htr].
    { unfold bind, ret, slice. by rewrite (proj2 (Z.leb_gt retain (zlen sorted))), andb_false_r by lia. }
    exists tr, (mkWorld fs1 k), t. left. split_and!; done.
  - destruct (removeAll_ok fault dir (drop (Z.to_nat retain) sorted) (mkWorld fs1 k) Hf) as (tr2 & w' & Hrm & Hw).
    destruct (Hred tr2 w' (Ok (dir, backupName stamp))) as [tr Htr].
    { unfold bind at 1, ret at 1. rewrite slice_ok by lia. rewrite firstn_all2 by (unfold zlen; rewrite length_drop; lia).
      rewrite (bind_ok _ _ _ _ _ _ Hrm). unfold ret. by rewrite app_nil_r. }
    exists tr, w', t. cbv zeta. fold fs1. cbn [files] in Hw. right. split_and!; [lia|exact Htr|rewrite Hw; by apply keep_newest|].
    intros q f Hq Hb'. rewrite Hw, lookup_without, decide_False; [done|]. intros [<- Hin].
    apply list_elem_of_fmap in Hin as ([n f'] & Hsn & Hin). cbn in Hsn. subst n.
    assert ((snd q, f') ∈ sorted) as Hin' by (rewrite <- (take_drop (Z.to_nat retain) sorted); apply elem_of_app; by right).
    rewrite Hp in Hin'. apply elem_of_backups in Hin' as [Hq' Hb2]. destruct q as [dq nq]. cbn in *. rewrite Hq in Hq'. injection Hq' as <-.
    destruct Hb'; congruence.
Qed.

(** Retention.  When no call fails, [CreateBackup] keeps exactly the newest backups, as
    many as it is told to, and no other file is lost; but if the directory
    then has fewer backups than that, it panics. *)
Theorem CreateBackup_retention w db dir retain stamp r :
  (forall k, fault k = false) -> 1 <= retain ->
  files w !! (dir, str ".frg-backup-" ++ r) = None -> kind <$> files w !! (dir, backupName stamp) <> Some Directory ->
  exists tr w' t,
    let fs1 := <[(dir, backupName stamp) := mkFile Regular (bolt_Write db) t]> (files w) in
    (zlen (backupsOf fs1 dir) < retain /\ files w' = fs1 /\
       CreateBackup fault written clock (Some db) dir retain stamp r w = (tr, w', Panic)) \/
    (retain <= zlen (backupsOf fs1 dir) /\
       CreateBackup fault written clock (Some db) dir retain stamp r w = (tr, w', Ok (dir, backupName stamp)) /\
       backupsOf (files w') dir ≡ₚ take (Z.to_nat retain) (merge_sort newer (backupsOf fs1 dir)) /\
       forall q f, fs1 !! q = Some f -> fst q <> dir \/ isBackup (snd q) f = false -> files w' !! q = Some f).
Proof. apply CreateBackup_spec. Qed.

Lemma first_backups fs dir name f :
  backupsOf fs dir = [] -> zlen (backupsOf (<[(dir, name) := f]> fs) dir) <= 1.
Proof.
  intros He. assert (forall e, e ∈ backupsOf (<[(dir, name) := f]> fs) dir -> fst e = name) as Hall.
  { intros [n f'] [Hl Hb]%elem_of_backups. apply lookup_insert_Some in Hl as [[[= ->] _]|[_ Hl]]; [done|].
    assert ((n, f') ∈ backupsOf fs dir) as Hin by (by apply elem_of_backups). rewrite He in Hin. by apply not_elem_of_nil in Hin. }
  pose proof (backups_nodup (<[(dir, name) := f]> fs) dir) as Hn.
  destruct (backupsOf (<[(dir, name) := f]> fs) dir) as [|a [|b l]]; [rewrite zlen_nil; lia|rewrite zlen_one; lia|]. exfalso. cbn [map] in Hn. apply NoDup_cons in Hn as [Hni _].
  destruct Hni. rewrite (Hall a), <- (Hall b) by set_solver. left.
Qed.

(** The first backup panics.  In a directory without backups, [CreateBackup] told to keep
    two or more snapshots writes the first one and then panics, although no
    call of the operating system failed. *)
Theorem first_backup_panics w db dir retain stamp r :
  (forall k, fault k = false) -> 2 <= retain -> backupsOf (files w) dir = [] ->
  files w !! (dir, str ".frg-backup-" ++ r) = None -> kind <$> files w !! (dir, backupName stamp) <> Some Directory ->
  exists tr w', CreateBackup fault written clock (Some db) dir retain stamp r w = (tr, w', Panic) /\
    data <$> files w' !! (dir, backupName stamp) = Some (bolt_Write db).
Proof.
  intros Hf Hr He Hn Hd. destruct (CreateBackup_spec w db dir retain stamp r Hf ltac:(lia) Hn Hd)
    as (tr & w' & t & [(_ & Hw & Hc)|(Hge & _)]).
  - exists tr, w'. split; [done|]. by rewrite Hw, lookup_insert_eq.
  - pose proof (first_backups (files w) dir (backupName stamp) (mkFile Regular (bolt_Write db) t) He). lia.
Qed.
End Retention.
