(* ===== verification/Wallet.v ===== *)
(** * wallet: keys and the transactions a wallet makes (wallet.go)

    A wallet talks to a node over gRPC: [Node] holds what the node answers,
    the nonce of an account and whether it takes a transaction.  Every
    operation returns the messages it submitted and its result. *)

From S2P Require Import Prelude GoBytes Errors Platform Hex Tx TxProofs TxSigProofs KV Denom Ledger Staking Gas Mint Node Tree Contract.
From S2P Require Import BlockStore Telemetry StateMachine Vote BlockLoop Round Engine Gossip Rpc RpcProofs Client.

Module wallet.

Record Node : Type := mkNode
  { GetAccount : arr 32 -> res Z;          (* the nonce of AccountResponse *)
    SubmitTx : bytes -> res bool }.        (* the Ok field of the response *)

Record Wallet : Type := mkWallet { kp : keys.Keypair; chainID : bytes }.

Section Wallet.
Context `{Platform}.
Implicit Types (w : Wallet) (n : Node).

Definition New (kp : option keys.Keypair) (client : option Node) (chainID : bytes) : res Wallet :=
  match kp, client with
  | None, _ => failf "keypair is nil"
  | _, None => failf "client is nil"
  | Some kp, Some _ => Ok (mkWallet kp (if bool_decide (chainID = []) then tx.DefaultChainID else chainID))
  end.

(** [LoadKeypair] of the bytes of the file; [SaveSeed] is what it writes. *)
Definition LoadKeypair (data : bytes) : res keys.Keypair :=
  if zlen data =? 32 then Ok (keys.NewKeypairFromSeed (mk_arr 32 data)) else
  if zlen data =? 64 then Ok (keys.NewKeypairFromPrivateKey (mk_arr 64 data)) else
  failf "invalid key length".

Definition SaveSeed (kp : option keys.Keypair) : res bytes :=
  match kp with
  | None => failf "keypair is nil"
  | Some kp => Ok (take 32 (keys.PrivateKey kp))
  end.

Definition DecodePubKey (pubkeyHex : bytes) : res (arr 32) :=
  match hex_DecodeString pubkeyHex with
  | Some raw => if negb (zlen raw =? 32) then failf "pubkey must be 32-byte hex" else Ok (mk_arr 32 raw)
  | None => failf "pubkey must be 32-byte hex"
  end.

Record FaucetResult : Type := mkFaucetResult { FOK : bool; FTxID : bytes; FError : bytes }.

(** [RequestFaucet] of the HTTP answer: its code, its status line and its decoded body. *)
Definition RequestFaucet (answer : res (Z * bytes * res FaucetResult)) : option FaucetResult * res unit :=
  match answer with
  | Ok (code, status, Ok out) =>
    if (code <? 200) || (code >=? 300) || negb (FOK out)
    then (Some (mkFaucetResult (FOK out) (FTxID out) (if bool_decide (FError out = []) then status else FError out)), failf "faucet rejected request")
    else (Some out, Ok tt)
  | Ok (_, _, Err e) | Err e => (None, Err e)
  | Ok (_, _, Panic) | Panic => (None, Panic)
  end.

Definition PublicKeyHex w : bytes := hex_EncodeToString (keys.PublicKey (kp w)).

Definition OwnAccount w n : res Z := GetAccount n (keys.PublicKey (kp w)).

Definition signAndSubmit w n (tr : tx.Tx) : list bytes * res bytes :=
  match (let* sig := tx.SignSenderForChain tr (kp w) (chainID w) in
         let tr := set_SenderSig sig tr in
         let* raw := tx.Serialize tr in Ok (tr, raw)) with
  | Panic => ([], Panic)
  | Err e => ([], Err e)
  | Ok (tr, raw) =>
    ([raw],
     let* ok := SubmitTx n raw in
     if (ok : bool) then let* txid := tx.ID tr in Ok (hex_EncodeToString txid) else failf "node rejected transaction")
  end.

(** A transaction with the fields the wallet sets. *)
Definition plainTx w (ty : Z) (sender receiver : bytes) (value nonce : Z) (to : arr 32) : tx.Tx :=
  tx.mkTx ty sender receiver (Some value) nonce (keys.PublicKey (kp w)) to (zero_arr 64) (zero_arr 64) 0 (zero_arr 32) 0 [] [] [] [] [].

(** Ask for the account's nonce and build the transaction with the next one. *)
Definition withAccount w n (k : Z -> list bytes * res bytes) : list bytes * res bytes :=
  match OwnAccount w n with
  | Ok nonce => k (wrap64 (nonce + 1))
  | Err e => ([], Err e)
  | Panic => ([], Panic)
  end.

(** [amount == nil || amount.Sign() <= 0] *)
Definition positive (amount : option Z) : option Z :=
  match amount with Some a => if a <=? 0 then None else Some a | None => None end.

Definition Transfer w n (to : arr 32) (amount : option Z) : list bytes * res bytes :=
  match positive amount with
  | None => ([], failf "amount must be positive")
  | Some a => withAccount w n (fun nonce =>
      signAndSubmit w n (plainTx w tx.TxTypeTransfer (str "wallet") (str "wallet") a nonce to))
  end.

Definition Bond w n (amount : option Z) : list bytes * res bytes :=
  match positive amount with
  | None => ([], failf "amount must be positive")
  | Some a => withAccount w n (fun nonce =>
      signAndSubmit w n (plainTx w tx.TxTypeBond (str "validator") (str "staking") a nonce (keys.PublicKey (kp w))))
  end.

Definition Unbond w n : list bytes * res bytes :=
  withAccount w n (fun nonce =>
    signAndSubmit w n (plainTx w tx.TxTypeUnbond (str "validator") (str "staking") 0 nonce (keys.PublicKey (kp w)))).

Definition FinalizeUnbond w n : list bytes * res bytes :=
  withAccount w n (fun nonce =>
    signAndSubmit w n (plainTx w tx.TxTypeFinalizeUnbond (str "validator") (str "staking") 0 nonce (keys.PublicKey (kp w)))).

Definition ClaimRewards w n : list bytes * res bytes :=
  withAccount w n (fun nonce =>
    signAndSubmit w n (plainTx w tx.TxTypeClaimRewards (str "validator") (str "rewards") 0 nonce (keys.PublicKey (kp w)))).

Definition SubmitMissedDeadlineReport w n (missedHeight : Z) (missedProposer : arr 32) (skipIndex : Z) : list bytes * res bytes :=
  withAccount w n (fun nonce =>
    signAndSubmit w n
      (tx.mkTx tx.TxTypeMissEvidence (str "miss-evidence") (str "missed-proposer") (Some 0) nonce (keys.PublicKey (kp w)) missedProposer
         (zero_arr 64) (zero_arr 64) missedHeight missedProposer skipIndex [] [] [] [] [])).

(** [value == nil] means zero; a negative one is refused. *)
Definition DeployContract w n (wasm : bytes) (value : option Z) : list bytes * res (bytes * bytes) :=
  if zlen wasm =? 0 then ([], failf "wasm is required") else
  match OwnAccount w n with
  | Err e => ([], Err e)
  | Panic => ([], Panic)
  | Ok acct =>
    let value := default 0 value in
    if value <? 0 then ([], failf "value must not be negative") else
    let nonce := wrap64 (acct + 1) in
    let '(sent, r) := signAndSubmit w n
      (tx.mkTx tx.TxTypeContractDeploy (str "wallet") (str "contract") (Some value) nonce (keys.PublicKey (kp w)) (zero_arr 32)
         (zero_arr 64) (zero_arr 64) 0 (zero_arr 32) 0 wasm [] [] [] []) in
    (sent, let* txid := r in Ok (txid, hex_EncodeToString (contract.ContractAddr (keys.PublicKey (kp w)) nonce)))
  end.

Definition CallContract w n (contractAddr : arr 32) (callData : bytes) (value : option Z) : list bytes * res bytes :=
  match OwnAccount w n with
  | Err e => ([], Err e)
  | Panic => ([], Panic)
  | Ok acct =>
    let value := default 0 value in
    if value <? 0 then ([], failf "value must not be negative") else
    signAndSubmit w n
      (tx.mkTx tx.TxTypeContractCall (str "wallet") (str "contract") (Some value) (wrap64 (acct + 1)) (keys.PublicKey (kp w)) contractAddr
         (zero_arr 64) (zero_arr 64) 0 (zero_arr 32) 0 [] [] callData [] [])
  end.
End Wallet.
End wallet.

(** * wallet: what the wallet sends is what the ledger applies *)

Import wallet.

Section Wallet.
Context `{PlatformLaws}.
Implicit Types (w : Wallet) (n : Node).

(** A seed is the first half of the private key made from it (crypto/ed25519, [PrivateKey.Seed]). *)
Lemma seed_roundtrip (kp : keys.Keypair) :
  (forall seed, take 32 (ed25519_NewKeyFromSeed seed) = seed) -> keys.generated kp ->
  (let* file := SaveSeed (Some kp) in LoadKeypair file) = Ok kp.
Proof.
  intros Hseed [seed ->]. cbn [SaveSeed obind keys.PrivateKey keys.NewKeypairFromSeed]. rewrite Hseed.
  unfold LoadKeypair. rewrite zlen_arr. cbn. by rewrite mk_arr_bytes.
Qed.

(** A saved key is read back. *)
Theorem LoadKeypair_SaveSeed (kp : keys.Keypair) :
  (forall seed, take 32 (ed25519_NewKeyFromSeed seed) = seed) -> keys.generated kp ->
  (let* file := SaveSeed (Some kp) in LoadKeypair file) = Ok kp.
Proof. apply seed_roundtrip. Qed.

(** ** What is submitted *)
Definition sentTx w (tr : tx.Tx) (raw : bytes) (t : tx.Tx) : Prop :=
  exists sig, t = canon (set_SenderSig sig tr) /\ p2p.parseTxForChain raw (chainID w) = Ok t.

Lemma signAndSubmit_sent w n tr sent txid :
  keys.generated (kp w) -> tx.SenderPubKey tr = keys.PublicKey (kp w) -> tx.wf tr -> tx.knownType (tx.Type_ tr) = true ->
  signAndSubmit w n tr = (sent, Ok txid) ->
  exists raw t id, sent = [raw] /\ sentTx w tr raw t /\ SubmitTx n raw = Ok true /\ tx.ID t = Ok id /\ txid = hex_EncodeToString id.
Proof.
  intros Hg Hpk Hw Hty Hs. unfold signAndSubmit in Hs.
  destruct (obind _ _) as [[tr' raw]| |] eqn:Er; [|done..]. injection Hs as <- Hs.
  apply obind_ok_inv in Er as (sig & Hsig & (raw' & Hraw & Hp%Ok_inj)%obind_ok_inv). injection Hp as <- ->.
  apply obind_ok_inv in Hs as (ok & Hok & Hs). destruct ok; [|done]. apply obind_ok_inv in Hs as (id & Hid & <-%Ok_inj).
  exists raw, (canon (set_SenderSig sig tr)), id. split_and!; [done| |done| |done].
  - exists sig. split; [done|]. by eapply signed_parses.
  - unfold tx.ID in *. apply obind_ok_inv in Hid as (u & Hu & Hid). by rewrite (serializeUnsigned_canon _ _ Hu).
Qed.

Lemma withAccount_ok w n k sent txid :
  withAccount w n k = (sent, Ok txid) -> exists nonce, GetAccount n (keys.PublicKey (kp w)) = Ok nonce /\ k (wrap64 (nonce + 1)) = (sent, Ok txid).
Proof. unfold withAccount, OwnAccount. intros Hs. destruct (GetAccount n _) as [nonce| |]; [by exists nonce|done..]. Qed.

Lemma wrap64_u64 z : is_u64 (wrap64 z).
Proof. apply Z.mod_pos_bound. done. Qed.

(** A transfer of the wallet, as the node decodes it. *)
Lemma Transfer_sent w n to a sent txid :
  keys.generated (kp w) -> Transfer w n to a = (sent, Ok txid) ->
  exists v nonce raw t id, a = Some v /\ 0 < v /\ GetAccount n (keys.PublicKey (kp w)) = Ok nonce /\ sent = [raw] /\
    p2p.parseTxForChain raw (chainID w) = Ok t /\ tx.ID t = Ok id /\ txid = hex_EncodeToString id /\ tx.wf t /\
    tx.Type_ t = tx.TxTypeTransfer /\ tx.Value t = Some v /\ tx.Nonce t = wrap64 (nonce + 1) /\
    tx.SenderPubKey t = keys.PublicKey (kp w) /\ tx.ReceiverPubKey t = to.
Proof.
  intros Hg Ht. unfold Transfer, positive in Ht. destruct a as [v|]; [|done]. destruct (v <=? 0) eqn:Ev; [done|].
  apply withAccount_ok in Ht as (nonce & Hn & Ht). apply Z.leb_gt in Ev.
  apply signAndSubmit_sent in Ht as (raw & t & id & -> & (sig & -> & Hp) & _ & Hid & ->); try done.
  - exists v, nonce, raw. eexists. exists id. split_and!; try done. constructor; cbn; try done. apply wrap64_u64.
  - constructor; cbn; try done. apply wrap64_u64.
Qed.
End Wallet.

(** ** What the ledger does with it *)
Section Applied.
Context `{PlatformLaws} `{contract.Wasmtime} `{telemetry.Json} {B : Type} `{KVLaws B}.
Implicit Types (w : Wallet) (n : Node) (db : DB B) (st : statemachine.TxState (B := B)).

(** A node that answers from the ledger [db]. *)
Definition answersFrom n db : Prop := forall pk, GetAccount n pk = ledger.NonceOf db pk.

Lemma answered_nonce n db pk nonce : ledger.ledger_ok db -> answersFrom n db -> GetAccount n pk = Ok nonce -> nonce = ledger.nonceOf db pk.
Proof. intros Hok Ha. rewrite Ha. unfold ledger.NonceOf. rewrite (proj1 (storedNonce_ok db pk Hok)). by intros <-%Ok_inj. Qed.

(** C20.  What a wallet's transfer comes to.  If the node answers from a ledger, then a transfer for
    which the wallet reports success has submitted one message, which every
    node of the chain accepts as a transfer of that amount, of more than
    nothing; the reported identifier is that of the transaction.  Applied to
    that ledger it fails for want of funds when the wallet's account does not
    cover the amount, with an overflow when the recipient's balance would not
    fit 256 bits, and otherwise the recipient's balance grows by the amount,
    the wallet's falls by it unless the two are one account, and no third
    account changes. *)
Theorem wallet_transfer_arrives w n db to a sent txid height baseFee st i pre :
  keys.generated (kp w) -> ledger.ledger_ok db -> answersFrom n db -> statemachine.ts_db st = db ->
  Transfer w n to (Some a) = (sent, Ok txid) ->
  let own := keys.PublicKey (kp w) in
  exists raw t id, sent = [raw] /\ p2p.parseTxForChain raw (chainID w) = Ok t /\
    tx.ID t = Ok id /\ txid = hex_EncodeToString id /\ 0 < a /\
    let applied := statemachine.applyTx height baseFee st i t pre in
    (ledger.BalanceOf db own < a -> applied = fail ErrInsufficientFunds) /\
    (a <= ledger.BalanceOf db own -> two256 <= ledger.BalanceOf db to + a -> applied = fail ErrArithmeticOverflow) /\
    (a <= ledger.BalanceOf db own -> ledger.BalanceOf db to + a < two256 ->
     exists db', applied = Ok (statemachine.set_db st db') /\
       ledger.BalanceOf db' to = ledger.BalanceOf db to + a /\
       (to <> own -> ledger.BalanceOf db' own = ledger.BalanceOf db own - a) /\
       (forall c, c <> own -> c <> to -> ledger.BalanceOf db' c = ledger.BalanceOf db c)).
Proof.
  intros Hg Hok Hans Hst Ht own.
  apply Transfer_sent in Ht as (v & nonce & raw & t & id & [= <-] & Hv & Hn & -> & Hp & Hid & -> & Hwf & Hty & Hval & Hno & Hs & Hr); [|done].
  apply (answered_nonce n db) in Hn as ->; [|done..]. subst to. fold own in Hs, Hno.
  destruct (TransferTx_branches db t a Hok Hwf Hval ltac:(lia)) as (_ & Hpoor & Hover & Hsucc). rewrite Hs in *.
  exists raw, t, id. unfold statemachine.applyTx. rewrite Hty, Hst. cbn [Z.eqb tx.TxTypeTransfer]. split_and!; try done.
  - intros Hlt. by rewrite (Hpoor Hno Hlt).
  - intros Hle Hlt. by rewrite (Hover Hno Hle Hlt).
  - intros Hle Hlt. destruct (Hsucc Hno Hle Hlt) as (db' & -> & _ & _ & _ & Hrb & Hsb & Hob).
    exists db'. split_and!; try done. intros Hne. apply Hsb. congruence.
Qed.

(** After a transfer its nonce is the account's, so the next must be larger. *)
Lemma nonce_spent db t v db' :
  ledger.ledger_ok db -> tx.wf t -> tx.Value t = Some v -> 0 <= v -> ledger.TransferTx db t = Ok db' ->
  ledger.ledger_ok db' /\ ledger.nonceOf db' (tx.SenderPubKey t) = tx.Nonce t.
Proof.
  intros Hok Hwf Hval Hv Ht. pose proof Ht as Hinv. apply TransferTx_inv in Hinv as (v' & b & Hv' & Hsh & Hn & ->); [|done].
  assert (is_u64 (tx.Nonce t)) as Hu by apply Hwf. rewrite Hval in Hv'. injection Hv' as <-. split.
  - by apply (ledger_ok_shift (used_nonce db t) (tx.SenderPubKey t) (tx.ReceiverPubKey t) v); [|apply ledger_ok_put_nonce|].
  - change (ledger.nonceOf (set_balances ?d ?b)) with (ledger.nonceOf d). unfold used_nonce. rewrite nonceOf_put by done. by rewrite decide_True.
Qed.

Lemma wrap64_next z : wrap64 (z + 1) <> wrap64 (wrap64 (z + 1) + 1).
Proof.
  unfold wrap64. intros He. pose proof (Z.mod_pos_bound (z + 1) two64 ltac:(done)) as Hb. revert He Hb.
  generalize ((z + 1) mod two64) as x. intros x He Hb. destruct (Z.eq_dec (x + 1) two64) as [E|E].
  - rewrite E, Z.mod_same in He by done. unfold two64 in *. lia.
  - rewrite Z.mod_small in He; lia.
Qed.

(** Two transfers before a block.  When a wallet makes two transfers while the node still
    answers from the same ledger, it reports success for both, but once the
    first has been applied the second is skipped: it moves nothing. *)
Theorem wallet_second_transfer_lost w n db to1 a1 to2 a2 sent1 id1 sent2 id2 height baseFee st i j pre pre' :
  keys.generated (kp w) -> ledger.ledger_ok db -> answersFrom n db -> statemachine.ts_db st = db ->
  to1 <> keys.PublicKey (kp w) -> a1 <= ledger.BalanceOf db (keys.PublicKey (kp w)) -> ledger.BalanceOf db to1 + a1 < two256 ->
  Transfer w n to1 (Some a1) = (sent1, Ok id1) -> Transfer w n to2 (Some a2) = (sent2, Ok id2) ->
  exists raw1 t1 raw2 t2 st1, sent1 = [raw1] /\ sent2 = [raw2] /\
    p2p.parseTxForChain raw1 (chainID w) = Ok t1 /\ p2p.parseTxForChain raw2 (chainID w) = Ok t2 /\
    statemachine.applyTx height baseFee st i t1 pre = Ok st1 /\
    statemachine.applyTx height baseFee st1 j t2 pre' = Ok st1.
Proof.
  intros Hg Hok Hans Hst Hne Hle Hlt Ht1 Ht2.
  apply Transfer_sent in Ht1 as (v1 & n1 & raw1 & t1 & x1 & [= <-] & Hv1 & Hn1 & -> & Hp1 & _ & _ & Hwf1 & Hty1 & Hval1 & Hno1 & Hs1 & Hr1); [|done].
  apply Transfer_sent in Ht2 as (v2 & n2 & raw2 & t2 & x2 & [= <-] & Hv2 & Hn2 & -> & Hp2 & _ & _ & Hwf2 & Hty2 & Hval2 & Hno2 & Hs2 & Hr2); [|done].
  assert (n2 = n1) as -> by congruence. apply (answered_nonce n db) in Hn1 as ->; [|done..]. subst to1.
  destruct (TransferTx_branches db t1 a1 Hok Hwf1 Hval1 ltac:(lia)) as (_ & _ & _ & Hsucc). rewrite Hs1 in Hsucc.
  destruct (Hsucc Hno1 Hle Hlt) as (db' & Htr & Hok' & Hn' & _).
  exists raw1, t1, raw2, t2, (statemachine.set_db st db'). split_and!; try done.
  - unfold statemachine.applyTx. by rewrite Hty1, Hst, Htr.
  - destruct (TransferTx_branches db' t2 a2 Hok' Hwf2 Hval2 ltac:(lia)) as (Hseq & _). rewrite Hs2, Hn', Hno2, Hno1 in Hseq.
    unfold statemachine.applyTx. rewrite Hty2. cbn [statemachine.ts_db statemachine.set_db]. rewrite Hseq; [done|]. apply wrap64_next.
Qed.

(** The address of a deployed contract.  The address [DeployContract] reports is the one
    under which the state machine will store the code of the submitted
    transaction, and it decodes to that address. *)
Theorem wallet_deploy_address w n wasm value sent txid addrHex :
  keys.generated (kp w) -> DeployContract w n wasm value = (sent, Ok (txid, addrHex)) ->
  exists raw t, sent = [raw] /\ p2p.parseTxForChain raw (chainID w) = Ok t /\ tx.Type_ t = tx.TxTypeContractDeploy /\ tx.WasmBytes t = wasm /\
    DecodePubKey addrHex = Ok (contract.ContractAddr (tx.SenderPubKey t) (tx.Nonce t)).
Proof.
  intros Hg Hd. unfold DeployContract in Hd. destruct (zlen wasm =? 0); [done|]. destruct (OwnAccount w n) as [acct| |]; [|done..].
  destruct (default 0 value <? 0); [done|]. destruct (signAndSubmit _ _ _) as [sent' r] eqn:Es. injection Hd as -> Hr.
  apply obind_ok_inv in Hr as (id & -> & Hr%Ok_inj). injection Hr as -> <-.
  apply signAndSubmit_sent in Es as (raw & t & id' & -> & (sig & -> & Hp) & _ & _ & _); try done.
  - exists raw. eexists. split_and!; [done|exact Hp|done|done|]. unfold DecodePubKey. rewrite hex_roundtrip, zlen_arr. cbn [negb].
    by rewrite mk_arr_bytes.
  - constructor; cbn; try done. apply wrap64_u64.
Qed.
End Applied.
