(* ===== verification/Faucet.v ===== *)
(** * cmd/frg-faucet: paying out test coins (main.go)

    A request is handled in two parts: the checks, among them the rate limit,
    and then, holding the faucet's mutex, the payment.  Other requests can run
    between the two.  The decoded JSON body, the clock and the node's answers
    are arguments. *)

From S2P Require Import Prelude GoBytes Errors Platform Hex Tx TxProofs TxSigProofs KV Denom Ledger Staking Gas Mint Node Tree Contract.
From S2P Require Import BlockStore Telemetry StateMachine Vote BlockLoop Round Engine Gossip Rpc RpcProofs Client Wallet.

Module faucet.

Definition defaultFaucetAmount : Z := 100.

(** HTTP status codes. *)
Definition StatusOK : Z := 200.
Definition StatusBadRequest : Z := 400.
Definition StatusMethodNotAllowed : Z := 405.
Definition StatusTooManyRequests : Z := 429.
Definition StatusInternalServerError : Z := 500.
Definition StatusBadGateway : Z := 502.

Record faucet (B : Type) : Type := mkFaucet { kp : keys.Keypair; db : B; chainID : bytes }.
Arguments mkFaucet {B}. Arguments kp {B}. Arguments db {B}. Arguments chainID {B}.

(** int64 arithmetic wraps around. *)
Definition int64_of (z : Z) : Z := (z + two63) mod two64 - two63.

Definition int64ToBytes (v : Z) : bytes := be_enc 8 v.

Definition int64FromBytes (b : bytes) : res Z :=
  let* s := slice (E := error) b 0 8 in Ok (int64_of (be_dec s)).

Section Faucet.
Context `{Platform} {B : Type} `{KV B}.
Implicit Types (f : faucet B) (n : wallet.Node).

(** A Go slice index out of range panics; the HTTP server ends the request. *)
(** [loadKeypair] of what reading the file gives: a seed or a private key. *)
Definition loadKeypair (file : res bytes) : res keys.Keypair :=
  let* data := file in
  if zlen data =? 32 then Ok (keys.NewKeypairFromSeed (mk_arr 32 data)) else
  if zlen data =? 64 then Ok (keys.NewKeypairFromPrivateKey (mk_arr 64 data)) else
  failf "invalid key length".

Definition isRateLimited f (pubkey : arr 32) (now : Z) : res bool :=
  let* last := match kv_Get (db f) pubkey with Some v => int64FromBytes v | None => Ok 0 end in
  Ok (int64_of (now - last) <? 60).

Definition recordRequest f (pubkey : arr 32) (now : Z) : faucet B :=
  mkFaucet (kp f) (kv_Put (db f) pubkey (int64ToBytes now)) (chainID f).

Definition getNonce f n : res Z :=
  let* nonce := wallet.GetAccount n (keys.PublicKey (kp f)) in Ok (wrap64 (nonce + 1)).

(** The checks: the recipient, or the status of the answer. *)
Definition admissible f (post : bool) (body : option bytes) (now : Z) : res (Z + arr 32) :=
  if negb post then Ok (inl StatusMethodNotAllowed) else
  match body with
  | None => Ok (inl StatusBadRequest)
  | Some pubkey =>
    match hex_DecodeString pubkey with
    | None => Ok (inl StatusBadRequest)
    | Some pubkeyBytes =>
      if negb (zlen pubkeyBytes =? 32) then Ok (inl StatusBadRequest) else
      let recipient := mk_arr 32 pubkeyBytes in
      let* limited := isRateLimited f recipient now in
      Ok (if (limited : bool) then inl StatusTooManyRequests else inr recipient)
    end
  end.

Definition payment f (recipient : arr 32) (nonce : Z) : tx.Tx :=
  tx.mkTx tx.TxTypeTransfer (str "faucet") (str "user") (Some defaultFaucetAmount) nonce (keys.PublicKey (kp f)) recipient
    (zero_arr 64) (zero_arr 64) 0 (zero_arr 32) 0 [] [] [] [] [].

(** The part under the mutex: the faucet afterwards, what was submitted, the status. *)
Definition pay f n (recipient : arr 32) (now : Z) : faucet B * list bytes * Z :=
  match getNonce f n with
  | Ok nonce =>
    match tx.SignSenderForChain (payment f recipient nonce) (kp f) (chainID f) with
    | Ok sig =>
      match tx.Serialize (set_SenderSig sig (payment f recipient nonce)) with
      | Ok txBytes =>
        match wallet.SubmitTx n txBytes with
        | Ok true => (recordRequest f recipient now, [txBytes], StatusOK)
        | _ => (f, [txBytes], StatusBadGateway)
        end
      | _ => (f, [], StatusInternalServerError)
      end
    | _ => (f, [], StatusInternalServerError)
    end
  | _ => (f, [], StatusBadGateway)
  end.

(** A request handled with nothing in between. *)
Definition handleFaucet f n (post : bool) (body : option bytes) (checked recorded : Z) : faucet B * list bytes * res Z :=
  match admissible f post body checked with
  | Ok (inl status) => (f, [], Ok status)
  | Ok (inr recipient) => let '(f, sent, status) := pay f n recipient recorded in (f, sent, Ok status)
  | Err e => (f, [], Err e)
  | Panic => (f, [], Panic)
  end.

Definition StatusNotFound : Z := 404.

(** The routes of [main]. *)
Definition serveHTTP f n (path : bytes) (post : bool) (body : option bytes) (checked recorded : Z) : faucet B * list bytes * res Z :=
  if bool_decide (path = str "/faucet") then handleFaucet f n post body checked recorded else
  (f, [], Ok (if bool_decide (path = str "/health") then StatusOK else StatusNotFound)).

(** What is written with a status: [ok] only with 200. *)
Definition faucetResponse (status : Z) (txid err : bytes) : wallet.FaucetResult :=
  if status =? StatusOK then wallet.mkFaucetResult true txid [] else wallet.mkFaucetResult false [] err.

(** ** Requests that overlap *)
Record system : Type := mkSystem
  { state : faucet B;
    waiting : list (arr 32);                (* admitted, not yet paid *)
    paid : list (arr 32 * Z) }.             (* history: recipients and times *)

Inductive event : Type :=
| Arrive (post : bool) (body : option bytes) (now : Z)
| Serve (i : nat) (n : wallet.Node) (now : Z).

Definition step (s : system) (ev : event) : system :=
  match ev with
  | Arrive post body now =>
    match admissible (state s) post body now with
    | Ok (inr recipient) => mkSystem (state s) (waiting s ++ [recipient]) (paid s)
    | _ => s
    end
  | Serve i n now =>
    match waiting s !! i with
    | None => s
    | Some recipient =>
      let '(f, _, status) := pay (state s) n recipient now in
      mkSystem f (take i (waiting s) ++ drop (S i) (waiting s)) (if status =? StatusOK then paid s ++ [(recipient, now)] else paid s)
    end
  end.
End Faucet.
End faucet.

(** * cmd/frg-faucet: the rate limit, and what overlapping requests do to it *)

Import faucet.

(** Times are positive and far below the limit of int64. *)
Definition time_ok (t : Z) : Prop := 0 <= t < 2 ^ 62.

Lemma int64_of_small z : - two63 <= z < two63 -> int64_of z = z.
Proof. intros Hz. unfold int64_of. rewrite Z.mod_small; unfold two63, two64 in *; lia. Qed.

Lemma int64_roundtrip t : time_ok t -> int64FromBytes (int64ToBytes t) = Ok t.
Proof.
  unfold time_ok. intros Ht. unfold int64FromBytes, int64ToBytes.
  rewrite slice_ok by (rewrite ?zlen_be_enc; lia). cbn [obind]. rewrite drop_0, firstn_all2 by (by rewrite be_enc_length).
  rewrite be_dec_enc_small by (cbn; lia). rewrite int64_of_small; [done|]. unfold two63. lia.
Qed.

Section Rate.
Context `{Platform} {B : Type} `{KVLaws B}.
Implicit Types (f : faucet B).

(** One request: what it asks, what the node answers, and when it is checked and recorded. *)
Record request : Type := mkRequest
  { node : wallet.Node; post : bool; body : option bytes; checked : Z; recorded : Z }.

(** The payments of requests handled one after the other. *)
Fixpoint payments f (rs : list request) : list (arr 32 * (Z * Z)) :=
  match rs with
  | [] => []
  | r :: rest =>
    match admissible f (post r) (body r) (checked r) with
    | Ok (inr recipient) =>
      let '(f', _, status) := pay f (node r) recipient (recorded r) in
      (if status =? StatusOK then [(recipient, (checked r, recorded r))] else []) ++ payments f' rest
    | _ => payments f rest
    end
  end.

(** The clock runs forward. *)
Fixpoint clock_ok (from : Z) (rs : list request) : Prop :=
  match rs with
  | [] => True
  | r :: rest => from <= checked r <= recorded r /\ time_ok (recorded r) /\ clock_ok (recorded r) rest
  end.

Lemma pay_cases f n recipient now f' sent status :
  pay f n recipient now = (f', sent, status) ->
  (status = StatusOK /\ f' = recordRequest f recipient now) \/ (status <> StatusOK /\ f' = f).
Proof. unfold pay. repeat case_match; intros [= <- <- <-]; auto. Qed.

Lemma isRateLimited_get f (k : arr 32) now last :
  kv_Get (db f) k = Some (int64ToBytes last) -> time_ok last -> time_ok now ->
  isRateLimited f k now = Ok (now - last <? 60).
Proof.
  intros Hg Hl Hn. unfold isRateLimited. rewrite Hg, int64_roundtrip by done. cbn [obind].
  rewrite int64_of_small; [done|]. unfold time_ok, two63 in *. lia.
Qed.

Lemma admissible_inv f p b now recipient :
  admissible f p b now = Ok (inr recipient) -> isRateLimited f recipient now = Ok false.
Proof.
  unfold admissible. intros Ha. destruct p; [|done]. destruct b as [pk|]; [|done]. cbn [negb] in Ha.
  destruct (hex_DecodeString pk) as [raw|]; [|done]. destruct (negb (zlen raw =? 32)); [done|].
  apply obind_ok_inv in Ha as ([] & Hl & Ha); [done|]. apply Ok_inj in Ha. by injection Ha as <-.
Qed.

(** After a payment to [k] recorded at [t], later ones to [k] are checked at least a minute later. *)
Lemma later_payments f (k : arr 32) t now rs :
  kv_Get (db f) k = Some (int64ToBytes t) -> time_ok t -> t <= now -> clock_ok now rs ->
  Forall (fun p => fst p = k -> t + 60 <= fst (snd p)) (payments f rs).
Proof.
  revert f t now. induction rs as [|r rs IH]; intros f t now Hg Ht Hle Hc; cbn [payments clock_ok] in *; [constructor|].
  destruct Hc as (Hc1 & Hc2 & Hc3).
  assert (time_ok (checked r)) as Hck by (unfold time_ok in *; lia).
  destruct (admissible f _ _ _) as [[|recipient]| |] eqn:Ea; try by (apply (IH f t (recorded r)); [..|lia|]).
  apply admissible_inv in Ea. destruct (pay f _ recipient _) as [[f' sent] status] eqn:Ep.
  apply pay_cases in Ep as [[-> ->]|[Hs ->]].
  - rewrite Z.eqb_refl. cbn [app]. constructor.
    + cbn [fst snd]. intros ->. rewrite (isRateLimited_get f k _ t) in Ea by done. apply Ok_inj, Z.ltb_ge in Ea. lia.
    + destruct (decide (recipient = k)) as [->|Hne].
      * rewrite (isRateLimited_get f k _ t) in Ea by done. apply Ok_inj, Z.ltb_ge in Ea.
        eapply Forall_impl; [apply (IH _ (recorded r) (recorded r))|].
        -- cbn [recordRequest db]. by rewrite kv_get_put, decide_True.
        -- done.
        -- lia.
        -- done.
        -- cbn. intros p Hp Hk. specialize (Hp Hk). lia.
      * apply (IH _ t (recorded r)); [|done|lia|done]. cbn [recordRequest db]. rewrite kv_get_put, decide_False; [done|].
        intros He. by apply Hne, arr_eq.
  - rewrite (proj2 (Z.eqb_neq _ _)) by done. cbn [app]. apply (IH f t (recorded r)); [done|done|lia|done].
Qed.

(** One payment a minute.  If requests are handled one after the other, two payments to
    one key are at least sixty seconds apart: the later one is checked sixty
    seconds after the earlier one was recorded. *)
Theorem faucet_rate_limited f rs from :
  0 <= from -> clock_ok from rs ->
  StronglySorted (fun p q => fst p = fst q -> snd (snd p) + 60 <= fst (snd q)) (payments f rs).
Proof.
  revert f from. induction rs as [|r rs IH]; intros f from Hf Hc; cbn [payments clock_ok] in *; [constructor|].
  destruct Hc as (Hc1 & Hc2 & Hc3). assert (0 <= recorded r) by (unfold time_ok in *; lia).
  destruct (admissible f _ _ _) as [[|recipient]| |] eqn:Ea; try by (apply (IH f (recorded r))).
  destruct (pay f _ recipient _) as [[f' sent] status] eqn:Ep.
  apply pay_cases in Ep as [[-> ->]|[Hs ->]].
  - rewrite Z.eqb_refl. cbn [app]. constructor; [by apply (IH _ (recorded r))|].
    assert (kv_Get (db (recordRequest f recipient (recorded r))) recipient = Some (int64ToBytes (recorded r))) as Hget
      by (cbn [recordRequest db]; by rewrite kv_get_put, decide_True).
    pose proof (later_payments _ recipient (recorded r) (recorded r) rs Hget Hc2 ltac:(lia) Hc3) as Hl.
    eapply Forall_impl; [exact Hl|]. cbn. intros p Hp Hk. by apply Hp.
  - rewrite (proj2 (Z.eqb_neq _ _)) by done. by apply (IH f (recorded r)).
Qed.

(** Whether a payment succeeds does not depend on what has been recorded. *)
Lemma pay_status f k t n recipient now : snd (pay (recordRequest f k t) n recipient now) = snd (pay f n recipient now).
Proof.
  unfold pay. change (getNonce (recordRequest f k t) n) with (getNonce f n). destruct (getNonce f n) as [nonce| |]; [|done..].
  change (payment (recordRequest f k t) recipient nonce) with (payment f recipient nonce). cbn [recordRequest kp chainID].
  destruct (tx.SignSenderForChain _ _ _) as [sig| |]; [|done..]. destruct (tx.Serialize _) as [raw| |]; [|done..].
  by destruct (wallet.SubmitTx n raw) as [[]| |].
Qed.

(** Overlapping requests are not limited.  However many requests for one key arrive before
    the first of them is served, all are paid when the node takes the
    transactions: k payments at once instead of one a minute. *)
Theorem faucet_race f key recipient now n k :
  admissible f true (Some key) now = Ok (inr recipient) -> snd (pay f n recipient now) = StatusOK ->
  paid (foldl step (mkSystem f [] []) (replicate k (Arrive true (Some key) now) ++ replicate k (Serve 0 n now)))
    = replicate k (recipient, now).
Proof.
  intros Ha Hp. rewrite foldl_app.
  assert (forall m ws ps, foldl step (mkSystem f ws ps) (replicate m (Arrive true (Some key) now)) = mkSystem f (ws ++ replicate m recipient) ps) as Harr.
  { induction m as [|m IHm]; intros ws ps; cbn [replicate foldl]; [by rewrite app_nil_r|].
    unfold step at 2. cbn [state]. rewrite Ha. cbn [waiting paid]. rewrite IHm, <- app_assoc. done. }
  rewrite Harr, app_nil_l. clear Ha Harr.
  assert (forall m g ps, snd (pay g n recipient now) = StatusOK ->
    paid (foldl step (mkSystem g (replicate m recipient) ps) (replicate m (Serve 0 n now))) = ps ++ replicate m (recipient, now)) as Hsrv;
    [|by apply (Hsrv k f [])].
  induction m as [|m IHm]; intros g ps Hg; cbn [replicate foldl]; [by rewrite app_nil_r|].
  unfold step at 2. cbn [waiting state lookup list_lookup]. pose proof (pay_status g recipient now n recipient now) as Hrec.
  destruct (pay g n recipient now) as [[f' sent] status] eqn:Ep. cbn [snd] in Hg, Hrec. subst status.
  apply pay_cases in Ep as [[_ ->]|[? _]]; [|done]. rewrite Z.eqb_refl. cbn [take app drop paid waiting].
  rewrite IHm, <- app_assoc by done. done.
Qed.
End Rate.

(** The wallet takes the answer of the faucet for what it is: success exactly when
    the handler ended with 200. *)
Lemma faucet_answer_read status line txid err :
  snd (wallet.RequestFaucet (Ok (status, line, Ok (faucetResponse status txid err)))) = Ok tt <-> status = StatusOK.
Proof.
  unfold faucetResponse. destruct (Z.eqb_spec status StatusOK) as [->|Hne]; cbn; [done|]. rewrite orb_true_r. by split.
Qed.
