(* ===== verification/NetAddr.v ===== *)
(** * net: host and port of an address, and IP literals

    [SplitHostPort], [ParseIP] and [IP.IsLoopback] of the standard library, as
    frg-node and frg-web use them to tell loopback addresses from others. *)

From S2P Require Import Prelude GoBytes Errors Hex Denom.

Module netaddr.

(** ** Searching *)
Fixpoint IndexByte (s : bytes) (c : byte) : option nat :=
  match s with
  | [] => None
  | x :: r => if bool_decide (x = c) then Some 0%nat else S <$> IndexByte r c
  end.

Definition LastIndexByte (s : bytes) (c : byte) : option nat :=
  (fun i => (length s - 1 - i)%nat) <$> IndexByte (reverse s) c.

Definition contains (s : bytes) (c : byte) : bool := bool_decide (c ∈ s).

Definition colon : byte := x3a.
Definition lbrack : byte := x5b.
Definition rbrack : byte := x5d.

(** [net.SplitHostPort]; every error is [None]. *)
Definition SplitHostPort (hostport : bytes) : option (bytes * bytes) :=
  match LastIndexByte hostport colon with
  | None => None
  | Some i =>
    match
      (if bool_decide (head hostport = Some lbrack) then
         match IndexByte hostport rbrack with
         | None => None
         | Some e => if Nat.eqb (e + 1) i then Some (take (e - 1) (drop 1 hostport), 1%nat, (e + 1)%nat) else None
         end
       else
         let host := take i hostport in
         if contains host colon then None else Some (host, 0%nat, 0%nat))
    with
    | None => None
    | Some (host, j, k) =>
      if contains (drop j hostport) lbrack then None else
      if contains (drop k hostport) rbrack then None else
      Some (host, drop (i + 1) hostport)
    end
  end.

(** ** Addresses *)

(** A field of a dotted address: digits without a leading zero, at most 255. *)
Definition field4 (f : bytes) : option Z :=
  if bool_decide (f = []) || negb (denom.digitsOnly f) then None else
  if bool_decide (head f = Some x30) && (zlen f >? 1) then None else
  let v := denom.digits_value f in if v >? 255 then None else Some v.

Definition parseIPv4 (s : bytes) : option (list Z) :=
  match map field4 (denom.Split s x2e) with
  | [Some a; Some b; Some c; Some d] => Some [a; b; c; d]
  | _ => None
  end.

(** The hexadecimal digits at the front of [s]: their number, at most [fuel], and value. *)
Fixpoint hexRun (fuel : nat) (s : bytes) (off : nat) (acc : Z) : nat * Z :=
  match fuel, s with
  | S fuel, c :: r => match fromHexChar c with Some d => hexRun fuel r (S off) (acc * 16 + d) | None => (off, acc) end
  | _, _ => (off, acc)
  end.

(** The loop of [parseIPv6]: the bytes so far and the place of the ellipsis. *)
Fixpoint groups (fuel : nat) (s : bytes) (ip : list Z) (ellipsis : option nat) : option (bytes * list Z * option nat) :=
  match fuel with
  | O => Some (s, ip, ellipsis)
  | S fuel =>
    let '(off, acc) := hexRun (length s) s 0 0 in
    if Nat.eqb off 0 || Nat.ltb 4 off then None else
    if bool_decide (s !! off = Some x2e) then
      if bool_decide (ellipsis = None) && negb (Nat.eqb (length ip) 12) then None else
      if Nat.ltb 16 (length ip + 4) then None else
      match parseIPv4 s with Some q => Some ([], ip ++ q, ellipsis) | None => None end
    else
      let ip := ip ++ [acc / 256; acc mod 256] in
      match drop off s with
      | [] => Some ([], ip, ellipsis)
      | c :: r =>
        if negb (bool_decide (c = colon)) then None else
        match r with
        | [] => None
        | c2 :: r2 =>
          if bool_decide (c2 = colon) then
            if bool_decide (is_Some ellipsis) then None else
            match r2 with
            | [] => Some ([], ip, Some (length ip))
            | _ => groups fuel r2 ip (Some (length ip))
            end
          else groups fuel r ip ellipsis
        end
      end
  end.

Definition expand (s : bytes) (ip : list Z) (ellipsis : option nat) : option (list Z) :=
  if negb (bool_decide (s = [])) then None else
  if Nat.ltb (length ip) 16 then
    match ellipsis with
    | None => None
    | Some e => Some (take e ip ++ replicate (16 - length ip) 0 ++ drop e ip)
    end
  else match ellipsis with None => Some ip | Some _ => None end.

Definition parseIPv6 (s : bytes) : option (list Z) :=
  if contains s x25 then None else
  match s with
  | x3a :: x3a :: [] => Some (replicate 16 0)
  | x3a :: x3a :: r => match groups 8 r [] (Some 0%nat) with Some (t, ip, e) => expand t ip e | None => None end
  | _ => match groups 8 s [] None with Some (t, ip, e) => expand t ip e | None => None end
  end.

(** [net.ParseIP] as sixteen bytes; a zone is refused. *)
Definition v4InV6Prefix : list Z := replicate 10 0 ++ [255; 255].

Definition ParseIP (s : bytes) : option (list Z) :=
  match list_find (fun c => c = x2e \/ c = colon \/ c = x25) s with
  | Some (_, c) =>
    if bool_decide (c = x2e) then (fun ip => v4InV6Prefix ++ ip) <$> parseIPv4 s else
    if bool_decide (c = colon) then parseIPv6 s else None
  | None => None
  end.

Definition IsLoopback (ip : list Z) : bool :=
  if bool_decide (take 12 ip = v4InV6Prefix) then bool_decide (ip !! 12%nat = Some 127)
  else bool_decide (ip = replicate 15 0 ++ [1]).

(** [ip != nil && ip.IsLoopback()] of a host. *)
Definition hostIsLoopback (host : bytes) : bool :=
  match ParseIP host with Some ip => IsLoopback ip | None => false end.

(** ** Examples of the standard library's behaviour *)
Example split_v4 : SplitHostPort (str "127.0.0.1:50051") = Some (str "127.0.0.1", str "50051").
Proof. reflexivity. Qed.
Example split_v6 : SplitHostPort (str "[::1]:80") = Some (str "::1", str "80").
Proof. reflexivity. Qed.
Example split_many : SplitHostPort (str "::1:80") = None.
Proof. reflexivity. Qed.
Example parse_v6 : ParseIP (str "2001:db8::a:1") = Some [32; 1; 13; 184; 0; 0; 0; 0; 0; 0; 0; 0; 0; 10; 0; 1].
Proof. reflexivity. Qed.
Example parse_mapped : ParseIP (str "::ffff:127.0.0.1") = Some (v4InV6Prefix ++ [127; 0; 0; 1]).
Proof. reflexivity. Qed.
Example loopbacks : map hostIsLoopback [str "127.9.0.1"; str "::1"; str "0:0:0:0:0:0:0:1"; str "::ffff:127.0.0.1"] = [true; true; true; true].
Proof. reflexivity. Qed.
Example others : map hostIsLoopback [str "10.0.0.1"; str "127.0.0.01"; str "127.1"; str "::2"; str "1::1::1"; str "::1%lo"; []] = [false; false; false; false; false; false; false].
Proof. reflexivity. Qed.

(** ** Lemmas *)
Lemma IndexByte_spec s c i : IndexByte s c = Some i -> exists a b, s = a ++ c :: b /\ length a = i /\ c ∉ a.
Proof.
  revert i. induction s as [|x s IH]; intros i; cbn [IndexByte]; [done|]. case_bool_decide as Hx.
  - intros [= <-]. exists [], s. subst. split_and!; [done|done|apply not_elem_of_nil].
  - destruct (IndexByte s c) as [j|]; [|done]. intros [= <-]. destruct (IH j eq_refl) as (a & b & -> & <- & Hn).
    exists (x :: a), b. split_and!; [done|done|]. apply not_elem_of_cons. by split; [congruence|].
Qed.

Lemma LastIndexByte_spec s c i : LastIndexByte s c = Some i -> exists a b, s = a ++ c :: b /\ length a = i /\ c ∉ b.
Proof.
  unfold LastIndexByte. destruct (IndexByte (reverse s) c) as [j|] eqn:Ej; [|done]. intros [= <-].
  apply IndexByte_spec in Ej as (a & b & E & <- & Hn). exists (reverse b), (reverse a).
  assert (s = reverse b ++ c :: reverse a) as ->.
  { rewrite <- (reverse_involutive s), E, reverse_app, reverse_cons. by rewrite <- app_assoc. }
  split_and!; [done| |by rewrite elem_of_reverse]. rewrite length_app, !length_reverse. cbn [length]. rewrite length_reverse. lia.
Qed.

(** A split address is host, colon and port, with brackets around a host that
    has a colon itself; the port has no colon. *)
Lemma SplitHostPort_sound s host port :
  SplitHostPort s = Some (host, port) -> (s = host ++ colon :: port \/ s = lbrack :: host ++ rbrack :: colon :: port) /\ colon ∉ port.
Proof.
  unfold SplitHostPort. destruct (LastIndexByte s colon) as [i|] eqn:Ei; [|done].
  apply LastIndexByte_spec in Ei as (a & b & -> & <- & Hn). intros Hs.
  assert (drop (length a + 1) (a ++ colon :: b) = b) as Hb.
  { rewrite drop_app_ge by lia. by replace (length a + 1 - length a)%nat with 1%nat by lia. }
  destruct (bool_decide _) eqn:Eb.
  - destruct (IndexByte _ rbrack) as [e|] eqn:Ee; [|done]. destruct (Nat.eqb (e + 1) (length a)) eqn:El; [|done].
    destruct (contains _ _); [done|]. destruct (contains _ _); [done|]. rewrite Hb in Hs. injection Hs as <- <-.
    split; [right|done]. apply Nat.eqb_eq in El. apply IndexByte_spec in Ee as (u & v & E & <- & Hu).
    apply bool_decide_eq_true in Eb. rewrite E in Eb. destruct u as [|x u]; [done|]. cbn in Eb. injection Eb as ->.
    assert (v = colon :: b) as ->.
    { apply (f_equal (drop (length a))) in E. rewrite drop_app_length, drop_app_ge in E by lia.
      replace (length a - length (lbrack :: u))%nat with 1%nat in E by lia. cbn in E. by rewrite drop_0 in E. }
    rewrite E. cbn [length app drop]. rewrite drop_0. replace (S (length u) - 1)%nat with (length u) by lia. by rewrite take_app_length.
  - destruct (contains _ _); [done|]. destruct (contains _ _); [done|]. destruct (contains _ _); [done|].
    rewrite Hb, take_app_length in Hs. injection Hs as <- <-. by split; [left|].
Qed.
End netaddr.
