(* ===== verification/FilePath.v ===== *)
(** * path/filepath: paths of a Unix system

    [Clean], [Join], [Dir], [IsAbs] and [Abs] of the standard library, as
    frg-node uses them for its data directory. *)

From S2P Require Import Prelude GoBytes Errors Denom NetAddr.

Module filepath.

Definition slash : byte := x2f.
Definition dot : bytes := str ".".
Definition dotdot : bytes := str "..".

(** [strings.Join(l, "/")]. *)
Fixpoint slashed (l : list bytes) : bytes :=
  match l with
  | [] => []
  | [c] => c
  | c :: rest => c ++ slash :: slashed rest
  end.

Definition IsAbs (path : bytes) : bool := bool_decide (head path = Some slash).

(** One element; [stack] holds those kept so far, the last one first. *)
Definition cleanStep (rooted : bool) (stack : list bytes) (c : bytes) : list bytes :=
  if bool_decide (c = []) || bool_decide (c = dot) then stack else
  if bool_decide (c = dotdot) then
    match stack with
    | top :: rest => if bool_decide (top = dotdot) then c :: stack else rest
    | [] => if rooted then [] else [c]
    end
  else c :: stack.

Definition elements (path : bytes) : list bytes :=
  reverse (foldl (cleanStep (IsAbs path)) [] (denom.Split path slash)).

Definition Clean (path : bytes) : bytes :=
  let body := slashed (elements path) in
  if IsAbs path then slash :: body else if bool_decide (body = []) then dot else body.

(** [filepath.Join(a, b)]. *)
Definition Join (a b : bytes) : bytes :=
  if bool_decide (a = []) then (if bool_decide (b = []) then [] else Clean b) else Clean (a ++ slash :: b).

Definition Dir (path : bytes) : bytes :=
  match netaddr.LastIndexByte path slash with
  | None => Clean []
  | Some i => Clean (take (i + 1) path)
  end.

(** [filepath.Abs] in the working directory [cwd]. *)
Definition Abs (cwd path : bytes) : bytes := if IsAbs path then Clean path else Join cwd path.

(** ** Examples of the standard library's behaviour *)
Example clean_cases :
  map Clean [str ""; str "a//b/./c"; str "a/../.."; str "/../a/"; str "a/.."; str "/"; str "../../a"; str "./frg.key"] =
  [str "."; str "a/b/c"; str ".."; str "/a"; str "."; str "/"; str "../../a"; str "frg.key"].
Proof. vm_compute. reflexivity. Qed.

Example dir_cases : map Dir [str "frg.key"; str "/a/b"; str "/a"; str "a/b/"] = [str "."; str "/a"; str "/"; str "a/b"].
Proof. vm_compute. reflexivity. Qed.

(** ** Lemmas *)
Lemma Split_app_slash a b : denom.Split (a ++ slash :: b) slash = denom.Split a slash ++ denom.Split b slash.
Proof.
  induction a as [|c a IH]; cbn [app denom.Split]; [by rewrite decide_True|].
  case_decide; [by rewrite IH|]. rewrite IH. destruct (denom.Split a slash) as [|p ps] eqn:E; [|done].
  destruct a as [|x a']; cbn [denom.Split] in E; [done|]. case_decide; [done|]. by destruct (denom.Split a' slash).
Qed.

Lemma Split_name s : slash ∉ s -> denom.Split s slash = [s].
Proof.
  induction s as [|c s IH]; intros Hs; cbn [denom.Split]; [done|]. apply not_elem_of_cons in Hs as [Hc Hs].
  rewrite decide_False by done. by rewrite IH.
Qed.

(** A file name: one element that is no reference to a directory. *)
Definition name (s : bytes) : Prop := (slash ∉ s) /\ s <> [] /\ s <> dot /\ s <> dotdot.

Lemma IsAbs_app a b : a <> [] -> IsAbs (a ++ b) = IsAbs a.
Proof. by destruct a. Qed.

Lemma elements_Join a s : a <> [] -> name s -> elements (a ++ slash :: s) = elements a ++ [s].
Proof.
  intros Ha (Hs & H1 & H2 & H3). unfold elements. rewrite IsAbs_app, Split_app_slash, foldl_app by done.
  rewrite (Split_name s) by done. cbn [foldl].
  unfold cleanStep at 1. rewrite !bool_decide_eq_false_2 by done. cbn [orb]. by rewrite reverse_cons.
Qed.

Lemma slashed_snoc l s : l <> [] -> slashed (l ++ [s]) = slashed l ++ slash :: s.
Proof.
  induction l as [|c l IH]; [done|]. intros _. destruct l as [|d l]; [done|].
  change (slashed ((c :: d :: l) ++ [s])) with (c ++ slash :: slashed ((d :: l) ++ [s])). rewrite IH by done.
  change (slashed (c :: d :: l)) with (c ++ slash :: slashed (d :: l)). by rewrite <- app_assoc.
Qed.

(** A path that ends in a name, after a slash or alone. *)
Definition ends_in (s p : bytes) : Prop := exists d, p = d ++ s /\ (d = [] \/ last d = Some slash).

Lemma name_elements s : name s -> IsAbs s = false /\ elements s = [s].
Proof.
  intros (Hn & H1 & H2 & H3).
  assert (IsAbs s = false) as Hab.
  { apply bool_decide_eq_false. destruct s as [|c s]; [done|]. intros [= ->]. apply Hn. left. }
  split; [done|]. unfold elements. rewrite Hab, Split_name by done. cbn [foldl]. unfold cleanStep. by rewrite !bool_decide_eq_false_2.
Qed.

Lemma Clean_ends s a : a <> [] -> name s -> ends_in s (Clean (a ++ slash :: s)).
Proof.
  intros Ha Hs. unfold Clean. rewrite elements_Join, IsAbs_app by done. destruct Hs as (_ & Hs & _).
  destruct (decide (elements a = [])) as [E|E].
  - rewrite E. cbn [app slashed]. rewrite (bool_decide_eq_false_2 (s = [])) by done.
    destruct (IsAbs a); [by exists [slash]; split; [|right]|by exists []; split; [|left]].
  - rewrite slashed_snoc by done. destruct (IsAbs a).
    + exists (slash :: slashed (elements a) ++ [slash]). split; [cbn [app]; by rewrite <- app_assoc|right].
      by rewrite app_comm_cons, last_snoc.
    + rewrite bool_decide_eq_false_2 by by destruct (slashed (elements a)).
      exists (slashed (elements a) ++ [slash]). split; [by rewrite <- app_assoc|right]. apply last_snoc.
Qed.

Lemma ends_in_Clean s p : name s -> ends_in s p -> ends_in s (Clean p).
Proof.
  intros Hs (d & -> & [->|Hd]).
  - destruct (name_elements s Hs) as [Hab He]. exists []. split; [|by left]. cbn [app]. unfold Clean. rewrite Hab, He. cbn [slashed].
    rewrite bool_decide_eq_false_2; [done|apply Hs].
  - destruct d as [|c d _] using rev_ind; [done|]. rewrite last_snoc in Hd. injection Hd as ->. rewrite <- app_assoc. cbn [app].
    destruct (decide (d = [])) as [->|Hn]; [|by apply Clean_ends].
    cbn [app]. destruct Hs as (Hn & H1 & H2 & H3). exists [slash]. split; [|by right].
    unfold Clean, elements. change (IsAbs (slash :: s)) with true. change (slash :: s) with ([] ++ slash :: s). rewrite Split_app_slash, (Split_name s) by done.
    cbn [denom.Split app foldl]. unfold cleanStep. rewrite !(bool_decide_eq_false_2 (s = _)) by done. done.
Qed.

Lemma ends_in_Join s a : name s -> ends_in s (Join a s).
Proof.
  intros Hs. unfold Join. rewrite (bool_decide_eq_false_2 (s = [])) by apply Hs. case_bool_decide; [|by apply Clean_ends].
  apply ends_in_Clean; [done|]. exists []. by split; [|left].
Qed.

Lemma ends_in_Abs s cwd p : name s -> ends_in s p -> ends_in s (Abs cwd p).
Proof.
  intros Hs Hp. unfold Abs. destruct (IsAbs p) eqn:Ep; [by apply ends_in_Clean|]. destruct Hp as (d & -> & Hd).
  assert (d ++ s <> []) as Hne by (destruct Hs as (_ & Hs & _); by destruct d).
  unfold Join. rewrite (bool_decide_eq_false_2 (d ++ s = [])) by done.
  case_bool_decide as Hc; [apply ends_in_Clean; [done|by exists d]|].
  rewrite app_comm_cons, app_assoc. apply ends_in_Clean; [done|]. exists (cwd ++ slash :: d). split; [done|right].
  destruct Hd as [->|Hd]; [by rewrite last_snoc|]. destruct d as [|c d _] using rev_ind; [done|]. rewrite last_snoc in Hd. injection Hd as ->.
  by rewrite app_comm_cons, app_assoc, last_snoc.
Qed.

Lemma slash_tail (d1 d2 s1 s2 : bytes) :
  d1 ++ s1 = d2 ++ s2 -> slash ∉ s1 -> slash ∉ s2 -> (d1 = [] \/ last d1 = Some slash) -> (d2 = [] \/ last d2 = Some slash) -> s1 = s2.
Proof.
  intros E H1 H2 D1 D2. destruct (decide (length d1 <= length d2)%nat) as [Hl|Hl].
  - apply app_eq_inv in E as [(k & -> & ->)|(k & -> & ->)].
    + destruct k as [|x k _] using rev_ind; [done|]. exfalso. rewrite !length_app in Hl. cbn in Hl. lia.
    + destruct k as [|x k _] using rev_ind; [done|]. destruct D2 as [D2|D2]; [by destruct d1, k|].
      rewrite app_assoc, last_snoc in D2. injection D2 as ->. exfalso. apply H1. set_solver.
  - apply app_eq_inv in E as [(k & -> & ->)|(k & -> & ->)].
    + destruct k as [|x k _] using rev_ind; [done|]. destruct D1 as [D1|D1]; [by destruct d2, k|].
      rewrite app_assoc, last_snoc in D1. injection D1 as ->. exfalso. apply H2. set_solver.
    + rewrite length_app in Hl. lia.
Qed.

(** Paths that end in different names are different. *)
Lemma ends_in_inj s1 s2 p : name s1 -> name s2 -> ends_in s1 p -> ends_in s2 p -> s1 = s2.
Proof.
  intros (H1 & _) (H2 & _) (d1 & -> & D1) (d2 & E & D2). by apply (slash_tail d1 d2).
Qed.

Lemma Join_abs a s : IsAbs a = true -> IsAbs (Join a s) = true.
Proof.
  intros Ha. assert (a <> []) as Hn by (by intros ->). unfold Join. rewrite bool_decide_eq_false_2 by done.
  unfold Clean. by rewrite IsAbs_app, Ha by done.
Qed.
End filepath.
