(* ===== verification/Config.v ===== *)
(** * cmd/frg-node: configuration and the RPC server (main.go, metrics.go)

    The TOML decoder gives the fields of the file; a field the file does not
    have keeps its default.  Files and certificates are read elsewhere: whether
    they could be is an argument.  The server has two services registered on
    it, the node's own, whose handlers are in [Rpc], and gRPC's health
    service; [handle] is one call to either. *)

From S2P Require Import Prelude GoBytes Errors Platform Hex Tx KV Denom Ledger Staking Gas Mint Node Tree Contract BlockStore Telemetry.
From S2P Require Import StateMachine Vote BlockLoop Round Engine Genesis Gossip Rpc NetAddr.

Module config.

Definition defaultKeypairPath : bytes := str "frg.key".
Definition defaultDBPath : bytes := str "frg.db".
Definition defaultGenesisPath : bytes := str "genesis.json".
Definition defaultListenAddr : bytes := str "/ip4/127.0.0.1/tcp/7777".
Definition defaultGRPCListenAddr : bytes := str "127.0.0.1:50051".
Definition defaultMetricsListenAddr : bytes := str "127.0.0.1:9090".
Definition defaultTimeoutMS : Z := 3000.
Definition defaultProposeDelayMS : Z := 500.
Definition defaultGenesisBond : bytes := str "1000000000000000000000".
Definition defaultGenesisBalance : bytes := str "10000000000000000000000".
Definition defaultChainID : bytes := str "frg-mainnet-1".

Record NodeConfig : Type := mkNodeConfig { KeypairPath : bytes; DBPath : bytes; GenesisPath : bytes }.
Record P2PConfig : Type := mkP2PConfig { PListen : bytes; Peers : list bytes; EnableMDNS : bool }.
Record GRPCConfig : Type := mkGRPCConfig
  { GListen : bytes; TLSCertFile : bytes; TLSKeyFile : bytes; TLSClientCAFile : bytes; ClientRoles : list (bytes * bytes) }.
Record MetricsConfig : Type := mkMetricsConfig { MListen : bytes }.
Record ConsensusConfig : Type := mkConsensusConfig
  { ProposeDelayMS : Z; ProposeTimeoutMS : Z; PrevoteTimeoutMS : Z; PrecommitTimeoutMS : Z }.
Record Config : Type := mkConfig
  { CNode : NodeConfig; CP2P : P2PConfig; CGRPC : GRPCConfig; CMetrics : MetricsConfig; CConsensus : ConsensusConfig; ChainID : bytes }.

(** ** Strings *)
Definition blank (s : bytes) : bool := bool_decide (denom.TrimSpace s = []).

Definition splitCommaList (value : bytes) : list bytes :=
  if blank value then [] else filter (fun p => p <> []) (map denom.TrimSpace (denom.Split value x2c)).

(** ** Defaults *)
Definition defaultConfig : Config :=
  mkConfig (mkNodeConfig defaultKeypairPath defaultDBPath defaultGenesisPath) (mkP2PConfig defaultListenAddr [] false)
    (mkGRPCConfig defaultGRPCListenAddr [] [] [] []) (mkMetricsConfig defaultMetricsListenAddr)
    (mkConsensusConfig defaultProposeDelayMS defaultTimeoutMS defaultTimeoutMS defaultTimeoutMS) [].

Definition orDefault (s d : bytes) : bytes := if blank s then d else s.
Definition orDefaultMS (v d : Z) : Z := if v <=? 0 then d else v.

Definition normalizeConfig (cfg : Config) : Config :=
  let n := CNode cfg in let p := CP2P cfg in let g := CGRPC cfg in let c := CConsensus cfg in
  mkConfig
    (mkNodeConfig (orDefault (KeypairPath n) defaultKeypairPath) (orDefault (DBPath n) defaultDBPath) (orDefault (GenesisPath n) defaultGenesisPath))
    (mkP2PConfig (orDefault (PListen p) defaultListenAddr) (Peers p) (EnableMDNS p))
    (mkGRPCConfig (orDefault (GListen g) defaultGRPCListenAddr) (TLSCertFile g) (TLSKeyFile g) (TLSClientCAFile g) (ClientRoles g))
    (mkMetricsConfig (orDefault (MListen (CMetrics cfg)) defaultMetricsListenAddr))
    (mkConsensusConfig (orDefaultMS (ProposeDelayMS c) defaultProposeDelayMS) (orDefaultMS (ProposeTimeoutMS c) defaultTimeoutMS)
       (orDefaultMS (PrevoteTimeoutMS c) defaultTimeoutMS) (orDefaultMS (PrecommitTimeoutMS c) defaultTimeoutMS))
    (orDefault (ChainID cfg) defaultChainID).

(** A character of a chain identifier; a rune outside ASCII has bytes outside. *)
Definition chainChar (b : byte) : bool :=
  let z := byte_to_Z b in
  ((97 <=? z) && (z <=? 122)) || ((65 <=? z) && (z <=? 90)) || ((48 <=? z) && (z <=? 57)) || (z =? 45) || (z =? 95) || (z =? 46).

(** strings.EqualFold(host, "localhost"): letters of either case, and U+017F folds to s. *)
Definition lowerByte (b : byte) : byte :=
  let z := byte_to_Z b in if (65 <=? z) && (z <=? 90) then byte_of_Z (z + 32) else b.

Fixpoint foldS (s : bytes) : bytes :=
  match s with
  | a :: ((b :: rest) as t) => if bool_decide (a = xc5 /\ b = xbf) then x73 :: foldS rest else lowerByte a :: foldS t
  | [a] => [lowerByte a]
  | [] => []
  end.

Definition isLocalhost (host : bytes) : bool := bool_decide (foldS host = str "localhost").

Section Validate.

Definition requiresGRPCTLS (listenAddr : bytes) : bool :=
  match netaddr.SplitHostPort listenAddr with
  | None => true
  | Some (host, _) => if isLocalhost host then false else negb (netaddr.hostIsLoopback host)
  end.

Definition isLoopbackTCPAddress (listenAddr : bytes) : bool :=
  match netaddr.SplitHostPort listenAddr with
  | None => false
  | Some (host, _) => if isLocalhost host then true else netaddr.hostIsLoopback host
  end.

Definition noMutualTLS (cert key ca : bytes) : bool :=
  bool_decide (cert = []) || bool_decide (key = []) || bool_decide (ca = []).

Definition rolesRequired (listenAddr : bytes) (roles : list (bytes * bytes)) : bool :=
  requiresGRPCTLS listenAddr || (zlen roles >? 0).

Definition validateConfig (cfg : Config) : res unit :=
  let n := CNode cfg in let g := CGRPC cfg in let c := CConsensus cfg in
  if bool_decide (ChainID cfg = []) || (zlen (ChainID cfg) >? 64) then failf "chain_id must be 1-64 characters" else
  if negb (forallb chainChar (ChainID cfg)) then failf "chain_id contains unsupported character" else
  if bool_decide (KeypairPath n = DBPath n) || bool_decide (KeypairPath n = GenesisPath n) || bool_decide (DBPath n = GenesisPath n)
  then failf "node keypair, database, and genesis paths must be distinct" else
  if (ProposeDelayMS c >=? ProposeTimeoutMS c) || (ProposeTimeoutMS c <=? 0) || (PrevoteTimeoutMS c <=? 0) || (PrecommitTimeoutMS c <=? 0)
  then failf "consensus timeouts are invalid" else
  if requiresGRPCTLS (GListen g) && noMutualTLS (TLSCertFile g) (TLSKeyFile g) (TLSClientCAFile g)
  then failf "non-loopback gRPC listeners require mutual TLS" else
  if negb (bool_decide (MListen (CMetrics cfg) = [])) && negb (isLoopbackTCPAddress (MListen (CMetrics cfg)))
  then failf "metrics listener must be loopback" else
  let* _ := rpc.newRPCAuthorizer (ClientRoles g) (rolesRequired (GListen g) (ClientRoles g)) in
  Ok tt.

(** [resolveConfigPaths]: [resolve] is the absolute form of a path that is not blank. *)
Definition resolvePath (resolve : bytes -> bytes) (p : bytes) : bytes := if blank p then p else resolve p.

Definition resolveConfigPaths (resolve : bytes -> bytes) (cfg : Config) : Config :=
  let n := CNode cfg in let g := CGRPC cfg in let r := resolvePath resolve in
  mkConfig (mkNodeConfig (r (KeypairPath n)) (r (DBPath n)) (r (GenesisPath n))) (CP2P cfg)
    (mkGRPCConfig (GListen g) (r (TLSCertFile g)) (r (TLSKeyFile g)) (r (TLSClientCAFile g)) (ClientRoles g))
    (CMetrics cfg) (CConsensus cfg) (ChainID cfg).

(** The file: absent, unreadable, or decoded over the defaults. *)
Inductive configFile : Type := NoFile | BadFile | Decoded (decode : Config -> Config).

Definition loadConfig (file : configFile) (resolve : option (bytes -> bytes)) : res Config :=
  match file with
  | NoFile => let cfg := normalizeConfig defaultConfig in let* _ := validateConfig cfg in Ok cfg
  | BadFile => failf "decode config"
  | Decoded decode =>
    let cfg := normalizeConfig (decode defaultConfig) in
    match resolve with
    | None => failf "resolve config directory"
    | Some resolve => let cfg := resolveConfigPaths resolve cfg in let* _ := validateConfig cfg in Ok cfg
    end
  end.

(** ** The RPC server *)

(** What a connection presents before any call: nothing checked without
    TLS, and a verified client certificate when a client CA is configured. *)
Inductive transportSecurity : Type := Plaintext | ServerTLS | MutualTLS.

(** The server and the two services registered on it: [frg], with the
    authorizer its handlers ask, and gRPC's health service, which asks none;
    [serving] lists the names it reports as serving. *)
Record grpcServer : Type := mkGrpcServer
  { security : transportSecurity; frg : rpc.nodeGRPCServer; serving : list bytes }.

(** [readable] tells whether a certificate or CA file can be loaded. *)
Definition startGRPCServer (readable : bytes -> bool) (listenAddr certFile keyFile clientCAFile : bytes) (clientRoles : list (bytes * bytes))
    (chainID : bytes) (node : option p2p.Node) (metrics : option rpc.nodeMetrics) : res grpcServer :=
  if negb (Bool.eqb (bool_decide (certFile = [])) (bool_decide (keyFile = []))) then failf "TLS certificate and key must be configured together" else
  if bool_decide (certFile = []) && negb (bool_decide (clientCAFile = [])) then failf "TLS client CA requires a server certificate" else
  if requiresGRPCTLS listenAddr && noMutualTLS certFile keyFile clientCAFile then failf "non-loopback gRPC listeners require mutual TLS" else
  let* authorizer := rpc.newRPCAuthorizer clientRoles (rolesRequired listenAddr clientRoles) in
  let* creds :=
    (if bool_decide (certFile = []) then Ok Plaintext else
     if negb (readable certFile && readable keyFile) then failf "load gRPC TLS certificate" else
     if bool_decide (clientCAFile = []) then Ok ServerTLS else
     if negb (readable clientCAFile) then failf "read gRPC client CA" else Ok MutualTLS) in
  let server := rpc.mkServer node chainID (Some rpc.newSubmitLimiter) metrics (Some authorizer) [] in
  Ok (mkGrpcServer creds server [[]]).
End Validate.

(** ** The calls the server answers *)

(** The methods of the two services: those of src/proto/frg.proto, and the
    health check of a service by name. *)
Inductive rpcCall : Type :=
| CallSubmitTx (data : option bytes)
| CallSubmitBatch (data : list bytes)
| CallSubscribeBlocks
| CallGetStatus
| CallGetAccount (pubkey : bytes)
| CallGetContractState (contractAddress key : bytes)
| CallListValidators
| CallListMempool
| CallGetBlockTelemetry (height : Z)
| CallHealthCheck (service : bytes).

(** A response; [Subscribed] is a stream that has been opened. *)
Inductive response : Type :=
| Submission (ok : bool)
| Subscribed
| StatusIs (st : rpc.StatusResponse)
| AccountIs (a : rpc.AccountResponse)
| ContractStateIs (st : bool * bool * bytes * arr 32)
| ValidatorsAre (vs : list (arr 32 * bytes))
| MempoolIs (entries : list (arr 32 * bytes * Z))
| TelemetryIs (t : frgpb.BlockTelemetryResponse)
| Serving.

Section Calls.
Context `{Platform} `{telemetry.Json} {B : Type} `{KV B}.
(** Whether the network takes a message, and whether a client's certificate
    chains to the configured client CA. *)
Context (taken : bytes * bytes -> bool) (caSigned : bytes -> bool).

(** The handshake: which peers reach the services, and with what credentials. *)
Definition handshake (sec : transportSecurity) (info : rpc.AuthInfo) : bool :=
  match sec, info with
  | Plaintext, rpc.NoAuthInfo => true
  | ServerTLS, rpc.TLSInfo (Some []) => true
  | MutualTLS, rpc.TLSInfo (Some (cert :: _)) => caSigned cert
  | _, _ => false
  end.

(** An error of a handler is an RPC error, here [None]. *)
Definition answered {A} (s : rpc.nodeGRPCServer) (f : A -> response) (r : res A) : res (rpc.nodeGRPCServer * option response) :=
  match r with Ok a => Ok (s, Some (f a)) | Err _ => Ok (s, None) | Panic => Panic end.

Definition submission (r : rpc.nodeGRPCServer * rpc.reply) : rpc.nodeGRPCServer * option response :=
  let '(s, r) := r in (s, match r with rpc.Refused => None | rpc.Answer ok => Some (Submission ok) end).

(** One call on a connection, with the state of the node it finds. *)
Definition handle (srv : grpcServer) (s : rpc.nodeGRPCServer) (n : rpc.nodeRuntime B) (ctx : rpc.Context_) (call : rpcCall) :
    res (rpc.nodeGRPCServer * option response) :=
  let a := rpc.authorizer s in
  let i := rpc.info ctx in
  if negb (handshake (security srv) i) then Ok (s, None) else
  match call with
  | CallSubmitTx data => let* r := rpc.SubmitTx taken s ctx data in Ok (submission r)
  | CallSubmitBatch data => let* r := rpc.SubmitBatch taken s ctx data in Ok (submission r)
  | CallSubscribeBlocks => answered s (fun _ => Subscribed) (rpc.authorize a i rpc.roleObserver)
  | CallGetStatus => answered s StatusIs (rpc.GetStatus a i n)
  | CallGetAccount pubkey => answered s AccountIs (rpc.GetAccount a i n pubkey)
  | CallGetContractState contractAddress key => answered s ContractStateIs (rpc.GetContractState a i n contractAddress key)
  | CallListValidators => answered s ValidatorsAre (rpc.GetValidators a i n)
  | CallListMempool => answered s MempoolIs (rpc.GetMempool a i n)
  | CallGetBlockTelemetry height => answered s TelemetryIs (rpc.GetBlockTelemetry a i n height)
  | CallHealthCheck service => Ok (s, if bool_decide (service ∈ serving srv) then Some Serving else None)
  end.

(** The calls the server gets, one after the other, and what each is answered. *)
Fixpoint handleAll (srv : grpcServer) (s : rpc.nodeGRPCServer) (calls : list (rpc.nodeRuntime B * rpc.Context_ * rpcCall)) :
    res (rpc.nodeGRPCServer * list (option response)) :=
  match calls with
  | [] => Ok (s, [])
  | (n, ctx, call) :: rest =>
    let* '(s, r) := handle srv s n ctx call in
    let* '(s, rs) := handleAll srv s rest in
    Ok (s, r :: rs)
  end.

Definition ServeCalls (srv : grpcServer) (calls : list (rpc.nodeRuntime B * rpc.Context_ * rpcCall)) :
    res (rpc.nodeGRPCServer * list (option response)) :=
  handleAll srv (frg srv) calls.
End Calls.

(** ** The genesis of a first node *)
Definition bootstrapGenesis `{Platform} (chainID : bytes) (kp : keys.Keypair) : genesis.Genesis :=
  genesis.mkGenesis chainID
    [genesis.mkValidatorEntry (hex_EncodeToString (keys.PublicKey kp)) defaultGenesisBond]
    [genesis.mkBalanceEntry (hex_EncodeToString (keys.PublicKey kp)) defaultGenesisBalance].
End config.
