(* ===== verification/ConfigProofs.v ===== *)
(** * cmd/frg-node: what a loaded configuration guarantees, who the RPC server answers, and the first node's genesis *)

From S2P Require Import Prelude GoBytes Errors Platform Hex Tx TxProofs BatchProofs KV Denom Ledger Staking StakingProofs Gas Mint Node Tree.
From S2P Require Import Contract BlockStore Telemetry StateMachine StateMachineProofs FrameProofs Vote BlockLoop Round Engine Genesis Gossip Rpc RpcProofs.
From S2P Require Import NetAddr Config.
Import config.

Section Config.
Context `{Platform}.
Implicit Types (cfg : Config).

(** What the rest of the node relies on. *)
Record config_ok cfg : Prop := mkConfigOk
  { ok_chain : 0 < zlen (ChainID cfg) <= 64 /\ Forall (fun b => chainChar b = true) (ChainID cfg);
    ok_paths : NoDup [KeypairPath (CNode cfg); DBPath (CNode cfg); GenesisPath (CNode cfg)];
    ok_delay : 0 < ProposeDelayMS (CConsensus cfg) < ProposeTimeoutMS (CConsensus cfg);
    ok_timeouts : 0 < PrevoteTimeoutMS (CConsensus cfg) /\ 0 < PrecommitTimeoutMS (CConsensus cfg);
    ok_tls : requiresGRPCTLS (GListen (CGRPC cfg)) = true ->
      TLSCertFile (CGRPC cfg) <> [] /\ TLSKeyFile (CGRPC cfg) <> [] /\ TLSClientCAFile (CGRPC cfg) <> [];
    ok_metrics : MListen (CMetrics cfg) = [] \/ isLoopbackTCPAddress (MListen (CMetrics cfg)) = true;
    ok_roles : is_Ok (rpc.newRPCAuthorizer (ClientRoles (CGRPC cfg)) (rolesRequired (GListen (CGRPC cfg)) (ClientRoles (CGRPC cfg)))) = true }.

Lemma noMutualTLS_false a b c : noMutualTLS a b c = false <-> a <> [] /\ b <> [] /\ c <> [].
Proof. unfold noMutualTLS. rewrite !orb_false_iff, !bool_decide_eq_false. tauto. Qed.

Lemma validateConfig_ok cfg : validateConfig cfg = Ok tt -> 0 < ProposeDelayMS (CConsensus cfg) -> config_ok cfg.
Proof.
  unfold validateConfig. intros Hv Hd. cbv zeta in Hv.
  repeat (match type of Hv with (if ?b then _ else _) = _ => let E := fresh "E" in destruct b eqn:E; [done|] end).
  apply obind_ok_inv in Hv as (a & Ha & _). bsimp.
  constructor.
  - split; [|apply Forall_forall; intros b Hb; by apply (proj1 (forallb_forall _ _) E0), list_elem_of_In].
    destruct (ChainID cfg); [done|]. rewrite zlen_cons in *. pose proof (zlen_nonneg l). lia.
  - repeat constructor; set_solver.
  - lia.
  - lia.
  - intros Ht. rewrite Ht in *. by apply noMutualTLS_false.
  - case_bool_decide; [by left|right]. by destruct (isLoopbackTCPAddress _).
  - by rewrite Ha.
Qed.

Lemma orDefaultMS_pos v d : 0 < d -> 0 < orDefaultMS v d.
Proof. unfold orDefaultMS. destruct (v <=? 0) eqn:E; [done|]. bsimp. lia. Qed.

Lemma loadConfig_valid file resolve cfg : loadConfig file resolve = Ok cfg -> config_ok cfg.
Proof.
  unfold loadConfig. destruct file as [| |decode]; [|done|destruct resolve as [resolve|]; [|done]];
    intros ([] & Hv & <-%Ok_inj)%obind_ok_inv; (apply validateConfig_ok; [done|]); by apply orDefaultMS_pos.
Qed.

(** A loaded configuration is sound: whatever the file says, if [loadConfig] returns a
    configuration then the chain identifier is 1-64 characters of the allowed
    set, the three files are different, the proposal delay is positive and
    below the proposal timeout and every timeout is positive, metrics are
    served on loopback only, and a gRPC listener that is not loopback has
    certificate, key and client CA. *)
Theorem loadConfig_sound file resolve cfg : loadConfig file resolve = Ok cfg -> config_ok cfg.
Proof. apply loadConfig_valid. Qed.

(** A server on an address that is not loopback, from a loaded configuration. *)
Lemma remote_server file resolve cfg readable chainID node m srv :
  let g := CGRPC cfg in
  loadConfig file resolve = Ok cfg -> requiresGRPCTLS (GListen g) = true ->
  startGRPCServer readable (GListen g) (TLSCertFile g) (TLSKeyFile g) (TLSClientCAFile g) (ClientRoles g) chainID node m = Ok srv ->
  security srv = MutualTLS /\ serving srv = [[]] /\
  exists a, rpc.authorizer (frg srv) = Some a /\ rpc.newRPCAuthorizer (ClientRoles g) true = Ok a.
Proof.
  intros g Hl Hreq Hs. destruct (loadConfig_valid _ _ _ Hl) as [_ _ _ _ Htls _ _]. destruct (Htls Hreq) as (Hc & Hk & Hca).
  unfold startGRPCServer in Hs. rewrite Hreq in Hs. fold g in Hc, Hk, Hca.
  rewrite !(bool_decide_eq_false_2 (TLSCertFile g = [])), !(bool_decide_eq_false_2 (TLSKeyFile g = [])) in Hs by done.
  rewrite (proj2 (noMutualTLS_false _ _ _)) in Hs by done. cbn [Bool.eqb negb andb] in Hs.
  apply obind_ok_inv in Hs as (a & Ha & Hs). rewrite (bool_decide_eq_false_2 (TLSClientCAFile g = [])) in Hs by done.
  apply obind_ok_inv in Hs as (creds & Hcr & <-%Ok_inj). cbn [security frg serving rpc.authorizer].
  unfold rolesRequired in Ha. rewrite Hreq in Ha.
  split_and!; [|done|by exists a]. destruct (negb (readable _ && _)); [done|]. destruct (negb (readable _)); [done|]. by apply Ok_inj in Hcr as <-.
Qed.

Lemma start_unpublished readable listenAddr certFile keyFile clientCAFile roles chainID node m srv :
  startGRPCServer readable listenAddr certFile keyFile clientCAFile roles chainID node m = Ok srv -> rpc.published (frg srv) = [].
Proof.
  unfold startGRPCServer. do 3 (case_match; [done|]).
  intros (a & _ & (c & _ & <-%Ok_inj)%obind_ok_inv)%obind_ok_inv. done.
Qed.
End Config.

(** ** Who is answered *)
Section Remote.
Context `{Platform} `{telemetry.Json} {B : Type} `{KV B} (taken : bytes * bytes -> bool) (caSigned : bytes -> bool).
Implicit Types (srv : grpcServer) (s : rpc.nodeGRPCServer) (n : rpc.nodeRuntime B).

(** The role a method of the node's own service asks for; the health service asks for none. *)
Definition requiredRole (call : rpcCall) : option rpc.rpcRole :=
  match call with
  | CallSubmitTx _ | CallSubmitBatch _ => Some rpc.roleSubmitter
  | CallHealthCheck _ => None
  | _ => Some rpc.roleObserver
  end.

Lemma SubmitTx_authorized s ctx data s' r :
  rpc.SubmitTx taken s ctx data = Ok (s', r) ->
  rpc.authorizer s' = rpc.authorizer s /\
  (r <> rpc.Refused -> rpc.authorize (rpc.authorizer s) (rpc.info ctx) rpc.roleSubmitter = Ok tt) /\
  (r = rpc.Refused -> rpc.published s' = rpc.published s).
Proof.
  intros Hs. destruct data as [data|].
  - split_and!.
    + apply SubmitTx_inv in Hs. apply Hs.
    + intros Hr. unfold rpc.SubmitTx in Hs. destruct (rpc.ended ctx 0); [by injection Hs as <- <-|].
      change (rpc.authorizer (rpc.count s rpc.countRequest)) with (rpc.authorizer s) in Hs.
      destruct (rpc.authorize _ _ _) as [[]| |]; [done|by injection Hs as <- <-|done].
    + intros ->. by apply SubmitTx_inv in Hs as [_ [[Hf _]|[_ Hp]]].
  - unfold rpc.SubmitTx in Hs. destruct (rpc.ended ctx 0); [by injection Hs as <- <-|].
    change (rpc.authorizer (rpc.count s rpc.countRequest)) with (rpc.authorizer s) in Hs.
    by destruct (rpc.authorize _ _ _) as [[]| |]; [injection Hs as <- <-..|].
Qed.

Lemma SubmitBatch_authorized s ctx data s' r :
  rpc.SubmitBatch taken s ctx data = Ok (s', r) ->
  rpc.authorizer s' = rpc.authorizer s /\
  (r <> rpc.Refused -> rpc.authorize (rpc.authorizer s) (rpc.info ctx) rpc.roleSubmitter = Ok tt) /\
  (r = rpc.Refused -> rpc.published s' = rpc.published s).
Proof.
  intros Hs. split_and!.
  - apply SubmitBatch_inv in Hs. apply Hs.
  - intros Hr. unfold rpc.SubmitBatch in Hs. destruct (rpc.ended ctx 0); [by injection Hs as <- <-|].
    change (rpc.authorizer (rpc.count s rpc.countRequest)) with (rpc.authorizer s) in Hs.
    destruct (rpc.authorize _ _ _) as [[]| |]; [done|by injection Hs as <- <-|done].
  - intros ->. by apply SubmitBatch_inv in Hs as [_ [[Hf _]|[_ Hp]]].
Qed.

(** A handler that first asks the authorizer answers only those it lets through. *)
Lemma answered_authorized {A} s (f : A -> response) a i role (k : unit -> res A) s' r :
  answered s f (let* u := rpc.authorize a i role in k u) = Ok (s', r) ->
  s' = s /\ (r <> None -> rpc.authorize a i role = Ok tt).
Proof.
  destruct (rpc.authorize a i role) as [[]| |]; cbn [obind answered]; [|by intros [= <- <-]|done].
  unfold answered. case_match; [by intros [= <- <-]..|done].
Qed.

(** One call: refused calls publish nothing, and an answer takes a handshake and the role. *)
Lemma handle_authorized srv s n ctx call s' r :
  handle taken caSigned srv s n ctx call = Ok (s', r) ->
  rpc.authorizer s' = rpc.authorizer s /\ (r = None -> rpc.published s' = rpc.published s) /\
  (r <> None -> handshake caSigned (security srv) (rpc.info ctx) = true /\
     forall role, requiredRole call = Some role -> rpc.authorize (rpc.authorizer s) (rpc.info ctx) role = Ok tt).
Proof.
  unfold handle. destruct (handshake _ _ _) eqn:Eh; cbn [negb]; [|by intros [= <- <-]].
  destruct call; cbn [requiredRole]; intros Hc;
    lazymatch type of Hc with
    | answered _ _ (rpc.authorize _ _ _) = _ =>
        unfold answered in Hc; destruct (rpc.authorize _ _ _) as [[]| |] eqn:Ea; [injection Hc as <- <-..|done];
        (split; [done|]; split; [done|]); (done || (intros _; split; [done|]; by intros ? [= <-]))
    | answered _ _ _ = _ =>
        apply answered_authorized in Hc as [-> Hr]; split_and!; [done..|]; intros Hn; split; [done|]; intros ? [= <-]; auto
    | obind _ _ = _ => idtac
    | _ => injection Hc as <- <-; by split_and!
    end.
  - apply obind_ok_inv in Hc as ([s1 r1] & Hs & [= <- <-]%Ok_inj). apply SubmitTx_authorized in Hs as (Ha & Hr & Hp).
    split_and!; [done|destruct r1; [by intros _; apply Hp|done]|]. intros Hn. split; [done|]. intros ? [= <-]. apply Hr. by intros ->.
  - apply obind_ok_inv in Hc as ([s1 r1] & Hs & [= <- <-]%Ok_inj). apply SubmitBatch_authorized in Hs as (Ha & Hr & Hp).
    split_and!; [done|destruct r1; [by intros _; apply Hp|done]|]. intros Hn. split; [done|]. intros ? [= <-]. apply Hr. by intros ->.
Qed.

(** What an answered call shows about its caller. *)
Definition allowed (roles : list (bytes * bytes)) (ctx : rpc.Context_) (call : rpcCall) : Prop :=
  exists cert certs, rpc.info ctx = rpc.TLSInfo (Some (cert :: certs)) /\ caSigned cert = true /\
    forall required, requiredRole call = Some required ->
      exists role, (rpc.fingerprintOf cert, rpc.roleName role) ∈ roles /\ rpc.roleAllows role required = true.

Lemma authorized_role roles a info required cert certs :
  NoDup (map fst roles) -> rpc.newRPCAuthorizer roles true = Ok a -> info = rpc.TLSInfo (Some (cert :: certs)) ->
  rpc.authorize (Some a) info required = Ok tt ->
  exists role, (rpc.fingerprintOf cert, rpc.roleName role) ∈ roles /\ rpc.roleAllows role required = true.
Proof.
  intros Hnd Ha -> Hauth%(proj1 (authorize_spec _ _ a _ required Hnd Ha)). destruct Hauth as [Hin|[Hin|[Hna Hin]]].
  - exists required. split; [done|]. unfold rpc.roleAllows. by rewrite (bool_decide_eq_true_2 (required = required)), orb_true_r.
  - by exists rpc.roleAdmin.
  - exists rpc.roleValidator. split; [done|]. by destruct required.
Qed.

Lemma handleAll_authorized srv s a roles calls s' rs :
  NoDup (map fst roles) -> rpc.newRPCAuthorizer roles true = Ok a -> security srv = MutualTLS -> rpc.authorizer s = Some a ->
  handleAll taken caSigned srv s calls = Ok (s', rs) ->
  Forall2 (fun '(_, ctx, call) r => r <> None -> allowed roles ctx call) calls rs /\
  (Forall (fun r => r = None) rs -> rpc.published s' = rpc.published s).
Proof.
  intros Hnd Ha Hsec. revert s rs. induction calls as [|[[n ctx] call] calls IH]; intros s rs Hau Hc; cbn [handleAll] in Hc.
  { injection Hc as <- <-. by split; [constructor|]. }
  apply obind_ok_inv in Hc as ([s1 r] & Hh & Hc). apply obind_ok_inv in Hc as ([s2 rs'] & Hr & [= <- <-]%Ok_inj).
  apply handle_authorized in Hh as (Hs1 & Hq & Hp). destruct (IH s1 rs' ltac:(by rewrite Hs1) Hr) as [Hrs Hpub].
  split; [constructor; [|exact Hrs]|intros [-> Hn]%Forall_cons; rewrite Hpub by exact Hn; by apply Hq].
  intros Hne. destruct (Hp Hne) as [Hsh Hro]. unfold handshake in Hsh. rewrite Hsec in Hsh.
  destruct (rpc.info ctx) as [| |[[|cert certs]|]] eqn:Ei; try done. exists cert, certs. split_and!; [done..|].
  intros required Hreq. apply Hro in Hreq. rewrite Hau in Hreq. exact (authorized_role _ _ _ _ _ _ Hnd Ha eq_refl Hreq).
Qed.

(** C29.  No call from outside without a known certificate.  When a node starts from a loaded
    configuration whose gRPC address is not loopback, the server demands
    client certificates, and over any sequence of calls to either of its two
    services every call that is answered comes from a client whose
    certificate the configured CA has signed; a call of the node's own
    service is answered only if the fingerprint of that certificate is
    configured with a role that allows the call, and as long as none is
    answered nothing is handed to the network.  The health service asks no
    more than the CA's signature: it answers any such client. *)
Theorem remote_calls_authenticated file resolve cfg readable chainID node m srv calls s' rs :
  let g := CGRPC cfg in
  loadConfig file resolve = Ok cfg -> NoDup (map fst (ClientRoles g)) -> requiresGRPCTLS (GListen g) = true ->
  startGRPCServer readable (GListen g) (TLSCertFile g) (TLSKeyFile g) (TLSClientCAFile g) (ClientRoles g) chainID node m = Ok srv ->
  ServeCalls taken caSigned srv calls = Ok (s', rs) ->
  security srv = MutualTLS /\
  Forall2 (fun '(_, ctx, call) r => r <> None -> allowed (ClientRoles g) ctx call) calls rs /\
  (Forall (fun r => r = None) rs -> rpc.published s' = []) /\
  forall s (n : rpc.nodeRuntime B) ctx cert certs, rpc.info ctx = rpc.TLSInfo (Some (cert :: certs)) -> caSigned cert = true ->
    handle taken caSigned srv s n ctx (CallHealthCheck []) = Ok (s, Some Serving).
Proof.
  intros g Hl Hnd Hreq Hs Hc. pose proof (start_unpublished _ _ _ _ _ _ _ _ _ _ Hs) as Hp.
  destruct (remote_server _ _ _ _ _ _ _ _ Hl Hreq Hs) as (Hsec & Hserv & a & Hau & Ha).
  destruct (handleAll_authorized srv (frg srv) a (ClientRoles g) calls s' rs Hnd Ha Hsec Hau Hc) as [Hall Hpub].
  split_and!; [done..|by rewrite <- Hp|]. intros s n ctx cert certs Hi Hca. unfold handle. rewrite Hsec, Hi. cbn [handshake]. rewrite Hca.
  cbn [negb]. by rewrite Hserv, bool_decide_eq_true_2 by constructor.
Qed.
End Remote.

(** ** The first node *)
Section Bootstrap.
Context `{Platform} `{contract.Wasmtime} `{telemetry.Json} `{MapOrderLaws} {B : Type} `{KVLaws B}.
Implicit Types (db : DB B).

Lemma bootstrap_amounts :
  genesis.parseAmount defaultGenesisBalance = Ok (10 * staking.minBondAmount) /\ genesis.parseAmount defaultGenesisBond = Ok staking.minBondAmount.
Proof. split; vm_compute; reflexivity. Qed.

Lemma minBond_u256 : 0 < staking.minBondAmount /\ is_u256 (10 * staking.minBondAmount).
Proof. split; [by vm_compute|]. by unfold is_u256; split; vm_compute. Qed.

Lemma record_wf_new bond : is_u256 bond -> record_wf (staking.mkRecord staking.stateBonded bond 0 0 0).
Proof.
  intros Hu. assert (is_u64 0) as Hz by (unfold is_u64, two64; lia).
  constructor; cbn [staking.State staking.BondedAmount staking.BondedAtBlock staking.UnbondingAtBlock staking.MissCount]; [by left|exact Hu|exact Hz..].
Qed.

Lemma bootstrap_seed db chainID kp bond :
  fresh db -> staking.escrowAccount (keys.PublicKey kp) <> keys.PublicKey kp ->
  genesis.parseAmount defaultGenesisBalance = Ok (10 * bond) -> genesis.parseAmount defaultGenesisBond = Ok bond ->
  staking.minBondAmount <= bond -> 0 < bond -> is_u256 (10 * bond) ->
  exists db', genesis.seed (bootstrapGenesis chainID kp) db = Ok db' /\
    ledger.BalanceOf db' (keys.PublicKey kp) = 9 * bond /\
    ledger.BalanceOf db' (staking.escrowAccount (keys.PublicKey kp)) = bond /\
    validators db' = kv_Put (validators db) (keys.PublicKey kp) (rec_bytes (staking.mkRecord staking.stateBonded bond 0 0 0)).
Proof.
  set (pk := keys.PublicKey kp). intros Hf Hne Hbal Hbond Hmin Hpos Hu. assert (is_u256 bond) as Hu' by (unfold is_u256 in *; lia).
  unfold genesis.seed, bootstrapGenesis. cbn [genesis.Balances genesis.Validators foldM].
  unfold genesis.seedBalance at 1. cbn [genesis.Account genesis.Amount]. fold pk. rewrite decodeKey_hex, Hbal. cbn [obind].
  unfold ledger.SeedTx. rewrite writeBalance_ok by exact Hu. cbn [obind].
  set (db1 := set_balances db _). rewrite supplyOf_sum.
  assert (0 <= map_sum (<[pk := 10 * bond]> ∅)) as Hs.
  { apply map_sum_nonneg. intros a z [[_ <-]|[_ Hz]]%lookup_insert_Some; [lia|by rewrite lookup_empty in Hz]. }
  unfold statemachine.SetTotalSupplyTx. rewrite (proj2 (Z.ltb_ge _ _)) by exact Hs. cbn [obind].
  set (db2 := statemachine.putMeta db1 _ _).
  assert (ledger.ledger_ok db1) as Hok1 by (apply ledger_ok_put_balance, (fresh_formats db Hf)).
  assert (forall a, ledger.readBalance (balances db2) a = if decide (pk = a) then 10 * bond else 0) as Hread.
  { intros a. change (balances db2) with (kv_Put (balances db) pk (be_enc 32 (10 * bond))). rewrite readBalance_put by exact Hu.
    case_decide; [done|]. unfold ledger.readBalance. by rewrite (fr_balances db Hf). }
  unfold genesis.bondValidator at 1. cbn [genesis.PubKey genesis.Bond]. rewrite decodeKey_hex, Hbond. cbn [obind].
  unfold staking.BondTx. rewrite (proj2 (Z.ltb_ge _ _)) by exact Hmin.
  change (validators db2) with (validators db). unfold staking.getRecord. rewrite (fr_validators db Hf). cbn [obind].
  rewrite MoveTx_shift by exact Hu'.
  assert (ledger.ledger_ok db2) as Hok2 by (destruct Hok1 as [Hb1 Hn1]; constructor; [exact Hb1|exact Hn1]).
  assert (0 <= bond <= ledger.readBalance (balances db2) pk) as Hle by (rewrite Hread, decide_True by reflexivity; lia).
  assert (ledger.readBalance (balances db2) (staking.escrowAccount pk) + bond < two256) as Hlt.
  { rewrite Hread, decide_False by congruence. unfold is_u256 in Hu'. lia. }
  destruct (shift_ok db2 pk (staking.escrowAccount pk) bond Hok2 Hle Hlt) as [b Hb].
  rewrite Hb. cbn [obind]. rewrite putRecord_ok by (apply record_wf_new; exact Hu'). cbn [obind].
  eexists. split; [reflexivity|]. unfold ledger.BalanceOf, ledger.BalanceOfTx. cbn [balances set_validators set_balances statemachine.MarkGenesisAppliedTx statemachine.putMeta set_meta].
  rewrite !(shift_read (balances db2) pk (staking.escrowAccount pk) bond b) by (lia || exact Hb).
  rewrite decide_False, !decide_True, !Hread, decide_True, decide_False by congruence. split_and!; lia || reflexivity.
Qed.

Lemma bootstrap_listed chainID kp pk a :
  listed (genesis.Validators (bootstrapGenesis chainID kp)) pk a <-> pk = keys.PublicKey kp /\ a = staking.minBondAmount.
Proof.
  destruct bootstrap_amounts as [_ Ha2]. unfold listed. cbn [genesis.Validators bootstrapGenesis]. split.
  - intros (e & ->%list_elem_of_singleton & Hk & Ha). cbn [genesis.PubKey genesis.Bond] in *.
    rewrite decodeKey_hex in Hk. rewrite Ha2 in Ha. apply Ok_inj in Hk as <-. apply Ok_inj in Ha as <-. split; reflexivity.
  - intros [-> ->]. eexists. split; [left|]. cbn [genesis.PubKey genesis.Bond]. split; [apply decodeKey_hex|exact Ha2].
Qed.

Lemma bootstrap_apart chainID kp :
  staking.escrowAccount (keys.PublicKey kp) <> keys.PublicKey kp -> escrow_apart (genesis.Validators (bootstrapGenesis chainID kp)).
Proof. intros Hne pk a [-> _]%bootstrap_listed. exact Hne. Qed.

(** A first node can start.  The genesis a node writes for itself when it finds none is
    accepted by a new database: the node's key is then the only validator,
    bonded with the minimum of 1000 FRG out of its 10000 FRG, and the
    recorded supply is all there is. *)
Theorem bootstrap_genesis_starts db chainID kp :
  fresh db -> staking.escrowAccount (keys.PublicKey kp) <> keys.PublicKey kp ->
  exists db', genesis.Apply db (bootstrapGenesis chainID kp) = (db', Ok tt) /\
    (forall pk r, recordOf db' pk = Some r <-> pk = keys.PublicKey kp /\ r = staking.mkRecord staking.stateBonded staking.minBondAmount 0 0 0) /\
    ledger.BalanceOf db' (keys.PublicKey kp) = 9 * staking.minBondAmount /\
    ledger.BalanceOf db' (staking.escrowAccount (keys.PublicKey kp)) = staking.minBondAmount /\
    statemachine.CurrentTotalSupply db' = (ledger.totalBalance db', true).
Proof.
  intros Hf Hne. destruct bootstrap_amounts as [Ha1 Ha2]. destruct minBond_u256 as [Hp Hu].
  destruct (bootstrap_seed db chainID kp _ Hf Hne Ha1 Ha2 (Z.le_refl _) Hp Hu) as (db' & Hs & Hb & He & _). exists db'.
  pose proof (bootstrap_listed chainID kp) as Hlist. pose proof (bootstrap_apart chainID kp Hne) as Hap.
  destruct (seed_spec _ db db' Hf Hap Hs) as (_ & Hsup & _ & _ & Hrec). split_and!; [|..].
  - rewrite Apply_fresh by done. apply Update_ok. by rewrite Hs.
  - intros pk r. rewrite Hrec. split.
    + intros (a & [-> ->]%Hlist & ->). split; reflexivity.
    + intros [-> ->]. exists staking.minBondAmount. split; [apply Hlist; split; reflexivity|reflexivity].
  - exact Hb.
  - exact He.
  - exact Hsup.
Qed.

(** Seeding leaves every other record of the chain alone. *)
Lemma seed_meta g db db' k :
  genesis.seed g db = Ok db' -> k <> statemachine.totalSupplyKey -> k <> statemachine.genesisAppliedKey ->
  kv_Get (meta db') k = kv_Get (meta db) k.
Proof.
  intros Hs Hk1 Hk2. unfold genesis.seed in Hs. apply obind_ok_inv in Hs as ([d1 m] & Hb & Hs).
  apply (foldM_inv genesis.seedBalance (fun s => meta (fst s) = meta db)) in Hb; [|clear|done].
  2:{ intros [d m] [d' m'] e _ Hd Hs. unfold genesis.seedBalance in Hs. osteps Hs. simplify_eq.
    match goal with Hseed : ledger.SeedTx _ _ _ = Ok _ |- _ => apply SeedTx_inv in Hseed as [_ ->] end. exact Hd. }
  apply obind_ok_inv in Hs as (d2 & Ht & Hs). apply obind_ok_inv in Hs as (d3 & Hv & <-%Ok_inj).
  apply (foldM_inv genesis.bondValidator (fun d => meta d = meta d2)) in Hv; [|clear|done].
  2:{ intros d d' e _ Hd Hs. unfold genesis.bondValidator in Hs. osteps Hs. apply BondTx_meta in Hs as [-> _]. exact Hd. }
  unfold statemachine.MarkGenesisAppliedTx. rewrite putMeta_get, decide_False by congruence. rewrite Hv.
  unfold statemachine.SetTotalSupplyTx in Ht. osteps Ht. simplify_eq. rewrite putMeta_get, decide_False by congruence. cbn [fst] in Hb. by rewrite Hb.
Qed.

(** One bonded record is the whole stake. *)
Lemma BondedAmounts_single db pk r :
  record_wf r -> staking.State r = staking.stateBonded ->
  (forall k, kv_Get (validators db) k = if decide (arr_bytes pk = k) then Some (rec_bytes r) else None) ->
  staking.BondedAmounts db = Ok ([pk], [staking.BondedAmount r]).
Proof.
  intros Hr Hs Hv. unfold staking.BondedAmounts. rewrite (kv_foreach_single _ _ _ Hv). cbn [foldM snd fst].
  rewrite decode_rec_bytes by done. cbn [obind]. rewrite Hs, Z.eqb_refl, mk_arr_bytes. reflexivity.
Qed.

(** The state the node's own genesis leads to: its key is alone. *)
Lemma bootstrap_alone db chainID kp :
  fresh db -> staking.escrowAccount (keys.PublicKey kp) <> keys.PublicKey kp ->
  exists db', genesis.Apply db (bootstrapGenesis chainID kp) = (db', Ok tt) /\
    staking.BondedAmounts db' = Ok ([keys.PublicKey kp], [staking.minBondAmount]) /\
    statemachine.CurrentHeight db' = Ok 0 /\
    (forall k, k <> statemachine.totalSupplyKey -> k <> statemachine.genesisAppliedKey -> kv_Get (meta db') k = None) /\
    ledger.BalanceOf db' (keys.PublicKey kp) = 9 * staking.minBondAmount /\
    statemachine.CurrentTotalSupply db' = (ledger.totalBalance db', true).
Proof.
  intros Hf Hne. destruct bootstrap_amounts as [Ha1 Ha2]. destruct minBond_u256 as [Hp Hu].
  destruct (bootstrap_seed db chainID kp _ Hf Hne Ha1 Ha2 (Z.le_refl _) Hp Hu) as (db' & Hs & Hb & _ & Hv). exists db'.
  destruct (seed_spec _ db db' Hf (bootstrap_apart chainID kp Hne) Hs) as (_ & Hsup & _ & Hh & _).
  split; [|split; [|split; [exact Hh|split; [|split; [exact Hb|exact Hsup]]]]].
  - rewrite Apply_fresh by done. apply Update_ok. by rewrite Hs.
  - refine (BondedAmounts_single db' (keys.PublicKey kp) (staking.mkRecord staking.stateBonded staking.minBondAmount 0 0 0) _ eq_refl _).
    + apply record_wf_new. exact Hu.
    + intros k. rewrite Hv, kv_get_put, (fr_validators db Hf). reflexivity.
  - intros k Hk1 Hk2. rewrite (seed_meta _ _ _ _ Hs) by done. by apply (fr_meta db Hf).
Qed.
End Bootstrap.
