(* ===== verification/NodeInit.v ===== *)
(** * cmd/frg-node: preparing a data directory (main.go: init, init-first-network, init-join-network)

    A disk maps absolute paths to files; [Allowed] tells which calls of the
    operating system succeed.  The flags are given as parsed.  config.toml is
    kept as its list of dotted keys and values, the keys being the source's;
    how it is quoted and decoded is outside.  Strings are written with Go's
    %q, which is not TOML's quoting: the two agree on printable ASCII, where
    both escape the quote and the backslash and nothing else, and what is
    asked of the decoder is asked for such documents only ([plainValue]).
    JSON of genesis files and libp2p's peer identifiers are parameters. *)

From S2P Require Import Prelude GoBytes Errors Platform Hex Tx KV Denom Ledger Staking Gas Mint Node Tree Contract BlockStore Telemetry.
From S2P Require Import StateMachine Vote BlockLoop Round Engine Genesis Gossip Rpc NetAddr FilePath Config.
Import config.

Module nodeinit.

(** ** Files *)
Inductive tomlValue : Type := TString (s : bytes) | TBool (b : bool) | TInt (z : Z) | TList (l : list bytes).

Abbreviation tomlDoc := (list (bytes * tomlValue)).

Inductive contents : Type := Text (b : bytes) | Toml (doc : tomlDoc).

Record file : Type := mkFile { data : contents; perm : Z; regular : bool }.

Record Allowed : Type := mkAllowed { canStat : bytes -> bool; canRead : bytes -> bool; canWrite : bytes -> bool; canMkdir : bytes -> bool }.

Record Disk : Type := mkDisk { cwd : bytes; files : gmap bytes file }.

Definition fileAt (d : Disk) (path : bytes) : option file := files d !! filepath.Abs (cwd d) path.

(** ** Calls of the operating system *)
Definition disk (A : Type) : Type := Disk -> Disk * res A.

Definition ret {A} (r : res A) : disk A := fun d => (d, r).

Definition bind {A C} (m : disk A) (k : A -> disk C) : disk C := fun d =>
  match m d with
  | (d, Ok a) => k a d
  | (d, Err e) => (d, Err e)
  | (d, Panic) => (d, Panic)
  end.

#[local] Notation "'do' x <- m ; k" := (bind m (fun x => k)) (at level 20, x pattern, m at level 100, k at level 200).
#[local] Notation "m ;; k" := (bind m (fun _ => k)) (at level 100, right associativity).

Section OS.
Context (allowed : Allowed).

(** [None]: os.IsNotExist of the error. *)
Definition Stat (path : bytes) : disk (option file) := fun d =>
  if canStat allowed (filepath.Abs (cwd d) path) then (d, Ok (fileAt d path)) else (d, failf "stat").

Definition ReadFile (path : bytes) : disk contents := fun d =>
  match fileAt d path with
  | Some f => if canRead allowed (filepath.Abs (cwd d) path) then (d, Ok (data f)) else (d, failf "read")
  | None => (d, failf "read: no such file")
  end.

(** A file that exists keeps its permissions. *)
Definition WriteFile (path : bytes) (c : contents) (perm0 : Z) : disk unit := fun d =>
  let p := filepath.Abs (cwd d) path in
  if canWrite allowed p
  then (mkDisk (cwd d) (<[p := match files d !! p with Some f => mkFile c (perm f) (regular f) | None => mkFile c perm0 true end]> (files d)), Ok tt)
  else (d, failf "write").

Definition MkdirAll (path : bytes) : disk unit := fun d =>
  if canMkdir allowed (filepath.Abs (cwd d) path) then (d, Ok tt) else (d, failf "create data dir").

Definition ensureParentDir (path : bytes) : disk unit :=
  let dir := filepath.Dir path in
  if bool_decide (dir = filepath.dot) || bool_decide (dir = []) then ret (Ok tt) else MkdirAll dir.

Section Init.
Context `{Platform}.
Context (marshal : genesis.Genesis -> bytes) (unmarshal : bytes -> res genesis.Genesis) (peerIDForKeypair : keys.Keypair -> res bytes).

(** ** Keys and genesis; octal 0600, 0644, 0755 and the mask 0077 *)

(** [fresh]: what generating a key gives. *)
Definition loadOrGenerateKeypair (path : bytes) (fresh : res keys.Keypair) : disk keys.Keypair :=
  do info <- Stat path;
  match info with
  | None =>
    do kp <- ret fresh;
    ensureParentDir path;;
    WriteFile path (Text (take 32 (keys.PrivateKey kp))) 384;;
    ret (Ok kp)
  | Some f =>
    if negb (regular f) then ret (failf "keypair path is not a regular file") else
    if negb (Z.land (perm f) 63 =? 0) then ret (failf "keypair file permissions are too broad") else
    do c <- ReadFile path;
    match c with
    | Text b =>
      if zlen b =? 32 then ret (Ok (keys.NewKeypairFromSeed (mk_arr 32 b))) else
      if zlen b =? 64 then ret (Ok (keys.NewKeypairFromPrivateKey (mk_arr 64 b))) else
      ret (failf "invalid keypair file length")
    | Toml _ => ret (failf "invalid keypair file length")
    end
  end.

Definition ensureGenesis (path chainID : bytes) (kp : keys.Keypair) : disk unit :=
  do info <- Stat path;
  match info with
  | Some _ => ret (Ok tt)
  | None =>
    ensureParentDir path;;
    WriteFile path (Text (marshal (bootstrapGenesis chainID kp))) 420
  end.

(** A file that may stay: without [force], one that exists is kept. *)
Definition unlessPresent (force : bool) (path : bytes) (write : disk unit) : disk unit :=
  if force then write else
  do info <- Stat path;
  match info with Some _ => ret (Ok tt) | None => write end.

Definition copyGenesisFile (src dst chainID : bytes) (force : bool) : disk unit :=
  unlessPresent force dst (
    do c <- ReadFile src;
    do g <- ret (match c with Text b => unmarshal b | Toml _ => failf "decode genesis source" end);
    if blank (genesis.ChainID g) then ret (failf "genesis source missing chain_id") else
    if negb (bool_decide (genesis.ChainID g = chainID)) then ret (failf "genesis source chain ID does not match") else
    ensureParentDir dst;;
    WriteFile dst c 420).

(** ** config.toml *)
Definition optionalKey (key value : bytes) : tomlDoc := if bool_decide (value = []) then [] else [(key, TString value)].

Definition configDoc (cfg : Config) : tomlDoc :=
  let n := CNode cfg in let p := CP2P cfg in let g := CGRPC cfg in let c := CConsensus cfg in
  [(str "chain_id", TString (ChainID cfg));
   (str "node.keypair_path", TString (KeypairPath n)); (str "node.db_path", TString (DBPath n)); (str "node.genesis_path", TString (GenesisPath n));
   (str "p2p.listen", TString (PListen p)); (str "p2p.peers", TList (Peers p)); (str "p2p.enable_mdns", TBool (EnableMDNS p));
   (str "grpc.listen", TString (GListen g))] ++
  optionalKey (str "grpc.tls_cert_file") (TLSCertFile g) ++ optionalKey (str "grpc.tls_key_file") (TLSKeyFile g) ++
  optionalKey (str "grpc.tls_client_ca_file") (TLSClientCAFile g) ++
  [(str "metrics.listen", TString (MListen (CMetrics cfg)));
   (str "consensus.propose_delay_ms", TInt (ProposeDelayMS c)); (str "consensus.propose_timeout_ms", TInt (ProposeTimeoutMS c));
   (str "consensus.prevote_timeout_ms", TInt (PrevoteTimeoutMS c)); (str "consensus.precommit_timeout_ms", TInt (PrecommitTimeoutMS c))].

Definition writeConfigFile (path : bytes) (cfg : Config) (force : bool) : disk unit :=
  unlessPresent force path (ensureParentDir path;; WriteFile path (Toml (configDoc cfg)) 420).

(** ** .env and the run script *)
Definition nl : bytes := [x0a].
Definition line (l : list bytes) : bytes := concat l ++ nl.
Definition boolText (b : bool) : bytes := if b then str "true" else str "false".

Fixpoint commaJoined (l : list bytes) : bytes :=
  match l with
  | [] => []
  | [c] => c
  | c :: rest => c ++ x2c :: commaJoined rest
  end.

Definition optionalLine (key value : bytes) : bytes := if bool_decide (value = []) then [] else line [key; value].

Definition envText (cfg : Config) (kp : keys.Keypair) (peerID : bytes) : bytes :=
  let n := CNode cfg in let p := CP2P cfg in let g := CGRPC cfg in
  line [str "FRG_CHAIN_ID="; ChainID cfg] ++
  line [str "FRG_DATA_DIR="; filepath.Dir (DBPath n)] ++
  line [str "FRG_CONFIG="; filepath.Join (filepath.Dir (DBPath n)) (str "config.toml")] ++
  line [str "FRG_KEY_PATH="; KeypairPath n] ++
  line [str "FRG_DB_PATH="; DBPath n] ++
  line [str "FRG_GENESIS_PATH="; GenesisPath n] ++
  line [str "FRG_P2P_LISTEN="; PListen p] ++
  line [str "FRG_P2P_PEERS="; commaJoined (Peers p)] ++
  line [str "FRG_P2P_ENABLE_MDNS="; boolText (EnableMDNS p)] ++
  line [str "FRG_GRPC_LISTEN="; GListen g] ++
  optionalLine (str "FRG_GRPC_TLS_CERT_FILE=") (TLSCertFile g) ++
  optionalLine (str "FRG_GRPC_TLS_KEY_FILE=") (TLSKeyFile g) ++
  optionalLine (str "FRG_GRPC_TLS_CLIENT_CA_FILE=") (TLSClientCAFile g) ++
  line [str "FRG_METRICS_LISTEN="; MListen (CMetrics cfg)] ++
  line [str "FRG_VALIDATOR_PUBKEY="; hex_EncodeToString (keys.PublicKey kp)] ++
  line [str "FRG_PEER_ID="; peerID] ++
  line [str "FRG_ADVERTISED_MULTIADDR="; PListen p; str "/p2p/"; peerID].

Definition writeEnvFile (path : bytes) (cfg : Config) (kp : keys.Keypair) (peerID : bytes) (force : bool) : disk unit :=
  unlessPresent force path (ensureParentDir path;; WriteFile path (Text (envText cfg kp peerID)) 420).

Definition tcpPortFromAddress (addr fallback : bytes) : bytes :=
  let byColon :=
    match netaddr.LastIndexByte addr x3a with
    | Some idx => if Z.of_nat idx <? zlen addr - 1 then drop (idx + 1) addr else fallback
    | None => fallback
    end in
  match netaddr.SplitHostPort addr with
  | Some (_, port) => if bool_decide (port = []) then byColon else port
  | None => byColon
  end.

Fixpoint portAfterTcp (parts : list bytes) (fallback : bytes) : bytes :=
  match parts with
  | a :: ((b :: _) as rest) => if bool_decide (a = str "tcp") && negb (bool_decide (b = [])) then b else portAfterTcp rest fallback
  | _ => fallback
  end.

Definition tcpPortFromMultiaddr (addr fallback : bytes) : bytes := portAfterTcp (denom.Split addr filepath.slash) fallback.

(** [strings.ReplaceAll] of a one-byte string. *)
Definition ReplaceAll (s : bytes) (old : byte) (new : bytes) : bytes := flat_map (fun c => if bool_decide (c = old) then new else [c]) s.

Definition backslash : byte := x5c.

Definition shellParamDefault (value : bytes) : bytes :=
  let value := ReplaceAll value backslash [backslash; backslash] in
  let value := ReplaceAll value x22 [backslash; x22] in
  let value := ReplaceAll value x60 [backslash; x60] in
  let value := ReplaceAll value x24 [backslash; x24] in
  ReplaceAll value x7d [backslash; x7d].

Definition quote : bytes := [x22].
Definition continued (l : list bytes) : bytes := line (l ++ [str " "; [backslash]]).

Definition runScriptText (cfg : Config) (engine image name : bytes) : bytes :=
  let p2pPort := tcpPortFromMultiaddr (PListen (CP2P cfg)) (str "7777") in
  let grpcPort := tcpPortFromAddress (GListen (CGRPC cfg)) (str "50051") in
  let metricsPort := tcpPortFromAddress (MListen (CMetrics cfg)) (str "9090") in
  line [str "#!/bin/sh"] ++ line [str "set -eu"] ++ nl ++
  line [str "ENGINE="; quote; str "${CONTAINER_ENGINE:-"; shellParamDefault engine; str "}"; quote] ++
  line [str "IMAGE="; quote; str "${FRG_IMAGE:-"; shellParamDefault image; str "}"; quote] ++
  line [str "NAME="; quote; str "${FRG_CONTAINER_NAME:-"; shellParamDefault name; str "}"; quote] ++ nl ++
  continued [str "exec "; quote; str "$ENGINE"; quote; str " run -d --name "; quote; str "$NAME"; quote] ++
  continued [str "  --restart unless-stopped"] ++
  continued [str "  -p "; p2pPort; str ":"; p2pPort] ++
  continued [str "  -p 127.0.0.1:"; grpcPort; str ":"; grpcPort] ++
  continued [str "  -p 127.0.0.1:"; metricsPort; str ":"; metricsPort] ++
  continued [str "  -v "; quote; str "$(pwd):/var/lib/frg:Z"; quote] ++
  continued [str "  --env-file "; quote; str "$(pwd)/.env"; quote] ++
  line [str "  "; quote; str "$IMAGE"; quote].

Definition writeRunScript (path : bytes) (cfg : Config) (engine image name : bytes) (force : bool) : disk unit :=
  unlessPresent force path (ensureParentDir path;; WriteFile path (Text (runScriptText cfg engine image name)) 493).

(** ** The command *)
Record InitFlags : Type := mkInitFlags
  { dataDir : bytes; chainID : bytes; p2pListen : bytes; grpcListen : bytes; grpcTLSCertFile : bytes; grpcTLSKeyFile : bytes;
    grpcTLSClientCAFile : bytes; metricsListen : bytes; peers : bytes; enableMDNS : bool; bootstrap : bool; genesisSource : bytes;
    allowEmptyPeers : bool; containerEngine : bytes; containerImage : bytes; containerName : bytes; writeRunScriptFlag : bool; force : bool }.

Definition defaultInitFlags : InitFlags :=
  mkInitFlags (str ".") defaultChainID (str "/ip4/0.0.0.0/tcp/7777") defaultGRPCListenAddr [] [] [] defaultMetricsListenAddr [] false false []
    false (str "podman") (str "frg-node:local") (str "frg-validator") false false.

Inductive command : Type := Init | InitFirstNetwork | InitJoinNetwork.

(** Whether to make a genesis, or the refusal of the peers given. *)
Definition checkCommand (cmd : command) (f : InitFlags) : res bool :=
  match cmd with
  | Init => Ok (bootstrap f)
  | InitFirstNetwork =>
    if negb (blank (peers f)) then failf "init-first-network starts without bootstrap peers; use init-join-network for additional validators" else Ok true
  | InitJoinNetwork =>
    if blank (peers f) && negb (allowEmptyPeers f) then failf "init-join-network requires --peers or --allow-empty-peers" else Ok false
  end.

Definition keyPath f : bytes := filepath.Join (dataDir f) defaultKeypairPath.
Definition configPath f : bytes := filepath.Join (dataDir f) (str "config.toml").
Definition envPath f : bytes := filepath.Join (dataDir f) (str ".env").
Definition genesisPath f : bytes := filepath.Join (dataDir f) defaultGenesisPath.
Definition dbPath f : bytes := filepath.Join (dataDir f) defaultDBPath.
Definition runScriptPath f : bytes := filepath.Join (dataDir f) (str "run-validator.sh").

Definition initConfig (f : InitFlags) : Config :=
  normalizeConfig (mkConfig (mkNodeConfig (keyPath f) (dbPath f) (genesisPath f))
    (mkP2PConfig (p2pListen f) (splitCommaList (peers f)) (enableMDNS f))
    (mkGRPCConfig (grpcListen f) (grpcTLSCertFile f) (grpcTLSKeyFile f) (grpcTLSClientCAFile f) [])
    (mkMetricsConfig (metricsListen f)) (CConsensus defaultConfig) (chainID f)).

(** What is printed: the key, the peer identifier and whether a genesis is still missing. *)
Record summary : Type := mkSummary { validator_pubkey : arr 32; peer_id : bytes; advertised_multiaddr : bytes; genesisMissing : bool }.

Definition runNodeInitCommand (cmd : command) (f : InitFlags) (fresh : res keys.Keypair) : disk summary :=
  do makeGenesis <- ret (checkCommand cmd f);
  MkdirAll (dataDir f);;
  do kp <- loadOrGenerateKeypair (keyPath f) fresh;
  do peerID <- ret (peerIDForKeypair kp);
  let cfg := initConfig f in
  ret (validateConfig cfg);;
  (if blank (genesisSource f) then ret (Ok tt) else copyGenesisFile (genesisSource f) (genesisPath f) (ChainID cfg) (force f));;
  (if makeGenesis then ensureGenesis (genesisPath f) (ChainID cfg) kp else ret (Ok tt));;
  writeConfigFile (configPath f) cfg (force f);;
  writeEnvFile (envPath f) cfg kp peerID (force f);;
  (if writeRunScriptFlag f then writeRunScript (runScriptPath f) cfg (containerEngine f) (containerImage f) (containerName f) (force f) else ret (Ok tt));;
  ret (Ok (mkSummary (keys.PublicKey kp) peerID (PListen (CP2P cfg) ++ str "/p2p/" ++ peerID) (negb makeGenesis && blank (genesisSource f)))).

(** ** Starting on a prepared directory *)

(** The key a document sets, by the tags of the configuration's fields. *)
Definition setKey (cfg : Config) (kv : bytes * tomlValue) : Config :=
  let n := CNode cfg in let p := CP2P cfg in let g := CGRPC cfg in let c := CConsensus cfg in let m := CMetrics cfg in
  let node n := mkConfig n p g m c (ChainID cfg) in
  let p2p p := mkConfig n p g m c (ChainID cfg) in
  let grpc g := mkConfig n p g m c (ChainID cfg) in
  let cons c := mkConfig n p g m c (ChainID cfg) in
  let key k := bool_decide (fst kv = str k) in
  match snd kv with
  | TString s =>
    if key "chain_id" then mkConfig n p g m c s else
    if key "node.keypair_path" then node (mkNodeConfig s (DBPath n) (GenesisPath n)) else
    if key "node.db_path" then node (mkNodeConfig (KeypairPath n) s (GenesisPath n)) else
    if key "node.genesis_path" then node (mkNodeConfig (KeypairPath n) (DBPath n) s) else
    if key "p2p.listen" then p2p (mkP2PConfig s (Peers p) (EnableMDNS p)) else
    if key "grpc.listen" then grpc (mkGRPCConfig s (TLSCertFile g) (TLSKeyFile g) (TLSClientCAFile g) (ClientRoles g)) else
    if key "grpc.tls_cert_file" then grpc (mkGRPCConfig (GListen g) s (TLSKeyFile g) (TLSClientCAFile g) (ClientRoles g)) else
    if key "grpc.tls_key_file" then grpc (mkGRPCConfig (GListen g) (TLSCertFile g) s (TLSClientCAFile g) (ClientRoles g)) else
    if key "grpc.tls_client_ca_file" then grpc (mkGRPCConfig (GListen g) (TLSCertFile g) (TLSKeyFile g) s (ClientRoles g)) else
    if key "metrics.listen" then mkConfig n p g (mkMetricsConfig s) c (ChainID cfg) else cfg
  | TList l => if key "p2p.peers" then p2p (mkP2PConfig (PListen p) l (EnableMDNS p)) else cfg
  | TBool b => if key "p2p.enable_mdns" then p2p (mkP2PConfig (PListen p) (Peers p) b) else cfg
  | TInt z =>
    if key "consensus.propose_delay_ms" then cons (mkConsensusConfig z (ProposeTimeoutMS c) (PrevoteTimeoutMS c) (PrecommitTimeoutMS c)) else
    if key "consensus.propose_timeout_ms" then cons (mkConsensusConfig (ProposeDelayMS c) z (PrevoteTimeoutMS c) (PrecommitTimeoutMS c)) else
    if key "consensus.prevote_timeout_ms" then cons (mkConsensusConfig (ProposeDelayMS c) (ProposeTimeoutMS c) z (PrecommitTimeoutMS c)) else
    if key "consensus.precommit_timeout_ms" then cons (mkConsensusConfig (ProposeDelayMS c) (ProposeTimeoutMS c) (PrevoteTimeoutMS c) z) else cfg
  end.

(** [decode]: the TOML decoder filling the configuration given. *)
Context (decode : tomlDoc -> Config -> option Config).

Definition readConfig (path : bytes) : disk configFile :=
  fun d =>
    if negb (canStat allowed (filepath.Abs (cwd d) path)) then (d, Ok BadFile) else
    match fileAt d path with
    | None => (d, Ok NoFile)
    | Some f =>
      if negb (canRead allowed (filepath.Abs (cwd d) path)) then (d, Ok BadFile) else
      match data f with
      | Text _ => (d, Ok BadFile)
      | Toml doc =>
        match decode doc defaultConfig with
        | None => (d, Ok BadFile)
        | Some _ => (d, Ok (Decoded (fun cfg => default cfg (decode doc cfg))))
        end
      end
    end.

(** [genesis.Load] *)
Definition Load (path : bytes) : disk genesis.Genesis :=
  do c <- ReadFile path;
  match c with Text b => ret (unmarshal b) | Toml _ => ret (failf "unmarshal genesis") end.

(** The path a relative path of the configuration stands for: it is joined to the file's directory. *)
Definition resolveIn (baseDir path : bytes) : bytes := if filepath.IsAbs path then path else filepath.Join baseDir path.

(** The start of [main]: configuration, key, genesis. *)
Definition startNode (path : bytes) (fresh : res keys.Keypair) : disk (Config * keys.Keypair) :=
  do cf <- readConfig path;
  fun d => (
    do cfg <- ret (loadConfig cf (Some (resolveIn (filepath.Abs (cwd d) (filepath.Dir path)))));
    do kp <- loadOrGenerateKeypair (KeypairPath (CNode cfg)) fresh;
    ensureGenesis (GenesisPath (CNode cfg)) (ChainID cfg) kp;;
    ret (Ok (cfg, kp))) d.
End Init.
End OS.
End nodeinit.

(** * cmd/frg-node: a prepared data directory is the one the node starts on

    [keeps q m]: the run of [m] leaves the file at [q] alone.  With it the
    files written by [runNodeInitCommand] are followed to the end of the
    command, and from there into [startNode]. *)

Import config nodeinit.

(** ** Blank strings *)
Lemma strip_prefix_app (r l l' : bytes) : denom.strip_prefix r l = Some l' -> l = r ++ l'.
Proof.
  revert l. induction r as [|x r IH]; intros l E; cbn [denom.strip_prefix] in E; [by injection E as ->|].
  destruct l as [|y l]; [done|]. destruct (decide (x = y)) as [->|]; [|done]. cbn [app]. f_equal. by apply IH.
Qed.

Lemma first_some_elem {A} (l : list (option A)) a : denom.first_some l = Some a -> Some a ∈ l.
Proof. induction l as [|[x|] l IH]; cbn [denom.first_some]; intros E; [done|injection E as ->; left|right; auto]. Qed.

Lemma trim_left_keeps (runes : list bytes) c fuel l :
  Forall (fun r => c ∉ r) runes -> c ∈ l -> c ∈ denom.trim_left fuel runes l.
Proof.
  intros Hr. revert l. induction fuel as [|fuel IH]; intros l Hl; [done|]. cbn [denom.trim_left].
  destruct (denom.first_some _) as [l'|] eqn:E; [|done]. apply IH.
  apply first_some_elem, list_elem_of_fmap in E as (r & Es & Hin). symmetry in Es. apply strip_prefix_app in Es as ->.
  apply elem_of_app in Hl as [Hl|Hl]; [|done]. exfalso. by apply (proj1 (Forall_forall _ _) Hr r Hin).
Qed.

Lemma not_blank c p : Forall (fun r => c ∉ r) denom.space_runes -> c ∈ p -> blank p = false.
Proof.
  intros Hr Hp. apply bool_decide_eq_false. intros Ht.
  assert (c ∈ denom.TrimSpace p) as Hin; [|rewrite Ht in Hin; by apply not_elem_of_nil in Hin].
  unfold denom.TrimSpace. apply elem_of_reverse, trim_left_keeps.
  - apply Forall_map. eapply Forall_impl; [apply Hr|]. intros r Hc. cbn. by rewrite elem_of_reverse.
  - by apply elem_of_reverse, trim_left_keeps.
Qed.

Lemma absolute_not_blank p : filepath.IsAbs p = true -> blank p = false.
Proof.
  intros Hp. apply (not_blank filepath.slash); [apply (bool_decide_unpack _); by vm_compute|].
  apply bool_decide_eq_true in Hp. destruct p as [|c p]; [done|]. injection Hp as ->. left.
Qed.

(** ** What a run leaves alone *)
Definition keeps {A} (q : bytes) (m : disk A) : Prop :=
  forall d d' r, m d = (d', r) -> cwd d' = cwd d /\ files d' !! q = files d !! q.

Section Keeps.
Context (allowed : Allowed) (q : bytes).

Lemma keeps_ret {A} (r : res A) : keeps q (ret r).
Proof. by intros d d' r' [= <- _]. Qed.

Lemma keeps_bind {A C} (m : disk A) (k : A -> disk C) : keeps q m -> (forall a, keeps q (k a)) -> keeps q (bind m k).
Proof.
  intros Hm Hk d d' r Hr. unfold bind in Hr. destruct (m d) as [d1 r1] eqn:Em. destruct (Hm _ _ _ Em) as [E1 E2].
  destruct r1 as [a|e|]; [|by injection Hr as <- _..]. destruct (Hk a _ _ _ Hr) as [E3 E4]. by rewrite E3, E4.
Qed.

Lemma keeps_Stat path : keeps q (Stat allowed path).
Proof. intros d d' r. unfold Stat. by destruct (canStat _ _); intros [= <- _]. Qed.

Lemma keeps_ReadFile path : keeps q (ReadFile allowed path).
Proof. intros d d' r. unfold ReadFile. destruct (fileAt d path); [|by intros [= <- _]]. by destruct (canRead _ _); intros [= <- _]. Qed.

Lemma keeps_MkdirAll path : keeps q (MkdirAll allowed path).
Proof. intros d d' r. unfold MkdirAll. by destruct (canMkdir _ _); intros [= <- _]. Qed.

Lemma keeps_WriteFile path c p : (forall wd, filepath.Abs wd path <> q) -> keeps q (WriteFile allowed path c p).
Proof.
  intros Hq d d' r. unfold WriteFile. destruct (canWrite _ _); [|by intros [= <- _]]. intros [= <- _]. cbn. by rewrite lookup_insert_ne by apply Hq.
Qed.

Lemma keeps_ensureParentDir path : keeps q (ensureParentDir allowed path).
Proof. unfold ensureParentDir. destruct (_ || _); [apply keeps_ret|apply keeps_MkdirAll]. Qed.

Lemma keeps_unlessPresent force path m : keeps q m -> keeps q (unlessPresent allowed force path m).
Proof.
  intros Hm. unfold unlessPresent. destruct force; [done|]. apply keeps_bind; [apply keeps_Stat|]. intros [f|]; [apply keeps_ret|done].
Qed.
End Keeps.

Lemma bind_ok_inv {A C} (m : disk A) (k : A -> disk C) d d' c :
  bind m k d = (d', Ok c) -> exists d1 a, m d = (d1, Ok a) /\ k a d1 = (d', Ok c).
Proof. unfold bind. destruct (m d) as [d1 [a|e|]]; [|done..]. eauto. Qed.

Lemma kept {A} q (m : disk A) d d' r : m d = (d', r) -> keeps q m -> cwd d' = cwd d /\ files d' !! q = files d !! q.
Proof. intros Hm Hk. by eapply Hk. Qed.

(** ** Files of the data directory *)
Lemma keyName : filepath.name defaultKeypairPath.
Proof. apply (bool_decide_unpack _). by vm_compute. Qed.
Lemma configName : filepath.name (str "config.toml").
Proof. apply (bool_decide_unpack _). by vm_compute. Qed.
Lemma envName : filepath.name (str ".env").
Proof. apply (bool_decide_unpack _). by vm_compute. Qed.
Lemma genesisName : filepath.name defaultGenesisPath.
Proof. apply (bool_decide_unpack _). by vm_compute. Qed.
Lemma scriptName : filepath.name (str "run-validator.sh").
Proof. apply (bool_decide_unpack _). by vm_compute. Qed.

Create HintDb names.
#[export] Hint Resolve keyName configName envName genesisName scriptName : names.

Lemma Abs_other s1 s2 wd dir q :
  filepath.ends_in s2 q -> filepath.name s1 -> filepath.name s2 -> s1 <> s2 -> filepath.Abs wd (filepath.Join dir s1) <> q.
Proof.
  intros Hq H1 H2 Hne Heq. apply Hne. apply (filepath.ends_in_inj s1 s2 q); try done. rewrite <- Heq.
  by apply filepath.ends_in_Abs, filepath.ends_in_Join.
Qed.

(** Steps through a run; the paths it writes are told from [q] by their names. *)
Ltac solve_keeps :=
  repeat first
    [ apply keeps_ret | apply keeps_Stat | apply keeps_ReadFile | apply keeps_MkdirAll | apply keeps_ensureParentDir
    | apply keeps_bind; [|intros ?] | apply keeps_unlessPresent
    | apply keeps_WriteFile; intros ?; eapply Abs_other; [eassumption|solve [auto with names]|solve [auto with names]|by vm_compute]
    | match goal with
      | |- keeps _ (if ?b then _ else _) => destruct b
      | |- keeps _ (match ?x with _ => _ end) => destruct x
      end ].

Section Init.
Context `{PlatformLaws}.
Context (seed_prefix : forall seed, take 32 (ed25519_NewKeyFromSeed seed) = seed).
Context (marshal : genesis.Genesis -> bytes) (unmarshal : bytes -> res genesis.Genesis) (peerIDForKeypair : keys.Keypair -> res bytes).
Context (allowed : Allowed).
Implicit Types (f : InitFlags) (kp : keys.Keypair).

(** A key file the node accepts, and the key in it. *)
Definition key_file (fl : file) kp : Prop :=
  regular fl = true /\ Z.land (perm fl) 63 = 0 /\ exists b, data fl = Text b /\
    ((zlen b = 32 /\ kp = keys.NewKeypairFromSeed (mk_arr 32 b)) \/ (zlen b = 64 /\ kp = keys.NewKeypairFromPrivateKey (mk_arr 64 b))).

(** Either way the key that is returned is the one on disk afterwards. *)
Lemma loadOrGenerate_stored path fresh d d' kp :
  (forall k, fresh = Ok k -> keys.generated k) ->
  loadOrGenerateKeypair allowed path fresh d = (d', Ok kp) ->
  cwd d' = cwd d /\ (exists fl, files d' !! filepath.Abs (cwd d) path = Some fl /\ key_file fl kp) /\
  (fileAt d path = None -> keys.generated kp).
Proof.
  intros Hgen Hl. unfold loadOrGenerateKeypair in Hl. apply bind_ok_inv in Hl as (d1 & info & Hs & Hl).
  unfold Stat in Hs. destruct (canStat _ _); [|done]. injection Hs as <- <-. unfold fileAt in Hl.
  destruct (files d !! filepath.Abs (cwd d) path) as [fl|] eqn:Ef.
  - destruct (regular fl) eqn:Er; [|done]. cbn [negb] in Hl. destruct (Z.land (perm fl) 63 =? 0) eqn:Ep; [|done]. cbn [negb] in Hl.
    apply bind_ok_inv in Hl as (d2 & c & Hr & Hl). unfold ReadFile, fileAt in Hr. rewrite Ef in Hr. destruct (canRead _ _); [|done].
    injection Hr as <- <-. destruct (data fl) as [b|] eqn:Ed; [|done].
    destruct (zlen b =? 32) eqn:E32; [|destruct (zlen b =? 64) eqn:E64; [|done]]; injection Hl as <- <-; (split; [done|]); (split; [|unfold fileAt; by rewrite Ef]);
      exists fl; (split; [done|]); (split; [done|]); (split; [by apply Z.eqb_eq|]); exists b; (split; [done|]); [left|right];
      split; try done; by apply Z.eqb_eq.
  - apply bind_ok_inv in Hl as (d2 & k & Hk & Hl). injection Hk as <- ->. destruct (Hgen k eq_refl) as [sd ->].
    apply bind_ok_inv in Hl as (d2 & [] & Hm & Hl). destruct (keeps_ensureParentDir allowed (filepath.Abs (cwd d) path) path _ _ _ Hm) as [Hc Hq].
    apply bind_ok_inv in Hl as (d3 & [] & Hw & Hl). injection Hl as <- <-. unfold WriteFile in Hw. destruct (canWrite _ _); [|done].
    rewrite Hc, Hq, Ef in Hw. injection Hw as <-. cbn [cwd files]. split; [done|].
    split; [|by exists sd]. eexists. rewrite lookup_insert_eq. split; [reflexivity|].
    split; [done|]. split; [done|]. cbn [data keys.PrivateKey keys.NewKeypairFromSeed]. rewrite seed_prefix. eexists. split; [reflexivity|].
    left. rewrite zlen_arr. split; [done|]. by rewrite mk_arr_bytes.
Qed.

(** A key file that is there is read, whatever key could be made. *)
Lemma loadOrGenerate_found path fresh d fl kp :
  canStat allowed (filepath.Abs (cwd d) path) = true -> canRead allowed (filepath.Abs (cwd d) path) = true ->
  files d !! filepath.Abs (cwd d) path = Some fl -> key_file fl kp -> loadOrGenerateKeypair allowed path fresh d = (d, Ok kp).
Proof.
  intros Hs Hr Hf (E1 & E2 & b & Eb & Hk). unfold loadOrGenerateKeypair, bind, Stat, fileAt. rewrite Hs, Hf, E1, E2. cbn [negb Z.eqb].
  unfold ReadFile, fileAt. rewrite Hf, Hr, Eb. by destruct Hk as [[-> ->]|[-> ->]].
Qed.

(** A file written unless present is there afterwards. *)
Lemma unlessPresent_written force path c p0 d d' :
  (force = true \/ fileAt d path = None) ->
  unlessPresent allowed force path (bind (ensureParentDir allowed path) (fun _ => WriteFile allowed path c p0)) d = (d', Ok tt) ->
  cwd d' = cwd d /\ exists fl, files d' !! filepath.Abs (cwd d) path = Some fl /\ data fl = c.
Proof.
  intros Hf Hu. assert (bind (ensureParentDir allowed path) (fun _ => WriteFile allowed path c p0) d = (d', Ok tt)) as Hw.
  { unfold unlessPresent in Hu. destruct force; [done|]. destruct Hf as [?|Hf]; [done|]. apply bind_ok_inv in Hu as (d1 & info & Hs & Hu).
    unfold Stat in Hs. destruct (canStat _ _); [|done]. injection Hs as <- <-. by rewrite Hf in Hu. }
  apply bind_ok_inv in Hw as (d1 & [] & Hm & Hw). destruct (keeps_ensureParentDir allowed [] path _ _ _ Hm) as [Hc _].
  unfold WriteFile in Hw. destruct (canWrite _ _); [|done]. injection Hw as <-. cbn [cwd files]. rewrite Hc. split; [done|].
  eexists. rewrite lookup_insert_eq. split; [reflexivity|]. by destruct (files d1 !! filepath.Abs (cwd d) path).
Qed.

(** The command's files, when it succeeds: the key it names and the configuration it validated. *)
Lemma init_files cmd f fresh d d' s :
  (forall k, fresh = Ok k -> keys.generated k) -> (force f = true \/ fileAt d (configPath f) = None) ->
  runNodeInitCommand allowed marshal unmarshal peerIDForKeypair cmd f fresh d = (d', Ok s) ->
  cwd d' = cwd d /\ validateConfig (initConfig f) = Ok tt /\
  (exists kp fl, validator_pubkey s = keys.PublicKey kp /\ files d' !! filepath.Abs (cwd d) (keyPath f) = Some fl /\ key_file fl kp /\
     (fileAt d (keyPath f) = None -> keys.generated kp)) /\
  (exists fl, files d' !! filepath.Abs (cwd d) (configPath f) = Some fl /\ data fl = Toml (configDoc (initConfig f))).
Proof.
  intros Hgen Hforce Hi. unfold runNodeInitCommand in Hi.
  set (kq := filepath.Abs (cwd d) (keyPath f)). set (cq := filepath.Abs (cwd d) (configPath f)).
  assert (filepath.ends_in defaultKeypairPath kq) as Hkq by (apply filepath.ends_in_Abs, filepath.ends_in_Join; apply keyName).
  assert (filepath.ends_in (str "config.toml") cq) as Hcq by (apply filepath.ends_in_Abs, filepath.ends_in_Join; apply configName).
  apply bind_ok_inv in Hi as (d1 & mk & [= <- Hc] & Hi). apply bind_ok_inv in Hi as (d1 & [] & Hm & Hi).
  apply bind_ok_inv in Hi as (d2 & kp & Hk & Hi).
  destruct (keeps_MkdirAll allowed cq (dataDir f) _ _ _ Hm) as [Hc1 Hf1].
  destruct (loadOrGenerate_stored _ _ _ _ _ Hgen Hk) as (Hc2 & (fl & Hfl & Hkf) & Hnew). rewrite Hc1 in Hc2, Hfl. fold kq in Hfl.
  assert (fileAt d (keyPath f) = None -> keys.generated kp) as Hnew'.
  { destruct (keeps_MkdirAll allowed kq (dataDir f) _ _ _ Hm) as [_ Hk1]. intros Hk0. apply Hnew. unfold fileAt. rewrite Hc1. fold kq.
    rewrite Hk1. exact Hk0. }
  assert (files d2 !! cq = files d1 !! cq) as Hf2.
  { eapply (kept cq _ _ _ _ Hk). unfold loadOrGenerateKeypair. solve_keeps. }
  assert (files d' !! kq = files d2 !! kq) as Hk2.
  { eapply (kept kq _ _ _ _ Hi). unfold copyGenesisFile, ensureGenesis, writeConfigFile, writeEnvFile, writeRunScript. solve_keeps. }
  apply bind_ok_inv in Hi as (? & peerID & [= <- Hp] & Hi). apply bind_ok_inv in Hi as (? & [] & [= <- Hv] & Hi).
  apply bind_ok_inv in Hi as (d3 & [] & Hg & Hi). apply bind_ok_inv in Hi as (d4 & [] & He & Hi).
  assert (cwd d3 = cwd d2 /\ files d3 !! cq = files d2 !! cq) as [Hc3 Hf3].
  { eapply (kept cq _ _ _ _ Hg). unfold copyGenesisFile. solve_keeps. }
  assert (cwd d4 = cwd d3 /\ files d4 !! cq = files d3 !! cq) as [Hc4 Hf4].
  { eapply (kept cq _ _ _ _ He). unfold ensureGenesis. solve_keeps. }
  apply bind_ok_inv in Hi as (d5 & [] & Hw & Hi). assert (cwd d4 = cwd d) as Hcd by congruence.
  apply unlessPresent_written in Hw as (Hc5 & cfl & Hcfl & Hdoc).
  2:{ destruct Hforce as [?|Hff]; [by left|right]. change (files d !! cq = None) in Hff.
      unfold fileAt. rewrite Hcd. fold cq. congruence. }
  rewrite Hcd in Hcfl, Hc5. fold cq in Hcfl.
  assert (cwd d' = cwd d5 /\ files d' !! cq = files d5 !! cq) as [Hc6 Hf6].
  { eapply (kept cq _ _ _ _ Hi). unfold writeEnvFile, writeRunScript. solve_keeps. }
  assert (validator_pubkey s = keys.PublicKey kp) as Hs.
  { repeat (apply bind_ok_inv in Hi as (? & [] & _ & Hi)). by injection Hi as _ <-. }
  split_and!; [congruence|by destruct (validateConfig _) as [[]| |]|exists kp, fl|exists cfl]; split_and!; congruence || done.
Qed.

(** Without --force a configuration that is there stays. *)
Lemma init_keeps_config cmd f fresh d d' s fl :
  force f = false -> fileAt d (configPath f) = Some fl ->
  runNodeInitCommand allowed marshal unmarshal peerIDForKeypair cmd f fresh d = (d', Ok s) ->
  cwd d' = cwd d /\ fileAt d' (configPath f) = Some fl.
Proof.
  intros Hno Hfl Hi. unfold runNodeInitCommand in Hi. rewrite Hno in Hi. set (cq := filepath.Abs (cwd d) (configPath f)).
  assert (filepath.ends_in (str "config.toml") cq) as Hcq by (apply filepath.ends_in_Abs, filepath.ends_in_Join; apply configName).
  apply bind_ok_inv in Hi as (? & mk & [= <- Hc] & Hi). apply bind_ok_inv in Hi as (d1 & [] & Hm & Hi).
  apply bind_ok_inv in Hi as (d2 & kp & Hk & Hi). apply bind_ok_inv in Hi as (? & peerID & [= <- Hp] & Hi).
  apply bind_ok_inv in Hi as (? & [] & [= <- Hv] & Hi). apply bind_ok_inv in Hi as (d3 & [] & Hg & Hi).
  apply bind_ok_inv in Hi as (d4 & [] & He & Hi). apply bind_ok_inv in Hi as (d5 & [] & Hw & Hi).
  destruct (keeps_MkdirAll allowed cq (dataDir f) _ _ _ Hm) as [Hc1 Hf1].
  assert (cwd d2 = cwd d1 /\ files d2 !! cq = files d1 !! cq) as [Hc2 Hf2].
  { eapply (kept cq _ _ _ _ Hk). unfold loadOrGenerateKeypair. solve_keeps. }
  assert (cwd d3 = cwd d2 /\ files d3 !! cq = files d2 !! cq) as [Hc3 Hf3].
  { eapply (kept cq _ _ _ _ Hg). unfold copyGenesisFile. solve_keeps. }
  assert (cwd d4 = cwd d3 /\ files d4 !! cq = files d3 !! cq) as [Hc4 Hf4].
  { eapply (kept cq _ _ _ _ He). unfold ensureGenesis. solve_keeps. }
  change (files d !! cq = Some fl) in Hfl. assert (cwd d4 = cwd d) as Hcd by congruence.
  assert (files d4 !! cq = Some fl) as Hq by congruence.
  assert (d5 = d4) as ->.
  { unfold writeConfigFile, unlessPresent in Hw. apply bind_ok_inv in Hw as (? & info & Hs & Hw).
    unfold Stat in Hs. destruct (canStat _ _); [|done]. injection Hs as <- <-. unfold fileAt in Hw. rewrite Hcd in Hw. fold cq in Hw.
    rewrite Hq in Hw. by injection Hw. }
  assert (cwd d' = cwd d4 /\ files d' !! cq = files d4 !! cq) as [Hc6 Hf6].
  { eapply (kept cq _ _ _ _ Hi). unfold writeEnvFile, writeRunScript. solve_keeps. }
  split; [congruence|]. unfold fileAt. rewrite Hc6, Hcd. fold cq. congruence.
Qed.

(** The genesis [init-first-network] makes where there is none. *)
Lemma init_genesis f fresh d d' s :
  (forall k, fresh = Ok k -> keys.generated k) -> blank (genesisSource f) = true -> fileAt d (genesisPath f) = None ->
  runNodeInitCommand allowed marshal unmarshal peerIDForKeypair InitFirstNetwork f fresh d = (d', Ok s) ->
  exists kp fl, validator_pubkey s = keys.PublicKey kp /\ files d' !! filepath.Abs (cwd d) (genesisPath f) = Some fl /\
    data fl = Text (marshal (bootstrapGenesis (ChainID (initConfig f)) kp)).
Proof.
  intros Hgen Hsrc Hnone Hi. unfold runNodeInitCommand in Hi. rewrite Hsrc in Hi. set (gq := filepath.Abs (cwd d) (genesisPath f)).
  assert (filepath.ends_in defaultGenesisPath gq) as Hgq by (apply filepath.ends_in_Abs, filepath.ends_in_Join; apply genesisName).
  apply bind_ok_inv in Hi as (d1 & mk & [= <- Hc] & Hi). apply bind_ok_inv in Hi as (d1 & [] & Hm & Hi).
  apply bind_ok_inv in Hi as (d2 & kp & Hk & Hi). destruct (keeps_MkdirAll allowed gq (dataDir f) _ _ _ Hm) as [Hc1 Hf1].
  assert (cwd d2 = cwd d1 /\ files d2 !! gq = files d1 !! gq) as [Hc2 Hf2].
  { eapply (kept gq _ _ _ _ Hk). unfold loadOrGenerateKeypair. solve_keeps. }
  apply bind_ok_inv in Hi as (? & peerID & [= <- Hp] & Hi). apply bind_ok_inv in Hi as (? & [] & [= <- Hv] & Hi).
  apply bind_ok_inv in Hi as (? & [] & [= <-] & Hi).
  assert (mk = true) as -> by (revert Hc; unfold checkCommand; destruct (blank (peers f)); cbn; [by intros [= ->]|done]).
  apply bind_ok_inv in Hi as (d4 & [] & He & Hi).
  apply (unlessPresent_written false) in He as (Hc4 & fl & Hfl & Hdata).
  2:{ right. unfold fileAt. rewrite Hc2, Hc1. fold gq. by rewrite Hf2, Hf1. }
  rewrite Hc2, Hc1 in Hfl. fold gq in Hfl.
  assert (cwd d' = cwd d4 /\ files d' !! gq = files d4 !! gq) as [_ Hf5].
  { eapply (kept gq _ _ _ _ Hi). unfold writeConfigFile, writeEnvFile, writeRunScript. solve_keeps. }
  exists kp, fl. split_and!; [|congruence|done].
  repeat (apply bind_ok_inv in Hi as (? & [] & _ & Hi)). by injection Hi as _ <-.
Qed.

(** ** Starting *)

(** Keys of the configuration with values of their type. *)
Definition typedKey (kv : bytes * tomlValue) : bool :=
  bool_decide (fst kv ∈ map str match snd kv with
    | TString _ => ["chain_id"; "node.keypair_path"; "node.db_path"; "node.genesis_path"; "p2p.listen"; "grpc.listen"; "grpc.tls_cert_file";
                    "grpc.tls_key_file"; "grpc.tls_client_ca_file"; "metrics.listen"]
    | TList _ => ["p2p.peers"]
    | TBool _ => ["p2p.enable_mdns"]
    | TInt _ => ["consensus.propose_delay_ms"; "consensus.propose_timeout_ms"; "consensus.prevote_timeout_ms"; "consensus.precommit_timeout_ms"]
    end%string).

(** Strings that %q writes as TOML reads them: printable ASCII. *)
Definition plainString (s : bytes) : bool := forallb (fun b => (32 <=? byte_to_Z b) && (byte_to_Z b <=? 126)) s.
Definition plainValue (kv : bytes * tomlValue) : bool :=
  match snd kv with TString s => plainString s | TList l => forallb plainString l | _ => true end.

(** The decoder sets the field of every key it finds and leaves the others. *)
Definition decodesKeys (decode : tomlDoc -> Config -> option Config) : Prop :=
  forall doc cfg, NoDup (map fst doc) -> forallb typedKey doc = true -> forallb plainValue doc = true -> decode doc cfg = Some (foldl setKey cfg doc).

(** What init writes is printable. *)
Definition plainConfig f : Prop := forallb plainValue (configDoc (initConfig f)) = true.

Lemma configDoc_keys cfg : NoDup (map fst (configDoc cfg)) /\ forallb typedKey (configDoc cfg) = true.
Proof.
  unfold configDoc, optionalKey. do 3 destruct (bool_decide _).
  all: split; [apply (bool_decide_unpack _)|]; by vm_compute.
Qed.

Lemma setKey_configDoc cfg : ClientRoles (CGRPC cfg) = [] -> foldl setKey defaultConfig (configDoc cfg) = cfg.
Proof.
  destruct cfg as [[n1 n2 n3] [p1 p2 p3] [g1 g2 g3 g4 g5] [m] [c1 c2 c3 c4] ch]. cbn [CGRPC ClientRoles]. intros ->.
  unfold configDoc, optionalKey. cbn [CGRPC CNode CP2P CMetrics CConsensus ChainID TLSCertFile TLSKeyFile TLSClientCAFile].
  do 3 (case_bool_decide; [subst|]). all: reflexivity.
Qed.

Lemma orDefault_idem s d : orDefault (orDefault s d) d = orDefault s d.
Proof. unfold orDefault. destruct (blank s) eqn:E; [by destruct (blank d)|by rewrite E]. Qed.

Lemma orDefaultMS_idem v d : orDefaultMS (orDefaultMS v d) d = orDefaultMS v d.
Proof. unfold orDefaultMS. destruct (v <=? 0) eqn:E; [by destruct (d <=? 0)|by rewrite E]. Qed.

Lemma normalizeConfig_idem cfg : normalizeConfig (normalizeConfig cfg) = normalizeConfig cfg.
Proof. unfold normalizeConfig. cbn. by rewrite !orDefault_idem, !orDefaultMS_idem. Qed.

(** Where the paths of the configuration do not depend on the working directory. *)
Definition tlsAbsolute f : Prop :=
  Forall (fun p => blank p = true \/ filepath.IsAbs p = true) [grpcTLSCertFile f; grpcTLSKeyFile f; grpcTLSClientCAFile f].

Lemma initConfig_paths f :
  filepath.IsAbs (dataDir f) = true ->
  CNode (initConfig f) = mkNodeConfig (keyPath f) (dbPath f) (genesisPath f).
Proof.
  intros Ha. unfold initConfig, normalizeConfig. cbn [CNode KeypairPath DBPath GenesisPath]. unfold orDefault.
  by rewrite !absolute_not_blank by by apply filepath.Join_abs.
Qed.

Lemma resolve_same base f :
  filepath.IsAbs (dataDir f) = true -> tlsAbsolute f -> resolveConfigPaths (resolveIn base) (initConfig f) = initConfig f.
Proof.
  intros Ha Ht. assert (forall p, filepath.IsAbs p = true -> resolvePath (resolveIn base) p = p) as Habs.
  { intros p Hp. unfold resolvePath, resolveIn. rewrite Hp. by destruct (blank p). }
  assert (forall p, blank p = true \/ filepath.IsAbs p = true -> resolvePath (resolveIn base) p = p) as Hor.
  { intros p [Hp|Hp]; [unfold resolvePath; by rewrite Hp|by apply Habs]. }
  unfold resolveConfigPaths. rewrite initConfig_paths by done. cbn [KeypairPath DBPath GenesisPath].
  rewrite !Habs by by apply filepath.Join_abs. rewrite <- initConfig_paths by done.
  inversion_clear Ht as [|? ? H1 Ht']. inversion_clear Ht' as [|? ? H2 Ht'']. inversion_clear Ht'' as [|? ? H3 _].
  unfold initConfig at 3 4 5. cbn [normalizeConfig CGRPC TLSCertFile TLSKeyFile TLSClientCAFile]. by rewrite !Hor.
Qed.

Lemma initConfig_loads decode base f :
  decodesKeys decode -> plainConfig f -> filepath.IsAbs (dataDir f) = true -> tlsAbsolute f -> validateConfig (initConfig f) = Ok tt ->
  loadConfig (Decoded (fun cfg => default cfg (decode (configDoc (initConfig f)) cfg))) (Some (resolveIn base)) = Ok (initConfig f).
Proof.
  intros Hd Hpl Ha Ht Hv. destruct (configDoc_keys (initConfig f)) as [Hnd Htk]. cbn [loadConfig]. rewrite Hd by done. unfold default, id.
  rewrite setKey_configDoc by done.
  assert (normalizeConfig (initConfig f) = initConfig f) as -> by apply normalizeConfig_idem.
  rewrite resolve_same by done. by rewrite Hv.
Qed.

Definition permissive (a : Allowed) : Prop := forall p, canStat a p = true /\ canRead a p = true /\ canWrite a p = true /\ canMkdir a p = true.

Lemma ensureGenesis_permissive path chain kp d :
  permissive allowed -> exists d', ensureGenesis allowed marshal path chain kp d = (d', Ok tt).
Proof.
  intros Hp. unfold ensureGenesis, bind, Stat. rewrite (proj1 (Hp _)). destruct (fileAt d path); [by eexists|].
  unfold ensureParentDir, MkdirAll. destruct (_ || _); cbn [ret]; rewrite ?(proj2 (proj2 (proj2 (Hp _)))); unfold WriteFile;
    rewrite (proj1 (proj2 (proj2 (Hp _)))); by eexists.
Qed.
End Init.

Section Start.
Context `{PlatformLaws}.
Context (marshal : genesis.Genesis -> bytes) (unmarshal : bytes -> res genesis.Genesis) (peerIDForKeypair : keys.Keypair -> res bytes).
Context (decode : tomlDoc -> Config -> option Config).

Lemma ensureGenesis_present allowed path chain kp d fl :
  permissive allowed -> fileAt d path = Some fl -> ensureGenesis allowed marshal path chain kp d = (d, Ok tt).
Proof. intros Hp Hf. unfold ensureGenesis, bind, Stat. by rewrite (proj1 (Hp _)), Hf. Qed.

(** The disk does not depend on where one stands. *)
Lemma Abs_dataDir f wd wd' name : filepath.IsAbs (dataDir f) = true -> filepath.Abs wd (filepath.Join (dataDir f) name) = filepath.Abs wd' (filepath.Join (dataDir f) name).
Proof. intros Ha. unfold filepath.Abs. by rewrite filepath.Join_abs. Qed.

Lemma prepared_starts allowed allowed' cmd f fresh fresh' d d' s wd :
  (forall seed, take 32 (ed25519_NewKeyFromSeed seed) = seed) -> decodesKeys decode -> plainConfig f ->
  (forall k, fresh = Ok k -> keys.generated k) -> permissive allowed' ->
  filepath.IsAbs (dataDir f) = true -> tlsAbsolute f -> (force f = true \/ fileAt d (configPath f) = None) ->
  runNodeInitCommand allowed marshal unmarshal peerIDForKeypair cmd f fresh d = (d', Ok s) ->
  exists d2 kp, startNode allowed' marshal decode (configPath f) fresh' (mkDisk wd (files d')) = (d2, Ok (initConfig f, kp)) /\
    keys.PublicKey kp = validator_pubkey s /\ (fileAt d (keyPath f) = None -> keys.generated kp) /\
    (is_Some (fileAt (mkDisk wd (files d')) (genesisPath f)) -> d2 = mkDisk wd (files d')).
Proof.
  intros Hseed Hdec Hpl Hgen Hperm Ha Ht Hforce Hi.
  destruct (init_files Hseed marshal unmarshal peerIDForKeypair allowed _ _ _ _ _ _ Hgen Hforce Hi) as (_ & Hv & (kp & fl & Hs & Hfl & Hkf & Hnew) & cfl & Hcfl & Hdoc).
  pose proof (fun name => Abs_dataDir f wd (cwd d) name Ha) as Hwd.
  destruct (configDoc_keys (initConfig f)) as [Hnd Htk].
  unfold startNode, bind at 1, readConfig. rewrite (proj1 (Hperm _)). cbn [negb]. unfold fileAt at 1. cbn [cwd files]. unfold configPath in *.
  rewrite (Hwd (str "config.toml")), Hcfl, (proj1 (proj2 (Hperm _))), Hdoc, Hdec by done. cbn [negb]. unfold bind at 1, ret at 1.
  rewrite initConfig_loads by done. unfold bind at 1. rewrite initConfig_paths by done. cbn [KeypairPath GenesisPath].
  unfold keyPath in *. rewrite (loadOrGenerate_found allowed' (filepath.Join (dataDir f) defaultKeypairPath) fresh' _ fl kp); [|apply Hperm|apply Hperm|cbn [cwd files]; by rewrite (Hwd defaultKeypairPath)|done].
  destruct (fileAt (mkDisk wd (files d')) (genesisPath f)) as [gfl|] eqn:Eg.
  - exists (mkDisk wd (files d')), kp. split_and!; try done. unfold bind. by rewrite (ensureGenesis_present allowed' (genesisPath f) _ _ _ gfl).
  - destruct (ensureGenesis_permissive marshal allowed' (genesisPath f) (ChainID (initConfig f)) kp (mkDisk wd (files d')) Hperm) as [d2 Hg].
    exists d2, kp. split_and!; try done. unfold bind. by rewrite Hg.
Qed.

(** C35.  A prepared directory is the one the node starts on.  Let init succeed on an absolute
    data directory, with TLS files that are absolute or not given and no
    string outside printable ASCII.  If there was no config.toml yet, or with
    --force, the node started on that config.toml, from any working directory
    and able to use the files, comes up with exactly the configuration init
    validated and with the key init announced, and makes no other.  Otherwise
    the config.toml that was there is left as it is. *)
Theorem init_then_start allowed allowed' cmd f fresh fresh' d d' s wd :
  (forall seed, take 32 (ed25519_NewKeyFromSeed seed) = seed) -> decodesKeys decode -> plainConfig f ->
  (forall k, fresh = Ok k -> keys.generated k) -> permissive allowed' ->
  filepath.IsAbs (dataDir f) = true -> tlsAbsolute f ->
  runNodeInitCommand allowed marshal unmarshal peerIDForKeypair cmd f fresh d = (d', Ok s) ->
  (force f = true \/ fileAt d (configPath f) = None ->
   exists d2 kp, startNode allowed' marshal decode (configPath f) fresh' (mkDisk wd (files d')) = (d2, Ok (initConfig f, kp)) /\
     keys.PublicKey kp = validator_pubkey s) /\
  (force f = false -> is_Some (fileAt d (configPath f)) -> fileAt d' (configPath f) = fileAt d (configPath f)).
Proof.
  intros Hseed Hdec Hpl Hgen Hperm Ha Ht Hi. split.
  - intros Hforce. destruct (prepared_starts allowed allowed' cmd f fresh fresh' d d' s wd) as (d2 & kp & ? & ? & _); [done..|]. by exists d2, kp.
  - intros Hno [fl Hfl]. rewrite Hfl. by eapply init_keeps_config.
Qed.

(** ** The quick start of the README *)
Definition everything : Allowed := mkAllowed (fun _ => true) (fun _ => true) (fun _ => true) (fun _ => true).
Definition setKeys (doc : tomlDoc) (cfg : Config) : option Config := Some (foldl setKey cfg doc).

Definition readmeFlags : InitFlags :=
  mkInitFlags (str "frg-first") (str "frg-devnet-1") (p2pListen defaultInitFlags) defaultGRPCListenAddr [] [] [] defaultMetricsListenAddr [] false false []
    false (containerEngine defaultInitFlags) (containerImage defaultInitFlags) (containerName defaultInitFlags) false false.

(** A relative data directory is not found again.  The README's first network,
    init-first-network --data-dir frg-first, then cd frg-first and frg-node
    --config config.toml: init announces the key [k1] and bonds it in its
    genesis, but the paths it wrote are taken relative to config.toml a
    second time, so the node makes a new key [k2] in frg-first/frg-first and
    a genesis of its own for it. *)
Theorem relative_dir_new_key peerID k1 k2 :
  let init := runNodeInitCommand everything marshal unmarshal (fun _ => Ok peerID) InitFirstNetwork readmeFlags (Ok k1) (mkDisk (str "/srv") ∅) in
  let start := startNode everything marshal setKeys (str "config.toml") (Ok k2) (mkDisk (str "/srv/frg-first") (files (fst init))) in
  exists s cfg, snd init = Ok s /\ validator_pubkey s = keys.PublicKey k1 /\ snd start = Ok (cfg, k2) /\
    KeypairPath (CNode cfg) = str "/srv/frg-first/frg-first/frg.key" /\
    data <$> files (fst start) !! str "/srv/frg-first/genesis.json" = Some (Text (marshal (bootstrapGenesis (str "frg-devnet-1") k1))) /\
    data <$> files (fst start) !! str "/srv/frg-first/frg-first/genesis.json" = Some (Text (marshal (bootstrapGenesis (str "frg-devnet-1") k2))).
Proof.
  cbv zeta. eexists _, _. split; [vm_compute; reflexivity|]. split; [reflexivity|]. split; [vm_compute; reflexivity|].
  split; [reflexivity|]. split; vm_compute; reflexivity.
Qed.
End Start.
