(* ===== verification/NodeRun.v ===== *)
(** * cmd/frg-node: the running node (main.go, metrics.go)

    [main] after its configuration, key and genesis file are at hand
    ([nodeinit.startNode]): the stores, the genesis, catching up, the metrics
    listener, the RPC server, the pool and the engine.  What the process
    finds outside (listeners, peers, libp2p, files) is [Env].  A run of
    [main] that reaches its wait for a signal is a [running]. *)

From S2P Require Import Prelude GoBytes Errors Platform Hex Tx KV Denom Ledger Staking Gas Mint Node Tree Contract BlockStore Telemetry.
From S2P Require Import StateMachine Vote BlockLoop Round Engine Genesis BlockSync CatchUp Gossip Rpc NetAddr Config.
From S2P Require Import StakingProofs StateMachineProofs BlockProofs FrameProofs ConfigProofs EngineAlone FilePath NodeInit.

Module noderun.

Record Env : Type := mkEnv
  { grpcOnly : bool;                          (* -grpc-only *)
    p2pStarts : bool;                         (* libp2p comes up *)
    listens : bytes -> bool;                  (* net.Listen on an address *)
    readable : bytes -> bool;                 (* certificate files *)
    ctxDone : nat -> nat -> bool;             (* the catch-up context *)
    peersAt : nat -> list catchup.Peer;
    passes : nat }.                           (* fuel of the catch-up *)

(** [main], from opening the database to the applied genesis.  [file] is what
    [genesis.Load] makes of the genesis file. *)
Section Prepare.
Context `{Platform} `{MapOrder} {B : Type} `{KV B}.

Definition prepareChain (db : DB B) (file : res genesis.Genesis) (chainID : bytes) : DB B * res unit :=
  let db := statemachine.New db in
  match file with
  | Err e => (db, Err e)
  | Panic => (db, Panic)
  | Ok g =>
    if bool_decide (genesis.ChainID g <> []) && bool_decide (genesis.ChainID g <> chainID)
    then (db, failf "genesis chain ID does not match configured chain ID")
    else genesis.Apply db g
  end.
End Prepare.

(** ** The metrics listener *)
Definition startMetricsServer (listens : bytes -> bool) (listenAddr : bytes) : res (option bytes) :=
  if config.blank listenAddr then Ok None else
  if negb (config.isLoopbackTCPAddress listenAddr) then failf "metrics listener must be loopback" else
  if negb (listens listenAddr) then failf "listen metrics" else Ok (Some listenAddr).

Inductive page : Type := NotFound | Unavailable | Ready | Page (text : bytes).

Definition gaugeText (kind name value : bytes) : bytes :=
  str "# TYPE " ++ name ++ str " " ++ kind ++ [x0a] ++ name ++ str " " ++ value ++ [x0a].

Record syncMetrics : Type := mkSyncMetrics { syncAttempts : Z; syncFailures : Z }.

Section Metrics.
Context `{Platform} {B : Type} `{KV B}.

Definition metricsText (uptime : bytes) (st : rpc.StatusResponse) (m : rpc.nodeMetrics) (y : syncMetrics) : bytes :=
  let gauge name v := gaugeText (str "gauge") (str name) (denom.big_String v) in
  let counter name v := gaugeText (str "counter") (str name) (denom.big_String v) in
  gaugeText (str "gauge") (str "frg_uptime_seconds") uptime ++
  gauge "frg_block_height"%string (rpc.sHeight st) ++
  gauge "frg_peer_count"%string (rpc.sPeerCount st) ++
  gauge "frg_mempool_length"%string (rpc.sMempoolLen st) ++
  gauge "frg_validator_count"%string (rpc.sValidatorCount st) ++
  counter "frg_rpc_requests_total"%string (rpc.rpcRequests m) ++
  counter "frg_rpc_rejected_total"%string (rpc.rpcRejected m) ++
  counter "frg_transactions_accepted_total"%string (rpc.txAccepted m) ++
  counter "frg_batches_accepted_total"%string (rpc.batchAccepted m) ++
  counter "frg_sync_attempts_total"%string (syncAttempts y) ++
  counter "frg_sync_failures_total"%string (syncFailures y).

(** [uptime] is the text of the seconds since the start. *)
Definition metricsHandler (runtime : option (rpc.nodeRuntime B)) (m : rpc.nodeMetrics) (y : syncMetrics) (uptime path : bytes) : res page :=
  if bool_decide (path <> str "/metrics") && bool_decide (path <> str "/readyz") then Ok NotFound else
  if bool_decide (path = str "/readyz") then
    match runtime with
    | None => Ok Unavailable
    | Some n =>
      match rpc.sm n with
      | None => Ok Unavailable
      | Some db =>
        match statemachine.CurrentHeight db with
        | Ok _ => Ok Ready
        | Err _ => Ok Unavailable
        | Panic => Panic
        end
      end
    end
  else
    match runtime with
    | None => Panic
    | Some n =>
      match rpc.Status n with
      | Ok st => Ok (Page (metricsText uptime st m y))
      | Err _ => Ok Unavailable
      | Panic => Panic
      end
    end.
End Metrics.

(** ** The process *)
Record running (B : Type) : Type := mkRunning
  { r_db : DB B;
    r_p2p : option p2p.Node;
    r_metrics : option bytes;
    r_grpc : config.grpcServer;
    r_server : rpc.nodeGRPCServer;
    r_blockloop : option blockloop.BlockLoop;
    r_engine : option (res (engine.Engine B blockloop.BlockLoop)) }.
Arguments mkRunning {B}. Arguments r_db {B}. Arguments r_p2p {B}. Arguments r_metrics {B}. Arguments r_grpc {B}.
Arguments r_server {B}. Arguments r_blockloop {B}. Arguments r_engine {B}.

Section Main.
Context `{Platform} `{contract.Wasmtime} `{telemetry.Json} `{MapOrder} {B : Type} `{KV B}.
Context (ncpu : Z) (iter : gset (arr 32) -> list (arr 32)).

(** Joining the network: nothing in grpc-only mode; otherwise libp2p and the
    catch-up, each of which can end the process.  [None]: the catch-up needs
    more passes than there are. *)
Definition join (env : Env) (cfg : config.Config) (db : DB B) : DB B * option (res (option p2p.Node)) :=
  if grpcOnly env then (db, Some (Ok None)) else
  if negb (p2pStarts env) then (db, Some (failf "Init P2P")) else
  let p := config.CP2P cfg in
  let node := p2p.New (p2p.mkConfig (config.PListen p) (config.Peers p) (config.ChainID cfg) (config.EnableMDNS p)) in
  match catchup.catchUpCommittedBlocks (config.ChainID cfg) ncpu iter (passes env) (ctxDone env) (peersAt env) db with
  | (db, Some (Ok _)) => (db, Some (Ok (Some node)))
  | (db, Some (Err e)) => (db, Some (Err e))
  | (db, Some Panic) => (db, Some Panic)
  | (db, None) => (db, None)
  end.

(** The servers, the pool and the engine. *)
Definition serve (env : Env) (cfg : config.Config) (kp : keys.Keypair) (fuel : nat) (db : DB B) (node : option p2p.Node) : res (running B) :=
  let* metricsAddr := startMetricsServer (listens env) (config.MListen (config.CMetrics cfg)) in
  let g := config.CGRPC cfg in
  if negb (listens env (config.GListen g)) then failf "listen gRPC" else
  let* srv := config.startGRPCServer (readable env) (config.GListen g) (config.TLSCertFile g) (config.TLSKeyFile g)
                (config.TLSClientCAFile g) (config.ClientRoles g) (config.ChainID cfg) node (Some (rpc.mkMetrics 0 0 0 0)) in
  let rpcServer := config.frg srv in
  match node with
  | None => Ok (mkRunning db None metricsAddr srv rpcServer None None)
  | Some _ =>
    let bl := blockloop.NewWithChainID kp (config.ChainID cfg) in
    Ok (mkRunning db node metricsAddr srv rpcServer (Some bl) (Some (engine.Start kp (config.ChainID cfg) ncpu iter fuel db (Some bl) [])))
  end.

Definition main (env : Env) (cfg : config.Config) (kp : keys.Keypair) (fuel : nat) (file : res genesis.Genesis) (db : DB B) :
    DB B * option (res (running B)) :=
  match prepareChain db file (config.ChainID cfg) with
  | (db, Err e) => (db, Some (Err e))
  | (db, Panic) => (db, Some Panic)
  | (db, Ok _) =>
    match join env cfg db with
    | (db, Some (Ok node)) => (db, Some (serve env cfg kp fuel db node))
    | (db, Some (Err e)) => (db, Some (Err e))
    | (db, Some Panic) => (db, Some Panic)
    | (db, None) => (db, None)
    end
  end.

(** The runtime the RPC server and the metrics page ask. *)
Definition runtimeOf (env : Env) (peerCount : Z) (r : running B) : rpc.nodeRuntime B :=
  rpc.mkRuntime (grpcOnly env) ((fun _ => peerCount) <$> r_p2p r) (r_blockloop r) (Some (r_db r)) (Some (r_db r)) (r_db r)
    (match r_engine r with Some (Ok e) => Some (engine.status e) | _ => None end).
End Main.
End noderun.

(** * cmd/frg-node: from one start to the next *)

Import blockstore noderun.

Section Life.
Context `{Platform} `{contract.Wasmtime} `{telemetry.Json} `{MapOrderLaws} {B : Type} `{KVLaws B}.
Implicit Types (db : DB B) (g : genesis.Genesis).

(** One run of the process: the genesis file it finds, its configured chain,
    and the blocks it tries to apply, from wherever they come. *)
Record session : Type := mkSession { file : res genesis.Genesis; chain : bytes; blocksTried : list attempt }.

Definition runSession db (s : session) : DB B :=
  match prepareChain db (file s) (chain s) with
  | (db, Ok _) => foldl tryBlock db (blocksTried s)
  | (db, _) => db
  end.

Definition session_ok (s : session) : Prop :=
  Forall attempt_ok (blocksTried s) /\ forall g, file s = Ok g -> escrow_apart (genesis.Validators g).

(** A genesis the configured chain may start from. *)
Definition for_chain g (chainID : bytes) : Prop := genesis.ChainID g = [] \/ genesis.ChainID g = chainID.

(** A database whose chain has started. *)
Record started db : Prop := mkStarted
  { st_formats : formats_ok db;
    st_supply : statemachine.CurrentTotalSupply db = (ledger.totalBalance db, true);
    st_genesis : statemachine.GenesisApplied db = true;
    st_height : is_Ok (statemachine.CurrentHeight db) = true }.

Lemma New_fresh db : fresh db -> fresh (statemachine.New db).
Proof.
  intros [Hb Hn Hv Hm]. unfold statemachine.New. case_match; constructor; try done.
  intros k Hk. rewrite putMeta_get, decide_False by congruence. by apply Hm.
Qed.

Lemma New_started db : started db -> statemachine.New db = db.
Proof.
  intros [_ Hs _ _]. unfold statemachine.CurrentTotalSupply in Hs. unfold statemachine.New.
  by destruct (kv_Get (meta db) statemachine.totalSupplyKey).
Qed.

Lemma chain_check g chainID :
  bool_decide (genesis.ChainID g <> []) && bool_decide (genesis.ChainID g <> chainID) = false <-> for_chain g chainID.
Proof.
  unfold for_chain. rewrite andb_false_iff, !bool_decide_eq_false.
  split; intros [Hc|Hc]; auto; [left|right]; by apply dec_stable.
Qed.

Lemma prepare_chain db g chainID :
  for_chain g chainID -> prepareChain db (Ok g) chainID = genesis.Apply (statemachine.New db) g.
Proof. intros Hc. unfold prepareChain. by rewrite (proj2 (chain_check g chainID)). Qed.

Lemma prepare_inv db file chainID db' :
  prepareChain db file chainID = (db', Ok tt) ->
  exists g, file = Ok g /\ for_chain g chainID /\ genesis.Apply (statemachine.New db) g = (db', Ok tt).
Proof.
  unfold prepareChain. destruct file as [g| |]; [|done..]. case_match eqn:Eg; [done|]. intros Ha. exists g.
  by rewrite <- chain_check.
Qed.

Lemma Apply_started db g : started db -> genesis.Apply db g = (db, Ok tt).
Proof.
  intros [_ _ Hg Hh]. unfold genesis.Apply. destruct (statemachine.CurrentHeight db); [|done..]. by rewrite Hg.
Qed.

Lemma prepare_fresh db file chainID db' r :
  fresh db -> prepareChain db file chainID = (db', r) ->
  match r with
  | Ok _ => exists g, file = Ok g /\ for_chain g chainID /\ genesis.seed g (statemachine.New db) = Ok db'
  | _ => fresh db'
  end.
Proof.
  intros Hf%New_fresh Hp. destruct r as [[]|e|].
  - apply prepare_inv in Hp as (g & -> & Hc & Ha). exists g. split_and!; [done..|]. by apply Apply_seed.
  - unfold prepareChain in Hp. destruct file as [g| |]; [|by injection Hp as <- _|done].
    case_match; [by injection Hp as <- _|]. rewrite Apply_fresh in Hp by done. by apply Update_err in Hp as ->.
  - unfold prepareChain in Hp. destruct file as [g| |]; [|done|by injection Hp as <-].
    case_match; [done|]. rewrite Apply_fresh in Hp by done. by apply Update_err in Hp as ->.
Qed.

Lemma GenesisApplied_frame db db' :
  kv_Get (meta db') statemachine.genesisAppliedKey = kv_Get (meta db) statemachine.genesisAppliedKey ->
  statemachine.GenesisApplied db' = statemachine.GenesisApplied db.
Proof. unfold statemachine.GenesisApplied. by intros ->. Qed.

Lemma tryBlocks_started db attempts : Forall attempt_ok attempts -> started db -> started (foldl tryBlock db attempts).
Proof.
  intros Ha. revert db. induction Ha as [|a attempts Ha _ IH]; intros db Hs; [done|]. cbn [foldl]. apply IH.
  destruct Hs as [Hf Hsup Hg Hh]. destruct (tryBlock_supply db a Ha Hf) as (Hf' & Ht & Hgap); [by rewrite Hsup|].
  destruct a as [[[ncpu iter] b] chainID]. unfold tryBlock in *. constructor; [done| | |].
  - rewrite Hsup in Hgap. apply injective_projections; [cbn [fst] in *; lia|exact Ht].
  - rewrite <- Hg. apply GenesisApplied_frame. apply ApplyBlock_frame. unfold chain_keys.
    rewrite !not_elem_of_cons. split_and!; try key_ne. apply not_elem_of_nil.
  - destruct (statemachine.ApplyBlockForChain ncpu iter db b chainID) as [db' r] eqn:E. cbn [fst]. destruct (is_Ok r) eqn:Er.
    + destruct r as [r| |]; [|done..]. apply applied_height in E as (cur & _ & _ & ->). done.
    + pose proof (rejected_unchanged ncpu iter db b chainID) as Hr. rewrite E in Hr. cbn in Hr. by rewrite Hr.
Qed.

Lemma runSession_started db s : session_ok s -> started db -> started (runSession db s).
Proof.
  intros [Ha _] Hs. unfold runSession, prepareChain. rewrite New_started by done. destruct (file s) as [g| |]; [|done..].
  destruct (_ && _); [done|]. rewrite Apply_started by done. by apply tryBlocks_started.
Qed.

Lemma seed_started g db db' : fresh db -> escrow_apart (genesis.Validators g) -> genesis.seed g db = Ok db' -> started db'.
Proof. intros Hf Hap Hs. destruct (seed_spec g db db' Hf Hap Hs) as (? & ? & ? & Hh & _). constructor; try done. by rewrite Hh. Qed.

Lemma prepare_accepts db g chainID :
  fresh db -> escrow_apart (genesis.Validators g) -> for_chain g chainID -> well_formed g ->
  exists db', prepareChain db (Ok g) chainID = (db', Ok tt).
Proof.
  intros Hf Hap Hc Hw. rewrite prepare_chain by done. pose proof (New_fresh db Hf) as Hn.
  destruct (well_formed_seed _ g Hn Hap Hw) as [db' Hs]. exists db'. rewrite Apply_fresh by done. apply Update_ok. by rewrite Hs.
Qed.

(** A first run either leaves the database new or starts the chain; a
    well-formed genesis of its chain starts it. *)
Lemma runSession_fresh db s :
  session_ok s -> fresh db ->
  (fresh (runSession db s) /\ forall g, file s = Ok g -> for_chain g (chain s) -> ~ well_formed g) \/ started (runSession db s).
Proof.
  intros [Ha Hap] Hf. unfold runSession. destruct (prepareChain db (file s) (chain s)) as [db1 r] eqn:Hp.
  pose proof (prepare_fresh _ _ _ _ _ Hf Hp) as Hr. destruct r as [[]|e|].
  - destruct Hr as (g & Hg & _ & Hs). right. apply tryBlocks_started; [done|].
    eapply seed_started; [by apply New_fresh|by apply Hap|done].
  - left. split; [done|]. intros g Hg Hc Hw. rewrite Hg in Hp. destruct (prepare_accepts db g (chain s)) as [d Hd]; auto. congruence.
  - left. split; [done|]. intros g Hg Hc Hw. rewrite Hg in Hp. destruct (prepare_accepts db g (chain s)) as [d Hd]; auto. congruence.
Qed.

(** C2.  Money is accounted for over the whole life of a node.  Start a node on a new
    database, stop it and start it again any number of times, on whatever
    genesis files and configured chains it finds, and let every run try any
    blocks of plain transactions.  Until a run finds a well-formed genesis of
    its chain the database may stay as good as new.  Once the chain has
    started, the recorded supply is the sum of all balances, all formats are
    valid, the height is readable, and a further start on any genesis of its
    chain changes nothing. *)
Theorem lifetime_supply_exact db sessions :
  fresh db -> Forall session_ok sessions ->
  let db' := foldl runSession db sessions in
  (fresh db' /\ forall s g, s ∈ sessions -> file s = Ok g -> for_chain g (chain s) -> ~ well_formed g) \/
  (formats_ok db' /\ statemachine.CurrentTotalSupply db' = (ledger.totalBalance db', true) /\
   is_Ok (statemachine.CurrentHeight db') = true /\
   forall g chainID, for_chain g chainID -> prepareChain db' (Ok g) chainID = (db', Ok tt)).
Proof.
  intros Hf Hs. cbv zeta.
  assert ((fresh (foldl runSession db sessions) /\
           forall s g, s ∈ sessions -> file s = Ok g -> for_chain g (chain s) -> ~ well_formed g) \/
          started (foldl runSession db sessions)) as [Hl|Hst].
  - induction sessions as [|s l IH] using rev_ind; [left; split; [done|]; intros ? ? []%not_elem_of_nil|].
    apply Forall_app in Hs as [Hl Hs]. rewrite Forall_singleton in Hs. rewrite foldl_snoc. destruct (IH Hl) as [[Hfr Hno]|Hst]; [|right; by apply runSession_started].
    destruct (runSession_fresh _ s Hs Hfr) as [[Hfr' Hno']|Hst]; [left|by right]. split; [done|].
    intros s' g [Hin| ->%list_elem_of_singleton]%elem_of_app; [by eapply Hno|by apply Hno'].
  - by left.
  - right. pose proof Hst as [? ? ? ?]. split_and!; try done.
    intros g chainID Hc. rewrite prepare_chain, New_started by done. by apply Apply_started.
Qed.
End Life.

(** * cmd/frg-node: the first network *)

Section FirstNetwork.
Context `{PlatformLaws} `{contract.Wasmtime} `{telemetry.Json} `{MapOrderLaws} {B : Type} `{KVLaws B}.
Context (ncpu : Z) (iter : gset (arr 32) -> list (arr 32)).
Implicit Types (db : DB B) (f : nodeinit.InitFlags).

(** The process gets what it asks for and is alone. *)
Record quiet_start (env : Env) : Prop := mkQuietStart
  { qs_full : grpcOnly env = false;
    qs_p2p : p2pStarts env = true;
    qs_listens : forall a, listens env a = true;
    qs_readable : forall a, readable env a = true;
    qs_peers : peersAt env 0 = [];
    qs_passes : (0 < passes env)%nat }.

Lemma join_alone env cfg db bonds :
  quiet_start env -> staking.BondedAmounts db = Ok bonds -> statemachine.CurrentHeight db = Ok 0 ->
  exists node, join ncpu iter env cfg db = (db, Some (Ok (Some node))).
Proof.
  intros [Hf Hp _ _ Hpe Hn] Hb Hh. unfold join. rewrite Hf, Hp. cbn [negb]. unfold catchup.catchUpCommittedBlocks. rewrite Hb.
  destruct bonds as [vs ss], (passes env) as [|fuel]; [lia|]. cbn [catchup.catchUpLoop]. unfold catchup.catchUpPass. rewrite Hh, Hpe.
  by eexists.
Qed.

(** A valid configuration whose TLS files go together gets its servers. *)
Lemma servers_start env cfg chainID node m :
  quiet_start env -> config.validateConfig cfg = Ok tt -> config_ok cfg ->
  (config.TLSCertFile (config.CGRPC cfg) = [] <-> config.TLSKeyFile (config.CGRPC cfg) = []) ->
  (config.TLSCertFile (config.CGRPC cfg) = [] -> config.TLSClientCAFile (config.CGRPC cfg) = []) ->
  exists metricsAddr srv, startMetricsServer (listens env) (config.MListen (config.CMetrics cfg)) = Ok metricsAddr /\
    let g := config.CGRPC cfg in
    config.startGRPCServer (readable env) (config.GListen g) (config.TLSCertFile g) (config.TLSKeyFile g) (config.TLSClientCAFile g) (config.ClientRoles g) chainID node m = Ok srv.
Proof.
  intros [_ _ Hl Hr _ _] Hv [_ _ _ _ Htls Hm Hro] Hck Hca. set (g := config.CGRPC cfg) in *.
  assert (exists ma, startMetricsServer (listens env) (config.MListen (config.CMetrics cfg)) = Ok ma) as [ma Hms].
  { unfold startMetricsServer. destruct Hm as [-> | ->]; [by eexists|]. rewrite Hl. cbn [negb]. by destruct (config.blank _); eexists. }
  exists ma. destruct (rpc.newRPCAuthorizer _ _) as [a| |] eqn:Ea; [|done..].
  unfold config.startGRPCServer. cbv zeta. rewrite Ea.
  replace (Bool.eqb _ _) with true.
  2:{ symmetry. apply eqb_true_iff. by apply bool_decide_ext. }
  cbn [negb]. case_bool_decide as Hc.
  - rewrite (bool_decide_eq_true_2 (config.TLSClientCAFile g = [])) by auto. cbn [negb andb].
    destruct (config.requiresGRPCTLS _); [by destruct (Htls eq_refl)|]. cbn [andb obind]. by eexists.
  - cbn [andb]. replace (_ && _) with false.
    + cbn [obind]. rewrite !Hr. cbn [negb andb]. case_bool_decide; by eexists.
    + symmetry. destruct (config.requiresGRPCTLS _); [|done]. cbn [andb]. apply noMutualTLS_false. by apply Htls.
Qed.

(** The chain of the node's own genesis is in its hands. *)
Lemma bootstrap_chain db chainID kp :
  fresh db -> staking.escrowAccount (keys.PublicKey kp) <> keys.PublicKey kp ->
  exists db', genesis.Apply db (config.bootstrapGenesis chainID kp) = (db', Ok tt) /\
    chain_at kp staking.minBondAmount 0 db' /\ statemachine.LoadConsensusState db' = [] /\
    (forall h r t, kv_Get (meta db') (statemachine.voteKey h r t) = None) /\
    statemachine.CurrentTotalSupply db' = (ledger.totalBalance db', true).
Proof.
  intros Hf Hne. destruct (bootstrap_alone db chainID kp Hf Hne) as (db' & Ha & Hb & Hh & Hm & _ & Hs). exists db'.
  assert (forall h r t, kv_Get (meta db') (statemachine.voteKey h r t) = None) as Hv.
  { intros h r t. apply Hm; apply prefix_ne; by vm_compute. }
  split_and!; try done.
  - constructor; try done; [by rewrite Hs|]. rewrite Hs. cbn [fst]. unfold ledger.BalanceOfTx, ledger.readBalance, ledger.totalBalance.
    destruct (kv_Get (balances db') _) as [v|] eqn:E; [by apply (kv_sum_ge _ _ _ _ (fun w => proj1 (be_dec_range w))) in E|].
    apply sumZ_nonneg, Forall_map, Forall_forall. intros; apply be_dec_range.
  - unfold statemachine.LoadConsensusState. rewrite Hm by (by vm_compute). done.
Qed.

Lemma start_alone fuel chainID kp db :
  chain_at kp staking.minBondAmount 0 db -> statemachine.LoadConsensusState db = [] ->
  (forall h r t, kv_Get (meta db) (statemachine.voteKey h r t) = None) ->
  exists e, engine.Start kp chainID ncpu iter fuel db (Some (blockloop.NewWithChainID kp chainID)) [] = Ok e /\
    engine.db e = db /\ alone kp staking.minBondAmount 0 e /\ engine.delayed e = 1%nat.
Proof.
  intros Hc Hl Hv. unfold engine.Start, engine.restored. rewrite (ca_height _ _ _ _ Hc), Hl. change (zlen [] >? 0) with false. cbn [obind].
  rewrite (ca_bonds _ _ _ _ Hc). cbn [obind]. rewrite elected_alone by done. cbn [obind]. rewrite bool_decide_eq_true_2 by done.
  eexists. split; [reflexivity|]. split; [reflexivity|]. split; [|reflexivity]. constructor; try done.
  by eexists.
Qed.

Lemma main_alone env cfg kp fuel db db1 chain_genesis :
  quiet_start env -> config.validateConfig cfg = Ok tt -> config_ok cfg ->
  (config.TLSCertFile (config.CGRPC cfg) = [] <-> config.TLSKeyFile (config.CGRPC cfg) = []) ->
  (config.TLSCertFile (config.CGRPC cfg) = [] -> config.TLSClientCAFile (config.CGRPC cfg) = []) ->
  for_chain chain_genesis (config.ChainID cfg) -> genesis.Apply (statemachine.New db) chain_genesis = (db1, Ok tt) ->
  chain_at kp staking.minBondAmount 0 db1 ->
  exists r, main ncpu iter env cfg kp fuel (Ok chain_genesis) db = (db1, Some (Ok r)) /\ r_db r = db1 /\
    r_engine r = Some (engine.Start kp (config.ChainID cfg) ncpu iter fuel db1 (Some (blockloop.NewWithChainID kp (config.ChainID cfg))) []).
Proof.
  intros Hq Hv Hok Hck Hca Hfor Ha Hc. destruct (join_alone env cfg db1 _ Hq (ca_bonds _ _ _ _ Hc) (ca_height _ _ _ _ Hc)) as [node Hj].
  destruct (servers_start env cfg (config.ChainID cfg) (Some node) (Some (rpc.mkMetrics 0 0 0 0)) Hq Hv Hok Hck Hca) as (ma & srv & Hm & Hs).
  unfold main. rewrite prepare_chain, Ha, Hj by done. unfold serve. rewrite Hm. cbn [obind]. rewrite (qs_listens _ Hq). cbn [negb].
  rewrite Hs. cbn [obind]. eexists. split; [reflexivity|]. split; reflexivity.
Qed.

Context (marshal : genesis.Genesis -> bytes) (unmarshal : bytes -> res genesis.Genesis) (peerIDForKeypair : keys.Keypair -> res bytes).
Context (decode : nodeinit.tomlDoc -> config.Config -> option config.Config).

(** JSON gives back a genesis of one validator and one balance. *)
Definition genesis_reads_back : Prop :=
  forall chainID kp, Forall (fun b => config.chainChar b = true) chainID ->
    unmarshal (marshal (config.bootstrapGenesis chainID kp)) = Ok (config.bootstrapGenesis chainID kp).

Definition tls_together f : Prop :=
  (nodeinit.grpcTLSCertFile f = [] <-> nodeinit.grpcTLSKeyFile f = []) /\
  (nodeinit.grpcTLSCertFile f = [] -> nodeinit.grpcTLSClientCAFile f = []).

(** A new directory for a network of its own: no key, configuration or genesis yet. *)
Definition new_directory f (d : nodeinit.Disk) : Prop :=
  filepath.IsAbs (nodeinit.dataDir f) = true /\ tlsAbsolute f /\ tls_together f /\ config.blank (nodeinit.genesisSource f) = true /\
  nodeinit.fileAt d (nodeinit.keyPath f) = None /\ nodeinit.fileAt d (nodeinit.configPath f) = None /\
  nodeinit.fileAt d (nodeinit.genesisPath f) = None.

(** The genesis file of a started first network is the node's own. *)
Lemma loads_bootstrap allowed allowed' f fresh d d' s wd kp :
  (forall seed, take 32 (ed25519_NewKeyFromSeed seed) = seed) -> genesis_reads_back ->
  (forall k, fresh = Ok k -> keys.generated k) -> permissive allowed' -> new_directory f d ->
  nodeinit.runNodeInitCommand allowed marshal unmarshal peerIDForKeypair nodeinit.InitFirstNetwork f fresh d = (d', Ok s) ->
  keys.PublicKey kp = nodeinit.validator_pubkey s -> config_ok (nodeinit.initConfig f) ->
  is_Some (nodeinit.fileAt (nodeinit.mkDisk wd (nodeinit.files d')) (nodeinit.genesisPath f)) /\
  nodeinit.Load allowed' unmarshal (nodeinit.genesisPath f) (nodeinit.mkDisk wd (nodeinit.files d')) =
    (nodeinit.mkDisk wd (nodeinit.files d'), Ok (config.bootstrapGenesis (config.ChainID (nodeinit.initConfig f)) kp)).
Proof.
  intros Hseed Hback Hgen Hperm (Ha & _ & _ & Hsrc & _ & _ & Hg) Hi Hpk [[_ Hchars] _ _ _ _ _ _].
  destruct (init_genesis marshal unmarshal peerIDForKeypair allowed f fresh d d' s Hgen Hsrc Hg Hi) as (kp' & fl & Hpk' & Hfl & Hdata).
  assert (nodeinit.fileAt (nodeinit.mkDisk wd (nodeinit.files d')) (nodeinit.genesisPath f) = Some fl) as Hat.
  { unfold nodeinit.fileAt, nodeinit.genesisPath in *. cbn [nodeinit.cwd nodeinit.files]. by rewrite (Abs_dataDir f wd (nodeinit.cwd d)). }
  split; [by rewrite Hat|]. unfold nodeinit.Load, nodeinit.bind, nodeinit.ReadFile. rewrite Hat. destruct (Hperm (filepath.Abs wd (nodeinit.genesisPath f))) as (_ & Hr & _).
  cbn [nodeinit.cwd]. rewrite Hr, Hdata. unfold nodeinit.ret. rewrite Hback by done. unfold config.bootstrapGenesis. by rewrite <- Hpk', Hpk.
Qed.

(** C36.  A first network comes up and lives.  Init-first-network in a new directory
    (absolute, TLS files given together), then the node started on it from any
    working directory with a new database, its ports free and no peers: it
    starts with the key init announced and the configuration init validated,
    applies the genesis init wrote, has that key alone bonded with the minimum
    bond and every unit accounted for, answers that it is ready, and from
    there its own engine makes block after block, as many as one likes, unless
    it reaches a limit (a block that hashes to the nil block, a supply of 2^255
    base units, the last height). *)
Theorem first_network_comes_up allowed allowed' f fresh fresh' d d' s wd env db fuel n m y uptime :
  (forall seed, take 32 (ed25519_NewKeyFromSeed seed) = seed) -> decodesKeys decode -> plainConfig f -> genesis_reads_back -> writes_blank ->
  (forall s, iter s ≡ₚ elements s) -> (forall k, fresh = Ok k -> keys.generated k) -> permissive allowed' -> new_directory f d ->
  nodeinit.runNodeInitCommand allowed marshal unmarshal peerIDForKeypair nodeinit.InitFirstNetwork f fresh d = (d', Ok s) ->
  staking.escrowAccount (nodeinit.validator_pubkey s) <> nodeinit.validator_pubkey s -> Genesis.fresh db -> quiet_start env ->
  let cfg := nodeinit.initConfig f in
  exists d2 kp g db1 r e, nodeinit.startNode allowed' marshal decode (nodeinit.configPath f) fresh' (nodeinit.mkDisk wd (nodeinit.files d')) = (d2, Ok (cfg, kp)) /\
    keys.PublicKey kp = nodeinit.validator_pubkey s /\
    nodeinit.Load allowed' unmarshal (config.GenesisPath (config.CNode cfg)) d2 = (d2, Ok g) /\
    main ncpu iter env cfg kp (S (S fuel)) (Ok g) db = (db1, Some (Ok r)) /\ r_db r = db1 /\
    staking.BondedAmounts db1 = Ok ([keys.PublicKey kp], [staking.minBondAmount]) /\
    statemachine.CurrentTotalSupply db1 = (ledger.totalBalance db1, true) /\
    metricsHandler (Some (runtimeOf env 0 r)) m y uptime (str "/readyz") = Ok Ready /\
    r_engine r = Some (Ok e) /\
    exists k e', (k <= n)%nat /\ nsteps (turn kp (config.ChainID cfg) ncpu iter (S (S fuel))) k e e' /\
      statemachine.CurrentHeight (engine.db e') = Ok (Z.of_nat k) /\ (k = n \/ at_limit (config.ChainID cfg) e').
Proof.
  intros Hseed Hdec Hpl Hback Hjson Hiter Hgen Hperm Hnew Hi Hesc Hf Hq. cbv zeta. pose proof Hnew as (Ha & Ht & [Hck Hca] & _ & Hk0 & Hc0 & _).
  destruct (prepared_starts marshal unmarshal peerIDForKeypair decode allowed allowed' nodeinit.InitFirstNetwork f fresh fresh' d d' s wd)
    as (d2 & kp & Hstart & Hpk & Hkp & Hd2); [done..|by right|done|].
  destruct (init_files Hseed marshal unmarshal peerIDForKeypair allowed nodeinit.InitFirstNetwork f fresh d d' s Hgen (or_intror Hc0) Hi) as (_ & Hv & _).
  assert (config_ok (nodeinit.initConfig f)) as Hok by (apply validateConfig_ok; [done|by apply orDefaultMS_pos]).
  destruct (loads_bootstrap allowed allowed' f fresh d d' s wd kp) as [Hsome Hload]; [done..|].
  rewrite (Hd2 Hsome) in Hstart. rewrite <- Hpk in Hesc.
  destruct (bootstrap_chain (statemachine.New db) (config.ChainID (nodeinit.initConfig f)) kp) as (db1 & Happ & Hch & Hl & Hvk & Hsup); [by apply New_fresh|done|].
  destruct (main_alone env (nodeinit.initConfig f) kp (S (S fuel)) db db1 (config.bootstrapGenesis (config.ChainID (nodeinit.initConfig f)) kp))
    as (r & Hmain & Hr & He); [done..|by right|done|done|].
  destruct (start_alone (S (S fuel)) (config.ChainID (nodeinit.initConfig f)) kp db1 Hch Hl Hvk) as (e & Hst & _ & Hal & Hdl). rewrite Hst in He.
  assert (0 < staking.minBondAmount) as Hmin by apply minBond_u256.
  destruct (lone_chain_grows kp (config.ChainID (nodeinit.initConfig f)) ncpu iter staking.minBondAmount (Hkp Hk0) Hjson Hiter Hmin fuel 0 e n Hal) as (k & e' & Hkn & Hsteps & Hal' & Hor); [lia|].
  exists (nodeinit.mkDisk wd (nodeinit.files d')), kp, (config.bootstrapGenesis (config.ChainID (nodeinit.initConfig f)) kp), db1, r, e.
  rewrite (initConfig_paths f Ha). cbn [config.GenesisPath]. split_and!; try done.
  - apply (ca_bonds _ _ _ _ Hch).
  - unfold metricsHandler, runtimeOf. cbn [rpc.sm]. rewrite Hr, (ca_height _ _ _ _ Hch). reflexivity.
  - exists k, e'. split_and!; try done. exact (ca_height _ _ _ _ (al_chain _ _ _ _ Hal')).
Qed.
End FirstNetwork.
