(* ===== verification/Validator.v ===== *)
(** * validator: stateless validation of a block (validator.go) *)

From S2P Require Import Prelude GoBytes Errors Platform Tx Node Tree.

Module validator.
Section Validate.
Context `{Platform}.

Definition Validate (b : tree.Block) (claimedRoot : arr 32) : res (arr 32) :=
  let* _ := foldM (fun _ t => tx.VerifySigs t) tt (tree.Txs b) in
  let* computed := tree.BuildRoot b in
  if negb (bool_decide (computed = claimedRoot)) then fail ErrRootMismatch else Ok computed.

Lemma verify_all txs : foldM (fun _ t => tx.VerifySigs t) tt txs = Ok tt <-> Forall (fun t => tx.VerifySigs t = Ok tt) txs.
Proof.
  induction txs as [|t txs IH]; cbn [foldM]; [by split|]. rewrite Forall_cons, <- IH.
  destruct (tx.VerifySigs t) as [[]| |]; cbn [obind]; naive_solver.
Qed.

Lemma verify_first txs t rest e :
  Forall (fun t => tx.VerifySigs t = Ok tt) txs -> tx.VerifySigs t = Err e -> foldM (fun _ t => tx.VerifySigs t) tt (txs ++ t :: rest) = Err e.
Proof. intros Htxs Ht. rewrite foldM_app, (proj2 (verify_all txs) Htxs). cbn [obind foldM]. by rewrite Ht. Qed.

(** Validation accepts exactly the blocks with valid mainnet signatures and the claimed
    root, returns that root, and otherwise reports, in this order, the first
    bad signature, the error of building the tree, or a root mismatch. *)
Theorem Validate_verdict b claimedRoot :
  (forall r, Validate b claimedRoot = Ok r <->
     r = claimedRoot /\ Forall (fun t => tx.VerifySigs t = Ok tt) (tree.Txs b) /\ tree.BuildRoot b = Ok claimedRoot) /\
  (forall txs t rest e, tree.Txs b = txs ++ t :: rest -> Forall (fun t => tx.VerifySigs t = Ok tt) txs -> tx.VerifySigs t = Err e ->
     Validate b claimedRoot = Err e) /\
  (forall e, Forall (fun t => tx.VerifySigs t = Ok tt) (tree.Txs b) -> tree.BuildRoot b = Err e -> Validate b claimedRoot = Err e) /\
  (forall r, Forall (fun t => tx.VerifySigs t = Ok tt) (tree.Txs b) -> tree.BuildRoot b = Ok r -> r <> claimedRoot ->
     Validate b claimedRoot = fail ErrRootMismatch).
Proof.
  unfold Validate. split_and!.
  - intros r. split.
    + intros ([] & Hv%verify_all & (c & Hc & Hr)%obind_ok_inv)%obind_ok_inv. case_bool_decide; [|done]. apply Ok_inj in Hr. by subst.
    + intros (-> & Hv%verify_all & Hb). rewrite Hv. cbn [obind]. rewrite Hb. cbn [obind]. by rewrite bool_decide_eq_true_2.
  - intros txs t rest e -> Htxs Ht. by rewrite (verify_first txs t rest e).
  - intros e Hv%verify_all Hb. rewrite Hv. cbn [obind]. by rewrite Hb.
  - intros r Hv%verify_all Hb Hne. rewrite Hv. cbn [obind]. rewrite Hb. cbn [obind]. by rewrite bool_decide_eq_false_2.
Qed.
End Validate.
End validator.
