(* ===== verification/Frontend.v ===== *)
(** * What the programs around the wallet share

    frg-mcp, frg-wallet, frg-web and frg-cli ask a node over gRPC and take
    amounts, keys and call data as text.  [Node] holds what the node answers
    to each call of the generated client; messages are records with the
    fields the programs read.  The text functions below occur, word for word,
    in cmd/frg-mcp/main.go and cmd/frg-wallet/main.go. *)

From S2P Require Import Prelude GoBytes Errors Platform Hex Tx TxProofs TxSigProofs KV Denom Contract Wallet.

Module frontend.

(** ** Messages *)
Record Status : Type := mkStatus
  { Height : Z; StateRoot : bytes; PeerCount : Z; MempoolLen : Z; ValidatorCount : Z;
    ConsensusRound : Z; ConsensusPhase : bytes; GrpcOnly : bool }.

Record Account : Type := mkAccount { Pubkey : bytes; Balance : bytes; Nonce : Z }.

Record Validator : Type := mkValidator { VPubkey : bytes; VBond : bytes }.

Record MempoolEntry : Type := mkEntry { Txid : bytes; ESender : bytes; ENonce : Z }.

(** The repeated submessages are kept as their encodings. *)
Record Telemetry : Type := mkTelemetry
  { THeight : Z; TStateRoot : bytes; TProposerPubkey : bytes; TTxCount : Z; TTotalValue : bytes; TMeanValue : bytes;
    TVariance : bytes; TTxTypes : list bytes; TLevels : list bytes; TContractStateIncluded : bool; TWarning : bytes }.

Record ContractState : Type := mkState
  { CAddress : bytes; CExists : bool; CStateRoot : bytes; CKey : bytes; CFound : bool; CValue : bytes }.

(** A nil element of a repeated field is [None]. *)
Record Node : Type := mkNode
  { GetStatus : res Status;
    GetAccount : arr 32 -> res Account;
    ListValidators : res (list (option Validator));
    ListMempool : res (list (option MempoolEntry));
    GetBlockTelemetry : Z -> res Telemetry;
    GetContractState : arr 32 -> bytes -> res ContractState;
    SubmitTx : bytes -> res bool;
    SubmitBatch : list bytes -> res bool }.

(** The node as the wallet package sees it. *)
Definition walletNode (n : Node) : wallet.Node :=
  wallet.mkNode (fun pk => let* a := GetAccount n pk in Ok (Nonce a)) (SubmitTx n).

(** ** Text *)
Definition isEmpty (s : bytes) : bool := bool_decide (s = []).

Definition parseAmountFields (frgRaw quantaRaw : bytes) (positive : bool) : res Z :=
  if negb (isEmpty frgRaw) && negb (isEmpty quantaRaw) then failf "use one of the amount fields, not both" else
  if isEmpty frgRaw && isEmpty quantaRaw && negb positive then Ok 0 else
  if isEmpty frgRaw && isEmpty quantaRaw then failf "amount is required" else
  let* amount := if negb (isEmpty quantaRaw) then denom.ParseQuanta quantaRaw else denom.ParseFRG frgRaw in
  if positive && (amount <=? 0) then failf "amount must be positive" else Ok amount.

Definition contractCallData (function callDataHex : bytes) : res bytes :=
  if negb (isEmpty function) && negb (isEmpty callDataHex) then failf "use function or call_data_hex, not both" else
  if negb (isEmpty callDataHex) then
    match hex_DecodeString callDataHex with
    | None => failf "call_data_hex must be hex"
    | Some data => Ok data
    end
  else if isEmpty function then Ok (str "call") else
  if negb (zlen function =? 4) then failf "function must be exactly 4 bytes" else Ok function.

Definition decodeKey (keyText keyHex : bytes) : res bytes :=
  if negb (isEmpty keyText) && negb (isEmpty keyHex) then failf "use key or key_hex, not both" else
  if negb (isEmpty keyHex) then
    match hex_DecodeString keyHex with
    | None => failf "key_hex must be hex"
    | Some key => if zlen key >? 32 then failf "contract state key must be at most 32 bytes" else Ok key
    end
  else if zlen keyText >? 32 then failf "contract state key must be at most 32 bytes" else Ok keyText.

Definition formatQuantaAsFRG (raw : bytes) : bytes :=
  match denom.SetString raw with
  | None => str "0"
  | Some q => denom.FormatFRG (Some q)
  end.

(** A positive uint64 in decimal. *)
Definition parseNonce (raw : bytes) : res Z :=
  match denom.SetString raw with
  | Some nonce => if (nonce <=? 0) || (two64 <=? nonce) then failf "nonce must be a positive uint64" else Ok nonce
  | None => failf "nonce must be a positive uint64"
  end.

(** ** Responses *)
Record accountResponse : Type := mkAccountResponse
  { aPubkey : bytes; aBalance : bytes; aBalanceFRG : bytes; aNonce : Z }.

Definition formatAccount (resp : Account) : accountResponse :=
  mkAccountResponse (hex_EncodeToString (Pubkey resp)) (Balance resp) (formatQuantaAsFRG (Balance resp)) (Nonce resp).

Record validatorEntry : Type := mkValidatorEntry { vPubkey : bytes; vBond : bytes; vBondFRG : bytes }.

Definition formatValidators (resp : list (option Validator)) : list validatorEntry :=
  omap (fmap (fun v => mkValidatorEntry (hex_EncodeToString (VPubkey v)) (VBond v) (formatQuantaAsFRG (VBond v)))) resp.

Record contractStateResponse : Type := mkStateResponse
  { cAddress : bytes; cExists : bool; cStateRoot : bytes; cKey : bytes; cFound : bool; cValue : bytes }.

Definition formatContractState (resp : ContractState) : contractStateResponse :=
  mkStateResponse (hex_EncodeToString (CAddress resp)) (CExists resp) (hex_EncodeToString (CStateRoot resp))
    (hex_EncodeToString (CKey resp)) (CFound resp) (hex_EncodeToString (CValue resp)).

(** ** Lemmas *)
Lemma isEmpty_true s : isEmpty s = true <-> s = [].
Proof. apply bool_decide_eq_true. Qed.

Lemma ParseQuanta_nonneg raw a : denom.ParseQuanta raw = Ok a -> 0 <= a.
Proof.
  unfold denom.ParseQuanta. intros Ha. destruct (decide _); [done|]. destruct (denom.SetString _) as [z|]; [|done].
  destruct (z <? 0) eqn:Ez; [done|]. apply Ok_inj in Ha as <-. by apply Z.ltb_ge.
Qed.
End frontend.

(** * Amounts, keys and submissions of the programs around the wallet *)

Import frontend.

(** ** Amounts *)
Lemma parseAmountFields_nonneg frg quanta pos a : parseAmountFields frg quanta pos = Ok a -> 0 <= a /\ (pos = true -> 0 < a).
Proof.
  unfold parseAmountFields. intros Ha. destruct (_ && negb (isEmpty quanta)); [done|].
  destruct (isEmpty frg && isEmpty quanta) eqn:He; cbn [andb] in Ha.
  - destruct pos; cbn in Ha; [done|]. apply Ok_inj in Ha as <-. done.
  - apply obind_ok_inv in Ha as (z & Hz & Ha).
    assert (0 <= z) by (destruct (negb _); [by eapply ParseQuanta_nonneg|by eapply ParseFRG_nonneg]).
    destruct (pos && (z <=? 0)) eqn:Hp; [done|]. apply Ok_inj in Ha as <-. split; [done|].
    intros ->. cbn in Hp. by apply Z.leb_gt in Hp.
Qed.

(** ** Hexadecimal keys *)
Lemma fromHexChar_range c x : fromHexChar c = Some x -> 0 <= x < 16.
Proof. unfold fromHexChar. intros Hx. repeat case_match; simplify_eq; bsimp; lia. Qed.

Lemma hexDigit_pair x y : 0 <= x < 16 -> 0 <= y < 16 -> hexByte (byte_of_Z (x * 16 + y)) = [hexDigit x; hexDigit y].
Proof.
  intros Hx Hy. unfold hexByte. rewrite byte_to_of_Z, Z.mod_small by lia.
  replace ((x * 16 + y) / 16) with x by (apply (Z.div_unique_pos _ _ _ y); lia).
  by replace ((x * 16 + y) mod 16) with y by (apply (Z.mod_unique_pos _ _ x); lia).
Qed.

(** ** What the wallet submits *)
Section Submits.
Context `{Platform}.
Implicit Types (w : wallet.Wallet) (n : wallet.Node).

(** The outcome of a wallet operation that means to send [tr]: nothing was
    sent, or the signed transaction was; the operation reports success just
    when the node says it took the message. *)
Definition submits {A} n (tr : tx.Tx) (out : list bytes * res A) : Prop :=
  (fst out = [] /\ is_Ok (snd out) = false) \/
  exists sig raw, fst out = [raw] /\ tx.Serialize (set_SenderSig sig tr) = Ok raw /\
    (is_Ok (snd out) = true <-> wallet.SubmitTx n raw = Ok true).

Lemma signAndSubmit_submits w n tr : submits n tr (wallet.signAndSubmit w n tr).
Proof.
  unfold wallet.signAndSubmit. destruct (obind _ _) as [[tr' raw]| |] eqn:Er; [|by left..].
  apply obind_ok_inv in Er as (sig & Hsig & (raw' & Hraw & Hp%Ok_inj)%obind_ok_inv). injection Hp as <- ->.
  right. exists sig, raw. split_and!; [done|done|]. cbn [snd].
  destruct (wallet.SubmitTx n raw) as [[]| |]; cbn [obind]; try done.
  assert (exists u, tx.serializeUnsigned (set_SenderSig sig tr) = Ok u) as [u Hu].
  { unfold tx.Serialize in Hraw. apply obind_ok_inv in Hraw as (u & Hu & _). by exists u. }
  unfold tx.ID. rewrite Hu. done.
Qed.

Lemma withAccount_submits w n (k : Z -> tx.Tx) out :
  wallet.withAccount w n (fun nonce => wallet.signAndSubmit w n (k nonce)) = out ->
  (fst out = [] /\ is_Ok (snd out) = false) \/ exists nonce, submits n (k nonce) out.
Proof.
  intros <-. unfold wallet.withAccount. destruct (wallet.OwnAccount w n) as [a| |]; [|by left..].
  right. exists (wrap64 (a + 1)). apply signAndSubmit_submits.
Qed.

(** A transaction of the wallet's own account with the given type, value and receiver. *)
Definition ownTx w (ty v : Z) (to : arr 32) (t : tx.Tx) : Prop :=
  tx.Type_ t = ty /\ tx.Value t = Some v /\ tx.ReceiverPubKey t = to /\ tx.SenderPubKey t = keys.PublicKey (wallet.kp w).

Definition submitsOwn {A} w n (ty v : Z) (to : arr 32) (out : list bytes * res A) : Prop :=
  (fst out = [] /\ is_Ok (snd out) = false) \/
  exists t raw, fst out = [raw] /\ tx.Serialize t = Ok raw /\ ownTx w ty v to t /\
    (is_Ok (snd out) = true <-> wallet.SubmitTx n raw = Ok true).

Lemma submits_own {A} w n tr ty v to (out : list bytes * res A) :
  ownTx w ty v to tr -> submits n tr out -> submitsOwn w n ty v to out.
Proof.
  intros Ho [Hn|(sig & raw & H1 & H2 & H3)]; [by left|]. right. exists (set_SenderSig sig tr), raw. by split_and!.
Qed.

Lemma withAccount_own w n ty v to k :
  (forall nonce, ownTx w ty v to (k nonce)) ->
  submitsOwn w n ty v to (wallet.withAccount w n (fun nonce => wallet.signAndSubmit w n (k nonce))).
Proof.
  intros Hk. destruct (withAccount_submits w n k _ eq_refl) as [Hn|[nonce Hs]]; [by left|].
  by apply (submits_own w n (k nonce)).
Qed.

Lemma Transfer_own w n to v : submitsOwn w n tx.TxTypeTransfer v to (wallet.Transfer w n to (Some v)).
Proof. unfold wallet.Transfer, wallet.positive. destruct (v <=? 0); [by left|]. by apply withAccount_own. Qed.

Lemma Bond_own w n v : submitsOwn w n tx.TxTypeBond v (keys.PublicKey (wallet.kp w)) (wallet.Bond w n (Some v)).
Proof. unfold wallet.Bond, wallet.positive. destruct (v <=? 0); [by left|]. by apply withAccount_own. Qed.

Lemma Unbond_own w n : submitsOwn w n tx.TxTypeUnbond 0 (keys.PublicKey (wallet.kp w)) (wallet.Unbond w n).
Proof. by apply withAccount_own. Qed.

Lemma FinalizeUnbond_own w n : submitsOwn w n tx.TxTypeFinalizeUnbond 0 (keys.PublicKey (wallet.kp w)) (wallet.FinalizeUnbond w n).
Proof. by apply withAccount_own. Qed.

Lemma ClaimRewards_own w n : submitsOwn w n tx.TxTypeClaimRewards 0 (keys.PublicKey (wallet.kp w)) (wallet.ClaimRewards w n).
Proof. by apply withAccount_own. Qed.

Lemma CallContract_own w n addr data v : submitsOwn w n tx.TxTypeContractCall v addr (wallet.CallContract w n addr data (Some v)).
Proof.
  unfold wallet.CallContract. destruct (wallet.OwnAccount w n) as [a| |]; [|by left..]. cbn [from_option]; cbv zeta; unfold id.
  destruct (v <? 0); [by left|]. eapply submits_own; [|apply signAndSubmit_submits]. done.
Qed.

Lemma DeployContract_own w n wasm v : submitsOwn w n tx.TxTypeContractDeploy v (zero_arr 32) (wallet.DeployContract w n wasm (Some v)).
Proof.
  unfold wallet.DeployContract. destruct (_ =? 0); [by left|]. destruct (wallet.OwnAccount w n) as [a| |]; [|by left..]. cbn [from_option]; cbv zeta; unfold id.
  destruct (v <? 0); [by left|]. destruct (wallet.signAndSubmit _ _ _) as [sent r] eqn:Es.
  pose proof (signAndSubmit_submits w n (tx.mkTx tx.TxTypeContractDeploy (str "wallet") (str "contract") (Some v) (wrap64 (a + 1))
    (keys.PublicKey (wallet.kp w)) (zero_arr 32) (zero_arr 64) (zero_arr 64) 0 (zero_arr 32) 0 wasm [] [] [] [])) as Hs.
  rewrite Es in Hs. apply (submits_own w n _ tx.TxTypeContractDeploy v (zero_arr 32)) in Hs; [|done].
  destruct Hs as [[H1 H2]|(t & raw & H1 & H2 & H3 & H4)].
  - left. split; [done|]. by destruct r.
  - right. exists t, raw. split_and!; try done. by destruct r.
Qed.
End Submits.
