(* ===== verification/Mcp.v ===== *)
(** * cmd/frg-mcp: an agent's wallet behind a spending policy (main.go)

    The server reads JSON-RPC requests, runs the named tool with the agent's
    wallet and keeps one piece of state, the policy with the amount spent.
    encoding/json is the class [Json]; the pipe its messages come
    through is in [Framing].  Texts of errors leave out the names put into them. *)

From S2P Require Import Prelude GoBytes Errors Platform Hex Tx TxProofs TxSigProofs KV Denom Contract Wallet Frontend.
Import frontend.

Module mcp.

(** ** JSON and Unicode case, as the program uses them *)

(** The exported fields of [policy]. *)
Record policyFile : Type := mkPolicyFile
  { AllowSubmit : bool; AllowDeploy : bool; AllowBond : bool;
    MaxTransfer : bytes; MaxTransferQuanta : bytes; DailyLimit : bytes; DailyLimitQuanta : bytes;
    AllowedRecipients : list bytes; AllowedContracts : list bytes }.

Record rpcRequest : Type := mkRequest { ID : bytes; Method : bytes; Params : bytes }.

Record workTerms : Type := mkTerms
  { Description : bytes; Reward : bytes; Deadline : bytes; Verifier : bytes; ResultRequirements : bytes }.

Class Json : Type :=
  { json_policy : policyFile -> bytes -> res policyFile;      (* Unmarshal into a filled struct *)
    json_request : bytes -> res rpcRequest;
    json_toolCall : bytes -> res (bytes * bytes);             (* name and arguments of toolCallParams *)
    json_fields : list bytes -> bytes -> res (bytes -> bytes); (* a struct of string fields with these names *)
    json_terms : workTerms -> bytes;                          (* Marshal *)
    unicode_ToLower : bytes -> bytes }.                       (* strings.ToLower outside ASCII *)

Definition asciiLower (c : byte) : byte :=
  if (65 <=? byte_to_Z c) && (byte_to_Z c <=? 90) then byte_of_Z (byte_to_Z c + 32) else c.

Definition ToLower `{Json} (s : bytes) : bytes :=
  if forallb (fun c => byte_to_Z c <? 128) s then map asciiLower s else unicode_ToLower s.

(** ** The policy *)
Record policy : Type := mkPolicy
  { file : policyFile;
    maxTransfer : Z; dailyLimit : Z;
    allowedRecipients : gset bytes; allowedContracts : gset bytes;
    spentToday : Z }.

Definition parsePolicyAmount (frgRaw quantaRaw : bytes) : res Z :=
  if negb (isEmpty frgRaw) && negb (isEmpty quantaRaw) then failf "use one of the amount fields, not both" else
  if isEmpty frgRaw && isEmpty quantaRaw then Ok 0 else
  if negb (isEmpty quantaRaw) then denom.ParseQuanta quantaRaw else denom.ParseFRG frgRaw.

Section Policy.
Context `{Json}.
Implicit Types (p : option policy).

(** [data] is what reading the file gives; no path is [None]. *)
Definition loadPolicy (data : option (res bytes)) (autonomous : bool) : res policy :=
  let defaults := mkPolicyFile autonomous false false [] [] [] [] [] [] in
  let* f := match data with None => Ok defaults | Some r => let* raw := r in json_policy defaults raw end in
  let* maxTransfer := parsePolicyAmount (MaxTransfer f) (MaxTransferQuanta f) in
  let* dailyLimit := parsePolicyAmount (DailyLimit f) (DailyLimitQuanta f) in
  Ok (mkPolicy f maxTransfer dailyLimit
        (list_to_set (map ToLower (AllowedRecipients f))) (list_to_set (map ToLower (AllowedContracts f))) 0).

Definition allowSpend p (action target : bytes) (amount : option Z) (bond deploy : bool) : res unit :=
  match p with
  | None => failf "allow_submit is false"
  | Some p =>
    if negb (AllowSubmit (file p)) then failf "allow_submit is false" else
    if bond && negb (AllowBond (file p)) then failf "allow_bond is false" else
    if deploy && negb (AllowDeploy (file p)) then failf "allow_deploy is false" else
    let amount := default 0 amount in
    if (amount >? 0) && (maxTransfer p =? 0) then failf "max_transfer is zero" else
    if (maxTransfer p >? 0) && (amount >? maxTransfer p) then failf "amount exceeds max_transfer" else
    let nextSpent := spentToday p + amount in
    if (amount >? 0) && (dailyLimit p =? 0) then failf "daily_limit is zero" else
    if (dailyLimit p >? 0) && (nextSpent >? dailyLimit p) then failf "amount exceeds daily_limit" else
    let target := ToLower target in
    if bool_decide (action = str "transfer") && negb (bool_decide (allowedRecipients p = ∅)) &&
       bool_decide (target ∉ allowedRecipients p) then failf "recipient is not allowed" else
    if bool_decide (action = str "contract_call") && negb (bool_decide (allowedContracts p = ∅)) &&
       bool_decide (target ∉ allowedContracts p) then failf "contract is not allowed" else
    Ok tt
  end.

Definition recordSpend p (amount : option Z) : option policy :=
  match p, amount with
  | Some p, Some amount =>
    if amount <=? 0 then Some p else
    Some (mkPolicy (file p) (maxTransfer p) (dailyLimit p) (allowedRecipients p) (allowedContracts p) (spentToday p + amount))
  | _, _ => p
  end.
End Policy.

(** ** Work escrow conventions *)
Definition workStateKeys : list bytes :=
  [str "payer"; str "worker"; str "reward"; str "deadline"; str "status"; str "terms_hash"; str "result_hash"; str "verifier"].

Definition workSelectors : list (bytes * bytes) :=
  [(str "post", str "post"); (str "accept", str "acpt"); (str "submit", str "subm"); (str "approve", str "aprv");
   (str "reject", str "rejc"); (str "claim", str "clai"); (str "cancel", str "cncl")].

Fixpoint assoc (k : bytes) (l : list (bytes * bytes)) : option bytes :=
  match l with
  | [] => None
  | (k', v) :: l => if bool_decide (k = k') then Some v else assoc k l
  end.

Definition workActionSelector `{Json} (action : bytes) : res bytes :=
  match assoc (ToLower (denom.TrimSpace action)) workSelectors with
  | Some s => Ok s
  | None => failf "unknown work action"
  end.

Definition workActionCalldata (selector payloadHex : bytes) : res bytes :=
  let payloadHex := denom.TrimSpace payloadHex in
  if isEmpty payloadHex then Ok selector else
  match hex_DecodeString payloadHex with
  | None => failf "payload_hex must be hex"
  | Some payload => Ok (selector ++ payload)
  end.

Definition parseOptionalUint64 (raw : bytes) : res Z :=
  if isEmpty raw then Ok 0 else
  match denom.SetString raw with
  | Some value => if (value <? 0) || (two64 <=? value) then failf "must be a non-negative uint64" else Ok value
  | None => failf "must be a non-negative uint64"
  end.

(** ** Tools *)
Inductive tool : Type :=
| frg_get_pubkey | frg_get_status | frg_get_account | frg_list_validators | frg_list_mempool
| frg_get_block_telemetry | frg_operator_health | frg_operator_readiness | frg_get_contract_state
| frg_predict_contract_address | frg_work_schema | frg_work_build_terms | frg_work_state
| frg_transfer | frg_bond | frg_unbond | frg_finalize_unbond | frg_claim_rewards
| frg_contract_deploy | frg_contract_call | frg_work_action | frg_request_faucet.

(** The cases of [callTool] in order. *)
Definition toolCases : list (bytes * tool) :=
  [(str "frg_get_pubkey", frg_get_pubkey); (str "frg_get_status", frg_get_status); (str "frg_get_account", frg_get_account);
   (str "frg_list_validators", frg_list_validators); (str "frg_list_mempool", frg_list_mempool);
   (str "frg_get_block_telemetry", frg_get_block_telemetry); (str "frg_operator_health", frg_operator_health);
   (str "frg_operator_readiness", frg_operator_readiness); (str "frg_get_contract_state", frg_get_contract_state);
   (str "frg_predict_contract_address", frg_predict_contract_address); (str "frg_work_schema", frg_work_schema);
   (str "frg_work_build_terms", frg_work_build_terms); (str "frg_work_state", frg_work_state);
   (str "frg_transfer", frg_transfer); (str "frg_bond", frg_bond); (str "frg_unbond", frg_unbond);
   (str "frg_finalize_unbond", frg_finalize_unbond); (str "frg_claim_rewards", frg_claim_rewards);
   (str "frg_contract_deploy", frg_contract_deploy); (str "frg_contract_call", frg_contract_call);
   (str "frg_work_action", frg_work_action); (str "frg_request_faucet", frg_request_faucet)].

Fixpoint toolOf (name : bytes) (cases : list (bytes * tool)) : option tool :=
  match cases with
  | [] => None
  | (k, t) :: cases => if bool_decide (name = k) then Some t else toolOf name cases
  end.

(** What [tools/list] announces: name, properties of the schema, required ones. *)
Definition tools : list (bytes * list bytes * list bytes) :=
  [(str "frg_get_pubkey", [], []);
   (str "frg_get_status", [], []);
   (str "frg_get_account", [str "pubkey"], []);
   (str "frg_list_validators", [], []);
   (str "frg_list_mempool", [], []);
   (str "frg_get_block_telemetry", [str "height"], []);
   (str "frg_operator_health", [], []);
   (str "frg_operator_readiness", [str "validator_pubkey"; str "min_bond"; str "min_bond_quanta"], []);
   (str "frg_get_contract_state", [str "contract_address"; str "key"; str "key_hex"], [str "contract_address"]);
   (str "frg_predict_contract_address", [str "nonce"], []);
   (str "frg_work_schema", [], []);
   (str "frg_work_build_terms", [str "description"; str "reward"; str "deadline"; str "verifier"; str "result_requirements"],
      [str "description"; str "reward"]);
   (str "frg_work_state", [str "contract_address"], [str "contract_address"]);
   (str "frg_transfer", [str "to"; str "amount"; str "amount_quanta"], [str "to"]);
   (str "frg_bond", [str "amount"; str "amount_quanta"], []);
   (str "frg_unbond", [], []);
   (str "frg_finalize_unbond", [], []);
   (str "frg_claim_rewards", [], []);
   (str "frg_contract_deploy", [str "wasm_hex"; str "value"; str "value_quanta"], [str "wasm_hex"]);
   (str "frg_contract_call", [str "contract_address"; str "function"; str "call_data_hex"; str "value"; str "value_quanta"],
      [str "contract_address"]);
   (str "frg_work_action", [str "contract_address"; str "action"; str "payload_hex"; str "value"; str "value_quanta"],
      [str "contract_address"; str "action"]);
   (str "frg_request_faucet", [str "pubkey"], [])].

(** ** Responses *)
Record operatorHealthResponse : Type := mkHealth
  { hGRPCOK : bool; hMetricsURL : bytes; hReadyzOK : bool; hReadyzStatus : Z; hFailed : bool;
    hHeight : Z; hPeerCount : Z; hConsensusPhase : bytes }.   (* [hFailed]: ReadyzMessage is set *)

Record readinessResponse : Type := mkReadiness
  { Ready : bool; ValidatorPubkey : bytes; RAccount : accountResponse; Bonded : bool; RBond : bytes; RBondFRG : bytes;
    MinBond : bytes; MinBondFRG : bytes; NodeHeight : Z; RPeerCount : Z; RMempoolLen : Z; RValidatorCount : Z;
    RConsensusPhase : bytes; Checks : list bytes; Warnings : list bytes; Actions : list bytes }.

Record workTermsResponse : Type := mkTermsResponse { Terms : workTerms; Canonical : bytes; TermsHash : bytes }.

Inductive payload : Type :=
| PPubkey (pubkey chain_id : bytes)
| PStatus (s : Status)
| PAccount (a : accountResponse)
| PValidators (vs : list validatorEntry)
| PMempool (es : list (bytes * bytes * Z))
| PTelemetry (t : Telemetry)
| PHealth (h : operatorHealthResponse)
| PReadiness (r : readinessResponse)
| PState (s : contractStateResponse)
| PPrediction (nonce : Z) (contract_address : bytes)
| PSchema (selectors : list (bytes * bytes)) (state_keys : list bytes)
| PTerms (t : workTermsResponse)
| PWorkState (l : list (bytes * contractStateResponse))
| PTx (txid : bytes)
| PDeploy (txid contract_address : bytes)
| PWorkAction (action selector payload_hex calldata_hex txid value quanta contract : bytes)
| PFaucet (answer : bytes).

Record mcpServer : Type := mkServer { w : wallet.Wallet; faucetURL : bytes; metricsURL : bytes; pol : option policy }.

Definition set_pol (s : mcpServer) (p : option policy) : mcpServer := mkServer (w s) (faucetURL s) (metricsURL s) p.

(** What is outside: the node, the metrics endpoint ([None]: no request can be
    made of the URL; otherwise the status code or an error) and the faucet. *)
Record World : Type := mkWorld
  { node : Node; readyz : bytes -> option (res Z); faucet : bytes -> arr 32 -> res bytes }.

(** The state after a call, the messages submitted and the result. *)
Definition outcomeOf (A : Type) : Type := mcpServer * (list bytes * res A).

(** Leave with an error before anything was submitted. *)
Definition check {A B} (s : mcpServer) (r : res A) (k : A -> outcomeOf B) : outcomeOf B :=
  match r with Ok a => k a | Err e => (s, ([], Err e)) | Panic => (s, ([], Panic)) end.

(** The call of the wallet; a success is recorded as spent, when the tool does so. *)
Definition spending {A} (s : mcpServer) (r : list bytes * res A) (spent : option Z) (out : A -> payload) : outcomeOf payload :=
  match r with
  | (sent, Ok a) => (set_pol s (recordSpend (pol s) spent), (sent, Ok (out a)))
  | (sent, Err e) => (s, (sent, Err e))
  | (sent, Panic) => (s, (sent, Panic))
  end.

Section Tools.
Context `{Platform} `{Json}.
Implicit Types (s : mcpServer) (e : World) (args : bytes).

Definition decodeArgs (names : list bytes) args : res (bytes -> bytes) :=
  json_fields names (if isEmpty args || bool_decide (args = str "null") then str "{}" else args).

(** The key in a field, or the wallet's own. *)
Definition pubkeyOr s (field : bytes) : res (arr 32) :=
  if isEmpty field then Ok (keys.PublicKey (wallet.kp (w s))) else wallet.DecodePubKey field.

(** A contract address in a field; every error has one text. *)
Definition contractAddr (field : bytes) : res (arr 32) :=
  match wallet.DecodePubKey field with
  | Ok a => Ok a
  | Err _ => failf "contract_address must be 32-byte hex"
  | Panic => Panic
  end.

Definition getAccount s e args : res payload :=
  let* f := decodeArgs [str "pubkey"] args in
  let* pubkey := pubkeyOr s (f (str "pubkey")) in
  let* resp := GetAccount (node e) pubkey in
  Ok (PAccount (formatAccount resp)).

Definition formatMempool (resp : list (option MempoolEntry)) : list (bytes * bytes * Z) :=
  omap (fmap (fun x => (hex_EncodeToString (Txid x), ESender x, ENonce x))) resp.

Definition formatBlockTelemetry (t : Telemetry) : Telemetry :=
  mkTelemetry (THeight t) (hex_EncodeToString (TStateRoot t)) (hex_EncodeToString (TProposerPubkey t)) (TTxCount t) (TTotalValue t)
    (TMeanValue t) (TVariance t) (TTxTypes t) (TLevels t) (TContractStateIncluded t) (TWarning t).

Definition getBlockTelemetry e args : res payload :=
  let* f := decodeArgs [str "height"] args in
  let* height := parseOptionalUint64 (f (str "height")) in
  let* resp := GetBlockTelemetry (node e) height in
  Ok (PTelemetry (formatBlockTelemetry resp)).

Definition operatorHealth s e : res operatorHealthResponse :=
  let* status := GetStatus (node e) in
  let out ok code failed := mkHealth true (metricsURL s) ok code failed (Height status) (PeerCount status) (ConsensusPhase status) in
  if isEmpty (metricsURL s) then Ok (out false 0 false) else
  match readyz e (metricsURL s ++ str "/readyz") with
  | None => failf "invalid URL"
  | Some (Err _) => Ok (out false 0 true)
  | Some Panic => Panic
  | Some (Ok code) => Ok (out ((200 <=? code) && (code <? 300)) code false)
  end.

(** [addCheck]: the checks, the actions and whether all passed so far. *)
Definition addCheck (acc : bool * list bytes * list bytes) (ok : bool) (check action : bytes) : bool * list bytes * list bytes :=
  let '(ready, checks, actions) := acc in
  if ok then (ready, checks ++ [check ++ str ": ok"], actions)
  else (false, checks ++ [check ++ str ": failed"], if isEmpty action then actions else actions ++ [action]).

Definition bondOf (vals : list (option Validator)) (validatorHex : bytes) : option bytes :=
  VBond <$> head (omap (fun v => v ≫= fun v => if bool_decide (hex_EncodeToString (VPubkey v) = validatorHex) then Some v else None) vals).

Definition operatorReadiness s e (validatorHex minBondRaw minBondQuantaRaw : bytes) : res readinessResponse :=
  let* minBond := parseAmountFields minBondRaw minBondQuantaRaw false in
  let minBond := if minBond =? 0 then 1000 * denom.QuantaPerFRG else minBond in
  let* validator := pubkeyOr s validatorHex in
  let* statusResp := GetStatus (node e) in
  let* acct := GetAccount (node e) validator in
  let* vals := ListValidators (node e) in
  let validatorHex := hex_EncodeToString validator in
  let found := bondOf vals validatorHex in
  let bonded := bool_decide (is_Some found) in
  let outBond := default [] found in
  let bal := default 0 (denom.SetString (Balance acct)) in
  let bond := default 0 (denom.SetString outBond) in
  let acc := addCheck (true, [], []) (ValidatorCount statusResp >? 0) (str "validator set present") (str "confirm genesis or bonded validators") in
  let acc := addCheck acc ((bal >? 0) || bonded) (str "validator account funded or bonded") (str "fund " ++ validatorHex ++ str " before bonding") in
  let acc := addCheck acc bonded (str "validator bonded") (str "submit frg_bond with at least " ++ denom.FormatFRG (Some minBond) ++ str " FRG") in
  let '(ready, checks, actions) := addCheck acc (negb bonded || (bond >=? minBond)) (str "bond meets minimum")
      (str "increase bond to at least " ++ denom.FormatFRG (Some minBond) ++ str " FRG") in
  let warnings :=
    (if GrpcOnly statusResp then [str "node is running in grpc_only mode and will not participate in P2P consensus"] else []) ++
    (if (PeerCount statusResp =? 0) && (ValidatorCount statusResp >? 1) then [str "no peers connected on a multi-validator network"] else []) ++
    (if isEmpty (ConsensusPhase statusResp) then [str "consensus phase is empty"] else []) in
  Ok (mkReadiness ready validatorHex (formatAccount acct) bonded outBond (if bonded then formatQuantaAsFRG outBond else [])
        (denom.big_String minBond) (denom.FormatFRG (Some minBond)) (Height statusResp) (PeerCount statusResp)
        (MempoolLen statusResp) (ValidatorCount statusResp) (ConsensusPhase statusResp) checks warnings actions).

Definition readinessTool s e args : res payload :=
  let* f := decodeArgs [str "validator_pubkey"; str "min_bond"; str "min_bond_quanta"] args in
  let* resp := operatorReadiness s e (f (str "validator_pubkey")) (f (str "min_bond")) (f (str "min_bond_quanta")) in
  Ok (PReadiness resp).

Definition getContractState e args : res payload :=
  let* f := decodeArgs [str "contract_address"; str "key"; str "key_hex"] args in
  let* addr := contractAddr (f (str "contract_address")) in
  let* key := decodeKey (f (str "key")) (f (str "key_hex")) in
  let* resp := GetContractState (node e) addr key in
  Ok (PState (formatContractState resp)).

Definition resolveNonce s e (raw : bytes) : res Z :=
  if negb (isEmpty raw) then parseNonce raw else
  let* nonce := wallet.OwnAccount (w s) (walletNode (node e)) in Ok (wrap64 (nonce + 1)).

Definition predictContractAddress s e args : res payload :=
  let* f := decodeArgs [str "nonce"] args in
  let* nonce := resolveNonce s e (f (str "nonce")) in
  Ok (PPrediction nonce (hex_EncodeToString (contract.ContractAddr (keys.PublicKey (wallet.kp (w s))) nonce))).

Definition buildWorkTerms (t : workTerms) : res workTermsResponse :=
  let t := mkTerms (denom.TrimSpace (Description t)) (denom.TrimSpace (Reward t)) (Deadline t) (Verifier t) (ResultRequirements t) in
  if isEmpty (Description t) then failf "description is required" else
  let* _ := parseAmountFields (Reward t) [] true in
  let canonicalBytes := json_terms t in
  Ok (mkTermsResponse t canonicalBytes (hex_EncodeToString (sha256_Sum256 canonicalBytes))).

Definition buildTermsTool args : res payload :=
  let* f := decodeArgs [str "description"; str "reward"; str "deadline"; str "verifier"; str "result_requirements"] args in
  let* resp := buildWorkTerms (mkTerms (f (str "description")) (f (str "reward")) (f (str "deadline")) (f (str "verifier")) (f (str "result_requirements"))) in
  Ok (PTerms resp).

Definition workState e (addr : arr 32) : res (list (bytes * contractStateResponse)) :=
  mapM (fun key => let* resp := GetContractState (node e) addr key in Ok (key, formatContractState resp)) workStateKeys.

Definition workStateTool e args : res payload :=
  let* f := decodeArgs [str "contract_address"] args in
  let* addr := contractAddr (f (str "contract_address")) in
  let* resp := workState e addr in
  Ok (PWorkState resp).

Definition requestFaucet s e args : res payload :=
  if isEmpty (faucetURL s) then failf "faucet URL is not configured" else
  let* f := decodeArgs [str "pubkey"] args in
  let* pubkey := pubkeyOr s (f (str "pubkey")) in
  let* resp := faucet e (faucetURL s) pubkey in
  Ok (PFaucet resp).

(** ** The tools that submit *)
Definition transferTool s e args : outcomeOf payload :=
  check s (let* f := decodeArgs [str "to"; str "amount"; str "amount_quanta"] args in
           let* to := wallet.DecodePubKey (f (str "to")) in
           let* amount := parseAmountFields (f (str "amount")) (f (str "amount_quanta")) true in
           let* _ := allowSpend (pol s) (str "transfer") (f (str "to")) (Some amount) false false in
           Ok (to, amount))
    (fun '(to, amount) => spending s (wallet.Transfer (w s) (walletNode (node e)) to (Some amount)) (Some amount) PTx).

Definition bondTool s e args : outcomeOf payload :=
  check s (let* f := decodeArgs [str "amount"; str "amount_quanta"] args in
           let* amount := parseAmountFields (f (str "amount")) (f (str "amount_quanta")) true in
           let* _ := allowSpend (pol s) (str "bond") [] (Some amount) true false in
           Ok amount)
    (fun amount => spending s (wallet.Bond (w s) (walletNode (node e)) (Some amount)) (Some amount) PTx).

Definition unbondTool s e : outcomeOf payload :=
  check s (allowSpend (pol s) (str "unbond") [] (Some 0) true false)
    (fun _ => spending s (wallet.Unbond (w s) (walletNode (node e))) None PTx).

Definition finalizeUnbondTool s e : outcomeOf payload :=
  check s (allowSpend (pol s) (str "finalize_unbond") [] (Some 0) true false)
    (fun _ => spending s (wallet.FinalizeUnbond (w s) (walletNode (node e))) None PTx).

Definition claimRewardsTool s e : outcomeOf payload :=
  check s (allowSpend (pol s) (str "claim_rewards") [] (Some 0) false false)
    (fun _ => spending s (wallet.ClaimRewards (w s) (walletNode (node e))) None PTx).

Definition deployTool s e args : outcomeOf payload :=
  check s (let* f := decodeArgs [str "wasm_hex"; str "value"; str "value_quanta"] args in
           let* wasm := match hex_DecodeString (f (str "wasm_hex")) with
                        | Some wasm => if zlen wasm =? 0 then failf "wasm_hex must be non-empty hex" else Ok wasm
                        | None => failf "wasm_hex must be non-empty hex"
                        end in
           let* value := parseAmountFields (f (str "value")) (f (str "value_quanta")) false in
           let* _ := allowSpend (pol s) (str "contract_deploy") [] (Some value) false true in
           Ok (wasm, value))
    (fun '(wasm, value) => spending s (wallet.DeployContract (w s) (walletNode (node e)) wasm (Some value)) (Some value)
                             (fun r => PDeploy (fst r) (snd r))).

Definition contractCallTool s e args : outcomeOf payload :=
  check s (let* f := decodeArgs [str "contract_address"; str "function"; str "call_data_hex"; str "value"; str "value_quanta"] args in
           let* addr := contractAddr (f (str "contract_address")) in
           let* callData := contractCallData (f (str "function")) (f (str "call_data_hex")) in
           let* value := parseAmountFields (f (str "value")) (f (str "value_quanta")) false in
           let* _ := allowSpend (pol s) (str "contract_call") (f (str "contract_address")) (Some value) false false in
           Ok (addr, callData, value))
    (fun '(addr, callData, value) =>
       spending s (wallet.CallContract (w s) (walletNode (node e)) addr callData (Some value)) (Some value) PTx).

Definition workActionTool s e args : outcomeOf payload :=
  check s (let* f := decodeArgs [str "contract_address"; str "action"; str "payload_hex"; str "value"; str "value_quanta"] args in
           let* addr := contractAddr (f (str "contract_address")) in
           let* selector := workActionSelector (f (str "action")) in
           let* callData := workActionCalldata selector (f (str "payload_hex")) in
           let* value := parseAmountFields (f (str "value")) (f (str "value_quanta")) false in
           let* _ := allowSpend (pol s) (str "contract_call") (f (str "contract_address")) (Some value) false false in
           Ok (f, addr, selector, callData, value))
    (fun '(f, addr, selector, callData, value) =>
       spending s (wallet.CallContract (w s) (walletNode (node e)) addr callData (Some value)) (Some value)
         (fun txid => PWorkAction (f (str "action")) selector (hex_EncodeToString (drop (length selector) callData))
            (hex_EncodeToString callData) txid (denom.FormatFRG (Some value)) (denom.big_String value)
            (ToLower (f (str "contract_address"))))).

(** A tool that only reads. *)
Definition reading s (r : res payload) : outcomeOf payload := (s, ([], r)).

Definition callTool s e (name args : bytes) : outcomeOf payload :=
  match toolOf name toolCases with
  | None => reading s (failf "unknown tool")
  | Some frg_get_pubkey => reading s (Ok (PPubkey (wallet.PublicKeyHex (w s)) (wallet.chainID (w s))))
  | Some frg_get_status => reading s (let* resp := GetStatus (node e) in Ok (PStatus resp))
  | Some frg_get_account => reading s (getAccount s e args)
  | Some frg_list_validators => reading s (let* resp := ListValidators (node e) in Ok (PValidators (formatValidators resp)))
  | Some frg_list_mempool => reading s (let* resp := ListMempool (node e) in Ok (PMempool (formatMempool resp)))
  | Some frg_get_block_telemetry => reading s (getBlockTelemetry e args)
  | Some frg_operator_health => reading s (let* resp := operatorHealth s e in Ok (PHealth resp))
  | Some frg_operator_readiness => reading s (readinessTool s e args)
  | Some frg_get_contract_state => reading s (getContractState e args)
  | Some frg_predict_contract_address => reading s (predictContractAddress s e args)
  | Some frg_work_schema => reading s (Ok (PSchema workSelectors workStateKeys))
  | Some frg_work_build_terms => reading s (buildTermsTool args)
  | Some frg_work_state => reading s (workStateTool e args)
  | Some frg_transfer => transferTool s e args
  | Some frg_bond => bondTool s e args
  | Some frg_unbond => unbondTool s e
  | Some frg_finalize_unbond => finalizeUnbondTool s e
  | Some frg_claim_rewards => claimRewardsTool s e
  | Some frg_contract_deploy => deployTool s e args
  | Some frg_contract_call => contractCallTool s e args
  | Some frg_work_action => workActionTool s e args
  | Some frg_request_faucet => reading s (requestFaucet s e args)
  end.

(** ** Requests *)
Inductive response : Type :=
| Initialized | ToolList (l : list (bytes * list bytes * list bytes)) | ToolResult (p : payload) | ToolError
| RpcError (code : Z).

Definition handle s e (req : rpcRequest) : mcpServer * (list bytes * res response) :=
  if bool_decide (Method req = str "initialize") then (s, ([], Ok Initialized)) else
  if bool_decide (Method req = str "tools/list") then (s, ([], Ok (ToolList tools))) else
  if bool_decide (Method req = str "tools/call") then
    match json_toolCall (Params req) with
    | Err _ => (s, ([], Ok (RpcError (-32602))))
    | Panic => (s, ([], Panic))
    | Ok (name, args) =>
      let '(s, (sent, r)) := callTool s e name args in
      (s, (sent, match r with Ok p => Ok (ToolResult p) | Err _ => Ok ToolError | Panic => Panic end))
    end
  else (s, ([], Ok (RpcError (-32601)))).

(** One turn of [serve]: a notification, which has no id, is not answered. *)
Definition serveOne s e (msg : bytes) : mcpServer * (list bytes * res (option response)) :=
  match json_request msg with
  | Err _ => (s, ([], Ok (Some (RpcError (-32700)))))
  | Panic => (s, ([], Panic))
  | Ok req =>
    if isEmpty (ID req) then (s, ([], Ok None)) else
    let '(s, (sent, r)) := handle s e req in
    (s, (sent, let* resp := r in Ok (Some resp)))
  end.

(** [serve] over the messages read, each with the world it met; a panic ends it. *)
Fixpoint serve s (msgs : list (World * bytes)) : mcpServer * list (list bytes * res (option response)) :=
  match msgs with
  | [] => (s, [])
  | (e, msg) :: msgs =>
    let '(s, out) := serveOne s e msg in
    match snd out with
    | Panic => (s, [out])
    | _ => let '(s, log) := serve s msgs in (s, out :: log)
    end
  end.
End Tools.
End mcp.

(** * frg-mcp: an agent stays within its policy

    Every request the server answers is one step of the policy: it submits
    nothing, or one transaction the policy permits, and what is reported as
    done is counted.  The bound on the sum follows by induction over the
    requests. *)

Import frontend mcp.

Section Mcp.
Context `{Platform} `{Json}.
Implicit Types (s : mcpServer) (e : World) (p : policy) (t : tx.Tx).

Definition moves t : Z := default 0 (tx.Value t).

(** The limits of a policy as loaded. *)
Record policy_ok p : Prop :=
  { max_nonneg : 0 <= maxTransfer p; daily_nonneg : 0 <= dailyLimit p; spent_range : 0 <= spentToday p <= dailyLimit p }.

(** A transaction [p] lets the wallet submit. *)
Record permitted (wal : wallet.Wallet) p t : Prop :=
  { submit_allowed : AllowSubmit (file p) = true;
    own_account : tx.SenderPubKey t = keys.PublicKey (wallet.kp wal);
    bond_allowed : tx.Type_ t ∈ [tx.TxTypeBond; tx.TxTypeUnbond; tx.TxTypeFinalizeUnbond] -> AllowBond (file p) = true;
    deploy_allowed : tx.Type_ t = tx.TxTypeContractDeploy -> AllowDeploy (file p) = true;
    amount_bounded : 0 <= moves t <= maxTransfer p;
    recipient_allowed : tx.Type_ t = tx.TxTypeTransfer -> allowedRecipients p <> ∅ ->
      hex_EncodeToString (tx.ReceiverPubKey t) ∈ allowedRecipients p;
    contract_allowed : tx.Type_ t = tx.TxTypeContractCall -> allowedContracts p <> ∅ ->
      hex_EncodeToString (tx.ReceiverPubKey t) ∈ allowedContracts p }.

Definition addSpent p (v : Z) : policy :=
  mkPolicy (file p) (maxTransfer p) (dailyLimit p) (allowedRecipients p) (allowedContracts p) (spentToday p + v).

(** One step: what was submitted, whether it was reported as done, and the policy after it. *)
Inductive step (wal : wallet.Wallet) e p : policy -> list bytes -> bool -> option tx.Tx -> Prop :=
| step_none ok : step wal e p p [] ok None
| step_sent t raw ok :
    tx.Serialize t = Ok raw -> permitted wal p t -> spentToday p + moves t <= dailyLimit p ->
    (ok = true <-> SubmitTx (node e) raw = Ok true) ->
    step wal e p (if ok then addSpent p (moves t) else p) [raw] ok (Some t).

(** ** The policy's decision *)
Lemma allowSpend_spec p action target v bond deploy :
  policy_ok p -> 0 <= v -> allowSpend (Some p) action target (Some v) bond deploy = Ok tt ->
  AllowSubmit (file p) = true /\ (bond = true -> AllowBond (file p) = true) /\ (deploy = true -> AllowDeploy (file p) = true) /\
  v <= maxTransfer p /\ spentToday p + v <= dailyLimit p /\
  (action = str "transfer" -> allowedRecipients p <> ∅ -> ToLower target ∈ allowedRecipients p) /\
  (action = str "contract_call" -> allowedContracts p <> ∅ -> ToLower target ∈ allowedContracts p).
Proof.
  intros [Hm Hd Hs] Hv Ha. cbn [allowSpend] in Ha. change (default 0 (Some v)) with v in Ha.
  destruct (AllowSubmit (file p)); [|done].
  destruct (bond && negb (AllowBond (file p))) eqn:E1; [done|]. destruct (deploy && negb (AllowDeploy (file p))) eqn:E2; [done|].
  destruct ((v >? 0) && (maxTransfer p =? 0)) eqn:E3; [done|]. destruct ((maxTransfer p >? 0) && (v >? maxTransfer p)) eqn:E4; [done|].
  destruct ((v >? 0) && (dailyLimit p =? 0)) eqn:E5; [done|]. destruct ((dailyLimit p >? 0) && (_ >? dailyLimit p)) eqn:E6; [done|].
  cbn [negb] in Ha. cbv zeta in Ha.
  destruct (bool_decide (action = str "transfer") && _ && _) eqn:E7; [done|].
  destruct (bool_decide (action = str "contract_call") && _ && _) eqn:E8; [done|].
  split_and!; try done.
  - intros ->. by destruct (AllowBond (file p)).
  - intros ->. by destruct (AllowDeploy (file p)).
  - apply andb_false_iff in E3, E4. rewrite !Z.gtb_ltb, ?Z.ltb_ge, ?Z.eqb_neq in *. lia.
  - apply andb_false_iff in E5, E6. rewrite !Z.gtb_ltb, ?Z.ltb_ge, ?Z.eqb_neq in *. lia.
  - intros -> Hne. rewrite bool_decide_true, (bool_decide_false _ Hne) in E7 by done. cbn in E7.
    apply bool_decide_eq_false in E7. by apply dec_stable.
  - intros -> Hne. rewrite bool_decide_true, (bool_decide_false _ Hne) in E8 by done. cbn in E8.
    apply bool_decide_eq_false in E8. by apply dec_stable.
Qed.

Lemma recordSpend_add p v : 0 <= v -> recordSpend (Some p) (Some v) = Some (addSpent p v).
Proof.
  intros Hv. cbn [recordSpend]. destruct (v <=? 0) eqn:E; [|done]. assert (v = 0) as -> by (bsimp; lia).
  unfold addSpent. rewrite Z.add_0_r. by destruct p.
Qed.

(** A hexadecimal key that decodes is, in lower case, the encoding of the key. *)
Lemma asciiLower_hex c x : fromHexChar c = Some x -> (byte_to_Z c <? 128) = true /\ asciiLower c = hexDigit x.
Proof. destruct c; vm_compute; intros [= <-]; done. Qed.

Lemma ToLower_hex_aux (h : bytes) raw :
  hex_DecodeString h = Some raw -> forallb (fun c => byte_to_Z c <? 128) h = true /\ map asciiLower h = hex_EncodeToString raw.
Proof.
  revert raw. induction h as [h IH] using (induction_ltof1 _ (@length byte)). unfold ltof in IH. intros raw Hd.
  destruct h as [|a [|b rest]]; cbn [hex_DecodeString] in Hd; [by injection Hd as <-|done|].
  destruct (fromHexChar a) as [x|] eqn:Ea; [|done]. destruct (fromHexChar b) as [y|] eqn:Eb; [|done].
  destruct (hex_DecodeString rest) as [r|] eqn:Er; [|done]. injection Hd as <-.
  destruct (IH rest ltac:(cbn; lia) r Er) as [I1 I2]. apply asciiLower_hex in Ea as Ha, Eb as Hb.
  apply fromHexChar_range in Ea, Eb. cbn [forallb map]. rewrite (proj1 Ha), (proj1 Hb), I1. split; [done|].
  unfold hex_EncodeToString in *. cbn [map concat]. rewrite hexDigit_pair by done. cbn [app]. by rewrite <- I2, (proj2 Ha), (proj2 Hb).
Qed.

Lemma ToLower_pubkey (h : bytes) pk : wallet.DecodePubKey h = Ok pk -> ToLower h = hex_EncodeToString pk.
Proof.
  unfold wallet.DecodePubKey. intros Hd. destruct (hex_DecodeString h) as [raw|] eqn:Er; [|done].
  destruct (negb (zlen raw =? 32)) eqn:El; [done|]. apply Ok_inj in Hd as <-. apply ToLower_hex_aux in Er as [E1 E2].
  unfold ToLower. rewrite E1, E2. rewrite mk_arr_exact; [done|]. bsimp. unfold zlen in El. lia.
Qed.

Lemma ToLower_contract (h : bytes) a : contractAddr h = Ok a -> ToLower h = hex_EncodeToString a.
Proof. unfold contractAddr. intros Ha. apply ToLower_pubkey. destruct (wallet.DecodePubKey h); [by apply Ok_inj in Ha as ->|done..]. Qed.

(** ** One tool *)

(** The outcome of a call, as a step of the policy. *)
Definition steps {A} s e p (out : mcpServer * (list bytes * res A)) : Prop :=
  exists p' ot, fst out = set_pol s (Some p') /\ step (w s) e p p' (fst (snd out)) (is_Ok (snd (snd out))) ot.

Lemma set_pol_same s p : pol s = Some p -> s = set_pol s (Some p).
Proof. intros Hp. destruct s as [a b c d]. unfold set_pol; cbn in *. by subst. Qed.

Lemma steps_reading s e p r : pol s = Some p -> steps s e p (reading s r).
Proof. intros Hp. exists p, None. split; [by apply set_pol_same|]. constructor. Qed.

Lemma steps_check {A B} s e p (r : res A) (k : A -> outcomeOf B) :
  pol s = Some p -> (forall a, r = Ok a -> steps s e p (k a)) -> steps s e p (check s r k).
Proof.
  intros Hp Hk. destruct r as [a| |]; cbn [check]; [by apply Hk|..].
  all: exists p, None; split; [by apply set_pol_same|constructor].
Qed.

Lemma steps_spending {A} s e p ty v to (r : list bytes * res A) spent out :
  pol s = Some p -> submitsOwn (w s) (walletNode (node e)) ty v to r ->
  (forall t, ownTx (w s) ty v to t -> permitted (w s) p t) -> spentToday p + v <= dailyLimit p ->
  recordSpend (Some p) spent = Some (addSpent p v) ->
  steps s e p (spending s r spent out).
Proof.
  intros Hp [[Hn Hf]|(t & raw & H1 & H2 & H3 & H4)] Hperm Hle Hrec; destruct r as [sent [a|er|]]; cbn [fst snd is_Ok] in *; subst sent; try done.
  1,2: exists p, None; split; [by apply set_pol_same|constructor].
  all: assert (moves t = v) as Hv by (unfold moves; by rewrite (proj1 (proj2 H3))).
  - exists (addSpent p (moves t)), (Some t). cbn [spending fst]. rewrite Hp, Hrec, Hv. split; [done|]. rewrite <- Hv.
    apply (step_sent _ e p t raw true); [done|by apply Hperm|by rewrite Hv|done].
  - exists p, (Some t). split; [by apply set_pol_same|]. apply (step_sent _ e p t raw false); [done|by apply Hperm|by rewrite Hv|done].
  - exists p, (Some t). split; [by apply set_pol_same|]. apply (step_sent _ e p t raw false); [done|by apply Hperm|by rewrite Hv|done].
Qed.

Lemma addSpent_0 p : addSpent p 0 = p.
Proof. unfold addSpent. rewrite Z.add_0_r. by destruct p. Qed.

(** Whatever the tool, the policy's decision makes the transaction permitted. *)
Lemma permitted_own wal p ty v to t action target bond deploy :
  policy_ok p -> 0 <= v -> allowSpend (Some p) action target (Some v) bond deploy = Ok tt -> ownTx wal ty v to t ->
  (ty ∈ [tx.TxTypeBond; tx.TxTypeUnbond; tx.TxTypeFinalizeUnbond] -> bond = true) -> (ty = tx.TxTypeContractDeploy -> deploy = true) ->
  (ty = tx.TxTypeTransfer -> action = str "transfer" /\ ToLower target = hex_EncodeToString to) ->
  (ty = tx.TxTypeContractCall -> action = str "contract_call" /\ ToLower target = hex_EncodeToString to) ->
  permitted wal p t.
Proof.
  intros Hok Hv Ha (<- & Hval & <- & Hown) Hb Hd Ht Hc.
  apply allowSpend_spec in Ha as (A1 & A2 & A3 & A4 & A5 & A6 & A7); [|done..].
  constructor; try done; [by auto|by auto|unfold moves; rewrite Hval; done|..].
  - intros Hty Hne. destruct (Ht Hty) as [E1 E2]. rewrite <- E2. by apply A6.
  - intros Hty Hne. destruct (Hc Hty) as [E1 E2]. rewrite <- E2. by apply A7.
Qed.

(** The common end of the submitting tools. *)
Lemma steps_spend {A} s e p ty v to (r : list bytes * res A) spent out action target bond deploy :
  policy_ok p -> pol s = Some p -> 0 <= v -> spent = Some v \/ (spent = None /\ v = 0) ->
  allowSpend (pol s) action target (Some v) bond deploy = Ok tt ->
  submitsOwn (w s) (walletNode (node e)) ty v to r ->
  (ty ∈ [tx.TxTypeBond; tx.TxTypeUnbond; tx.TxTypeFinalizeUnbond] -> bond = true) -> (ty = tx.TxTypeContractDeploy -> deploy = true) ->
  (ty = tx.TxTypeTransfer -> action = str "transfer" /\ ToLower target = hex_EncodeToString to) ->
  (ty = tx.TxTypeContractCall -> action = str "contract_call" /\ ToLower target = hex_EncodeToString to) ->
  steps s e p (spending s r spent out).
Proof.
  intros Hok Hp Hv Hsp Ha Hr Hb Hd Ht Hc. rewrite Hp in Ha. pose proof Ha as Ha'. apply allowSpend_spec in Ha' as (_ & _ & _ & _ & A5 & _); [|done..].
  apply (steps_spending s e p ty v to); try done.
  - intros t Ho. by apply (permitted_own (w s) p ty v to t action target bond deploy).
  - destruct Hsp as [->|[-> ->]]; [by apply recordSpend_add|by rewrite addSpent_0].
Qed.

Ltac bound H := apply obind_ok_inv in H as (? & ? & H).
Ltac other := intros; first [ set_solver | vm_compute in *; congruence | done ].

Lemma callTool_steps s e p name args : policy_ok p -> pol s = Some p -> steps s e p (callTool s e name args).
Proof.
  intros Hok Hp. unfold callTool. destruct (toolOf name toolCases) as [[]|]; try (by apply steps_reading).
  - apply steps_check; [done|]. intros [to v] Hr. bound Hr. bound Hr. bound Hr. bound Hr. apply Ok_inj in Hr as [= -> ->].
    destruct x2. eapply (steps_spend s e p tx.TxTypeTransfer v to); try done; [|by left|apply Transfer_own|other|].
    + eapply Z.lt_le_incl, parseAmountFields_nonneg; done.
    + intros _. split; [done|]. by apply ToLower_pubkey.
  - apply steps_check; [done|]. intros v Hr. bound Hr. bound Hr. bound Hr. apply Ok_inj in Hr as ->. destruct x1.
    eapply (steps_spend s e p tx.TxTypeBond v); try done; [|by left|apply Bond_own]. eapply parseAmountFields_nonneg; done.
  - apply steps_check; [done|]. intros [] Hr. eapply (steps_spend s e p tx.TxTypeUnbond 0); try done; [by right|apply Unbond_own].
  - apply steps_check; [done|]. intros [] Hr. eapply (steps_spend s e p tx.TxTypeFinalizeUnbond 0); try done; [by right|apply FinalizeUnbond_own].
  - apply steps_check; [done|]. intros [] Hr. eapply (steps_spend s e p tx.TxTypeClaimRewards 0); try done; [by right|apply ClaimRewards_own|other].
  - apply steps_check; [done|]. intros [wasm v] Hr. bound Hr. bound Hr. bound Hr. bound Hr. apply Ok_inj in Hr as [= -> ->]. destruct x2.
    eapply (steps_spend s e p tx.TxTypeContractDeploy v); try done; [|by left|apply DeployContract_own|other]. eapply parseAmountFields_nonneg; done.
  - apply steps_check; [done|]. intros [[addr data] v] Hr. bound Hr. bound Hr. bound Hr. bound Hr. bound Hr. apply Ok_inj in Hr as [= -> -> ->]. destruct x3.
    eapply (steps_spend s e p tx.TxTypeContractCall v addr); try done; [|by left|apply CallContract_own|other|].
    + eapply parseAmountFields_nonneg; done.
    + intros _. split; [done|]. by apply ToLower_contract.
  - apply steps_check; [done|]. intros [[[[f addr] sel] data] v] Hr. bound Hr. bound Hr. bound Hr. bound Hr. bound Hr. bound Hr.
    apply Ok_inj in Hr as [= -> -> -> -> ->]. destruct x4.
    eapply (steps_spend s e p tx.TxTypeContractCall v addr); try done; [|by left|apply CallContract_own|other|].
    + eapply parseAmountFields_nonneg; done.
    + intros _. split; [done|]. by apply ToLower_contract.
Qed.

(** ** Sequences of requests *)

(** The answer says the tool did what was asked. *)
Definition reported (r : res (option response)) : bool :=
  match r with Ok (Some (ToolResult _)) => true | _ => false end.

Lemma serveOne_steps s e p msg s' sent r :
  policy_ok p -> pol s = Some p -> serveOne s e msg = (s', (sent, r)) ->
  exists p' ot, s' = set_pol s (Some p') /\ step (w s) e p p' sent (reported r) ot.
Proof.
  intros Hok Hp Hs.
  assert (forall x, (s, ([], x)) = (s', (sent, r)) -> exists p' ot, s' = set_pol s (Some p') /\ step (w s) e p p' sent (reported r) ot) as Hnone.
  { intros x [= <- <- <-]. exists p, None. split; [by apply set_pol_same|constructor]. }
  unfold serveOne in Hs. destruct (json_request msg) as [req| |]; [|by eapply Hnone..].
  destruct (isEmpty (ID req)); [by eapply Hnone|]. unfold handle in Hs.
  destruct (bool_decide _); [by eapply Hnone|]. destruct (bool_decide _); [by eapply Hnone|].
  destruct (bool_decide _); [|by eapply Hnone]. destruct (json_toolCall (Params req)) as [[name args]| |]; [|by eapply Hnone..].
  pose proof (callTool_steps s e p name args Hok Hp) as (p' & ot & H1 & H2).
  destruct (callTool s e name args) as [s2 [sent2 r2]]. cbn [fst snd] in *. injection Hs as <- <- <-.
  exists p', ot. split; [done|]. by destruct r2.
Qed.

(** The limits are fixed when the policy is loaded. *)
Definition sameLimits p p' : Prop :=
  file p' = file p /\ maxTransfer p' = maxTransfer p /\ dailyLimit p' = dailyLimit p /\
  allowedRecipients p' = allowedRecipients p /\ allowedContracts p' = allowedContracts p.

Lemma permitted_limits wal p p' t : sameLimits p p' -> permitted wal p' t -> permitted wal p t.
Proof. intros (E1 & E2 & E3 & E4 & E5) [P1 P2 P3 P4 P5 P6 P7]. rewrite E1, E2, E4, E5 in *. by constructor. Qed.

(** What an answered request submitted, checked against the policy. *)
Definition entry (wal : wallet.Wallet) p (x : World * (list bytes * res (option response))) (ot : option tx.Tx) : Prop :=
  let '(e, (sent, r)) := x in
  match ot with
  | None => sent = []
  | Some t => exists raw, sent = [raw] /\ tx.Serialize t = Ok raw /\ permitted wal p t /\
      (reported r = true <-> SubmitTx (node e) raw = Ok true)
  end.

(** The value of a transaction that was reported as submitted. *)
Definition counted (x : list bytes * res (option response)) (ot : option tx.Tx) : Z :=
  match ot with Some t => if reported (snd x) then moves t else 0 | None => 0 end.

Lemma step_limits wal e p p' sent r ot :
  policy_ok p -> step wal e p p' sent (reported r) ot ->
  sameLimits p p' /\ policy_ok p' /\ entry wal p (e, (sent, r)) ot /\ spentToday p' = spentToday p + counted (sent, r) ot.
Proof.
  intros Hok Hst. pose proof Hok as [Hm Hd Hsp]. inversion Hst as [ok|t raw ok H1 H2 H3 H4]; subst.
  - split_and!; [done|done|done|]. cbn. lia.
  - pose proof (amount_bounded _ _ _ H2) as Hb. cbn [counted snd]. destruct (reported r) eqn:Er; split_and!; try done.
    + constructor; cbn; lia.
    + cbn [entry]. exists raw. by rewrite Er.
    + cbn [entry]. exists raw. by rewrite Er.
    + lia.
Qed.

Lemma entries_limits wal p p' xs ots : sameLimits p p' -> Forall2 (entry wal p') xs ots -> Forall2 (entry wal p) xs ots.
Proof.
  intros Hl HF. eapply Forall2_impl; [exact HF|]. intros [e [sent r]] [t|]; [|done].
  intros (raw & E1 & E2 & E3 & E4). exists raw. split_and!; try done. by eapply permitted_limits.
Qed.

Lemma serve_entries s p msgs s' log :
  policy_ok p -> pol s = Some p -> serve s msgs = (s', log) ->
  exists p' ots, s' = set_pol s (Some p') /\ sameLimits p p' /\ policy_ok p' /\
    Forall2 (entry (w s) p) (zip (map fst msgs) log) ots /\ spentToday p' = spentToday p + sumZ (zip_with counted log ots).
Proof.
  revert s p s' log. induction msgs as [|[e msg] msgs IH]; intros s p s' log Hok Hp Hs.
  { injection Hs as <- <-. exists p, []. split_and!; [by apply set_pol_same|done|done|constructor|cbn; lia]. }
  cbn [serve] in Hs. destruct (serveOne s e msg) as [s1 [sent r]] eqn:E1. cbn [snd] in Hs.
  apply (serveOne_steps s e p) in E1 as (p1 & ot & -> & Hst); [|done..].
  apply step_limits in Hst as (L1 & O1 & En & Sp); [|done].
  destruct (serve (set_pol s (Some p1)) msgs) as [s2 log2] eqn:E2.
  apply (IH _ p1) in E2 as (p2 & ots & -> & L2 & O2 & En2 & Sp2); [|done..].
  apply (entries_limits _ p p1) in En2; [|done]. destruct L1 as (?&?&?&?&?), L2 as (?&?&?&?&?).
  assert (sameLimits p p2) by (repeat split; congruence). destruct r as [x|x|].
  1,2: injection Hs as <- <-; exists p2, (ot :: ots); split_and!; [done|done|done|by constructor|]; cbn [zip_with sumZ foldr]; unfold sumZ in Sp2; lia.
  injection Hs as <- <-. exists p1, [ot]. split_and!; [done|done|done|apply Forall2_cons_2; [done|]; destruct msgs; constructor|]. cbn [zip_with sumZ foldr]. lia.
Qed.

Lemma serve_length s msgs : (length (snd (serve s msgs)) <= length msgs)%nat.
Proof.
  revert s. induction msgs as [|[e msg] msgs IH]; intros s; [done|]. cbn [serve]. destruct (serveOne s e msg) as [s1 [sent r]].
  specialize (IH s1). destruct (serve s1 msgs) as [s2 log]. cbn [snd] in *. destruct r; cbn [snd length] in *; lia.
Qed.

(** ** The policy file *)
Lemma parsePolicyAmount_nonneg a b v : parsePolicyAmount a b = Ok v -> 0 <= v.
Proof.
  unfold parsePolicyAmount. intros Hv. destruct (_ && negb (isEmpty b)); [done|].
  destruct (isEmpty a && isEmpty b); [by apply Ok_inj in Hv as <-|].
  destruct (negb _); [by eapply ParseQuanta_nonneg|by eapply ParseFRG_nonneg].
Qed.

Lemma loadPolicy_ok data autonomous p : loadPolicy data autonomous = Ok p -> policy_ok p /\ spentToday p = 0.
Proof.
  unfold loadPolicy. intros Hl. apply obind_ok_inv in Hl as (f & _ & Hl). apply obind_ok_inv in Hl as (m & Hm & Hl).
  apply obind_ok_inv in Hl as (d & Hd & <-%Ok_inj). apply parsePolicyAmount_nonneg in Hm, Hd. split; [|done].
  constructor; cbn; lia.
Qed.

(** C33.  An agent stays within its policy.  Whatever requests an agent makes and whatever the node answers,
    each request submits nothing or one transaction of the agent's own
    account that the policy permits: submitting, bonding or deploying is
    allowed, the value is within [max_transfer], and the recipient or contract
    is on the list when there is one.  The transactions the server reports
    as done, which are those the node says it took, move at most
    [daily_limit] together. *)
Theorem mcp_spend_bounded data autonomous p wal furl murl msgs s log :
  loadPolicy data autonomous = Ok p -> serve (mkServer wal furl murl (Some p)) msgs = (s, log) ->
  exists ots, Forall2 (entry wal p) (zip (map fst msgs) log) ots /\ sumZ (zip_with counted log ots) <= dailyLimit p.
Proof.
  intros [Hok Hz0]%loadPolicy_ok Hs. apply (serve_entries _ p) in Hs as (p' & ots & _ & (_ & _ & Hd & _) & [_ _ Hsp] & En & Sp); [|done..].
  exists ots. split; [exact En|]. lia.
Qed.

(** Without permission to submit, no request submits anything. *)
Corollary mcp_read_only data autonomous p wal furl murl msgs s log :
  loadPolicy data autonomous = Ok p -> AllowSubmit (file p) = false ->
  serve (mkServer wal furl murl (Some p)) msgs = (s, log) -> Forall (fun x => fst x = []) log.
Proof.
  intros [Hok Hz0]%loadPolicy_ok Hno Hs.
  pose proof (serve_length (mkServer wal furl murl (Some p)) msgs) as Hlen. rewrite Hs in Hlen. cbn [snd] in Hlen. apply (serve_entries _ p) in Hs as (p' & ots & _ & _ & _ & En & _); [|done..].
  apply Forall_lookup. intros i [sent r] Hi.
  destruct (lookup_lt_is_Some_2 (map fst msgs) i) as [e He]; [apply lookup_lt_Some in Hi; rewrite length_map; lia|].
  assert (zip (map fst msgs) log !! i = Some (e, (sent, r))) as Hz by (by apply lookup_zip_Some).
  destruct (Forall2_lookup_l _ _ _ _ _ En Hz) as (ot & _ & Hen). destruct ot as [t|]; [|done].
  destruct Hen as (raw & _ & _ & Hp & _). apply submit_allowed in Hp. congruence.
Qed.

(** ** Readiness *)
Lemma addCheck_ready acc ok c a : fst (fst (addCheck acc ok c a)) = fst (fst acc) && ok.
Proof. destruct acc as [[ready checks] actions], ok; cbn; by rewrite ?andb_true_r, ?andb_false_r. Qed.

(** A validator is ready just when there is a validator set, the validator is
    listed in it and its listed bond reaches the minimum. *)
Theorem operatorReadiness_ready s e hexKey minRaw minQuanta r :
  operatorReadiness s e hexKey minRaw minQuanta = Ok r ->
  exists min st vals,
    parseAmountFields minRaw minQuanta false = Ok min /\ GetStatus (node e) = Ok st /\ ListValidators (node e) = Ok vals /\
    (Ready r = true <-> 0 < ValidatorCount st /\
       exists bond, bondOf vals (ValidatorPubkey r) = Some bond /\
         (if min =? 0 then 1000 * denom.QuantaPerFRG else min) <= default 0 (denom.SetString bond)).
Proof.
  unfold operatorReadiness. intros Hr. apply obind_ok_inv in Hr as (min & Hmin & Hr). apply obind_ok_inv in Hr as (pk & _ & Hr).
  apply obind_ok_inv in Hr as (st & Hst & Hr). apply obind_ok_inv in Hr as (acct & _ & Hr). apply obind_ok_inv in Hr as (vals & Hvals & Hr).
  exists min, st, vals. split_and!; try done. cbv zeta in Hr.
  revert Hr. generalize (if min =? 0 then 1000 * denom.QuantaPerFRG else min) as mb. intros mb.
  match goal with |- context [addCheck ?a ?b ?c ?d] => destruct (addCheck a b c d) as [[ready checks] actions] eqn:Ea end.
  intros Hr. apply (f_equal (fun x => fst (fst x))) in Ea. rewrite !addCheck_ready in Ea. cbn [fst andb] in Ea.
  apply Ok_inj in Hr as <-. cbn [Ready ValidatorPubkey]. subst ready.
  destruct (bondOf vals (hex_EncodeToString pk)) as [bond|] eqn:Eb; cbn [from_option id].
  - rewrite (bool_decide_true (is_Some (Some bond))) by done. rewrite orb_true_r, !andb_true_r. cbn [negb orb].
    rewrite andb_true_iff, Z.gtb_ltb, Z.ltb_lt, Z.geb_leb, Z.leb_le. split; [|naive_solver].
    intros [H1 H2]. split; [done|]. by exists bond.
  - rewrite (bool_decide_false (is_Some None)) by (by intros [? ?]). rewrite !andb_false_r. split; [done|]. intros (_ & bond & ? & _). done.
Qed.

(** ** Answers that get lost *)

(** While the replies to submissions are lost nothing is counted: the policy
    after any requests is the one before them, so each of them is decided
    as if none had been sent. *)
Lemma step_lost wal e p p' sent ok ot :
  (forall raw, SubmitTx (node e) raw <> Ok true) -> step wal e p p' sent ok ot -> p' = p.
Proof. intros Hl Hst. inversion Hst as [|t raw ok' H1 H2 H3 H4]; subst; [done|]. destruct ok; [|done]. exfalso. apply (Hl raw). by apply H4. Qed.

Theorem mcp_lost_uncounted s p msgs :
  policy_ok p -> pol s = Some p -> Forall (fun x => forall raw, SubmitTx (node (fst x)) raw <> Ok true) msgs -> fst (serve s msgs) = s.
Proof.
  intros Hok Hp HF. revert s Hp. induction HF as [|[e msg] msgs Hl HF IH]; intros s Hp; [done|]. cbn [serve].
  destruct (serveOne s e msg) as [s1 [sent r]] eqn:E1. apply (serveOne_steps s e p) in E1 as (p1 & ot & -> & Hst); [|done..].
  apply step_lost in Hst as ->; [|done]. rewrite <- (set_pol_same s p Hp). cbn [snd].
  destruct r; [..|done]; specialize (IH s Hp); by destruct (serve s msgs).
Qed.
End Mcp.
