(* ===== verification/Framing.v ===== *)
(** * cmd/frg-mcp: messages on the pipe (main.go, serve)

    A message is a MIME header with its length and that many bytes.  The
    reader is net/textproto over bufio, modelled on the bytes still to come;
    the end of them is the end of the input. *)

From S2P Require Import Prelude GoBytes Errors Platform Denom Wallet Frontend Mcp.

(** ** Lines (bufio.Reader.ReadLine, textproto.Reader) *)
Module textproto.

Definition SP : byte := x20.
Definition TAB : byte := x09.
Definition CR : byte := x0d.
Definition LF : byte := x0a.

Definition isSpace (b : byte) : bool := bool_decide (b = SP) || bool_decide (b = TAB).

Fixpoint trimLeft (s : bytes) : bytes :=
  match s with b :: r => if isSpace b then trimLeft r else s | [] => [] end.

Definition trim (s : bytes) : bytes := reverse (trimLeft (reverse (trimLeft s))).

(** The bytes up to a line feed, without it, and what follows; no line feed: [None]. *)
Fixpoint toLF (s : bytes) : option (bytes * bytes) :=
  match s with
  | [] => None
  | b :: r => if bool_decide (b = LF) then Some ([], r) else match toLF r with Some (l, rest) => Some (b :: l, rest) | None => None end
  end.

Definition dropCR (l : bytes) : bytes :=
  match reverse l with b :: r => if bool_decide (b = CR) then reverse r else l | [] => l end.

(** The last line may lack its end; a carriage return is then kept. *)
Definition ReadLine (s : bytes) : option (bytes * bytes) :=
  match toLF s with
  | Some (l, rest) => Some (dropCR l, rest)
  | None => match s with [] => None | _ => Some (s, []) end
  end.

(** A line and its continuation lines, those that begin with blanks. *)
Fixpoint continuation (fuel : nat) (acc s : bytes) : bytes * bytes :=
  match fuel with
  | O => (acc, s)
  | S fuel =>
    if bool_decide (trimLeft s = s) then (acc, s) else
    let acc := acc ++ [SP] in
    match ReadLine (trimLeft s) with
    | None => (acc, [])
    | Some (l, rest) => continuation fuel (acc ++ trim l) rest
    end
  end.

Definition readContinuedLine (s : bytes) : res (bytes * bytes) :=
  match ReadLine s with
  | None => failf "EOF"
  | Some ([], rest) => Ok ([], rest)
  | Some (l, rest) =>
    if negb (bool_decide (x3a ∈ l)) then failf "malformed MIME header line" else Ok (continuation (length rest) (trim l) rest)
  end.

(** ** Keys *)
Definition isLetter (b : byte) : bool :=
  let z := byte_to_Z b in ((97 <=? z) && (z <=? 122)) || ((65 <=? z) && (z <=? 90)).

(** A token of RFC 7230. *)
Definition validHeaderFieldByte (b : byte) : bool :=
  isLetter b || denom.is_digit b || bool_decide (b ∈ str "!#$%&'*+-.^_`|~").

Definition upper (b : byte) : byte := let z := byte_to_Z b in if (97 <=? z) && (z <=? 122) then byte_of_Z (z - 32) else b.
Definition lower (b : byte) : byte := let z := byte_to_Z b in if (65 <=? z) && (z <=? 90) then byte_of_Z (z + 32) else b.

Fixpoint capitalise (first : bool) (s : bytes) : bytes :=
  match s with
  | [] => []
  | b :: r => (if first then upper b else lower b) :: capitalise (bool_decide (b = x2d)) r
  end.

(** The key in canonical form, and whether it is one; a key with blanks in it is left alone. *)
Definition canonicalMIMEHeaderKey (k : bytes) : option bytes :=
  if negb (forallb (fun b => validHeaderFieldByte b || bool_decide (b = SP)) k) then None else
  Some (if bool_decide (SP ∈ k) then k else capitalise true k).

(** No control bytes but the tab. *)
Definition validHeaderValueByte (b : byte) : bool :=
  let z := byte_to_Z b in bool_decide (b = TAB) || ((32 <=? z) && negb (z =? 127)).

Fixpoint cut (sep : byte) (s : bytes) : option (bytes * bytes) :=
  match s with
  | [] => None
  | b :: r => if bool_decide (b = sep) then Some ([], r) else match cut sep r with Some (k, v) => Some (b :: k, v) | None => None end
  end.

(** ** The header *)
Fixpoint headerLines (fuel : nat) (s : bytes) (h : list (bytes * bytes)) : res (list (bytes * bytes) * bytes) :=
  match fuel with
  | O => failf "EOF"
  | S fuel =>
    let* '(kv, rest) := readContinuedLine s in
    match kv with
    | [] => Ok (h, rest)
    | _ =>
      match cut x3a kv with
      | None => failf "malformed MIME header line"
      | Some (k, v) =>
        match canonicalMIMEHeaderKey k with
        | None => failf "malformed MIME header line"
        | Some key =>
          if negb (forallb validHeaderValueByte v) then failf "malformed MIME header line" else
          if bool_decide (key = []) then headerLines fuel rest h else headerLines fuel rest (h ++ [(key, trimLeft v)])
        end
      end
    end
  end.

(** [ReadMIMEHeader]: a line is consumed per turn, so the length is fuel enough. *)
Definition ReadMIMEHeader (s : bytes) : res (list (bytes * bytes) * bytes) :=
  match s with
  | b :: _ => if isSpace b then failf "malformed MIME header initial line" else headerLines (S (length s)) s []
  | [] => failf "EOF"
  end.

Definition Get (h : list (bytes * bytes)) (key : bytes) : bytes :=
  match List.find (fun kv => bool_decide (fst kv = capitalise true key)) h with Some (_, v) => v | None => [] end.
End textproto.

(** ** Messages *)
Module framing.
Import textproto.

(** [strconv.Atoi] *)
Definition Atoi (s : bytes) : option Z :=
  let value ds := if bool_decide (ds <> []) && denom.digitsOnly ds then Some (denom.digits_value ds) else None in
  let inRange z := if (- two63 <=? z) && (z <? two63) then Some z else None in
  match s with
  | x2d :: ds => match value ds with Some z => inRange (- z) | None => None end
  | x2b :: ds => match value ds with Some z => inRange z | None => None end
  | _ => match value s with Some z => inRange z | None => None end
  end.

(** [make([]byte, n)] of more bytes than the address space has panics. *)
Definition maxAlloc : Z := 2 ^ 48.

(** A message and the bytes after it. *)
Definition readMessage (r : bytes) : res (bytes * bytes) :=
  let* '(headers, r) := ReadMIMEHeader r in
  let rawLen := Get headers (str "Content-Length") in
  if bool_decide (rawLen = []) then failf "missing Content-Length" else
  match Atoi rawLen with
  | None => failf "invalid Content-Length"
  | Some n =>
    if n <? 0 then failf "invalid Content-Length" else
    if n >? maxAlloc then Panic else
    if zlen r <? n then failf "unexpected EOF" else Ok (take (Z.to_nat n) r, drop (Z.to_nat n) r)
  end.

Definition writeMessage (data : bytes) : bytes :=
  str "Content-Length: " ++ denom.big_String (zlen data) ++ [CR; LF; CR; LF] ++ data.

(** ** The server on its pipe *)
Section Serve.
Context `{Platform} `{mcp.Json} (marshal : bytes -> mcp.response -> bytes).

(** The id a response repeats; a message that is no request has none. *)
Definition idOf (msg : bytes) : bytes := match mcp.json_request msg with Ok req => mcp.ID req | _ => [] end.

(** [serve]: the world each request meets; what is written.  It ends with the
    input, with a message that cannot be read, or with a panic. *)
Fixpoint serve (s : mcp.mcpServer) (worlds : list mcp.World) (input : bytes) : mcp.mcpServer * (list (list bytes) * bytes * res unit) :=
  match worlds with
  | [] => (s, ([], [], Ok tt))
  | e :: worlds =>
    match readMessage input with
    | Err e => (s, ([], [], Err e))
    | Panic => (s, ([], [], Panic))
    | Ok (msg, input) =>
      let '(s, (sent, r)) := mcp.serveOne s e msg in
      match r with
      | Panic => (s, ([sent], [], Panic))
      | Err e => (s, ([sent], [], Err e))
      | Ok resp =>
        let out := match resp with Some resp => writeMessage (marshal (idOf msg) resp) | None => [] end in
        let '(s, (log, written, r)) := serve s worlds input in (s, (sent :: log, out ++ written, r))
      end
    end
  end.
End Serve.
End framing.

(** ** What is written is read *)
Section Framed.
Import textproto framing.

Lemma trimLeft_plain s : (forall b r, s = b :: r -> isSpace b = false) -> trimLeft s = s.
Proof. destruct s as [|b r]; [done|]. intros Hb. cbn. by rewrite (Hb b r). Qed.

Lemma toLF_app l rest : Forall (fun b => b <> LF) l -> toLF (l ++ LF :: rest) = Some (l, rest).
Proof. induction 1 as [|b l Hb _ IH]; cbn; [done|]. by rewrite bool_decide_eq_false_2, IH. Qed.

Lemma ReadLine_crlf l rest : Forall (fun b => b <> LF) l -> ReadLine (l ++ CR :: LF :: rest) = Some (l, rest).
Proof.
  intros Hl. unfold ReadLine. replace (l ++ CR :: LF :: rest) with ((l ++ [CR]) ++ LF :: rest) by (by rewrite <- app_assoc).
  rewrite toLF_app by (apply Forall_app; split; [done|by repeat constructor]). unfold dropCR. rewrite reverse_snoc.
  rewrite bool_decide_eq_true_2 by done. by rewrite reverse_involutive.
Qed.

Lemma digit_not b : denom.is_digit b = true -> isSpace b = false /\ b <> LF /\ b <> CR /\ validHeaderValueByte b = true.
Proof. destruct b; vm_compute; intros Hd; try discriminate Hd; split_and!; discriminate || reflexivity. Qed.

Lemma digits_plain ds : denom.digitsOnly ds = true ->
  Forall (fun b => b <> LF) ds /\ forallb validHeaderValueByte ds = true /\ trimLeft ds = ds /\ trim ds = ds.
Proof.
  intros Hd. assert (Forall (fun b => denom.is_digit b = true) ds) as Hf.
  { apply Forall_forall. intros b Hb. apply (proj1 (forallb_forall _ _) Hd). by apply list_elem_of_In. }
  assert (forall l, Forall (fun b => denom.is_digit b = true) l -> trimLeft l = l) as Ht.
  { intros l [|b r Hb _]; [done|]. cbn. by rewrite (proj1 (digit_not b Hb)). }
  split_and!.
  - eapply Forall_impl; [exact Hf|]. intros b Hb. by apply digit_not.
  - apply forallb_forall. intros b Hb%list_elem_of_In. rewrite Forall_forall in Hf. by apply digit_not, Hf.
  - by apply Ht.
  - unfold trim. rewrite (Ht ds), (Ht (reverse ds)) by (done || by apply Forall_reverse). by rewrite reverse_involutive.
Qed.

Lemma Atoi_digits ds : ds <> [] -> denom.digitsOnly ds = true -> denom.digits_value ds < two63 -> 0 <= denom.digits_value ds -> Atoi ds = Some (denom.digits_value ds).
Proof.
  intros Hne Hd Hlt Hge. unfold Atoi. rewrite (bool_decide_eq_true_2 (ds <> [])), Hd by done. cbn [andb].
  replace ((- two63 <=? denom.digits_value ds) && (denom.digits_value ds <? two63)) with true.
  2:{ symmetry. apply andb_true_iff. rewrite Z.leb_le, Z.ltb_lt. unfold two63 in *. lia. }
  destruct (digits_sign ds Hne Hd) as (c & r & -> & Hc). destruct c; try done; vm_compute in Hc; discriminate Hc.
Qed.

Lemma trim_ends b l c : isSpace b = false -> isSpace c = false -> trim ((b :: l) ++ [c]) = (b :: l) ++ [c].
Proof.
  intros Hb Hc. unfold trim. cbn [app trimLeft]. rewrite Hb. change (b :: l ++ [c]) with ((b :: l) ++ [c]). rewrite reverse_snoc.
  cbn [trimLeft]. rewrite Hc. by rewrite reverse_cons, reverse_involutive.
Qed.

Lemma readContinued_plain s b l c rest :
  ReadLine s = Some (b :: l, c :: rest) -> x3a ∈ b :: l -> isSpace c = false -> readContinuedLine s = Ok (trim (b :: l), c :: rest).
Proof.
  intros Hr Hc Hs. unfold readContinuedLine. rewrite Hr, (bool_decide_eq_true_2 (x3a ∈ b :: l)) by done. cbn [negb length continuation trimLeft].
  rewrite Hs. by rewrite bool_decide_eq_true_2.
Qed.

Definition lengthLine (n : Z) : bytes := str "Content-Length: " ++ denom.big_String n.

(** The line with the length is the whole header. *)
Lemma header_read n rest : 0 <= n -> ReadMIMEHeader (lengthLine n ++ CR :: LF :: CR :: LF :: rest) = Ok ([(str "Content-Length", denom.big_String n)], rest).
Proof.
  intros Hn. destruct (big_String_spec n Hn) as (Hne & Hd & _ & _). destruct (digits_plain _ Hd) as (Hlf & Hv & Htl & Htr).
  set (ds := denom.big_String n) in *. unfold lengthLine. fold ds.
  assert (ReadLine ((str "Content-Length: " ++ ds) ++ CR :: LF :: CR :: LF :: rest) = Some (str "Content-Length: " ++ ds, CR :: LF :: rest)) as Hr1.
  { apply ReadLine_crlf. apply Forall_app. split; [|done]. by repeat constructor. }
  assert (ReadLine (CR :: LF :: rest) = Some ([], rest)) as Hr2 by apply (ReadLine_crlf [] rest (Forall_nil_2 _)).
  assert (trim (str "Content-Length: " ++ ds) = str "Content-Length: " ++ ds) as Ht.
  { destruct (last_digit ds Hne Hd) as (r & d & -> & Hdd). rewrite app_assoc.
    change (str "Content-Length: " ++ r) with (x43 :: (str "ontent-Length: " ++ r)). apply trim_ends; [done|by apply digit_not]. }
  unfold ReadMIMEHeader. set (input := (str "Content-Length: " ++ ds) ++ CR :: LF :: CR :: LF :: rest) in *.
  assert (readContinuedLine input = Ok (str "Content-Length: " ++ ds, CR :: LF :: rest)) as Hk1.
  { refine (eq_trans _ (f_equal (fun l => Ok (l, CR :: LF :: rest)) Ht)). apply (readContinued_plain input x43 (str "ontent-Length: " ++ ds) CR (LF :: rest)); [exact Hr1| |done].
    change (x43 :: str "ontent-Length: " ++ ds) with (str "Content-Length" ++ x3a :: x20 :: ds). apply elem_of_app. right. apply list_elem_of_here. }
  assert (readContinuedLine (CR :: LF :: rest) = Ok ([], rest)) as Hk2 by (unfold readContinuedLine; by rewrite Hr2).
  assert (exists m, length input = S m) as [m Hm] by (by eexists). rewrite Hm.
  change (headerLines (S (S m)) input [] = Ok ([(str "Content-Length", ds)], rest)).
  unfold headerLines at 1. fold headerLines. rewrite Hk1. cbn [obind].
  change (cut x3a (str "Content-Length: " ++ ds)) with (Some (str "Content-Length", x20 :: ds)).
  change (canonicalMIMEHeaderKey (str "Content-Length")) with (Some (str "Content-Length")).
  cbn [forallb]. rewrite Hv. cbn [trimLeft]. rewrite Htl. cbn. rewrite Hk2. reflexivity.
Qed.

(** What [writeMessage] writes, followed by
    anything, is read by [readMessage] as exactly the message, whatever bytes
    it has, and the reader stands at what follows. *)
Lemma framed_read data rest : zlen data <= maxAlloc -> readMessage (writeMessage data ++ rest) = Ok (data, rest).
Proof.
  intros Hl. unfold readMessage, writeMessage. pose proof (zlen_nonneg data) as Hn.
  replace ((str "Content-Length: " ++ denom.big_String (zlen data) ++ [CR; LF; CR; LF] ++ data) ++ rest)
    with (lengthLine (zlen data) ++ CR :: LF :: CR :: LF :: data ++ rest) by (unfold lengthLine; rewrite <- !app_assoc; reflexivity).
  rewrite header_read by done. cbn [obind]. destruct (big_String_spec (zlen data) Hn) as (Hne & Hd & Hval & _).
  change (Get [(str "Content-Length", denom.big_String (zlen data))] (str "Content-Length")) with (denom.big_String (zlen data)).
  rewrite bool_decide_eq_false_2 by done. rewrite Atoi_digits, Hval by (rewrite ?Hval; done || (unfold maxAlloc, two63 in *; lia)).
  rewrite (proj2 (Z.ltb_ge _ _)) by done. rewrite Z.gtb_ltb, (proj2 (Z.ltb_ge _ _)) by done.
  rewrite zlen_app, (proj2 (Z.ltb_ge _ _)) by (pose proof (zlen_nonneg rest); lia).
  unfold zlen. by rewrite Nat2Z.id, take_app_length, drop_app_length.
Qed.

(** Nothing bounds the length a header announces: beyond the address space the
    server panics before it has read a byte of the message. *)
Theorem huge_length_panics n rest : maxAlloc < n < two63 -> readMessage (lengthLine n ++ CR :: LF :: CR :: LF :: rest) = Panic.
Proof.
  intros Hn. assert (0 <= n) as Hn0 by (unfold maxAlloc in *; lia). unfold readMessage. rewrite header_read by done. cbn [obind].
  destruct (big_String_spec n Hn0) as (Hne & Hd & Hval & _).
  change (Get [(str "Content-Length", denom.big_String n)] (str "Content-Length")) with (denom.big_String n).
  rewrite bool_decide_eq_false_2 by done. rewrite Atoi_digits, Hval by (rewrite ?Hval; done || lia).
  rewrite (proj2 (Z.ltb_ge _ _)) by done. by rewrite Z.gtb_ltb, (proj2 (Z.ltb_lt _ _)) by lia.
Qed.
End Framed.

(** ** A session over the pipe *)
Section Session.
Context `{Platform} `{mcp.Json} (marshal : bytes -> mcp.response -> bytes).
Import framing.
Implicit Types (s : mcp.mcpServer).

(** The agent's end: the messages read until the output ends. *)
Fixpoint readAll (fuel : nat) (r : bytes) : list bytes :=
  match fuel with
  | O => []
  | S fuel => match readMessage r with Ok (msg, r) => msg :: readAll fuel r | _ => [] end
  end.

Definition answerOf (x : bytes * (list bytes * res (option mcp.response))) : option bytes :=
  match snd (snd x) with Ok (Some resp) => Some (marshal (idOf (fst x)) resp) | _ => None end.

Definition answersOf (msgs : list bytes) (log : list (list bytes * res (option mcp.response))) : list bytes := omap answerOf (zip msgs log).

Lemma serveOne_answers s e msg s' sent x : mcp.serveOne s e msg <> (s', (sent, Err x)).
Proof.
  unfold mcp.serveOne. destruct (mcp.json_request msg) as [req| |]; [|done..]. destruct (frontend.isEmpty _); [done|].
  unfold mcp.handle. repeat case_match; intros He; simplify_eq/=.
Qed.

Lemma frames_read answers rest fuel :
  Forall (fun a => zlen a <= maxAlloc) answers -> (length answers < fuel)%nat -> readMessage rest = failf "EOF" ->
  readAll fuel (concat (map writeMessage answers) ++ rest) = answers.
Proof.
  intros Ha. revert fuel. induction Ha as [|a answers Hl _ IH]; intros fuel Hf Hr.
  - destruct fuel; [done|]. cbn. by rewrite Hr.
  - destruct fuel as [|fuel]; [cbn in Hf; lia|]. cbn [map concat readAll]. rewrite <- app_assoc, framed_read by done. f_equal. apply IH; [cbn in Hf; lia|done].
Qed.

(** C38.  A session over the pipe is the session of its messages.  If an agent writes
    requests with their lengths, whatever bytes they contain, the server runs
    exactly these requests in order, as [mcp.serve] does: it submits the same
    transactions and ends in the same state; and the agent reads back exactly
    the answers, in order, each under the id of its request. *)
Theorem pipe_carries_session s worlds msgs s' log fuel :
  Forall (fun m => zlen m <= maxAlloc) msgs -> length worlds = length msgs ->
  mcp.serve s (zip worlds msgs) = (s', log) -> Forall (fun a => zlen a <= maxAlloc) (answersOf msgs log) -> (length msgs < fuel)%nat ->
  exists written r, serve marshal s worlds (concat (map writeMessage msgs)) = (s', (map fst log, written, r)) /\
    readAll fuel written = answersOf msgs log /\ (r = Ok tt \/ r = Panic).
Proof.
  intros Hm Hl Hs Ha Hf. assert (exists r, serve marshal s worlds (concat (map writeMessage msgs)) =
    (s', (map fst log, concat (map writeMessage (answersOf msgs log)), r)) /\ (r = Ok tt \/ r = Panic) /\ (length (answersOf msgs log) <= length msgs)%nat)
    as (r & Hserve & Hr & Hlen).
  { clear Ha Hf fuel. revert s worlds s' log Hl Hs. induction Hm as [|m msgs Hmax _ IH]; intros s worlds s' log Hl Hs.
    - destruct worlds; [|done]. cbn in Hs. injection Hs as <- <-. exists (Ok tt). cbn. auto.
    - destruct worlds as [|e worlds]; [done|]. cbn [zip zip_with] in Hs. cbn [mcp.serve map concat] in *. cbn [serve]. rewrite framed_read by done.
      destruct (mcp.serveOne s e m) as [s1 [sent r1]] eqn:E1. cbn [snd] in Hs. destruct r1 as [resp|x|].
      + destruct (mcp.serve s1 (zip_with pair worlds msgs)) as [s2 log2] eqn:E2. injection Hs as <- <-.
        destruct (IH s1 worlds s2 log2) as (r & Hsv & Hr & Hlen); [by injection Hl|exact E2|]. rewrite Hsv. exists r.
        split; [|split; [done|destruct resp; cbn; unfold answersOf in Hlen; lia]]. destruct resp as [resp|]; cbn; reflexivity.
      + by apply serveOne_answers in E1.
      + injection Hs as <- <-. exists Panic. split; [|split; [by right|]]; unfold answersOf; cbn [zip zip_with omap list_omap]; destruct msgs; cbn; auto with lia. }
  exists (concat (map writeMessage (answersOf msgs log))), r. split; [done|]. split; [|done].
  rewrite <- (app_nil_r (concat _)). apply frames_read; [done|lia|done].
Qed.
End Session.
