(* ===== verification/WalletApi.v ===== *)
(** * cmd/frg-wallet: the wallet as a local HTTP API (main.go)

    A request is its method, its path, its query parameters and its body; an
    answer is a status and a payload.  Decoding of JSON bodies is the class
    [BodyJson].  The text functions are those of [frontend]. *)

From S2P Require Import Prelude GoBytes Errors Platform Hex Tx TxProofs TxSigProofs KV Denom Contract Wallet Frontend.
Import frontend.

Module walletapi.

(** ** Key files *)
Inductive fileRead : Type := NotExist | ReadError | Data (d : bytes).

(** [main] of frg-wallet and [loadMCPKeypair] of frg-mcp: the key of the file,
    or a new one that is written to it.  [fresh] is what generating a key
    gives, [written] whether the file can be written.  The first component is
    what the file holds afterwards if it was written. *)
Definition loadOrCreate `{Platform} (f : fileRead) (createMissing : bool) (fresh : res keys.Keypair) (written : bool) :
    option bytes * res (keys.Keypair * bool) :=
  match f with
  | Data d => (None, let* kp := wallet.LoadKeypair d in Ok (kp, false))
  | ReadError => (None, failf "read key")
  | NotExist =>
    if negb createMissing then (None, failf "read key") else
    match fresh with
    | Err e => (None, Err e)
    | Panic => (None, Panic)
    | Ok kp =>
      match wallet.SaveSeed (Some kp) with
      | Err e => (None, Err e)
      | Panic => (None, Panic)
      | Ok seed => if written then (Some seed, Ok (kp, true)) else (None, failf "save key")
      end
    end
  end.

(** ** Requests and answers *)
Record Request : Type := mkRequest { Method : bytes; Path : bytes; Query : bytes -> bytes; Body : bytes }.

Class BodyJson : Type :=
  { body_fields : list bytes -> bytes -> res (bytes -> bytes);     (* a struct of string fields *)
    body_report : bytes -> res (Z * bytes * Z) }.                  (* missed_height, missed_proposer, skip_index *)

Definition StatusOK : Z := 200.
Definition StatusBadRequest : Z := 400.
Definition StatusNotFound : Z := 404.
Definition StatusMethodNotAllowed : Z := 405.
Definition StatusBadGateway : Z := 502.

Inductive content : Type :=
| COk | CPubkey (pubkey chain_id : bytes) | CAccount (a : accountResponse) | CStatus (s : Status) | CValidators (vs : list validatorEntry)
| CTx (txid : bytes) | CDeploy (txid contract_address : bytes) | CAddress (contract_address : bytes) | CState (s : contractStateResponse)
| CFaucet (answer : bytes) | CError.

Record server : Type := mkServer { w : wallet.Wallet; faucetURL : bytes }.

(** Messages submitted, status and payload; a panic of the code is [Panic]. *)
Definition answer : Type := list bytes * res (Z * content).

Definition reply (status : Z) (c : content) : answer := ([], Ok (status, c)).
Definition writeError (status : Z) : answer := reply status CError.

(** [if !requireMethod(...) { return }] *)
Definition requireMethod (r : Request) (method : bytes) (k : answer) : answer :=
  if negb (bool_decide (Method r = method)) then writeError StatusMethodNotAllowed else k.

(** The checks of a request: an error is answered with [status]. *)
Definition checked {A} (status : Z) (r : res A) (k : A -> answer) : answer :=
  match r with Ok a => k a | Err _ => writeError status | Panic => ([], Panic) end.

(** The call of the wallet. *)
Definition called {A} (out : list bytes * res A) (k : A -> content) : answer :=
  match out with
  | (sent, Ok a) => (sent, Ok (StatusOK, k a))
  | (sent, Err _) => (sent, Ok (StatusBadGateway, CError))
  | (sent, Panic) => (sent, Panic)
  end.

Section Handlers.
Context `{Platform} `{BodyJson}.
Context (n : Node) (requestFaucet : bytes -> arr 32 -> res bytes).
Implicit Types (s : server) (r : Request).

Definition GET : bytes := str "GET".
Definition POST : bytes := str "POST".

Definition handleHealth r : answer := requireMethod r GET (reply StatusOK COk).

Definition handlePubkey s r : answer :=
  requireMethod r GET (reply StatusOK (CPubkey (wallet.PublicKeyHex (w s)) (wallet.chainID (w s)))).

Definition pubkeyFromQuery s r : res (arr 32) :=
  let pubkeyHex := Query r (str "pubkey") in
  if isEmpty pubkeyHex then Ok (keys.PublicKey (wallet.kp (w s))) else wallet.DecodePubKey pubkeyHex.

Definition handleAccount s r : answer :=
  requireMethod r GET
    (checked StatusBadRequest (pubkeyFromQuery s r) (fun pubkey =>
     checked StatusBadGateway (GetAccount n pubkey) (fun resp => reply StatusOK (CAccount (formatAccount resp))))).

Definition handleStatus r : answer :=
  requireMethod r GET (checked StatusBadGateway (GetStatus n) (fun resp => reply StatusOK (CStatus resp))).

Definition handleValidators r : answer :=
  requireMethod r GET (checked StatusBadGateway (ListValidators n) (fun resp => reply StatusOK (CValidators (formatValidators resp)))).

Definition handleTransfer s r : answer :=
  requireMethod r POST
    (checked StatusBadRequest
       (let* f := body_fields [str "to"; str "amount"; str "amount_quanta"] (Body r) in
        let* to := wallet.DecodePubKey (f (str "to")) in
        let* amount := parseAmountFields (f (str "amount")) (f (str "amount_quanta")) true in
        Ok (to, amount))
       (fun '(to, amount) => called (wallet.Transfer (w s) (walletNode n) to (Some amount)) CTx)).

Definition handleBond s r : answer :=
  requireMethod r POST
    (checked StatusBadRequest
       (let* f := body_fields [str "amount"; str "amount_quanta"] (Body r) in
        parseAmountFields (f (str "amount")) (f (str "amount_quanta")) true)
       (fun amount => called (wallet.Bond (w s) (walletNode n) (Some amount)) CTx)).

Definition handleUnbond s r : answer := requireMethod r POST (called (wallet.Unbond (w s) (walletNode n)) CTx).

Definition handleFinalizeUnbond s r : answer := requireMethod r POST (called (wallet.FinalizeUnbond (w s) (walletNode n)) CTx).

Definition handleClaimRewards s r : answer := requireMethod r POST (called (wallet.ClaimRewards (w s) (walletNode n)) CTx).

Definition handleMissedDeadlineReport s r : answer :=
  requireMethod r POST
    (checked StatusBadRequest
       (let* '(height, proposer, skip) := body_report (Body r) in
        if height =? 0 then failf "missed_height must be positive" else
        let* missedProposer := wallet.DecodePubKey proposer in
        Ok (height, missedProposer, skip))
       (fun '(height, missedProposer, skip) =>
          called (wallet.SubmitMissedDeadlineReport (w s) (walletNode n) height missedProposer skip) CTx)).

(** Without a nonce in the query the next one of the account is printed and read back. *)
Definition handleContractAddress s r : answer :=
  requireMethod r GET
    (let nonceRaw := Query r (str "nonce") in
     checked StatusBadGateway
       (if isEmpty nonceRaw
        then let* nonce := wallet.OwnAccount (w s) (walletNode n) in Ok (denom.big_String (wrap64 (nonce + 1)))
        else Ok nonceRaw)
       (fun nonceRaw =>
          checked StatusBadRequest (parseNonce nonceRaw) (fun nonce =>
            reply StatusOK (CAddress (hex_EncodeToString (contract.ContractAddr (keys.PublicKey (wallet.kp (w s))) nonce)))))).

Definition handleContractDeploy s r : answer :=
  requireMethod r POST
    (checked StatusBadRequest
       (let* f := body_fields [str "wasm_hex"; str "value"; str "value_quanta"] (Body r) in
        let* wasm := match hex_DecodeString (f (str "wasm_hex")) with
                     | Some wasm => if zlen wasm =? 0 then failf "wasm_hex must be non-empty hex" else Ok wasm
                     | None => failf "wasm_hex must be non-empty hex"
                     end in
        let* value := parseAmountFields (f (str "value")) (f (str "value_quanta")) false in
        Ok (wasm, value))
       (fun '(wasm, value) => called (wallet.DeployContract (w s) (walletNode n) wasm (Some value)) (fun x => CDeploy (fst x) (snd x)))).

Definition queryKey r : res bytes := decodeKey (Query r (str "key")) (Query r (str "key_hex")).

Definition handleContractState r : answer :=
  requireMethod r GET
    (let addrRaw := Query r (str "contract_address") in
     let addrRaw := if isEmpty addrRaw then Query r (str "address") else addrRaw in
     checked StatusBadRequest (let* addr := wallet.DecodePubKey addrRaw in let* key := queryKey r in Ok (addr, key))
       (fun '(addr, key) => checked StatusBadGateway (GetContractState n addr key) (fun resp => reply StatusOK (CState (formatContractState resp))))).

Definition handleContractCall s r : answer :=
  requireMethod r POST
    (checked StatusBadRequest
       (let* f := body_fields [str "contract_address"; str "call_data_hex"; str "function"; str "value"; str "value_quanta"] (Body r) in
        let* addr := wallet.DecodePubKey (f (str "contract_address")) in
        let* callData := contractCallData (f (str "function")) (f (str "call_data_hex")) in
        let* value := parseAmountFields (f (str "value")) (f (str "value_quanta")) false in
        Ok (addr, callData, value))
       (fun '(addr, callData, value) => called (wallet.CallContract (w s) (walletNode n) addr callData (Some value)) CTx)).

Definition handleFaucet s r : answer :=
  requireMethod r POST
    (if isEmpty (faucetURL s) then writeError StatusBadRequest else
     checked StatusBadRequest
       (let* f := body_fields [str "pubkey"] (Body r) in
        if isEmpty (f (str "pubkey")) then Ok (keys.PublicKey (wallet.kp (w s))) else wallet.DecodePubKey (f (str "pubkey")))
       (fun pubkey => checked StatusBadGateway (requestFaucet (faucetURL s) pubkey) (fun resp => reply StatusOK (CFaucet resp)))).

(** ** The routes [main] registers *)
Definition routes s : list (bytes * (Request -> answer)) :=
  [(str "/health", handleHealth); (str "/pubkey", handlePubkey s); (str "/account", handleAccount s); (str "/balance", handleAccount s);
   (str "/status", handleStatus); (str "/validators", handleValidators); (str "/transfer", handleTransfer s); (str "/bond", handleBond s);
   (str "/unbond", handleUnbond s); (str "/finalize-unbond", handleFinalizeUnbond s); (str "/claim-rewards", handleClaimRewards s);
   (str "/miss-evidence", handleMissedDeadlineReport s); (str "/submit-missed-deadline-report", handleMissedDeadlineReport s);
   (str "/contracts/address", handleContractAddress s); (str "/contracts/state", handleContractState);
   (str "/contracts/deploy", handleContractDeploy s); (str "/contracts/call", handleContractCall s); (str "/faucet", handleFaucet s)].

Fixpoint dispatch (l : list (bytes * (Request -> answer))) r : answer :=
  match l with
  | [] => writeError StatusNotFound
  | (p, h) :: l => if bool_decide (Path r = p) then h r else dispatch l r
  end.

Definition serveHTTP s r : answer := dispatch (routes s) r.
End Handlers.
End walletapi.

(** * frg-wallet: what an answer says about what was submitted *)

Import frontend walletapi.

Section Keys.
Context `{PlatformLaws}.

(** A key that is made is found again: the next start reads the key the first one created, and creates none. *)
Theorem loadOrCreate_again (fresh : res keys.Keypair) kp seed again w2 :
  (forall seed, take 32 (ed25519_NewKeyFromSeed seed) = seed) -> (forall k, fresh = Ok k -> keys.generated k) ->
  loadOrCreate NotExist true fresh true = (Some seed, Ok (kp, true)) ->
  loadOrCreate (Data seed) true again w2 = (None, Ok (kp, false)).
Proof.
  intros Hseed Hgen Hl. destruct fresh as [k| |]; [|done..]. destruct (Hgen k eq_refl) as [sd ->].
  cbn [loadOrCreate negb wallet.SaveSeed keys.PrivateKey keys.NewKeypairFromSeed] in Hl.
  rewrite Hseed in Hl. injection Hl as <- <-. cbn [loadOrCreate]. unfold wallet.LoadKeypair. rewrite zlen_arr. cbn. by rewrite mk_arr_bytes.
Qed.
End Keys.

Section Api.
Context `{Platform} `{BodyJson}.
Context (n : Node) (requestFaucet : bytes -> arr 32 -> res bytes).
Implicit Types (s : server) (r : Request).

(** The contract of an answer: a message is submitted for a POST only, at
    most one, signed by the wallet's key; success with a message means the
    node took it, a gateway error that it did not say so, and no other answer
    follows a submission. *)
Definition answer_ok s r (a : answer) : Prop :=
  fst a = [] \/
  (Method r = POST /\ exists t raw, fst a = [raw] /\ tx.Serialize t = Ok raw /\ tx.SenderPubKey t = keys.PublicKey (wallet.kp (w s)) /\
    match snd a with
    | Ok (status, _) => (status = StatusOK /\ SubmitTx n raw = Ok true) \/ (status = StatusBadGateway /\ SubmitTx n raw <> Ok true)
    | Err _ => False
    | Panic => SubmitTx n raw <> Ok true
    end).

Lemma requireMethod_ok s r m k : (Method r = m -> answer_ok s r k) -> answer_ok s r (requireMethod r m k).
Proof. intros Hk. unfold requireMethod. destruct (bool_decide _) eqn:E; cbn; [|by left]. apply Hk. by apply bool_decide_eq_true in E. Qed.

Lemma checked_ok {A} s r st (x : res A) k : (forall a, answer_ok s r (k a)) -> answer_ok s r (checked st x k).
Proof. intros Hk. destruct x; [apply Hk|by left..]. Qed.

Lemma reply_ok s r st c : answer_ok s r (reply st c).
Proof. by left. Qed.

Lemma called_ok {A} s r ty v to (out : list bytes * res A) k :
  Method r = POST -> submitsOwn (w s) (walletNode n) ty v to out -> answer_ok s r (called out k).
Proof.
  intros Hm [[H1 H2]|(t & raw & H1 & H2 & (_ & _ & _ & H3) & H4)]; destruct out as [sent [a|er|]]; cbn [fst snd is_Ok] in *; subst sent; try done.
  1,2: by left.
  all: right; split; [done|]; exists t, raw; split_and!; try done; cbn [called snd]; cbn [wallet.SubmitTx walletNode] in H4.
  - left. split; [done|]. by apply H4.
  - right. split; [done|]. intros E. by apply H4 in E.
  - intros E. by apply H4 in E.
Qed.

Lemma report_own w h p k :
  submitsOwn w (walletNode n) tx.TxTypeMissEvidence 0 p (wallet.SubmitMissedDeadlineReport w (walletNode n) h p k).
Proof. by apply withAccount_own. Qed.

Lemma routes_ok s path h : (path, h) ∈ routes n requestFaucet s -> forall r, answer_ok s r (h r).
Proof.
  unfold routes. intros Hin r.
  repeat (apply elem_of_cons in Hin as [[= -> ->]|Hin]); [..|by apply elem_of_nil in Hin].
  all: apply requireMethod_ok; intros Hm; try apply reply_ok; try (apply checked_ok; intros; apply reply_ok).
  - apply checked_ok; intros. apply checked_ok; intros. apply reply_ok.
  - apply checked_ok; intros. apply checked_ok; intros. apply reply_ok.
  - apply checked_ok; intros [to v]. eapply called_ok; [done|apply Transfer_own].
  - apply checked_ok; intros v. eapply called_ok; [done|apply Bond_own].
  - eapply called_ok; [done|apply Unbond_own].
  - eapply called_ok; [done|apply FinalizeUnbond_own].
  - eapply called_ok; [done|apply ClaimRewards_own].
  - apply checked_ok; intros [[h p] k]. eapply called_ok; [done|apply report_own].
  - apply checked_ok; intros [[h p] k]. eapply called_ok; [done|apply report_own].
  - apply checked_ok; intros. apply checked_ok; intros. apply reply_ok.
  - apply checked_ok; intros [addr key]. apply checked_ok; intros. apply reply_ok.
  - apply checked_ok; intros [wasm v]. eapply called_ok; [done|apply DeployContract_own].
  - apply checked_ok; intros [[addr data] v]. eapply called_ok; [done|apply CallContract_own].
  - destruct (isEmpty _); [apply reply_ok|]. apply checked_ok; intros. apply checked_ok; intros. apply reply_ok.
Qed.

(** What an HTTP answer of the wallet says.  Whatever the request, at most one
    message is submitted, only for a POST, and it is a transaction of the
    wallet's own account; the status is 200 just when the node says it took
    the message and 502 otherwise; every request answered with another status
    submitted nothing. *)
Theorem wallet_api_status s r : answer_ok s r (serveHTTP n requestFaucet s r).
Proof.
  unfold serveHTTP. pose proof (routes_ok s) as Hr. revert Hr. generalize (routes n requestFaucet s) as l.
  induction l as [|[p h] l IH]; intros Hr; cbn [dispatch]; [apply reply_ok|].
  destruct (bool_decide _); [eapply (Hr p); set_solver|]. apply IH. intros p' h' Hin. apply (Hr p'). set_solver.
Qed.
End Api.
