(* ===== verification/Cli.v ===== *)
(** * cmd/frg-cli: the command-line wallet (main.go)

    A command gets its arguments and the world around it: the files, the node
    at an address, a key generator and the order of a Go map.  It writes at
    most one file, submits messages, and ends with what it prints or with an
    error, which the program turns into exit status 1. *)

From S2P Require Import Prelude GoBytes Errors Platform Hex Tx TxProofs TxSigProofs KV Denom Ledger Staking Gas Mint Node Tree Contract.
From S2P Require Import BlockStore Telemetry StateMachine Vote BlockLoop Round Engine Gossip Rpc RpcProofs Wallet Frontend.
Import frontend.

Module cli.

Definition defaultNodeAddr : bytes := str "localhost:50051".

(** ** Flags *)
Definition dash : byte := x2d.

(** [len(s) < 2 || s[0] != '-'] *)
Definition plain (s : bytes) : bool := (zlen s <? 2) || negb (bool_decide (head s = Some dash)).

Fixpoint stringsIndexByte (s : bytes) (c : byte) : nat :=
  match s with
  | [] => 0
  | x :: r => if bool_decide (x = c) then 0 else S (stringsIndexByte r c)
  end.

(** The name of the flag [a], and the value written into it after an equals sign. *)
Definition splitFlag (a : bytes) : bytes * option bytes :=
  if (zlen a >? 2) && negb (bool_decide (a !! 1%nat = Some dash)) then
    if (zlen a >? 3) && bool_decide (a !! 2%nat = Some x3d) then (take 2 a, Some (drop 3 a)) else (a, None)
  else
    let k := take (stringsIndexByte a x3d) a in
    if zlen a >? zlen k + 1 then (k, Some (drop (length k + 1) a)) else (k, None).

Fixpoint flagSetFrom (m : gmap bytes bytes) (args : list bytes) : gmap bytes bytes :=
  match args with
  | [] => m
  | a :: rest =>
    if plain a then flagSetFrom (<[a := []]> m) rest else
    match splitFlag a with
    | (k, Some v) => flagSetFrom (<[k := v]> m) rest
    | (k, None) =>
      match rest with
      | v :: rest' => if plain v then flagSetFrom (<[k := v]> m) rest' else flagSetFrom (<[k := str "true"]> m) rest
      | [] => <[k := str "true"]> m
      end
    end
  end.

Definition flagSet (args : list bytes) : gmap bytes bytes := flagSetFrom ∅ args.

Fixpoint getFlag (m : gmap bytes bytes) (keys : list bytes) : bytes :=
  match keys with
  | [] => []
  | k :: keys => match m !! k with Some v => if isEmpty v then getFlag m keys else v | None => getFlag m keys end
  end.

(** The value of a flag, or a default for the empty one. *)
Definition flagOr (m : gmap bytes bytes) (keys : list bytes) (d : bytes) : bytes :=
  let v := getFlag m keys in if isEmpty v then d else v.

Definition parseCLIAmount (flags : gmap bytes bytes) : res Z :=
  let amountRaw := getFlag flags [str "--amount"; str "-m"] in
  let quantaRaw := getFlag flags [str "--amount-quanta"; str "--quanta"] in
  if negb (isEmpty amountRaw) && negb (isEmpty quantaRaw) then failf "use --amount or --amount-quanta, not both" else
  if isEmpty amountRaw && isEmpty quantaRaw then failf "--amount required" else
  if negb (isEmpty quantaRaw) then denom.ParsePositiveQuanta quantaRaw else denom.ParsePositiveFRG amountRaw.

(** ** The world and the outcome *)
Record Env : Type := mkEnv
  { readFile : bytes -> res bytes;
    writeFile : bytes -> bool;                      (* whether the path can be written *)
    GenerateKeypair : res keys.Keypair;
    dialNode : bytes -> res Node;
    anyValue : gmap bytes bytes -> bytes }.         (* the first value a range over the map gives *)

Inductive printed : Type :=
| Usage | KeySaved (pubkey path : bytes) | AccountLine (pubkey balance quanta : bytes) (nonce : Z)
| TxLine (txid tx_hex : bytes) | Accepted | Sent (txid : bytes) | Bonded (validator amount quanta txid : bytes)
| Acted (action validator txid : bytes) | StatusLines (s : Status) | ValidatorLines (l : list (bytes * bytes * bytes)).

Record output : Type := mkOutput { written : option (bytes * bytes); sent : list bytes; result : res printed }.

(** A command that neither writes nor submits. *)
Definition shows (r : res printed) : output := mkOutput None [] r.

Section Commands.
Context `{Platform}.
Implicit Types (e : Env) (args : list bytes).

Definition kpToSeed (kp : keys.Keypair) : bytes := take 32 (keys.PrivateKey kp).

Definition resolveKey e (path : bytes) : res keys.Keypair :=
  let* data := readFile e (if isEmpty path then str "frg-cli.key" else path) in
  if zlen data =? 32 then Ok (keys.NewKeypairFromSeed (mk_arr 32 data)) else
  if zlen data =? 64 then Ok (keys.NewKeypairFromPrivateKey (mk_arr 64 data)) else
  failf "invalid key length".

Definition keygenCmd e args : output :=
  let flags := flagSet args in
  let out := flagOr flags [str "--output"; str "-o"] (str "frg-cli.key") in
  match GenerateKeypair e with
  | Err er => shows (Err er)
  | Panic => shows Panic
  | Ok kp =>
    if negb (writeFile e out) then shows (failf "write key") else
    mkOutput (Some (out, kpToSeed kp)) [] (Ok (KeySaved (hex_EncodeToString (keys.PublicKey kp)) out))
  end.

Definition decodeKey32 (s : bytes) : res (arr 32) :=
  match hex_DecodeString s with
  | Some raw => if zlen raw =? 32 then Ok (mk_arr 32 raw) else failf "invalid pubkey"
  | None => failf "invalid pubkey"
  end.

(** The last of three sources wins: the flag, any flag's value, the first argument without a dash. *)
Definition balancePubkey e args : bytes :=
  let flags := flagSet args in
  let pubkeyHex := getFlag flags [str "--pubkey"; str "-p"] in
  if isEmpty pubkeyHex then
    default (if bool_decide (flags = ∅) then [] else anyValue e flags) (list_find (fun a => a <> [] /\ head a <> Some dash) args ≫= fun x => Some (snd x))
  else pubkeyHex.

Definition balanceCmd e args : output :=
  let flags := flagSet args in
  let addr := flagOr flags [str "--addr"; str "-a"] defaultNodeAddr in
  let pubkeyHex := balancePubkey e args in
  shows
    (if isEmpty pubkeyHex then failf "missing pubkey argument" else
     let* pubkey := decodeKey32 pubkeyHex in
     let* n := dialNode e addr in
     let* resp := GetAccount n pubkey in
     Ok (AccountLine pubkeyHex (match denom.SetString (Balance resp) with Some bal => denom.FormatFRG (Some bal) | None => [] end)
           (Balance resp) (Nonce resp))).

(** A transaction with the fields the commands set. *)
Definition cliTx (ty : Z) (sender receiver : bytes) (value nonce : Z) (from to : arr 32) : tx.Tx :=
  tx.mkTx ty sender receiver (Some value) nonce from to (zero_arr 64) (zero_arr 64) 0 (zero_arr 32) 0 [] [] [] [] [].

Definition set_ReceiverSig (s : arr 64) (t : tx.Tx) : tx.Tx :=
  tx.mkTx (tx.Type_ t) (tx.Sender t) (tx.Receiver t) (tx.Value t) (tx.Nonce t) (tx.SenderPubKey t) (tx.ReceiverPubKey t)
    (tx.SenderSig t) s (tx.MissedHeight t) (tx.MissedProposer t) (tx.SkipIndex t) (tx.WasmBytes t) (tx.InitArgs t)
    (tx.CallData t) (tx.EvidenceA t) (tx.EvidenceB t).

(** [txid, _ := tr.ID()]: the zero array on an error. *)
Definition idOf (t : tx.Tx) : bytes := match tx.ID t with Ok id => hex_EncodeToString id | _ => hex_EncodeToString (zero_arr 32) end.

Definition prepareCmd e args : output :=
  let flags := flagSet args in
  shows
    (let* kp := resolveKey e (getFlag flags [str "--key"; str "-k"]) in
     let toHex := getFlag flags [str "--to"; str "-t"] in
     let chainID := flagOr flags [str "--chain-id"] tx.DefaultChainID in
     let senderLabel := flagOr flags [str "--sender"] (str "cli") in
     let receiverLabel := flagOr flags [str "--receiver"] (str "cli") in
     if isEmpty toHex then failf "--to required" else
     let* amount := parseCLIAmount flags in
     let* receiver := decodeKey32 toHex in
     let tr := cliTx tx.TxTypeTransfer senderLabel receiverLabel amount 0 (keys.PublicKey kp) receiver in
     let* sig := tx.SignSenderForChain tr kp chainID in
     let tr := set_SenderSig sig tr in
     let* txBytes := tx.Serialize tr in
     Ok (TxLine (idOf tr) (hex_EncodeToString txBytes))).

Definition decodeTxHex (txHex : bytes) : res bytes :=
  if isEmpty txHex then failf "--tx required" else
  match hex_DecodeString txHex with Some b => Ok b | None => failf "decode tx hex" end.

Definition countersignCmd e args : output :=
  let flags := flagSet args in
  shows
    (let* kp := resolveKey e (getFlag flags [str "--key"; str "-k"]) in
     let* txBytes := decodeTxHex (getFlag flags [str "--tx"; str "-x"]) in
     let* tr := tx.Deserialize txBytes in
     if bool_decide (tx.ReceiverPubKey tr <> keys.PublicKey kp) then failf "this key is not the receiver" else
     let* sig := tx.SignReceiverForChain tr kp tx.DefaultChainID in
     let tr := set_ReceiverSig sig tr in
     let* fullTx := tx.Serialize tr in
     Ok (TxLine (idOf tr) (hex_EncodeToString fullTx))).

(** Hand a message to the node: the message, and what is printed when it is taken. *)
Definition submitTo (n : Node) (raw : bytes) (out : printed) : output :=
  mkOutput None [raw] (let* ok := SubmitTx n raw in if (ok : bool) then Ok out else failf "rejected").

(** Leave with an error before anything is submitted. *)
Definition orExit {A} (r : res A) (k : A -> output) : output :=
  match r with Ok a => k a | Err er => shows (Err er) | Panic => shows Panic end.

Definition submitCmd e args : output :=
  let flags := flagSet args in
  let addr := flagOr flags [str "--addr"; str "-a"] defaultNodeAddr in
  orExit (let* txBytes := decodeTxHex (getFlag flags [str "--tx"; str "-x"]) in
          let* n := dialNode e addr in
          Ok (n, txBytes))
    (fun '(n, txBytes) => submitTo n txBytes Accepted).

(** Sign for the chain, serialize and submit. *)
Definition signAndSend (n : Node) (kp : keys.Keypair) (chainID : bytes) (tr : tx.Tx) (out : bytes -> printed) : output :=
  orExit (let* sig := tx.SignSenderForChain tr kp chainID in
          let tr := set_SenderSig sig tr in
          let* txBytes := tx.Serialize tr in
          Ok (tr, txBytes))
    (fun '(tr, txBytes) => submitTo n txBytes (out (idOf tr))).

Definition sendCmd e args : output :=
  let flags := flagSet args in
  let addr := flagOr flags [str "--addr"; str "-a"] defaultNodeAddr in
  let toHex := getFlag flags [str "--to"; str "-t"] in
  let chainID := flagOr flags [str "--chain-id"] tx.DefaultChainID in
  let senderLabel := flagOr flags [str "--sender"] (str "cli") in
  let receiverLabel := flagOr flags [str "--receiver"] (str "cli") in
  orExit (if isEmpty toHex then failf "--to required" else
          let* amount := parseCLIAmount flags in
          let* senderKP := resolveKey e (getFlag flags [str "--key"; str "-k"]) in
          let* receiver := decodeKey32 toHex in
          let* n := dialNode e addr in
          let* acct := GetAccount n (keys.PublicKey senderKP) in
          Ok (amount, senderKP, receiver, n, acct))
    (fun '(amount, senderKP, receiver, n, acct) =>
       signAndSend n senderKP chainID
         (cliTx tx.TxTypeTransfer senderLabel receiverLabel amount (wrap64 (Nonce acct + 1)) (keys.PublicKey senderKP) receiver) Sent).

Definition bondCmd e args : output :=
  let flags := flagSet args in
  let addr := flagOr flags [str "--addr"; str "-a"] defaultNodeAddr in
  let chainID := flagOr flags [str "--chain-id"] tx.DefaultChainID in
  orExit (let* amount := parseCLIAmount flags in
          let* kp := resolveKey e (getFlag flags [str "--key"; str "-k"]) in
          let* n := dialNode e addr in
          let* acct := GetAccount n (keys.PublicKey kp) in
          Ok (amount, kp, n, acct))
    (fun '(amount, kp, n, acct) =>
       signAndSend n kp chainID
         (cliTx tx.TxTypeBond (str "validator") (str "staking") amount (wrap64 (Nonce acct + 1)) (keys.PublicKey kp) (keys.PublicKey kp))
         (Bonded (hex_EncodeToString (keys.PublicKey kp)) (denom.FormatFRG (Some amount)) (denom.big_String amount))).

Definition protocolZeroValueCmd e args (name : bytes) (typ : Z) : output :=
  let flags := flagSet args in
  let addr := flagOr flags [str "--addr"; str "-a"] defaultNodeAddr in
  let chainID := flagOr flags [str "--chain-id"] tx.DefaultChainID in
  orExit (let* kp := resolveKey e (getFlag flags [str "--key"; str "-k"]) in
          let* n := dialNode e addr in
          let* acct := GetAccount n (keys.PublicKey kp) in
          Ok (kp, n, acct))
    (fun '(kp, n, acct) =>
       signAndSend n kp chainID
         (cliTx typ (str "validator") (str "protocol") 0 (wrap64 (Nonce acct + 1)) (keys.PublicKey kp) (keys.PublicKey kp))
         (Acted name (hex_EncodeToString (keys.PublicKey kp)))).

Definition statusCmd e args : output :=
  let flags := flagSet args in
  let addr := flagOr flags [str "--addr"; str "-a"] defaultNodeAddr in
  shows (let* n := dialNode e addr in let* resp := GetStatus n in Ok (StatusLines resp)).

(** A nil entry would be dereferenced. *)
Definition validatorsCmd e args : output :=
  let flags := flagSet args in
  let addr := flagOr flags [str "--addr"; str "-a"] defaultNodeAddr in
  shows (let* n := dialNode e addr in
         let* resp := ListValidators n in
         let* lines := mapM (fun v => match v with
                                      | None => Panic
                                      | Some v => Ok (hex_EncodeToString (VPubkey v), formatQuantaAsFRG (VBond v), VBond v)
                                      end) resp in
         Ok (ValidatorLines lines)).

(** [main]; [os.Args] without the program name. *)
Definition main e (argv : list bytes) : output :=
  match argv with
  | [] => shows (failf "usage")
  | cmd :: args =>
    if bool_decide (cmd = str "keygen") then keygenCmd e args else
    if bool_decide (cmd = str "balance") then balanceCmd e args else
    if bool_decide (cmd = str "prepare") then prepareCmd e args else
    if bool_decide (cmd = str "countersign") then countersignCmd e args else
    if bool_decide (cmd = str "submit") then submitCmd e args else
    if bool_decide (cmd = str "send") then sendCmd e args else
    if bool_decide (cmd = str "bond") then bondCmd e args else
    if bool_decide (cmd = str "unbond") then protocolZeroValueCmd e args (str "unbond") tx.TxTypeUnbond else
    if bool_decide (cmd = str "finalize-unbond") then protocolZeroValueCmd e args (str "finalize-unbond") tx.TxTypeFinalizeUnbond else
    if bool_decide (cmd = str "claim-rewards") then protocolZeroValueCmd e args (str "claim-rewards") tx.TxTypeClaimRewards else
    if bool_decide (cmd = str "status") then statusCmd e args else
    if bool_decide (cmd = str "validators") then validatorsCmd e args else
    if bool_decide (cmd ∈ [str "help"; str "-h"; str "--help"]) then shows (Ok Usage) else
    shows (failf "unknown command")
  end.
End Commands.
End cli.

(** * frg-cli: flags, transfers that arrive and transfers that never do *)

Import frontend cli.

(** ** Flags *)

(** The long form of a flag, [--name=value]. *)
Definition printFlag (kv : bytes * bytes) : bytes := fst kv ++ [x3d] ++ snd kv.

(** A flag name: two dashes and no equals sign. *)
Definition flagName (k : bytes) : Prop := take 2 k = [dash; dash] /\ x3d ∉ k.

Lemma stringsIndexByte_app k c r : c ∉ k -> stringsIndexByte (k ++ c :: r) c = length k.
Proof.
  induction k as [|x k IH]; cbn; intros Hn; [by rewrite bool_decide_true|].
  apply not_elem_of_cons in Hn as [Hx Hk]. rewrite bool_decide_false by done. by rewrite IH.
Qed.

Lemma stringsIndexByte_none k c : c ∉ k -> stringsIndexByte k c = length k.
Proof.
  induction k as [|x k IH]; cbn; intros Hn; [done|].
  apply not_elem_of_cons in Hn as [Hx Hk]. rewrite bool_decide_false by done. by rewrite IH.
Qed.

Lemma flagName_shape k : flagName k -> exists r, k = dash :: dash :: r.
Proof. intros [Hk _]. destruct k as [|a [|b r]]; try done. cbn in Hk. injection Hk as -> ->. by exists r. Qed.

Lemma splitFlag_long k v : flagName k -> v <> [] -> splitFlag (printFlag (k, v)) = (k, Some v).
Proof.
  intros Hk Hv. pose proof Hk as [_ He]. unfold printFlag, splitFlag. cbn [fst snd app].
  assert ((k ++ x3d :: v) !! 1%nat = Some dash) as Hd.
  { apply flagName_shape in Hk as [r ->]. done. }
  rewrite bool_decide_true, andb_false_r by done. rewrite stringsIndexByte_app, take_app_length by done.
  rewrite zlen_app, zlen_cons, Z.gtb_ltb. destruct v as [|x v]; [done|]. rewrite zlen_cons. pose proof (zlen_nonneg v).
  replace (zlen k + 1 <? _) with true by (symmetry; apply Z.ltb_lt; lia).
  rewrite drop_app_ge by lia. by replace (length k + 1 - length k)%nat with 1%nat by lia.
Qed.

Lemma splitFlag_bare k : flagName k -> splitFlag k = (k, None).
Proof.
  intros Hk. pose proof Hk as [_ He]. unfold splitFlag.
  assert (k !! 1%nat = Some dash) as Hd by (apply flagName_shape in Hk as [r ->]; done).
  rewrite bool_decide_true, andb_false_r by done. rewrite stringsIndexByte_none, take_ge by done.
  by replace (zlen k >? zlen k + 1) with false by (symmetry; rewrite Z.gtb_ltb; apply Z.ltb_ge; lia).
Qed.

Lemma printFlag_not_plain k r : flagName k -> plain (k ++ r) = false.
Proof.
  intros [t ->]%flagName_shape. unfold plain. cbn [app head]. rewrite bool_decide_true by done. cbn [negb].
  rewrite orb_false_r, !zlen_cons. apply Z.ltb_ge. pose proof (zlen_nonneg (t ++ r)). lia.
Qed.

Lemma flagSetFrom_print m l :
  Forall (fun kv => flagName (fst kv) /\ snd kv <> []) l ->
  flagSetFrom m (map printFlag l) = foldl (fun m kv => <[fst kv := snd kv]> m) m l.
Proof.
  intros HF. revert m. induction HF as [|[k v] l [Hk Hv] HF IH]; intros m; [done|]. cbn [map flagSetFrom fst snd] in *.
  replace (plain (printFlag (k, v))) with false by (symmetry; apply printFlag_not_plain; done).
  rewrite splitFlag_long by done. apply IH.
Qed.

Lemma foldl_insert_list_to_map (m : gmap bytes bytes) (l : list (bytes * bytes)) :
  NoDup (map fst l) -> foldl (fun m kv => <[fst kv := snd kv]> m) m l = list_to_map l ∪ m.
Proof.
  revert m. induction l as [|[k v] l IH]; intros m Hnd; [cbn; by rewrite (left_id_L ∅ (∪) m)|].
  apply NoDup_cons in Hnd as [Hk Hnd]. cbn [foldl fst snd]. rewrite IH by done. cbn [list_to_map foldr uncurry].
  rewrite <- insert_union_r by (by apply not_elem_of_list_to_map_1). by rewrite insert_union_l.
Qed.

(** Flags printed in the long form are read back, in any order and whatever
    the values, as long as none is empty. *)
Theorem flagSet_roundtrip (m : gmap bytes bytes) :
  map_Forall (fun k v => flagName k /\ v <> []) m -> flagSet (map printFlag (map_to_list m)) = m.
Proof.
  intros HF. unfold flagSet. rewrite flagSetFrom_print.
  - rewrite foldl_insert_list_to_map by apply NoDup_fst_map_to_list. rewrite list_to_map_to_list. by rewrite (right_id_L ∅ (∪)).
  - apply Forall_forall. intros [k v] Hin%elem_of_map_to_list. by apply HF in Hin.
Qed.

(** A value in the next argument is the same as one after an equals sign,
    unless it looks like a flag. *)
Lemma flagSetFrom_spaced m k v rest :
  flagName k -> v <> [] -> plain v = true -> flagSetFrom m (k :: v :: rest) = flagSetFrom m (printFlag (k, v) :: rest).
Proof.
  intros Hk Hv Hp. cbn [flagSetFrom]. rewrite <- (app_nil_r k) at 1. rewrite (printFlag_not_plain k []), splitFlag_bare, Hp by done.
  replace (plain (printFlag (k, v))) with false by (symmetry; apply printFlag_not_plain; done). by rewrite splitFlag_long.
Qed.

(** The key that follows a flag with a value is not found: the value is taken for the key. *)
Example balance_flag_first e addr key :
  addr <> [] -> plain addr = true -> head addr <> Some dash -> flagSet [str "--addr"; addr; key] !! str "--pubkey" = None ->
  flagSet [str "--addr"; addr; key] !! str "-p" = None ->
  balancePubkey e [str "--addr"; addr; key] = addr.
Proof.
  intros Hne Hp Hh H1 H2. unfold balancePubkey. cbn [getFlag]. rewrite H1, H2. change (isEmpty []) with true. cbv iota zeta.
  cbn [list_find]. rewrite (decide_False (P := str "--addr" <> [] /\ _)) by (by intros [_ Hd]; apply Hd).
  by rewrite decide_True.
Qed.

(** ** Transfers *)
Section Transfers.
Context `{PlatformLaws} `{contract.Wasmtime} `{telemetry.Json} {B : Type} `{KVLaws B}.
Implicit Types (e : Env) (args : list bytes) (db : DB B) (st : statemachine.TxState (B := B)).

Lemma parseCLIAmount_pos flags a : parseCLIAmount flags = Ok a -> 0 < a.
Proof.
  unfold parseCLIAmount. intros Ha. destruct (_ && _); [done|]. destruct (_ && _); [done|].
  destruct (negb _); unfold denom.ParsePositiveQuanta, denom.ParsePositiveFRG in Ha;
    apply obind_ok_inv in Ha as (z & _ & Ha); destruct (z <=? 0) eqn:E; try done; apply Ok_inj in Ha as <-; by apply Z.leb_gt.
Qed.

Lemma cliTx_wf ty snd rcv v nonce from to : is_u8 ty -> is_u64 nonce -> tx.wf (cliTx ty snd rcv v nonce from to).
Proof. intros. by constructor. Qed.

(** What a successful [send] did. *)
Lemma sendCmd_inv e args txid :
  result (sendCmd e args) = Ok (Sent txid) ->
  exists amount kp receiver n acct sig raw,
    parseCLIAmount (flagSet args) = Ok amount /\ resolveKey e (getFlag (flagSet args) [str "--key"; str "-k"]) = Ok kp /\
    decodeKey32 (getFlag (flagSet args) [str "--to"; str "-t"]) = Ok receiver /\
    dialNode e (flagOr (flagSet args) [str "--addr"; str "-a"] defaultNodeAddr) = Ok n /\
    GetAccount n (keys.PublicKey kp) = Ok acct /\
    let chain := flagOr (flagSet args) [str "--chain-id"] tx.DefaultChainID in
    let tr := cliTx tx.TxTypeTransfer (flagOr (flagSet args) [str "--sender"] (str "cli")) (flagOr (flagSet args) [str "--receiver"] (str "cli"))
                amount (wrap64 (Nonce acct + 1)) (keys.PublicKey kp) receiver in
    tx.SignSenderForChain tr kp chain = Ok sig /\ tx.Serialize (set_SenderSig sig tr) = Ok raw /\
    sent (sendCmd e args) = [raw] /\ SubmitTx n raw = Ok true /\ txid = idOf (set_SenderSig sig tr).
Proof.
  unfold sendCmd. intros Hs. destruct (isEmpty _); [done|].
  match type of Hs with result (orExit ?r _) = _ => destruct r as [[[[[amount kp] receiver] n] acct]| |] eqn:Er end; [|done..].
  apply obind_ok_inv in Er as (a & Ha & Er). apply obind_ok_inv in Er as (k & Hk & Er). apply obind_ok_inv in Er as (rc & Hr & Er).
  apply obind_ok_inv in Er as (nd & Hn & Er). apply obind_ok_inv in Er as (ac & Hac & [= -> -> -> -> ->]%Ok_inj).
  cbn [orExit] in *. unfold signAndSend in *.
  match type of Hs with result (orExit ?r _) = _ => destruct r as [[tr raw]| |] eqn:Es end; [|done..].
  apply obind_ok_inv in Es as (sig & Hsig & (raw' & Hraw & Hp%Ok_inj)%obind_ok_inv). injection Hp as <- ->.
  cbn [orExit submitTo result sent] in *. apply obind_ok_inv in Hs as (ok & Hok & Hs). destruct ok; [|done]. apply Ok_inj in Hs as [= <-].
  by exists amount, kp, receiver, n, acct, sig, raw.
Qed.

(** A transfer of the command line arrives.  If the node answers from a ledger
    in which the account covers the amount, a [send] that reports success
    submitted one message, which every node of the named chain accepts, and
    applying it moves exactly the amount the flags say from the account of
    the key file to the account of [--to]. *)
Theorem cli_send_arrives e args txid db height baseFee st i pre kp n to amount :
  resolveKey e (getFlag (flagSet args) [str "--key"; str "-k"]) = Ok kp -> keys.generated kp ->
  dialNode e (flagOr (flagSet args) [str "--addr"; str "-a"] defaultNodeAddr) = Ok n ->
  decodeKey32 (getFlag (flagSet args) [str "--to"; str "-t"]) = Ok to -> parseCLIAmount (flagSet args) = Ok amount ->
  ledger.ledger_ok db -> (forall pk a, GetAccount n pk = Ok a -> Nonce a = ledger.nonceOf db pk) -> statemachine.ts_db st = db ->
  to <> keys.PublicKey kp -> amount <= ledger.BalanceOf db (keys.PublicKey kp) -> ledger.BalanceOf db to + amount < two256 ->
  result (main e (str "send" :: args)) = Ok (Sent txid) ->
  exists raw t db', sent (main e (str "send" :: args)) = [raw] /\
    p2p.parseTxForChain raw (flagOr (flagSet args) [str "--chain-id"] tx.DefaultChainID) = Ok t /\ txid = idOf t /\
    statemachine.applyTx height baseFee st i t pre = Ok (statemachine.set_db st db') /\
    ledger.BalanceOf db' (keys.PublicKey kp) = ledger.BalanceOf db (keys.PublicKey kp) - amount /\
    ledger.BalanceOf db' to = ledger.BalanceOf db to + amount /\
    forall c, c <> keys.PublicKey kp -> c <> to -> ledger.BalanceOf db' c = ledger.BalanceOf db c.
Proof.
  intros Hk Hg Hn Hto Ha Hok Hans Hst Hne Hle Hlt Hs. change (main e (str "send" :: args)) with (sendCmd e args) in *.
  apply sendCmd_inv in Hs as (a & k & rc & nd & acct & sig & raw & E1 & E2 & E3 & E4 & E5 & Hsig & Hraw & Hsent & _ & ->).
  rewrite Ha in E1. apply Ok_inj in E1 as <-. rewrite Hk in E2. apply Ok_inj in E2 as <-. rewrite Hto in E3. apply Ok_inj in E3 as <-.
  rewrite Hn in E4. apply Ok_inj in E4 as <-. apply Hans in E5. pose proof (parseCLIAmount_pos _ _ Ha) as Hpos. cbv zeta in *.
  set (tr := cliTx _ _ _ _ _ _ _) in *. assert (tx.wf tr) as Hwf by (apply cliTx_wf; [done|apply wrap64_u64]).
  exists raw, (canon (set_SenderSig sig tr)).
  destruct (TransferTx_branches db (canon (set_SenderSig sig tr)) amount Hok) as (_ & _ & _ & Hsucc); [by constructor; apply Hwf|done|lia|].
  destruct Hsucc as (db' & Htr & _ & _ & _ & Hrb & Hsb & Hob); [cbn; by rewrite E5|done|done|].
  exists db'. split_and!; try done.
  - by eapply signed_parses.
  - unfold idOf, tx.ID. apply obind_ok_inv in Hraw as (u & Hu & _). by rewrite Hu, (serializeUnsigned_canon _ _ Hu).
  - unfold statemachine.applyTx. by rewrite Hst, Htr.
  - apply Hsb. cbn. congruence.
Qed.

(** ** Prepared transfers *)
Lemma nonce_zero_skipped db (t : tx.Tx) height baseFee st i pre v :
  ledger.ledger_ok db -> tx.wf t -> tx.Type_ t = tx.TxTypeTransfer -> tx.Value t = Some v -> 0 <= v -> tx.Nonce t = 0 ->
  ledger.nonceOf db (tx.SenderPubKey t) < two64 - 1 -> 0 <= ledger.nonceOf db (tx.SenderPubKey t) -> statemachine.ts_db st = db ->
  statemachine.applyTx height baseFee st i t pre = Ok st.
Proof.
  intros Hok Hwf Hty Hval Hv Hz Hlt Hge Hst. destruct (TransferTx_branches db t v Hok Hwf Hval Hv) as (Hseq & _).
  unfold statemachine.applyTx. rewrite Hty, Hst, Hseq; [done|]. rewrite Hz. unfold wrap64. rewrite Z.mod_small by lia. lia.
Qed.

Lemma prepareCmd_inv e args txid h :
  result (prepareCmd e args) = Ok (TxLine txid h) ->
  exists kp amount receiver sig raw,
    resolveKey e (getFlag (flagSet args) [str "--key"; str "-k"]) = Ok kp /\ parseCLIAmount (flagSet args) = Ok amount /\
    let tr := cliTx tx.TxTypeTransfer (flagOr (flagSet args) [str "--sender"] (str "cli")) (flagOr (flagSet args) [str "--receiver"] (str "cli"))
                amount 0 (keys.PublicKey kp) receiver in
    tx.SignSenderForChain tr kp (flagOr (flagSet args) [str "--chain-id"] tx.DefaultChainID) = Ok sig /\
    tx.Serialize (set_SenderSig sig tr) = Ok raw /\ h = hex_EncodeToString raw.
Proof.
  unfold prepareCmd, shows. cbn [result]. intros Hs. apply obind_ok_inv in Hs as (kp & Hk & Hs). cbv zeta in Hs.
  destruct (isEmpty _); [done|]. apply obind_ok_inv in Hs as (a & Ha & Hs). apply obind_ok_inv in Hs as (rc & Hr & Hs).
  apply obind_ok_inv in Hs as (sig & Hsig & Hs). apply obind_ok_inv in Hs as (raw & Hraw & [= _ <-]%Ok_inj).
  by exists kp, a, rc, sig, raw.
Qed.

Lemma countersignCmd_inv e args txid h raw :
  hex_DecodeString (getFlag (flagSet args) [str "--tx"; str "-x"]) = Some raw -> result (countersignCmd e args) = Ok (TxLine txid h) ->
  exists t sig full, tx.Deserialize raw = Ok t /\ tx.Serialize (set_ReceiverSig sig t) = Ok full /\ h = hex_EncodeToString full.
Proof.
  intros Hd Hs. unfold countersignCmd, shows in Hs. cbn [result] in Hs. apply obind_ok_inv in Hs as (kp & _ & Hs).
  unfold decodeTxHex in Hs. rewrite Hd in Hs. destruct (isEmpty _); [done|]. cbn [obind] in Hs.
  apply obind_ok_inv in Hs as (t & Ht & Hs). destruct (bool_decide _); [done|]. apply obind_ok_inv in Hs as (sig & _ & Hs).
  cbv zeta in Hs. apply obind_ok_inv in Hs as (full & Hf & [= _ <-]%Ok_inj). by exists t, sig, full.
Qed.

(** Prepared transfers never land.  [prepare] signs with nonce 0.  What it prints, and what [countersign] prints
    when it is given that, is accepted by every node of the chain, but
    applying it changes nothing, in every state in which the account has not
    used up its nonces: a transfer must carry the next nonce, which is at
    least 1. *)
Theorem cli_prepared_lost e args txid h kp e2 args2 txid2 h2 :
  resolveKey e (getFlag (flagSet args) [str "--key"; str "-k"]) = Ok kp -> keys.generated kp ->
  result (main e (str "prepare" :: args)) = Ok (TxLine txid h) ->
  getFlag (flagSet args2) [str "--tx"; str "-x"] = h -> result (main e2 (str "countersign" :: args2)) = Ok (TxLine txid2 h2) ->
  exists raw t, hex_DecodeString h2 = Some raw /\
    p2p.parseTxForChain raw (flagOr (flagSet args) [str "--chain-id"] tx.DefaultChainID) = Ok t /\
    tx.SenderPubKey t = keys.PublicKey kp /\ tx.Nonce t = 0 /\
    forall db st height baseFee i pre, ledger.ledger_ok db -> statemachine.ts_db st = db ->
      0 <= ledger.nonceOf db (keys.PublicKey kp) < two64 - 1 -> statemachine.applyTx height baseFee st i t pre = Ok st.
Proof.
  intros Hk Hg Hp Htx Hc. change (main e (str "prepare" :: args)) with (prepareCmd e args) in Hp.
  change (main e2 (str "countersign" :: args2)) with (countersignCmd e2 args2) in Hc.
  apply prepareCmd_inv in Hp as (kp' & a & rc & sig & raw & E & Ha & Hsig & Hraw & ->). rewrite Hk in E. apply Ok_inj in E as <-.
  set (tr := cliTx _ _ _ _ _ _ _) in *. assert (tx.wf tr) as Hwf by (apply cliTx_wf; [done|split; [done|reflexivity]]).
  pose proof (tx_roundtrip (set_SenderSig sig tr) raw ltac:(by constructor; apply Hwf) Hraw) as Hd.
  apply (countersignCmd_inv e2 args2 txid2 h2 raw) in Hc as (t & sig2 & full & Ht & Hf & ->); [|by rewrite Htx, hex_roundtrip].
  rewrite Hd in Ht. apply Ok_inj in Ht as <-. apply parseCLIAmount_pos in Ha.
  set (t2 := set_ReceiverSig sig2 (canon (set_SenderSig sig tr))) in *. assert (tx.wf t2) as Hwf2 by (by constructor; apply Hwf).
  exists full, (canon t2). rewrite hex_roundtrip. split_and!; try done.
  - apply parse_spec. split; [by apply tx_roundtrip|]. apply VerifySigs_canon.
    change (tx.VerifySigsForChain t2 ?c) with (tx.VerifySigsForChain (canon (set_SenderSig sig tr)) c).
    apply VerifySigs_canon. by eapply SignSender_verifies.
  - intros db st height baseFee i pre Hok Hst [Hge Hlt]. apply (nonce_zero_skipped db _ _ _ _ _ _ a); try done; lia.
Qed.
End Transfers.
