(* ===== verification/Explorer.v ===== *)
(** * cmd/frg-web: the block explorer (main.go)

    The handlers take the address of a node from the request, with the
    default as fallback, dial it and forward the question.  [captureBlocks]
    polls the default node and keeps a history of heights in a bucket.  A
    handler's outcome has the addresses it dialled.  The page and the JSON of
    answers are not modelled; what [handleBlocks] writes once its stream is
    set up is in [Stream]. *)

From S2P Require Import Prelude GoBytes Errors Platform Hex Tx KV Denom Contract Wallet NetAddr Config Frontend WalletApi.
Import frontend.

Module explorer.

Definition maxBlockHistory : Z := 1000.
Definition maxWebBatchItems : Z := 1024.

(** ** Addresses *)

(** [strconv.ParseUint(port, 10, 16)] succeeds. *)
Definition validPort (port : bytes) : bool :=
  negb (isEmpty port) && denom.digitsOnly port && (denom.digits_value port <? two16).

Definition validateLoopbackAddr (addr : bytes) : res unit :=
  match netaddr.SplitHostPort addr with
  | None => failf "gRPC address must be loopback host:port"
  | Some (host, port) =>
    if negb (validPort port) then failf "gRPC address port is invalid" else
    if config.isLocalhost host then Ok tt else
    if netaddr.hostIsLoopback host then Ok tt else failf "gRPC address must be loopback"
  end.

Definition addrFromRequest (query : bytes -> bytes) (fallback : bytes) : res bytes :=
  let v := denom.TrimSpace (query (str "addr")) in
  if negb (isEmpty v) then let* _ := validateLoopbackAddr v in Ok v
  else let* _ := validateLoopbackAddr fallback in Ok fallback.

Definition TrimPrefix (s p : bytes) : bytes := default s (denom.strip_prefix p s).

Definition decodeHexBytes (s : bytes) : res bytes :=
  let cleaned := denom.TrimSpace s in
  let cleaned := TrimPrefix cleaned (str "0x") in
  let cleaned := TrimPrefix cleaned (str "0X") in
  if isEmpty cleaned then failf "hex payload is empty" else
  match hex_DecodeString cleaned with
  | None => failf "decode hex"
  | Some raw => Ok raw
  end.

(** ** The history *)
Record blockRecord : Type := mkRecord { Height : Z; StateRoot : bytes; Time : bytes }.

(** The bucket; its keys are the heights in twenty digits, so their order is that of the heights. *)
Record history : Type := mkHistory { blocks : gmap Z blockRecord; blockCount : Z }.

(** [cursor] is what the deleting loop visits: the bucket changes under its
    cursor, which bbolt leaves open. *)
Definition recordBlock (cursor : gmap Z blockRecord -> list Z) (h : history) (br : blockRecord) : history :=
  let blocks := <[Height br := br]> (blocks h) in
  let count := wrap64 (blockCount h + 1) in
  if count >? maxBlockHistory + 500 then
    let visited := take 500 (cursor blocks) in
    mkHistory (foldl (fun m k => delete k m) blocks visited) (wrap64 (count - zlen visited))
  else mkHistory blocks count.

(** One tick of [captureBlocks]: the last height seen and the history. *)
Definition captureTick (cursor : gmap Z blockRecord -> list Z) (last : Z) (h : history) (status : res frontend.Status) (now : bytes) : Z * history :=
  match status with
  | Ok resp =>
    if frontend.Height resp >? last then
      (frontend.Height resp, recordBlock cursor h (mkRecord (frontend.Height resp) (hex_EncodeToString (frontend.StateRoot resp)) now))
    else (last, h)
  | _ => (last, h)
  end.

(** [captureBlocks]: the node's status and the time at each tick. *)
Definition captureBlocks (cursor : gmap Z blockRecord -> list Z) (h : history) (ticks : list (res frontend.Status * bytes)) : Z * history :=
  foldl (fun '(last, h) '(st, now) => captureTick cursor last h st now) (0, h) ticks.

(** [handleBlocksHistory]: the newest first, a thousand at most. *)
Definition newerFirst (a b : Z * blockRecord) : Prop := fst b <= fst a.
#[export] Instance newerFirst_dec : RelDecision newerFirst.
Proof. intros a b. unfold newerFirst. apply _. Defined.

Definition blocksHistory (h : history) : list blockRecord :=
  map snd (take (Z.to_nat maxBlockHistory) (merge_sort newerFirst (map_to_list (blocks h)))).
(** ** Handlers *)
Class WebJson : Type :=
  { web_submitTx : bytes -> res bytes;            (* tx_hex of the body *)
    web_submitBatch : bytes -> res (list bytes) }. (* tx_hexes *)

Inductive content : Type :=
| CSubmitted (ok : bool) | CStatus (s : Status) (state_root_hex : bytes)
| CValidators (vs : list validatorEntry) (total_bond_frg total_bond : bytes)
| CMempool (es : list (bytes * bytes * Z)) | CAccount (a : accountResponse) | CStream | CHistory (l : list blockRecord) | CPage | CError.

Record answer : Type := mkAnswer { dialled : list bytes; submitted : list bytes; answered : res (Z * content) }.

Definition refuse (status : Z) : answer := mkAnswer [] [] (Ok (status, CError)).

Definition checked {A} (status : Z) (r : res A) (k : A -> answer) : answer :=
  match r with Ok a => k a | Err _ => refuse status | Panic => mkAnswer [] [] Panic end.

Section Handlers.
Context `{WebJson}.
Context (defaultAddr : bytes) (dial : bytes -> res Node) (h : history).
Implicit Types (r : walletapi.Request).

Definition method r (m : bytes) (k : answer) : answer :=
  if negb (bool_decide (walletapi.Method r = m)) then refuse walletapi.StatusMethodNotAllowed else k.

(** Dial, ask, answer: an error of either is a bad gateway. *)
Definition asking {A} (addr : bytes) (ask : Node -> res A) (k : A -> content) : answer :=
  mkAnswer [addr] []
    (match (let* n := dial addr in ask n) with
     | Ok a => Ok (walletapi.StatusOK, k a)
     | Err _ => Ok (walletapi.StatusBadGateway, CError)
     | Panic => Panic
     end).

(** [submitTx] and [submitBatch]: the messages are submitted once the node was dialled. *)
Definition submitting (addr : bytes) (raws : list bytes) (ask : Node -> res bool) : answer :=
  mkAnswer [addr] (if is_Ok (dial addr) then raws else []) (answered (asking addr ask CSubmitted)).

Definition handleIndex r : answer := method r (str "GET") (mkAnswer [] [] (Ok (walletapi.StatusOK, CPage))).

Definition handleSubmitTx r : answer :=
  method r (str "POST")
    (checked walletapi.StatusBadRequest
       (let* addr := addrFromRequest (walletapi.Query r) defaultAddr in
        let* txHex := web_submitTx (walletapi.Body r) in
        let* raw := decodeHexBytes txHex in
        Ok (addr, raw))
       (fun '(addr, raw) => submitting addr [raw] (fun n => SubmitTx n raw))).

Definition handleSubmitBatch r : answer :=
  method r (str "POST")
    (checked walletapi.StatusBadRequest
       (let* addr := addrFromRequest (walletapi.Query r) defaultAddr in
        let* txHexes := web_submitBatch (walletapi.Body r) in
        if zlen txHexes >? maxWebBatchItems then failf "batch item limit exceeded" else
        let* rawBatch := mapM decodeHexBytes txHexes in
        Ok (addr, rawBatch))
       (fun '(addr, rawBatch) => submitting addr rawBatch (fun n => SubmitBatch n rawBatch))).

(** The stream is opened; what follows depends on the node. *)
Definition handleBlocks r : answer :=
  method r (str "GET")
    (checked walletapi.StatusBadRequest (addrFromRequest (walletapi.Query r) defaultAddr) (fun addr =>
       asking addr (fun _ => Ok tt) (fun _ => CStream))).

Definition handleBlocksHistory r : answer :=
  method r (str "GET") (mkAnswer [] [] (Ok (walletapi.StatusOK, CHistory (blocksHistory h)))).

Definition handleStatus r : answer :=
  method r (str "GET")
    (checked walletapi.StatusBadRequest (addrFromRequest (walletapi.Query r) defaultAddr) (fun addr =>
       asking addr GetStatus (fun s => CStatus s (hex_EncodeToString (frontend.StateRoot s))))).

(** The sum of the bonds that are numbers. *)
Definition totalBond (vals : list Validator) : Z := sumZ (omap (fun v => denom.SetString (VBond v)) vals).

(** [totalBond.String()] *)
Definition showInt (z : Z) : bytes := if z <? 0 then str "-" ++ denom.big_String (- z) else denom.big_String z.

(** A nil entry would be dereferenced. *)
Definition derefAll {A} (l : list (option A)) : res (list A) :=
  mapM (fun x => match x with Some a => Ok a | None => Panic end) l.

Definition handleValidators r : answer :=
  method r (str "GET")
    (checked walletapi.StatusBadRequest (addrFromRequest (walletapi.Query r) defaultAddr) (fun addr =>
       asking addr (fun n => let* vs := ListValidators n in derefAll vs)
         (fun vs => CValidators (formatValidators (map Some vs)) (denom.FormatFRG (Some (totalBond vs))) (showInt (totalBond vs))))).

Definition handleMempool r : answer :=
  method r (str "GET")
    (checked walletapi.StatusBadRequest (addrFromRequest (walletapi.Query r) defaultAddr) (fun addr =>
       asking addr (fun n => let* es := ListMempool n in derefAll es)
         (fun es => CMempool (map (fun x => (hex_EncodeToString (Txid x), ESender x, ENonce x)) es)))).

Definition handleAccount r : answer :=
  method r (str "GET")
    (checked walletapi.StatusBadRequest
       (let* addr := addrFromRequest (walletapi.Query r) defaultAddr in
        let pubkeyHex := denom.TrimSpace (walletapi.Query r (str "pubkey")) in
        if isEmpty pubkeyHex then failf "missing pubkey query param" else
        let* pubkey := wallet.DecodePubKey pubkeyHex in
        Ok (addr, pubkey))
       (fun '(addr, pubkey) => asking addr (fun n => GetAccount n pubkey) (fun a => CAccount (formatAccount a)))).

Definition routes : list (bytes * (walletapi.Request -> answer)) :=
  [(str "/api/submit-tx", handleSubmitTx); (str "/api/submit-batch", handleSubmitBatch); (str "/api/blocks", handleBlocks);
   (str "/api/blocks-history", handleBlocksHistory);
   (str "/api/status", handleStatus); (str "/api/validators", handleValidators);
   (str "/api/mempool", handleMempool); (str "/api/account", handleAccount)].

(** A path that is none of these is the page. *)
Fixpoint dispatch (l : list (bytes * (walletapi.Request -> answer))) r : answer :=
  match l with
  | [] => handleIndex r
  | (p, h) :: l => if bool_decide (walletapi.Path r = p) then h r else dispatch l r
  end.

Definition serveHTTP r : answer := dispatch routes r.
End Handlers.

End explorer.

(** * frg-web: it dials loopback only, and its history stays bounded *)

Import frontend explorer.

(** ** Loopback *)

(** A dialled address: a port of this host's loopback interface, by name or
    as an IP literal of 127.0.0.0/8 or ::1. *)
Definition loopbackAddr (addr : bytes) : Prop :=
  exists host port,
    (addr = host ++ netaddr.colon :: port \/ addr = netaddr.lbrack :: host ++ netaddr.rbrack :: netaddr.colon :: port) /\
    denom.digitsOnly port = true /\ 0 <= denom.digits_value port < two16 /\
    (config.isLocalhost host = true \/
     exists ip, netaddr.ParseIP host = Some ip /\
       ((exists rest, ip = netaddr.v4InV6Prefix ++ 127 :: rest) \/ ip = replicate 15 0 ++ [1])).

Lemma hostIsLoopback_sound host :
  netaddr.hostIsLoopback host = true ->
  exists ip, netaddr.ParseIP host = Some ip /\ ((exists rest, ip = netaddr.v4InV6Prefix ++ 127 :: rest) \/ ip = replicate 15 0 ++ [1]).
Proof.
  unfold netaddr.hostIsLoopback. destruct (netaddr.ParseIP host) as [ip|]; [|done]. unfold netaddr.IsLoopback. intros Hl. exists ip. split; [done|].
  destruct (bool_decide (take 12 ip = _)) eqn:E; bsimp; [left|by right]. exists (drop 13 ip).
  rewrite <- (take_drop 12 ip) at 1. rewrite E. f_equal. by apply drop_S.
Qed.

Lemma validateLoopbackAddr_sound addr : validateLoopbackAddr addr = Ok tt -> loopbackAddr addr.
Proof.
  unfold validateLoopbackAddr. intros Hv. destruct (netaddr.SplitHostPort addr) as [[host port]|] eqn:Es; [|done].
  destruct (negb (validPort port)) eqn:Ep; [done|]. unfold validPort in Ep. bsimp.
  apply netaddr.SplitHostPort_sound in Es as [Es _]. exists host, port. split_and!; try done.
  { by apply digits_value_nonneg. }
  destruct (config.isLocalhost host); [by left|right]. apply hostIsLoopback_sound. by destruct (netaddr.hostIsLoopback host).
Qed.

Lemma addrFromRequest_sound q d addr : addrFromRequest q d = Ok addr -> loopbackAddr addr.
Proof.
  unfold addrFromRequest. intros Ha. destruct (negb _); apply obind_ok_inv in Ha as ([] & Hv & <-%Ok_inj); by apply validateLoopbackAddr_sound.
Qed.

Section Handlers.
Context `{WebJson} (defaultAddr : bytes) (dial : bytes -> res Node) (h : history).
Implicit Types (r : walletapi.Request).

(** An answer: every address dialled is a loopback one, and messages are
    submitted for a POST only. *)
Definition answer_ok r (a : answer) : Prop :=
  Forall loopbackAddr (dialled a) /\ (submitted a <> [] -> walletapi.Method r = str "POST" /\ dialled a <> []).

Lemma method_ok r m k : (walletapi.Method r = m -> answer_ok r k) -> answer_ok r (method r m k).
Proof. intros Hk. unfold method. destruct (bool_decide _) eqn:E; cbn; [apply Hk; by bsimp|by split]. Qed.

Lemma explorer_checked_ok {A} r st (x : res A) k : (forall a, x = Ok a -> answer_ok r (k a)) -> answer_ok r (checked st x k).
Proof. intros Hk. destruct x; [by apply Hk|by split..]. Qed.

Lemma asking_ok {A} r addr (ask : Node -> res A) k : loopbackAddr addr -> answer_ok r (asking dial addr ask k).
Proof. intros Ha. split; [|done]. by apply Forall_cons. Qed.

Lemma submitting_ok r addr raws ask : walletapi.Method r = str "POST" -> loopbackAddr addr -> answer_ok r (submitting dial addr raws ask).
Proof. intros Hm Ha. split; [by apply Forall_cons|]. done. Qed.

Lemma explorer_routes_ok path hd : (path, hd) ∈ routes defaultAddr dial h -> forall r, answer_ok r (hd r).
Proof.
  unfold routes. intros Hin r.
  repeat (apply elem_of_cons in Hin as [[= -> ->]|Hin]); [..|by apply elem_of_nil in Hin].
  all: apply method_ok; intros Hm.
  3,5,6,7: apply explorer_checked_ok; intros addr Ha; apply asking_ok; by eapply addrFromRequest_sound.
  - apply explorer_checked_ok. intros [addr raw] Ha. apply obind_ok_inv in Ha as (a & Ha & Hr). apply obind_ok_inv in Hr as (x & _ & Hr).
    apply obind_ok_inv in Hr as (y & _ & [= -> ->]%Ok_inj). apply submitting_ok; [done|]. by eapply addrFromRequest_sound.
  - apply explorer_checked_ok. intros [addr raws] Ha. apply obind_ok_inv in Ha as (a & Ha & Hr). apply obind_ok_inv in Hr as (x & _ & Hr).
    destruct (_ >? _); [done|]. apply obind_ok_inv in Hr as (y & _ & [= -> ->]%Ok_inj). apply submitting_ok; [done|]. by eapply addrFromRequest_sound.
  - by split.
  - apply explorer_checked_ok. intros [addr pk] Ha. apply obind_ok_inv in Ha as (a & Ha & Hr). cbv zeta in Hr. destruct (isEmpty _); [done|].
    apply obind_ok_inv in Hr as (y & _ & [= -> ->]%Ok_inj). apply asking_ok. by eapply addrFromRequest_sound.
Qed.

(** C39.  The explorer is no proxy.  Whatever the request, every address a handler dials is a port of the
    loopback interface, and nothing is submitted except for a POST. *)
Theorem explorer_dials_loopback r : answer_ok r (serveHTTP defaultAddr dial h r).
Proof.
  unfold serveHTTP. pose proof explorer_routes_ok as Hr. revert Hr. generalize (routes defaultAddr dial h) as l.
  induction l as [|[p hd] l IH]; intros Hr; cbn [dispatch]; [by apply method_ok; intros; split|].
  destruct (bool_decide _); [eapply (Hr p); set_solver|]. apply IH. intros p' h' Hin. apply (Hr p'). set_solver.
Qed.
End Handlers.

(** ** The history *)
Section History.
Context (cursor : gmap Z blockRecord -> list Z).
(** The deleting loop visits keys of the bucket, each once, and at least one of a bucket that is not empty. *)
Hypothesis cursor_keys : forall m k, k ∈ cursor m -> is_Some (m !! k).
Hypothesis cursor_once : forall m, NoDup (cursor m).
Hypothesis cursor_first : forall m, m <> ∅ -> cursor m <> [].
Implicit Types (hs : history).

Record history_ok hs : Prop := { sized : Z.of_nat (size (blocks hs)) <= blockCount hs; bounded : blockCount hs <= maxBlockHistory + 500 }.

Lemma size_delete_all (m : gmap Z blockRecord) ks :
  NoDup ks -> (forall k, k ∈ ks -> is_Some (m !! k)) -> Z.of_nat (size (foldl (fun m k => delete k m) m ks)) = Z.of_nat (size m) - zlen ks.
Proof.
  revert m. induction ks as [|k ks IH]; intros m Hnd Hin; [change (zlen []) with 0; cbn [foldl]; lia|]. apply NoDup_cons in Hnd as [Hk Hnd]. cbn [foldl].
  destruct (Hin k ltac:(set_solver)) as [x Hx]. rewrite IH; [|done|].
  - rewrite (map_size_delete_Some k m) by (by exists x). rewrite zlen_cons. assert (size m <> 0%nat); [|lia]. intros E. apply map_size_empty_inv in E as ->. done.
  - intros j Hj. rewrite lookup_delete_ne by set_solver. apply Hin. set_solver.
Qed.

Lemma recordBlock_ok hs br : history_ok hs -> history_ok (recordBlock cursor hs br).
Proof.
  intros [Hs Hb]. unfold recordBlock. set (m := <[explorer.Height br := br]> (blocks hs)).
  assert (Z.of_nat (size m) <= Z.of_nat (size (blocks hs)) + 1) as Hm.
  { unfold m. rewrite map_size_insert. destruct (blocks hs !! _); unfold id; lia. }
  assert (0 <= Z.of_nat (size (blocks hs))) by lia. unfold maxBlockHistory in *.
  assert (wrap64 (blockCount hs + 1) = blockCount hs + 1) as Hw by (apply Z.mod_small; unfold two64; lia).
  rewrite Hw. destruct (_ >? _) eqn:E; bsimp; [|constructor; cbn; unfold maxBlockHistory; lia].
  set (vs := take 500 (cursor m)).
  assert (zlen vs <= 500) by (unfold zlen, vs; rewrite length_take; lia).
  assert (0 < zlen vs) as Hpos.
  { unfold zlen, vs. rewrite length_take. assert (cursor m <> []) as Hne by (apply cursor_first, insert_non_empty).
    destruct (cursor m); [done|]. cbn [length]. lia. }
  assert (wrap64 (blockCount hs + 1 - zlen vs) = blockCount hs + 1 - zlen vs) as Hw2 by (apply Z.mod_small; unfold two64; lia).
  constructor; cbn [blocks blockCount]; rewrite Hw2; [|unfold maxBlockHistory; lia].
  rewrite size_delete_all; [lia| |].
  { eapply sublist_NoDup; [apply cursor_once|apply sublist_take]. }
  intros k Hk. apply cursor_keys. unfold vs in Hk. rewrite <- (take_drop 500 (cursor m)). by apply elem_of_app; left.
Qed.

(** The explorer's history is bounded.  From an empty history, whatever statuses the polled node gives, the
    bucket never holds more than 1500 records, and [blockCount] is never
    less than their number. *)
Theorem explorer_history_bounded ticks :
  let hs := snd (captureBlocks cursor (mkHistory ∅ 0) ticks) in
  Z.of_nat (size (blocks hs)) <= blockCount hs <= 1500.
Proof.
  cbv zeta. assert (history_ok (snd (captureBlocks cursor (mkHistory ∅ 0) ticks))) as [H1 H2]; [|unfold maxBlockHistory in *; lia].
  unfold captureBlocks. assert (history_ok (snd (0, mkHistory ∅ 0))) as Hi by (constructor; cbn; [rewrite map_size_empty|unfold maxBlockHistory]; lia).
  revert Hi. generalize (0, mkHistory ∅ 0) as x. induction ticks as [|[st now] ticks IH]; intros [last hs] Hx; [done|]. cbn [foldl].
  apply IH. unfold captureTick. destruct st as [resp| |]; [|done..]. destruct (_ >? _); [|done]. by apply recordBlock_ok.
Qed.
End History.

#[export] Instance newerFirst_trans : Transitive newerFirst.
Proof. intros a b c. unfold newerFirst. lia. Qed.
#[export] Instance newerFirst_total : Total newerFirst.
Proof. intros a b. unfold newerFirst. lia. Qed.

(** The page of history: at most a thousand records, newest first, each of
    them stored, and none stored that is newer than one shown and not shown. *)
Theorem blocksHistory_newest (hs : history) :
  exists shown hidden, blocksHistory hs = map snd shown /\ shown ++ hidden ≡ₚ map_to_list (blocks hs) /\
    zlen shown <= maxBlockHistory /\ StronglySorted newerFirst (shown ++ hidden).
Proof.
  set (l := merge_sort newerFirst (map_to_list (blocks hs))).
  exists (take (Z.to_nat maxBlockHistory) l), (drop (Z.to_nat maxBlockHistory) l). rewrite take_drop. split_and!; [done| | |].
  - apply merge_sort_Permutation.
  - unfold zlen. rewrite length_take. unfold maxBlockHistory. lia.
  - apply StronglySorted_merge_sort; apply _.
Qed.
