(* ===== verification/MerkleBench.v ===== *)
(** * benchmarks/merkle: the binary Merkle tree the benchmarks compare with (merkle.go)

    Positions in layers are natural numbers; the index of a proof is a Go int
    and stays an integer.  [sort.Slice] is not stable, so how it orders
    updates of one leaf is the argument [sortUpdates]; the order of a range
    over a map is the argument [order]. *)

From S2P Require Import Prelude GoBytes Errors Platform.

Module merkle.

Abbreviation digest := (arr 32).

(** [l[i]] and [l[i] = x]: out of range they panic. *)
Definition get {A} (l : list A) (i : nat) : res A := match l !! i with Some a => Ok a | None => Panic end.
Definition put {A} (l : list A) (i : nat) (x : A) : res (list A) := if Nat.ltb i (length l) then Ok (<[i := x]> l) else Panic.

Record MerkleLeafUpdate : Type := mkUpdate { Idx : nat; Value : Z }.

Record MerkleTree : Type := mkTree { layers : list (list digest); root : digest }.

Section Merkle.
Context `{Platform}.
Implicit Types (layer : list digest) (values : list Z).

Definition leafMsg (value : Z) : bytes := put64 value.
Definition parentMsg (left right : digest) : bytes := left ++ right.

Definition leafHash (value : Z) : digest := hash.Hash (leafMsg value).
Definition parentHash (left right : digest) : digest := hash.Hash (parentMsg left right).

(** ** Building *)

(** The body of the loop that builds a layer, at [i]. *)
Definition parentAt layer (i : nat) : res digest :=
  let* left := get layer (i * 2) in
  let* right := if Nat.ltb (i * 2 + 1) (length layer) then get layer (i * 2 + 1) else Ok left in
  Ok (parentHash left right).

Definition nextLayer layer : res (list digest) :=
  let nextLen := Nat.div (length layer + 1) 2 in
  mapM (parentAt layer) (seq 0 nextLen).

(** [for len(layer) > 1]; each turn shortens the layer, so its length is fuel enough. *)
Fixpoint buildFrom (fuel : nat) layer : res digest :=
  match fuel with
  | O => Panic
  | S fuel => if Nat.ltb 1 (length layer) then let* next := nextLayer layer in buildFrom fuel next else get layer 0
  end.

Definition Build values : res digest :=
  if Nat.eqb (length values) 0 then Ok (zero_arr 32) else
  buildFrom (length values) (map leafHash values).

(** ** Proofs *)
Fixpoint proofFrom (fuel : nat) layer (idx : nat) : res (list digest) :=
  match fuel with
  | O => Panic
  | S fuel =>
    if Nat.ltb 1 (length layer) then
      let siblingIdx := Nat.lxor idx 1 in
      let* sibling := if Nat.ltb siblingIdx (length layer) then get layer siblingIdx else get layer idx in
      let* next := nextLayer layer in
      let* rest := proofFrom fuel next (Nat.div idx 2) in
      Ok (sibling :: rest)
    else Ok []
  end.

Definition GenerateProof values (idx : Z) : res (list digest) :=
  if (idx <? 0) || (idx >=? zlen values) then Ok [] else
  proofFrom (length values) (map leafHash values) (Z.to_nat idx).

(** [idx % 2] and [idx /= 2] truncate towards zero. *)
Definition climb (current : digest) (idx : Z) (sibling : digest) : digest :=
  if Z.rem idx 2 =? 0 then parentHash current sibling else parentHash sibling current.

Fixpoint foldProof (current : digest) (idx : Z) (proof : list digest) : digest :=
  match proof with
  | [] => current
  | sibling :: rest => foldProof (climb current idx sibling) (Z.quot idx 2) rest
  end.

Definition VerifyProof (root : digest) (idx : Z) (value : Z) (proof : list digest) : bool :=
  bool_decide (foldProof (leafHash value) idx proof = root).

(** ** The stored tree *)
Fixpoint layersFrom (fuel : nat) layer : res (list (list digest)) :=
  match fuel with
  | O => Panic
  | S fuel =>
    if Nat.ltb 1 (length layer) then
      let* next := nextLayer layer in let* rest := layersFrom fuel next in Ok (layer :: rest)
    else Ok [layer]
  end.

(** [mt.layers[len(mt.layers)-1][0]] *)
Definition lastRoot (ls : list (list digest)) : res digest :=
  let* top := get ls (length ls - 1) in get top 0.

Definition NewMerkleTree values : res MerkleTree :=
  if Nat.eqb (length values) 0 then Ok (mkTree [] (zero_arr 32)) else
  let* ls := layersFrom (length values) (map leafHash values) in
  let* r := lastRoot ls in
  Ok (mkTree ls r).

Definition Root (mt : MerkleTree) : digest := root mt.

(** The loop over levels: [layer] is up to date, its parent at [pos/2] is set. *)
Fixpoint updateUp layer (above : list (list digest)) (pos : nat) : res (list (list digest)) :=
  match above with
  | [] => Ok [layer]
  | up :: above =>
    let siblingIdx := Nat.lxor pos 1 in
    let* left := get layer pos in
    let* right := if Nat.ltb siblingIdx (length layer) then get layer siblingIdx else Ok left in
    let parent := if Nat.even pos then parentHash left right else parentHash right left in
    let* up := put up (Nat.div pos 2) parent in
    let* rest := updateUp up above (Nat.div pos 2) in
    Ok (layer :: rest)
  end.

Definition UpdateLeaf (mt : MerkleTree) (idx : nat) (newValue : Z) : res MerkleTree :=
  match layers mt with
  | [] => Panic
  | leaves :: above =>
    let* leaves := put leaves idx (leafHash newValue) in
    let* ls := updateUp leaves above idx in
    let* r := lastRoot ls in
    Ok (mkTree ls r)
  end.

(** ** Many leaves *)
Context (sortUpdates : list MerkleLeafUpdate -> list MerkleLeafUpdate) (order : gset nat -> list nat).

(** The last update of a leaf in the sorted order, for every leaf. *)
Definition dedup (sorted : list MerkleLeafUpdate) : gmap nat Z := foldl (fun m u => <[Idx u := Value u]> m) ∅ sorted.

(** The parents of the dirty positions, recomputed in the order of the map. *)
Definition recompute layer (up : list digest) (parents : list nat) : res (list digest) :=
  foldM (fun up parent => let* h := parentAt layer parent in put up parent h) up parents.

Fixpoint updateDirty layer (above : list (list digest)) (dirty : gset nat) : res (list (list digest)) :=
  match above with
  | [] => Ok [layer]
  | up :: above =>
    let parentDirty : gset nat := set_map (fun pos => Nat.div pos 2) dirty in
    let* up := recompute layer up (order parentDirty) in
    let* rest := updateDirty up above parentDirty in
    Ok (layer :: rest)
  end.

Definition UpdateLeaves (mt : MerkleTree) (updates : list MerkleLeafUpdate) : res MerkleTree :=
  if Nat.eqb (length updates) 0 then Ok mt else
  let deduped := dedup (sortUpdates updates) in
  match layers mt with
  | [] => Panic
  | leaves :: above =>
    let* leaves := foldM (fun l i => let* h := match deduped !! i with Some v => Ok (leafHash v) | None => Panic end in put l i h)
                    leaves (order (dom deduped)) in
    let* ls := updateDirty leaves above (dom deduped) in
    let* r := lastRoot ls in
    Ok (mkTree ls r)
  end.
End Merkle.
End merkle.

(** * benchmarks/merkle: proofs are complete and sound, updates rebuild

    The layers of a tree are a [tower]: each is the pairing of the one below,
    up to a layer of one digest.  Everything else is an induction over it. *)

Import merkle.

Section Merkle.
Context `{Platform}.
Implicit Types (l up : list digest) (d : digest) (ls : list (list digest)).

(** ** Pairing *)
Fixpoint pairUp l : list digest :=
  match l with
  | a :: b :: r => parentHash a b :: pairUp r
  | [a] => [parentHash a a]
  | [] => []
  end.

Lemma pair_ind (P : list digest -> Prop) : P [] -> (forall a, P [a]) -> (forall a b r, P r -> P (a :: b :: r)) -> forall l, P l.
Proof. intros H0 H1 H2. fix IH 1. intros [|a [|b r]]; [apply H0|apply H1|apply H2, IH]. Qed.

Lemma pairUp_at l p :
  pairUp l !! p = match l !! (p * 2)%nat, l !! (p * 2 + 1)%nat with
                  | Some a, Some b => Some (parentHash a b)
                  | Some a, None => Some (parentHash a a)
                  | None, _ => None
                  end.
Proof. revert p. induction l as [|a|a b r IH] using pair_ind; intros [|p]; try done. cbn. by rewrite IH. Qed.

Lemma length_pairUp l : length (pairUp l) = Nat.div (length l + 1) 2.
Proof.
  induction l as [|a|a b r IH] using pair_ind; [done|done|]. cbn [pairUp length]. rewrite IH.
  replace (S (S (length r)) + 1)%nat with (1 * 2 + (length r + 1))%nat by lia. by rewrite Nat.div_add_l.
Qed.

Lemma parentAt_pairUp l p h : pairUp l !! p = Some h -> parentAt l p = Ok h.
Proof.
  rewrite pairUp_at. unfold parentAt, get. destruct (l !! (p * 2)%nat) as [a|] eqn:Ea; [|done]. cbn [obind].
  destruct (l !! (p * 2 + 1)%nat) as [b|] eqn:Eb; intros [= <-].
  - apply lookup_lt_Some in Eb. apply Nat.ltb_lt in Eb as ->. done.
  - apply lookup_ge_None in Eb. apply Nat.ltb_ge in Eb as ->. done.
Qed.

Lemma mapM_seq {A} (f : nat -> res A) (l : list A) k :
  (forall i h, l !! i = Some h -> f (k + i)%nat = Ok h) -> mapM f (seq k (length l)) = Ok l.
Proof.
  revert k. induction l as [|a l IH]; intros k Hf; [done|]. cbn [length seq mapM].
  rewrite <- (Nat.add_0_r k) at 1. rewrite (Hf 0%nat a) by done. cbn [obind]. rewrite IH; [done|].
  intros i h Hi. rewrite Nat.add_succ_comm. by apply Hf.
Qed.

Lemma nextLayer_pairUp l : nextLayer l = Ok (pairUp l).
Proof. unfold nextLayer. rewrite <- length_pairUp. apply mapM_seq. intros i h Hi. by apply parentAt_pairUp. Qed.

(** ** Towers *)
Inductive tower : list digest -> list (list digest) -> digest -> Prop :=
| tower_one d : tower [d] [[d]] d
| tower_up l ls r : (1 < length l)%nat -> tower (pairUp l) ls r -> tower l (l :: ls) r.

Lemma pairUp_shorter l : (1 < length l)%nat -> (0 < length (pairUp l) < length l)%nat.
Proof.
  intros Hl. rewrite length_pairUp. pose proof (Nat.div_mod_eq (length l + 1) 2). pose proof (Nat.mod_upper_bound (length l + 1) 2 ltac:(done)). lia.
Qed.

Lemma tower_ex l : (0 < length l)%nat -> exists ls r, tower l ls r.
Proof.
  induction l as [l IH] using (induction_ltof1 _ (@length digest)). unfold ltof in IH. intros Hl.
  destruct (decide (1 < length l)%nat) as [H1|H1].
  - destruct (pairUp_shorter l H1) as [Hp Hs]. destruct (IH _ Hs Hp) as (ls & r & Ht). exists (l :: ls), r. by constructor.
  - destruct l as [|d [|? ?]]; cbn in *; [lia| |lia]. exists [[d]], d. constructor.
Qed.

Lemma tower_head l ls r : tower l ls r -> exists above, ls = l :: above.
Proof. intros []; eauto. Qed.

Lemma tower_layers l ls r fuel : tower l ls r -> (length l <= fuel)%nat -> layersFrom fuel l = Ok ls.
Proof.
  intros Ht. revert fuel. induction Ht as [d|l ls r Hl Ht IH]; intros fuel Hf; (destruct fuel as [|fuel]; [cbn in Hf; lia|]); cbn [layersFrom]; [done|].
  apply Nat.ltb_lt in Hl as E. rewrite E, nextLayer_pairUp. cbn [obind]. rewrite IH; [done|]. pose proof (pairUp_shorter l Hl). lia.
Qed.

Lemma tower_build l ls r fuel : tower l ls r -> (length l <= fuel)%nat -> buildFrom fuel l = Ok r.
Proof.
  intros Ht. revert fuel. induction Ht as [d|l ls r Hl Ht IH]; intros fuel Hf; (destruct fuel as [|fuel]; [cbn in Hf; lia|]); cbn [buildFrom]; [done|].
  apply Nat.ltb_lt in Hl as E. rewrite E, nextLayer_pairUp. cbn [obind]. apply IH. pose proof (pairUp_shorter l Hl). lia.
Qed.

Lemma tower_root l ls r : tower l ls r -> lastRoot ls = Ok r.
Proof.
  induction 1 as [d|l ls r Hl Ht IH]; [done|]. unfold lastRoot in *. destruct (tower_head _ _ _ Ht) as [above ->].
  cbn [length] in *. rewrite Nat.sub_succ, Nat.sub_0_r in IH. exact IH.
Qed.

Lemma tower_values (values : list Z) : values <> [] -> exists ls r, tower (map leafHash values) ls r.
Proof. intros Hv. apply tower_ex. rewrite length_map. destruct values; [done|cbn; lia]. Qed.

Lemma Build_tower values ls r : tower (map leafHash values) ls r -> Build values = Ok r /\ NewMerkleTree values = Ok (mkTree ls r).
Proof.
  intros Ht. unfold Build, NewMerkleTree. assert (length values <> 0%nat) as Hl.
  { intros E. destruct values; [|done]. inversion Ht as [|? ? ? Hx]. cbn in Hx. lia. }
  rewrite (proj2 (Nat.eqb_neq _ _) Hl).
  rewrite (tower_build _ ls r), (tower_layers _ ls r) by (done || (rewrite length_map; cbn; lia)). cbn [obind]. by rewrite (tower_root _ _ _ Ht).
Qed.

(** ** Positions *)
Lemma lxor_even k : Nat.lxor (2 * k) 1 = (2 * k + 1)%nat.
Proof.
  apply Nat.bits_inj. intros [|n]; rewrite Nat.lxor_spec; [by rewrite Nat.testbit_even_0, Nat.testbit_odd_0|].
  rewrite Nat.testbit_even_succ, Nat.testbit_odd_succ by lia. change (Nat.testbit 1 (S n)) with (Nat.testbit 0 n).
  by rewrite Nat.bits_0, xorb_false_r.
Qed.

Lemma lxor_odd k : Nat.lxor (2 * k + 1) 1 = (2 * k)%nat.
Proof. rewrite <- lxor_even, Nat.lxor_assoc, Nat.lxor_nilpotent, Nat.lxor_0_r. done. Qed.

(** The digest next to a position, itself at the odd end. *)
Definition sibling l (i : nat) : res digest := if Nat.ltb (Nat.lxor i 1) (length l) then get l (Nat.lxor i 1) else get l i.

Lemma pairUp_pos l i d :
  l !! i = Some d -> exists s, sibling l i = Ok s /\ pairUp l !! Nat.div i 2 = Some (if Nat.even i then parentHash d s else parentHash s d).
Proof.
  intros Hi. destruct (Nat.even i) eqn:Ev.
  - apply Nat.even_spec in Ev as [k ->]. unfold sibling. rewrite lxor_even. replace (2 * k / 2)%nat with k by (rewrite Nat.mul_comm, Nat.div_mul; lia).
    rewrite pairUp_at, (Nat.mul_comm k 2), Hi. unfold get. destruct (l !! (2 * k + 1)%nat) as [b|] eqn:Eb.
    + apply lookup_lt_Some in Eb as Hl. apply Nat.ltb_lt in Hl as ->. by exists b.
    + apply lookup_ge_None in Eb. apply Nat.ltb_ge in Eb as ->. exists d. by rewrite Hi.
  - assert (Nat.odd i = true) as Ho by (unfold Nat.odd; by rewrite Ev). apply Nat.odd_spec in Ho as [k ->].
    unfold sibling. rewrite lxor_odd. replace ((2 * k + 1) / 2)%nat with k by (rewrite Nat.mul_comm, Nat.div_add_l by lia; cbn; lia).
    apply lookup_lt_Some in Hi as Hl. destruct (lookup_lt_is_Some_2 l (2 * k)%nat ltac:(lia)) as [a Ha].
    assert (Nat.ltb (2 * k) (length l) = true) as -> by (apply Nat.ltb_lt; lia). unfold get. rewrite Ha. exists a. split; [done|].
    by rewrite pairUp_at, (Nat.mul_comm k 2), Ha, Hi.
Qed.

Lemma climb_nat d i s : climb d (Z.of_nat i) s = if Nat.even i then parentHash d s else parentHash s d.
Proof.
  unfold climb. rewrite Z.rem_mod_nonneg by lia. change 2 with (Z.of_nat 2). rewrite <- Nat2Z.inj_mod.
  destruct (Nat.even i) eqn:Ev.
  - apply Nat.even_spec in Ev as [k ->]. rewrite Nat.mul_comm, Nat.Div0.mod_mul. done.
  - assert (Nat.odd i = true) as Ho by (unfold Nat.odd; by rewrite Ev). apply Nat.odd_spec in Ho as [k ->].
    replace ((2 * k + 1) mod 2)%nat with 1%nat; [done|]. rewrite Nat.add_comm, Nat.mul_comm, Nat.Div0.mod_add. done.
Qed.

Lemma quot_nat i : Z.quot (Z.of_nat i) 2 = Z.of_nat (Nat.div i 2).
Proof. rewrite Z.quot_div_nonneg by lia. change 2 with (Z.of_nat 2). by rewrite <- Nat2Z.inj_div. Qed.

(** ** Completeness *)
Lemma proof_complete l ls r fuel i d :
  tower l ls r -> (length l <= fuel)%nat -> l !! i = Some d ->
  exists proof, proofFrom fuel l i = Ok proof /\ foldProof d (Z.of_nat i) proof = r.
Proof.
  intros Ht. revert fuel i d. induction Ht as [x|l ls r Hl Ht IH]; intros fuel i d Hf Hi; (destruct fuel as [|fuel]; [cbn in Hf; lia|]); cbn [proofFrom].
  - exists []. split; [done|]. destruct i; cbn in Hi; [by injection Hi as <-|done].
  - apply Nat.ltb_lt in Hl as E. rewrite E. destruct (pairUp_pos l i d Hi) as (s & Hs & Hp). unfold sibling in Hs. rewrite Hs. cbn [obind].
    rewrite nextLayer_pairUp. cbn [obind]. destruct (IH fuel (Nat.div i 2) _ ltac:(pose proof (pairUp_shorter l Hl); lia) Hp) as (rest & Hr & Hfold).
    rewrite Hr. cbn [obind]. exists (s :: rest). split; [done|]. cbn [foldProof]. by rewrite climb_nat, quot_nat.
Qed.

(** A generated proof verifies. *)
Theorem merkle_proof_complete values (i : nat) v :
  values !! i = Some v ->
  exists root proof, Build values = Ok root /\ GenerateProof values (Z.of_nat i) = Ok proof /\ VerifyProof root (Z.of_nat i) v proof = true.
Proof.
  intros Hv. apply lookup_lt_Some in Hv as Hl. destruct (tower_values values) as (ls & r & Ht); [by destruct values|].
  assert (map leafHash values !! i = Some (leafHash v)) as Hm by (by rewrite list_lookup_fmap, Hv).
  destruct (proof_complete _ ls r (length values) i _ Ht ltac:(rewrite length_map; lia) Hm) as (proof & Hp & Hf).
  exists r, proof. split_and!; [by apply (Build_tower values ls r)| |].
  - unfold GenerateProof. rewrite Nat2Z.id, Hp. replace (Z.of_nat i <? 0) with false by (symmetry; apply Z.ltb_ge; lia).
    replace (Z.of_nat i >=? zlen values) with false; [done|]. symmetry. rewrite Z.geb_leb. apply Z.leb_gt. unfold zlen. lia.
  - unfold VerifyProof. by apply bool_decide_eq_true.
Qed.

(** ** Soundness *)

(** The messages hashed for a layer, for a tree and along a proof. *)
Fixpoint pairMsgs l : list bytes :=
  match l with
  | a :: b :: r => parentMsg a b :: pairMsgs r
  | [a] => [parentMsg a a]
  | [] => []
  end.

Fixpoint treeMsgs ls : list bytes :=
  match ls with
  | l :: ((_ :: _) as above) => pairMsgs l ++ treeMsgs above
  | _ => []
  end.

Definition climbMsg d (i : Z) s : bytes := if Z.rem i 2 =? 0 then parentMsg d s else parentMsg s d.

Fixpoint foldMsgs d (i : Z) (proof : list digest) : list bytes :=
  match proof with
  | [] => []
  | s :: rest => climbMsg d i s :: foldMsgs (climb d i s) (Z.quot i 2) rest
  end.

Lemma climb_msg d i s : climb d i s = hash.Hash (climbMsg d i s).
Proof. unfold climb, climbMsg. by destruct (_ =? _). Qed.

Lemma parentMsg_inj a b c e : parentMsg a b = parentMsg c e -> a = c /\ b = e.
Proof.
  unfold parentMsg. intros E. apply app_inj_1 in E as [E1 E2]; [|by rewrite !arr_length]. by split; apply arr_eq.
Qed.

Lemma pairUp_msg l i h :
  pairUp l !! i = Some h -> exists a b, h = parentHash a b /\ parentMsg a b ∈ pairMsgs l /\ l !! (i * 2)%nat = Some a /\
    (l !! (i * 2 + 1)%nat = Some b \/ (l !! (i * 2 + 1)%nat = None /\ b = a)).
Proof.
  revert i. induction l as [|a|a b r IH] using pair_ind; intros i; [done|..].
  - destruct i; [|done]. intros [= <-]. exists a, a. split_and!; [done|cbn; set_solver|done|by right].
  - destruct i as [|i].
    + intros [= <-]. exists a, b. split_and!; [done|cbn; set_solver|done|by left].
    + intros Hi. cbn in Hi. destruct (IH i Hi) as (x & y & -> & Hm & Hx). exists x, y. split_and!; [done|cbn; set_solver|apply Hx|apply Hx].
Qed.

Section Sound.
Context (M : bytes -> Prop).

(** A proof of the tower's height that ends in the root starts from a digest
    of the bottom layer, that at the position if it has one. *)
Lemma fold_bottom l ls r d (i : Z) proof :
  tower l ls r -> length proof = (length ls - 1)%nat -> foldProof d i proof = r ->
  (forall m, m ∈ treeMsgs ls -> M m) -> (forall m, m ∈ foldMsgs d i proof -> M m) ->
  hash.collision M \/ (d ∈ l /\ (0 <= i < zlen l -> l !! Z.to_nat i = Some d)).
Proof.
  intros Ht. revert d i proof. induction Ht as [x|l ls r Hl Ht IH]; intros d i proof Hlen Hf HM HF.
  { destruct proof; [|done]. cbn in Hf. subst x. right. split; [set_solver|]. intros Hi. unfold zlen in Hi. cbn in Hi. by replace i with 0 by lia. }
  destruct (tower_head _ _ _ Ht) as [above ->]. destruct proof as [|s rest]; [cbn in Hlen; lia|]. cbn [foldProof foldMsgs] in *.
  destruct (IH (climb d i s) (Z.quot i 2) rest) as [Hc|[Hin Hpos]]; [cbn in *; lia|done| | |by left|].
  { intros m Hm. apply HM. cbn [treeMsgs]. set_solver. } { intros m Hm. apply HF. set_solver. }
  assert (forall j h, pairUp l !! j = Some h -> climb d i s = h ->
    hash.collision M \/ exists a b, climbMsg d i s = parentMsg a b /\ l !! (j * 2)%nat = Some a /\
      (l !! (j * 2 + 1)%nat = Some b \/ (l !! (j * 2 + 1)%nat = None /\ b = a))) as Hstep.
  { intros j h Hj Hh. destruct (pairUp_msg l j h Hj) as (a & b & -> & Hm & Ha & Hb). rewrite climb_msg in Hh.
    destruct (hash.Hash_inj_or_collision M (climbMsg d i s) (parentMsg a b)) as [E|Hc]; [apply HF; set_solver|apply HM; cbn [treeMsgs]; set_solver|done| |by left].
    right. by exists a, b. }
  apply list_elem_of_lookup in Hin as [j Hj]. destruct (Hstep j _ Hj eq_refl) as [Hc|(a & b & E & Ha & Hb)]; [by left|].
  assert (d = a \/ d = b) as Hd by (unfold climbMsg in E; destruct (_ =? _); apply parentMsg_inj in E; naive_solver).
  assert (d ∈ l) as Hdl.
  { destruct Hd as [->| ->]; [by eapply list_elem_of_lookup_2|]. destruct Hb as [Hb|[_ ->]]; by eapply list_elem_of_lookup_2. }
  destruct (decide (0 <= i < zlen l)) as [Hi|Hi]; [|right; split; [done|]; intros ?; contradiction].
  (* the position is decided by the digest there *)
  destruct (lookup_lt_is_Some_2 l (Z.to_nat i)) as [x Hx]; [unfold zlen in Hi; lia|].
  destruct (pairUp_pos l (Z.to_nat i) x Hx) as (s' & _ & Hp).
  assert (0 <= Z.quot i 2 < zlen (pairUp l)) as Hr.
  { apply lookup_lt_Some in Hp. rewrite <- (Z2Nat.id i), quot_nat by lia. unfold zlen. lia. }
  specialize (Hpos Hr). rewrite <- (Z2Nat.id i), quot_nat, Nat2Z.id in Hpos by lia. rewrite Hp in Hpos. injection Hpos as Hpos.
  destruct (Hstep _ _ Hp) as [Hc|(a' & b' & E' & Ha' & Hb')]; [by rewrite Z2Nat.id in Hpos by lia|by left|].
  right. split; [done|]. intros _. rewrite Hx. f_equal.
  unfold climbMsg in E'. destruct (Z.rem i 2 =? 0) eqn:Er.
  - apply parentMsg_inj in E' as [-> _]. replace (Z.to_nat i) with (Z.to_nat i / 2 * 2)%nat in Hx; [congruence|].
    apply Z.eqb_eq in Er. rewrite Z.rem_mod_nonneg in Er by lia. pose proof (Nat.div_mod_eq (Z.to_nat i) 2) as Hdm.
    assert (Z.to_nat i mod 2 = 0)%nat; [|lia]. apply Nat2Z.inj. rewrite Nat2Z.inj_mod, Z2Nat.id by lia. done.
  - apply parentMsg_inj in E' as [_ ->]. assert (Z.to_nat i = Z.to_nat i / 2 * 2 + 1)%nat as Hodd.
    { apply Z.eqb_neq in Er. rewrite Z.rem_mod_nonneg in Er by lia. pose proof (Nat.div_mod_eq (Z.to_nat i) 2) as Hdm.
      assert (Z.to_nat i mod 2 <> 0)%nat; [|pose proof (Nat.mod_upper_bound (Z.to_nat i) 2 ltac:(done)); lia].
      intros E0. apply Er. rewrite <- (Z2Nat.id i) by lia. change 2 with (Z.of_nat 2). by rewrite <- Nat2Z.inj_mod, E0. }
    rewrite Hodd in Hx. destruct Hb' as [Hb'|[Hb' _]]; [congruence|]. rewrite Hb' in Hx. done.
Qed.

(** A layer above the bottom one: its digests are hashes of pairs. *)
Lemma tower_above l ls r n :
  tower l ls r -> (n < length ls - 1)%nat ->
  exists l' ls', tower l' ls' r /\ length ls' = S n /\ (forall m, m ∈ treeMsgs ls' -> m ∈ treeMsgs ls) /\
    forall d, d ∈ l' -> exists a b, d = parentHash a b /\ parentMsg a b ∈ treeMsgs ls.
Proof.
  induction 1 as [x|l ls r Hl Ht IH]; intros Hn; [cbn in Hn; lia|]. destruct (tower_head _ _ _ Ht) as [above ->].
  destruct (decide (n < length (pairUp l :: above) - 1)%nat) as [Hlt|Hge].
  - destruct (IH Hlt) as (l' & ls' & H1 & H2 & H3 & H4). exists l', ls'. split_and!; [done|done|cbn [treeMsgs]; set_solver|].
    intros d Hd. destruct (H4 d Hd) as (a & b & -> & Hm). exists a, b. split; [done|]. cbn [treeMsgs]. set_solver.
  - exists (pairUp l), (pairUp l :: above). split_and!; [done|cbn in *; lia|cbn [treeMsgs]; set_solver|].
    intros d [j Hj]%list_elem_of_lookup. destruct (pairUp_msg l j d Hj) as (a & b & -> & Hm & _). exists a, b. split; [done|]. cbn [treeMsgs]. set_solver.
Qed.

Lemma foldProof_app d i p q : foldProof d i (p ++ q) = foldProof (foldProof d i p) (Nat.iter (length p) (fun z => Z.quot z 2) i) q.
Proof.
  revert d i. induction p as [|s p IH]; intros d i; [done|]. cbn [app foldProof length]. rewrite IH. f_equal.
  rewrite Nat.iter_succ_r. done.
Qed.

Lemma foldMsgs_app d i p q :
  foldMsgs d i (p ++ q) = foldMsgs d i p ++ foldMsgs (foldProof d i p) (Nat.iter (length p) (fun z => Z.quot z 2) i) q.
Proof.
  revert d i. induction p as [|s p IH]; intros d i; [done|]. cbn [app foldProof foldMsgs length]. rewrite IH. f_equal. f_equal.
  by rewrite Nat.iter_succ_r.
Qed.

Lemma foldProof_last d i p s : exists m a b, foldProof d i (p ++ [s]) = hash.Hash m /\ m = parentMsg a b /\ m ∈ foldMsgs d i (p ++ [s]).
Proof.
  rewrite foldProof_app, foldMsgs_app. cbn [foldProof foldMsgs]. set (j := Nat.iter _ _ _). set (c := foldProof d i p).
  exists (climbMsg c j s). rewrite climb_msg. unfold climbMsg. destruct (_ =? _); [exists c, s|exists s, c]; split_and!; set_solver.
Qed.

Lemma leaf_not_parent v a b : leafMsg v <> parentMsg a b.
Proof.
  intros E. apply (f_equal length) in E. unfold leafMsg, parentMsg, put64 in E. rewrite length_app, !arr_length in E.
  rewrite be_enc_length in E. lia.
Qed.

(** A proof of another length can only end in the root through a collision. *)
Lemma fold_short l ls r v (i : Z) proof :
  tower l ls r -> (length proof < length ls - 1)%nat -> foldProof (leafHash v) i proof = r ->
  (forall m, m ∈ treeMsgs ls -> M m) -> (forall m, m ∈ leafMsg v :: foldMsgs (leafHash v) i proof -> M m) -> hash.collision M.
Proof.
  intros Ht Hlt Hf HM HF. destruct (tower_above l ls r (length proof) Ht Hlt) as (l' & ls' & Ht' & Hlen & Hsub & Hpar).
  destruct (fold_bottom l' ls' r (leafHash v) i proof Ht') as [Hc|[Hin _]]; [lia|done|by auto|set_solver|done|].
  destruct (Hpar _ Hin) as (a & b & E & Hm). destruct (hash.Hash_inj_or_collision M (leafMsg v) (parentMsg a b)) as [E'|Hc]; [set_solver|by apply HM|done| |done].
  by apply leaf_not_parent in E'.
Qed.

Lemma fold_long (values : list Z) ls r d (i : Z) proof :
  tower (map leafHash values) ls r -> (length ls - 1 < length proof)%nat -> foldProof d i proof = r ->
  (forall m, m ∈ map leafMsg values ++ treeMsgs ls -> M m) -> (forall m, m ∈ foldMsgs d i proof -> M m) -> hash.collision M.
Proof.
  intros Ht Hlt Hf HM HF. set (k := (length proof - (length ls - 1))%nat).
  rewrite <- (take_drop k proof) in Hf, HF. rewrite foldProof_app in Hf. rewrite foldMsgs_app in HF.
  destruct (fold_bottom _ ls r _ _ (drop k proof) Ht ltac:(rewrite length_drop; lia) Hf) as [Hc|[Hin _]]; [set_solver|set_solver|done|].
  assert (exists p s, take k proof = p ++ [s]) as (p & s & Ek).
  { assert (length (take k proof) <> 0%nat) as E0 by (rewrite length_take; lia).
    destruct (take k proof) as [|t x _] using rev_ind; [done|]. by exists x, t. }
  rewrite Ek in *. destruct (foldProof_last d i p s) as (m & a & b & E & -> & Hm). rewrite E in Hin.
  apply list_elem_of_fmap in Hin as (v & Ev & Hv).
  destruct (hash.Hash_inj_or_collision M (parentMsg a b) (leafMsg v)) as [E'|Hc]; [set_solver| |done| |done].
  - apply HM, elem_of_app. left. by apply list_elem_of_fmap_2.
  - symmetry in E'. by apply leaf_not_parent in E'.
Qed.
End Sound.

(** The messages hashed when the tree is built and when the proof is checked. *)
Definition buildMsgs (values : list Z) : list bytes :=
  match NewMerkleTree values with Ok mt => map leafMsg values ++ treeMsgs (layers mt) | _ => [] end.

Definition verifyMsgs (i v : Z) (proof : list digest) : list bytes := leafMsg v :: foldMsgs (leafHash v) i proof.

(** A proof that verifies for a position of the tree shows the value there,
    whatever the proof's length, or else two different messages among those
    hashed have one digest. *)
Theorem merkle_proof_sound (values : list Z) root (i v : Z) proof :
  Build values = Ok root -> Forall is_u64 values -> is_u64 v -> 0 <= i < zlen values -> VerifyProof root i v proof = true ->
  values !! Z.to_nat i = Some v \/ hash.collision (fun m => m ∈ buildMsgs values ++ verifyMsgs i v proof).
Proof.
  intros Hb Hvs Hv Hi Hver. apply bool_decide_eq_true in Hver. destruct (tower_values values) as (ls & r & Ht).
  { intros ->. unfold zlen in Hi. cbn in Hi. lia. }
  destruct (Build_tower _ _ _ Ht) as [Hb' Hn]. rewrite Hb in Hb'. apply Ok_inj in Hb' as <-. unfold buildMsgs. rewrite Hn. cbn [layers].
  set (M := fun m => _). assert (forall m, m ∈ map leafMsg values ++ treeMsgs ls -> M m) as HM by (intros m Hm; unfold M; set_solver).
  assert (forall m, m ∈ verifyMsgs i v proof -> M m) as HF by (intros m Hm; unfold M; set_solver).
  destruct (decide (length proof < length ls - 1)%nat) as [Hlt|Hge].
  { right. eapply (fold_short M _ ls root v i proof Ht); [done|done|set_solver|exact HF]. }
  destruct (decide (length ls - 1 < length proof)%nat) as [Hgt|Hle].
  { right. eapply (fold_long M values ls root _ i proof Ht Hgt Hver); [exact HM|]. intros m Hm. apply HF. unfold verifyMsgs. set_solver. }
  destruct (fold_bottom M _ ls root _ i proof Ht ltac:(lia) Hver) as [Hc|[_ Hp]]; [set_solver| |by right|].
  { intros m Hm. apply HF. unfold verifyMsgs. set_solver. }
  specialize (Hp ltac:(unfold zlen in *; by rewrite length_map)). rewrite list_lookup_fmap in Hp.
  destruct (values !! Z.to_nat i) as [v'|] eqn:Ev; [|done]. cbn in Hp. injection Hp as Hp.
  destruct (hash.Hash_inj_or_collision M (leafMsg v') (leafMsg v)) as [E|Hc]; [| |done| |by right].
  - apply HM, elem_of_app. left. apply list_elem_of_fmap_2. by eapply list_elem_of_lookup_2.
  - apply HF. unfold verifyMsgs. set_solver.
  - left. f_equal. apply (be_enc_inj 8); [|by apply Hv|done]. by apply (Forall_lookup_1 _ _ _ _ Hvs Ev).
Qed.

(** A position past the end: an odd layer repeats its last digest, so a proof
    for the last value also verifies one position further. *)
Theorem merkle_phantom_leaf (a b c : Z) :
  exists root proof, Build [a; b; c] = Ok root /\ VerifyProof root 3 c proof = true /\ [a; b; c] !! 3%nat = None.
Proof.
  destruct (tower_values [a; b; c]) as (ls & r & Ht); [done|]. destruct (Build_tower _ _ _ Ht) as [Hb _].
  exists r, [leafHash c; parentHash (leafHash a) (leafHash b)]. split_and!; [done| |done].
  cbn in Hb. apply bool_decide_eq_true. cbn. by apply Ok_inj in Hb.
Qed.

(** ** Updates *)
Lemma length_pairUp_insert l i x : length (pairUp (<[i := x]> l)) = length (pairUp l).
Proof. by rewrite !length_pairUp, length_insert. Qed.

(** Layers that agree outside [D] have parents that agree outside its halves. *)
Lemma pairUp_agree l l' (D : gset nat) p :
  (forall i, i ∉ D -> l !! i = l' !! i) -> p ∉ (set_map (fun pos => Nat.div pos 2) D : gset nat) -> pairUp l !! p = pairUp l' !! p.
Proof.
  intros HD Hp. rewrite !pairUp_at.
  assert (forall j, j ∈ D -> Nat.div j 2 <> p) as Hj by (intros j Hj <-; apply Hp, elem_of_map; by exists j).
  rewrite (HD (p * 2)%nat), (HD (p * 2 + 1)%nat); [done|..].
  - intros Hin. apply (Hj _ Hin). rewrite Nat.div_add_l by lia. cbn. lia.
  - intros Hin. apply (Hj _ Hin). by rewrite Nat.div_mul.
Qed.

Lemma pairUp_insert l i x h :
  (i < length l)%nat -> pairUp (<[i := x]> l) !! Nat.div i 2 = Some h -> <[Nat.div i 2 := h]> (pairUp l) = pairUp (<[i := x]> l).
Proof.
  intros Hi Hh. apply list_eq. intros p. destruct (decide (p = Nat.div i 2)) as [->|Hne].
  - rewrite list_lookup_insert_eq; [done|]. apply lookup_lt_Some in Hh. by rewrite length_pairUp_insert in Hh.
  - rewrite list_lookup_insert_ne by done. apply (pairUp_agree l (<[i := x]> l) {[i]}).
    + intros j Hj. rewrite list_lookup_insert_ne; [done|]. set_solver.
    + set_solver.
Qed.

Lemma put_ok {A} (l : list A) i x : (i < length l)%nat -> put l i x = Ok (<[i := x]> l).
Proof. intros Hi. unfold put. by rewrite (proj2 (Nat.ltb_lt _ _) Hi). Qed.

Lemma updateUp_tower l ls r i x above :
  tower l ls r -> ls = l :: above -> (i < length l)%nat -> exists ls' r', tower (<[i := x]> l) ls' r' /\ updateUp (<[i := x]> l) above i = Ok ls'.
Proof.
  intros Ht. revert i x above. induction Ht as [d|l ls r Hl Ht IH]; intros i x above [= <-] Hi.
  { exists [[x]], x. destruct i; [|cbn in Hi; lia]. split; [constructor|done]. }
  destruct (tower_head _ _ _ Ht) as [above' ->]. cbn [updateUp].
  assert (<[i := x]> l !! i = Some x) as Hx by (by apply list_lookup_insert_eq).
  destruct (pairUp_pos _ _ _ Hx) as (s & Hs & Hp). unfold get at 1. rewrite Hx. cbn [obind].
  assert ((if Nat.ltb (Nat.lxor i 1) (length (<[i := x]> l)) then get (<[i := x]> l) (Nat.lxor i 1) else Ok x) = Ok s) as ->.
  { unfold sibling, get in *. rewrite Hx in Hs. exact Hs. }
  cbn [obind]. assert (Nat.div i 2 < length (pairUp l))%nat as Hi2 by (apply lookup_lt_Some in Hp; by rewrite length_pairUp_insert in Hp).
  rewrite put_ok by done. cbn [obind]. rewrite (pairUp_insert l i x) by done.
  destruct (IH (Nat.div i 2) (if Nat.even i then parentHash x s else parentHash s x) above' eq_refl Hi2) as (ls' & r' & Ht' & Hu).
  rewrite (pairUp_insert l i x) in Ht', Hu by done. rewrite Hu. cbn [obind]. exists (<[i := x]> l :: ls'), r'. split; [|done].
  constructor; [by rewrite length_insert|done].
Qed.

(** Changing one value of a stored tree gives the tree of the changed values. *)
Theorem merkle_UpdateLeaf_rebuilds (values : list Z) mt i v :
  NewMerkleTree values = Ok mt -> (i < length values)%nat -> UpdateLeaf mt i v = NewMerkleTree (<[i := v]> values).
Proof.
  intros Hn Hi. destruct (tower_values values) as (ls & r & Ht); [by intros ->; cbn in Hi; lia|].
  rewrite (proj2 (Build_tower _ _ _ Ht)) in Hn. apply Ok_inj in Hn as <-. destruct (tower_head _ _ _ Ht) as [above ->].
  unfold UpdateLeaf. cbn [layers]. rewrite put_ok by (by rewrite length_map). cbn [obind].
  destruct (updateUp_tower _ _ _ i (leafHash v) above Ht eq_refl) as (ls' & r' & Ht' & ->); [by rewrite length_map|]. cbn [obind].
  rewrite (tower_root _ _ _ Ht'). cbn [obind]. symmetry. apply Build_tower. by rewrite <- list_fmap_insert in Ht'.
Qed.

(** Writing computed digests at positions of a layer. *)
Lemma foldM_put (f : nat -> res digest) (g : nat -> digest) l ks :
  (forall k, k ∈ ks -> (k < length l)%nat /\ f k = Ok (g k)) ->
  exists l', foldM (fun l k => let* h := f k in put l k h) l ks = Ok l' /\ length l' = length l /\
    forall i, l' !! i = if decide (i ∈ ks) then Some (g i) else l !! i.
Proof.
  revert l. induction ks as [|k ks IH]; intros l Hk.
  { exists l. split_and!; [done|done|]. intros i. rewrite decide_False by apply not_elem_of_nil. done. }
  destruct (Hk k ltac:(set_solver)) as [Hlt Hf]. cbn [foldM]. rewrite Hf. cbn [obind]. rewrite put_ok by done. cbn [obind].
  destruct (IH (<[k := g k]> l)) as (l' & E & Hl & Hi).
  { intros j Hj. rewrite length_insert. apply Hk. set_solver. }
  exists l'. rewrite length_insert in Hl. split_and!; [done|done|]. intros i. rewrite Hi.
  destruct (decide (i ∈ ks)) as [Hin|Hin]; [by rewrite decide_True by set_solver|]. destruct (decide (i = k)) as [->|Hne].
  - rewrite decide_True by set_solver. by apply list_lookup_insert_eq.
  - rewrite decide_False by set_solver. by apply list_lookup_insert_ne.
Qed.

Section Leaves.
Context (sortUpdates : list MerkleLeafUpdate -> list MerkleLeafUpdate) (order : gset nat -> list nat).
Hypothesis sort_perm : forall us, sortUpdates us ≡ₚ us.
Hypothesis order_elements : forall D i, i ∈ order D <-> i ∈ D.

Lemma updateDirty_tower l l' ls r above (D : gset nat) :
  tower l ls r -> ls = l :: above -> length l' = length l -> (forall i, i ∉ D -> l !! i = l' !! i) -> (forall i, i ∈ D -> (i < length l)%nat) ->
  exists ls' r', tower l' ls' r' /\ updateDirty order l' above D = Ok ls'.
Proof.
  intros Ht. revert l' above D. induction Ht as [d|l ls r Hl Ht IH]; intros l' above D [= <-] Hlen Hag HD.
  { destruct l' as [|x [|? ?]]; [done| |done]. exists [[x]], x. split; [constructor|done]. }
  destruct (tower_head _ _ _ Ht) as [above' ->]. cbn [updateDirty]. set (P := set_map _ D : gset nat).
  assert (length (pairUp l') = length (pairUp l)) as Hp by (by rewrite !length_pairUp, Hlen).
  assert (forall k, k ∈ P -> (k < length (pairUp l))%nat) as HP.
  { intros k (j & -> & Hj)%elem_of_map. apply HD in Hj. destruct (lookup_lt_is_Some_2 l j Hj) as [x Hx].
    destruct (pairUp_pos l j x Hx) as (s & _ & Hs). by apply lookup_lt_Some in Hs. }
  destruct (foldM_put (parentAt l') (fun k => default (zero_arr 32) (pairUp l' !! k)) (pairUp l) (order P)) as (u & Hu & Hul & Hui).
  { intros k Hk%order_elements. split; [by apply HP|]. apply parentAt_pairUp. apply HP in Hk. rewrite <- Hp in Hk.
    by destruct (lookup_lt_is_Some_2 _ _ Hk) as [h ->]. }
  assert (u = pairUp l') as ->.
  { apply list_eq. intros k. rewrite Hui. destruct (decide (k ∈ order P)) as [Hk%order_elements|Hk].
    - apply HP in Hk. rewrite <- Hp in Hk. by destruct (lookup_lt_is_Some_2 _ _ Hk) as [h ->].
    - apply (pairUp_agree l l' D); [done|]. intros ?. by apply Hk, order_elements. }
  change (recompute l' (pairUp l) (order P) = Ok (pairUp l')) in Hu. rewrite Hu. cbn [obind].
  destruct (IH (pairUp l') above' P eq_refl Hp) as (ls' & r' & Ht' & Hup); [|done|].
  { intros i Hi. by apply (pairUp_agree l l' D). }
  rewrite Hup. cbn [obind]. exists (l' :: ls'), r'. split; [|done]. constructor; [by rewrite Hlen|done].
Qed.

(** The values after the updates. *)
Definition updated (values : list Z) (m : gmap nat Z) : list Z := imap (fun i v => default v (m !! i)) values.

Lemma dedup_dom us i : i ∈ dom (dedup us) <-> i ∈ map Idx us.
Proof.
  unfold dedup. assert (forall m, i ∈ dom (foldl (fun m u => <[Idx u := Value u]> m) m us : gmap nat Z) <-> i ∈ dom m \/ i ∈ map Idx us) as Hd.
  { induction us as [|u us IH]; intros m; cbn [foldl map]; [set_solver|]. rewrite IH, dom_insert. set_solver. }
  rewrite Hd. set_solver.
Qed.

(** Updating many leaves of a stored tree gives the tree of the updated values,
    whatever the order in which the map is walked. *)
Theorem merkle_UpdateLeaves_rebuilds (values : list Z) mt updates :
  NewMerkleTree values = Ok mt -> Forall (fun u => (Idx u < length values)%nat) updates ->
  UpdateLeaves sortUpdates order mt updates = NewMerkleTree (updated values (dedup (sortUpdates updates))).
Proof.
  intros Hn HF. unfold UpdateLeaves. destruct updates as [|u0 us] eqn:Eu.
  { cbn [length Nat.eqb]. rewrite <- Hn. pose proof (sort_perm []) as E. apply Permutation_nil_r in E. rewrite E. unfold updated, dedup. cbn [foldl].
    f_equal. symmetry. apply list_eq. intros i. rewrite list_lookup_imap. by destruct (values !! i). }
  rewrite <- Eu in *. assert (length updates <> 0%nat) as Hl0 by (by rewrite Eu). rewrite (proj2 (Nat.eqb_neq _ _) Hl0). cbv zeta.
  set (m := dedup (sortUpdates updates)). assert (forall i, i ∈ dom m -> (i < length values)%nat) as Hdom.
  { intros i Hi%dedup_dom. rewrite sort_perm in Hi. apply list_elem_of_fmap in Hi as (u & -> & Hin). by eapply Forall_forall in HF. }
  destruct (tower_values values) as (ls & r & Ht).
  { intros ->. rewrite Forall_forall in HF. specialize (HF u0). rewrite Eu in HF. cbn in HF. specialize (HF ltac:(set_solver)). lia. }
  rewrite (proj2 (Build_tower _ _ _ Ht)) in Hn. apply Ok_inj in Hn as <-. destruct (tower_head _ _ _ Ht) as [above ->]. cbn [layers].
  destruct (foldM_put (fun i => match m !! i with Some v => Ok (leafHash v) | None => Panic end) (fun i => leafHash (default 0 (m !! i)))
    (map leafHash values) (order (dom m))) as (l' & -> & Hlen & Hi).
  { intros k Hk%order_elements. rewrite length_map. split; [by apply Hdom|]. apply elem_of_dom in Hk as [v ->]. done. }
  cbn [obind]. destruct (updateDirty_tower _ l' _ r above (dom m) Ht eq_refl Hlen) as (ls' & r' & Ht' & ->).
  { intros i Hni. rewrite Hi, decide_False; [done|]. by rewrite order_elements. } { intros i Hin. rewrite length_map. by apply Hdom. }
  cbn [obind]. rewrite (tower_root _ _ _ Ht'). cbn [obind]. symmetry. apply Build_tower.
  replace (map leafHash (updated values m)) with l'; [done|]. apply list_eq. intros i. rewrite Hi. unfold updated.
  rewrite !list_lookup_fmap, list_lookup_imap. destruct (decide (i ∈ order (dom m))) as [Hin|Hin]; rewrite order_elements in Hin.
  - pose proof (Hdom i Hin) as Hlt. destruct (lookup_lt_is_Some_2 _ _ Hlt) as [v ->]. apply elem_of_dom in Hin as [x ->]. done.
  - apply not_elem_of_dom in Hin. rewrite Hin. by destruct (values !! i).
Qed.
End Leaves.
End Merkle.
