(* ===== verification/SparseTree.v ===== *)
(** * benchmarks/smt: the sparse Merkle tree the benchmarks compare with (smt.go)

    The pointer tree of the code is built fresh and never shared, so it is an
    inductive tree.  The height, 256 in the code, is [length] of the bits of a
    key; [defaultNodes] is defined by its recurrence.  The order in which a
    range over the map of leaves gives them is the argument [order]. *)

From S2P Require Import Prelude GoBytes Errors Platform.

Module smt.

Abbreviation digest := (arr 32).

(** A pointer to a node, which may be nil. *)
Inductive smtNode : Type :=
| Nil
| Node (hash : digest) (depth : nat) (left right : smtNode).

Definition isNil (t : smtNode) : bool := match t with Nil => true | Node _ _ _ _ => false end.
Definition ndepth (t : smtNode) : nat := match t with Nil => 0 | Node _ d _ _ => d end.
Definition child (b : bool) (t : smtNode) : smtNode := match t with Nil => Nil | Node _ _ l r => if b then r else l end.
Definition set_child (b : bool) (t c : smtNode) : smtNode :=
  match t with Nil => Nil | Node h d l r => if b then Node h d l c else Node h d c r end.

(** [isBitSet(key, bit)] *)
Definition isBitSet (key : digest) (bit : nat) : bool :=
  let byteIdx := Nat.div bit 8 in
  let bitIdx := Z.of_nat (7 - Nat.modulo bit 8) in
  Z.land (Z.shiftr (byte_to_Z (default x00 (arr_bytes key !! byteIdx))) bitIdx) 1 =? 1.

(** The bits of a key, the one decided at the root first. *)
Definition bits (key : digest) : list bool := map (isBitSet key) (seq 0 256).

Section Smt.
Context `{Platform}.

Definition valueHash (value : Z) : digest := hash.Hash (put64 value).
Definition nodeHash (left right : digest) : digest := hash.Hash (left ++ right).

Fixpoint defaultNodes (i : nat) : digest :=
  match i with
  | O => zero_arr 32
  | S i => nodeHash (defaultNodes i) (defaultNodes i)
  end.

(** ** Building *)

(** The loop over the bits, from a node with as many levels below it as there
    are bits left: missing nodes are made, the last becomes the leaf. *)
Fixpoint insertPath (path : list bool) (leafHash : digest) (current : smtNode) : smtNode :=
  match path with
  | [] => Node leafHash (ndepth current) Nil Nil
  | b :: rest =>
    let below := length rest in
    let next := if isNil (child b current) then Node (defaultNodes below) below Nil Nil else child b current in
    set_child b current (insertPath rest leafHash next)
  end.

(** The digest of a node, or the default one of its level. *)
Definition hashOr (level : nat) (t : smtNode) : digest := match t with Nil => defaultNodes level | Node h _ _ _ => h end.

Fixpoint computeHashes (t : smtNode) : smtNode :=
  match t with
  | Nil => Nil
  | Node h d l r =>
    if isNil l && isNil r then t else
    let l := computeHashes l in
    let r := computeHashes r in
    Node (nodeHash (hashOr (d - 1) l) (hashOr (d - 1) r)) d l r
  end.

(** The tree of the leaves in the given order. *)
Definition buildTree (leaves : list (digest * Z)) : smtNode :=
  foldl (fun t '(key, val) => insertPath (bits key) (valueHash val) t) (Node (defaultNodes 256) 256 Nil Nil) leaves.

Record Tree : Type := mkTree { leaves : gmap bytes (digest * Z); root : digest; dirty : bool }.

Definition New : Tree := mkTree ∅ (zero_arr 32) false.

Definition Insert (t : Tree) (key : digest) (value : Z) : Tree := mkTree (<[arr_bytes key := (key, value)]> (leaves t)) (root t) true.

Context (order : gmap bytes (digest * Z) -> list (digest * Z)).

Definition build (t : Tree) : digest :=
  if Nat.eqb (size (leaves t)) 0 then defaultNodes 256 else hashOr 256 (computeHashes (buildTree (order (leaves t)))).

Definition Root (t : Tree) : Tree * digest :=
  let t := if dirty t then mkTree (leaves t) (build t) false else t in (t, root t).

(** ** Proofs *)

(** The walk from the root; a missing node is dereferenced at the next bit. *)
Fixpoint walk (path : list bool) (current : smtNode) : res (list digest) :=
  match path with
  | [] => Ok []
  | b :: rest =>
    if isNil current then Panic else
    let sibling := hashOr (length rest) (child (negb b) current) in
    let* proof := walk rest (child b current) in
    Ok (sibling :: proof)
  end.

Definition GenerateProof (t : Tree) (key : digest) : Tree * res (list digest) :=
  let '(t, _) := Root t in
  (t, walk (bits key) (computeHashes (buildTree (order (leaves t))))).

Definition verifyStep (current : digest) (step : bool * digest) : digest :=
  let '(b, sibling) := step in if b then nodeHash sibling current else nodeHash current sibling.

(** The first sibling is combined first. *)
Definition VerifyProof (root key : digest) (value : Z) (proof : list digest) : bool :=
  if negb (Nat.eqb (length proof) 256) then false else
  bool_decide (foldl verifyStep (valueHash value) (zip (bits key) proof) = root).
End Smt.
End smt.

(** * benchmarks/smt: the root is that of the complete tree; what proofs show

    The reference is the complete binary tree over all keys, with an empty
    leaf where there is no value. *)

Import smt.

Section Smt.
Context `{Platform}.
Implicit Types (t : smtNode) (path : list bool) (f : list bool -> option digest).

(** ** The reference *)
Fixpoint completeRoot (n : nat) f : digest :=
  match n with
  | O => default (zero_arr 32) (f [])
  | S n => nodeHash (completeRoot n (fun p => f (false :: p))) (completeRoot n (fun p => f (true :: p)))
  end.

Lemma completeRoot_ext n f g : (forall p, length p = n -> f p = g p) -> completeRoot n f = completeRoot n g.
Proof.
  revert f g. induction n as [|n IH]; intros f g Hfg; cbn [completeRoot]; [by rewrite Hfg|].
  f_equal; apply IH; intros p Hp; apply Hfg; cbn; by rewrite Hp.
Qed.

Lemma completeRoot_empty n : completeRoot n (fun _ => None) = defaultNodes n.
Proof. induction n as [|n IH]; [done|]. cbn [completeRoot defaultNodes]. by rewrite IH. Qed.

(** ** Trees *)

(** A node with [n] levels below: inner nodes carry the default digest until hashes are computed. *)
Fixpoint wf (n : nat) t {struct t} : Prop :=
  match t with
  | Nil => True
  | Node h d l r => d = n /\ match n with O => l = Nil /\ r = Nil | S m => h = defaultNodes n /\ wf m l /\ wf m r end
  end.

Fixpoint leafAt t path {struct t} : option digest :=
  match t, path with
  | Nil, _ => None
  | Node h _ _ _, [] => Some h
  | Node _ _ l r, b :: p => leafAt (if b then r else l) p
  end.

(** The node the insertion goes on with. *)
Definition nextNode (n : nat) t : smtNode := if isNil t then Node (defaultNodes n) n Nil Nil else t.

Lemma nextNode_wf n t : wf n t -> wf n (nextNode n t) /\ isNil (nextNode n t) = false.
Proof. intros Hw. destruct t; [|done]. cbn. split; [|done]. split; [done|]. by destruct n. Qed.

Lemma insertPath_wf path lh t : isNil t = false -> wf (length path) t -> wf (length path) (insertPath path lh t) /\ isNil (insertPath path lh t) = false.
Proof.
  revert t. induction path as [|b p IH]; intros t Hnil Hw; destruct t as [|h d l r]; try done; cbn [length] in *.
  - by destruct Hw as [-> [-> ->]].
  - destruct Hw as (-> & -> & Hl & Hr). cbn [insertPath]. fold (nextNode (length p) (child b (Node (defaultNodes (S (length p))) (S (length p)) l r))).
    destruct (nextNode_wf (length p) (child b (Node (defaultNodes (S (length p))) (S (length p)) l r))) as [Hn1 Hn2]; [by destruct b|].
    destruct (IH _ Hn2 Hn1) as [Hi _]. destruct b; cbn [set_child child] in *; by split_and!.
Qed.

Lemma nextNode_leafAt n t p : length p = n -> n <> 0%nat -> leafAt (nextNode n t) p = leafAt t p.
Proof. intros Hp Hn. destruct t; [|done]. destruct p as [|[] p]; [by subst|done..]. Qed.

Lemma insertPath_leafAt path lh t p :
  isNil t = false -> wf (length path) t -> length p = length path -> leafAt (insertPath path lh t) p = if decide (p = path) then Some lh else leafAt t p.
Proof.
  revert t p. induction path as [|b q IH]; intros t p Hnil Hw Hp; (destruct t as [|h d l r]; [done|]); (destruct p as [|c p]; try done).
  cbn [length] in *. injection Hp as Hp. destruct Hw as (-> & -> & Hl & Hr). cbn [insertPath].
  fold (nextNode (length q) (child b (Node (defaultNodes (S (length q))) (S (length q)) l r))). set (u := child b _).
  destruct (nextNode_wf (length q) u) as [Hn1 Hn2]; [by destruct b|].
  assert (leafAt (insertPath q lh (nextNode (length q) u)) p = if decide (p = q) then Some lh else leafAt u p) as Hi.
  { rewrite IH by done. case_decide as E; [done|]. apply nextNode_leafAt; [done|]. intros E0. apply E.
    destruct q; [|done]. by destruct p. }
  destruct (decide (c = b)) as [->|Hne].
  - transitivity (leafAt (insertPath q lh (nextNode (length q) u)) p); [by destruct b|]. rewrite Hi.
    unfold u. destruct (decide (p = q)) as [->|E]; [by rewrite decide_True|]. rewrite decide_False by congruence. by destruct b.
  - rewrite decide_False by congruence. by destruct b, c.
Qed.

(** Computing the hashes gives the root of the complete tree. *)
Lemma computeHashes_root n t : wf n t -> hashOr n (computeHashes t) = completeRoot n (leafAt t).
Proof.
  revert t. induction n as [|n IH]; intros [|h d l r] Hw; [done|by destruct Hw as (-> & -> & ->)|..].
  - symmetry. apply completeRoot_empty.
  - destruct Hw as (-> & -> & Hl & Hr). cbn [completeRoot]. change (fun p => leafAt ?t (false :: p)) with (leafAt l).
    change (fun p => leafAt ?t (true :: p)) with (leafAt r). rewrite <- !IH by done.
    destruct (isNil l && isNil r) eqn:E.
    + destruct l, r; try done.
    + cbn [computeHashes]. rewrite E. cbn [hashOr]. by rewrite Nat.sub_succ, Nat.sub_0_r.
Qed.

(** ** The root *)
Lemma length_bits key : length (bits key) = 256%nat.
Proof. unfold bits. by rewrite length_map, length_seq. Qed.

(** What a list of leaves has at a path; an earlier one wins. *)
Fixpoint valueAt (ls : list (digest * Z)) path : option digest :=
  match ls with
  | [] => None
  | (key, v) :: ls => if decide (path = bits key) then Some (valueHash v) else valueAt ls path
  end.

Lemma wf_256 h : h = defaultNodes 256 -> wf 256 (Node h 256 Nil Nil).
Proof. intros ->. unfold wf. split; [reflexivity|]. split; [reflexivity|]. split; exact I. Qed.

Lemma buildTree_spec ls :
  wf 256 (buildTree ls) /\ isNil (buildTree ls) = false /\ forall p, length p = 256%nat -> leafAt (buildTree ls) p = valueAt (reverse ls) p.
Proof.
  induction ls as [|[key v] ls (IHw & IHn & IHl)] using rev_ind.
  { split; [by apply wf_256|]. split; [done|]. intros p Hp. destruct p as [|[] p]; done. }
  unfold buildTree in *. rewrite foldl_app. cbn [foldl]. rewrite <- (length_bits key) in IHw.
  destruct (insertPath_wf (bits key) (valueHash v) _ IHn IHw) as [Hw Hn]. split; [by rewrite length_bits in Hw|]. split; [done|].
  intros p Hp. rewrite insertPath_leafAt by (done || by rewrite length_bits). rewrite reverse_app.
  change (reverse [(key, v)] ++ reverse ls) with ((key, v) :: reverse ls). cbn [valueAt]. case_decide; [done|]. by apply IHl.
Qed.

Lemma buildTree_root ls : hashOr 256 (computeHashes (buildTree ls)) = completeRoot 256 (valueAt (reverse ls)).
Proof.
  destruct (buildTree_spec ls) as (Hw & _ & Hl). rewrite (computeHashes_root 256) by done. apply completeRoot_ext. exact Hl.
Qed.

(** ** Keys are their bits *)
Definition byteBit (b : byte) (j : nat) : bool := Z.land (Z.shiftr (byte_to_Z b) (Z.of_nat (7 - j))) 1 =? 1.

Definition allBytes : list byte := map byte_of_Z (seqZ 0 256).

Lemma allBytes_all b : b ∈ allBytes.
Proof.
  unfold allBytes. rewrite <- (byte_of_to_Z b). apply list_elem_of_fmap_2, elem_of_seqZ. unfold byte_to_Z. pose proof (Byte.to_N_bounded b). lia.
Qed.

Definition sameBits (a b : byte) : bool := forallb (fun j => Bool.eqb (byteBit a j) (byteBit b j)) (seq 0 8).

Lemma byteBit_check : forallb (fun a => forallb (fun b => implb (sameBits a b) (bool_decide (a = b))) allBytes) allBytes = true.
Proof. vm_compute. reflexivity. Qed.

Lemma byteBit_inj a b : (forall j, (j < 8)%nat -> byteBit a j = byteBit b j) -> a = b.
Proof.
  intros Hj. pose proof byteBit_check as Hc. rewrite forallb_forall in Hc. specialize (Hc a ltac:(apply list_elem_of_In, allBytes_all)).
  rewrite forallb_forall in Hc. specialize (Hc b ltac:(apply list_elem_of_In, allBytes_all)).
  assert (sameBits a b = true) as Hs.
  { apply forallb_forall. intros j [_ Hlt]%in_seq. rewrite Hj by lia. by destruct (byteBit b j). }
  rewrite Hs in Hc. cbn in Hc. by apply bool_decide_eq_true in Hc.
Qed.

Lemma isBitSet_byte (key : digest) i j : (j < 8)%nat -> isBitSet key (i * 8 + j) = byteBit (default x00 (arr_bytes key !! i)) j.
Proof.
  intros Hj. unfold isBitSet, byteBit. rewrite Nat.div_add_l, (Nat.div_small j), Nat.add_0_r by lia.
  by rewrite Nat.add_comm, Nat.Div0.mod_add, Nat.mod_small by lia.
Qed.

Lemma bits_inj (k1 k2 : digest) : bits k1 = bits k2 -> k1 = k2.
Proof.
  intros E. apply arr_eq, list_eq. intros i. destruct (decide (i < 32)%nat) as [Hi|Hi].
  2: { rewrite !lookup_ge_None_2; [done|rewrite arr_length; lia..]. }
  destruct (lookup_lt_is_Some_2 (arr_bytes k1) i ltac:(by rewrite arr_length)) as [a Ha].
  destruct (lookup_lt_is_Some_2 (arr_bytes k2) i ltac:(by rewrite arr_length)) as [b Hb]. rewrite Ha, Hb. f_equal.
  apply byteBit_inj. intros j Hj. pose proof (isBitSet_byte k1 i j Hj) as E1. pose proof (isBitSet_byte k2 i j Hj) as E2.
  rewrite Ha in E1. rewrite Hb in E2. cbn in E1, E2. rewrite <- E1, <- E2. unfold bits in E.
  apply (f_equal (fun l => l !! (i * 8 + j)%nat)) in E. rewrite !list_lookup_fmap, !lookup_seq_lt in E by lia. by injection E.
Qed.

(** ** The stored map *)
Lemma valueAt_elem (ls : list (digest * Z)) key v : NoDup (map fst ls) -> (key, v) ∈ ls -> valueAt ls (bits key) = Some (valueHash v).
Proof.
  induction ls as [|[k x] ls IH]; intros Hnd Hin; [by apply elem_of_nil in Hin|]. apply NoDup_cons in Hnd as [Hk Hnd]. cbn [valueAt].
  apply elem_of_cons in Hin as [[= -> ->]|Hin]; [by rewrite decide_True|]. rewrite decide_False; [by apply IH|].
  intros ->%bits_inj. apply Hk. apply list_elem_of_fmap. by exists (k, v).
Qed.

Lemma valueAt_none (ls : list (digest * Z)) p : (forall key v, (key, v) ∈ ls -> p <> bits key) -> valueAt ls p = None.
Proof.
  induction ls as [|[k x] ls IH]; intros Hp; [done|]. cbn [valueAt]. rewrite decide_False by (apply (Hp k x); set_solver).
  apply IH. intros key v Hin. apply (Hp key v). set_solver.
Qed.

Lemma valueAt_some (ls : list (digest * Z)) key v : (key, v) ∈ ls -> exists h, valueAt ls (bits key) = Some h.
Proof.
  induction ls as [|[k x] ls IH]; intros Hin; [by apply elem_of_nil in Hin|]. cbn [valueAt]. case_decide as E; [by eexists|].
  apply elem_of_cons in Hin as [[= -> ->]|Hin]; [done|]. by apply IH.
Qed.

Section Order.
Context (order : gmap bytes (digest * Z) -> list (digest * Z)).
Hypothesis order_perm : forall m, order m ≡ₚ map snd (map_to_list m).

(** The tree after a history of inserts. *)
Definition inserted (kvs : list (digest * Z)) : Tree := foldl (fun tr '(k, v) => Insert tr k v) New kvs.

Record tree_ok (t : Tree) (kvs : list (digest * Z)) : Prop :=
  { keyed : forall b x, leaves t !! b = Some x -> b = arr_bytes (fst x);
    latest : forall key : digest, (fun x : digest * Z => valueHash (snd x)) <$> leaves t !! arr_bytes key = valueAt (reverse kvs) (bits key) }.

Lemma inserted_ok kvs : tree_ok (inserted kvs) kvs /\ (kvs <> [] -> dirty (inserted kvs) = true).
Proof.
  induction kvs as [|[k v] kvs [[IHk IHl] _]] using rev_ind.
  { split; [|done]. constructor; [intros b x; unfold inserted; cbn [foldl leaves New]; by rewrite lookup_empty|done]. }
  unfold inserted in *. rewrite foldl_app. cbn [foldl]. split; [|done]. constructor; cbn [leaves Insert].
  - intros b x. destruct (decide (b = arr_bytes k)) as [->|Hne]; [rewrite lookup_insert_eq; by intros [= <-]|].
    rewrite lookup_insert_ne by done. apply IHk.
  - intros key. rewrite reverse_app. change (reverse [(k, v)] ++ reverse kvs) with ((k, v) :: reverse kvs). cbn [valueAt].
    destruct (decide (key = k)) as [->|Hne]; [by rewrite lookup_insert_eq, decide_True|].
    rewrite lookup_insert_ne by (intros E; apply Hne, arr_eq; congruence). rewrite decide_False by (intros E; apply Hne; by apply bits_inj). apply IHl.
Qed.

Lemma order_valueAt (t : Tree) kvs p : tree_ok t kvs -> valueAt (reverse (order (leaves t))) p = valueAt (reverse kvs) p.
Proof.
  intros [Hk Hl]. set (ls := reverse (order (leaves t))).
  assert (forall key v, (key, v) ∈ ls <-> leaves t !! arr_bytes key = Some (key, v)) as Hin.
  { intros key v. unfold ls. rewrite elem_of_reverse, order_perm, list_elem_of_fmap. split.
    - intros ([b x] & E & Hx%elem_of_map_to_list). cbn in E. subst x. by rewrite (Hk _ _ Hx) in Hx.
    - intros Hx. exists (arr_bytes key, (key, v)). split; [done|]. by apply elem_of_map_to_list. }
  assert (NoDup (map fst ls)) as Hnd.
  { assert (NoDup ls) as Hn.
    { unfold ls. rewrite reverse_Permutation, order_perm. apply NoDup_fmap_2_strong; [|apply NoDup_map_to_list].
      intros [b1 x1] [b2 x2] H1%elem_of_map_to_list H2%elem_of_map_to_list E. cbn in E. subst x2. f_equal. by rewrite (Hk _ _ H1), (Hk _ _ H2). }
    apply NoDup_fmap_2_strong; [|done]. intros [k1 v1] [k2 v2] H1%Hin H2%Hin E. cbn in E. subst k2. rewrite H1 in H2. by injection H2 as ->. }
  destruct (decide (Exists (fun x => p = bits (fst x)) ls)) as [Hex|Hno].
  - apply Exists_exists in Hex as ([key v] & Hv & ->). cbn [fst]. rewrite (valueAt_elem ls key v) by done. apply Hin in Hv. by rewrite <- Hl, Hv.
  - rewrite valueAt_none by (intros key v Hv E; apply Hno, Exists_exists; by exists (key, v)). symmetry. apply valueAt_none.
    intros key v Hv ->. apply (valueAt_some (reverse kvs)) in Hv as [h Hh]. rewrite <- Hl in Hh.
    destruct (leaves t !! arr_bytes key) as [[k x]|] eqn:El; [|done]. pose proof (Hk _ _ El) as E. cbn in E. apply arr_eq in E as <-.
    apply Hno, Exists_exists. exists (key, x). split; [by apply Hin|done].
Qed.

(** The root after any inserts is the root of the complete tree of 2^256
    leaves in which the last value of each key stands at its place, whatever
    order the map is walked in. *)
Theorem smt_root_reference kvs :
  kvs <> [] -> snd (Root order (inserted kvs)) = completeRoot 256 (valueAt (reverse kvs)).
Proof.
  intros Hne. destruct (inserted_ok kvs) as [Hok Hd]. unfold Root. rewrite Hd by done. cbn [root snd]. unfold build.
  destruct (Nat.eqb (size (leaves (inserted kvs))) 0) eqn:E.
  - apply Nat.eqb_eq, map_size_empty_inv in E. exfalso. destruct kvs as [|[k v] kvs] using rev_ind; [done|].
    pose proof (latest _ _ Hok k) as Hl. rewrite E, lookup_empty, reverse_app in Hl.
    change (reverse [(k, v)] ++ reverse kvs) with ((k, v) :: reverse kvs) in Hl. cbn [valueAt] in Hl. by rewrite decide_True in Hl.
  - rewrite buildTree_root. apply completeRoot_ext. intros p _. by apply order_valueAt.
Qed.

(** ** Proofs *)
Definition foldUp (lh : digest) (path : list bool) (proof : list digest) : digest :=
  foldr (fun step current => verifyStep current step) lh (zip path proof).

Lemma child_compute b t : child b (computeHashes t) = computeHashes (child b t).
Proof. destruct t as [|h d l r]; [done|]. cbn [computeHashes]. destruct (isNil l && isNil r) eqn:E; [destruct l, r, b; done|by destruct b]. Qed.

Lemma hashOr_node n h l r :
  wf (S n) (Node h (S n) l r) -> hashOr (S n) (computeHashes (Node h (S n) l r)) = nodeHash (hashOr n (computeHashes l)) (hashOr n (computeHashes r)).
Proof.
  intros (_ & -> & _ & _). cbn [computeHashes]. destruct (isNil l && isNil r) eqn:E; [by destruct l, r|]. cbn [hashOr]. by rewrite Nat.sub_succ, Nat.sub_0_r.
Qed.

Lemma walk_complete path t lh :
  wf (length path) t -> leafAt t path = Some lh -> length path <> 0%nat ->
  exists proof, walk path (computeHashes t) = Ok proof /\ length proof = length path /\ foldUp lh path proof = hashOr (length path) (computeHashes t).
Proof.
  revert t. induction path as [|b p IH]; intros t Hw Hl Hn; [done|]. destruct t as [|h d l r]; [done|]. cbn [length] in *.
  pose proof Hw as (-> & _ & Hlw & Hrw). rewrite (hashOr_node (length p)) by done. cbn [walk].
  assert (isNil (computeHashes (Node h (S (length p)) l r)) = false) as -> by (cbn [computeHashes]; by destruct (isNil l && isNil r)).
  rewrite !child_compute. set (c := child b (Node h (S (length p)) l r)).
  assert (wf (length p) c) as Hc by (by destruct b). assert (leafAt c p = Some lh) as Hcl by (by destruct b).
  assert (exists proof, walk p (computeHashes c) = Ok proof /\ length proof = length p /\ foldUp lh p proof = hashOr (length p) (computeHashes c)) as (proof & -> & Hlen & Hf).
  { destruct p as [|b' p]; [|by apply IH]. exists []. split_and!; [done|done|]. destruct c as [|hc dc lc rc]; [done|].
    destruct Hc as (-> & -> & ->). cbn in Hcl. by injection Hcl as <-. }
  cbn [obind]. exists (hashOr (length p) (computeHashes (child (negb b) (Node h (S (length p)) l r))) :: proof).
  split_and!; [done|cbn; lia|]. unfold foldUp in *. cbn [zip zip_with foldr]. rewrite Hf. unfold c. by destruct b.
Qed.

(** A generated proof of a stored value leads to the root when its siblings
    are combined from the leaf upwards, the last one first. *)
Theorem smt_proof_bottom_up kvs key v :
  valueAt (reverse kvs) (bits key) = Some (valueHash v) ->
  exists (t : Tree) proof, GenerateProof order (inserted kvs) key = (t, Ok proof) /\ length proof = 256%nat /\
    foldUp (valueHash v) (bits key) proof = snd (Root order (inserted kvs)).
Proof.
  intros Hv. destruct (inserted_ok kvs) as [Hok Hd]. assert (kvs <> []) as Hne by (by intros ->).
  unfold GenerateProof. destruct (Root order (inserted kvs)) as [t r] eqn:Er.
  assert (leaves t = leaves (inserted kvs)) as Hl by (unfold Root in Er; rewrite Hd in Er by done; by injection Er as <- _).
  rewrite Hl. destruct (buildTree_spec (order (leaves (inserted kvs)))) as (Hw & _ & Hleaf).
  destruct (walk_complete (bits key) (buildTree (order (leaves (inserted kvs)))) (valueHash v)) as (proof & Hp & Hlen & Hf); rewrite ?length_bits in *; try done.
  { rewrite Hleaf by apply length_bits. by rewrite (order_valueAt _ kvs). }
  exists t, proof. rewrite Hp. split_and!; [done|done|]. rewrite Hf, buildTree_root. change r with (snd (t, r)). rewrite <- Er.
  rewrite smt_root_reference by done. apply completeRoot_ext. intros p _. by apply order_valueAt.
Qed.
End Order.

(** An empty tree: its root is not that of the complete tree without values
    until something is inserted, and asking it for a proof panics. *)
Theorem smt_empty_tree order key :
  snd (Root order New) = zero_arr 32 /\ (order ∅ = [] -> snd (GenerateProof order New key) = Panic).
Proof.
  split; [done|]. intros Ho. unfold GenerateProof, Root, New. cbn [dirty leaves snd]. rewrite Ho. unfold buildTree. cbn [foldl].
  pose proof (length_bits key) as Hl. destruct (bits key) as [|b1 [|b2 p]]; [done|done|]. cbn [computeHashes isNil andb walk child]. by destruct b1.
Qed.
End Smt.
