(* ===== verification/Devnet.v ===== *)
(** * cmd/frg-devnet and cmd/frg-stress: a local network and its load (main.go of each)

    [generate] is frg-devnet's main: from the flags and the generated keys to
    the files it writes.  The identifier libp2p derives from a key and the
    normal form of a multiaddress are arguments.  JSON files are kept as the
    values they encode.  [presign] is what frg-stress prepares per account,
    [submitAll] and [printSummary] its run and its report. *)

From S2P Require Import Prelude GoBytes Errors Platform Hex Tx TxProofs TxSigProofs KV Denom Ledger Staking StakingProofs Gas Mint Node Tree.
From S2P Require Import Contract BlockStore Telemetry StateMachine StateMachineProofs Vote BlockLoop Round Engine Genesis Gossip Rpc NetAddr.
From S2P Require Import FilePath Config ConfigProofs NodeInit.

Module devnet.

Definition nl : bytes := [x0a].
Definition quote (s : bytes) : bytes := [x22] ++ s ++ [x22].
Definition decimal (z : Z) : bytes := if z <? 0 then str "-" ++ denom.big_String (- z) else denom.big_String z.
Definition lines (l : list bytes) : bytes := concat (map (fun s => s ++ nl) l).

Definition defaultChainID : bytes := str "frg-devnet-1".
Definition defaultValidatorBondQuanta : bytes := str "1000000000000000000000".
Definition defaultValidatorBalanceQuanta : bytes := str "10000000000000000000000".
Definition defaultFaucetBalanceQuanta : bytes := str "1000000000000000000000000".

Record devNode : Type := mkDevNode { index : Z; kp : keys.Keypair; peerID : bytes; p2pPort : Z; grpcPort : Z }.

Record stressAccount : Type := mkStress { Seed : bytes; Pubkey : bytes }.

Record Flags : Type := mkFlags
  { validators : Z; chainID : bytes; bond : bytes; balance : bytes; baseP2PPort : Z; baseGRPCPort : Z;
    dockerCompose : bool; stressAccounts : Z; faucetBalance : bytes; nodeImage : bytes; faucetImage : bytes }.

Definition defaultFlags : Flags :=
  mkFlags 7 defaultChainID defaultValidatorBondQuanta defaultValidatorBalanceQuanta 17777 50051 true 0 defaultFaucetBalanceQuanta [] [].

Inductive content : Type := Raw (b : bytes) | GenesisJSON (g : genesis.Genesis) | AccountsJSON (l : list stressAccount).

Definition kpToSeed (kp : keys.Keypair) : arr 32 := mk_arr 32 (take 32 (keys.PrivateKey kp)).

Definition pubHex (kp : keys.Keypair) : bytes := hex_EncodeToString (keys.PublicKey kp).

Section Devnet.
Context `{Platform}.
Context (peerIDOf : keys.Keypair -> bytes) (multiaddr : bytes -> option bytes).
Implicit Types (f : Flags) (nodes : list devNode).

Definition nodesOf f (kps : list keys.Keypair) : list devNode :=
  imap (fun i kp => mkDevNode (Z.of_nat i) kp (peerIDOf kp) (baseP2PPort f + Z.of_nat i) (baseGRPCPort f + Z.of_nat i)) kps.

Definition stressOf (kps : list keys.Keypair) : list stressAccount :=
  map (fun kp => mkStress (hex_EncodeToString (kpToSeed kp)) (pubHex kp)) kps.

Definition genesisOf f nodes (faucetKP : keys.Keypair) (stressList : list stressAccount) : genesis.Genesis :=
  genesis.mkGenesis (chainID f)
    (map (fun nd => genesis.mkValidatorEntry (pubHex (kp nd)) (bond f)) nodes)
    (map (fun nd => genesis.mkBalanceEntry (pubHex (kp nd)) (balance f)) nodes ++
     [genesis.mkBalanceEntry (pubHex faucetKP) (faucetBalance f)] ++
     map (fun sa => genesis.mkBalanceEntry (Pubkey sa) (balance f)) stressList).

(** ** Text *)
Definition peerAddr (dockerCompose : bool) (nd : devNode) : bytes :=
  if dockerCompose
  then str "/dns4/frg-node-" ++ decimal (index nd) ++ str "/tcp/" ++ decimal (p2pPort nd) ++ str "/p2p/" ++ peerID nd
  else str "/ip4/127.0.0.1/tcp/" ++ decimal (p2pPort nd) ++ str "/p2p/" ++ peerID nd.

Definition buildPeerList nodes (selfIdx : Z) (dockerCompose : bool) : bytes :=
  concat (map (fun nd =>
    if index nd =? selfIdx then [] else
    match multiaddr (peerAddr dockerCompose nd) with
    | None => []
    | Some ma => nl ++ str "  " ++ quote ma ++ str ","
    end) nodes).

(** The gRPC address in the configuration of a node. *)
Definition grpcListenOf (grpcPort : Z) : bytes := str "0.0.0.0:" ++ decimal grpcPort.

Definition configText (chainID : bytes) (p2pPort : Z) (peers : bytes) (grpcPort : Z) : bytes :=
  lines [str "chain_id = " ++ quote chainID; []; str "[node]"; str "keypair_path = " ++ quote (str "frg.key");
         str "db_path = " ++ quote (str "frg.db"); str "genesis_path = " ++ quote (str "genesis.json"); []; str "[p2p]";
         str "listen = " ++ quote (str "/ip4/0.0.0.0/tcp/" ++ decimal p2pPort); str "peers = [" ++ peers; str "]";
         str "enable_mdns = true"; []; str "[grpc]"; str "listen = " ++ quote (grpcListenOf grpcPort); [];
         str "[consensus]"; str "propose_delay_ms = 500"; str "propose_timeout_ms = 3000"; str "prevote_timeout_ms = 3000";
         str "precommit_timeout_ms = 3000"].

Definition imageOrBuild (image dockerfile : bytes) : bytes :=
  if bool_decide (image = []) then lines [str "    build:"; str "      context: ../"; str "      dockerfile: " ++ dockerfile]
  else lines [str "    image: " ++ image].

Definition nodeService (nodeImage : bytes) (nd : devNode) : bytes :=
  let i := decimal (index nd) in
  lines [str "  frg-node-" ++ i ++ str ":"; imageOrBuild nodeImage (str "Dockerfile"); str "    container_name: frg-node-" ++ i;
         str "    working_dir: /data"; str "    volumes:"; str "      - ./node-" ++ i ++ str ":/data"; str "    environment:";
         str "      FRG_DATA_DIR: /data"; str "    ports:";
         str "      - " ++ quote (decimal (grpcPort nd) ++ str ":" ++ decimal (grpcPort nd));
         str "      - " ++ quote (decimal (p2pPort nd) ++ str ":" ++ decimal (p2pPort nd)); str "    restart: unless-stopped"] ++ nl.

(** The flags the generated service gives the faucet. *)
Definition faucetCommand : bytes :=
  str "frg-faucet --key faucet.key --db faucet.db --node frg-node-0:50051 --listen 0.0.0.0:8088".

Definition faucetService (faucetImage : bytes) : bytes :=
  lines [str "  frg-faucet:"; imageOrBuild faucetImage (str "Dockerfile.faucet"); str "    container_name: frg-faucet";
         str "    working_dir: /data"; str "    command: " ++ faucetCommand; str "    volumes:"; str "      - ./:/data"; str "    ports:";
         str "      - " ++ quote (str "8088:8088"); str "    restart: unless-stopped"; str "    depends_on:"; str "      - frg-node-0"].

Definition composeText nodes (includeFaucet : bool) (nodeImage faucetImage : bytes) : bytes :=
  str "version: " ++ quote (str "3.8") ++ nl ++ nl ++ str "services:" ++ nl ++
  concat (map (nodeService nodeImage) nodes) ++ (if includeFaucet then faucetService faucetImage else []).

(** ** The files; writing none of them fails here *)
Definition nodeFiles f nodes (g : genesis.Genesis) (nd : devNode) : list (bytes * content) :=
  let dir := str "node-" ++ decimal (index nd) ++ str "/" in
  [(dir ++ str "frg.key", Raw (kpToSeed (kp nd)));
   (dir ++ str "genesis.json", GenesisJSON g);
   (dir ++ str "config.toml", Raw (configText (chainID f) (p2pPort nd) (buildPeerList nodes (index nd) (dockerCompose f)) (grpcPort nd)))].

(** [kps]: the keys of the nodes; a count below one is refused. *)
Definition generate f (kps : list keys.Keypair) (faucetKP : keys.Keypair) (stressKPs : list keys.Keypair) : res (list (bytes * content)) :=
  if validators f <? 1 then failf "validators must be >= 1" else
  let nodes := nodesOf f kps in
  let stressList := stressOf stressKPs in
  let g := genesisOf f nodes faucetKP stressList in
  Ok (concat (map (nodeFiles f nodes g) nodes) ++
      [(str "faucet.key", Raw (kpToSeed faucetKP))] ++
      (if stressAccounts f >? 0 then [(str "stress_accounts.json", AccountsJSON stressList)] else []) ++
      (if dockerCompose f then [(str "docker-compose.yml", Raw (composeText nodes (stressAccounts f >? 0) (nodeImage f) (faucetImage f)))] else [])).

(** ** frg-stress *)

(** The account read back from the file. *)
Definition stressKey (a : stressAccount) : res keys.Keypair :=
  match hex_DecodeString (Seed a) with
  | Some seedBytes => if negb (zlen seedBytes =? 32) then failf "invalid seed" else Ok (keys.NewKeypairFromSeed (mk_arr 32 seedBytes))
  | None => failf "invalid seed"
  end.

(** The [n]-th transaction of an account; a step that fails leaves it out.
    [rcvr] is what generating the receiver's key gives. *)
Definition presignOne (idx : Z) (sender : keys.Keypair) (nonce : Z) (n : nat) (rcvr : res keys.Keypair) : option bytes :=
  match (let* rcvrKP := rcvr in
         let tr := tx.mkTx tx.TxTypeTransfer (str "stress-" ++ decimal idx) (str "stress-" ++ decimal idx ++ str "-rcvr") (Some 1)
              (wrap64 (nonce + Z.of_nat n + 1)) (keys.PublicKey sender) (keys.PublicKey rcvrKP)
              (zero_arr 64) (zero_arr 64) 0 (zero_arr 32) 0 [] [] [] [] [] in
         let* sig := tx.SignSenderForChain tr sender tx.DefaultChainID in
         let tr := set_SenderSig sig tr in
         let* rsig := tx.SignReceiverForChain tr rcvrKP tx.DefaultChainID in
         tx.Serialize (tx.mkTx (tx.Type_ tr) (tx.Sender tr) (tx.Receiver tr) (tx.Value tr) (tx.Nonce tr) (tx.SenderPubKey tr) (tx.ReceiverPubKey tr)
           (tx.SenderSig tr) rsig (tx.MissedHeight tr) (tx.MissedProposer tr) (tx.SkipIndex tr) (tx.WasmBytes tr) (tx.InitArgs tr)
           (tx.CallData tr) (tx.EvidenceA tr) (tx.EvidenceB tr))) with
  | Ok raw => Some raw
  | _ => None
  end.

Definition presign (idx : Z) (sender : keys.Keypair) (nonce : Z) (rcvrs : list (res keys.Keypair)) : list bytes :=
  omap (fun x => x) (imap (presignOne idx sender nonce) rcvrs).
End Devnet.

(** The submitting loop of an account: every message is tried until the node
    takes it; [answers] are the node's, and the run ends with them. *)
Fixpoint submitAll (batch : list bytes) (answers : list bool) : list bytes * (Z * Z) :=
  match batch with
  | [] => ([], (0, 0))
  | raw :: rest =>
    (fix retry (answers : list bool) : list bytes * (Z * Z) :=
       match answers with
       | [] => ([], (0, 0))
       | true :: answers => let '(sent, (s, fl)) := submitAll rest answers in (raw :: sent, (s + 1, fl))
       | false :: answers => let '(sent, (s, fl)) := retry answers in (raw :: sent, (s, fl + 1))
       end) answers
  end.

(** [printSummary]: average, smallest and largest latency, in nanoseconds of an
    int64 whose sum wraps around; [None] without samples. *)
Definition printSummary (latencies : list Z) : option (Z * Z * Z) :=
  match latencies with
  | [] => None
  | first :: _ =>
    let '(total, minLat, maxLat) := foldl (fun '(total, minLat, maxLat) l =>
      ((total + l + two63) mod two64 - two63, if l <? minLat then l else minLat, if l >? maxLat then l else maxLat)) (0, first, 0) latencies in
    Some (Z.quot total (zlen latencies), minLat, maxLat)
  end.
End devnet.

(** * frg-devnet: its genesis starts a chain, its node configuration does not start a node; frg-stress *)

Import devnet.

(** ** The genesis *)
Section Genesis.
Context `{Platform} `{contract.Wasmtime} `{telemetry.Json} `{MapOrderLaws} {B : Type} `{KVLaws B}.
Context (peerIDOf : keys.Keypair -> bytes).
Implicit Types (f : Flags) (db : DB B) (kps stress : list keys.Keypair).

(** The amounts of the default flags. *)
Definition default_amounts f : Prop :=
  bond f = defaultValidatorBondQuanta /\ balance f = defaultValidatorBalanceQuanta /\ faucetBalance f = defaultFaucetBalanceQuanta.

Lemma devnet_amounts :
  genesis.parseAmount defaultValidatorBondQuanta = Ok staking.minBondAmount /\
  genesis.parseAmount defaultValidatorBalanceQuanta = Ok (10 * staking.minBondAmount) /\
  genesis.parseAmount defaultFaucetBalanceQuanta = Ok (1000 * staking.minBondAmount).
Proof. split_and!; vm_compute; reflexivity. Qed.

Lemma nodesOf_kps f kps : map kp (nodesOf peerIDOf f kps) = kps.
Proof. unfold nodesOf. apply list_eq. intros i. rewrite list_lookup_fmap, list_lookup_imap. by destruct (kps !! i). Qed.

Definition devnetGenesis f kps faucetKP stress : genesis.Genesis := genesisOf f (nodesOf peerIDOf f kps) faucetKP (stressOf stress).

(** Every balance entry names a key and one of the two amounts. *)
Lemma devnet_entries f kps faucetKP stress entry :
  default_amounts f -> entry ∈ genesis.Balances (devnetGenesis f kps faucetKP stress) ->
  exists k z, genesis.decodeKey (genesis.Account entry) = Ok (keys.PublicKey k) /\ genesis.parseAmount (genesis.Amount entry) = Ok z /\
    10 * staking.minBondAmount <= z <= 1000 * staking.minBondAmount.
Proof.
  intros (_ & Hb & Hf) Hin. destruct devnet_amounts as (_ & Ha2 & Ha3).
  unfold devnetGenesis, genesisOf in Hin. cbn [genesis.Balances] in Hin.
  assert (staking.minBondAmount > 0) as Hpos by done.
  apply elem_of_app in Hin as [Hin|Hin]; [|apply elem_of_app in Hin as [Hin|Hin]].
  - apply list_elem_of_fmap in Hin as (nd & -> & _). cbn [genesis.Account genesis.Amount]. eexists _, _.
    split; [apply decodeKey_hex|]. split; [rewrite Hb; exact Ha2|lia].
  - apply list_elem_of_singleton in Hin as ->. cbn [genesis.Account genesis.Amount]. eexists _, _.
    split; [apply decodeKey_hex|]. split; [rewrite Hf; exact Ha3|lia].
  - apply list_elem_of_fmap in Hin as (sa & -> & Hin). apply list_elem_of_fmap in Hin as (k & -> & _). cbn [genesis.Account genesis.Amount Pubkey].
    eexists _, _. split; [apply decodeKey_hex|]. split; [rewrite Hb; exact Ha2|lia].
Qed.

Lemma devnet_listed f kps faucetKP stress pk a :
  default_amounts f ->
  listed (genesis.Validators (devnetGenesis f kps faucetKP stress)) pk a <-> pk ∈ map keys.PublicKey kps /\ a = staking.minBondAmount.
Proof.
  intros (Hb & _). destruct devnet_amounts as (Ha1 & _). unfold listed, devnetGenesis, genesisOf. cbn [genesis.Validators]. split.
  - intros (e & Hin & Hk & Ha). apply list_elem_of_fmap in Hin as (nd & -> & Hin). cbn [genesis.PubKey genesis.Bond] in *.
    unfold pubHex in Hk. rewrite decodeKey_hex in Hk. apply Ok_inj in Hk as <-. rewrite Hb, Ha1 in Ha. apply Ok_inj in Ha as <-. split; [|done].
    apply list_elem_of_fmap. exists (kp nd). split; [done|]. rewrite <- (nodesOf_kps f kps). by apply list_elem_of_fmap_2.
  - intros [Hin ->]. apply list_elem_of_fmap in Hin as (k & -> & Hin). rewrite <- (nodesOf_kps f kps) in Hin.
    apply list_elem_of_fmap in Hin as (nd & -> & Hin). exists (genesis.mkValidatorEntry (pubHex (kp nd)) (bond f)).
    split; [apply list_elem_of_fmap; exists nd; split; [reflexivity|exact Hin]|]. cbn [genesis.PubKey genesis.Bond].
    split; [apply decodeKey_hex|]. by rewrite Hb.
Qed.

(** What the entries grant: at least a validator's balance, to every account named. *)
Lemma grants_lookup (l : list genesis.BalanceEntry) lo (m : key_map) a :
  (forall entry, entry ∈ l -> exists k z, genesis.decodeKey (genesis.Account entry) = Ok k /\ genesis.parseAmount (genesis.Amount entry) = Ok z /\ lo <= z) ->
  (exists z, m !! a = Some z /\ lo <= z) \/ (exists entry, entry ∈ l /\ genesis.decodeKey (genesis.Account entry) = Ok a) ->
  exists z, foldl grant m l !! a = Some z /\ lo <= z.
Proof.
  revert m. induction l as [|entry l IH]; intros m Hl [Hm|(e & He & Hk)]; cbn [foldl]; [done|by apply not_elem_of_nil in He|..].
  all: destruct (Hl entry ltac:(left)) as (k & z & Hk' & Hz & Hle); apply IH; [intros e' He'; apply Hl; by right|]; unfold grant; rewrite Hk', Hz.
  - left. destruct (decide (k = a)) as [->|Hne]; [exists z; by rewrite lookup_insert_eq|]. destruct Hm as (y & Hy & ?). exists y. by rewrite lookup_insert_ne.
  - apply elem_of_cons in He as [->|He]; [left|right; by exists e]. rewrite Hk in Hk'. injection Hk' as ->. exists z. by rewrite lookup_insert_eq.
Qed.

Lemma devnet_entries_ok f kps faucetKP stress :
  default_amounts f -> Forall entry_ok (genesis.Balances (devnetGenesis f kps faucetKP stress)).
Proof.
  intros Hd. apply Forall_forall. intros e He. destruct (devnet_entries _ _ _ _ _ Hd He) as (k & z & Hk & Hz & Hle). exists (keys.PublicKey k), z.
  split; [exact Hk|]. split; [exact Hz|]. assert (staking.minBondAmount > 0) by done. assert (1000 * staking.minBondAmount < two256) by by vm_compute.
  unfold is_u256. lia.
Qed.

Lemma devnet_bonds_ok f kps faucetKP stress :
  default_amounts f -> Forall (bond_ok (grants (genesis.Balances (devnetGenesis f kps faucetKP stress)))) (genesis.Validators (devnetGenesis f kps faucetKP stress)).
Proof.
  intros Hd. set (g := devnetGenesis f kps faucetKP stress). assert (staking.minBondAmount > 0) as Hpos by done.
  apply Forall_forall. intros v Hv. apply list_elem_of_fmap in Hv as (nd & -> & Hnd).
  destruct (grants_lookup (genesis.Balances g) (10 * staking.minBondAmount) ∅ (keys.PublicKey (kp nd))) as (bal & Hl & Hle).
  - intros e He. destruct (devnet_entries _ _ _ _ _ Hd He) as (k & z & Hk' & Hz & Hlo & _).
    exists (keys.PublicKey k), z. split; [exact Hk'|]. split; [exact Hz|exact Hlo].
  - right. exists (genesis.mkBalanceEntry (pubHex (kp nd)) (balance f)). split; [|apply decodeKey_hex]. unfold g, devnetGenesis, genesisOf. cbn [genesis.Balances].
    apply elem_of_app. left. apply list_elem_of_fmap. exists nd. split; [reflexivity|exact Hnd].
  - exists (keys.PublicKey (kp nd)), staking.minBondAmount, bal. cbn [genesis.PubKey genesis.Bond]. split; [apply decodeKey_hex|].
    split; [destruct Hd as (-> & _); apply devnet_amounts|]. split; [exact Hl|]. clear -Hle Hpos. lia.
Qed.

Lemma devnet_well_formed f kps faucetKP stress :
  default_amounts f -> NoDup (map keys.PublicKey kps) -> zlen kps + zlen stress < two64 -> well_formed (devnetGenesis f kps faucetKP stress).
Proof.
  intros Hd Hnd Hlen. assert (staking.minBondAmount > 0) as Hpos by done. set (g := devnetGenesis f kps faucetKP stress).
  assert (1000 * staking.minBondAmount * two64 < two256) as Hbig by by vm_compute.
  constructor; [by apply devnet_entries_ok|by apply devnet_bonds_ok|..].
  - assert (map (fun e => genesis.decodeKey (genesis.PubKey e)) (genesis.Validators g) = map (fun k => Ok (keys.PublicKey k)) kps) as ->.
    { unfold g, devnetGenesis, genesisOf. cbn [genesis.Validators]. rewrite <- (nodesOf_kps f kps) at 2. rewrite !map_map. apply map_ext.
      intros nd. cbn [genesis.PubKey]. apply decodeKey_hex. }
    rewrite <- (map_map keys.PublicKey (fun k => Ok k : res (arr 32))). apply NoDup_fmap; [|done]. by intros a b [= ->].
  - eapply Z.le_lt_trans; [apply (grants_sum _ (1000 * staking.minBondAmount)); [by apply devnet_entries_ok|lia| |]|].
    + intros e z He Hz. destruct (devnet_entries _ _ _ _ _ Hd He) as (k & z' & _ & Hz' & _ & Hle). rewrite Hz in Hz'. by injection Hz' as ->.
    + intros a z Ha. by rewrite lookup_empty in Ha.
    + change (map_sum ∅) with 0. unfold g, devnetGenesis, genesisOf, stressOf. cbn [genesis.Balances].
      rewrite !zlen_app, zlen_one. rewrite <- (nodesOf_kps f kps) in Hlen. unfold zlen in *. rewrite !length_map in *. nia.
Qed.

(** The genesis frg-devnet generates starts a chain: with the default amounts,
    distinct node keys and fewer than 2^64 accounts, a new database accepts
    it, and the validators are exactly the generated nodes, each bonded with
    the minimum bond. *)
Theorem devnet_genesis_accepted db f kps faucetKP stress :
  fresh db -> default_amounts f -> NoDup (map keys.PublicKey kps) -> zlen kps + zlen stress < two64 ->
  (forall k, k ∈ kps -> staking.escrowAccount (keys.PublicKey k) <> keys.PublicKey k) ->
  exists db', genesis.Apply db (genesisOf f (nodesOf peerIDOf f kps) faucetKP (stressOf stress)) = (db', Ok tt) /\
    (forall pk r, recordOf db' pk = Some r <-> pk ∈ map keys.PublicKey kps /\ r = staking.mkRecord staking.stateBonded staking.minBondAmount 0 0 0) /\
    statemachine.CurrentTotalSupply db' = (ledger.totalBalance db', true).
Proof.
  intros Hf Hd Hnd Hlen Hesc. fold (devnetGenesis f kps faucetKP stress). set (g := devnetGenesis f kps faucetKP stress).
  assert (escrow_apart (genesis.Validators g)) as Hap.
  { intros pk a [Hin _]%devnet_listed; [|done]. apply list_elem_of_fmap in Hin as (k & -> & Hin). by apply Hesc. }
  destruct (well_formed_seed db g Hf Hap) as [db' Hs]; [by apply devnet_well_formed|].
  destruct (seed_spec g db db' Hf Hap Hs) as (_ & Hsup & _ & _ & Hrec). exists db'. split; [|split; [|exact Hsup]].
  - rewrite Apply_fresh by done. apply Update_ok. by rewrite Hs.
  - intros pk r. rewrite Hrec. split.
    + intros (a & Hl & ->). apply devnet_listed in Hl as [Hin ->]; [|exact Hd]. split; [exact Hin|reflexivity].
    + intros [Hin ->]. exists staking.minBondAmount. split; [by apply devnet_listed|reflexivity].
Qed.
End Genesis.

(** ** The configuration *)
Lemma digits_no_byte s c : denom.digitsOnly s = true -> denom.is_digit c = false -> c ∉ s.
Proof. intros Hs Hc Hin. apply list_elem_of_In in Hin. pose proof (proj1 (forallb_forall _ _) Hs c Hin) as Hd. cbv beta in Hd. congruence. Qed.

Lemma last_sep_unique (a a' b b' : bytes) c : a ++ c :: b = a' ++ c :: b' -> c ∉ b -> c ∉ b' -> a = a'.
Proof.
  intros E Hb Hb'. apply app_eq_inv in E as [(k & -> & E)|(k & -> & E)]; destruct k as [|x k]; rewrite ?app_nil_r; [done| |done|];
    injection E as <- E; exfalso; [apply Hb'|apply Hb]; rewrite E; apply elem_of_app; right; left.
Qed.

Lemma devnet_listen_public port : 0 <= port -> config.requiresGRPCTLS (grpcListenOf port) = true.
Proof.
  intros Hp. unfold config.requiresGRPCTLS. destruct (netaddr.SplitHostPort _) as [[host p]|] eqn:E; [|done].
  apply netaddr.SplitHostPort_sound in E as [[E|E] Hn]; [|done].
  unfold grpcListenOf, decimal in E. rewrite (proj2 (Z.ltb_ge _ _)) in E by exact Hp.
  destruct (big_String_spec port Hp) as (_ & Hd & _).
  assert (netaddr.colon ∉ denom.big_String port) as Hc by (by apply digits_no_byte).
  change (str "0.0.0.0:" ++ denom.big_String port) with (str "0.0.0.0" ++ netaddr.colon :: denom.big_String port) in E.
  assert (host = str "0.0.0.0") as ->; [|by vm_compute].
  symmetry. by eapply last_sep_unique.
Qed.

(** C37.  The nodes frg-devnet generates do not start.  Every generated config.toml
    lets gRPC listen on 0.0.0.0 and names no certificates; whatever else a
    file with that address and without TLS keys says, [loadConfig] refuses it. *)
Theorem devnet_config_refused port decode resolve :
  0 <= port ->
  config.GListen (config.CGRPC (decode config.defaultConfig)) = grpcListenOf port ->
  config.TLSCertFile (config.CGRPC (decode config.defaultConfig)) = [] ->
  is_Ok (config.loadConfig (config.Decoded decode) resolve) = false.
Proof.
  intros Hp Hl Hc. destruct (config.loadConfig _ _) as [cfg| |] eqn:E; [|done..]. exfalso.
  pose proof (loadConfig_valid _ _ _ E) as [_ _ _ _ Htls _ _]. cbn [config.loadConfig] in E. destruct resolve as [resolve|]; [|done].
  apply obind_ok_inv in E as ([] & _ & <-%Ok_inj).
  destruct Htls as [Hcert _].
  - unfold config.resolveConfigPaths, config.normalizeConfig. cbn [config.CGRPC config.GListen]. rewrite Hl. unfold config.orDefault.
    rewrite (not_blank x30); [by apply devnet_listen_public|apply (bool_decide_unpack _); by vm_compute|left].
  - unfold config.resolveConfigPaths, config.normalizeConfig in Hcert. cbn [config.CGRPC config.TLSCertFile] in Hcert. by rewrite Hc in Hcert.
Qed.

(** ** frg-stress *)
Section Stress.
Context `{Platform}.

(** The accounts of the file are the funded ones: frg-stress reads back each generated key. *)
Lemma stressKey_roundtrip (kp : keys.Keypair) :
  (forall seed, take 32 (ed25519_NewKeyFromSeed seed) = seed) -> keys.generated kp ->
  forall a, a ∈ stressOf [kp] -> stressKey a = Ok kp.
Proof.
  intros Hseed [seed ->] a Ha. apply list_elem_of_singleton in Ha as ->. unfold stressKey. cbn [Seed].
  rewrite hex_roundtrip, zlen_arr. cbn [negb Z.eqb Pos.eqb]. unfold kpToSeed. cbn [keys.PrivateKey keys.NewKeypairFromSeed].
  by rewrite Hseed, !mk_arr_bytes.
Qed.
End Stress.

(** The submitting loop: every message is tried, in order, until the node
    takes it and not after; what is counted adds up. *)
Lemma submitAll_spec batch answers sent s fl :
  submitAll batch answers = (sent, (s, fl)) ->
  zlen sent = s + fl /\ zlen sent <= zlen answers /\ 0 <= fl /\ s <= zlen batch /\
  exists done rest, batch = done ++ rest /\ zlen done = s /\ Forall (fun raw => raw ∈ sent) done.
Proof.
  revert answers sent s fl. induction batch as [|raw batch IH]; cbn [submitAll].
  { intros answers sent s fl [= <- <- <-]. rewrite !zlen_nil. pose proof (zlen_nonneg answers). split; [lia|]. split; [lia|]. split; [lia|]. split; [lia|]. by exists [], []. }
  induction answers as [|[] answers IHa]; intros sent s fl.
  - intros [= <- <- <-]. unfold zlen. cbn [length]. split_and!; try lia. by exists [], (raw :: batch).
  - destruct (submitAll batch answers) as [sent' [s' fl']] eqn:E. intros [= <- <- <-]. apply IH in E as (E1 & E2 & E3 & E4 & dn & rest & -> & E5 & E6).
    rewrite !zlen_cons. split_and!; try lia. exists (raw :: dn), rest. rewrite zlen_cons. split_and!; [done|lia|]. constructor; [left|].
    eapply Forall_impl; [exact E6|]. intros x Hx. by right.
  - match goal with |- context [?r answers] => destruct (r answers) as [sent' [s' fl']] eqn:E end. intros [= <- <- <-].
    destruct (IHa _ _ _ eq_refl) as (E1 & E2 & E3 & E4 & dn & rest & E7 & E5 & E6). rewrite !zlen_cons in *. split_and!; try lia.
    exists dn, rest. split_and!; [done|done|]. eapply Forall_impl; [exact E6|]. intros x Hx. by right.
Qed.

(** The summary of latencies that do not overflow together: the smallest and the
    largest are samples, and the average lies between them. *)
Lemma printSummary_spec latencies avg lo hi :
  Forall (fun l => 0 <= l) latencies -> sumZ latencies < two63 -> printSummary latencies = Some (avg, lo, hi) ->
  (lo ∈ latencies) /\ (hi = 0 \/ hi ∈ latencies) /\ Forall (fun l => lo <= l <= hi) latencies /\ lo <= avg <= hi.
Proof.
  intros Hpos Hsum. destruct latencies as [|first rest] eqn:El; [done|]. unfold printSummary. rewrite <- El in *.
  assert (first ∈ latencies) as Hfirst by (rewrite El; left). clear El rest.
  set (f := fun '(total, minLat, maxLat) l => _).
  assert (forall l2 l1, l1 ++ l2 = latencies -> forall t lo0 hi0, t = sumZ l1 -> lo0 ∈ latencies -> (hi0 = 0 \/ hi0 ∈ latencies) ->
    Forall (fun l => lo0 <= l <= hi0) l1 -> 0 <= hi0 ->
    exists lo hi, foldl f (t, lo0, hi0) l2 = (sumZ latencies, lo, hi) /\ lo ∈ latencies /\ (hi = 0 \/ hi ∈ latencies) /\ Forall (fun l => lo <= l <= hi) latencies) as Hloop.
  { induction l2 as [|l l2 IH]; intros l1 Happ t lo0 hi0 Ht Hlo Hhi Hall H0.
    - rewrite app_nil_r in Happ. subst l1 t. exists lo0, hi0. done.
    - assert (l ∈ latencies) as Hin by (rewrite <- Happ; apply elem_of_app; right; left).
      assert (0 <= l) as Hl by (rewrite Forall_forall in Hpos; auto).
      cbn [foldl]. unfold f at 2. apply (IH (l1 ++ [l])); [by rewrite <- app_assoc| | | | |].
      + rewrite sumZ_app, sumZ_cons. change (sumZ []) with 0. subst t. rewrite Z.mod_small; [lia|].
        rewrite <- Happ, Forall_app in Hpos. destruct Hpos as [Hp1 Hp2]. rewrite <- Happ, sumZ_app, sumZ_cons in Hsum.
        apply Forall_cons in Hp2 as [_ Hp2]. pose proof (sumZ_nonneg _ Hp1). pose proof (sumZ_nonneg _ Hp2). unfold two63, two64 in *. lia.
      + by case_match.
      + case_match; auto.
      + apply Forall_app. split.
        * eapply Forall_impl; [exact Hall|]. cbn. intros x Hx. rewrite Z.gtb_ltb. destruct (Z.ltb_spec l lo0), (Z.ltb_spec hi0 l); lia.
        * constructor; [|constructor]. rewrite Z.gtb_ltb. destruct (Z.ltb_spec l lo0), (Z.ltb_spec hi0 l); lia.
      + rewrite Z.gtb_ltb. destruct (Z.ltb_spec hi0 l); lia. }
  destruct (Hloop latencies [] eq_refl 0 first 0 eq_refl Hfirst (or_introl eq_refl) (Forall_nil_2 _) (Z.le_refl 0)) as (lo' & hi' & Hf & Hlo & Hhi & Hall).
  rewrite Hf. clear Hloop Hf. assert (0 < zlen latencies) as Hlen by (destruct latencies as [|y l]; [by apply not_elem_of_nil in Hfirst|rewrite zlen_cons; pose proof (zlen_nonneg l); lia]).
  destruct latencies as [|x rest] eqn:El; [by apply not_elem_of_nil in Hfirst|]. rewrite <- El in *. intros [= <- <- <-]. split; [done|]. split; [done|]. split; [done|].
  assert (lo' * zlen latencies <= sumZ latencies <= hi' * zlen latencies) as Hb.
  { clear -Hall. induction Hall as [|y l Hy _ IH]; [rewrite zlen_nil; cbn; lia|]. rewrite zlen_cons, sumZ_cons. lia. }
  rewrite Z.quot_div_nonneg by (try apply sumZ_nonneg; done || lia). split; [apply Z.div_le_lower_bound; lia|apply Z.div_le_upper_bound; lia].
Qed.
