(* ===== verification/Analysis.v ===== *)
(** * cmd/frg-analysis: classifying value patterns by their trees (main.go)

    The program builds trees of six patterns of values, describes every level
    by shares of its signatures, and classifies a part of the trees by their
    nearest neighbours among the others.  math/rand is [draw], the numbers of
    a generator with a seed; [iter] is Go's order of the votes' map.  Printing
    is left out. *)

From S2P Require Import Prelude GoBytes Errors Platform Float64 Tx KV Node Tree.
Import float64.

Module analysis.

Section Analysis.
Context `{Platform} (draw : Z -> nat -> float64.t) (iter : gmap bytes Z -> list (bytes * Z)).

(** ** Patterns *)
Record Pattern : Type := mkPattern { Name : bytes; Gen : Z -> Z -> res Z }.

Definition tenth : float64.t := div (of_int 1) (of_int 10).

(** [int64(x)] of a draw times 100000, which is in range. *)
Definition scaled (x : float64.t) : Z := default 0 (to_int64 (mul x (of_int 100000))).

(** An integer remainder by zero panics. *)
Definition remainder (a b : Z) : res Z := if b =? 0 then Panic else Ok (Z.rem a b).

Definition Uniform (i total : Z) : res Z := Ok 1000.
Definition SingleCluster (i total : Z) : res Z := Ok (if i <? total / 10 then 100000 else 1).
Definition TwoClusters (i total : Z) : res Z :=
  Ok (if (i <? total / 10) || ((i >=? total / 2) && (i <? total / 2 + total / 10)) then 50000 else 1).
Definition Migration (i total : Z) : res Z :=
  let* r := remainder (i / 1000) (total / 5) in
  let hot := total / 10 + r in
  Ok (if (i >=? hot) && (i <? hot + total / 10) then 100000 else 1).
Definition Periodic (i total : Z) : res Z := Ok (if Z.rem i 1000 <? 100 then 50000 else 1).
Definition Random (i total : Z) : res Z := Ok (if ltb (draw i 0) tenth then scaled (draw i 1) else 1).

Definition patterns : list Pattern :=
  [mkPattern (str "Uniform") Uniform; mkPattern (str "SingleCluster") SingleCluster; mkPattern (str "TwoClusters") TwoClusters;
   mkPattern (str "Migration") Migration; mkPattern (str "Periodic") Periodic; mkPattern (str "Random") Random].

(** ** Transactions *)
Definition valueTx (val i : Z) : tx.Tx :=
  tx.mkTx tx.TxTypeTransfer (str "sender") (str "receiver") (Some val) i (zero_arr 32) (zero_arr 32) (zero_arr 64) (zero_arr 64)
    0 (zero_arr 32) 0 [] [] [] [] [].

(** One transaction; the number of draws from the run's own generator. *)
Definition makeValueTx (n : Z) (pattern : Pattern) (seed : Z) (acc : nat * list tx.Tx) (i : nat) : res (nat * list tx.Tx) :=
  let '(used, txs) := acc in
  let* val := Gen pattern (Z.of_nat i) n in
  let '(used, val) :=
    if bool_decide (Name pattern = str "Random") then
      if ltb (draw seed used) tenth then (S (S used), scaled (draw seed (S used))) else (S used, val)
    else (used, val) in
  Ok (used, txs ++ [valueTx val (Z.of_nat i)]).

Definition makeValueTxs (n : Z) (pattern : Pattern) (seed variant : Z) : res (list tx.Tx) :=
  if n <? 0 then Panic else
  let* '(_, txs) := foldM (makeValueTx n pattern seed) (0%nat, []) (seq 0 (Z.to_nat n)) in Ok txs.

(** ** Features *)
Record LevelFeatures : Type := mkLevelFeatures
  { Level : Z; Scale : Z; NodeCount : Z;
    AtomicPct : float64.t; StagnantPct : float64.t; LaminarPct : float64.t; VolatilePct : float64.t; ContractPct : float64.t;
    VolatileNodeCnt : Z }.

Record PatternFeatures : Type := mkPatternFeatures
  { Pattern_ : bytes; Variant : Z; Seed : Z; Levels : list LevelFeatures; Root : arr 32 }.

Definition countSig (layer : list node.RGNode) (sig : Z) : Z := zlen (List.filter (fun n => node.Sig n =? sig) layer).

Definition levelFeatures (level : nat) (layer : list node.RGNode) : res LevelFeatures :=
  let* first := index layer 0 in
  let share sig := if zlen layer >? 0 then div (of_int (countSig layer sig)) (of_int (zlen layer)) else zero in
  Ok (mkLevelFeatures (Z.of_nat level) (node.Scale first) (zlen layer)
        (share node.SigAtomic) (share node.SigStagnantState) (share node.SigLaminarFlow) (share node.SigVolatileShock) (share node.SigContract)
        (countSig layer node.SigVolatileShock)).

Definition extractFeatures (tr : tree.Tree) (pattern : bytes) (variant seed : Z) : res PatternFeatures :=
  let* '(root, tr) := tree.TreeRoot tr in
  let* levels := mapM (fun level => let* layer := tree.Layer tr (Z.of_nat level) in levelFeatures level layer) (seq 0 (length (tree.layers tr))) in
  Ok (mkPatternFeatures pattern variant seed levels root).

(** The features of one variant, as [main] makes them. *)
Definition buildFeatures (n : Z) (pat : Pattern) (seed variant : Z) : res PatternFeatures :=
  let* txs := makeValueTxs n pat seed variant in
  let* tr := tree.BuildTree txs [] in
  extractFeatures tr (Name pat) variant seed.

(** The trees [main] builds: every variant of every pattern. *)
Definition allFeatures (n : Z) (numVariants : nat) : res (list PatternFeatures) :=
  let* fs := mapM (fun '(patIdx, pat) =>
    mapM (fun v : nat => buildFeatures n pat (Z.of_nat patIdx * 100000 + Z.of_nat v) (Z.of_nat v)) (seq 0 numVariants))
    (imap (fun i p => (i, p)) patterns) in
  Ok (concat fs).

Definition levelVec (lf : LevelFeatures) : list float64.t :=
  [AtomicPct lf; StagnantPct lf; LaminarPct lf; VolatilePct lf; ContractPct lf; of_int (VolatileNodeCnt lf); of_int (NodeCount lf)].

Definition flattenFeatures (pf : PatternFeatures) : list float64.t := concat (map levelVec (Levels pf)).

(** The square of the distance; a second vector that is too short is an index out of range. *)
Definition euclideanDist (a b : list float64.t) : res float64.t :=
  foldM (fun sum '(i, x) => let* y := index b (Z.of_nat i) in let d := sub x y in Ok (add sum (mul d d))) zero (imap (fun i x => (i, x)) a).

(** ** Nearest neighbours *)
Record neighbor : Type := mkNeighbor { distance : float64.t; pattern : bytes }.

(** The position of a smallest distance from [i] on. *)
Definition nearer (l : list neighbor) (minIdx j : nat) : nat :=
  match l !! j, l !! minIdx with
  | Some a, Some b => if ltb (distance a) (distance b) then j else minIdx
  | _, _ => minIdx
  end.
Definition scan (l : list neighbor) (i : nat) : nat := foldl (nearer l) i (seq (S i) (length l - S i)).

Definition swap (l : list neighbor) (i j : nat) : list neighbor :=
  match l !! i, l !! j with Some a, Some b => <[i := b]> (<[j := a]> l) | _, _ => l end.

Definition selectStep (l : list neighbor) (i : nat) : res (list neighbor) :=
  if Nat.ltb i (length l) then Ok (swap l i (scan l i)) else Panic.
Definition select (k : nat) (l : list neighbor) : res (list neighbor) := foldM selectStep l (seq 0 k).

Definition countVotes (k : nat) (l : list neighbor) : gmap bytes Z :=
  foldl (fun votes x => <[pattern x := default 0 (votes !! pattern x) + 1]> votes) ∅ (take k l).

Definition winner (votes : gmap bytes Z) : bytes :=
  fst (foldl (fun '(best, bestCount) '(p, c) => if c >? bestCount then (p, c) else (best, bestCount)) ([], 0) (iter votes)).

Definition predict (k : nat) (neighbors : list neighbor) : res bytes :=
  let* l := select k neighbors in Ok (winner (countVotes k l)).

Definition knnPredict (train : list PatternFeatures) (testVec : list float64.t) (k : nat) : res bytes :=
  let* neighbors := mapM (fun tp => let* d := euclideanDist testVec (flattenFeatures tp) in Ok (mkNeighbor d (Pattern_ tp))) train in
  predict k neighbors.

(** ** Classification of one level *)
Definition vectorAt (level : nat) (pf : PatternFeatures) : res (list float64.t) :=
  let* lf := index (Levels pf) (Z.of_nat level) in Ok (levelVec lf).

(** A training tree as a neighbour. *)
Definition neighborOf (level : nat) (testVec : list float64.t) (t : PatternFeatures) : res neighbor :=
  let* tv := vectorAt level t in let* d := euclideanDist tv testVec in Ok (mkNeighbor d (Pattern_ t)).

Definition predictAt (level : nat) (train : list PatternFeatures) (tp : PatternFeatures) : res bytes :=
  let* testVec := vectorAt level tp in
  let* neighbors := mapM (neighborOf level testVec) train in
  predict 3 neighbors.

Definition names : list bytes := map Name patterns.

(** The confusion matrix, pattern by prediction, and the number of hits. *)
Definition classifyOne (level : nat) (train : list PatternFeatures) (acc : gmap (bytes * bytes) Z * Z) (tp : PatternFeatures) :
    res (gmap (bytes * bytes) Z * Z) :=
  let '(confMat, correct) := acc in
  let* predicted := predictAt level train tp in
  Ok (<[(Pattern_ tp, predicted) := default 0 (confMat !! (Pattern_ tp, predicted)) + 1]> confMat,
      if bool_decide (predicted = Pattern_ tp) then correct + 1 else correct).

Definition classify (level : nat) (train test : list PatternFeatures) : res (gmap (bytes * bytes) Z * Z) :=
  foldM (classifyOne level train) (∅, 0) test.

Definition cell (confMat : gmap (bytes * bytes) Z) (p q : bytes) : Z := default 0 (confMat !! (p, q)).

(** Precision and recall, summed over the patterns that occur and are predicted, and how many these are. *)
Definition precisionRecall (confMat : gmap (bytes * bytes) Z) : float64.t * float64.t * Z :=
  foldl (fun '(totalPrecision, totalRecall, nPatterns) name =>
    let tp := cell confMat name name in
    let totalActual := sumZ (map (fun q => cell confMat name q) names) in
    let totalPredicted := sumZ (map (fun q => cell confMat q name) names) in
    if (totalPredicted >? 0) && (totalActual >? 0)
    then (add totalPrecision (div (of_int tp) (of_int totalPredicted)), add totalRecall (div (of_int tp) (of_int totalActual)), nPatterns + 1)
    else (totalPrecision, totalRecall, nPatterns)) (zero, zero, 0) names.

Record LevelResult : Type := mkLevelResult
  { accuracy : float64.t; macroPrecision : float64.t; macroRecall : float64.t; macroF1 : float64.t; confusion : gmap (bytes * bytes) Z }.

Definition levelResult (level : nat) (train test : list PatternFeatures) : res LevelResult :=
  let* '(confMat, correct) := classify level train test in
  let '(totalPrecision, totalRecall, nPatterns) := precisionRecall confMat in
  let '(p, r, f) :=
    if nPatterns >? 0 then
      let p := div totalPrecision (of_int nPatterns) in
      let r := div totalRecall (of_int nPatterns) in
      (p, r, if ltb zero (add p r) then div (mul (mul (of_int 2) p) r) (add p r) else zero)
    else (zero, zero, zero) in
  Ok (mkLevelResult (div (of_int correct) (of_int (zlen test))) p r f confMat).

(** ** What the study measures *)

Lemma makeValueTx_plain n pattern seed seed' used used' txs i :
  Name pattern <> str "Random" ->
  (let* '(_, txs) := makeValueTx n pattern seed (used, txs) i in Ok txs) =
  (let* '(_, txs) := makeValueTx n pattern seed' (used', txs) i in Ok txs).
Proof. intros Hn. unfold makeValueTx. rewrite bool_decide_false by done. by destruct (Gen _ _ _). Qed.

Lemma makeValueTxs_plain n pattern seed seed' variant variant' :
  Name pattern <> str "Random" -> makeValueTxs n pattern seed variant = makeValueTxs n pattern seed' variant'.
Proof.
  intros Hn. unfold makeValueTxs. case_match; [done|].
  generalize (seq 0 (Z.to_nat n)) as idx. intros idx.
  enough (forall used used' txs, (let* '(_, txs) := foldM (makeValueTx n pattern seed) (used, txs) idx in Ok txs) =
    (let* '(_, txs) := foldM (makeValueTx n pattern seed') (used', txs) idx in Ok txs)) as He by exact (He _ _ _).
  induction idx as [|i idx IH]; intros used used' txs; cbn [foldM]; [done|].
  pose proof (makeValueTx_plain n pattern seed seed' used used' txs i Hn) as Hs.
  destruct (makeValueTx n pattern seed (used, txs) i) as [[u ts]| |], (makeValueTx n pattern seed' (used', txs) i) as [[u' ts']| |];
    cbn [obind] in *; simplify_eq; [apply IH|done|done].
Qed.

(** The variants of a pattern other than Random are one tree: the same levels
    and the same root, whatever the seed. *)
Theorem plain_variants_identical n pattern seed seed' variant variant' :
  Name pattern <> str "Random" ->
  (let* f := buildFeatures n pattern seed variant in Ok (Levels f, Root f)) =
  (let* f := buildFeatures n pattern seed' variant' in Ok (Levels f, Root f)).
Proof.
  intros Hn. unfold buildFeatures. rewrite (makeValueTxs_plain n pattern seed seed' variant variant') by done.
  destruct (makeValueTxs _ _ _ _) as [txs| |]; [|done..]. cbn [obind].
  destruct (tree.BuildTree txs []) as [tr| |]; [|done..]. cbn [obind]. unfold extractFeatures.
  destruct (tree.TreeRoot tr) as [[root tr']| |]; [|done..]. cbn [obind]. by destruct (mapM _ _).
Qed.

(** Fewer than five transactions make Migration divide by zero. *)
Lemma small_migration_panics n seed variant :
  1 <= n < 5 -> makeValueTxs n (mkPattern (str "Migration") Migration) seed variant = Panic.
Proof. intros Hn. assert (n = 1 \/ n = 2 \/ n = 3 \/ n = 4) as [-> | [-> | [-> | ->]]] by lia; reflexivity. Qed.

(** *** The selection of the nearest *)
Definition near (x : neighbor) : Prop := distance x = zero.

Definition comparable (x : neighbor) : Prop := near x \/ (nonneg (distance x) /\ ltb zero (distance x) = true).

Definition near_at (l : list neighbor) (i : nat) : Prop := exists x, l !! i = Some x /\ near x.

Lemma nearer_near l m j :
  Forall comparable l -> (m < length l)%nat -> (j < length l)%nat ->
  (nearer l m j < length l)%nat /\ (near_at l m \/ near_at l j -> near_at l (nearer l m j)).
Proof.
  intros Hc Hm Hj. unfold nearer.
  destruct (lookup_lt_is_Some_2 l m Hm) as [b Eb]. destruct (lookup_lt_is_Some_2 l j Hj) as [a Ea]. rewrite Ea, Eb.
  assert (forall i x, l !! i = Some x -> near_at l i -> distance x = zero) as Hz by (intros i x Ex (y & Ey & Hy); congruence).
  pose proof (Forall_lookup_1 _ _ _ _ Hc Ea) as Ca. pose proof (Forall_lookup_1 _ _ _ _ Hc Eb) as Cb.
  destruct (ltb (distance a) (distance b)) eqn:E; (split; [assumption|]); (intros [Hx|Hx]; [|try exact Hx]; [try exact Hx|..]).
  - rewrite (Hz _ _ Eb Hx) in E. destruct Ca as [Ha|[Ha _]]; [by rewrite Ha in E|]. by rewrite (ltb_zero _ Ha) in E.
  - rewrite (Hz _ _ Ea Hx) in E. destruct Cb as [Hb|[_ Hb]]; [by exists b|congruence].
Qed.

Lemma scan_near l i j :
  Forall comparable l -> (i <= j < length l)%nat -> near_at l j ->
  (scan l i < length l)%nat /\ near_at l (scan l i).
Proof.
  intros Hc Hij Hj. unfold scan.
  enough (forall idx m, (m < length l)%nat -> Forall (fun j => j < length l)%nat idx -> (near_at l m \/ j ∈ idx) ->
    (foldl (nearer l) m idx < length l)%nat /\ near_at l (foldl (nearer l) m idx)) as He.
  { apply He; [lia| |].
    - apply Forall_forall. intros x [? ?]%list_elem_of_In%in_seq. lia.
    - destruct (decide (i = j)) as [->|]; [by left|right]. apply list_elem_of_In, in_seq. lia. }
  induction idx as [|x idx IH]; intros m Hm Hl Hin; cbn [foldl].
  - destruct Hin as [Hin|Hin]; [done|set_solver].
  - apply Forall_cons in Hl as [Hx Hl]. destruct (nearer_near l m x Hc Hm Hx) as [Hn Hk].
    apply IH; [done..|]. destruct Hin as [Hin|Hin]; [auto|].
    apply elem_of_cons in Hin as [->|Hin]; [left; auto|by right].
Qed.

Lemma swap_permutation l i j : swap l i j ≡ₚ l.
Proof.
  unfold swap. destruct (l !! i) as [a|] eqn:Ei; [|done]. destruct (l !! j) as [b|] eqn:Ej; [|done].
  by apply Permutation_insert_swap.
Qed.

Lemma swap_length l i j : length (swap l i j) = length l.
Proof. exact (Permutation_length (swap_permutation l i j)). Qed.

Lemma scan_ge l i : (i <= scan l i)%nat.
Proof.
  unfold scan. enough (forall idx m, (i <= m)%nat -> Forall (fun j => i <= j)%nat idx -> (i <= foldl (nearer l) m idx)%nat) as He.
  { apply He; [done|]. apply Forall_forall. intros x [? ?]%list_elem_of_In%in_seq. lia. }
  induction idx as [|x idx IH]; intros m Hm Hl; cbn [foldl]; [done|]. apply Forall_cons in Hl as [Hx Hl].
  apply IH; [|done]. unfold nearer. repeat case_match; done.
Qed.

(** The element found stands at [i]; those before stay. *)
Lemma swap_lookup l i m x j :
  (i <= m < length l)%nat -> l !! m = Some x -> (j <= i)%nat -> swap l i m !! j = if decide (j = i) then Some x else l !! j.
Proof.
  intros Hm Em Hj. unfold swap. destruct (lookup_lt_is_Some_2 l i) as [a Ea]; [lia|]. rewrite Ea, Em.
  case_decide as Hd; [subst|].
  - rewrite list_lookup_insert_eq; [done|]. rewrite length_insert. lia.
  - rewrite list_lookup_insert_ne by lia. rewrite list_lookup_insert_ne by lia. done.
Qed.

Instance near_dec x : Decision (near x).
Proof. unfold near. apply _. Defined.

Definition nears (l : list neighbor) : nat := length (base.filter near l).

Lemma near_after l i : (i < nears l)%nat -> exists j, (i <= j < length l)%nat /\ near_at l j.
Proof.
  intros Hi. destruct (decide (Exists near (drop i l))) as [He|He].
  - apply Exists_exists in He as (x & Hin & Hx). apply list_elem_of_lookup in Hin as [j Ej].
    rewrite lookup_drop in Ej. exists (i + j)%nat. split; [|by exists x]. apply lookup_lt_Some in Ej. lia.
  - exfalso. unfold nears in Hi. rewrite <- (take_drop i l), filter_app, length_app in Hi.
    assert (base.filter near (drop i l) = []) as Hz.
    { destruct (base.filter near (drop i l)) as [|x ?] eqn:E; [done|]. destruct He. apply Exists_exists. exists x.
      assert (x ∈ base.filter near (drop i l)) as [? ?]%list_elem_of_filter by (rewrite E; set_solver). done. }
    rewrite Hz in Hi. cbn in Hi. pose proof (length_filter near (take i l)). rewrite length_take in *. lia.
Qed.

(** The first [k] after the selection are at distance zero, when that many are. *)
Lemma select_near l k :
  Forall comparable l -> (k <= nears l)%nat ->
  exists l', select k l = Ok l' /\ l' ≡ₚ l /\ forall j, (j < k)%nat -> near_at l' j.
Proof.
  intros Hc. induction k as [|k IH]; intros Hk.
  - exists l. split; [done|]. split; [done|]. lia.
  - destruct IH as (l1 & E & Hp & Hn); [lia|].
    assert (nears l1 = nears l) as Hs by (unfold nears; by rewrite Hp).
    assert (Forall comparable l1) as Hc1 by by rewrite Hp.
    destruct (near_after l1 k) as (j & Hj & Nj); [lia|].
    destruct (scan_near l1 k j Hc1 Hj Nj) as [Hm (x & Ex & Hx)]. pose proof (scan_ge l1 k) as Hge.
    exists (swap l1 k (scan l1 k)). split; [|split].
    + unfold select. rewrite seq_S, foldM_app. cbn [Nat.add]. fold (select k l). rewrite E. cbn. unfold selectStep.
      rewrite (proj2 (Nat.ltb_lt _ _)) by lia. done.
    + by rewrite swap_permutation.
    + intros i Hi. unfold near_at. rewrite (swap_lookup l1 k (scan l1 k) x) by (done || lia).
      case_decide; [by exists x|]. apply Hn. lia.
Qed.

(** *** The vote *)
Lemma countVotes_same p (l : list neighbor) k :
  (forall j, (j < k)%nat -> exists x, l !! j = Some x /\ pattern x = p) -> (0 < k)%nat -> countVotes k l = {[p := Z.of_nat k]}.
Proof.
  intros Hl Hk. unfold countVotes. destruct k as [|k]; [lia|]. clear Hk.
  enough (forall k, (forall j, (j < k)%nat -> exists x, l !! j = Some x /\ pattern x = p) ->
    foldl (fun (votes : gmap bytes Z) x => <[pattern x := default 0 (votes !! pattern x) + 1]> votes) ∅ (take k l) =
    if decide (k = 0)%nat then ∅ else {[p := Z.of_nat k]}) as He by (rewrite He by done; done).
  clear k Hl. induction k as [|k IH]; intros Hl; [done|].
  destruct (Hl k) as (x & Ex & Hx); [lia|]. rewrite (take_S_r _ _ _ Ex), foldl_snoc, IH by (intros; apply Hl; lia).
  rewrite Hx. rewrite (decide_False (P := S k = 0%nat)) by lia. case_decide as Hd.
  - subst k. by rewrite lookup_empty.
  - rewrite lookup_singleton_eq. cbn [from_option]. rewrite insert_singleton_eq. f_equal. unfold id. lia.
Qed.

Context (Hiter : forall m, iter m ≡ₚ map_to_list m).

Lemma winner_alone p c : 0 < c -> winner {[p := c]} = p.
Proof.
  intros Hc. unfold winner. specialize (Hiter {[p := c]}). rewrite map_to_list_singleton in Hiter.
  apply Permutation_singleton_r in Hiter. rewrite Hiter. cbn. by do 2 ztest.
Qed.

(** When at least [k] neighbours are at distance zero and all of these have one
    pattern, the prediction is this pattern. *)
Lemma predict_copies k l p :
  Forall comparable l -> (0 < k <= nears l)%nat -> (forall x, x ∈ l -> near x -> pattern x = p) -> predict k l = Ok p.
Proof.
  intros Hc Hk Hp. destruct (select_near l k Hc) as (l' & E & Hperm & Hn); [lia|]. unfold predict. rewrite E. cbn [obind].
  rewrite (countVotes_same p); [|intros j Hj; destruct (Hn j Hj) as (x & Ex & Hx)|lia].
  - f_equal. apply winner_alone. lia.
  - exists x. split; [done|]. apply Hp; [|done]. rewrite <- Hperm. by eapply list_elem_of_lookup_2.
Qed.

(** *** Copies *)
Lemma foldM_sq_same (v : list float64.t) w n :
  Forall finite v -> (forall i x, v !! i = Some x -> w !! (n + i)%nat = Some x) ->
  foldM (fun sum '(i, x) => let* y := index w (Z.of_nat i) in let d := sub x y in Ok (E := error) (add sum (mul d d))) zero
    (imap (fun i x => ((n + i)%nat, x)) v) = Ok zero.
Proof.
  revert n. induction v as [|x v IH]; intros n Hf Hw; [done|]. apply Forall_cons in Hf as [Hx Hf]. cbn [imap foldM].
  assert (index w (Z.of_nat (n + 0)) = Ok (E := error) x) as ->.
  { specialize (Hw 0%nat x eq_refl). unfold index. ztest. by rewrite Nat2Z.id, Hw. }
  cbn [obind]. rewrite sub_self by done. rewrite add_zero_zero.
  erewrite imap_ext; [apply (IH (S n)); [done|]|].
  - intros i y Ey. rewrite Nat.add_succ_comm. by apply Hw.
  - intros i y _. cbn. f_equal. lia.
Qed.

Lemma euclideanDist_same v : Forall finite v -> euclideanDist v v = Ok zero.
Proof. intros Hf. apply (foldM_sq_same v v 0 Hf). done. Qed.

Lemma positive_comparable d p : ltb zero d = true -> comparable (mkNeighbor d p).
Proof. intros Hd. right. split; [|done]. cbn. by destruct d as [b|[]| |[] ? ?]. Qed.

(** A tree of which the training set has three copies is recognised, as long as
    the trees of the other patterns are at a distance the arithmetic tells from
    zero: for the five patterns without chance the study measures whether
    copies of the test trees were drawn for training. *)
Theorem copies_recognised level train tp v :
  vectorAt level tp = Ok v -> Forall finite v ->
  Forall (fun t => (vectorAt level t = Ok v /\ Pattern_ t = Pattern_ tp) \/
    exists w d, vectorAt level t = Ok w /\ euclideanDist w v = Ok d /\ ltb zero d = true) train ->
  (3 <= length (List.filter (fun t => bool_decide (vectorAt level t = Ok v)) train))%nat ->
  predictAt level train tp = Ok (Pattern_ tp).
Proof.
  intros Ev Hf Ht Hc. unfold predictAt. rewrite Ev. cbn [obind].
  assert (exists l, mapM (neighborOf level v) train = Ok l /\ Forall comparable l /\
    (forall x, x ∈ l -> near x -> pattern x = Pattern_ tp) /\
    (length (List.filter (fun t => bool_decide (vectorAt level t = Ok v)) train) <= nears l)%nat) as (l & El & Hl & Hp & Hn).
  { clear Hc. induction Ht as [|t train Ht _ (l & El & Hl & Hp & Hn)].
    { exists []. repeat split; [constructor|set_solver|done]. }
    assert (exists x, neighborOf level v t = Ok x /\ comparable x /\ (near x -> pattern x = Pattern_ tp) /\
      (vectorAt level t = Ok v -> near x)) as (x & Ex & Cx & Px & Nx).
    { unfold neighborOf. destruct Ht as [[Et Hpt]|(w & d & Et & Ed & Hd)]; rewrite Et; cbn [obind].
      - rewrite euclideanDist_same by done. eexists. split; [done|]. split; [by left|]. done.
      - rewrite Ed. eexists. split; [done|]. split; [by apply positive_comparable|].
        split; intros Hz; [cbv [near distance] in Hz; by rewrite Hz in Hd|].
        simplify_eq. rewrite euclideanDist_same in Ed by done. by simplify_eq. }
    exists (x :: l). cbn [mapM]. rewrite Ex, El. split; [done|]. split; [by constructor|]. split.
    - intros y [->|Hy]%elem_of_cons; auto.
    - cbn [List.filter]. unfold nears in *. rewrite filter_cons. case_bool_decide as Hb.
      + rewrite decide_True by auto. cbn [length]. lia.
      + case_decide; cbn [length]; lia. }
  rewrite El. cbn [obind]. apply predict_copies; [done|lia|done].
Qed.

(** The variants of a plain pattern are such copies. *)
Lemma plain_variants_vector n pat seed seed' variant variant' f g level :
  Name pat <> str "Random" -> buildFeatures n pat seed variant = Ok f -> buildFeatures n pat seed' variant' = Ok g ->
  vectorAt level f = vectorAt level g.
Proof.
  intros Hn Ef Eg. pose proof (plain_variants_identical n pat seed seed' variant variant' Hn) as He.
  rewrite Ef, Eg in He. cbn [obind] in He. unfold vectorAt. congruence.
Qed.

(** *** The confusion matrix *)
Definition tally (outcomes : list (bytes * bytes)) (p q : bytes) : Z :=
  zlen (List.filter (fun x => bool_decide (x = (p, q))) outcomes).

(** Every test tree is counted once, in the row of its pattern and the column of
    its prediction, and [correct] is the number of trees on the diagonal. *)
Theorem classify_counts level train test confMat correct :
  classify level train test = Ok (confMat, correct) ->
  exists predicted, mapM (predictAt level train) test = Ok predicted /\
    (forall p q, cell confMat p q = tally (zip (map Pattern_ test) predicted) p q) /\
    correct = zlen (List.filter (fun x => bool_decide (fst x = snd x)) (zip (map Pattern_ test) predicted)).
Proof.
  unfold classify. enough (forall m0 c0, foldM (classifyOne level train) (m0, c0) test = Ok (confMat, correct) ->
    exists predicted, mapM (predictAt level train) test = Ok predicted /\
    (forall p q, cell confMat p q = cell m0 p q + tally (zip (map Pattern_ test) predicted) p q) /\
    correct = c0 + zlen (List.filter (fun x => bool_decide (fst x = snd x)) (zip (map Pattern_ test) predicted))) as He.
  { intros E. destruct (He _ _ E) as (predicted & Em & Hcell & Hcor). exists predicted. split; [done|]. split; [|done].
    intros p q. by rewrite Hcell. }
  induction test as [|tp test IH]; intros m0 c0 E.
  { cbn in E. simplify_eq. exists []. split; [done|]. split; [|cbn; unfold zlen; cbn; lia]. intros p q. unfold tally, zlen. cbn. lia. }
  cbn [foldM] in E. unfold classifyOne at 1 in E. destruct (predictAt level train tp) as [pr| |] eqn:Ep; cbn [obind] in E; [|done..].
  destruct (IH _ _ E) as (predicted & Em & Hcell & Hcor). exists (pr :: predicted). cbn [mapM]. rewrite Ep, Em.
  split; [done|]. cbn [map zip zip_with List.filter fst snd]. split.
  - intros p q. rewrite Hcell. unfold tally, cell. cbn [zip zip_with List.filter]. destruct (decide ((Pattern_ tp, pr) = (p, q))) as [Hb|Hb]; [rewrite bool_decide_true by done|rewrite bool_decide_false by done].
    + inversion Hb; subst. rewrite lookup_insert_eq. cbn [from_option]. rewrite zlen_cons. unfold id. lia.
    + rewrite lookup_insert_ne by done. done.
  - rewrite Hcor. repeat case_bool_decide; try congruence; rewrite ?zlen_cons; lia.
Qed.
End Analysis.

(** ** The study *)
Section Main.
Context `{Platform} (draw : Z -> nat -> float64.t).

(** The matrix of the last level, which is made again to be printed. *)
Definition rootMatrix (iter : gmap bytes Z -> list (bytes * Z)) (train test : list PatternFeatures) (maxLevel : nat) : res (option (gmap (bytes * bytes) Z)) :=
  match maxLevel with
  | O => Ok None
  | S rootLevel => let* '(confMat, _) := classify iter rootLevel train test in Ok (Some confMat)
  end.

(** [main] after its flags: [shuffle] is [rand.Shuffle], [iters] the map order met
    at each level, [iter] the one met for the printed matrix. *)
Definition main (shuffle : list PatternFeatures -> list PatternFeatures) (iters : nat -> gmap bytes Z -> list (bytes * Z))
    (iter : gmap bytes Z -> list (bytes * Z)) (n : Z) (numVariants : nat) : res (list LevelResult * option (gmap (bytes * bytes) Z)) :=
  let* all := allFeatures draw n numVariants in
  let shuffled := shuffle all in
  let splitIdx := Z.to_nat (zlen all * 70 / 100) in
  let train := take splitIdx shuffled in
  let test := drop splitIdx shuffled in
  let maxLevel := match all with pf :: _ => length (Levels pf) | [] => 0%nat end in
  let* results := mapM (fun level => levelResult draw (iters level) level train test) (seq 0 maxLevel) in
  let* matrix := rootMatrix iter train test maxLevel in
  Ok (results, matrix).
End Main.
End analysis.
