(* ===== verification/Witnesses.v ===== *)
(** * Concrete instances of the properties

    Every property that has hypotheses is applied here to a concrete input on
    which they hold, over the executable platform of Sha256.v and the finite-map
    database of KV.v. *)

From S2P Require Import Prelude GoBytes Errors Platform Sha256 Tx TxProofs TxSigProofs BatchProofs KV Denom Ledger Staking StakingProofs Gas.
From S2P Require Import Mint Node Tree Inclusion NodeProofs TreeProofs InclusionProofs UpdateProofs RootProofs Contract ContractProofs.
From S2P Require Import BlockStore Telemetry StateMachine StateMachineProofs BlockProofs.

#[local] Existing Instance witness_platform.
#[local] Existing Instance witness_platform_laws.
#[local] Existing Instance gmap_kv.
#[local] Existing Instance gmap_kv_laws.

(** ** Accounts, transactions and databases *)
Definition alice : arr 32 := mk_arr 32 (str "alice").
Definition bob : arr 32 := mk_arr 32 (str "bob").

Definition transfer (value nonce : Z) : tx.Tx :=
  tx.mkTx tx.TxTypeTransfer (str "alice") (str "bob") (Some value) nonce alice bob (zero_arr 64) (zero_arr 64)
    0 (zero_arr 32) 0 [] [] [] [] [].

Lemma transfer_wf v n : is_u64 n -> tx.wf (transfer v n).
Proof. by constructor. Qed.

Definition emptyDB : DB (gmap bytes bytes) := mkDB ∅ ∅ ∅ ∅ ∅ ∅ ∅ ∅.

Lemma emptyDB_ok : ledger.ledger_ok emptyDB.
Proof. constructor; intros k v; cbn; by rewrite lookup_empty. Qed.

Definition get {A} (d : A) (r : res A) : A := match r with Ok a => a | _ => d end.

(** Alice holds 10^30 quanta. *)
Definition db1 : DB (gmap bytes bytes) := set_balances emptyDB (kv_Put (balances emptyDB) alice (be_enc 32 (10 ^ 30))).

Lemma db1_ok : ledger.ledger_ok db1.
Proof. apply ledger_ok_put_balance, emptyDB_ok. Qed.

Lemma ok_ex {A} (r : res A) : is_Ok r = true -> exists a, r = Ok a.
Proof. destruct r; [eauto|done..]. Qed.

(** Closed facts, without the context: the databases in it are large. *)
Ltac small := clear; done.

(** Lists of concrete transactions are well-formed. *)
Ltac wfs := clear; repeat (apply Forall_cons; split; [by constructor|]); apply Forall_nil; exact I.

(** ** Transactions *)
Lemma Deserialize_Serialize_witness :
  exists b, tx.Serialize (transfer 5 1) = Ok b /\ tx.Deserialize b = Ok (canon (transfer 5 1)).
Proof.
  assert (exists b, tx.Serialize (transfer 5 1) = Ok b) as [b Hb] by (apply ok_ex; vm_compute; reflexivity).
  exists b. split; [exact Hb|]. apply (Deserialize_Serialize (transfer 5 1) b); [by constructor|exact Hb].
Defined.

Lemma Deserialize_canonical_witness :
  exists b t, tx.Deserialize b = Ok t /\ tx.Serialize t = Ok b.
Proof.
  assert (exists b t, tx.Deserialize b = Ok t) as (b & t & Hd)
    by (exists (get [] (tx.Serialize (transfer 5 1))); apply ok_ex; vm_compute; reflexivity).
  exists b, t. split; [exact Hd|]. exact (Deserialize_canonical b t Hd).
Defined.

Lemma signing_hash_binding_witness :
  exists h1 h2, tx.UnsignedHashForChain (transfer 5 1) [] = Ok h1 /\ tx.UnsignedHashForChain (transfer 6 1) [] = Ok h2 /\
    (h1 = h2 -> (signedView (transfer 5 1) = signedView (transfer 6 1) /\ chainName [] = chainName []) \/
       hash.collision (fun m => signedMessage (transfer 5 1) [] m \/ signedMessage (transfer 6 1) [] m)).
Proof.
  assert (exists h, tx.UnsignedHashForChain (transfer 5 1) [] = Ok h) as [h1 H1] by (apply ok_ex; vm_compute; reflexivity).
  assert (exists h, tx.UnsignedHashForChain (transfer 6 1) [] = Ok h) as [h2 H2] by (apply ok_ex; vm_compute; reflexivity).
  exists h1, h2. split; [exact H1|]. split; [exact H2|].
  apply (signing_hash_binding (transfer 5 1) (transfer 6 1) [] [] h1 h2); [by constructor|by constructor|done|done|exact H1|exact H2].
Defined.

Lemma DeserializeBatch_SerializeBatch_witness :
  exists d, tx.SerializeBatch [transfer 5 1; transfer 6 2] = Ok d /\
    tx.DeserializeBatch d = Ok (map canon [transfer 5 1; transfer 6 2]).
Proof.
  assert (exists d, tx.SerializeBatch [transfer 5 1; transfer 6 2] = Ok d) as [d Hd] by (apply ok_ex; vm_compute; reflexivity).
  exists d. split; [exact Hd|].
  apply (DeserializeBatch_SerializeBatch [transfer 5 1; transfer 6 2] d); [wfs|done|exact Hd].
Defined.

(** ** Ledger *)
Lemma TransferTx_spec_witness :
  exists db', ledger.TransferTx db1 (transfer 5 1) = Ok db' /\ ledger.BalanceOf db' bob = ledger.BalanceOf db1 bob + 5.
Proof.
  pose proof (TransferTx_spec db1 (transfer 5 1) 5 db1_ok (transfer_wf 5 1 ltac:(done)) eq_refl ltac:(lia)) as (_ & _ & _ & H).
  destruct H as (db' & Ht & _ & _ & _ & Hb & _); [vm_compute; reflexivity|vm_compute; discriminate|vm_compute; reflexivity|].
  exists db'. exact (conj Ht Hb).
Defined.

Lemma TransferTx_conserves_witness :
  exists db', ledger.TransferTx db1 (transfer 5 1) = Ok db' /\ ledger.totalBalance db' = ledger.totalBalance db1.
Proof.
  assert (exists db', ledger.TransferTx db1 (transfer 5 1) = Ok db') as [db' Ht] by (apply ok_ex; vm_compute; reflexivity).
  exists db'. split; [exact Ht|].
  apply (TransferTx_conserves db1 (transfer 5 1)); [apply db1_ok|by intros v [= <-]|vm_compute; discriminate|exact Ht].
Defined.

Definition selfTransfer : tx.Tx :=
  tx.mkTx tx.TxTypeTransfer (str "alice") (str "alice") (Some 7) 1 alice alice (zero_arr 64) (zero_arr 64)
    0 (zero_arr 32) 0 [] [] [] [] [].

Lemma TransferTx_self_mints_witness :
  exists db', ledger.TransferTx db1 selfTransfer = Ok db' /\ ledger.totalBalance db' = ledger.totalBalance db1 + 7.
Proof.
  destruct (TransferTx_self_mints db1 selfTransfer 7) as (db' & Ht & _ & Htot);
    [apply db1_ok|done|done|done|vm_compute; reflexivity|vm_compute; discriminate|vm_compute; reflexivity|].
  exists db'. exact (conj Ht Htot).
Defined.

(** ** Staking *)
Definition bondAmount : Z := staking.minBondAmount.
Definition bondRecord : staking.record := staking.mkRecord staking.stateBonded bondAmount 1 0 0.

Lemma decodeRecord_encodeRecord_witness :
  exists b, staking.encodeRecord bondRecord = Ok b /\ length b = 57%nat /\ staking.decodeRecord b = Ok bondRecord.
Proof. apply decodeRecord_encodeRecord. constructor; (by left) || done. Defined.

Lemma get_ok {A} (r : res A) d : is_Ok r = true -> r = Ok (get d r).
Proof. by destruct r. Qed.

(** Alice bonds at height 1. *)
Definition db2 : DB (gmap bytes bytes) := get emptyDB (staking.BondTx db1 alice (Some bondAmount) 1).

Lemma db2_eq : staking.BondTx db1 alice (Some bondAmount) 1 = Ok db2.
Proof. apply get_ok. vm_compute. reflexivity. Qed.

Lemma db1_records : records_ok db1.
Proof. intros k x. cbn. by rewrite lookup_empty. Qed.

Lemma db2_records : records_ok db2.
Proof.
  pose proof db2_eq as H2. generalize dependent db2. intros db2 H2.
  apply BondTx_inv in H2 as (z & b & [= <-] & _ & Hz & _ & _ & ->); [|exact db1_records|small].
  apply (records_ok_put (set_balances db1 b)); [clear; constructor; (by left) || done|exact db1_records].
Qed.

Lemma db2_record : recordOf db2 alice = Some bondRecord.
Proof.
  pose proof db2_eq as H2. generalize dependent db2. intros db2 H2.
  apply BondTx_inv in H2 as (z & b & [= <-] & _ & Hz & _ & _ & ->); [|exact db1_records|small].
  etransitivity; [apply (recordOf_put (set_balances db1 b)); clear; constructor; (by left) || done|]. by rewrite decide_True.
Qed.

(** Alice unbonds at height 2. *)
Definition db3 : DB (gmap bytes bytes) := get emptyDB (staking.UnbondTx db2 alice 2).

Lemma db3_eq : staking.UnbondTx db2 alice 2 = Ok db3.
Proof. apply get_ok. vm_compute. reflexivity. Qed.

Lemma UnbondTx_lockup_witness : staking.FinalizeTx db3 alice 1001 = Ok db3.
Proof. apply (UnbondTx_lockup db2 alice 2 db3 1001 db2_records); [small|small|exact db3_eq|small]. Defined.

(** Two headers signed with Alice's (witness) key. *)
Definition equivocation : staking.EquivocationProof :=
  staking.mkEquivocationProof alice (str "header A") (keyed_sig alice (str "header A"))
    (str "header B") (keyed_sig alice (str "header B")).

Lemma Slash_requires_equivocation_witness :
  exists db' u, staking.Slash db2 alice equivocation = (db', Ok u) /\ recordOf db' alice = None.
Proof.
  assert (is_Ok (snd (staking.Slash db2 alice equivocation)) = true) as Hok by (vm_compute; reflexivity).
  destruct (staking.Slash db2 alice equivocation) as [db' e] eqn:Hs.
  pose proof (Slash_requires_equivocation db2 alice equivocation db' e db2_records Hs) as Hspec.
  destruct e as [u|e|]; [|discriminate Hok|discriminate Hok].
  destruct Hspec as (_ & _ & _ & _ & r & _ & _ & Hd & _). exists db', u. exact (conj eq_refl Hd).
Defined.

Lemma misses_slash_witness :
  exists db' r', misses 5 db2 alice = Ok db' /\
    recordOf db' alice = Some r' /\ staking.BondedAmount r' = bondAmount - bondAmount / 10.
Proof.
  destruct (misses_slash db2 alice bondRecord db2_records db2_record eq_refl) as (_ & db' & Hm & r' & Hr' & Hb & _).
  exists db', r'. exact (conj Hm (conj Hr' Hb)).
Defined.

(** ** Fees, minting, leaders *)
Lemma BaseFee_bounds_witness : gas.MinBaseFee <= gas.BaseFee (Some 1000) 5 <= gas.BaseFee (Some 1000) 70000.
Proof. exact (proj1 (BaseFee_bounds 1000 5 70000 ltac:(lia) ltac:(lia))). Defined.

Lemma Accrue_distributes_witness :
  exists db', gas.Accrue db1 (Some 100) [alice; bob] (map Some [3; 4]) = (db', Ok tt) /\
    98 < ledger.totalBalance db' - ledger.totalBalance db1 <= 100.
Proof.
  assert (is_Ok (snd (gas.Accrue db1 (Some 100) [alice; bob] (map Some [3; 4]))) = true) as Hok by (vm_compute; reflexivity).
  destruct (gas.Accrue db1 (Some 100) [alice; bob] (map Some [3; 4])) as [db' [[]| |]] eqn:Ha; [|discriminate Hok|discriminate Hok].
  exists db'. split; [reflexivity|].
  apply (Accrue_distributes db1 100 [alice; bob] [3; 4] db' tt); [repeat constructor; lia|small|exact Ha].
Defined.

(** Bob's fee account holds 50. *)
Definition dbFees : DB (gmap bytes bytes) :=
  set_balances db1 (kv_Put (balances db1) (gas.FeeAccount bob) (be_enc 32 50)).

Lemma ClaimTx_spec_witness :
  exists db', gas.ClaimTx dbFees bob = Ok db' /\ ledger.BalanceOf db' bob = ledger.BalanceOf dbFees bob + gas.Claimable dbFees bob.
Proof.
  assert (exists db', gas.ClaimTx dbFees bob = Ok db') as [db' Hc] by (apply ok_ex; vm_compute; reflexivity).
  exists db'. split; [exact Hc|].
  assert (gas.FeeAccount bob <> bob) as Hne by (vm_compute; discriminate).
  exact (proj1 (proj2 (ClaimTx_spec dbFees bob db' Hne Hc))).
Defined.

Lemma MintPerBlock_bounds_witness :
  mint.BlocksPerYear * mint.MintPerBlock (Some (10 ^ 30)) (Some (10 ^ 29)) <= 10 ^ 30 / 10.
Proof. exact (proj1 (proj2 (MintPerBlock_bounds (10 ^ 30) (10 ^ 29) (10 ^ 29) ltac:(lia) ltac:(lia)))). Defined.

Lemma SplitReward_sum_witness : sumZ (mint.SplitReward (Some 10) 3) = 10.
Proof. exact (proj1 (proj2 (SplitReward_sum 10 3 ltac:(lia)))). Defined.

Lemma SkipProposer_elects_witness :
  match leader.SkipProposer (zero_arr 32) 7 [alice; bob] 1 with
  | Ok p => p ∈ [alice; bob]
  | Err e => e = RGError ErrEmptyValidatorSet /\ [alice; bob] = []
  | Panic => False
  end.
Proof.
  pose proof (SkipProposer_elects (zero_arr 32) 7 [alice; bob] 1) as H.
  destruct H as [H _]; [small|small|exact H].
Defined.

Lemma SkipProposer_rotates_witness :
  exists ps, mapM (fun k => leader.SkipProposer (zero_arr 32) 7 [alice; bob] (Z.of_nat k)) (seq 0 2) = Ok ps /\ ps ≡ₚ [alice; bob].
Proof. apply (SkipProposer_rotates (zero_arr 32) 7 [alice; bob]); [discriminate|small]. Defined.

(** ** Trees *)
Definition txs2 : list tx.Tx := [transfer 5 1; transfer 6 2].

Lemma tree2 : exists t, tree.BuildTree txs2 [] = Ok t.
Proof. apply ok_ex. vm_compute. reflexivity. Qed.

Lemma BuildTree_totals_witness :
  exists t leaves n, tree.BuildTree txs2 [] = Ok t /\ last (tree.layers t) = Some [n] /\
    node.BytesToUint256 (node.Volume n) = sumZ (map vol (leaves ++ [])).
Proof.
  destruct tree2 as [t Ht].
  destruct (BuildTree_totals txs2 [] t) as (leaves & n & _ & Hl & _ & Hv & _); [constructor|left; discriminate|exact Ht|].
  exists t, leaves, n. exact (conj Ht (conj Hl Hv)).
Defined.

Lemma BuildTree_succeeds_witness : exists t, tree.BuildTree txs2 [] = Ok t.
Proof.
  apply (BuildTree_succeeds txs2); [discriminate|small| |vm_compute; reflexivity].
  repeat (apply Forall_cons; split; [split; [vm_compute; reflexivity|by eexists]|]). constructor.
Defined.

(** A contract node beside the two transactions. *)
Definition contractLeaf : node.RGNode :=
  node.mkRGNode 1 (zero_arr 32) (zero_arr 32) node.SigAtomic [contract.StateRoot ∅] (zero_arr 32) 1 1.

Lemma GenerateProof_complete_witness :
  exists t p id, tree.BuildTree txs2 [contractLeaf] = Ok t /\ inclusion.TreeGenerateProof t 1 = Ok p /\
    tx.ID (transfer 6 2) = Ok id /\ inclusion.VerifyProof (Some p) id (tree.root t) = Ok true.
Proof.
  assert (exists t, tree.BuildTree txs2 [contractLeaf] = Ok t) as [t Ht] by (apply ok_ex; vm_compute; reflexivity).
  destruct (GenerateProof_complete txs2 [contractLeaf] t) as [H _]; [repeat constructor|exact Ht|].
  destruct (H 1%nat (transfer 6 2) eq_refl) as (p & id & Hg & Hi & Hv & _).
  exists t, p, id. exact (conj Ht (conj Hg (conj Hi Hv))).
Defined.

Definition proof2 : list tree.ProofStep := get [] (inclusion.GenerateProof txs2 1).
Definition id2 : arr 32 := get (zero_arr 32) (tx.ID (transfer 6 2)).
Definition theTree2 : tree.Tree := get (tree.mkTree [] (zero_arr 32) false) (tree.BuildTree txs2 []).

Lemma theTree2_eq : tree.BuildTree txs2 [] = Ok theTree2.
Proof. apply get_ok. vm_compute. reflexivity. Qed.


Lemma VerifyProof_canonical_witness :
  inclusion.VerifyProof (Some [inclusion.leafStep (get (node.mkRGNode 1 (zero_arr 32) (zero_arr 32) 1 [] (zero_arr 32) 0 0)
    (tree.makeAtomicNode (transfer 5 1)))]) id2 (zero_arr 32) =
  inclusion.VerifyProofCanonical (Some [inclusion.leafStep (get (node.mkRGNode 1 (zero_arr 32) (zero_arr 32) 1 [] (zero_arr 32) 0 0)
    (tree.makeAtomicNode (transfer 5 1)))]) id2 (zero_arr 32).
Proof. apply (VerifyProof_canonical _ [] id2 (zero_arr 32)). constructor. Defined.

Lemma UpdateLeaves_rebuilds_witness :
  exists t2 t3 t', tree.UpdateLeaves theTree2 [tree.mkLeafUpdate 0 (transfer 9 1)] = (t2, Ok tt) /\
    tree.BuildTree [transfer 9 1; transfer 6 2] [] = Ok t' /\ tree.TreeRoot t2 = Ok (tree.root t', t3).
Proof.
  assert (exists t', tree.BuildTree [transfer 9 1; transfer 6 2] [] = Ok t') as [t' Ht'] by (apply ok_ex; vm_compute; reflexivity).
  destruct (UpdateLeaves_rebuilds txs2 [] theTree2 [tree.mkLeafUpdate 0 (transfer 9 1)] t') as (t2 & t3 & Hu & _ & Hr);
    [constructor|discriminate|exact theTree2_eq|discriminate|apply NoDup_singleton|repeat constructor; small|exact Ht'|].
  exists t2, t3, t'. exact (conj Hu (conj Ht' Hr)).
Defined.

Lemma root_binds_transactions_witness :
  exists r, tree.BuildTreeRoot txs2 [contractLeaf] = Ok r /\
   ((map signedView txs2 = map signedView txs2 /\ map contract.rootPreimage [∅] = map contract.rootPreimage [∅] /\
     map node.Volume [contractLeaf] = map node.Volume [contractLeaf]) \/
    hash.collision (fun m => blockMessage txs2 [contractLeaf] [∅] m \/ blockMessage txs2 [contractLeaf] [∅] m)).
Proof.
  assert (exists r, tree.BuildTreeRoot txs2 [contractLeaf] = Ok r) as [r Hr] by (apply ok_ex; vm_compute; reflexivity).
  exists r. split; [exact Hr|].
  assert (Forall2 contract_leaf [contractLeaf] [∅]) as Hc by (constructor; [|constructor]; split; [split; reflexivity|split; reflexivity]).
  apply (root_binds_transactions txs2 txs2 [contractLeaf] [contractLeaf] [∅] [∅] r); [unfold txs2; wfs|unfold txs2; wfs|exact Hc|exact Hc|exact Hr|exact Hr].
Defined.

Lemma root_blind_to_receiver_witness :
  exists db', ledger.TransferTx db1 (set_ReceiverPubKey (mk_arr 32 (str "mallory")) (transfer 5 1)) = Ok db' /\
    exists v, tx.Value (transfer 5 1) = Some v /\
      ledger.BalanceOfTx db' (mk_arr 32 (str "mallory")) = ledger.BalanceOfTx db1 (mk_arr 32 (str "mallory")) + v.
Proof.
  assert (exists db', ledger.TransferTx db1 (set_ReceiverPubKey (mk_arr 32 (str "mallory")) (transfer 5 1)) = Ok db')
    as [db' Ht] by (apply ok_ex; vm_compute; reflexivity).
  exists db'. split; [exact Ht|].
  apply (root_blind_to_receiver db1 db' (mk_arr 32 (str "mallory")) (transfer 5 1) txs2 [] []);
    [exact db1_ok|by intros v [= <-]|exact Ht].
Defined.

(** ** Contracts *)
Definition store1 : gmap bytes bytes := {[str "key" := str "value"]}.

Lemma DeserializeState_Serialize_witness :
  exists raw, contract.state_Serialize store1 = Some raw /\ contract.DeserializeState raw = Ok store1.
Proof.
  apply (DeserializeState_Serialize store1 [] [] store1); [apply map_Forall_singleton; small|small|apply map_Forall_singleton; small].
Defined.

Lemma state_encoding_limits_witness :
  exists s1 s2, state_wf s1 /\ state_wf s2 /\ s1 <> s2 /\ contract.StateRoot s1 = contract.StateRoot s2.
Proof. apply (state_encoding_limits (str "k")). small. Defined.

(** A guest that pays Bob 3 quanta of its own, whatever the host answers. *)
Definition payBob : contract.wasm_run unit :=
  contract.WHost (contract.HTransfer 0 32 3 0) (Some (arr_bytes bob)) 1000000
    (fun _ _ fuel => contract.WRet tt fuel).

Definition wasm_engine : contract.Wasmtime :=
  {| contract.wasm_instance := unit;
     contract.wasm_module _ := Some [];
     contract.wasm_instantiate _ fuel := contract.WRet tt fuel;
     contract.wasm_getfunc _ _ := true;
     contract.wasm_call _ _ _ := payBob;
     contract.bn254_g1_valid _ := true;
     contract.bn254_g2_valid _ := true;
     contract.bn254_PairingCheck _ := Ok true |}.
#[local] Existing Instance wasm_engine.

Definition aliceContract : contract.RuntimeConfig :=
  contract.mkRuntimeConfig [] bob alice (Some 0) 1 [] 0.
Definition world1 : contract.World (gmap bytes bytes) := contract.mkWorld db1 ∅ None 1000000.

Lemma contract_confined_witness :
  exists w' out, contract.drive aliceContract payBob world1 = Ok (w', out) /\
    forall a, a <> alice -> ledger.BalanceOfTx db1 a <= ledger.BalanceOfTx (contract.w_db w') a.
Proof.
  assert (exists r, contract.drive aliceContract payBob world1 = Ok r) as [[w' out] Hd] by (apply ok_ex; vm_compute; reflexivity).
  exists w', out. split; [exact Hd|].
  destruct (contract_confined aliceContract payBob world1 w' out Hd) as [(_ & Ha & _) _]. exact Ha.
Defined.

(** ** Blocks *)
Definition signed (t : tx.Tx) : tx.Tx :=
  set_SenderSig (keyed_sig alice (get (zero_arr 32) (tx.UnsignedHashForChain t []))) t.

Definition block1 : blockstore.Block :=
  blockstore.mkBlock 1 [signed (transfer 5 1)] bob (zero_arr 32) (zero_arr 32) [].

Lemma BlockAt_putBlockTx_witness :
  exists db', blockstore.putBlockTx db1 block1 = Ok db' /\ blockstore.BlockAt db' 1 = Ok (Some (canonBlock block1)).
Proof.
  assert (exists db', blockstore.putBlockTx db1 block1 = Ok db') as [db' Hp] by (apply ok_ex; vm_compute; reflexivity).
  exists db'. split; [exact Hp|].
  apply (BlockAt_putBlockTx db1 db' block1); [split; [small|unfold block1; wfs]|small|exact Hp].
Defined.

Definition json : telemetry.Json :=
  {| telemetry.json_Marshal _ := Ok (str "{}"); telemetry.json_Unmarshal _ := failf "not read" |}.
#[local] Existing Instance json.

(** Alice's quanta are the whole supply. *)
Definition db4 : DB (gmap bytes bytes) := statemachine.putMeta db1 statemachine.totalSupplyKey (big_Bytes (10 ^ 30)).

Lemma db4_formats : formats_ok db4.
Proof.
  split; [destruct db1_ok; by constructor|]. intros k x. cbn. by rewrite lookup_empty.
Qed.

Definition attempt1 : attempt := (4, elements, block1, []).

Lemma attempt1_ok : attempt_ok attempt1.
Proof.
  split; [small|]. split; [small|]. split; [|done]. apply Forall_cons. split; [|constructor].
  split; [small|]. split; [small|]. split; [intros _; vm_compute; discriminate|].
  split; [vm_compute; discriminate|]. split; [vm_compute; discriminate|]. by intros v [= <-].
Qed.

Lemma ApplyBlock_supply_witness :
  is_Ok (snd (statemachine.ApplyBlockForChain 4 elements db4 block1 [])) = true /\
  let db' := foldl tryBlock db4 [attempt1] in
  ledger.totalBalance db' - fst (statemachine.CurrentTotalSupply db') =
  ledger.totalBalance db4 - fst (statemachine.CurrentTotalSupply db4).
Proof.
  split; [vm_compute; reflexivity|].
  assert (snd (statemachine.CurrentTotalSupply db4) = true) as Ht by (vm_compute; reflexivity).
  destruct (ApplyBlock_supply db4 [attempt1]) as (_ & _ & H); [|exact db4_formats|exact Ht|exact H].
  apply Forall_cons. split; [exact attempt1_ok|constructor].
Defined.

Lemma ApplyBlock_atomic_witness :
  exists db' r, statemachine.ApplyBlockForChain 4 elements db4 block1 [] = (db', Ok r) /\
    statemachine.CurrentHeight db' = Ok 1 /\
    statemachine.ApplyBlockForChain 4 elements db' block1 [] = (db', fail ErrBlockHeightSequenceFault).
Proof.
  assert (is_Ok (snd (statemachine.ApplyBlockForChain 4 elements db4 block1 [])) = true) as Hok by (vm_compute; reflexivity).
  pose proof (ApplyBlock_atomic 4 elements db4 block1 []) as H.
  destruct (statemachine.ApplyBlockForChain 4 elements db4 block1 []) as [db' [r| |]]; [|discriminate Hok|discriminate Hok].
  exists db', r. split; [reflexivity|]. destruct H as (_ & _ & _ & _ & _ & Hh & _ & _ & _ & Hrep).
  split; [exact Hh|exact (Hrep 4 elements [])].
Defined.

Lemma chargeGas_bill_witness :
  exists db' g, statemachine.chargeGas 100 ∅ db1 txs2 = Ok (db', g) /\
    ledger.BalanceOfTx db' alice =
    ledger.BalanceOfTx db1 alice - 100 * gasOf ∅ alice (imap (fun i t => (i, t)) txs2).
Proof.
  assert (exists r, statemachine.chargeGas 100 ∅ db1 txs2 = Ok r) as [[db' g] Hc] by (apply ok_ex; vm_compute; reflexivity).
  exists db', g. split; [exact Hc|].
  destruct (chargeGas_bill 100 ∅ db1 txs2 db' g) as [H _]; [small|exact Hc|exact (H alice)].
Defined.

Lemma replayed_transfer_pays_witness :
  exists db' g, statemachine.chargeGas 100 ∅ db1 (replicate 3 (transfer 5 9)) = Ok (db', g) /\
    ledger.BalanceOfTx db' alice = ledger.BalanceOfTx db1 alice - 100 * 3.
Proof.
  assert (exists r, statemachine.chargeGas 100 ∅ db1 (replicate 3 (transfer 5 9)) = Ok r) as [[db' g] Hc]
    by (apply ok_ex; vm_compute; reflexivity).
  exists db', g. split; [exact Hc|].
  destruct (replayed_transfer_pays 1 100 db1 (transfer 5 9) 3 db' g) as [_ H];
    [exact db1_ok|small|vm_compute; discriminate|small|exact (H Hc)].
Defined.

Lemma RecordConsensusVote_once_witness :
  alice = alice /\
  snd (statemachine.RecordConsensusVote (fst (statemachine.RecordConsensusVote db1 1 0 1 alice)) 1 0 2 bob) =
  snd (statemachine.RecordConsensusVote db1 1 0 2 bob).
Proof.
  assert (((1, 0, 1), alice) ∈ snd (recordVotes db1 [((1, 0, 1), alice)])) as Hin by (vm_compute; left).
  destruct (RecordConsensusVote_once db1 [((1, 0, 1), alice)] (1, 0, 1) alice alice Hin Hin) as [H1 H2].
  split; [exact H1|]. apply H2; [small|small|discriminate].
Defined.

(** Two signed votes of Alice for different blocks of height 3. *)
Definition evidenceOf (blockHash : arr 32) : bytes :=
  [byte_of_Z 1] ++ put64 3 ++ put32 0 ++ arr_bytes blockHash ++ arr_bytes alice ++
  arr_bytes (keyed_sig alice (statemachine.voteMessage tx.DefaultChainID 1 3 0 blockHash)).

Definition evidenceTx : tx.Tx :=
  tx.mkTx tx.TxTypeEquivEvidence (str "bob") (str "bob") (Some 0) 1 bob bob (zero_arr 64) (zero_arr 64)
    0 (zero_arr 32) 0 [] [] [] (evidenceOf alice) (evidenceOf bob).

Lemma equivocation_conviction_sound_witness :
  statemachine.validateEquivocationEvidenceTx evidenceTx [] = Ok alice /\
  exists a b, statemachine.deserializeEvidenceVote (tx.EvidenceA evidenceTx) = Ok a /\ BlockProofs.equivocation [] alice a b.
Proof.
  assert (statemachine.validateEquivocationEvidenceTx evidenceTx [] = Ok alice) as Hv by (vm_compute; reflexivity).
  split; [exact Hv|].
  destruct (equivocation_conviction_sound (B := gmap bytes bytes) evidenceTx [] alice Hv) as (a & b & Ha & _ & He & _).
  exists a, b. split; [exact Ha|exact He].
Defined.
