(* ===== verification/EngineWitnesses.v ===== *)
(** * Concrete instances of the consensus properties

    Runs of the engine over the executable platform: the setting is that of
    Fork.v, four validators with equal stake. *)

From S2P Require Import Prelude GoBytes Errors Platform Sha256 Tx TxProofs KV Denom Ledger Staking Gas Mint Node Tree Contract BlockStore.
From S2P Require Import Telemetry StateMachine StateMachineProofs BlockProofs FrameProofs Vote VoteProofs QuorumProofs BlockLoop Round.
From S2P Require Import RoundProofs Engine EngineProofs EngineDepth EngineSafety EngineLiveness Fork Witnesses.
Import vote round engine fork.

#[local] Existing Instance witness_platform.
#[local] Existing Instance witness_platform_laws.
#[local] Existing Instance gmap_kv.
#[local] Existing Instance gmap_kv_laws.
#[local] Existing Instance list_order.
#[local] Existing Instance list_order_laws.
#[local] Existing Instance no_contracts.
#[local] Existing Instance plain_json.

(** ** Votes and attestations *)
Definition hashA : arr 32 := mk_arr 32 (str "block A").
Definition hashB : arr 32 := mk_arr 32 (str "block B").

Definition precommitFor (i : Z) (bh : arr 32) : Vote :=
  let v := mkVote VotePrecommit 7 1 bh (keys.PublicKey (key i)) (zero_arr 64) in
  mkVote VotePrecommit 7 1 bh (keys.PublicKey (key i)) (keys.Sign (key i) (VoteSignBytesForChain v [])).

Lemma precommitFor_wf i bh : vote_wf (precommitFor i bh).
Proof. by split_and!. Qed.

Definition attestationFor (bh : arr 32) : AttestationSet := mkAttestationSet 7 1 bh (map (fun i => precommitFor i bh) [0; 1; 2]).

Lemma attestationFor_wf bh : Forall vote_wf (AVotes (attestationFor bh)).
Proof. apply Forall_forall. intros v (i & -> & _)%list_elem_of_fmap. apply precommitFor_wf. Qed.

Lemma precommitFor_signed i bh : VerifyVoteForChain (precommitFor i bh) [] = true.
Proof. unfold VerifyVoteForChain. apply keys.Verify_Sign, key_generated. Qed.

Definition voterKeys : list (arr 32) := map (fun i => keys.PublicKey (key i)) [0; 1; 2].

Lemma attestationFor_ok :
  VerifyAttestationForChain (Some (attestationFor hashA)) voterKeys (map Some [5; 5; 5]) [] = Ok tt /\
  VerifyAttestationForChain (Some (attestationFor hashB)) voterKeys (map Some [5; 5; 5]) [] = Ok tt.
Proof. split; vm_compute; reflexivity. Qed.

Lemma conflicting_attestations_slashable_witness :
  exists m total (guilty : gset (arr 32)),
    attestationStakes voterKeys (map Some [5; 5; 5]) = Ok (m, total) /\ wt m guilty * 3 > total /\ guilty <> ∅.
Proof.
  destruct attestationFor_ok as [HA HB].
  pose proof attestationFor_wf as Hw.
  destruct (conflicting_attestations_slashable (attestationFor hashA) (attestationFor hashB) voterKeys
    (map Some [5; 5; 5]) [] HA HB (Hw _) (Hw _) (eq_refl 7) (eq_refl 1)) as (m & total & g & Ht & Hg & Hn & _).
  1-3: clear; intros Hd; apply (f_equal arr_bytes) in Hd; vm_compute in Hd; discriminate Hd.
  exists m, total, g. exact (conj Ht (conj Hg Hn)).
Defined.

Definition precommitMap : gmap (arr 32) Vote :=
  list_to_map (map (fun i => (keys.PublicKey (key i), precommitFor i hashA)) [0; 1; 2]).

Lemma lookup_precommitMap pk v :
  precommitMap !! pk = Some v -> exists i, pk = keys.PublicKey (key i) /\ v = precommitFor i hashA /\ i ∈ [0; 1; 2].
Proof.
  intros Hv. unfold precommitMap in Hv. apply elem_of_list_to_map_2, list_elem_of_fmap in Hv as (i & Hp & Hi).
  exists i. split; [exact (f_equal fst Hp)|split; [exact (f_equal snd Hp)|exact Hi]].
Qed.

Lemma precommitMap_collected : collected [] voterKeys VotePrecommit 7 1 precommitMap.
Proof.
  intros pk v (i & -> & -> & Hi)%lookup_precommitMap. split_and!; try reflexivity.
  - apply precommitFor_signed.
  - apply list_elem_of_fmap. exists i. split; [reflexivity|exact Hi].
Qed.

Lemma committed_attestation_verifies_witness :
  quorumBlock precommitMap voterKeys [5; 5; 5] = Ok (Some hashA) /\
  VerifyAttestationForChain (Some (attestationFromPrecommits precommitMap hashA)) voterKeys (map Some [5; 5; 5]) [] = Ok tt.
Proof.
  assert (quorumBlock precommitMap voterKeys [5; 5; 5] = Ok (Some hashA)) as Hq by (vm_compute; reflexivity).
  split; [exact Hq|].
  refine (proj2 (proj2 (proj2 (committed_attestation_verifies [] voterKeys [5; 5; 5] 7 1 precommitMap hashA _ _ precommitMap_collected Hq)))).
  - repeat constructor; lia.
  - reflexivity.
Defined.

(** ** Proposals *)
Definition proposal1 : BlockProposal :=
  mkBlockProposal 8 0 (keys.PublicKey (key 0)) (zero_arr 32) [transfer 5 1] (attestationFor hashA) (zero_arr 64).

Lemma proposal1_wf : proposal_wf proposal1.
Proof.
  split_and!; try (clear; done); [apply attestationFor_wf|].
  constructor; [by apply transfer_wf|constructor].
Qed.

Lemma DeserializeProposal_SerializeProposal_witness :
  exists d, SerializeProposal proposal1 = Ok d /\ DeserializeProposal d = Ok (canonProposal proposal1).
Proof.
  destruct (ok_ex (SerializeProposal proposal1)) as [d Hd]; [vm_compute; reflexivity|].
  exists d. split; [exact Hd|].
  apply (DeserializeProposal_SerializeProposal proposal1 d); [exact proposal1_wf|reflexivity|exact Hd].
Defined.

(** ** Snapshots *)
Definition snapshot1 : RoundState :=
  mkRoundState 7 1 PhasePrecommit None ∅ precommitMap (Some hashA) 1 (attestationFor hashB).

Lemma precommitMap_votes_ok : votes_ok [] precommitMap.
Proof.
  intros pk v (i & -> & -> & Hi)%lookup_precommitMap. split; [reflexivity|].
  split; [apply precommitFor_wf|apply precommitFor_signed].
Qed.

Lemma attestationFor_persisted bh : attestation_ok [] (attestationFor bh).
Proof.
  split; [done|split; [done|split; [apply attestationFor_wf|]]].
  apply Forall_forall. intros v (i & -> & _)%list_elem_of_fmap.
  repeat (split; [reflexivity|]). apply precommitFor_signed.
Qed.

Lemma snapshot1_ok : snapshot_ok [] snapshot1.
Proof.
  constructor.
  - change (is_u64 7). done.
  - change (is_u32 1). done.
  - change (1 <= 3 <= 4). lia.
  - change (- 2 ^ 31 <= 1 < 2 ^ 31). lia.
  - intros p Hp. change (None = Some p) in Hp. discriminate Hp.
  - intros pk v Hv. change ((∅ : gmap (arr 32) Vote) !! pk = Some v) in Hv. by rewrite lookup_empty in Hv.
  - apply precommitMap_votes_ok.
  - apply attestationFor_persisted.
Qed.

Lemma snapshot1_read : exists d, encodeRoundState snapshot1 = Ok d /\ decodeRoundState d [] = Ok (canonRoundState snapshot1).
Proof.
  destruct (ok_ex (encodeRoundState snapshot1)) as [d Hd]; [vm_compute; reflexivity|].
  exists d. split; [exact Hd|]. exact (snapshot_read snapshot1 d [] snapshot1_ok Hd).
Qed.

(** A node of four that has proposed an empty block. *)
Definition proposed : res node := let* a0 := boot [0; 1; 2; 3] 2 in runs 2 a0 [EvDelay; EvProposeReady].

Lemma proposed_sound a : proposed = Ok a -> node_run_of (key 2) [] (sound_pool (key 2) []) a.
Proof.
  intros (a0 & Ha0 & Hr)%obind_ok_inv. unfold runs in Hr.
  apply (foldM_inv _ (node_run_of (key 2) [] (sound_pool (key 2) []))) in Hr; [done| |].
  - intros e1 e2 ev _ H1 Hh. destruct (enabled e1 ev) eqn:En; [|done]. by eapply reach_event.
  - eapply (reach_start _ _ _ _ _ _ _ (Some (blockloop.New (key 2)))); [|intros q [= <-]|exact Ha0]; [reflexivity|]. split; [reflexivity|]. split; [reflexivity|constructor].
Qed.

Lemma snapshot_restores_round_witness :
  exists (a : node) d, is_Some (Proposal (rs a)) /\ encodeRoundState (rs a) = Ok d /\ decodeRoundState d [] = Ok (canonRoundState (rs a)).
Proof.
  assert (match proposed with
          | Ok a => bool_decide (is_Some (Proposal (rs a))) && is_Ok (encodeRoundState (rs a)) && negb (fullSnapshot (rs a))
          | _ => false end = true) as Hv by (vm_compute; reflexivity).
  destruct proposed as [a| |] eqn:Ea; [|discriminate..]. apply proposed_sound in Ea.
  apply andb_true_iff in Hv as [Hv Hf]. apply andb_true_iff in Hv as [Hp He]. apply bool_decide_eq_true in Hp.
  apply ok_ex in He as [d Hd]. exists a, d. split; [exact Hp|]. split; [exact Hd|].
  destruct (snapshot_restores_round (key 2) [] (key_generated 2) a Ea) as [H _]. specialize (H d Hd).
  apply negb_true_iff in Hf. rewrite Hf in H. exact H.
Defined.

(** ** A round in which two nodes commit *)

(** [a] proposes; [a], [b] and [c] vote for the block; [b] and [c] hear enough
    precommits to commit it.  The fourth validator is silent. *)
Definition agreement : res (node * node * node) :=
  let* a0 := boot [0; 1; 2; 3] 2 in
  let* b0 := boot [0; 1; 2; 3] 0 in
  let* c0 := boot [0; 1; 2; 3] 1 in
  let* a1 := runs 2 a0 [EvDelay; EvProposeReady] in
  let* b1 := runs 0 b0 [proposalOf a1] in
  let* c1 := runs 1 c0 [proposalOf a1] in
  let* a2 := runs 2 a1 [prevoteOf 0 b1; prevoteOf 0 c1] in
  let* b2 := runs 0 b1 [prevoteOf 0 a1; prevoteOf 0 c1] in
  let* c2 := runs 1 c1 [prevoteOf 0 a1; prevoteOf 0 b1] in
  let* b3 := runs 0 b2 [precommitOf 0 a2; precommitOf 0 c2] in
  let* c3 := runs 1 c2 [precommitOf 0 a2; precommitOf 0 b2] in
  Ok (a2, b3, c3).

Lemma agreement_run a b c :
  agreement = Ok (a, b, c) -> node_run (key 2) [] a /\ node_run (key 0) [] b /\ node_run (key 1) [] c.
Proof.
  unfold agreement. intros Hn.
  apply obind_ok_inv in Hn as (a0 & Ha0 & Hn). apply obind_ok_inv in Hn as (b0 & Hb0 & Hn). apply obind_ok_inv in Hn as (c0 & Hc0 & Hn).
  apply obind_ok_inv in Hn as (a1 & Ha1 & Hn). apply obind_ok_inv in Hn as (b1 & Hb1 & Hn). apply obind_ok_inv in Hn as (c1 & Hc1 & Hn).
  apply obind_ok_inv in Hn as (a2 & Ha2 & Hn). apply obind_ok_inv in Hn as (b2 & Hb2 & Hn). apply obind_ok_inv in Hn as (c2 & Hc2 & Hn).
  apply obind_ok_inv in Hn as (b3 & Hb3 & Hn). apply obind_ok_inv in Hn as (c3 & Hc3 & Hn).
  injection Hn as <- <- <-. split_and!.
  - exact (runs_run 2 _ _ _ (runs_run 2 _ _ _ (boot_run _ _ _ Ha0) Ha1) Ha2).
  - exact (runs_run 0 _ _ _ (runs_run 0 _ _ _ (runs_run 0 _ _ _ (boot_run _ _ _ Hb0) Hb1) Hb2) Hb3).
  - exact (runs_run 1 _ _ _ (runs_run 1 _ _ _ (runs_run 1 _ _ _ (boot_run _ _ _ Hc0) Hc1) Hc2) Hc3).
Qed.

(** One of the nodes sent what both commits hold under a key. *)
Definition owned (pc1 pc2 : gmap (arr 32) Vote) (nodes : list node) : bool :=
  forallb (fun '(pk, v) => existsb (fun e => sentBy v e && match pc2 !! pk with Some w => sentBy w e | None => true end) nodes)
    (map_to_list pc1).

Definition silent : gset (arr 32) := {[keys.PublicKey (key 3)]}.

Definition agreed (outcome : res (node * node * node)) : bool :=
  match outcome with
  | Ok (a, b, c) =>
    match theCommit 1 0 b, theCommit 1 0 c with
    | Some (Committed _ _ p pc vs ss), Some (Committed _ _ p' pc' vs' ss') =>
      bool_decide (vs = vs') && bool_decide (ss = ss') && bool_decide (ss = fourBonds) && (zlen vs =? zlen ss) &&
      owned pc pc' [a; b; c] &&
      match stakeTable vs ss with Ok (m, total) => wt m silent * 3 <=? total | _ => false end
    | _, _ => false
    end
  | _ => false
  end.

Lemma agreed_true : agreed agreement = true.
Proof. vm_compute. reflexivity. Qed.

Lemma sentBy_In v e : sentBy v e = true -> SentVote v ∈ trace e.
Proof.
  intros Hs. apply existsb_exists in Hs as (o & Ho & Hs). destruct o; [|done..]. bsimp. subst. by apply list_elem_of_In.
Qed.

Lemma owned_runs pc1 pc2 nodes pk :
  owned pc1 pc2 nodes = true -> (forall e, e ∈ nodes -> exists i, node_run (key i) [] e) ->
  pk ∈ dom pc1 -> pk ∈ dom pc2 -> runs_engine (B := gmap bytes bytes) (P := blockloop.BlockLoop) [] pc1 pc2 pk.
Proof.
  intros Ho Hn [v Hv]%elem_of_dom [w Hw]%elem_of_dom. unfold owned in Ho. rewrite forallb_forall in Ho.
  assert (In (pk, v) (map_to_list pc1)) as Hin by (by apply list_elem_of_In, elem_of_map_to_list).
  apply Ho in Hin. apply existsb_exists in Hin as (e & He & Hs). rewrite Hw in Hs. bsimp. apply list_elem_of_In in He.
  destruct (Hn e He) as [i Hi]. exists (key i), e. split; [apply key_generated|]. split; [exact Hi|].
  split; intros u Hu; [rewrite Hv in Hu|rewrite Hw in Hu]; injection Hu as <-; apply sentBy_In; assumption.
Qed.

Lemma one_block_per_round_witness :
  exists (b c : node) p p' pc pc' vs,
    node_run (key 0) [] b /\ node_run (key 1) [] c /\
    Committed 1 0 p pc vs fourBonds ∈ trace b /\ Committed 1 0 p' pc' vs fourBonds ∈ trace c /\
    BlockHashForChain p [] = BlockHashForChain p' [].
Proof.
  pose proof agreed_true as Hf. unfold agreed in Hf. destruct agreement as [[[a b] c]| |] eqn:En; [|discriminate..].
  destruct (agreement_run a b c En) as (Ha & Hb & Hc). clear En.
  destruct (theCommit 1 0 b) as [[| |h r p pc vs ss]|] eqn:E1; try discriminate.
  destruct (theCommit 1 0 c) as [[| |h' r' p' pc' vs' ss']|] eqn:E2; try discriminate.
  destruct (stakeTable vs ss) as [[m total]| |] eqn:Et; [|rewrite andb_false_r in Hf; discriminate..].
  bsimp. subst. apply theCommit_In in E1 as [I1 C1], E2 as [I2 C2]. cbn in C1, C2. bsimp. subst.
  exists b, c, p, p', pc, pc', vs'. split; [exact Hb|]. split; [exact Hc|]. split; [exact I1|]. split; [exact I2|].
  refine (one_block_per_round (key 0) (key 1) [] b c 1 0 p p' pc pc' vs' fourBonds silent m total (key_generated 0)
    (key_generated 1) Hb Hc I1 I2 _ _ Et _ _); [repeat constructor; lia|assumption|assumption|].
  intros pk _ D1 D2. apply (owned_runs pc pc' [a; b; c] pk); [assumption| |exact D1|exact D2].
  intros e He. rewrite !elem_of_cons in He. destruct He as [->|[->|[->|[]%not_elem_of_nil]]];
    [exists 2; exact Ha|exists 0; exact Hb|exists 1; exact Hc].
Defined.

(** ** A single node's votes *)
Definition firstVote (e : node) : option Vote :=
  match List.find (fun o => match o with SentVote _ => true | _ => false end) (trace e) with
  | Some (SentVote v) => Some v
  | _ => None
  end.

Lemma firstVote_In e v : firstVote e = Some v -> SentVote v ∈ trace e.
Proof.
  unfold firstVote. destruct (List.find _ _) as [[w| |]|] eqn:Ef; try discriminate. intros [= <-].
  apply List.find_some in Ef as [Hin _]. by apply list_elem_of_In.
Qed.

Lemma engine_never_equivocates_witness :
  exists (b : node) v, SentVote v ∈ trace b /\ VerifyVoteForChain v [] = true /\ recorded (db b) v.
Proof.
  assert (match agreement with Ok (_, b, _) => bool_decide (is_Some (firstVote b)) | _ => false end = true) as Hv
    by (vm_compute; reflexivity).
  destruct agreement as [[[a b] c]| |] eqn:En; [|discriminate..].
  destruct (agreement_run a b c En) as (_ & Hb & _). clear En. apply bool_decide_eq_true in Hv as [v Hv%firstVote_In].
  destruct (engine_never_equivocates (key 0) [] b v v (key_generated 0) Hb Hv Hv eq_refl eq_refl eq_refl)
    as (_ & Hs & _ & Hr & _).
  exists b, v. exact (conj Hv (conj Hs Hr)).
Defined.

Lemma engine_state_typed_witness :
  exists b : node, Round (rs b) = 0 /\ rs_ok [] (rs b) /\ saved_ok [] (db b).
Proof.
  assert (match agreement with Ok (_, b, _) => Round (rs b) =? 0 | _ => false end = true) as Hv by (vm_compute; reflexivity).
  destruct agreement as [[[a b] c]| |] eqn:En; [|discriminate..].
  destruct (agreement_run a b c En) as (_ & Hb & _). clear En. exists b. split; [apply Z.eqb_eq; exact Hv|].
  exact (engine_state_typed (key 0) [] b (key_generated 0) Hb).
Defined.

(** ** One node among four *)
Definition aloneB (i : Z) (vs : list (arr 32)) (ss : list Z) : bool :=
  match stakeTable vs ss with
  | Ok (m, total) => bool_decide (quorum m total {[keys.PublicKey (key i)]})
  | _ => false
  end.

Lemma aloneB_spec i vs ss : aloneB i vs ss = false -> not_alone (key i) vs ss.
Proof. intros Ha m total Ht. unfold aloneB in Ha. rewrite Ht in Ha. by apply bool_decide_eq_false in Ha. Qed.

Lemma handleVote_depth_witness :
  exists e : node, forall v vs ss,
    handleVote (key 2) [] 1 elements 100 e v vs ss = handleVote (key 2) [] 1 elements 3 e v vs ss.
Proof.
  assert (match boot [0; 1; 2; 3] 2 with
          | Ok e => match staking.BondedAmounts (db e) with Ok (vs, ss) => negb (aloneB 2 vs ss) | _ => true end
          | _ => false end = true) as Hb by (vm_compute; reflexivity).
  destruct (boot [0; 1; 2; 3] 2) as [e| |]; [|discriminate..]. exists e. intros v vs ss.
  refine (proj2 (handleVote_depth (key 2) [] 1 elements e v vs ss _) 97%nat).
  intros vs' ss' Hs. rewrite Hs in Hb. apply aloneB_spec, negb_true_iff, Hb.
Defined.

(** The proposer of the first round, before and after it broadcasts its block, and
    after its propose timer fired. *)
Definition waitingRun : res (node * node * node) :=
  let* a0 := boot [0; 1; 2; 3] 2 in
  let* a1 := runs 2 a0 [EvDelay] in
  let* a2 := handle (key 2) [] 1 elements 8 a1 EvProposeReady in
  let* a3 := handle (key 2) [] 1 elements 8 a2 EvProposeTimer in
  Ok (a1, a2, a3).

Definition waitingRunB (r : res (node * node * node)) : bool :=
  match r with
  | Ok (e, e1, e2) =>
    negb (aloneB 2 (validators e) (stakes e)) && bool_decide (Prevotes (rs e) = ∅) &&
    negb (prevoteTimer (timers e)) && negb (precommitTimer (timers e)) &&
    (Phase (rs e) =? 1) && (Phase (rs e1) =? 2) && proposeTimer (timers e1)
  | _ => false
  end.

Lemma proposer_waits_forever_witness :
  exists e1 e2 : node, handle (key 2) [] 1 elements 8 e1 EvProposeTimer = Ok e2 /\ waiting e2 /\ rs e2 = rs e1.
Proof.
  assert (waitingRunB waitingRun = true) as Hw by (vm_compute; reflexivity).
  destruct waitingRun as [[[e e1] e2]| |] eqn:Er; [|discriminate..]. unfold waitingRun in Er.
  apply obind_ok_inv in Er as (a0 & _ & Er). apply obind_ok_inv in Er as (a1 & _ & Er).
  apply obind_ok_inv in Er as (a2 & Ha2 & Er). apply obind_ok_inv in Er as (a3 & Ha3 & Er). injection Er as -> -> ->.
  unfold waitingRunB in Hw. bsimp. exists e1, e2. split; [exact Ha3|].
  apply (proposer_waits_forever (key 2) [] 1 elements 7 e e1 e2).
  - apply aloneB_spec. assumption.
  - assumption.
  - assumption.
  - assumption.
  - exact Ha2.
  - intros Heq. apply (f_equal Phase) in Heq. lia.
  - apply rtc_once. exists 8%nat, EvProposeTimer. split; [discriminate|]. split; [assumption|exact Ha3].
Defined.

(** A vote of a validator that is not in the table. *)
Lemma late_validators_ignored_witness :
  exists e : node, is_Ok (boot [0; 1; 2; 3] 2) = true /\
    handle (key 2) [] 1 elements 1 e (EvVote (Serialize (precommitFor 5 hashA))) = Ok e.
Proof.
  assert (match boot [0; 1; 2; 3] 2 with
          | Ok e => negb (bool_decide (keys.PublicKey (key 5) ∈ validators e)) && enabled e EvDelay
          | _ => false end = true) as Hv by (vm_compute; reflexivity).
  destruct (boot [0; 1; 2; 3] 2) as [e| |] eqn:Eb; [|discriminate..]. apply boot_run in Eb.
  apply andb_true_iff in Hv as [Hv%negb_true_iff%bool_decide_eq_false Hen].
  exists (set_delayed e (pred (delayed e)) true). split; [reflexivity|].
  refine (proj2 (proj2 (late_validators_ignored (key 2) [] 0 1 elements e _ (Serialize (precommitFor 5 hashA))
    (precommitFor 5 hashA) (key_generated 2) Eb _ _ Hv))).
  - apply rtc_once, (live_event (key 2) [] 1 1 elements e EvDelay); [exact Hen|reflexivity].
  - apply vote_roundtrip, precommitFor_wf.
Defined.
