(* ===== verification/NodeWitnesses.v ===== *)
(** * Concrete instances of the properties of the node, its clients and its tools *)

From S2P Require Import Prelude GoBytes Errors Platform Hex Sha256 Tx TxProofs TxSigProofs KV Denom Ledger Staking StakingProofs Gas Mint Node.
From S2P Require Import Tree Contract BlockStore Telemetry StateMachine StateMachineProofs BlockProofs FrameProofs Vote VoteProofs QuorumProofs.
From S2P Require Import BlockLoop Round Engine Fork Genesis BlockSync CatchUp Gossip Rpc RpcProofs Client Backup Wallet Config ConfigProofs.
From S2P Require Import Witnesses.
Import vote fork.

#[local] Existing Instance witness_platform.
#[local] Existing Instance witness_platform_laws.
#[local] Existing Instance gmap_kv.
#[local] Existing Instance gmap_kv_laws.
#[local] Existing Instance list_order.
#[local] Existing Instance list_order_laws.
#[local] Existing Instance no_contracts.
#[local] Existing Instance plain_json.

(** ** Genesis *)
Lemma emptyDB_fresh : fresh emptyDB.
Proof. constructor; intros; apply lookup_empty. Qed.

Lemma escrow_not_key0 : staking.escrowAccount (keys.PublicKey (key 0)) <> keys.PublicKey (key 0).
Proof. apply (bool_decide_eq_false_1 (staking.escrowAccount (keys.PublicKey (key 0)) = keys.PublicKey (key 0))). vm_compute. reflexivity. Qed.

Lemma bootstrap_genesis_starts_witness :
  exists db', genesis.Apply emptyDB (config.bootstrapGenesis [] (key 0)) = (db', Ok tt) /\
    ledger.BalanceOf db' (keys.PublicKey (key 0)) = 9 * staking.minBondAmount.
Proof.
  destruct (bootstrap_genesis_starts emptyDB [] (key 0) emptyDB_fresh escrow_not_key0) as (db' & Ha & _ & Hb & _).
  exists db'. exact (conj Ha Hb).
Defined.

Lemma chain_supply_exact_witness :
  exists db', genesis.Apply emptyDB (config.bootstrapGenesis [] (key 0)) = (db', Ok tt) /\
    let db'' := foldl tryBlock db' [attempt1; attempt1] in
    statemachine.CurrentTotalSupply db'' = (ledger.totalBalance db'', true).
Proof.
  destruct bootstrap_amounts as [A1 A2]. destruct minBond_u256 as [P1 P2].
  destruct (bootstrap_seed emptyDB [] (key 0) _ emptyDB_fresh escrow_not_key0 A1 A2 (Z.le_refl _) P1 P2) as (db' & Hs & _).
  assert (genesis.Apply emptyDB (config.bootstrapGenesis [] (key 0)) = (db', Ok tt)) as Ha.
  { rewrite Apply_fresh by exact emptyDB_fresh. apply Update_ok. by rewrite Hs. }
  exists db'. split; [exact Ha|].
  apply (chain_supply_exact emptyDB (config.bootstrapGenesis [] (key 0)) db' [attempt1; attempt1] emptyDB_fresh (bootstrap_apart [] (key 0) escrow_not_key0) Ha).
  apply Forall_cons. split; [exact attempt1_ok|]. apply Forall_cons. split; [exact attempt1_ok|constructor].
Defined.

(** The bootstrap validator unbonds in the first block. *)
Definition pk0 : arr 32 := keys.PublicKey (key 0).
Definition genesis0 : genesis.Genesis := config.bootstrapGenesis [] (key 0).
Definition chain0 : DB (gmap bytes bytes) := fst (genesis.Apply emptyDB genesis0).

Definition unbond0 : tx.Tx :=
  let t := tx.mkTx tx.TxTypeUnbond [] [] (Some 0) 1 pk0 pk0 (zero_arr 64) (zero_arr 64) 0 (zero_arr 32) 0 [] [] [] [] [] in
  set_SenderSig (keyed_sig pk0 (get (zero_arr 32) (tx.UnsignedHashForChain t []))) t.
Definition unbonding0 : list attempt := [(4, elements, blockstore.mkBlock 1 [unbond0] pk0 (zero_arr 32) (zero_arr 32) [], [])].
Definition unbondedDB : DB (gmap bytes bytes) := foldl tryBlock chain0 unbonding0.

Lemma chain0_eq : genesis.Apply emptyDB genesis0 = (chain0, Ok tt).
Proof.
  assert (snd (genesis.Apply emptyDB genesis0) = Ok tt) as Hr by (vm_compute; reflexivity).
  unfold chain0. destruct (genesis.Apply emptyDB genesis0) as [db r]. cbn in *. by subst.
Qed.

Lemma unbond0_sender : tx.SenderPubKey unbond0 = pk0.
Proof. reflexivity. Qed.
Lemma unbond0_type : tx.Type_ unbond0 = tx.TxTypeUnbond.
Proof. reflexivity. Qed.

(** One key that bonds and sends. *)
Lemma parties_single pk chainID kp t attempts :
  pk = keys.PublicKey kp -> staking.escrowAccount pk <> pk -> staking.escrowAccount pk <> gas.FeeAccount pk ->
  history_txs attempts = [t] -> tx.SenderPubKey t = pk -> tx.Type_ t <> tx.TxTypeContractDeploy ->
  chain_parties [pk] (config.bootstrapGenesis chainID kp) attempts.
Proof.
  intros Hpk H1 H2 Ht Hs Hty. constructor.
  - intros pk' a (entry & ->%list_elem_of_singleton & Hk & _). cbn [genesis.PubKey] in Hk. rewrite decodeKey_hex in Hk.
    injection Hk as <-. subst. by left.
  - rewrite Ht. constructor.
    + by intros v w ->%list_elem_of_singleton ->%list_elem_of_singleton.
    + by intros v w ->%list_elem_of_singleton ->%list_elem_of_singleton.
    + intros t' ->%list_elem_of_singleton. rewrite Hs. by left.
    + by intros t' v ->%list_elem_of_singleton.
Qed.

Lemma escrow0_apart :
  bool_decide (staking.escrowAccount pk0 = pk0) = false /\ bool_decide (staking.escrowAccount pk0 = gas.FeeAccount pk0) = false.
Proof. split; vm_compute; reflexivity. Qed.

Lemma parties0 : chain_parties [pk0] genesis0 unbonding0.
Proof.
  destruct escrow0_apart as [H1 H2]. apply (parties_single pk0 [] (key 0) unbond0 unbonding0);
    [reflexivity|exact (bool_decide_eq_false_1 _ H1)|exact (bool_decide_eq_false_1 _ H2)|reflexivity|exact unbond0_sender|].
  rewrite unbond0_type. clear. discriminate.
Qed.

Lemma unbonded_record :
  recordOf unbondedDB pk0 = Some (staking.mkRecord staking.stateUnbonding staking.minBondAmount 0 1 0) /\
  ledger.BalanceOf unbondedDB pk0 < 9 * staking.minBondAmount.
Proof. split; vm_compute; reflexivity. Qed.

Lemma escrow_solvent_witness :
  genesis.Apply emptyDB genesis0 = (chain0, Ok tt) /\
  staking.minBondAmount <= ledger.BalanceOf (foldl tryBlock chain0 unbonding0) (staking.escrowAccount pk0).
Proof.
  split; [exact chain0_eq|].
  destruct (escrow_solvent [pk0] emptyDB genesis0 chain0 unbonding0 emptyDB_fresh (fun k => lookup_empty k) chain0_eq parties0) as [_ H].
  exact (H pk0 _ (proj1 unbonded_record)).
Defined.

Lemma FinalizeTx_pays_witness :
  exists paid, staking.FinalizeTx unbondedDB pk0 1001 = Ok paid /\ recordOf paid pk0 = None /\
    ledger.BalanceOf paid pk0 = ledger.BalanceOf unbondedDB pk0 + staking.minBondAmount.
Proof.
  pose proof (FinalizeTx_pays [pk0] emptyDB genesis0 chain0 unbonding0 pk0 1001 emptyDB_fresh (fun k => lookup_empty k) chain0_eq parties0) as H.
  destruct unbonded_record as [Hr Hb]. cbv zeta in H. change (foldl tryBlock chain0 unbonding0) with unbondedDB in H.
  rewrite Hr in H. cbn [staking.State staking.UnbondingAtBlock staking.BondedAmount] in H.
  change (_ && _) with true in H. cbv iota in H. rewrite (proj2 (Z.ltb_lt _ _)) in H.
  - destruct H as (paid & Hf & Hn & Hp & _). exists paid. exact (conj Hf (conj Hn Hp)).
  - assert (10 * staking.minBondAmount < two256) as Hm by (clear; vm_compute; reflexivity).
    revert Hm Hb. generalize staking.minBondAmount, two256, (ledger.BalanceOf unbondedDB pk0). clear. lia.
Defined.

(** ** Block sync and catching up *)
Definition threeBlocks (h : Z) : res (option bytes) := if h <=? 3 then Ok (Some [byte_of_Z h]) else Ok None.

Lemma SyncBlocks_delivers_witness :
  exists bs, blocksync.SyncBlocks (blocksync.handleBlockSync (Some threeBlocks)) 2 9 =
    (if 4 * zlen bs + payload bs <=? blocksync.blockSyncMaxResponseBytes + 4 then Ok bs else failf "unexpected EOF").
Proof.
  destruct (SyncBlocks_delivers threeBlocks 2 9) as (bs & _ & _ & _ & _ & H).
  - split; [discriminate|reflexivity].
  - split; [discriminate|reflexivity].
  - reflexivity.
  - intros h. unfold threeBlocks. destruct (h <=? 3); discriminate.
  - exists bs. exact H.
Defined.

(** A chain of one validator, key 0; alice holds 10^30. *)
Definition dbSync : DB (gmap bytes bytes) := set_validators db4 (bond ∅ 0).

Definition syncTxs : list tx.Tx := [signed (transfer 5 1)].
Definition unsignedProposal : BlockProposal :=
  mkBlockProposal 1 0 (keys.PublicKey (key 0)) (zero_arr 32) syncTxs emptyAttestation (zero_arr 64).
Definition proposalBody : bytes := get [] (ProposalSignBytesForChain unsignedProposal []).
Definition signedProposal : BlockProposal :=
  mkBlockProposal 1 0 (keys.PublicKey (key 0)) (zero_arr 32) syncTxs emptyAttestation (keys.Sign (key 0) proposalBody).
Definition proposalData : bytes := get [] (SerializeProposal signedProposal).
Definition forgedBlock : blockstore.Block :=
  blockstore.mkBlock 1 syncTxs (keys.PublicKey (key 0)) (zero_arr 32) (zero_arr 32) proposalData.
Definition forgedRaw : bytes := get [] (blockstore.SerializeBlock forgedBlock).

Lemma lone_validator_forges_block_witness :
  catchup.validateSyncedBlocks [forgedRaw] 1 [keys.PublicKey (key 0)] [10 ^ 20] [] = Ok (Some [canonBlock forgedBlock]).
Proof.
  apply (lone_validator_forges_block [keys.PublicKey (key 0)] [10 ^ 20] [] (key 0) 1 (zero_arr 32) (zero_arr 32) syncTxs proposalData forgedRaw) with (body := proposalBody).
  - apply key_generated.
  - apply list_elem_of_singleton. reflexivity.
  - split; [discriminate|reflexivity].
  - unfold syncTxs. wfs.
  - split; reflexivity.
  - apply get_ok. vm_compute. reflexivity.
  - apply get_ok. vm_compute. reflexivity.
  - apply get_ok. vm_compute. reflexivity.
Defined.

Definition syncPeers (_ : nat) : list catchup.Peer := [fun _ from _ => Ok (if from <=? 1 then [forgedRaw] else [])].

Lemma catchUp_applies_proposed_witness :
  statemachine.CurrentHeight dbSync = Ok 0 /\
  exists db' r, catchup.catchUpCommittedBlocks [] 1 elements 4 (fun _ _ => false) syncPeers dbSync = (db', r) /\
    statemachine.CurrentHeight db' = Ok 1 /\
    (db' = dbSync \/ exists validators stakes, staking.BondedAmounts dbSync = Ok (validators, stakes) /\
       rtc (synced_step [] 1 elements validators stakes) dbSync db').
Proof.
  split; [vm_compute; reflexivity|].
  assert (statemachine.CurrentHeight (fst (catchup.catchUpCommittedBlocks [] 1 elements 4 (fun _ _ => false) syncPeers dbSync)) = Ok 1) as Hh
    by (vm_compute; reflexivity).
  destruct (catchup.catchUpCommittedBlocks [] 1 elements 4 (fun _ _ => false) syncPeers dbSync) as [db' r] eqn:E.
  exists db', r. split; [reflexivity|]. split; [exact Hh|].
  exact (catchUp_applies_proposed [] 1 elements 4 (fun _ _ => false) syncPeers dbSync db' r E).
Defined.

Lemma catchUp_terminates_witness :
  exists r, snd (catchup.catchUpCommittedBlocks [] 1 elements 2 (fun _ _ => false) syncPeers dbSync) = Some r.
Proof.
  apply (catchUp_terminates [] 1 elements 1 2 (fun _ _ => false) syncPeers dbSync 0).
  - reflexivity.
  - intros pass. apply Forall_cons. split; [|constructor]. intros attempt from to raws Hr. apply Ok_inj in Hr as <-.
    destruct (from <=? 1) eqn:E; [right|left; reflexivity]. apply Z.leb_le in E. change (zlen [forgedRaw]) with 1. lia.
  - vm_compute. reflexivity.
  - apply Nat.ltb_lt. reflexivity.
Defined.

Definition emptyRaw : bytes :=
  get [] (blockstore.SerializeBlock (blockstore.mkBlock 1 [] (keys.PublicKey (key 0)) (zero_arr 32) (zero_arr 32) [])).

Lemma empty_block_stops_sync_witness :
  catchup.catchUpCommittedBlocks [] 1 elements 1 (fun _ _ => false) (fun _ => [fun _ _ _ => Ok [emptyRaw]]) dbSync = (dbSync, Some (Ok tt)).
Proof.
  assert (exists p, staking.BondedAmounts dbSync = Ok p) as [[vs ss] Hb] by (apply ok_ex; vm_compute; reflexivity).
  apply (empty_block_stops_sync [] 1 elements 0 (fun _ _ => false) (fun _ => [fun _ _ _ => Ok [emptyRaw]]) dbSync 0 vs ss Hb).
  - vm_compute. reflexivity.
  - intros k. reflexivity.
  - apply Forall_cons. split; [|constructor]. intros attempt to. cbn [starts_empty].
    assert (match blockstore.DeserializeBlock emptyRaw with
            | Ok (blockstore.mkBlock _ [] _ _ _ pd) => match DeserializeProposal pd with Panic => false | _ => true end
            | _ => false end = true) as Hd by (vm_compute; reflexivity).
    destruct (blockstore.DeserializeBlock emptyRaw) as [[h [|t txs] pk pr sr pd]| |]; [|discriminate Hd..].
    exists (blockstore.mkBlock h [] pk pr sr pd). split; [reflexivity|]. split; [reflexivity|]. cbn [blockstore.ProposalBytes].
    destruct (DeserializeProposal pd); discriminate.
Defined.

(** ** RPC *)
Definition burst : list call := replicate 3 (mkCall None 5 1000) ++ [mkCall None (5 + rpc.submitWindow) 2000].

Lemma submit_rate_bounded_witness :
  passed c_count (str "unknown") 5 (snd (limit_run burst)) = 4000 /\
  passed c_count (str "unknown") 6 (snd (limit_run burst)) <= 2 * rpc.maxSubmitTxPerPeer.
Proof.
  split; [vm_compute; reflexivity|].
  apply (submit_rate_bounded burst (str "unknown") 6 (5 + rpc.submitWindow)).
  - unfold burst, times_ok. cbn [replicate app].
    repeat (apply SSorted_cons; [|repeat (apply Forall_cons; split; [vm_compute; discriminate|]); apply Forall_nil; exact I]). apply SSorted_nil.
  - unfold burst. cbn [replicate app]. repeat (apply Forall_cons; split; [vm_compute; discriminate|]). apply Forall_nil. exact I.
  - vm_compute. reflexivity.
Defined.

Definition gossipNode : p2p.Node := p2p.New (p2p.mkConfig [] [] [] false).
Definition server1 : rpc.nodeGRPCServer :=
  rpc.mkServer (Some gossipNode) p2p.defaultChainID (Some rpc.newSubmitLimiter) None None [].
Definition call1 : rpc.Context_ := rpc.mkContext rpc.NoAuthInfo None 5 (fun _ => false).

(** A transfer signed for the default chain. *)
Definition paymentTx : tx.Tx :=
  set_SenderSig (keyed_sig alice (get (zero_arr 32) (tx.UnsignedHashForChain (transfer 5 1) p2p.defaultChainID))) (transfer 5 1).
Definition paymentRaw : bytes := get [] (tx.Serialize paymentTx).

Lemma payment_accepted :
  exists s', rpc.SubmitTx (fun _ => true) server1 call1 (Some paymentRaw) = Ok (s', rpc.Answer true).
Proof.
  assert (match rpc.SubmitTx (fun _ => true) server1 call1 (Some paymentRaw) with Ok (_, rpc.Answer true) => true | _ => false end = true) as Hs
    by (vm_compute; reflexivity).
  destruct (rpc.SubmitTx (fun _ => true) server1 call1 (Some paymentRaw)) as [[s' [|[]]]| |]; try discriminate Hs. exists s'. reflexivity.
Qed.

(** A peer that already has a transaction waiting. *)
Definition busyNode : p2p.Node := p2p.mkNode (p2p.cfg gossipNode) [transfer 6 2] [] [].

Lemma submitted_reaches_pool_witness :
  exists peer' t id, tx.Deserialize paymentRaw = Ok t /\ tx.ID t = Ok id /\ p2p.txCh peer' = [transfer 6 2; t] /\
    blockloop.Has (blockloop.Start (blockloop.New (key 0)) (p2p.txCh peer')) id = true.
Proof.
  destruct payment_accepted as [s' Hs].
  destruct (submitted_reaches_pool (fun _ => true) server1 call1 paymentRaw s' busyNode (blockloop.New (key 0)) Hs)
    as (msg & p1 & t & id & _ & _ & Hd & Hid & Hc & Hh).
  - vm_compute. reflexivity.
  - vm_compute. reflexivity.
  - intros n Hn. injection Hn as <-. vm_compute. reflexivity.
  - exists p1, t, id. exact (conj Hd (conj Hid (conj Hc Hh))).
Defined.

(** ** The client's queue *)

(** A cipher that hides nothing. *)
Definition plain_gcm : GCM := {| gcm_Seal _ plain := plain; gcm_Open _ data := Some data |}.
#[local] Existing Instance plain_gcm.
Lemma plain_gcm_laws : GCMLaws.
Proof. constructor. reflexivity. Qed.
#[local] Existing Instance plain_gcm_laws.

Definition evs1 : list Client.event :=
  [Later (zero_arr 12) paymentRaw; Later (zero_arr 12) [x01]; Later (zero_arr 12) paymentRaw; Ready (fun _ => client.NodeRejected)].

Lemma queue_refines_list_witness :
  foldl fifo_step [] evs1 = [paymentRaw; [x01]] /\
  (hash.collision (putOff evs1) \/
   exists keys, client.Drain (foldl Client.step (client.openQueue (B := gmap bytes bytes)) evs1) = Ok (keys, foldl fifo_step [] evs1)).
Proof.
  split; [vm_compute; reflexivity|]. apply (queue_refines_list (B := gmap bytes bytes) evs1). reflexivity.
Defined.

(** Two flushes that overlap send the batch twice; what comes in between waits. *)
Definition overlapping : list client.action :=
  [client.PutOff (zero_arr 12) paymentRaw; client.BeginFlush 0; client.BeginFlush 1; client.Answered 0 client.Accepted; client.EndFlush 0;
   client.PutOff (zero_arr 12) [x01]; client.Answered 1 client.Accepted; client.EndFlush 1].

Lemma queued_delivered_witness :
  let p := foldl client.act (client.newClient (B := gmap bytes bytes)) overlapping in
  client.accepted p = [[paymentRaw]; [paymentRaw]] /\ client.queued p = [paymentRaw; [x01]] /\
  (hash.collision (fun m => exists n, client.PutOff n m ∈ overlapping) \/
   exists dbKeys waiting, client.Drain (client.db p) = Ok (dbKeys, waiting) /\
     (forall m, m ∈ client.queued p -> m ∈ waiting \/ m ∈ concat (client.accepted p)) /\ (forall m, m ∈ concat (client.accepted p) -> m ∈ client.queued p)).
Proof.
  split; [vm_compute; reflexivity|]. split; [vm_compute; reflexivity|]. apply (queued_delivered (B := gmap bytes bytes) overlapping). reflexivity.
Defined.

Definition evs2 : list Client.event := [Later (zero_arr 12) paymentRaw].

Lemma queued_until_published_witness :
  let q := foldl Client.step (client.openQueue (B := gmap bytes bytes)) evs2 in
  let answer := nodeAnswer (fun _ => true) server1 call1 in
  client.Drain (client.flush q answer) = Ok ([], []) /\
  (hash.collision (putOff evs2) \/ client.flush q answer = q \/
   client.Drain (client.flush q answer) = Ok ([], []) /\
   exists s' n ts m, rpc.SubmitBatch (fun _ => true) server1 call1 (foldl fifo_step [] evs2) = Ok (s', rpc.Answer true) /\ rpc.node server1 = Some n /\
    Forall2 (fun raw t => tx.Deserialize raw = Ok t /\ tx.VerifySigsForChain t (rpc.chainID server1) = Ok tt) (foldl fifo_step [] evs2) ts /\
    tx.SerializeBatch ts = Ok m /\ rpc.published s' = rpc.published server1 ++ [(p2p.topicBatch (p2p.cfg n), m)]).
Proof.
  intros q answer. split; [vm_compute; reflexivity|].
  exact (queued_until_published (B := gmap bytes bytes) (fun _ => true) evs2 server1 call1 eq_refl).
Defined.

(** ** The wallet *)
Definition wallet0 : wallet.Wallet := wallet.mkWallet (key 0) [].
Definition dbWallet : DB (gmap bytes bytes) :=
  set_balances emptyDB (kv_Put (balances emptyDB) (keys.PublicKey (key 0)) (be_enc 32 1000)).
Definition node0 : wallet.Node := wallet.mkNode (ledger.NonceOf dbWallet) (fun _ => Ok true).

Lemma dbWallet_ok : ledger.ledger_ok dbWallet.
Proof. apply ledger_ok_put_balance, emptyDB_ok. Qed.

Lemma bob_not_key0 : bob <> keys.PublicKey (key 0).
Proof. apply (bool_decide_eq_false_1 (bob = keys.PublicKey (key 0))). vm_compute. reflexivity. Qed.

Lemma wallet0_transfers : exists sent txid, wallet.Transfer wallet0 node0 bob (Some 7) = (sent, Ok txid).
Proof.
  assert (is_Ok (snd (wallet.Transfer wallet0 node0 bob (Some 7))) = true) as Hok by (vm_compute; reflexivity).
  destruct (wallet.Transfer wallet0 node0 bob (Some 7)) as [sent [txid| |]]; [|discriminate Hok..]. exists sent, txid. reflexivity.
Qed.

Lemma wallet_transfer_arrives_witness :
  exists sent txid raw t db', wallet.Transfer wallet0 node0 bob (Some 7) = (sent, Ok txid) /\ sent = [raw] /\
    p2p.parseTxForChain raw [] = Ok t /\
    statemachine.applyTx 1 1 (statemachine.mkTxState dbWallet ∅ ∅ 0) 0 t (Ok (zero_arr 32)) = Ok (statemachine.mkTxState db' ∅ ∅ 0) /\
    ledger.BalanceOf db' bob = ledger.BalanceOf dbWallet bob + 7.
Proof.
  destruct wallet0_transfers as (sent & txid & Ht).
  destruct (wallet_transfer_arrives wallet0 node0 dbWallet bob 7 sent txid 1 1 (statemachine.mkTxState dbWallet ∅ ∅ 0) 0 (Ok (zero_arr 32)))
    as (raw & t & id & Hs & Hp & _ & _ & _ & _ & _ & Happ).
  - apply key_generated.
  - apply dbWallet_ok.
  - intros pk. reflexivity.
  - reflexivity.
  - exact Ht.
  - destruct Happ as (db' & Ha & Hb & _); [vm_compute; discriminate|vm_compute; reflexivity|].
    exists sent, txid, raw, t, db'. split; [exact Ht|]. split; [exact Hs|]. split; [exact Hp|]. split; [exact Ha|exact Hb].
Defined.

(** ** Backups *)

(** Databases of eight one-byte buckets, written one after the other. *)
Definition byte_bolt : Bolt byte :=
  {| bolt_Write db := [balances db; nonces db; validators db; meta db; contract_bytecode db; contract_state db; blocks db; block_telemetry db];
     bolt_Read d := match d with [a; b; c; e; f; g; h; i] => Some (mkDB a b c e f g h i) | _ => None end;
     bolt_Buckets _ := Some [metaBucket; blocksBucket] |}.
#[local] Existing Instance byte_bolt.
Lemma byte_bolt_laws : BoltLaws byte.
Proof.
  constructor; [by intros []|]. intros db. exists [metaBucket; blocksBucket]. split; [reflexivity|]. split; [left|right; left].
Qed.
#[local] Existing Instance byte_bolt_laws.

Definition dbBytes : DB byte := mkDB x00 x01 x02 x03 x04 x05 x06 x07.
Definition dir0 : bytes := str "/var/backups/frg".
Definition world0 : backup.world := backup.mkWorld ∅ 0.

(** The third call, which writes the snapshot, fails after four bytes. *)
Lemma backup_atomic_witness :
  exists tr w' res,
    backup.BackupDatabase (fun k => Nat.eqb k 2) (fun _ => 4%nat) Z.of_nat (Some dbBytes) (dir0, str "frg.db") [x31] world0 = (tr, w', res) /\
    is_Ok res = false /\ length tr = 8%nat /\
    (forall fs, fs ∈ tr -> (fs !! (dir0, str "frg.db") = backup.files world0 !! (dir0, str "frg.db") \/
      backup.data <$> fs !! (dir0, str "frg.db") = Some (bolt_Write dbBytes))).
Proof.
  destruct (backup.BackupDatabase (fun k => Nat.eqb k 2) (fun _ => 4%nat) Z.of_nat (Some dbBytes) (dir0, str "frg.db") [x31] world0)
    as [[tr w'] res] eqn:E.
  exists tr, w', res. split; [reflexivity|].
  pose proof (f_equal (fun r => (is_Ok (snd r), length (fst (fst r)))) E) as Hc. vm_compute in Hc. injection Hc as Hok Hlen.
  split; [symmetry; exact Hok|]. split; [symmetry; exact Hlen|]. intros fs Hfs.
  refine (proj1 (proj1 (backup_atomic (fun k => Nat.eqb k 2) (fun _ => 4%nat) Z.of_nat world0 dbBytes (dir0, str "frg.db") [x31] tr w' res _ E) fs Hfs)).
  vm_compute. discriminate.
Defined.

Lemma first_backup_panics_witness :
  exists tr w', backup.CreateBackup (fun _ => false) (fun _ => 0%nat) Z.of_nat (Some dbBytes) dir0 7 (str "20260101T000000.000000000Z") [x31] world0
    = (tr, w', Panic).
Proof.
  destruct (first_backup_panics (fun _ => false) (fun _ => 0%nat) Z.of_nat world0 dbBytes dir0 7 (str "20260101T000000.000000000Z") [x31])
    as (tr & w' & Hp & _).
  - intros k. reflexivity.
  - lia.
  - vm_compute. reflexivity.
  - vm_compute. reflexivity.
  - vm_compute. discriminate.
  - exists tr, w'. exact Hp.
Defined.

(** ** Configuration *)
Definition cert0 : bytes := str "certificate".

(** A file that opens the RPC server to the network. *)
Definition publicFile : config.configFile := config.Decoded (fun d =>
  config.mkConfig (config.CNode d) (config.CP2P d)
    (config.mkGRPCConfig (str "0.0.0.0:50051") (str "cert.pem") (str "key.pem") (str "ca.pem") [(rpc.fingerprintOf cert0, str "observer")])
    (config.CMetrics d) (config.CConsensus d) (config.ChainID d)).

Definition publicConfig : config.Config := get config.defaultConfig (config.loadConfig publicFile (Some (fun p => p))).

Lemma publicConfig_eq : config.loadConfig publicFile (Some (fun p => p)) = Ok publicConfig.
Proof. apply get_ok. vm_compute. reflexivity. Qed.

Lemma publicRoles : map fst (config.ClientRoles (config.CGRPC publicConfig)) = [rpc.fingerprintOf cert0].
Proof. vm_compute. reflexivity. Qed.

Definition publicStart : res config.grpcServer :=
  let g := config.CGRPC publicConfig in
  config.startGRPCServer (fun _ => true) (config.GListen g) (config.TLSCertFile g) (config.TLSKeyFile g) (config.TLSClientCAFile g)
    (config.ClientRoles g) (config.ChainID publicConfig) None None.

(** An observer, a stranger whose certificate the CA has signed, and one whose certificate it has not. *)
Definition callFrom (cert : bytes) : rpc.Context_ := rpc.mkContext (rpc.TLSInfo (Some [cert])) None 0 (fun _ => false).
Definition cert1 : bytes := str "another certificate".
Definition cert2 : bytes := str "forged".
Definition caSigned0 (cert : bytes) : bool := negb (bool_decide (cert = cert2)).

Definition runtime0 : rpc.nodeRuntime (gmap bytes bytes) := rpc.mkRuntime true None None None None dbWallet None.

Definition remoteCalls : list (rpc.nodeRuntime (gmap bytes bytes) * rpc.Context_ * config.rpcCall) :=
  [(runtime0, callFrom cert0, config.CallListMempool); (runtime0, callFrom cert0, config.CallSubmitTx None);
   (runtime0, callFrom cert1, config.CallListMempool); (runtime0, callFrom cert1, config.CallHealthCheck []);
   (runtime0, callFrom cert2, config.CallHealthCheck [])].

Lemma remote_calls_authenticated_witness :
  exists srv s', publicStart = Ok srv /\
    config.ServeCalls (fun _ => true) caSigned0 srv remoteCalls =
      Ok (s', [Some (config.MempoolIs []); None; None; Some config.Serving; None]) /\
    allowed caSigned0 (config.ClientRoles (config.CGRPC publicConfig)) (callFrom cert0) config.CallListMempool.
Proof.
  assert (exists srv, publicStart = Ok srv) as [srv Hs] by (apply ok_ex; vm_compute; reflexivity).
  assert (exists s', config.ServeCalls (fun _ => true) caSigned0 srv remoteCalls =
      Ok (s', [Some (config.MempoolIs []); None; None; Some config.Serving; None])) as [s' Hc].
  { vm_compute in Hs. injection Hs as <-. eexists. vm_compute. reflexivity. }
  exists srv, s'. split; [exact Hs|]. split; [exact Hc|].
  destruct (remote_calls_authenticated (fun _ => true) caSigned0 publicFile (Some (fun p => p)) publicConfig (fun _ => true)
    (config.ChainID publicConfig) None None srv remoteCalls s'
    [Some (config.MempoolIs []); None; None; Some config.Serving; None] publicConfig_eq) as (_ & Hall & _).
  - rewrite publicRoles. constructor; [by intros ?%not_elem_of_nil|constructor].
  - vm_compute. reflexivity.
  - exact Hs.
  - exact Hc.
  - apply Forall2_cons_1 in Hall as [Hall _]. apply Hall. discriminate.
Defined.
