(* ===== verification/ToolWitnesses.v ===== *)
(** * Concrete instances of the properties of the commands, the generated networks and the benchmarks *)

From S2P Require Import Prelude GoBytes Errors Platform Hex Sha256 Tx TxProofs TxSigProofs KV Denom Ledger Staking StakingProofs Gas Mint Node Float64.
From S2P Require Import Tree Contract ContractProofs BlockStore Telemetry StateMachine StateMachineProofs BlockProofs FrameProofs Vote BlockLoop.
From S2P Require Import Round Engine Fork Genesis Gossip Rpc Wallet NetAddr FilePath Config ConfigProofs NodeInit Frontend Mcp Cli SparseTree.
From S2P Require Import BlockSync CatchUp EngineAlone TelemetryProofs NodeRun Stream Framing Devnet Witnesses NodeWitnesses.
Import fork.

#[local] Existing Instance witness_platform.
#[local] Existing Instance witness_platform_laws.
#[local] Existing Instance gmap_kv.
#[local] Existing Instance gmap_kv_laws.
#[local] Existing Instance list_order.
#[local] Existing Instance list_order_laws.
#[local] Existing Instance no_contracts.
#[local] Existing Instance plain_json.

(** The platform's private keys begin with their seed. *)
Lemma witness_seed_prefix seed : take 32 (ed25519_NewKeyFromSeed seed) = seed.
Proof.
  change (take 32 (mk_arr 64 (arr_bytes seed ++ sha.sum256 seed)) = arr_bytes seed). rewrite mk_arr_exact.
  - by rewrite take_app_le, take_ge by (rewrite arr_length; lia).
  - rewrite length_app, !arr_length. reflexivity.
Qed.

(** ** Genesis files *)
Lemma bootstrap_well_formed : well_formed (config.bootstrapGenesis [] (key 0)).
Proof.
  destruct bootstrap_amounts as [A1 A2]. destruct minBond_u256 as [P1 P2].
  assert (grants (genesis.Balances (config.bootstrapGenesis [] (key 0))) = {[ keys.PublicKey (key 0) := 10 * staking.minBondAmount ]}) as Hg.
  { unfold grants, grant, config.bootstrapGenesis. cbn [genesis.Balances foldl genesis.Account genesis.Amount]. by rewrite decodeKey_hex, A1. }
  constructor; [| |apply NoDup_singleton|].
  - apply Forall_singleton. exists (keys.PublicKey (key 0)), (10 * staking.minBondAmount). split; [apply decodeKey_hex|]. split; [exact A1|exact P2].
  - apply Forall_singleton. rewrite Hg. exists (keys.PublicKey (key 0)), staking.minBondAmount, (10 * staking.minBondAmount).
    split; [apply decodeKey_hex|]. split; [exact A2|]. split; [apply lookup_singleton_eq|]. clear -P1. lia.
  - rewrite Hg. unfold map_sum. rewrite map_to_list_singleton. cbn [map snd sumZ foldr]. destruct P2. lia.
Qed.

Lemma genesis_accepted_witness :
  exists db', genesis.Apply emptyDB (config.bootstrapGenesis [] (key 0)) = (db', Ok tt) /\ statemachine.CurrentHeight db' = Ok 0.
Proof.
  destruct (genesis_accepted emptyDB (config.bootstrapGenesis [] (key 0)) emptyDB_fresh (bootstrap_apart [] (key 0) escrow_not_key0) bootstrap_well_formed)
    as (db' & Ha & _ & _ & Hh).
  exists db'. exact (conj Ha Hh).
Defined.

Lemma devnet_genesis_accepted_witness :
  exists db', genesis.Apply emptyDB (devnet.genesisOf devnet.defaultFlags (devnet.nodesOf (fun _ => []) devnet.defaultFlags [key 0]) (key 1) (devnet.stressOf [])) = (db', Ok tt).
Proof.
  destruct (devnet_genesis_accepted (fun _ => []) emptyDB devnet.defaultFlags [key 0] (key 1) [] emptyDB_fresh) as (db' & Ha & _).
  - split; [reflexivity|split; reflexivity].
  - apply NoDup_singleton.
  - reflexivity.
  - intros k ->%list_elem_of_singleton. exact escrow_not_key0.
  - exists db'. exact Ha.
Defined.

Lemma devnet_config_refused_witness :
  is_Ok (config.loadConfig (config.Decoded (fun cfg => nodeinit.setKey cfg (str "grpc.listen", nodeinit.TString (devnet.grpcListenOf 50051)))) (Some (fun p => p))) = false.
Proof.
  apply (devnet_config_refused 50051).
  - discriminate.
  - reflexivity.
  - reflexivity.
Defined.

(** ** A data directory *)
Definition absoluteFlags : nodeinit.InitFlags :=
  nodeinit.mkInitFlags (str "/var/lib/frg") (str "frg-devnet-1") (nodeinit.p2pListen nodeinit.defaultInitFlags) config.defaultGRPCListenAddr [] [] []
    config.defaultMetricsListenAddr [] false false [] false (str "podman") (str "frg-node:local") (str "frg-validator") true false.

Definition emptyDisk : nodeinit.Disk := nodeinit.mkDisk (str "/") ∅.
Definition noJson (_ : bytes) : res genesis.Genesis := failf "no genesis".
Definition initRun := nodeinit.runNodeInitCommand everything (fun _ => []) noJson (fun _ => Ok (str "peer")) nodeinit.InitFirstNetwork absoluteFlags (Ok (key 0)) emptyDisk.

Lemma init_then_start_witness :
  exists d' s d2 kp, initRun = (d', Ok s) /\
    nodeinit.startNode everything (fun _ => []) setKeys (str "/var/lib/frg/config.toml") (Ok (key 1)) (nodeinit.mkDisk (str "/root") (nodeinit.files d'))
      = (d2, Ok (nodeinit.initConfig absoluteFlags, kp)) /\ keys.PublicKey kp = nodeinit.validator_pubkey s.
Proof.
  assert (is_Ok (snd initRun) = true) as Hok by (vm_compute; reflexivity).
  destruct initRun as [d' [s| |]] eqn:E; [|discriminate Hok..].
  destruct (init_then_start (fun _ => []) noJson (fun _ => Ok (str "peer")) setKeys everything everything nodeinit.InitFirstNetwork absoluteFlags
    (Ok (key 0)) (Ok (key 1)) emptyDisk d' s (str "/root")) as [Hnew _].
  - exact witness_seed_prefix.
  - intros doc cfg _ _ _. reflexivity.
  - vm_compute. reflexivity.
  - intros k Hk. apply Ok_inj in Hk as <-. apply key_generated.
  - intros p. repeat split.
  - reflexivity.
  - repeat (apply Forall_cons; split; [left; reflexivity|]). constructor.
  - exact E.
  - destruct Hnew as (d2 & kp & Hs & Hk); [right; reflexivity|]. exists d', s, d2, kp. exact (conj eq_refl (conj Hs Hk)).
Defined.

(** ** Agents *)
Definition demo_policy : mcp.policyFile := mcp.mkPolicyFile true false false (str "5") [] (str "6") [] [] [].

#[local] Instance demo_json : mcp.Json :=
  {| mcp.json_policy _ _ := Ok demo_policy;
     mcp.json_request m := Ok (mcp.mkRequest (str "1") (str "tools/call") m);
     mcp.json_toolCall m := Ok (str "frg_transfer", m);
     mcp.json_fields _ m := Ok (fun field => if bool_decide (field = str "to") then hex_EncodeToString bob else if bool_decide (field = str "amount") then m else []);
     mcp.json_terms _ := [];
     mcp.unicode_ToLower s := s |}.

Definition demo_node : frontend.Node :=
  frontend.mkNode (failf "none") (fun pk => Ok (frontend.mkAccount pk (str "0") 0)) (Ok []) (Ok []) (fun _ => failf "none") (fun _ _ => failf "none") (fun _ => Ok true) (fun _ => Ok true).
Definition demo_world : mcp.World := mcp.mkWorld demo_node (fun _ => None) (fun _ _ => failf "none").
Definition demo_msgs : list (mcp.World * bytes) := [(demo_world, str "4"); (demo_world, str "4"); (demo_world, str "2")].

Lemma mcp_spend_bounded_witness :
  exists p s log ots, mcp.loadPolicy (Some (Ok [])) true = Ok p /\ mcp.dailyLimit p = 6 * denom.QuantaPerFRG /\
    mcp.serve (mcp.mkServer wallet0 [] [] (Some p)) demo_msgs = (s, log) /\ map (fun x => zlen (fst x)) log = [1; 0; 1] /\
    sumZ (zip_with counted log ots) <= mcp.dailyLimit p.
Proof.
  assert (exists p, mcp.loadPolicy (Some (Ok [])) true = Ok p) as [p Hp] by (apply ok_ex; vm_compute; reflexivity).
  assert (mcp.dailyLimit p = 6 * denom.QuantaPerFRG) as Hd.
  { assert (match mcp.loadPolicy (Some (Ok [])) true with Ok p => mcp.dailyLimit p =? 6 * denom.QuantaPerFRG | _ => false end = true) as Hv by (vm_compute; reflexivity).
    rewrite Hp in Hv. apply Z.eqb_eq. exact Hv. }
  assert (match mcp.loadPolicy (Some (Ok [])) true with
          | Ok p => bool_decide (map (fun x => zlen (fst x)) (snd (mcp.serve (mcp.mkServer wallet0 [] [] (Some p)) demo_msgs)) = [1; 0; 1])
          | _ => false end = true) as Hl by (vm_compute; reflexivity).
  rewrite Hp in Hl. apply bool_decide_eq_true in Hl.
  destruct (mcp.serve (mcp.mkServer wallet0 [] [] (Some p)) demo_msgs) as [s log] eqn:Es.
  destruct (mcp_spend_bounded (Some (Ok [])) true p wallet0 [] [] demo_msgs s log Hp Es) as (ots & _ & Hsum).
  exists p, s, log, ots. exact (conj Hp (conj Hd (conj Es (conj Hl Hsum)))).
Defined.

(** ** The command line *)
Definition cli_env (k : keys.Keypair) : cli.Env :=
  cli.mkEnv (fun _ => Ok (take 32 (keys.PrivateKey k))) (fun _ => true) (failf "none") (fun _ => failf "none") (fun _ => []).
Definition prepare_args : list bytes := [str "--to"; hex_EncodeToString (keys.PublicKey (key 1)); str "--amount"; str "2"].
Definition prepared : bytes := match cli.result (cli.main (cli_env (key 0)) (str "prepare" :: prepare_args)) with Ok (cli.TxLine _ h) => h | _ => [] end.

Lemma cli_prepared_lost_witness :
  exists txid h txid2 h2, cli.result (cli.main (cli_env (key 0)) (str "prepare" :: prepare_args)) = Ok (cli.TxLine txid h) /\
    cli.result (cli.main (cli_env (key 1)) [str "countersign"; str "--tx"; h]) = Ok (cli.TxLine txid2 h2) /\
    exists raw t, hex_DecodeString h2 = Some raw /\ p2p.parseTxForChain raw tx.DefaultChainID = Ok t /\ tx.Nonce t = 0.
Proof.
  assert (exists txid, cli.result (cli.main (cli_env (key 0)) (str "prepare" :: prepare_args)) = Ok (cli.TxLine txid prepared)) as [txid H1].
  { unfold prepared. assert (match cli.result (cli.main (cli_env (key 0)) (str "prepare" :: prepare_args)) with Ok (cli.TxLine _ _) => true | _ => false end = true) as Hv by (vm_compute; reflexivity).
    destruct (cli.result (cli.main (cli_env (key 0)) (str "prepare" :: prepare_args))) as [[]| |]; try discriminate Hv. eexists. reflexivity. }
  assert (exists txid2 h2, cli.result (cli.main (cli_env (key 1)) [str "countersign"; str "--tx"; prepared]) = Ok (cli.TxLine txid2 h2)) as (txid2 & h2 & H2).
  { assert (match cli.result (cli.main (cli_env (key 1)) [str "countersign"; str "--tx"; prepared]) with Ok (cli.TxLine _ _) => true | _ => false end = true) as Hv by (vm_compute; reflexivity).
    destruct (cli.result (cli.main (cli_env (key 1)) [str "countersign"; str "--tx"; prepared])) as [[]| |]; try discriminate Hv. eexists _, _. reflexivity. }
  destruct (cli_prepared_lost (B := gmap bytes bytes) (cli_env (key 0)) prepare_args txid prepared (key 0) (cli_env (key 1)) [str "--tx"; prepared] txid2 h2) as (raw & t & Hr & Ht & _ & Hn & _).
  - vm_compute. reflexivity.
  - apply key_generated.
  - exact H1.
  - vm_compute. reflexivity.
  - exact H2.
  - exists txid, prepared, txid2, h2. refine (conj H1 (conj H2 _)). exists raw, t. exact (conj Hr (conj Ht Hn)).
Defined.

(** ** The sparse Merkle tree *)
Lemma smt_root_reference_witness :
  snd (smt.Root (fun m => map snd (map_to_list m)) (inserted [(alice, 5); (bob, 6); (alice, 7)])) = completeRoot 256 (valueAt (reverse [(alice, 5); (bob, 6); (alice, 7)])).
Proof.
  apply (smt_root_reference (fun m => map snd (map_to_list m))).
  - intros m. reflexivity.
  - discriminate.
Defined.

(** ** The pairing check *)
Lemma pairing_canonical_witness :
  contract.Bn254PairingCheck (replicate 192 x00) = Ok false /\
  exists pairs, pairs <> [] /\ replicate 192 x00 = concat (map encodePair pairs).
Proof.
  assert (contract.Bn254PairingCheck (replicate 192 x00) = Ok false) as H by (vm_compute; reflexivity). split; [exact H|].
  destruct (pairing_canonical (replicate 192 x00) false H) as [[Hn _]|(pairs & Hp & Hi & _)]; [discriminate Hn|]. exists pairs. exact (conj Hp Hi).
Defined.

(** ** A life of three starts *)
Definition threeSessions : list session :=
  [mkSession (failf "no file") [] [];
   mkSession (Ok (config.bootstrapGenesis [] (key 0))) [] [attempt1];
   mkSession (Ok (config.bootstrapGenesis [] (key 1))) [] [attempt1; attempt1]].

Lemma threeSessions_ok : Forall session_ok threeSessions.
Proof.
  repeat (apply Forall_cons; split); [| | |constructor]; (split; [|intros g Hg; apply Ok_inj in Hg as <- || discriminate Hg]).
  - constructor.
  - apply Forall_cons. split; [exact attempt1_ok|constructor].
  - exact (bootstrap_apart [] (key 0) escrow_not_key0).
  - apply Forall_cons. split; [exact attempt1_ok|]. apply Forall_cons. split; [exact attempt1_ok|constructor].
  - apply bootstrap_apart. apply (bool_decide_eq_false_1 (staking.escrowAccount (keys.PublicKey (key 1)) = keys.PublicKey (key 1))).
    vm_compute. reflexivity.
Qed.

Lemma lifetime_supply_exact_witness :
  let db' := foldl runSession emptyDB threeSessions in
  statemachine.CurrentTotalSupply db' = (ledger.totalBalance db', true).
Proof.
  cbv zeta. destruct (lifetime_supply_exact emptyDB threeSessions emptyDB_fresh threeSessions_ok) as [[_ Hno]|(_ & Hs & _)]; [|exact Hs].
  exfalso. apply (Hno (mkSession (Ok (config.bootstrapGenesis [] (key 0))) [] [attempt1]) (config.bootstrapGenesis [] (key 0))).
  - apply list_elem_of_further, list_elem_of_here.
  - reflexivity.
  - left. reflexivity.
  - exact bootstrap_well_formed.
Defined.

(** ** A first network *)
Definition writeGenesis (g : genesis.Genesis) : bytes :=
  match genesis.Validators g with v :: _ => genesis.PubKey v ++ genesis.ChainID g | [] => [] end.
Definition readGenesis (b : bytes) : res genesis.Genesis :=
  Ok (genesis.mkGenesis (drop 64 b) [genesis.mkValidatorEntry (take 64 b) config.defaultGenesisBond]
        [genesis.mkBalanceEntry (take 64 b) config.defaultGenesisBalance]).

Lemma writeGenesis_read : genesis_reads_back writeGenesis readGenesis.
Proof.
  intros chainID kp _. unfold writeGenesis, readGenesis, config.bootstrapGenesis. cbn [genesis.Validators genesis.PubKey genesis.ChainID].
  assert (length (hex_EncodeToString (keys.PublicKey kp)) = 64%nat) as Hl.
  { apply Nat2Z.inj. change (zlen (hex_EncodeToString (keys.PublicKey kp)) = 64). rewrite zlen_hex, zlen_arr. reflexivity. }
  rewrite take_app_length', drop_app_length' by (symmetry; exact Hl || exact Hl). reflexivity.
Qed.

Definition firstFlags : nodeinit.InitFlags := absoluteFlags.
Definition firstRun := nodeinit.runNodeInitCommand everything writeGenesis readGenesis (fun _ => Ok (str "peer")) nodeinit.InitFirstNetwork firstFlags (Ok (key 0)) emptyDisk.
Definition quietEnv : noderun.Env := noderun.mkEnv false true (fun _ => true) (fun _ => true) (fun _ _ => false) (fun _ => []) 1.

Lemma quietEnv_quiet : quiet_start quietEnv.
Proof. constructor; (reflexivity || (intros; reflexivity) || (cbn; lia)). Qed.

Lemma firstFlags_new : new_directory firstFlags emptyDisk.
Proof.
  split; [reflexivity|]. split; [repeat (apply Forall_cons; split; [left; reflexivity|]); constructor|].
  split; [split; [split; reflexivity|reflexivity]|]. split_and!; reflexivity.
Qed.

Lemma first_network_comes_up_witness :
  exists d' s kp g db1 r e, firstRun = (d', Ok s) /\ keys.PublicKey kp = nodeinit.validator_pubkey s /\
    snd (noderun.main 4 elements quietEnv (nodeinit.initConfig firstFlags) kp 2 (Ok g) emptyDB) = Some (Ok r) /\
    noderun.r_db r = db1 /\ staking.BondedAmounts db1 = Ok ([keys.PublicKey kp], [staking.minBondAmount]) /\ noderun.r_engine r = Some (Ok e).
Proof.
  assert (match firstRun with (_, Ok s) => negb (bool_decide (staking.escrowAccount (nodeinit.validator_pubkey s) = nodeinit.validator_pubkey s)) | _ => false end = true)
    as Hok by (vm_compute; reflexivity).
  destruct firstRun as [d' [s| |]] eqn:E; [|discriminate Hok..]. apply negb_true_iff, bool_decide_eq_false_1 in Hok.
  destruct (first_network_comes_up 4 elements writeGenesis readGenesis (fun _ => Ok (str "peer")) setKeys everything everything firstFlags (Ok (key 0)) (Ok (key 1))
    emptyDisk d' s (str "/root") quietEnv emptyDB 0 10 (rpc.mkMetrics 0 0 0 0) (noderun.mkSyncMetrics 0 0) (str "1"))
    as (d2 & kp & g & db1 & r & e & _ & Hpk & Hload & Hmain & Hr & Hb & _ & _ & He & _).
  - exact witness_seed_prefix.
  - intros doc cfg _ _ _. reflexivity.
  - vm_compute. reflexivity.
  - exact writeGenesis_read.
  - intros b. exists (str "{}"). split; [reflexivity|]. vm_compute. discriminate.
  - intros x. reflexivity.
  - intros k Hk. apply Ok_inj in Hk as <-. apply key_generated.
  - intros p. repeat split.
  - exact firstFlags_new.
  - exact E.
  - exact Hok.
  - exact emptyDB_fresh.
  - exact quietEnv_quiet.
  - exists d', s, kp, g, db1, r, e. split; [reflexivity|]. split; [exact Hpk|]. rewrite Hmain. exact (conj eq_refl (conj Hr (conj Hb He))).
Defined.

(** ** Telemetry

    A writer of JSON that writes the telemetry of one block and nothing else. *)
Definition telemetry1 : res telemetry.BlockTelemetry :=
  let* r := tree.BuildTreeRoot (blockstore.Txs block1) [] in telemetry.BuildBlockTelemetry (Some (with_root block1 r)) [] true.

#[local] Instance sig_eq_dec : EqDecision telemetry.SignatureTelemetry.
Proof. solve_decision. Defined.
#[local] Instance txtype_eq_dec : EqDecision telemetry.TxTypeTelemetry.
Proof. solve_decision. Defined.
#[local] Instance float_eq_dec : EqDecision float64.t.
Proof. solve_decision. Defined.
#[local] Instance level_eq_dec : EqDecision telemetry.RGLevelTelemetry.
Proof. solve_decision. Defined.
#[local] Instance telemetry_eq_dec : EqDecision telemetry.BlockTelemetry.
Proof. solve_decision. Defined.

Definition one_json : telemetry.Json :=
  {| telemetry.json_Marshal t :=
       match telemetry1 with Ok u => if decide (t = u) then Ok (str "telemetry of block 1") else failf "not written" | _ => failf "not written" end;
     telemetry.json_Unmarshal _ := telemetry1 |}.

#[local] Existing Instance one_json.

#[local] Instance one_json_laws : telemetry.JsonLaws.
Proof.
  constructor. intros t data _ Hw. cbn in *. destruct telemetry1 as [u| |]; [|discriminate Hw..].
  destruct (decide (t = u)) as [->|]; [reflexivity|discriminate Hw].
Qed.

Definition applied1 : res (DB (gmap bytes bytes) * statemachine.Result) :=
  match statemachine.ApplyBlockForChain 4 elements db4 block1 [] with
  | (db', Ok r) => Ok (db', r)
  | (_, Err e) => Err e
  | (_, Panic) => Panic
  end.

Lemma telemetry_served_witness :
  exists db' r resp, statemachine.ApplyBlockForChain 4 elements db4 block1 [] = (db', Ok r) /\
    rpc.GetBlockTelemetry None rpc.NoAuthInfo (rpc.mkRuntime true None None (Some db') (Some db') db' None) 1 = Ok resp /\
    frgpb.tx_count resp = 1 /\ frgpb.total_value resp = telemetry.big_text 5.
Proof.
  assert (is_Ok applied1 = true) as Hok by (vm_compute; reflexivity). unfold applied1 in Hok.
  destruct (statemachine.ApplyBlockForChain 4 elements db4 block1 []) as [db' [r| |]] eqn:E; [|discriminate Hok..].
  destruct (telemetry_served 4 elements db4 block1 [] db' r [] None rpc.NoAuthInfo
    (rpc.mkRuntime true None None (Some db') (Some db') db' None) E) as (resp & Hq & _ & _ & _ & _ & Hc & Htot & _).
  - intros s. reflexivity.
  - discriminate.
  - reflexivity.
  - reflexivity.
  - reflexivity.
  - exists db', r, resp. split; [reflexivity|]. split; [exact Hq|]. split; [exact Hc|exact Htot].
Defined.

(** ** A subscriber and the engine *)
Definition subscriberActs : list hub.action :=
  [hub.SubscribeBlocks 7 rpc.NoAuthInfo; hub.Arrive proposalData; hub.StreamTakes 7 true; hub.EngineTakes; hub.Arrive (str "next"); hub.EngineTakes].

Lemma blocks_dealt_once_witness :
  exists h s, hub.run None (hub.start (p2p.mkConfig [] [] [] false)) subscriberActs = Ok h /\
    hub.streams h !! 7%nat = Some s /\ (proposalData ∈ hub.sent s) /\ (proposalData ∉ hub.engineSaw h) /\ hub.engineSaw h = [str "next"].
Proof.
  eexists _, _. assert (hub.run None (hub.start (p2p.mkConfig [] [] [] false)) subscriberActs =
    Ok (hub.mkHub (p2p.New (p2p.mkConfig [] [] [] false)) [str "next"] {[7%nat := hub.mkStream [proposalData] [] true]} [proposalData; str "next"])) as Hr
    by (vm_compute; reflexivity).
  destruct (blocks_dealt_once None _ _ _ Hr) as [_ Hd].
  split; [exact Hr|]. split; [reflexivity|]. split; [apply list_elem_of_here|]. split; [|reflexivity].
  refine (proj1 (Hd _ 7%nat (hub.mkStream [proposalData] [] true) proposalData eq_refl _)); [|apply list_elem_of_here].
  apply (bool_decide_unpack (NoDup [proposalData; str "next"])). vm_compute. exact I.
Defined.

(** ** A session of an agent over the pipe *)
Definition numbered (id : bytes) (r : mcp.response) : bytes := str "answer " ++ id.

Lemma pipe_carries_session_witness :
  exists s log written r, mcp.serve (mcp.mkServer wallet0 [] [] None) demo_msgs = (s, log) /\
    framing.serve numbered (mcp.mkServer wallet0 [] [] None) (map fst demo_msgs) (concat (map framing.writeMessage (map snd demo_msgs))) = (s, (map fst log, written, r)) /\
    readAll 4 written = [str "answer 1"; str "answer 1"; str "answer 1"].
Proof.
  assert (answersOf numbered (map snd demo_msgs) (snd (mcp.serve (mcp.mkServer wallet0 [] [] None) demo_msgs)) = [str "answer 1"; str "answer 1"; str "answer 1"]) as Ha
    by (vm_compute; reflexivity).
  destruct (mcp.serve (mcp.mkServer wallet0 [] [] None) demo_msgs) as [s log] eqn:Es. cbn [snd] in Ha.
  destruct (pipe_carries_session numbered (mcp.mkServer wallet0 [] [] None) (map fst demo_msgs) (map snd demo_msgs) s log 4) as (written & r & Hs & Hw & _).
  - repeat constructor; apply (bool_decide_unpack _); vm_compute; exact I.
  - reflexivity.
  - exact Es.
  - rewrite Ha. repeat constructor; apply (bool_decide_unpack _); vm_compute; exact I.
  - cbn. lia.
  - exists s, log, written, r. split; [reflexivity|]. split; [exact Hs|]. rewrite Hw. exact Ha.
Defined.
